(* ===== verification/_CoqProject ===== *)
-Q . S2P
Prelude.v
Bytes.v
GoStrings.v
GoMux.v
GoFloat.v
GoFloatInt.v
GoParse.v
GoFlag.v
QualityModel.v
QualityEngine.v
SendQueue.v
ClusterTypes.v
Registry.v
RoomLocator.v
LoadStore.v
RoomRouter.v
Cluster.v
Lifecycle.v
Teardown.v
Messaging.v
Recovery.v
Sfu.v
SfuInvariant.v
SfuSteps.v
SfuSafety.v
Negotiation.v
MediaWire.v
MediaTransport.v
MediaBridge.v
MediaBridgeSafety.v
Wiring.v
Mirrors.v
Sessions.v
Auth.v
Signaling.v
SignalingSteps.v
SignalingSafety.v
RedisState.v
History.v
Api.v
ApiRoutes.v
Webhook.v
SfuStats.v
ApiCore.v
Config.v
ClusterFacade.v
ClusterHttp.v
Prometheus.v
ClusterScrape.v
LoadTest.v
LoadClient.v
LoadRunner.v
Tools.v
Server.v
