(* ===== verification/Prelude.v ===== *)
(** * PulseRTC: a verification development (root file)

    PulseRTC is a WebRTC conferencing server in Go: browsers connect by
    WebSocket to a signaling server, publish audio and video tracks to a
    Selective Forwarding Unit (SFU) and receive the tracks of the others in
    their room; several server nodes form a cluster in which every room is owned
    by one node; a quality engine turns browser statistics into verdicts.  This
    library models the program's own logic as Gallina functions translated from
    the sources under src/internal and proves what makes it correct.

    ** The parts of the program and where they are modelled

    - The media plane (src/internal/sfu).
      - [SendQueue]: sendqueue.go and subscription.go.  One subscriber's bounded
        queue, the shared pool of packet buffers as a heap of buffer ids, and the
        writer goroutine, interleaved with the producer and the teardown.
      - [Sfu]: core_sfu.go, core_room.go, core_participant.go, publication.go,
        remote.go, permissions.go.  Rooms, participants, publications and
        subscriptions as objects of a heap shared by pointer; every call of the
        signaling layer, of the WebRTC callbacks, of the media bridge and of the
        goroutines the SFU starts.
      - [SfuInvariant], [SfuSteps], [SfuSafety]: the invariant of that object
        graph, its preservation by every operation at the grain of the
        goroutines, and the theorems about every reachable state.
      - [Negotiation]: the offer/answer handlers of core_participant.go and the
        limiter of negotiation.go, cut at the calls into the WebRTC library.
    - The cluster (src/internal/cluster).
      - [ClusterTypes]: node.go, errors.go and the configuration with its
        validation.
      - [Registry]: registry.go.
      - [RoomLocator]: routing_room_locator.go.  The interface of the ownership
        store as a type class with laws, the in-memory store as its instance.
      - [LoadStore]: routing_participant_locator.go, health_load.go.
      - [RoomRouter]: routing_roomrouter.go, the placement of new rooms.
      - [Cluster]: the room claims of cluster.go, with the peer query of
        noderpc_http.go and noderpc_transport.go, proved against the interface.
      - [Lifecycle]: the node lifecycle of cluster.go; [Teardown]: Shutdown call by
        call beside the heartbeat loop and the load reporter of health_load.go.
      - [Wiring]: the sort of the Redis node list, the announced media address, the
        local placement rule and the load provider.
      - [Messaging]: noderpc_*.go and routing_participant.go, node-to-node
        messages with duplicate suppression, retries and participant routing,
        and the delivery of src/internal/signaling/delivery_cluster.go.
      - [Recovery]: recovery_failure_detector.go, recovery_manager.go.
      - [RedisState]: state_redis.go and state_redis_client.go, the four stores
        over the commands of the Redis client, both Lua scripts included; a
        second instance of the interfaces of RoomLocator and LoadStore.
      - [MediaWire]: the datagrams of media_transport.go, byte by byte.
      - [MediaTransport]: media_transport.go, media_conn.go: authentication by
        HELLO, connections, send queues, everything the socket can read.
      - [MediaBridge], [MediaBridgeSafety]: media_bridge.go, media_session.go,
        media_remotetrack.go: sessions between nodes, mirrored tracks and
        forwarders as shared objects, cut where a goroutine waits for its peer.
      - [ClusterHttp]: the /internal endpoints and the readiness probe of
        noderpc_http.go.
    - The signaling server (src/internal/signaling, src/internal/room).
      - [Mirrors]: delivery_media.go.  [Sessions]: session.go.
      - [Signaling]: ws_server.go, ws_client.go, session_handlers.go,
        session_snapshot.go, protocol.go, qoe_bridge.go, delivery_cluster.go,
        the room close of api_core.go, room/manager.go and room/room.go.
        Connections and rooms live on a heap; join and disconnect are cut where
        other goroutines can run.
      - [SignalingSteps], [SignalingSafety]: the step relation of the server, its
        invariant, and the theorems about every reachable state.
    - [Auth]: src/internal/auth and cluster/internalauth.go: tokens, permissions,
      rate limits and the request gates.
    - [History]: src/internal/history, the call summaries.
    - The management API (src/internal/api).
      - [Api]: keys and scopes, the gate, the room registry with its idempotency
        keys, the service and the minted tokens.
      - [ApiRoutes]: handlers.go, router.go, errors.go and the request ids of
        middleware.go: the ten endpoints from the request to the response.
      - [Webhook]: webhook.go, the dispatcher of outbound events.
      - [ApiCore]: signaling/api_core.go, what the API sees of the server: it
        reads the states of Signaling, SfuStats, Sessions and QualityEngine.
    - [SfuStats]: sfu/stats.go, stats_metrics.go and histogram.go, the statistics
      over the state of Sfu.
    - [ClusterFacade]: the rest of cluster.go (where participants are, room events to
      other nodes, the round of peer queries) and metrics.go with its snapshot.
    - [Prometheus]: internal/metrics/prometheus.go and signaling/metrics_prom.go, the
      text a scraper reads; [ClusterScrape]: the cluster block of it.
    - The commands (src/cmd).
      - [Server]: cmd/server with NewServer and the SFU's New: construction, the
        route table, every endpoint over the joint state of the components, the
        background loops, start and stop.
      - [Tools]: cmd/token and cmd/benchcheck, from the command line on.
    - The load-test tool (src/internal/loadtest, src/cmd/loadtest).
      - [LoadTest]: configuration and presets, tokens, summaries, the regression gate.
      - [LoadClient]: a simulated participant and the loops that start and retire
        them.
      - [LoadRunner]: the command line, what a participant sends and measures, and
        the whole run.
    - [Config]: what each package reads from its environment variables (the
      FromEnv functions of cluster, auth, api, sfu, signaling and cmd/server), the
      checks and defaults of the constructors, and the reconnection delays.
    - The quality engine (src/internal/quality).
      - [GoFloat]: float64 as the standard library's specification floats;
        [GoFloatInt]: the integers among them, floor and ceiling.
      - [QualityModel]: samples, thresholds, rules and scores.
      - [QualityEngine]: windows, hysteresis, events and snapshots.
    - The Go standard library, as far as it is used: [Bytes] (big-endian
      integers, base64url, hex), [GoStrings] (trimming, splitting, decimal
      integers), [GoParse] (strconv.Atoi, ParseBool, time.ParseDuration; its
      loop has as much fuel as the text has characters, and more changes nothing),
      [GoFlag] (command lines, integers in any base) and [GoMux] (the patterns of
      http.ServeMux: conflicts, precedence, path variables).

    This file holds what they share: time and machine integers, slices, sorting,
    sums over maps, and the monad [M] (state, observable actions, result) in
    which the handlers are written, with its rewriting database [mrun], its
    [preserves] hints and its weakest preconditions [wp].

    ** How code becomes definitions

    One definition per function or method, of the same name where possible, with
    the lines it translates in its comment.  Structs are records, a map is a
    [gmap] (a set of true entries a [gset]), a shared mutable object lives in a
    heap and is passed by pointer.  A method that holds a mutex from beginning to
    end is one atomic step; where a method releases its lock, calls out or starts
    a goroutine, the pieces are separate steps and the theorems quantify over the
    interleavings (the schedules of SendQueue, Cluster, Messaging, Recovery,
    Negotiation, MediaTransport, Teardown and Webhook, the step relations of SfuSteps,
    MediaBridgeSafety and SignalingSteps).  Clock readings, minted uuids and
    the outcomes of the network are arguments.  The order in which [range] visits
    a map is an arbitrary permutation: an argument (Sfu, QualityEngine), or
    irrelevant because the result is a set.  Errors are values of sum or option
    types; a Go panic is [None].  [int64] arithmetic wraps where a result can
    leave the range; floats are binary64 with Go's operations in Go's order.
    Every definition is total: recursion is structural on lists or on the number
    of retries.  Where the code loops until a deadline the iterations are bounded
    by the deadline and the bound is proved enough (waitActive of MediaBridge:
    the polls that fit into the request timeout; the worker of Webhook: three
    attempts for each event).

    What is not under src/ is a parameter with laws, and each class of laws has a
    concrete instance on which the witnesses run: the WebRTC library (the
    environment of Sfu, the class [PeerConnection] of Negotiation with the
    signaling-state table as its laws), the HMAC and JSON of tokens (Auth), the
    HMAC of media sessions (MediaTransport), the Redis server (RedisState: the
    documented effect of each command), SHA-256 and JSON of the API (Api), the
    receiver of webhooks (Webhook).

    ** What the theorems show

    - The room is an isolation boundary: a forwarded packet reaches only the open
      queues of authorised subscribers of the same room, and each of them exactly
      once; leaving severs every link; the counters count the objects
      ([SfuSafety]).  The send queue refines a list with a drop policy, buffers
      are never shared, packets arrive in order and the writer stops after
      persistent errors ([SendQueue]).  Keyframe requests are rate limited and at
      most one SFU offer is in flight ([SfuSafety], [Negotiation]).
    - A room has one owner, whatever the nodes do concurrently, and a failing
      store refuses the room instead of splitting it ([Cluster], [RoomLocator]);
      a message is handled at most once and routed with at most one refresh
      ([Messaging]); only rooms of nodes seen as stale are taken over
      ([Recovery]); new rooms go to a least loaded eligible node ([RoomRouter]);
      the detector scan refines a one-node automaton ([Recovery]); a participant
      is located where some node has it on file, a room event reaches each other
      node of the room once, and the cluster counters add up ([ClusterFacade]); a node
      that was shut down is forgotten, whatever its loops do meanwhile ([Teardown]).
    - The Redis stores refine the in-memory ones, command by command and with
      other clients in between ([RedisState]).
    - A media datagram is delivered only from an authenticated peer and its bound
      address, frames decode to what was encoded ([MediaWire],
      [MediaTransport]); a mirrored packet reaches only the track it was
      subscribed for, and closing a session releases everything it held
      ([MediaBridgeSafety], [Mirrors]).
    - A connection is a member of at most one room, the one it was admitted to;
      what a client sends reaches only members of its own room; a refused join
      and a disconnect leave what they should ([SignalingSafety]); a resumed
      session fences the connection it replaces ([Sessions]).
    - A token validates only when it was signed with the secret and satisfies the
      policy, and one that was signed validates ([Auth]); a token the API mints
      admits to the room it was asked for with the permissions requested; the API
      serves exactly the configured keys within their scopes; creation is
      idempotent under an idempotency key ([Api]); webhook events are accounted
      for and drained ([Webhook]); call summaries add up to the time spent
      ([History]); what the API reports of a room is what the server serves
      ([ApiCore]); the gauges of the metrics agree with the counters and with the
      load report ([SfuStats]); a scraper reads back exactly the samples that were
      written, with one header for each family and cumulative buckets
      ([Prometheus]), and the cluster counters get one gauge each
      ([ClusterScrape]).
    - Every answer of the management API has the documented form, whatever came before
      ([ApiRoutes]); to a caller without the secret the internal endpoints are opaque
      and inert ([ClusterHttp]); over the whole HTTP surface the API acts only through
      its gate and always when it should, and a caller without credentials learns and
      changes nothing ([Server]).
    - A token printed by the token command opens a server with the same environment
      ([Tools]).
    - Whatever the environment holds, the SFU starts from a configuration that
      satisfies its own checks, and an unconfigured deployment fails closed
      ([Config]).
    - The summary of a load test exists whatever was sampled and does not depend on
      the order of the samples; the gate fails exactly on a regression ([LoadTest]);
      candidates reach a simulated participant's connection once, in order, after a
      description ([LoadClient]); the command line overrides its scenario as written, a
      participant's token is accepted by a server with the same secret, and a run
      accounts for and closes everybody it started ([LoadRunner]).
    - Verdicts are in range, justified by the rules that fired, stable under
      flapping samples and independent of map order; no sequence of samples makes
      the engine panic ([QualityModel], [QualityEngine]).
    - Some theorems exhibit behaviour the sources' comments exclude; they are
      stated as such next to the definitions they concern.

    ** What is not modelled

    Sockets and the WebSocket upgrade, the text of JSON bodies (a body is the value it
    stands for, except where a theorem is about the text), logging, static files, result
    files and the printed report of the load test are input/output around the logic above.
    The in-memory message transport and the constructors that only tests use are left
    out.  Accessors and the repeated environment readers of each package are represented
    by the one definition they share ([Config]). *)

From Stdlib Require Export ZArith Lia.
From stdpp Require Export sorting strings gmap option numbers base tactics list.

#[export] Set Warnings "-clear-no-such-hyp".

(** Go code is modelled with [Z] for its machine integers, so the numeric
    notations default to [Z] in every file of the library. *)
#[global] Open Scope Z_scope.

(** ** Time

    A [time.Time] is its number of nanoseconds since Go's zero time, so
    [IsZero] is [= 0]; a [time.Duration] is a signed 64-bit count of
    nanoseconds.  [Time.Sub] saturates at the ends of the duration range, as
    the standard library does. *)
Definition max_duration : Z := 2 ^ 63 - 1.

Definition min_duration : Z := - 2 ^ 63.

Definition time_sub (a b : Z) : Z :=
  Z.max min_duration (Z.min max_duration (a - b)).

Definition second : Z := 1000000000.

Definition millisecond : Z := 1000000.

(** A duration a program can hold. *)
Definition is_duration (d : Z) : Prop := min_duration ≤ d ≤ max_duration.

(** Comparing a saturated difference against a duration is comparing the
    difference itself, except at the very end of the range. *)
Lemma time_sub_gt a b d :
  is_duration d → d < max_duration → time_sub a b > d ↔ a - b > d.
Proof. unfold time_sub, is_duration, min_duration, max_duration. lia. Qed.

Lemma time_sub_lt a b d :
  is_duration d → min_duration < d → time_sub a b < d ↔ a - b < d.
Proof. unfold time_sub, is_duration, min_duration, max_duration. lia. Qed.

(** ** Machine integers *)

(** Two's complement wrap-around of [int] / [int64] arithmetic. *)
Definition wrap64 (z : Z) : Z := (z + 2 ^ 63) mod 2 ^ 64 - 2 ^ 63.

Lemma wrap64_id z : - 2 ^ 63 ≤ z < 2 ^ 63 → wrap64 z = z.
Proof. intros H. unfold wrap64. rewrite Z.mod_small; lia. Qed.

Lemma wrap64_range z : - 2 ^ 63 ≤ wrap64 z < 2 ^ 63.
Proof. unfold wrap64. pose proof (Z.mod_pos_bound (z + 2 ^ 63) (2 ^ 64)). lia. Qed.

Lemma wrap64_shift a k : wrap64 (a + k * 2 ^ 64) = wrap64 a.
Proof.
  unfold wrap64. replace (a + k * 2 ^ 64 + 2 ^ 63) with (a + 2 ^ 63 + k * 2 ^ 64) by lia. by rewrite Z.mod_add.
Qed.

Lemma wrap64_eq a : ∃ k, wrap64 a = a + k * 2 ^ 64.
Proof.
  exists (- ((a + 2 ^ 63) / 2 ^ 64)). unfold wrap64. pose proof (Z.div_mod (a + 2 ^ 63) (2 ^ 64)). lia.
Qed.

Lemma wrap64_add a b : wrap64 (wrap64 a + b) = wrap64 (a + b).
Proof.
  destruct (wrap64_eq a) as [k ->]. replace (a + k * 2 ^ 64 + b) with (a + b + k * 2 ^ 64) by lia. apply wrap64_shift.
Qed.

(** ** Slices *)

(** [l[len(l)-n:]]: the last [n] elements (all of them when there are fewer,
    which is the only case the sources reach the expression without the
    guard [len(l) > n]). *)
Definition last_n {A} (n : nat) (l : list A) : list A := drop (length l - n) l.

Lemma length_last_n {A} n (l : list A) : length (last_n n l) = (n `min` length l)%nat.
Proof. unfold last_n. rewrite length_drop. lia. Qed.

Lemma last_n_all {A} n (l : list A) : (length l ≤ n)%nat → last_n n l = l.
Proof. intros H. unfold last_n. by replace (length l - n)%nat with 0%nat by lia. Qed.

Lemma last_n_suffix {A} n (l : list A) : ∃ k, l = k ++ last_n n l.
Proof. exists (take (length l - n) l). unfold last_n. by rewrite take_drop. Qed.

Lemma last_n_snoc {A} n (l : list A) x :
  last_n (S n) (l ++ [x]) = last_n n l ++ [x].
Proof.
  unfold last_n. rewrite length_app; simpl.
  replace (length l + 1 - S n)%nat with (length l - n)%nat by lia.
  rewrite drop_app_le; [done|lia].
Qed.

Lemma last_n_last_n_snoc {A} n (l : list A) x :
  last_n n (last_n n l ++ [x]) = last_n n (l ++ [x]).
Proof.
  destruct n as [|n].
  - unfold last_n. rewrite !Nat.sub_0_r, !drop_all. done.
  - rewrite !last_n_snoc. f_equal. unfold last_n.
    rewrite drop_drop, length_drop. f_equal. lia.
Qed.

Lemma elem_of_last_n {A} n (l : list A) x : x ∈ last_n n l → x ∈ l.
Proof.
  intros H. destruct (last_n_suffix n l) as [k E].
  rewrite E. apply elem_of_app. by right.
Qed.

Lemma last_n_Forall {A} (P : A → Prop) n (l : list A) :
  Forall P l → Forall P (last_n n l).
Proof. apply Forall_drop. Qed.

(** ** [sort.Slice]

    The model of [sort.Slice(l, less)] is insertion sort.  Go's algorithm is
    not stable, so every use is accompanied by the uniqueness lemma: when
    [less] separates the elements of the list, any sort gives this result. *)
Fixpoint insert_by {A} (less : A → A → bool) (x : A) (l : list A) : list A :=
  match l with
  | [] => [x]
  | y :: l' => if less x y then x :: l else y :: insert_by less x l'
  end.

Fixpoint sort_by {A} (less : A → A → bool) (l : list A) : list A :=
  match l with
  | [] => []
  | x :: l => insert_by less x (sort_by less l)
  end.

Lemma insert_by_perm {A} less (x : A) l : insert_by less x l ≡ₚ x :: l.
Proof.
  induction l as [|y l IH]; simpl; [done|]. case_match; [done|].
  rewrite IH. apply Permutation_swap.
Qed.

Lemma sort_by_perm {A} less (l : list A) : sort_by less l ≡ₚ l.
Proof. induction l as [|x l IH]; simpl; [done|]. by rewrite insert_by_perm, IH. Qed.

Section sort_by.
Context {A : Type} (less : A → A → bool) (P : A → Prop).
Hypothesis less_asym : ∀ a b, P a → P b → less a b = true → less b a = false.
Hypothesis not_less_trans : ∀ a b c, P a → P b → P c →
  less b a = false → less c b = false → less c a = false.

(** "Not after": the order [sort.Slice] establishes between positions. *)
Definition not_after (a b : A) : Prop := less b a = false.

Lemma insert_by_sorted x l :
  P x → Forall P l → StronglySorted not_after l →
  StronglySorted not_after (insert_by less x l).
Proof.
  intros Hx Hl Hs. induction Hs as [|y l Hs IH Hy]; simpl; [by repeat constructor|].
  apply Forall_cons_1 in Hl as [HPy Hl]. destruct (less x y) eqn:E.
  - constructor; [by constructor|]. constructor; [by apply less_asym|].
    rewrite list.Forall_forall in Hy, Hl |- *. intros z Hz.
    apply (not_less_trans x y z); [auto..|by apply Hy].
  - constructor; [by apply IH|].
    rewrite insert_by_perm. constructor; [done|]. done.
Qed.

Lemma sort_by_sorted l : Forall P l → StronglySorted not_after (sort_by less l).
Proof.
  induction 1 as [|x l Hx Hl IH]; simpl; [constructor|].
  apply insert_by_sorted; [done| |done]. by rewrite sort_by_perm.
Qed.

Lemma sort_by_unique l1 l2 :
  Forall P l1 → l1 ≡ₚ l2 →
  (∀ a b, a ∈ l1 → b ∈ l1 → a = b ∨ less a b = true ∨ less b a = true) →
  sort_by less l1 = sort_by less l2.
Proof.
  intros H1 Hp Hsep.
  assert (Forall P l2) as H2 by by rewrite <- Hp.
  apply (StronglySorted_unique_strong not_after).
  - intros a b. rewrite !sort_by_perm, <- Hp. unfold not_after. intros Ha Hb Hab Hba.
    destruct (Hsep a b Ha Hb) as [?|[?|?]]; congruence.
  - by apply sort_by_sorted.
  - by apply sort_by_sorted.
  - by rewrite !sort_by_perm.
Qed.

Lemma sort_by_head l x l' :
  Forall P l → sort_by less l = x :: l' →
  x ∈ l ∧ ∀ y, y ∈ l → x = y ∨ less y x = false.
Proof.
  intros Hl E. pose proof (sort_by_sorted l Hl) as Hs. rewrite E in Hs.
  assert (∀ y, y ∈ l ↔ y ∈ x :: l') as Hin by (intros y; by rewrite <- E, sort_by_perm).
  clear E. split; [apply Hin; constructor|]. intros y Hy. apply Hin in Hy.
  apply elem_of_cons in Hy as [->|Hy]; [by left|right].
  inversion_clear Hs as [|?? ? Hx]. rewrite list.Forall_forall in Hx. by apply Hx.
Qed.
End sort_by.

(** Go's [<] on strings. *)
Definition str_lt (a b : string) : bool := String.ltb a b.

Lemma str_lt_leb a b : str_lt a b = negb (String.leb b a).
Proof.
  unfold str_lt, String.ltb, String.leb. rewrite String.compare_antisym.
  by destruct (String.compare b a).
Qed.

Lemma str_lt_irrefl a : str_lt a a = false.
Proof. rewrite str_lt_leb. destruct (String.leb_total a a) as [-> | ->]; done. Qed.

Lemma str_lt_asym a b : str_lt a b = true → str_lt b a = false.
Proof. rewrite !str_lt_leb. destruct (String.leb_total a b) as [-> | ->]; simpl; done. Qed.

Lemma str_nlt_trans a b c : str_lt b a = false → str_lt c b = false → str_lt c a = false.
Proof.
  rewrite !str_lt_leb, !negb_false_iff. rewrite <- !Is_true_true.
  apply (transitivity (R := String.le)).
Qed.

Lemma str_lt_total a b : a = b ∨ str_lt a b = true ∨ str_lt b a = true.
Proof.
  rewrite !str_lt_leb, !negb_true_iff.
  destruct (String.leb b a) eqn:E1, (String.leb a b) eqn:E2; auto.
  left. by apply String.leb_antisym.
Qed.

(** ** Projections of an updated map *)

Lemma fmap_alter_same {A B} (f : A → B) (g : A → A) (m : gmap nat A) k :
  (∀ a, f (g a) = f a) → f <$> alter g k m = f <$> m.
Proof.
  intros H. apply map_eq. intros i. rewrite !lookup_fmap.
  destruct (decide (i = k)) as [->|]; [|by rewrite lookup_alter_ne].
  rewrite lookup_alter_eq. destruct (m !! k); simpl; [by rewrite H|done].
Qed.

Lemma fmap_alter_set {A B} (f : A → B) (g : A → A) (m : gmap nat A) k a :
  m !! k = Some a → f <$> alter g k m = <[k := f (g a)]> (f <$> m).
Proof.
  intros H. apply map_eq. intros i. rewrite lookup_fmap.
  destruct (decide (i = k)) as [->|].
  - by rewrite lookup_alter_eq, lookup_insert_eq, H.
  - by rewrite lookup_alter_ne, lookup_insert_ne, lookup_fmap.
Qed.

Lemma alter_lookup_insert {A} (f : A → A) (m : gmap nat A) i a :
  m !! i = Some a → alter f i m = <[i := f a]> m.
Proof.
  intros H. apply map_eq. intros j. destruct (decide (j = i)) as [->|].
  - by rewrite lookup_alter_eq, lookup_insert_eq, H.
  - by rewrite lookup_alter_ne, lookup_insert_ne.
Qed.

Lemma size_lookup_pos {A} (m : gmap string A) k a : m !! k = Some a → size m ≠ 0%nat.
Proof. intros H E. apply map_size_empty_inv in E. by rewrite E, lookup_empty in H. Qed.

(** ** Sums over a map *)

Definition msum `{Countable K} {A} (f : A → Z) (m : gmap K A) : Z := map_fold (λ _ a z, f a + z) 0 m.

Section msum.
Context `{Countable K} {A : Type} (f : A → Z).

Lemma msum_empty : msum f (∅ : gmap K A) = 0.
Proof. apply map_fold_empty. Qed.

Lemma msum_insert (m : gmap K A) k a : m !! k = None → msum f (<[k := a]> m) = f a + msum f m.
Proof.
  intros Hk. unfold msum.
  rewrite (map_fold_insert_L (λ _ a z, f a + z)); [done|intros; lia|done].
Qed.

Lemma msum_delete (m : gmap K A) k a : m !! k = Some a → msum f m = f a + msum f (delete k m).
Proof.
  intros Hk. rewrite <- (msum_insert (delete k m) k a) by apply lookup_delete_eq.
  by rewrite insert_delete_id.
Qed.

Lemma msum_update (m : gmap K A) k a a' :
  m !! k = Some a → msum f (<[k := a']> m) = msum f m + (f a' - f a).
Proof.
  intros Hk. rewrite (msum_delete m k a), <- insert_delete_eq, msum_insert;
    [lia|apply lookup_delete_eq|done].
Qed.

Lemma msum_fmap {B} (g : B → A) (m : gmap K B) : msum f (g <$> m) = msum (f ∘ g) m.
Proof. unfold msum. by rewrite map_fold_fmap. Qed.

Lemma msum_nonneg (m : gmap K A) : (∀ a, 0 ≤ f a) → 0 ≤ msum f m.
Proof.
  intros Hf. unfold msum. apply (map_fold_weak_ind (λ z _, 0 ≤ z)); [done|].
  intros k a m' z _ Hz. specialize (Hf a). lia.
Qed.
End msum.

Lemma msum_ext `{Countable K} {A} (f g : A → Z) (m : gmap K A) : (∀ a, f a = g a) → msum f m = msum g m.
Proof.
  intros E. induction m as [|k a m Hk IH] using map_ind; [by rewrite !msum_empty|].
  by rewrite !msum_insert, E, IH.
Qed.

(** ** A small state, output and result monad

    A handler of the program reads and updates a store [S], performs
    observable actions [E] (messages sent, callbacks fired, packets written)
    and returns a value.  The actions are listed in program order. *)
Definition M (S E A : Type) : Type := S → A * S * list E.

#[export] Instance M_ret {S E} : MRet (M S E) := λ A a s, (a, s, []).

#[export] Instance M_bind {S E} : MBind (M S E) := λ A B f m s,
  let '(a, s1, w1) := m s in
  let '(b, s2, w2) := f a s1 in
  (b, s2, w1 ++ w2).

Definition get {S E} : M S E S := λ s, (s, s, []).

Definition gets {S E A} (f : S → A) : M S E A := λ s, (f s, s, []).

Definition modify {S E} (f : S → S) : M S E unit := λ s, (tt, f s, []).

Definition emit {S E} (e : E) : M S E unit := λ s, (tt, s, [e]).

Definition when {S E} (b : bool) (m : M S E unit) : M S E unit :=
  if b then m else mret tt.

(** [for _, x := range l { f x }]. *)
Fixpoint for_each {S E A} (l : list A) (f : A → M S E unit) : M S E unit :=
  match l with
  | [] => mret tt
  | x :: l => f x ;; for_each l f
  end.

Definition value {S E A} (m : M S E A) (s : S) : A := (m s).1.1.

Definition final {S E A} (m : M S E A) (s : S) : S := (m s).1.2.

Definition outputs {S E A} (m : M S E A) (s : S) : list E := (m s).2.

Lemma outputs_bind {S E A B} (m : M S E A) (f : A → M S E B) s :
  outputs (m ≫= f) s = outputs m s ++ outputs (f (value m s)) (final m s).
Proof.
  unfold outputs, value, final, mbind, M_bind. destruct (m s) as [[a s1] w1]; simpl.
  by destruct (f a s1) as [[b s2] w2].
Qed.

Lemma final_bind {S E A B} (m : M S E A) (f : A → M S E B) s :
  final (m ≫= f) s = final (f (value m s)) (final m s).
Proof.
  unfold value, final, mbind, M_bind. destruct (m s) as [[a s1] w1]; simpl.
  by destruct (f a s1) as [[b s2] w2].
Qed.

Lemma value_bind {S E A B} (m : M S E A) (f : A → M S E B) s :
  value (m ≫= f) s = value (f (value m s)) (final m s).
Proof.
  unfold value, final, mbind, M_bind. destruct (m s) as [[a s1] w1]; simpl.
  by destruct (f a s1) as [[b s2] w2].
Qed.

(** The primitive operations, for [autorewrite with mrun]: programs are then
    followed bind by bind, without unfolding the data they work on. *)
Section mrun.
Context {S E A : Type} (s : S).

Lemma ret_run (a : A) :
  outputs (E := E) (mret a) s = [] ∧ final (E := E) (mret a) s = s ∧ value (E := E) (mret a) s = a.
Proof. done. Qed.

Lemma get_run :
  outputs (E := E) get s = [] ∧ final (E := E) get s = s ∧ value (E := E) get s = s.
Proof. done. Qed.

Lemma gets_run (f : S → A) :
  outputs (E := E) (gets f) s = [] ∧ final (E := E) (gets f) s = s ∧ value (E := E) (gets f) s = f s.
Proof. done. Qed.

Lemma modify_run (f : S → S) :
  outputs (E := E) (modify f) s = [] ∧ final (E := E) (modify f) s = f s.
Proof. done. Qed.

Lemma emit_run (e : E) : outputs (emit e) s = [e] ∧ final (emit e) s = s.
Proof. done. Qed.
End mrun.

Lemma final_when {S E} b (m : M S E unit) s : final (when b m) s = if b then final m s else s.
Proof. by destruct b. Qed.

Definition outputs_ret {S E A} s a := proj1 (@ret_run S E A s a).
Definition final_ret {S E A} s a := proj1 (proj2 (@ret_run S E A s a)).
Definition value_ret {S E A} s a := proj2 (proj2 (@ret_run S E A s a)).
Definition outputs_get {S E} s := proj1 (@get_run S E s).
Definition final_get {S E} s := proj1 (proj2 (@get_run S E s)).
Definition value_get {S E} s := proj2 (proj2 (@get_run S E s)).
Definition outputs_gets {S E A} s f := proj1 (@gets_run S E A s f).
Definition final_gets {S E A} s f := proj1 (proj2 (@gets_run S E A s f)).
Definition value_gets {S E A} s f := proj2 (proj2 (@gets_run S E A s f)).
Definition outputs_modify {S E} s f := proj1 (@modify_run S E s f).
Definition final_modify {S E} s f := proj2 (@modify_run S E s f).
Definition outputs_emit {S E} s e := proj1 (@emit_run S E s e).
Definition final_emit {S E} s e := proj2 (@emit_run S E s e).

#[export] Hint Rewrite @outputs_bind @final_bind @value_bind @outputs_ret @final_ret @value_ret
  @outputs_get @final_get @value_get @outputs_gets @final_gets @value_gets
  @outputs_modify @final_modify @outputs_emit @final_emit : mrun.

Lemma for_each_app {S E A} (l1 l2 : list A) (f : A → M S E unit) s :
  final (for_each (l1 ++ l2) f) s = final (for_each l2 f) (final (for_each l1 f) s).
Proof.
  revert s. induction l1 as [|a l1 IH]; intros s; [done|].
  simpl. rewrite !final_bind. apply IH.
Qed.

(** [preserves I m]: running [m] from a store satisfying [I] ends in a store
    satisfying [I].  The lemmas below are the hints of the [preserves]
    database: an invariant proof only has to treat the primitive updates. *)
Definition preserves {S E A} (I : S → Prop) (m : M S E A) : Prop :=
  ∀ s, I s → I (final m s).

Create HintDb preserves discriminated.

Section preserves.
Context {S E : Type} (I : S → Prop).

Lemma preserves_ret {A} (a : A) : preserves (E := E) I (mret a).
Proof. intros s Hs. exact Hs. Qed.

Lemma preserves_get : preserves (E := E) I get.
Proof. intros s Hs. exact Hs. Qed.

Lemma preserves_gets {A} (f : S → A) : preserves (E := E) I (gets f).
Proof. intros s Hs. exact Hs. Qed.

Lemma preserves_emit (e : E) : preserves I (emit e).
Proof. intros s Hs. exact Hs. Qed.

Lemma preserves_modify (f : S → S) :
  (∀ s, I s → I (f s)) → preserves (E := E) I (modify f).
Proof. intros H s Hs. exact (H s Hs). Qed.

Lemma preserves_bind {A B} (m : M S E A) (f : A → M S E B) :
  preserves I m → (∀ a, preserves I (f a)) → preserves I (m ≫= f).
Proof.
  intros Hm Hf s Hs. unfold final, mbind, M_bind.
  specialize (Hm s Hs). unfold final in Hm.
  destruct (m s) as [[a s1] w1]; simpl in *.
  specialize (Hf a s1 Hm). unfold final in Hf.
  by destruct (f a s1) as [[b s2] w2].
Qed.

(** A bind whose continuation is entered with the value actually computed:
    needed when a branch is only safe because of what was read. *)
Lemma preserves_bind_val {A B} (m : M S E A) (f : A → M S E B) :
  preserves I m →
  (∀ s, I s → I (final (f (value m s)) (final m s))) →
  preserves I (m ≫= f).
Proof.
  intros Hm Hf s Hs. specialize (Hf s Hs).
  unfold final, value, mbind, M_bind in *.
  destruct (m s) as [[a s1] w1]; simpl in *.
  by destruct (f a s1) as [[b s2] w2].
Qed.

Lemma preserves_when b (m : M S E unit) :
  preserves I m → preserves I (when b m).
Proof. destruct b; [done|]. intros _. apply preserves_ret. Qed.

Lemma preserves_for_each {A} (l : list A) (f : A → M S E unit) :
  (∀ x, x ∈ l → preserves I (f x)) → preserves I (for_each l f).
Proof.
  induction l as [|x l IH]; intros H; simpl; [apply preserves_ret|].
  apply preserves_bind; [apply H; set_solver|].
  intros _. apply IH. set_solver.
Qed.
End preserves.

#[export] Hint Resolve preserves_ret preserves_get preserves_gets preserves_emit
  preserves_when preserves_for_each : preserves.

(** [wp m Q s]: running [m] from [s] ends with a value and a store satisfying
    [Q] (programs are total, so there is no partial/total distinction). *)
Definition wp {S E A} (m : M S E A) (Q : A → S → Prop) (s : S) : Prop := Q (value m s) (final m s).

Section wp.
Context {S E : Type}.

Lemma wp_ret {A} (a : A) (Q : A → S → Prop) s : Q a s → wp (E := E) (mret a) Q s.
Proof. done. Qed.

Lemma wp_bind {A B} (m : M S E A) (f : A → M S E B) Q s :
  wp m (λ a, wp (f a) Q) s → wp (m ≫= f) Q s.
Proof.
  unfold wp, value, final, mbind, M_bind. destruct (m s) as [[a s1] w1]; simpl.
  by destruct (f a s1) as [[b s2] w2].
Qed.

Lemma wp_get (Q : S → S → Prop) s : Q s s → wp (E := E) get Q s.
Proof. done. Qed.

Lemma wp_gets {A} (f : S → A) (Q : A → S → Prop) s : Q (f s) s → wp (E := E) (gets f) Q s.
Proof. done. Qed.

Lemma wp_modify (f : S → S) (Q : unit → S → Prop) s : Q tt (f s) → wp (E := E) (modify f) Q s.
Proof. done. Qed.

Lemma wp_mono {A} (m : M S E A) (P Q : A → S → Prop) s :
  (∀ a s', P a s' → Q a s') → wp m P s → wp m Q s.
Proof. intros H. apply H. Qed.
End wp.

(** [emits_only P m]: every action of [m] satisfies [P], from any store. *)
Definition emits_only {S E A} (P : E → Prop) (m : M S E A) : Prop := ∀ s, Forall P (outputs m s).

Section emits_only.
Context {S E : Type} (P : E → Prop).

Lemma emits_only_bind {A B} (m : M S E A) (f : A → M S E B) :
  emits_only P m → (∀ a, emits_only P (f a)) → emits_only P (m ≫= f).
Proof. intros Hm Hf s. rewrite outputs_bind. apply Forall_app. split; [apply Hm|apply Hf]. Qed.

Lemma emits_only_ret {A} (a : A) : emits_only (S := S) P (mret a).
Proof. intros s. constructor. Qed.

Lemma emits_only_gets {A} (f : S → A) : emits_only P (gets f).
Proof. intros s. constructor. Qed.

Lemma emits_only_get : emits_only P (get (S := S)).
Proof. intros s. constructor. Qed.

Lemma emits_only_modify (f : S → S) : emits_only P (modify f).
Proof. intros s. constructor. Qed.

Lemma emits_only_emit ev : P ev → emits_only (S := S) P (emit ev).
Proof. intros E' s. by constructor. Qed.

Lemma emits_only_when b (m : M S E unit) : emits_only P m → emits_only P (when b m).
Proof. destruct b; [done|]. intros _. apply emits_only_ret. Qed.

Lemma emits_only_for_each {A} (l : list A) (f : A → M S E unit) :
  (∀ a, emits_only P (f a)) → emits_only P (for_each l f).
Proof.
  intros Hf. induction l as [|a l IH]; simpl; [apply emits_only_ret|].
  apply emits_only_bind; [apply Hf|by intros _].
Qed.

Lemma emits_only_not_in {A} (m : M S E A) s ev : emits_only P m → ¬ P ev → ev ∈ outputs m s → False.
Proof.
  intros Hq Hd Hin. specialize (Hq s). rewrite list.Forall_forall in Hq. by apply Hd, Hq.
Qed.
End emits_only.

(** Walks through a program down to its calls. *)
Ltac emits_only :=
  repeat (intros; first
    [ apply emits_only_bind | apply emits_only_when | apply emits_only_ret | apply emits_only_gets
    | apply emits_only_get | apply emits_only_modify | apply emits_only_emit; done
    | apply emits_only_for_each | case_match ]).

(** [run_M] computes through the monad's plumbing. *)
Ltac run_M :=
  unfold value, final, outputs, mbind, M_bind, mret, M_ret, gets, get, modify,
    emit, when in *; simpl in *.

(** Split every [match] and [if] on the way to the result. *)
Ltac split_all := repeat (case_match; simplify_eq/=); try done.

(** Close arithmetic side conditions hidden under boolean comparisons. *)
Ltac zbool :=
  repeat match goal with
  | H : (_ <? _) = true |- _ => apply Z.ltb_lt in H
  | H : (_ <? _) = false |- _ => apply Z.ltb_ge in H
  | H : (_ <=? _) = true |- _ => apply Z.leb_le in H
  | H : (_ <=? _) = false |- _ => apply Z.leb_gt in H
  | H : (_ =? _) = true |- _ => apply Z.eqb_eq in H
  | H : (_ =? _) = false |- _ => apply Z.eqb_neq in H
  | H : (_ && _) = true |- _ => apply andb_true_iff in H; destruct H
  | H : (_ || _) = false |- _ => apply orb_false_iff in H; destruct H
  | H : negb _ = true |- _ => apply negb_true_iff in H
  | H : negb _ = false |- _ => apply negb_false_iff in H
  end.
