(* ===== verification/Bytes.v ===== *)
(** * Bytes and byte strings

    Go's [byte] with its conversions, [[]byte] as a list of bytes, the bytes of a
    string, and the big-endian 16-bit integers of encoding/binary.  Shared by the
    media wire format and the access tokens. *)

From S2P Require Import Prelude.
From Stdlib Require Export Strings.Byte.

#[export] Instance byte_eq_dec : EqDecision byte := Byte.byte_eq_dec.

#[export] Program Instance byte_countable : Countable byte :=
  inj_countable Byte.to_N Byte.of_N _.
Next Obligation. intros b. apply Byte.of_to_N. Qed.

(** ** [byte(n)] and [int(b)] *)

Definition Z_of_byte (b : byte) : Z := Z.of_N (Byte.to_N b).

(** The conversion [byte(n)] keeps the low eight bits. *)
Definition byte_of_Z (n : Z) : byte := default x00 (Byte.of_N (Z.to_N (n mod 256))).

Lemma Z_of_byte_range b : 0 ≤ Z_of_byte b < 256.
Proof. unfold Z_of_byte. pose proof (Byte.to_N_bounded b). lia. Qed.

Lemma byte_of_Z_of_byte b : byte_of_Z (Z_of_byte b) = b.
Proof.
  pose proof (Z_of_byte_range b). unfold byte_of_Z. rewrite Z.mod_small by done.
  unfold Z_of_byte. by rewrite N2Z.id, Byte.of_to_N.
Qed.

Lemma Z_of_byte_of_Z n : Z_of_byte (byte_of_Z n) = n mod 256.
Proof.
  pose proof (Z.mod_pos_bound n 256 eq_refl) as Hn. unfold byte_of_Z, Z_of_byte.
  pose proof (Byte.to_of_N_option_map (Z.to_N (n mod 256))) as H.
  destruct (_ <=? _)%N eqn:E in H; [|apply N.leb_gt in E; lia].
  destruct (Byte.of_N _) as [b|]; [|done]. simpl in *. injection H as ->. lia.
Qed.

#[export] Instance Z_of_byte_inj : Inj (=) (=) Z_of_byte.
Proof. intros a b H. by rewrite <- (byte_of_Z_of_byte a), H, byte_of_Z_of_byte. Qed.

(** ** Strings as bytes *)

Definition bytes_of (s : string) : list byte := String.list_byte_of_string s.

Definition string_of (b : list byte) : string := String.string_of_list_byte b.

Lemma string_of_bytes_of s : string_of (bytes_of s) = s.
Proof. apply String.string_of_list_byte_of_string. Qed.

Lemma bytes_of_string_of b : bytes_of (string_of b) = b.
Proof. apply String.list_byte_of_string_of_list_byte. Qed.

Lemma bytes_of_app a b : bytes_of (a +:+ b) = bytes_of a ++ bytes_of b.
Proof.
  unfold bytes_of, String.list_byte_of_string. induction a as [|c a IH]; simpl; [done|]. by rewrite IH.
Qed.

#[export] Instance bytes_of_inj : Inj (=) (=) bytes_of.
Proof. intros a b H. by rewrite <- (string_of_bytes_of a), H, string_of_bytes_of. Qed.

#[export] Instance string_of_inj : Inj (=) (=) string_of.
Proof. intros a b H. by rewrite <- (bytes_of_string_of a), H, bytes_of_string_of. Qed.

(** [len(b)] *)
Definition blen (b : list byte) : Z := Z.of_nat (length b).

(** [b[lo:hi]] for indices the caller has checked. *)
Definition slice {A} (lo hi : Z) (b : list A) : list A :=
  take (Z.to_nat (hi - lo)) (drop (Z.to_nat lo) b).

(** [b[i]] for an index the caller has checked. *)
Definition byte_at (b : list byte) (i : Z) : byte := default x00 (b !! Z.to_nat i).

(** ** [binary.BigEndian], 16 bits *)

(** [PutUint16(b, uint16(n))] *)
Definition put_uint16 (n : Z) : list byte :=
  let v := n mod 65536 in [byte_of_Z (Z.shiftr v 8); byte_of_Z v].

(** [Uint16(b)] *)
Definition uint16 (hi lo : byte) : Z := Z.lor (Z.shiftl (Z_of_byte hi) 8) (Z_of_byte lo).

Lemma uint16_add hi lo : uint16 hi lo = 256 * Z_of_byte hi + Z_of_byte lo.
Proof.
  unfold uint16. rewrite Z.shiftl_mul_pow2 by lia. change (2 ^ 8) with 256.
  pose proof (Z_of_byte_range lo) as Hl. rewrite (Z.mul_comm (Z_of_byte hi)).
  rewrite <- Z.add_lor_land.
  assert (Z.land (256 * Z_of_byte hi) (Z_of_byte lo) = 0) as ->; [|lia].
  apply Z.bits_inj'. intros n Hn. rewrite Z.land_spec, Z.bits_0.
  destruct (decide (n < 8)).
  - rewrite Z.mul_comm. change 256 with (2 ^ 8). by rewrite Z.mul_pow2_bits_low by lia.
  - rewrite andb_comm. rewrite (Z.bits_above_log2 (Z_of_byte lo)); [done|lia|].
    destruct (decide (Z_of_byte lo = 0)) as [->|]; [simpl; lia|].
    apply Z.log2_lt_pow2; [lia|]. apply Z.lt_le_trans with (2 ^ 8); [lia|].
    apply Z.pow_le_mono_r; lia.
Qed.

Lemma uint16_range hi lo : 0 ≤ uint16 hi lo < 65536.
Proof.
  rewrite uint16_add. pose proof (Z_of_byte_range hi). pose proof (Z_of_byte_range lo). lia.
Qed.

Lemma uint16_put n :
  let v := n mod 65536 in uint16 (byte_of_Z (Z.shiftr v 8)) (byte_of_Z v) = v.
Proof.
  intros v. pose proof (Z.mod_pos_bound n 65536 eq_refl) as Hv. fold v in Hv.
  rewrite uint16_add, !Z_of_byte_of_Z, Z.shiftr_div_pow2 by lia.
  change (2 ^ 8) with 256. rewrite (Z.mod_small (v / 256)).
  - pose proof (Z.div_mod v 256 ltac:(lia)). lia.
  - split; [apply Z.div_pos; lia|]. apply Z.div_lt_upper_bound; lia.
Qed.

Lemma put_uint16_uint16 hi lo : put_uint16 (uint16 hi lo) = [hi; lo].
Proof.
  unfold put_uint16. pose proof (uint16_range hi lo) as H. rewrite Z.mod_small by done.
  rewrite uint16_add. pose proof (Z_of_byte_range lo). pose proof (Z_of_byte_range hi).
  assert (Z.shiftr (256 * Z_of_byte hi + Z_of_byte lo) 8 = Z_of_byte hi) as ->.
  { rewrite Z.shiftr_div_pow2 by lia. change (2 ^ 8) with 256.
    rewrite Z.mul_comm, Z.div_add_l by lia. rewrite Z.div_small; lia. }
  rewrite byte_of_Z_of_byte. f_equal. f_equal. rewrite <- (byte_of_Z_of_byte lo) at 2.
  unfold byte_of_Z at 1. rewrite Z.mul_comm, Z.add_comm, Z_mod_plus_full.
  rewrite Z.mod_small by done. unfold byte_of_Z. by rewrite Z.mod_small.
Qed.

Lemma byte_of_Z_mod n : byte_of_Z (n mod 256) = byte_of_Z n.
Proof. unfold byte_of_Z. by rewrite Zmod_mod. Qed.

(** ** encoding/hex *)

Definition hex_digit (n : Z) : byte := byte_of_Z (if n <? 10 then 48 + n else 87 + n).

Definition hex_value (c : byte) : option Z :=
  let n := Z_of_byte c in
  if (48 <=? n) && (n <=? 57) then Some (n - 48)
  else if (97 <=? n) && (n <=? 102) then Some (n - 87)
  else if (65 <=? n) && (n <=? 70) then Some (n - 55)
  else None.

Definition hex_encode_bytes (b : list byte) : list byte :=
  b ≫= λ x, [hex_digit (Z.shiftr (Z_of_byte x) 4); hex_digit (Z.land (Z_of_byte x) 15)].

(** [hex.EncodeToString] *)
Definition hex_encode (b : list byte) : string := string_of (hex_encode_bytes b).

Fixpoint hex_decode_bytes (l : list byte) : option (list byte) :=
  match l with
  | [] => Some []
  | [_] => None
  | hi :: lo :: l' =>
      h ← hex_value hi; n ← hex_value lo; r ← hex_decode_bytes l';
      Some (byte_of_Z (Z.lor (Z.shiftl h 4) n) :: r)
  end.

(** [hex.DecodeString] *)
Definition hex_decode (s : string) : option (list byte) := hex_decode_bytes (bytes_of s).

Lemma hex_pair x :
  hex_value (hex_digit (Z.shiftr (Z_of_byte x) 4)) = Some (Z.shiftr (Z_of_byte x) 4)
  ∧ hex_value (hex_digit (Z.land (Z_of_byte x) 15)) = Some (Z.land (Z_of_byte x) 15)
  ∧ byte_of_Z (Z.lor (Z.shiftl (Z.shiftr (Z_of_byte x) 4) 4) (Z.land (Z_of_byte x) 15)) = x.
Proof. by destruct x. Qed.

Lemma hex_decode_encode b : hex_decode (hex_encode b) = Some b.
Proof.
  unfold hex_decode, hex_encode. rewrite bytes_of_string_of.
  induction b as [|x b IH]; [done|]. destruct (hex_pair x) as (H1 & H2 & H3).
  change (hex_encode_bytes (x :: b)) with
    (hex_digit (Z.shiftr (Z_of_byte x) 4) :: hex_digit (Z.land (Z_of_byte x) 15) :: hex_encode_bytes b).
  cbn [hex_decode_bytes]. rewrite H1, H2, IH. cbn [mbind option_bind]. by rewrite H3.
Qed.

#[export] Instance hex_encode_inj : Inj (=) (=) hex_encode.
Proof. intros a b H. apply (f_equal hex_decode) in H. rewrite !hex_decode_encode in H. congruence. Qed.

(** ** Self-delimiting encodings

    The simplest functions with a round trip, for concrete instances of codecs. *)

Fixpoint bits (p : positive) : list byte :=
  match p with xH => [x31] | xO p => x30 :: bits p | xI p => x32 :: bits p end.

Fixpoint unbits (l : list byte) : option positive :=
  match l with
  | [] => None
  | [c] => if decide (c = x31) then Some xH else None
  | c :: l => p ← unbits l; Some (if decide (c = x30) then xO p else xI p)
  end.

Lemma unbits_bits p : unbits (bits p) = Some p.
Proof.
  assert (∀ q, bits q ≠ []) as Hn by by intros [].
  induction p as [p IH|p IH|]; simpl; [..|done];
    (destruct (bits p) eqn:E; [by destruct (Hn p)|]; by rewrite IH).
Qed.

Fixpoint enc_str (l : list byte) : list byte :=
  match l with [] => [x00] | c :: l => x01 :: c :: enc_str l end.

Fixpoint dec_str (l : list byte) : option (list byte * list byte) :=
  match l with
  | x00 :: r => Some ([], r)
  | x01 :: c :: r => '(s, r) ← dec_str r; Some (c :: s, r)
  | _ => None
  end.

Lemma dec_enc_str l r : dec_str (enc_str l ++ r) = Some (l, r).
Proof. induction l as [|c l IH]; [done|]. cbn [enc_str app dec_str]. rewrite IH. done. Qed.

Definition enc_Z (z : Z) : list byte :=
  enc_str (match z with Z0 => [] | Zpos p => bits p | Zneg p => x2d :: bits p end).

Definition dec_Z (l : list byte) : option (Z * list byte) :=
  '(s, r) ← dec_str l;
  match s with
  | [] => Some (Z0, r)
  | x2d :: b => p ← unbits b; Some (Zneg p, r)
  | b => p ← unbits b; Some (Zpos p, r)
  end.

Lemma dec_enc_Z z r : dec_Z (enc_Z z ++ r) = Some (z, r).
Proof.
  unfold dec_Z, enc_Z. rewrite dec_enc_str. destruct z as [|p|p]; cbn [mbind option_bind]; [done|..].
  - pose proof (unbits_bits p) as Hp. by destruct p; cbn [bits] in *; rewrite Hp.
  - by rewrite unbits_bits.
Qed.

Definition enc_bool (b : bool) : byte := if b then x01 else x00.

Definition dec_bool (l : list byte) : option (bool * list byte) :=
  match l with c :: r => Some (bool_decide (c = x01), r) | [] => None end.

Definition dec_string (l : list byte) : option (string * list byte) :=
  '(s, r) ← dec_str l; Some (string_of s, r).

Lemma dec_enc_string s r : dec_string (enc_str (bytes_of s) ++ r) = Some (s, r).
Proof. unfold dec_string. rewrite dec_enc_str. cbn. by rewrite string_of_bytes_of. Qed.
