(* ===== verification/GoStrings.v ===== *)
(** * Byte-string functions of Go's standard library

    [strings.TrimSpace], [strings.Split], [strings.HasPrefix] and the unpadded URL
    base64 of encoding/base64, on lists of bytes. *)

From S2P Require Import Prelude Bytes.
From Stdlib Require Import DecimalString DecimalZ.

(** ** [strings.TrimSpace] *)

Definition ascii_space (c : byte) : bool :=
  bool_decide (c = x09 ∨ c = x0a ∨ c = x0b ∨ c = x0c ∨ c = x0d ∨ c = x20).

(** The two- and three-byte encodings of the other white-space runes. *)
Definition space2 (c d : byte) : bool := bool_decide (c = xc2 ∧ (d = x85 ∨ d = xa0)).

Definition space3 (c d e : byte) : bool :=
  bool_decide (c = xe1 ∧ d = x9a ∧ e = x80)
  || (bool_decide (c = xe2 ∧ d = x80)
      && ((128 <=? Z_of_byte e) && (Z_of_byte e <=? 138) || bool_decide (e = xa8 ∨ e = xa9 ∨ e = xaf)))
  || bool_decide (c = xe2 ∧ d = x81 ∧ e = x9f)
  || bool_decide (c = xe3 ∧ d = x80 ∧ e = x80).

Fixpoint trim_left (l : list byte) : list byte :=
  match l with
  | [] => []
  | c :: l1 =>
      if ascii_space c then trim_left l1
      else match l1 with
           | [] => l
           | d :: l2 =>
               if space2 c d then trim_left l2
               else match l2 with
                    | [] => l
                    | e :: l3 => if space3 c d e then trim_left l3 else l
                    end
           end
  end.

(** The same from the end, on the reversed list. *)
Fixpoint trim_left_rev (l : list byte) : list byte :=
  match l with
  | [] => []
  | e :: l1 =>
      if ascii_space e then trim_left_rev l1
      else match l1 with
           | [] => l
           | d :: l2 =>
               if space2 d e then trim_left_rev l2
               else match l2 with
                    | [] => l
                    | c :: l3 => if space3 c d e then trim_left_rev l3 else l
                    end
           end
  end.

Definition TrimSpace (l : list byte) : list byte := rev (trim_left_rev (rev (trim_left l))).

(** A visible ASCII character: no white-space rune starts or ends with it. *)
Definition visible (c : byte) : bool := (33 <=? Z_of_byte c) && (Z_of_byte c <=? 126).

Lemma visible_start c :
  visible c = true → ascii_space c = false ∧ (∀ d, space2 c d = false) ∧ ∀ d e, space3 c d e = false.
Proof. by destruct c. Qed.

Lemma visible_end e :
  visible e = true → ascii_space e = false ∧ (∀ d, space2 d e = false) ∧ ∀ c d, space3 c d e = false.
Proof.
  intros H. split; [by destruct e|]. split.
  - intros d. unfold space2. apply bool_decide_eq_false. intros [_ [-> | ->]]; done.
  - intros c d. unfold space3. apply orb_false_iff. split; [apply orb_false_iff; split; [apply orb_false_iff; split|]|].
    + apply bool_decide_eq_false. intros (_ & _ & ->). done.
    + apply andb_false_iff. right. unfold visible in H. apply andb_true_iff in H as [H1 H2]. zbool.
      apply orb_false_iff. split; [apply andb_false_iff; left; apply Z.leb_gt; lia|].
      apply bool_decide_eq_false. intros [-> | [-> | ->]]; vm_compute in H2; by apply H2.
    + apply bool_decide_eq_false. intros (_ & _ & ->). done.
    + apply bool_decide_eq_false. intros (_ & _ & ->). done.
Qed.

Lemma head_rev {A} (l : list A) : head (rev l) = last l.
Proof. destruct l as [|x l _] using rev_ind; [done|]. by rewrite rev_app_distr, last_snoc. Qed.

Lemma TrimSpace_id l c d :
  head l = Some c → last l = Some d → visible c = true → visible d = true → TrimSpace l = l.
Proof.
  intros Hc Hd Vc Vd. unfold TrimSpace.
  assert (trim_left l = l) as ->.
  { destruct l as [|c' l]; [done|]. injection Hc as ->. simpl.
    destruct (visible_start c Vc) as (-> & H2 & H3). destruct l as [|x l]; [done|].
    rewrite H2. destruct l as [|y l]; [done|]. by rewrite H3. }
  assert (trim_left_rev (rev l) = rev l) as ->; [|apply rev_involutive].
  pose proof (head_rev l) as Hr. rewrite Hd in Hr.
  destruct (rev l) as [|d' k]; [done|]. injection Hr as ->. simpl.
  destruct (visible_end d Vd) as (-> & H2 & H3). destruct k as [|x k]; [done|].
  rewrite H2. destruct k as [|y k]; [done|]. by rewrite H3.
Qed.

Lemma list_skip_ind (P : list byte → Prop) :
  P [] → (∀ c l, P l → (∀ d l', l = d :: l' → P l') → (∀ d e l', l = d :: e :: l' → P l') → P (c :: l)) → ∀ l, P l.
Proof.
  intros H0 Hs. assert (∀ n l, (length l ≤ n)%nat → P l) as H; [|intros l; by apply (H (length l))].
  induction n as [|n IH]; intros l Hl; (destruct l as [|c l]; [done|simpl in Hl]); [lia|].
  apply Hs; [apply IH; lia|intros d l' ->; apply IH; simpl in Hl; lia|intros d e l' ->; apply IH; simpl in Hl; lia].
Qed.

Lemma trim_left_spec l :
  (∃ k, l = k ++ trim_left l) ∧ ∀ c, head (trim_left l) = Some c → ascii_space c = false.
Proof.
  induction l as [|c l IH1 IH2 IH3] using list_skip_ind; [by split; [exists []|]|]. simpl.
  destruct (ascii_space c) eqn:Ec.
  { destruct IH1 as [[k E] H]. split; [exists (c :: k); simpl; congruence|done]. }
  destruct l as [|d l]; [split; [by exists []|simpl; congruence]|].
  destruct (space2 c d).
  { destruct (IH2 d l eq_refl) as [[k E] H]. split; [exists (c :: d :: k); simpl; congruence|done]. }
  destruct l as [|e l]; [split; [by exists []|simpl; congruence]|].
  destruct (space3 c d e); [|split; [by exists []|simpl; congruence]].
  destruct (IH3 d e l eq_refl) as [[k E] H]. split; [exists (c :: d :: e :: k); simpl; congruence|done].
Qed.

Lemma trim_left_rev_spec l :
  (∃ k, l = k ++ trim_left_rev l) ∧ ∀ c, head (trim_left_rev l) = Some c → ascii_space c = false.
Proof.
  induction l as [|c l IH1 IH2 IH3] using list_skip_ind; [by split; [exists []|]|]. simpl.
  destruct (ascii_space c) eqn:Ec.
  { destruct IH1 as [[k E] H]. split; [exists (c :: k); simpl; congruence|done]. }
  destruct l as [|d l]; [split; [by exists []|simpl; congruence]|].
  destruct (space2 d c).
  { destruct (IH2 d l eq_refl) as [[k E] H]. split; [exists (c :: d :: k); simpl; congruence|done]. }
  destruct l as [|e l]; [split; [by exists []|simpl; congruence]|].
  destruct (space3 e d c); [|split; [by exists []|simpl; congruence]].
  destruct (IH3 d e l eq_refl) as [[k E] H]. split; [exists (c :: d :: e :: k); simpl; congruence|done].
Qed.

(** What [TrimSpace] leaves has no ASCII white space at its ends. *)
Lemma TrimSpace_ends l c :
  head (TrimSpace l) = Some c ∨ last (TrimSpace l) = Some c → ascii_space c = false.
Proof.
  unfold TrimSpace. destruct (trim_left_rev_spec (rev (trim_left l))) as [[k Ek] Hr]. intros [H|H].
  - apply (proj2 (trim_left_spec l)). apply (f_equal (@rev byte)) in Ek. rewrite rev_involutive, rev_app_distr in Ek.
    rewrite Ek. destruct (rev (trim_left_rev _)); [done|]. by injection H as ->.
  - apply Hr. rewrite <- H, <- head_rev. by rewrite rev_involutive.
Qed.

(** Trimming twice is trimming once. *)
Lemma trim_left_length l : (length (trim_left l) ≤ length l)%nat.
Proof. destruct (trim_left_spec l) as [[k E] _]. rewrite E at 2. rewrite length_app. lia. Qed.

Lemma trim_left_rev_length l : (length (trim_left_rev l) ≤ length l)%nat.
Proof. destruct (trim_left_rev_spec l) as [[k E] _]. rewrite E at 2. rewrite length_app. lia. Qed.

(** A list that trimming leaves alone; [sp2] and [sp3] say which runes are white space
    in the order of the list. *)
Definition untrimmed (sp2 : byte → byte → bool) (sp3 : byte → byte → byte → bool) (l : list byte) : bool :=
  match l with
  | [] => true
  | c :: l1 =>
      negb (ascii_space c)
      && match l1 with
         | [] => true
         | d :: l2 => negb (sp2 c d) && match l2 with [] => true | e :: _ => negb (sp3 c d e) end
         end
  end.

Lemma untrimmed_prefix sp2 sp3 r k : untrimmed sp2 sp3 (r ++ k) = true → untrimmed sp2 sp3 r = true.
Proof.
  destruct r as [|c [|d [|e r]]]; simpl; try done; rewrite !andb_true_iff; naive_solver.
Qed.

Lemma trim_left_fix l : trim_left l = l ↔ untrimmed space2 space3 l = true.
Proof.
  assert (Hshort : ∀ k l', (length k < length l')%nat → trim_left k = l' ↔ false = true).
  { intros k l' Hk. split; [|done]. intros <-. pose proof (trim_left_length k). lia. }
  destruct l as [|c l1]; [done|]. cbn [untrimmed trim_left].
  destruct (ascii_space c); [apply Hshort; simpl; lia|]. destruct l1 as [|d l2]; [done|].
  destruct (space2 c d); [apply Hshort; simpl; lia|]. destruct l2 as [|e l3]; [done|].
  destruct (space3 c d e); [apply Hshort; simpl; lia|done].
Qed.

Lemma trim_left_rev_fix l :
  trim_left_rev l = l ↔ untrimmed (λ e d, space2 d e) (λ e d c, space3 c d e) l = true.
Proof.
  assert (Hshort : ∀ k l', (length k < length l')%nat → trim_left_rev k = l' ↔ false = true).
  { intros k l' Hk. split; [|done]. intros <-. pose proof (trim_left_rev_length k). lia. }
  destruct l as [|e l1]; [done|]. cbn [untrimmed trim_left_rev].
  destruct (ascii_space e); [apply Hshort; simpl; lia|]. destruct l1 as [|d l2]; [done|].
  destruct (space2 d e); [apply Hshort; simpl; lia|]. destruct l2 as [|c l3]; [done|].
  destruct (space3 c d e); [apply Hshort; simpl; lia|done].
Qed.

Lemma trim_left_idem l : trim_left (trim_left l) = trim_left l.
Proof.
  induction l as [|c l IH1 IH2 IH3] using list_skip_ind; [done|].
  destruct (untrimmed space2 space3 (c :: l)) eqn:E.
  { apply trim_left_fix in E. by rewrite E. }
  cbn [untrimmed] in E. cbn [trim_left]. destruct (ascii_space c); [done|].
  destruct l as [|d l2]; [done|]. destruct (space2 c d); [by apply (IH2 d)|].
  destruct l2 as [|e l3]; [done|]. destruct (space3 c d e); [by apply (IH3 d e)|done].
Qed.

Lemma trim_left_rev_idem l : trim_left_rev (trim_left_rev l) = trim_left_rev l.
Proof.
  induction l as [|e l IH1 IH2 IH3] using list_skip_ind; [done|].
  destruct (untrimmed (λ e d, space2 d e) (λ e d c, space3 c d e) (e :: l)) eqn:E.
  { apply trim_left_rev_fix in E. by rewrite E. }
  cbn [untrimmed] in E. cbn [trim_left_rev]. destruct (ascii_space e); [done|].
  destruct l as [|d l2]; [done|]. destruct (space2 d e); [by apply (IH2 d)|].
  destruct l2 as [|c l3]; [done|]. destruct (space3 c d e); [by apply (IH3 d c)|done].
Qed.

Lemma TrimSpace_idem l : TrimSpace (TrimSpace l) = TrimSpace l.
Proof.
  unfold TrimSpace. set (b := trim_left_rev (rev (trim_left l))).
  assert (trim_left (rev b) = rev b) as ->.
  { apply trim_left_fix. destruct (trim_left_rev_spec (rev (trim_left l))) as [[k E] _]. fold b in E.
    apply (f_equal (@rev byte)) in E. rewrite rev_involutive, rev_app_distr in E.
    apply untrimmed_prefix with (rev k). rewrite <- E. apply trim_left_fix, trim_left_idem. }
  rewrite rev_involutive. f_equal. apply trim_left_rev_idem.
Qed.

(** ** [strings.Split] with a one-byte separator *)

Fixpoint split_on (sep : byte) (l : list byte) : list (list byte) :=
  match l with
  | [] => [[]]
  | c :: l =>
      if decide (c = sep) then [] :: split_on sep l
      else match split_on sep l with
           | [] => [[c]]
           | p :: ps => (c :: p) :: ps
           end
  end.

Lemma split_on_last sep p : sep ∉ p → split_on sep p = [p].
Proof.
  induction p as [|c p IH]; intros H; [done|]. apply not_elem_of_cons in H as [Hc Hp]. simpl.
  rewrite decide_False by congruence. by rewrite IH.
Qed.

Lemma split_on_cons sep p l : sep ∉ p → split_on sep (p ++ sep :: l) = p :: split_on sep l.
Proof.
  induction p as [|c p IH]; intros H; simpl; [by rewrite decide_True|].
  apply not_elem_of_cons in H as [Hc Hp]. rewrite decide_False by congruence. by rewrite IH.
Qed.

(** The parts joined by the separator are the string. *)
Fixpoint join_on (sep : byte) (ps : list (list byte)) : list byte :=
  match ps with
  | [] => []
  | [p] => p
  | p :: ps => p ++ sep :: join_on sep ps
  end.

Lemma split_on_nonempty sep l : split_on sep l ≠ [].
Proof. destruct l as [|c l]; [done|]. simpl. case_decide; [done|]. by destruct (split_on sep l). Qed.

Lemma join_split sep l : join_on sep (split_on sep l) = l.
Proof.
  induction l as [|c l IH]; [done|]. simpl. pose proof (split_on_nonempty sep l) as Hn.
  case_decide as Hc.
  - destruct (split_on sep l) as [|p ps]; [done|]. simpl. subst c. f_equal. exact IH.
  - destruct (split_on sep l) as [|p [|q ps]]; [done|..]; simpl in *; by rewrite IH.
Qed.

(** ** [base64.RawURLEncoding] *)

Definition b64_char (v : Z) : byte :=
  byte_of_Z (if v <? 26 then 65 + v else if v <? 52 then 71 + v else if v <? 62 then v - 4
             else if v =? 62 then 45 else 95).

Definition b64_value (c : byte) : option Z :=
  let n := Z_of_byte c in
  if (65 <=? n) && (n <=? 90) then Some (n - 65)
  else if (97 <=? n) && (n <=? 122) then Some (n - 71)
  else if (48 <=? n) && (n <=? 57) then Some (n + 4)
  else if n =? 45 then Some 62
  else if n =? 95 then Some 63
  else None.

(** Three bytes are four characters; one or two bytes at the end are two or three. *)
Fixpoint b64_encode (l : list byte) : list byte :=
  match l with
  | [] => []
  | [a] =>
      let a := Z_of_byte a in [b64_char (a / 4); b64_char (a mod 4 * 16)]
  | [a; b] =>
      let a := Z_of_byte a in let b := Z_of_byte b in
      [b64_char (a / 4); b64_char (a mod 4 * 16 + b / 16); b64_char (b mod 16 * 4)]
  | a :: b :: c :: l =>
      let a := Z_of_byte a in let b := Z_of_byte b in let c := Z_of_byte c in
      b64_char (a / 4) :: b64_char (a mod 4 * 16 + b / 16) :: b64_char (b mod 16 * 4 + c / 64)
      :: b64_char (c mod 64) :: b64_encode l
  end.

(** The decoder of the values of the characters: leftover bits of the last group
    are ignored (the encoding is not strict), a single leftover character is an
    error. *)
Fixpoint b64_decode_values (l : list Z) : option (list byte) :=
  match l with
  | [] => Some []
  | [_] => None
  | [v; w] => Some [byte_of_Z (v * 4 + w / 16)]
  | [v; w; x] => Some [byte_of_Z (v * 4 + w / 16); byte_of_Z (w mod 16 * 16 + x / 4)]
  | v :: w :: x :: y :: l =>
      r ← b64_decode_values l;
      Some (byte_of_Z (v * 4 + w / 16) :: byte_of_Z (w mod 16 * 16 + x / 4)
            :: byte_of_Z (x mod 4 * 64 + y) :: r)
  end.

(** [DecodeString]: carriage returns and newlines are skipped. *)
Definition b64_decode (l : list byte) : option (list byte) :=
  vs ← mapM b64_value (filter (λ c, c ≠ x0a ∧ c ≠ x0d) l);
  b64_decode_values vs.

Lemma b64_value_char v : 0 ≤ v < 64 → b64_value (b64_char v) = Some v.
Proof.
  intros H. assert (forallb (λ n, bool_decide (b64_value (b64_char (Z.of_nat n)) = Some (Z.of_nat n)))
    (seq 0 64) = true) as Hall by (vm_compute; reflexivity).
  rewrite forallb_forall in Hall. specialize (Hall (Z.to_nat v)).
  rewrite Z2Nat.id in Hall by lia. apply bool_decide_eq_true in Hall; [done|].
  apply in_seq. lia.
Qed.

Lemma b64_char_range v :
  0 ≤ v < 64 → visible (b64_char v) = true ∧ b64_char v ≠ x2e ∧ b64_char v ≠ x0a ∧ b64_char v ≠ x0d.
Proof.
  intros H. assert (forallb (λ n, let c := b64_char (Z.of_nat n) in
      visible c && bool_decide (c ≠ x2e) && bool_decide (c ≠ x0a) && bool_decide (c ≠ x0d))
    (seq 0 64) = true) as Hall by (vm_compute; reflexivity).
  rewrite forallb_forall in Hall. specialize (Hall (Z.to_nat v)).
  rewrite Z2Nat.id in Hall by lia. specialize (Hall ltac:(apply in_seq; lia)).
  rewrite !andb_true_iff, !bool_decide_eq_true in Hall. tauto.
Qed.

(** The values [b64_encode] writes. *)
Fixpoint b64_values (l : list byte) : list Z :=
  match l with
  | [] => []
  | [a] => let a := Z_of_byte a in [a / 4; a mod 4 * 16]
  | [a; b] =>
      let a := Z_of_byte a in let b := Z_of_byte b in
      [a / 4; a mod 4 * 16 + b / 16; b mod 16 * 4]
  | a :: b :: c :: l =>
      let a := Z_of_byte a in let b := Z_of_byte b in let c := Z_of_byte c in
      a / 4 :: a mod 4 * 16 + b / 16 :: b mod 16 * 4 + c / 64 :: c mod 64 :: b64_values l
  end.

(** Induction by groups of three. *)
Lemma group_ind (P : list byte → Prop) :
  P [] → (∀ a, P [a]) → (∀ a b, P [a; b]) → (∀ a b c l, P l → P (a :: b :: c :: l)) → ∀ l, P l.
Proof.
  intros H0 H1 H2 H3 l. induction l as [l IH] using (induction_ltof1 _ (@length byte)).
  destruct l as [|a [|b [|c l]]]; [auto..|]. apply H3, IH. unfold ltof. simpl. lia.
Qed.

Lemma b64_encode_values l : b64_encode l = b64_char <$> b64_values l.
Proof. induction l as [|a|a b|a b c l IH] using group_ind; [done..|]. simpl. by rewrite IH. Qed.

(** Putting a group together from its sextets. *)
Lemma glue x k y : 0 < k → 0 ≤ y < k → (x * k + y) / k = x ∧ (x * k + y) mod k = y.
Proof.
  intros Hk Hy. split; [rewrite Z.div_add_l by lia; rewrite Z.div_small by lia; lia|].
  rewrite Z.add_comm, Z_mod_plus_full. by apply Z.mod_small.
Qed.

Lemma quot_range a k n : 0 < k → 0 ≤ a < k * n → 0 ≤ a / k < n.
Proof. intros Hk Ha. split; [apply Z.div_pos; lia|]. apply Z.div_lt_upper_bound; lia. Qed.

Lemma sextet1 (a : byte) : 0 ≤ Z_of_byte a / 4 < 64.
Proof. pose proof (Z_of_byte_range a). apply quot_range; lia. Qed.

Lemma sextet2 (a : byte) y : 0 ≤ y < 16 → 0 ≤ Z_of_byte a mod 4 * 16 + y < 64.
Proof. pose proof (Z.mod_pos_bound (Z_of_byte a) 4). lia. Qed.

Lemma sextet3 (b : byte) y : 0 ≤ y < 4 → 0 ≤ Z_of_byte b mod 16 * 4 + y < 64.
Proof. pose proof (Z.mod_pos_bound (Z_of_byte b) 16). lia. Qed.

Lemma top4 (b : byte) : 0 ≤ Z_of_byte b / 16 < 16.
Proof. pose proof (Z_of_byte_range b). apply quot_range; lia. Qed.

Lemma top2 (c : byte) : 0 ≤ Z_of_byte c / 64 < 4.
Proof. pose proof (Z_of_byte_range c). apply quot_range; lia. Qed.

Lemma b64_values_range l : Forall (λ v, 0 ≤ v < 64) (b64_values l).
Proof.
  induction l as [|a|a b|a b c l IH] using group_ind; simpl; [constructor|..].
  - rewrite <- (Z.add_0_r (_ mod 4 * 16)). repeat constructor; try apply sextet1; apply sextet2; lia.
  - rewrite <- (Z.add_0_r (_ mod 16 * 4)).
    pose proof (sextet1 a). pose proof (sextet2 a _ (top4 b)). pose proof (sextet3 b 0 ltac:(lia)).
    repeat (constructor; [done|]). constructor.
  - pose proof (sextet1 a). pose proof (sextet2 a _ (top4 b)). pose proof (sextet3 b _ (top2 c)).
    pose proof (Z.mod_pos_bound (Z_of_byte c) 64 eq_refl).
    repeat (constructor; [done|]). done.
Qed.

Lemma byte1 (a : byte) y :
  0 ≤ y < 16 → byte_of_Z (Z_of_byte a / 4 * 4 + (Z_of_byte a mod 4 * 16 + y) / 16) = a.
Proof.
  intros Hy. destruct (glue (Z_of_byte a mod 4) 16 y eq_refl Hy) as [-> _].
  rewrite <- (byte_of_Z_of_byte a) at 3. f_equal. pose proof (Z.div_mod (Z_of_byte a) 4). lia.
Qed.

Lemma byte2 (a b : byte) z :
  0 ≤ z < 4 →
  byte_of_Z ((Z_of_byte a mod 4 * 16 + Z_of_byte b / 16) mod 16 * 16 + (Z_of_byte b mod 16 * 4 + z) / 4) = b.
Proof.
  intros Hz. destruct (glue (Z_of_byte a mod 4) 16 (Z_of_byte b / 16) eq_refl (top4 b)) as [_ ->].
  destruct (glue (Z_of_byte b mod 16) 4 z eq_refl Hz) as [-> _].
  rewrite <- (byte_of_Z_of_byte b) at 3. f_equal. pose proof (Z.div_mod (Z_of_byte b) 16). lia.
Qed.

Lemma byte3 (b c : byte) :
  byte_of_Z ((Z_of_byte b mod 16 * 4 + Z_of_byte c / 64) mod 4 * 64 + Z_of_byte c mod 64) = c.
Proof.
  destruct (glue (Z_of_byte b mod 16) 4 (Z_of_byte c / 64) eq_refl (top2 c)) as [_ ->].
  rewrite <- (byte_of_Z_of_byte c) at 3. f_equal. pose proof (Z.div_mod (Z_of_byte c) 64). lia.
Qed.

Lemma b64_decode_values_encode l : b64_decode_values (b64_values l) = Some l.
Proof.
  induction l as [|a|a b|a b c l IH] using group_ind; [done|..]; simpl.
  - rewrite <- (Z.add_0_r (_ mod 4 * 16)). by rewrite byte1.
  - rewrite byte1 by apply top4. rewrite <- (Z.add_0_r (_ mod 16 * 4)). by rewrite byte2.
  - rewrite IH. simpl. rewrite byte1 by apply top4. rewrite byte2 by apply top2. by rewrite byte3.
Qed.

Lemma b64_encode_clean l c : c ∈ b64_encode l → visible c = true ∧ c ≠ x2e ∧ c ≠ x0a ∧ c ≠ x0d.
Proof.
  rewrite b64_encode_values. intros [v [-> Hv]]%list_elem_of_fmap.
  pose proof (b64_values_range l) as Hr. rewrite list.Forall_forall in Hr. apply b64_char_range, Hr, Hv.
Qed.

Lemma filter_id {A} (P : A → Prop) `{∀ x, Decision (P x)} (l : list A) :
  (∀ x, x ∈ l → P x) → filter P l = l.
Proof.
  induction l as [|x l IH]; intros Hl; [done|]. rewrite filter_cons_True by (apply Hl, elem_of_cons; by left).
  f_equal. apply IH. intros y Hy. apply Hl, elem_of_cons. by right.
Qed.

(** Decoding is the inverse of encoding. *)
Lemma b64_decode_encode l : b64_decode (b64_encode l) = Some l.
Proof.
  unfold b64_decode. rewrite filter_id.
  2: { intros c Hc. by destruct (b64_encode_clean l c Hc) as (_ & _ & ? & ?). }
  rewrite b64_encode_values.
  assert (mapM b64_value (b64_char <$> b64_values l) = Some (b64_values l)) as ->.
  { pose proof (b64_values_range l) as Hr. induction Hr as [|v vs Hv Hr IH]; [done|].
    rewrite fmap_cons. cbn [mapM]. rewrite b64_value_char, IH by done. done. }
  apply b64_decode_values_encode.
Qed.

Lemma b64_encode_nil l : b64_encode l = [] → l = [].
Proof. by destruct l as [|a [|b [|c l]]]. Qed.

(** ** Prefixes and substrings of strings *)

Lemma prefix_cons a s b t :
  String.prefix (String a s) (String b t) = bool_decide (a = b) && String.prefix s t.
Proof.
  simpl. destruct (Ascii.ascii_dec a b); [by rewrite bool_decide_eq_true_2|by rewrite bool_decide_eq_false_2].
Qed.

Lemma app_cons a s t : String a s +:+ t = String a (s +:+ t).
Proof. done. Qed.

Lemma substring_all s : String.substring 0 (String.length s) s = s.
Proof. induction s as [|a s IH]; simpl; [done|]. by rewrite IH. Qed.

Lemma append_assoc_str a b c : (a +:+ b) +:+ c = a +:+ (b +:+ c).
Proof. induction a as [|x a IH]; [done|]. rewrite !app_cons. by rewrite IH. Qed.

Lemma prefix_app p k : String.prefix p k = true ↔ ∃ r, k = p +:+ r.
Proof.
  revert k. induction p as [|a p IH]; intros k.
  - split; [|by destruct k]. intros _. by exists k.
  - destruct k as [|b k]; [split; [done|by intros []]|].
    rewrite prefix_cons, andb_true_iff, bool_decide_eq_true, IH. split.
    + intros [-> [r ->]]. by exists r.
    + intros [r E]. rewrite app_cons in E. injection E as -> ->. eauto.
Qed.

Lemma substring_app p r :
  String.substring (String.length p) (String.length (p +:+ r) - String.length p) (p +:+ r) = r.
Proof.
  induction p as [|a p IH].
  - change ("" +:+ r) with r. simpl. rewrite Nat.sub_0_r. apply substring_all.
  - rewrite app_cons. simpl. exact IH.
Qed.

(** ** Integers as text: [strconv.Itoa] and [strconv.ParseInt] *)

Definition fmt_int (n : Z) : string := NilZero.string_of_int (Z.to_int n).

Definition parse_int (s : string) : option Z :=
  match NilZero.int_of_string s with
  | Some i => let n := Z.of_int i in if (- 2 ^ 63 <=? n) && (n <? 2 ^ 63) then Some n else None
  | None => None
  end.

Lemma int_of_fmt n : NilZero.int_of_string (fmt_int n) = Some (Z.to_int n).
Proof.
  apply NilZero.isi; destruct n as [|p|p]; simpl; try done; intros [= E];
    pose proof (DecimalPos.Unsigned.to_uint_nonnil p); congruence.
Qed.

Lemma parse_fmt n : - 2 ^ 63 ≤ n < 2 ^ 63 → parse_int (fmt_int n) = Some n.
Proof.
  intros Hn. unfold parse_int, fmt_int.
  fold (fmt_int n). rewrite int_of_fmt.
  rewrite DecimalZ.of_to. rewrite (proj2 (Z.leb_le _ _)), (proj2 (Z.ltb_lt _ _)) by lia. done.
Qed.

Lemma fmt_int_inj n m : fmt_int n = fmt_int m → n = m.
Proof.
  intros H. pose proof (int_of_fmt n) as E. rewrite H, int_of_fmt in E.
  rewrite <- (DecimalZ.of_to n), <- (DecimalZ.of_to m). by f_equal; congruence.
Qed.

(** Decimal text holds digits and a sign only. *)
Lemma uint_chars c d : c ∉ bytes_of "0123456789" → c ∉ bytes_of (NilEmpty.string_of_uint d).
Proof.
  intros H. induction d; simpl; [apply not_elem_of_nil|..]; (apply not_elem_of_cons; split; [|exact IHd]);
    intros ->; apply H; refine (bool_decide_unpack _ _); exact I.
Qed.

Lemma fmt_int_chars c n : c ∉ bytes_of "-0123456789" → c ∉ bytes_of (fmt_int n).
Proof.
  intros H. apply not_elem_of_cons in H as [Hs H]. unfold fmt_int, NilZero.string_of_int. destruct (Z.to_int n) as [d|d].
  - destruct d; by apply uint_chars || by apply (uint_chars c (Decimal.D0 Decimal.Nil)).
  - apply not_elem_of_cons. split; [done|].
    destruct d; by apply uint_chars || by apply (uint_chars c (Decimal.D0 Decimal.Nil)).
Qed.

Lemma fmt_int_no_dot n : x2e ∉ bytes_of (fmt_int n).
Proof. apply fmt_int_chars. refine (bool_decide_unpack _ _). exact I. Qed.
