(* ===== verification/GoMux.v ===== *)
(** * Request routing of net/http

    What the program uses of [http.ServeMux]: patterns with an optional method,
    literal segments, single-segment wildcards and a trailing slash; the checks at
    registration; the search that picks a pattern; the redirects to the clean path and
    to the path with a trailing slash.  No pattern of the program names a host or uses
    the forms [{x...}] and [{$}].

    The routing tree is kept as the list of the pattern suffixes below a node: a step
    down the tree is a filter of that list. *)

From S2P Require Import Prelude Bytes GoStrings.

(** ** Paths *)

(** [url.PathUnescape]: [None] for a malformed escape. *)
Fixpoint PathUnescape (l : list byte) : option (list byte) :=
  match l with
  | [] => Some []
  | c :: l =>
      if Byte.eqb c x25 then
        match l with
        | h :: o :: l =>
            h ← hex_value h; o ← hex_value o; r ← PathUnescape l;
            Some (byte_of_Z (16 * h + o) :: r)
        | _ => None
        end
      else r ← PathUnescape l; Some (c :: r)
  end.

(** net/http's [pathUnescape]: a malformed segment is taken as it is. *)
Definition unescape (l : list byte) : string := string_of (default l (PathUnescape l)).

(** [path.Clean] on the segments of a rooted path: empty and dot segments go, a dot-dot
    segment removes the one before it.  [acc] is what is kept, last first. *)
Fixpoint clean_segs (acc : list (list byte)) (l : list (list byte)) : list (list byte) :=
  match l with
  | [] => rev acc
  | s :: l =>
      if bool_decide (s = [] ∨ s = [x2e]) then clean_segs acc l
      else if bool_decide (s = [x2e; x2e]) then clean_segs (tail acc) l
      else clean_segs (s :: acc) l
  end.

(** net/http's [cleanPath]: rooted and clean, with the trailing slash it had. *)
Definition ends_in_slash (p : list byte) : bool := bool_decide (last p = Some x2f).
Definition cleanPath (p : list byte) : list byte :=
  let kept := clean_segs [] (split_on x2f p) in
  let slash := if ends_in_slash p && negb (bool_decide (kept = [])) then [x2f] else [] in
  x2f :: join_on x2f kept ++ slash.

(** The segments of a rooted path as [firstSegment] takes them off: unescaped, with
    ["/"] for a slash at the end. *)
Definition path_segs (p : list byte) : list string :=
  match split_on x2f p with
  | [] => []
  | _ :: l =>
      match rev l with
      | [] :: l' => (unescape <$> rev l') ++ ["/"]
      | _ => unescape <$> l
      end
  end.

(** ** Patterns *)

Inductive seg := Lit (s : string) | Wild (name : string) | Rest.

Record pattern := mkPattern { p_method : string; p_segs : list seg }.

#[export] Instance seg_eq_dec : EqDecision seg.
Proof. solve_decision. Defined.

Definition parse_seg (s : list byte) : seg :=
  match s with
  | x7b :: name => Wild (string_of (removelast name))
  | _ => Lit (unescape s)
  end.

Definition parse_segs (p : list byte) : list seg :=
  match split_on x2f p with
  | [] => []
  | _ :: l =>
      match rev l with
      | [] :: l' => (parse_seg <$> rev l') ++ [Rest]
      | _ => parse_seg <$> l
      end
  end.

(** [parsePattern]: an optional method, a blank, the path. *)
Definition parsePattern (s : string) : pattern :=
  match split_on x20 (bytes_of s) with
  | [m; p] => mkPattern (string_of m) (parse_segs p)
  | _ => mkPattern "" (parse_segs (bytes_of s))
  end.

(** ** Registration *)

Inductive relationship := Equivalent | MoreGeneral | MoreSpecific | Disjoint | Overlaps.

Definition combineRelationships (r1 r2 : relationship) : relationship :=
  match r1, r2 with
  | Equivalent, _ => r2
  | Disjoint, _ => Disjoint
  | Overlaps, Disjoint => Disjoint
  | Overlaps, _ => Overlaps
  | MoreGeneral, Equivalent => MoreGeneral
  | MoreGeneral, MoreSpecific => Overlaps
  | MoreSpecific, Equivalent => MoreSpecific
  | MoreSpecific, MoreGeneral => Overlaps
  | _, _ => r2
  end.

Definition compareMethods (m1 m2 : string) : relationship :=
  if String.eqb m1 m2 then Equivalent
  else if String.eqb m1 "" then MoreGeneral
  else if String.eqb m2 "" then MoreSpecific
  else if String.eqb m1 "GET" && String.eqb m2 "HEAD" then MoreGeneral
  else if String.eqb m2 "GET" && String.eqb m1 "HEAD" then MoreSpecific
  else Disjoint.

Definition compareSegments (s1 s2 : seg) : relationship :=
  match s1, s2 with
  | Rest, Rest => Equivalent
  | Rest, _ => MoreGeneral
  | _, Rest => MoreSpecific
  | Wild _, Wild _ => Equivalent
  | Wild _, Lit s => if String.eqb s "/" then Disjoint else MoreGeneral
  | Lit s, Wild _ => if String.eqb s "/" then Disjoint else MoreSpecific
  | Lit s, Lit t => if String.eqb s t then Equivalent else Disjoint
  end.

(** The walk over the corresponding segments; [multi]: does the pattern end in a slash? *)
Definition multi (p : list seg) : bool := bool_decide (last p = Some Rest).
Fixpoint compare_walk (multi1 multi2 : bool) (rel : relationship) (p1 p2 : list seg) : relationship :=
  match p1, p2 with
  | s1 :: p1, s2 :: p2 =>
      match combineRelationships rel (compareSegments s1 s2) with
      | Disjoint => Disjoint
      | rel => compare_walk multi1 multi2 rel p1 p2
      end
  | [], [] => rel
  | [], _ => if multi1 then combineRelationships rel MoreGeneral else Disjoint
  | _, [] => if multi2 then combineRelationships rel MoreSpecific else Disjoint
  end.
Definition comparePaths (p1 p2 : list seg) : relationship :=
  if negb (Nat.eqb (length p1) (length p2)) && negb (multi p1) && negb (multi p2) then Disjoint
  else compare_walk (multi p1) (multi p2) Equivalent p1 p2.

(** [conflictsWith]: the patterns that may not be registered together. *)
Definition conflictsWith (p1 p2 : pattern) : bool :=
  match compareMethods (p_method p1) (p_method p2) with
  | Disjoint => false
  | mrel =>
      match combineRelationships mrel (comparePaths (p_segs p1) (p_segs p2)) with
      | Equivalent | Overlaps => true
      | _ => false
      end
  end.

(** No registration in this order panics. *)
Fixpoint registers (ps : list pattern) : bool :=
  match ps with
  | [] => true
  | p :: ps => forallb (λ q, negb (conflictsWith q p)) ps && registers ps
  end.

(** ** The search *)

Section search.
Context {H : Type}.

(** A pattern suffix below the current node, with the route it belongs to. *)
Abbreviation cand := (list seg * (pattern * H))%type.

Definition after_lit (s : string) (c : cand) : option cand :=
  match c.1 with Lit t :: p => if String.eqb s t then Some (p, c.2) else None | _ => None end.

Definition after_wild (c : cand) : option cand :=
  match c.1 with Wild _ :: p => Some (p, c.2) | _ => None end.

Definition at_end (c : cand) : bool := match c.1 with [] => true | _ => false end.

Definition at_rest (c : cand) : bool := match c.1 with [Rest] => true | _ => false end.

(** [matchPath]: the route, and what the wildcards matched. *)
Fixpoint matchPath (path : list string) (cs : list cand) : option ((pattern * H) * list string) :=
  match path with
  | [] => (λ c, (c.2, [])) <$> List.find at_end cs
  | s :: path =>
      match matchPath path (omap (after_lit s) cs) with
      | Some r => Some r
      | None =>
          match (if String.eqb s "/" then None else matchPath path (omap after_wild cs)) with
          | Some (r, vs) => Some (r, s :: vs)
          | None => (λ c, (c.2, [])) <$> List.find at_rest cs
          end
      end
  end.

(** The subtree of a method; the empty method is that of the patterns without one. *)
Definition of_method (m : string) (rs : list (pattern * H)) : list cand :=
  omap (λ r, if String.eqb (p_method r.1) m then Some (p_segs r.1, r) else None) rs.

(** The first of several searches that finds something. *)
Definition or_else {A} (o1 o2 : option A) : option A := match o1 with Some a => Some a | None => o2 end.

(** [matchMethodAndPath] *)
Definition matchMethodAndPath (m : string) (path : list string) (rs : list (pattern * H)) :=
  or_else (matchPath path (of_method m rs))
    (or_else (if String.eqb m "HEAD" then matchPath path (of_method "GET" rs) else None)
       (matchPath path (of_method "" rs))).

(** [exactMatch], for a path in segments whose last is ["/"] if the path ends so. *)
Definition exactMatch (r : option ((pattern * H) * list string)) (p : list byte) : bool :=
  match r with
  | None => false
  | Some ((pat, _), _) =>
      if negb (multi (p_segs pat)) then true
      else ends_in_slash p && Nat.eqb (length (p_segs pat)) (count_occ Byte.byte_eq_dec p x2f)
  end.

(** What the mux does with a request: run a handler with its path values, redirect, or
    refuse (404, or 405 when another method has the path). *)
Inductive routed := Dispatch (r : pattern * H) (vals : list string) | Redirect (to : list byte) | NoMatch.

(** [findHandler]; the path of a CONNECT request is taken as it is. *)
Definition findHandler (m : string) (escaped : list byte) (rs : list (pattern * H)) : routed :=
  let p := if String.eqb m "CONNECT" then escaped else cleanPath escaped in
  let n := matchMethodAndPath m (path_segs p) rs in
  if negb (exactMatch n p) && negb (ends_in_slash p)
     && exactMatch (matchMethodAndPath m (path_segs (p ++ [x2f])) rs) (p ++ [x2f])
  then Redirect (cleanPath p ++ [x2f])
  else if negb (bool_decide (p = escaped)) then Redirect p
  else match n with Some (r, vs) => Dispatch r vs | None => NoMatch end.
End search.

(** [r.PathValue]: the wildcards by name. *)
Definition wild_names (p : pattern) : list string :=
  omap (λ s, match s with Wild n => Some n | _ => None end) (p_segs p).
Definition PathValue (p : pattern) (vals : list string) (name : string) : string :=
  default "" (snd <$> List.find (λ nv, String.eqb nv.1 name) (zip (wild_names p) vals)).

(** ** What the search returns *)

(** The paths of a pattern. *)
Fixpoint matches (p : list seg) (path : list string) : bool :=
  match p, path with
  | [], [] => true
  | Lit t :: p, s :: path => String.eqb s t && matches p path
  | Wild _ :: p, s :: path => negb (String.eqb s "/") && matches p path
  | [Rest], _ :: _ => true
  | _, _ => false
  end.

(** What the wildcards stand for. *)
Fixpoint captured (p : list seg) (path : list string) : list string :=
  match p, path with
  | Lit _ :: p, _ :: path => captured p path
  | Wild _ :: p, s :: path => s :: captured p path
  | _, _ => []
  end.

(** The order of preference: literal, wildcard, rest, position by position. *)
Fixpoint preferred (p q : list seg) : bool :=
  match p, q with
  | [], [] => true
  | Lit _ :: p, Lit _ :: q => preferred p q
  | Lit _ :: _, _ :: _ => true
  | Wild _ :: p, Wild _ :: q => preferred p q
  | Wild _ :: _, Rest :: _ => true
  | Rest :: _, Rest :: _ => true
  | _, _ => false
  end.

(** One pattern has every path of another. *)
Definition covers (p q : list seg) : Prop := ∀ path, matches q path = true → matches p path = true.

Section found.
Context {H : Type}.
Implicit Types (cs : list (list seg * (pattern * H))) (path : list string).

Lemma matches_lit cs s path p r :
  (p, r) ∈ omap (after_lit s) cs → matches p path = true →
  ∃ p', (p', r) ∈ cs ∧ p' = Lit s :: p ∧ matches p' (s :: path) = true.
Proof.
  rewrite list_elem_of_omap. intros ([p' r'] & Hin & Ha) Hm. unfold after_lit in Ha. simpl in Ha.
  destruct p' as [|[t| |] p']; try done. destruct (String.eqb s t) eqn:E; [|done]. apply String.eqb_eq in E as ->.
  simplify_eq. exists (Lit t :: p). split_and!; [done..|]. simpl. by rewrite String.eqb_refl, Hm.
Qed.

Lemma matches_wild cs s path p r :
  s ≠ "/" → (p, r) ∈ omap after_wild cs → matches p path = true →
  ∃ n, (Wild n :: p, r) ∈ cs ∧ matches (Wild n :: p) (s :: path) = true.
Proof.
  intros Hs. rewrite list_elem_of_omap. intros ([p' r'] & Hin & Ha) Hm. unfold after_wild in Ha. simpl in Ha.
  destruct p' as [|[|n|] p']; try done. simplify_eq. exists n. split; [done|]. simpl.
  apply String.eqb_neq in Hs. by rewrite Hs, Hm.
Qed.

Lemma lit_step cs s p r : (Lit s :: p, r) ∈ cs → (p, r) ∈ omap (after_lit s) cs.
Proof.
  intros Hin. apply list_elem_of_omap. exists (Lit s :: p, r). split; [done|]. unfold after_lit. simpl.
  by rewrite String.eqb_refl.
Qed.

Lemma wild_step cs n p r : (Wild n :: p, r) ∈ cs → (p, r) ∈ omap after_wild cs.
Proof. intros Hin. apply list_elem_of_omap. by exists (Wild n :: p, r). Qed.

(** A pattern that matches a segment does so in one of three ways. *)
Lemma matches_cons p s path :
  matches p (s :: path) = true →
  (∃ p', p = Lit s :: p' ∧ matches p' path = true)
  ∨ (∃ n p', p = Wild n :: p' ∧ s ≠ "/" ∧ matches p' path = true) ∨ p = [Rest].
Proof.
  destruct p as [|[t|n|] p]; simpl; [done| | |destruct p; eauto; done].
  - intros [E Hm]%andb_prop. apply String.eqb_eq in E as ->. eauto.
  - intros [E Hm]%andb_prop. apply negb_true_iff, String.eqb_neq in E. eauto 10.
Qed.

(** The search fails only when nothing matches. *)
Lemma matchPath_complete path cs :
  matchPath path cs = None → ∀ p r, (p, r) ∈ cs → matches p path = false.
Proof.
  revert cs. induction path as [|s path IH]; intros cs Hn p r Hin; apply not_true_is_false; intros Hm; simpl in Hn.
  - apply fmap_None in Hn. eapply find_none in Hn; [|by apply list_elem_of_In]. unfold at_end in Hn. simpl in Hn.
    by destruct p as [|[] [|??]].
  - destruct (matchPath path (omap (after_lit s) cs)) eqn:E1; [done|].
    destruct (if String.eqb s "/" then _ else _) as [[??]|] eqn:E2; [done|]. apply fmap_None in Hn.
    apply matches_cons in Hm as [(p' & -> & Hm)|[(n & p' & -> & Hs & Hm)| ->]].
    + by rewrite (IH _ E1 p' r (lit_step _ _ _ _ Hin)) in Hm.
    + apply String.eqb_neq in Hs. rewrite Hs in E2. by rewrite (IH _ E2 p' r (wild_step _ _ _ _ Hin)) in Hm.
    + eapply find_none in Hn; [|by apply list_elem_of_In]. done.
Qed.

(** What it finds matches, and is preferred to everything else that does. *)
Lemma matchPath_sound path cs r vs :
  matchPath path cs = Some (r, vs) →
  ∃ p, (p, r) ∈ cs ∧ matches p path = true ∧ vs = captured p path
    ∧ ∀ q r', (q, r') ∈ cs → matches q path = true → preferred p q = true.
Proof.
  revert cs vs. induction path as [|s path IH]; intros cs vs E; simpl in E.
  - apply fmap_Some in E as ([p r'] & E & [= -> ->]). apply find_some in E as [Hin He]. exists p.
    destruct p; [|done]. apply list_elem_of_In in Hin. split_and!; [done..|]. intros q r Hq Hm. by destruct q as [|[] [|??]].
  - destruct (matchPath path (omap (after_lit s) cs)) as [[r1 vs1]|] eqn:E1.
    + simplify_eq. destruct (IH _ _ E1) as (p & Hin & Hm & -> & Hpref).
      destruct (matches_lit _ _ _ _ _ Hin Hm) as (p' & Hin' & -> & Hm'). exists (Lit s :: p). split_and!; [done..|].
      intros q r' Hq Hmq. apply matches_cons in Hmq as [(q' & -> & Hmq)|[(n & q' & -> & _)| ->]]; simpl; [|done..].
      by apply (Hpref q' r'); [apply lit_step|].
    + destruct (if String.eqb s "/" then _ else _) as [[r1 vs1]|] eqn:E2.
      * simplify_eq. destruct (String.eqb s "/") eqn:Es; [done|]. apply String.eqb_neq in Es.
        destruct (IH _ _ E2) as (p & Hin & Hm & -> & Hpref).
        destruct (matches_wild _ s _ _ _ Es Hin Hm) as (n & Hin' & Hm'). exists (Wild n :: p). split_and!; [done..|].
        intros q r' Hq Hmq. apply matches_cons in Hmq as [(q' & -> & Hmq)|[(n' & q' & -> & _ & Hmq)| ->]]; simpl; [|by apply (Hpref q' r'); [apply (wild_step _ n')|]|done].
        rewrite (matchPath_complete _ _ E1 q' r') in Hmq; [done|by apply lit_step].
      * apply fmap_Some in E as ([p r'] & E & [= -> ->]). apply find_some in E as [Hin He].
        unfold at_rest in He. simpl in He. destruct p as [|[| |] [|]]; try done. exists [Rest].
        apply list_elem_of_In in Hin. split_and!; [done..|].
        intros q r Hq Hmq. apply matches_cons in Hmq as [(q' & -> & Hmq)|[(n' & q' & -> & Hs & Hmq)| ->]]; [| |done].
        -- rewrite (matchPath_complete _ _ E1 q' r) in Hmq; [done|by apply lit_step].
        -- apply String.eqb_neq in Hs. rewrite Hs in E2.
           rewrite (matchPath_complete _ _ E2 q' r) in Hmq; [done|by eapply wild_step].
Qed.
End found.

(** A segment different from a given one. *)
Lemma other_segment t : ∃ s, s ≠ t ∧ s ≠ "/".
Proof. exists (if String.eqb t "a" then "b" else "a"). destruct (String.eqb_spec t "a"); split; congruence. Qed.

(** Of two patterns of one path, the preferred one has every path of the other only if
    the other has every path of it: it is the most specific of those comparable to it. *)
Lemma preferred_specific p q path :
  matches p path = true → matches q path = true → preferred p q = true → covers p q → covers q p.
Proof.
  revert q path. induction p as [|a p IH]; intros q path Hp Hq Hpref Hc.
  - destruct q; [done|]. done.
  - destruct path as [|s path]; [by destruct a, p|].
    apply matches_cons in Hp as [(p' & [= -> ->] & Hp)|[(n & p' & [= -> ->] & Hs & Hp)| [= -> ->]]].
    + apply matches_cons in Hq as [(q' & -> & Hq)|[(m & q' & -> & Hs & Hq)| ->]].
      * assert (covers q' p') as Hcc.
        { apply (IH q' path); [done..|]. intros path' H'. specialize (Hc (s :: path')). simpl in Hc.
          rewrite String.eqb_refl in Hc. by apply Hc. }
        intros [|s' path']; simpl; [done|]. intros [E H']%andb_prop. by rewrite E, Hcc.
      * destruct (other_segment s) as (s' & H1 & H2). specialize (Hc (s' :: path)). simpl in Hc.
        apply String.eqb_neq in H1, H2. rewrite H1, H2, Hq in Hc. by specialize (Hc eq_refl).
      * destruct (other_segment s) as (s' & H1 & H2). specialize (Hc [s'] eq_refl). simpl in Hc.
        apply String.eqb_neq in H1. by rewrite H1 in Hc.
    + apply matches_cons in Hq as [(q' & -> & Hq)|[(m & q' & -> & _ & Hq)| ->]]; [done| |].
      * assert (covers q' p') as Hcc.
        { apply (IH q' path); [done..|]. intros path' H'. specialize (Hc (s :: path')). simpl in Hc.
          apply String.eqb_neq in Hs. rewrite Hs in Hc. by apply Hc. }
        intros [|s' path']; simpl; [done|]. intros [E H']%andb_prop. by rewrite E, Hcc.
      * specialize (Hc ["/"] eq_refl). done.
    + apply matches_cons in Hq as [(q' & -> & Hq)|[(m & q' & -> & _ & Hq)| ->]]; done.
Qed.

(** No registered pattern that has the path is more specific than the one found. *)
Lemma matchPath_most_specific {H} path (cs : list (list seg * (pattern * H))) r vs q r' :
  matchPath path cs = Some (r, vs) → (q, r') ∈ cs → matches q path = true →
  ∃ p, (p, r) ∈ cs ∧ matches p path = true ∧ (covers p q → covers q p).
Proof.
  intros E Hq Hm. apply matchPath_sound in E as (p & Hin & Hp & _ & Hpref). exists p. split_and!; [done..|].
  by apply (preferred_specific p q path), (Hpref q r').
Qed.

(** ** A dispatched request *)

Lemma elem_of_method {H} m (rs : list (pattern * H)) p r :
  (p, r) ∈ of_method m rs ↔ r ∈ rs ∧ p_method r.1 = m ∧ p = p_segs r.1.
Proof.
  unfold of_method. rewrite list_elem_of_omap. split.
  - intros (r' & Hin & E). destruct (String.eqb_spec (p_method r'.1) m); [|done]. by simplify_eq.
  - intros (Hin & <- & ->). exists r. split; [done|]. by rewrite String.eqb_refl.
Qed.

(** Whether a route's method admits a request's. *)
Definition admits (pm m : string) : Prop := pm = m ∨ (pm = "GET" ∧ m = "HEAD") ∨ pm = "".

(** A handler runs only for a clean path its pattern matches, with a method it admits,
    on the values its wildcards have there. *)
Theorem findHandler_sound {H} m esc (rs : list (pattern * H)) r vs :
  findHandler m esc rs = Dispatch r vs →
  r ∈ rs ∧ admits (p_method r.1) m ∧ matches (p_segs r.1) (path_segs esc) = true
  ∧ vs = captured (p_segs r.1) (path_segs esc) ∧ (m ≠ "CONNECT" → cleanPath esc = esc).
Proof.
  unfold findHandler. cbv zeta. destruct (_ && _ && _); [done|]. case_bool_decide as Hc; [|done]. cbn [negb]. rewrite Hc.
  destruct (matchMethodAndPath _ _ _) as [[r' vs']|] eqn:E; [|done]. intros [= -> ->].
  unfold matchMethodAndPath, or_else in E.
  assert (∃ m', matchPath (path_segs esc) (of_method m' rs) = Some (r, vs) ∧ admits m' m) as (m' & E' & Ha).
  { destruct (matchPath _ (of_method m rs)) eqn:E1; [simplify_eq; eexists; split; [done|by left]|].
    destruct (String.eqb_spec m "HEAD") as [-> |].
    - destruct (matchPath _ (of_method "GET" rs)) eqn:E2; [simplify_eq; eexists; split; [done|by right; left]|].
      eexists. split; [done|]. by right; right.
    - eexists. split; [done|]. by right; right. }
  apply matchPath_sound in E' as (p & Hin & Hm & -> & _). apply elem_of_method in Hin as (Hin & <- & ->).
  split_and!; [done..|]. intros Hne. apply String.eqb_neq in Hne. by rewrite Hne in Hc.
Qed.

(** With a pattern for every path, no request is refused by the mux. *)
Lemma findHandler_total {H} m esc (rs : list (pattern * H)) h :
  m ≠ "CONNECT" → (mkPattern "" [Rest], h) ∈ rs → findHandler m esc rs ≠ NoMatch.
Proof.
  intros Hne Hin. unfold findHandler. apply String.eqb_neq in Hne. rewrite Hne. cbv zeta. destruct (_ && _ && _); [done|]. case_bool_decide; [|done]. cbn [negb].
  destruct (matchMethodAndPath _ _ _) as [[r' vs']|] eqn:E; [done|]. unfold matchMethodAndPath, or_else in E.
  destruct (matchPath _ (of_method m rs)); [done|]. destruct (if String.eqb m "HEAD" then _ else None); [done|].
  pose proof (matchPath_complete _ _ E [Rest] (mkPattern "" [Rest], h)) as Hm. rewrite elem_of_method in Hm.
  assert (path_segs (cleanPath esc) ≠ []) as Hsegs.
  { unfold cleanPath, path_segs. cbv zeta. change (split_on x2f (x2f :: ?l)) with ([] :: split_on x2f l) in |- *.
    destruct (split_on x2f _) as [|s l] eqn:Es; [by apply split_on_nonempty in Es|].
    destruct (rev (s :: l)) as [|[] l'] eqn:Er; simpl; try done. by destruct (unescape <$> rev l'). }
  destruct (path_segs (cleanPath esc)); [done|]. by discriminate Hm.
Qed.
