(* ===== verification/GoFloat.v ===== *)
(** * IEEE 754 binary64 as the Go sources use it

    [float64] values are the standard library's specification floats at
    precision 53 and maximal exponent 1024, so NaN, the infinities, signed
    zeros and rounding are all present and every operation computes.  The file
    adds the conversions and the [math] functions the program calls, the order
    on non-NaN values, and the one fact about rounding that the score bounds
    need: an arithmetic result has a mantissa of at most 53 bits. *)

From S2P Require Import Prelude.
From Stdlib Require Export SpecFloat.

Abbreviation float64 := spec_float.

Definition f_add : float64 → float64 → float64 := SFadd 53 1024.

Definition f_sub : float64 → float64 → float64 := SFsub 53 1024.

Definition f_mul : float64 → float64 → float64 := SFmul 53 1024.

Definition f_div : float64 → float64 → float64 := SFdiv 53 1024.

(** Go's [<], [<=] and [==] on floats: false as soon as a NaN is involved. *)
Definition f_lt : float64 → float64 → bool := SFltb.

Definition f_le : float64 → float64 → bool := SFleb.

Definition f_eq : float64 → float64 → bool := SFeqb.

(** [float64(n)]: round to nearest even (exact below [2^53]). *)
Definition f_of_Z (n : Z) : float64 := binary_normalize 53 1024 n 0 false.

(** The constant [n * 2^e], for the non-integral literals of the sources. *)
Definition f_scale (n e : Z) : float64 := binary_normalize 53 1024 n e false.

Definition f_is_nan (x : float64) : bool :=
  match x with S754_nan => true | _ => false end.

(** [math.Min] and [math.Max], special cases in the library's order. *)
Definition f_min (x y : float64) : float64 :=
  match x, y with
  | S754_infinity true, _ | _, S754_infinity true => S754_infinity true
  | S754_nan, _ | _, S754_nan => S754_nan
  | S754_zero s, S754_zero s' => if s then x else y
  | _, _ => if f_lt x y then x else y
  end.

Definition f_max (x y : float64) : float64 :=
  match x, y with
  | S754_infinity false, _ | _, S754_infinity false => S754_infinity false
  | S754_nan, _ | _, S754_nan => S754_nan
  | S754_zero s, S754_zero s' => if s then y else x
  | _, _ => if f_lt y x then x else y
  end.

(** [math.Round]: to the nearest integer, halves away from zero. *)
Definition f_round (x : float64) : float64 :=
  match x with
  | S754_finite s m e =>
      if 0 <=? e then x
      else
        let q := (Z.pos m + 2 ^ (- e - 1)) / 2 ^ (- e) in
        binary_normalize 53 1024 (if s then - q else q) 0 s
  | _ => x
  end.

(** [int(x)]: truncation toward zero.  The language leaves a value outside the
    64-bit range (and NaN) to the implementation; amd64 yields [-2^63]. *)
Definition f_to_int (x : float64) : Z :=
  let clip z := if (- 2 ^ 63 <=? z) && (z <? 2 ^ 63) then z else - 2 ^ 63 in
  match x with
  | S754_zero _ => 0
  | S754_finite s m e =>
      let a := if 0 <=? e then Z.pos m * 2 ^ e else Z.pos m / 2 ^ (- e) in
      clip (if s then - a else a)
  | _ => - 2 ^ 63
  end.

(** [Duration.Seconds] *)
Definition Seconds (d : Z) : float64 :=
  f_add (f_of_Z (Z.quot d second)) (f_div (f_of_Z (Z.rem d second)) (f_of_Z 1000000000)).

(** ** The order on non-NaN values *)

Definition f_key (x : float64) : Z * Z * Z :=
  match x with
  | S754_infinity true => (-2, 0, 0)
  | S754_finite true m e => (-1, - e, - Z.pos m)
  | S754_zero _ => (0, 0, 0)
  | S754_finite false m e => (1, e, Z.pos m)
  | S754_infinity false => (2, 0, 0)
  | S754_nan => (0, 0, 0)
  end.

Definition key_lt (a b : Z * Z * Z) : Prop :=
  let '(c1, e1, m1) := a in
  let '(c2, e2, m2) := b in
  c1 < c2 ∨ c1 = c2 ∧ (e1 < e2 ∨ e1 = e2 ∧ m1 < m2).

Lemma f_lt_key x y :
  f_lt x y = true ↔ f_is_nan x = false ∧ f_is_nan y = false ∧ key_lt (f_key x) (f_key y).
Proof.
  unfold f_lt, SFltb, SFcompare, key_lt, f_key, f_is_nan.
  destruct x as [[]|[]| |[] m1 e1], y as [[]|[]| |[] m2 e2]; simpl;
    try change (Pos.compare_cont Eq m1 m2) with (Pos.compare m1 m2);
    try (destruct (Z.compare_spec e1 e2), (Pos.compare_spec m1 m2); simpl);
    (split; intros; destruct_and?; repeat split; try done; lia).
Qed.

Lemma f_eq_key x y :
  f_eq x y = true ↔ f_is_nan x = false ∧ f_is_nan y = false ∧ f_key x = f_key y.
Proof.
  unfold f_eq, SFeqb, SFcompare, f_key, f_is_nan.
  destruct x as [[]|[]| |[] m1 e1], y as [[]|[]| |[] m2 e2]; simpl;
    try change (Pos.compare_cont Eq m1 m2) with (Pos.compare m1 m2);
    try (destruct (Z.compare_spec e1 e2), (Pos.compare_spec m1 m2); simpl);
    (split; intros; destruct_and?; repeat split; simplify_eq; try done; try lia).
Qed.

Lemma f_le_lt_eq x y : f_le x y = f_lt x y || f_eq x y.
Proof.
  unfold f_le, f_lt, f_eq, SFleb, SFltb, SFeqb.
  by destruct (SFcompare x y) as [[]|].
Qed.

Lemma key_lt_trans a b c : key_lt a b → key_lt b c → key_lt a c.
Proof. destruct a as [[??]?], b as [[??]?], c as [[??]?]; simpl; lia. Qed.

Lemma key_lt_irrefl a : ¬ key_lt a a.
Proof. destruct a as [[??]?]; simpl; lia. Qed.

Lemma key_lt_total a b : key_lt a b ∨ a = b ∨ key_lt b a.
Proof.
  destruct a as [[a1 a2] a3], b as [[b1 b2] b3]; simpl.
  destruct (Z.lt_trichotomy a1 b1) as [?|[?|?]], (Z.lt_trichotomy a2 b2) as [?|[?|?]],
    (Z.lt_trichotomy a3 b3) as [?|[?|?]];
    first [left; lia | right; right; lia | right; left; congruence].
Qed.

Lemma f_lt_irrefl x : f_lt x x = false.
Proof.
  apply not_true_iff_false. intros (_&_&H)%f_lt_key. by apply key_lt_irrefl in H.
Qed.

Lemma f_lt_trans x y z : f_lt x y = true → f_lt y z = true → f_lt x z = true.
Proof.
  intros (?&?&?)%f_lt_key (?&?&?)%f_lt_key. apply f_lt_key.
  eauto using key_lt_trans.
Qed.

Lemma f_lt_eq_trans x y z : f_lt x y = true → f_eq y z = true → f_lt x z = true.
Proof.
  intros (?&?&?)%f_lt_key (?&?&E)%f_eq_key. apply f_lt_key.
  rewrite <- E. eauto.
Qed.

Lemma f_eq_lt_trans x y z : f_eq x y = true → f_lt y z = true → f_lt x z = true.
Proof.
  intros (?&?&E)%f_eq_key (?&?&?)%f_lt_key. apply f_lt_key.
  rewrite E. eauto.
Qed.

Lemma f_eq_trans x y z : f_eq x y = true → f_eq y z = true → f_eq x z = true.
Proof.
  intros (?&?&E)%f_eq_key (?&?&E')%f_eq_key. apply f_eq_key.
  rewrite E. eauto.
Qed.

Lemma f_eq_sym x y : f_eq x y = true → f_eq y x = true.
Proof. intros (?&?&E)%f_eq_key. apply f_eq_key. eauto. Qed.

Lemma f_eq_refl x : f_is_nan x = false → f_eq x x = true.
Proof. intros H. by apply f_eq_key. Qed.

Lemma f_total x y :
  f_is_nan x = false → f_is_nan y = false →
  f_lt x y = true ∨ f_eq x y = true ∨ f_lt y x = true.
Proof.
  intros Hx Hy. rewrite !f_lt_key, f_eq_key.
  destruct (key_lt_total (f_key x) (f_key y)) as [?|[?|?]]; eauto.
Qed.

(** ** Rounding keeps 53 bits *)

Definition prec53 (x : float64) : Prop :=
  match x with S754_finite _ m _ => Z.pos m < 2 ^ 53 | _ => True end.

Lemma digits2_pos_size p : digits2_pos p = Pos.size p.
Proof. induction p; simpl; congruence. Qed.

Lemma digits2_gt p : Z.pos p < 2 ^ Z.pos (digits2_pos p).
Proof.
  rewrite digits2_pos_size, <- Pos2Z.inj_pow. apply Pos2Z.pos_lt_pos, Pos.size_gt.
Qed.

Lemma shr_1_m mrs : 0 ≤ shr_m mrs → shr_m (shr_1 mrs) = shr_m mrs / 2.
Proof.
  destruct mrs as [m r s]; simpl. intros Hm.
  rewrite <- Z.div2_div. destruct m as [|[]|]; simpl; try done; lia.
Qed.

Lemma iter_shr_m p mrs :
  0 ≤ shr_m mrs →
  0 ≤ shr_m (iter_pos shr_1 p mrs) ∧
  shr_m (iter_pos shr_1 p mrs) = shr_m mrs / 2 ^ Z.pos p.
Proof.
  revert mrs. induction p as [p IH|p IH|]; intros mrs Hm; simpl.
  - pose proof (shr_1_m mrs Hm) as E1.
    assert (0 ≤ shr_m (shr_1 mrs)) as H1 by (rewrite E1; apply Z.div_pos; lia).
    destruct (IH _ H1) as [H2 E2]. destruct (IH _ H2) as [H3 E3].
    split; [done|]. rewrite E3, E2, E1, !Z.div_div by lia.
    f_equal. replace (Z.pos p~1) with (1 + (Z.pos p + Z.pos p)) by lia.
    rewrite !Z.pow_add_r by lia. lia.
  - destruct (IH _ Hm) as [H2 E2]. destruct (IH _ H2) as [H3 E3].
    split; [done|]. rewrite E3, E2, !Z.div_div by lia.
    f_equal. replace (Z.pos p~0) with (Z.pos p + Z.pos p) by lia.
    rewrite !Z.pow_add_r by lia. lia.
  - rewrite shr_1_m by done. split; [apply Z.div_pos; lia|done].
Qed.

Lemma shr_fexp_53 m e l :
  0 ≤ m → 0 ≤ shr_m (fst (shr_fexp 53 1024 m e l)) < 2 ^ 53.
Proof.
  intros Hm. unfold shr_fexp.
  assert (shr_m (shr_record_of_loc m l) = m) as E by by destruct l as [|[]].
  assert (m < 2 ^ Zdigits2 m) as Hd
    by (destruct m; [done|apply digits2_gt|lia]).
  assert (0 ≤ Zdigits2 m) as Hd0 by (destruct m; simpl; lia).
  set (n := fexp 53 1024 (Zdigits2 m + e) - e).
  assert (Zdigits2 m - 53 ≤ n) as Hn by (unfold n, fexp; lia).
  unfold shr. destruct n as [|p|p]; simpl fst; rewrite ?E.
  - split; [done|]. apply Z.lt_le_trans with (2 ^ Zdigits2 m); [done|].
    apply Z.pow_le_mono_r; lia.
  - destruct (iter_shr_m p (shr_record_of_loc m l)) as [H1 H2]; [by rewrite E|].
    split; [done|]. rewrite H2, E. apply Z.div_lt_upper_bound; [lia|].
    apply Z.lt_le_trans with (2 ^ Zdigits2 m); [done|].
    rewrite <- Z.pow_add_r by lia. apply Z.pow_le_mono_r; lia.
  - split; [done|]. apply Z.lt_le_trans with (2 ^ Zdigits2 m); [done|].
    apply Z.pow_le_mono_r; lia.
Qed.

Lemma binary_round_aux_53 s m e l : 0 ≤ m → prec53 (binary_round_aux 53 1024 s m e l).
Proof.
  intros Hm. unfold binary_round_aux.
  pose proof (shr_fexp_53 m e l Hm) as H1.
  destruct (shr_fexp 53 1024 m e l) as [mrs e']; simpl in H1.
  assert (0 ≤ round_nearest_even (shr_m mrs) (loc_of_shr_record mrs)) as H2
    by (unfold round_nearest_even; repeat case_match; lia).
  pose proof (shr_fexp_53 _ e' loc_Exact H2) as H3.
  destruct (shr_fexp 53 1024 _ e' loc_Exact) as [mrs2 e2]; simpl in H3.
  destruct (shr_m mrs2); [done| |lia].
  destruct (e2 <=? 1024 - 53); simpl; [lia|done].
Qed.

Lemma binary_normalize_53 m e s : prec53 (binary_normalize 53 1024 m e s).
Proof.
  destruct m; simpl; [done| |]; unfold binary_round;
    destruct (shl_align _ _ _); by apply binary_round_aux_53.
Qed.

Lemma f_of_Z_53 n : prec53 (f_of_Z n).
Proof. apply binary_normalize_53. Qed.

Lemma f_sub_53 x y : prec53 x → prec53 y → prec53 (f_sub x y).
Proof.
  unfold f_sub, SFsub. intros Hx Hy.
  destruct x as [[]|[]| |sx m1 e1], y as [[]|[]| |sy m2 e2]; try done;
    apply binary_normalize_53.
Qed.

Lemma div_core_nonneg m1 e1 m2 e2 :
  0 ≤ fst (fst (SFdiv_core_binary 53 1024 (Z.pos m1) e1 (Z.pos m2) e2)).
Proof.
  unfold SFdiv_core_binary.
  set (s := _ - _ - Z.min _ _).
  set (m' := match s with Z0 => _ | Zpos _ => _ | Zneg _ => _ end).
  assert (0 ≤ m') as H.
  { unfold m'. destruct s; [lia| |lia]. apply Z.shiftl_nonneg. lia. }
  pose proof (Z.div_pos m' (Z.pos m2) H ltac:(lia)) as Hq.
  unfold Z.div in Hq. by destruct (Z.div_eucl m' (Z.pos m2)).
Qed.

Lemma f_div_53 x y : prec53 (f_div x y).
Proof.
  unfold f_div, SFdiv.
  destruct x as [sx|sx| |sx m1 e1], y as [sy|sy| |sy m2 e2]; try done.
  pose proof (div_core_nonneg m1 e1 m2 e2) as H.
  destruct (SFdiv_core_binary 53 1024 (Z.pos m1) e1 (Z.pos m2) e2) as [[mz ez] lz].
  by apply binary_round_aux_53.
Qed.

(** A 53-bit value that is not above 100 rounds to an integer between 0 and
    100 once it is not negative. *)
Lemma f_100 : f_of_Z 100 = S754_finite false 7036874417766400 (-46).
Proof. reflexivity. Qed.

Lemma f_round_small m e :
  prec53 (S754_finite false m e) →
  f_lt (f_of_Z 100) (S754_finite false m e) = false →
  0 ≤ f_to_int (f_round (S754_finite false m e)) ≤ 100.
Proof.
  intros Hm Hle. simpl in Hm.
  assert (¬ key_lt (1, -46, 7036874417766400) (1, e, Z.pos m)) as Hk.
  { intros Hk. apply not_true_iff_false in Hle. apply Hle, f_lt_key.
    rewrite f_100. by repeat split. }
  simpl in Hk.
  assert (e ≤ -46) as He by lia.
  unfold f_round. destruct (Z.leb_spec 0 e); [lia|].
  set (q := (Z.pos m + 2 ^ (- e - 1)) / 2 ^ (- e)).
  assert (0 ≤ q ≤ 100) as Hq.
  { assert (0 < 2 ^ (- e - 1)) by (apply Z.pow_pos_nonneg; lia).
    assert (2 ^ (- e) = 2 * 2 ^ (- e - 1)) as E2.
    { rewrite <- Z.pow_succ_r by lia. f_equal. lia. }
    unfold q. split; [apply Z.div_pos; lia|].
    apply Z.lt_succ_r, Z.div_lt_upper_bound; [lia|].
    destruct (decide (e = -46)) as [->|]; [simpl; lia|].
    assert (2 ^ 46 ≤ 2 ^ (- e - 1)) by (apply Z.pow_le_mono_r; lia). lia. }
  clearbody q. assert (q ∈ seqZ 0 101) as Hin by (apply elem_of_seqZ; lia).
  clear -Hin. revert q Hin. apply list.Forall_forall.
  apply (bool_decide_unpack _). vm_compute. exact I.
Qed.

#[global] Arguments prec53 : simpl never.
#[global] Arguments f_add : simpl never.
#[global] Arguments f_sub : simpl never.
#[global] Arguments f_mul : simpl never.
#[global] Arguments f_div : simpl never.
#[global] Arguments f_of_Z : simpl never.
#[global] Arguments f_lt : simpl never.
#[global] Arguments f_le : simpl never.
#[global] Arguments f_round : simpl never.
#[global] Arguments f_to_int : simpl never.

(** ** Sums of non-negative terms

    Neither NaN nor negative: closed under conversion of a count, scaling by a
    positive constant and addition. *)
Definition f_nonneg (x : float64) : Prop :=
  match x with
  | S754_zero _ | S754_infinity false | S754_finite false _ _ => True
  | _ => False
  end.

Lemma f_nonneg_not_nan x : f_nonneg x → f_is_nan x = false.
Proof. by destruct x. Qed.

Lemma binary_round_aux_nonneg m e l : 0 ≤ m → f_nonneg (binary_round_aux 53 1024 false m e l).
Proof.
  intros Hm. unfold binary_round_aux.
  pose proof (shr_fexp_53 m e l Hm) as H1.
  destruct (shr_fexp 53 1024 m e l) as [mrs e']; simpl in H1.
  assert (0 ≤ round_nearest_even (shr_m mrs) (loc_of_shr_record mrs)) as H2
    by (unfold round_nearest_even; repeat case_match; lia).
  pose proof (shr_fexp_53 _ e' loc_Exact H2) as H3.
  destruct (shr_fexp 53 1024 _ e' loc_Exact) as [mrs2 e2]; simpl in H3.
  destruct (shr_m mrs2); [done| |lia].
  by destruct (e2 <=? 1024 - 53).
Qed.

Lemma binary_normalize_nonneg m e s : 0 ≤ m → f_nonneg (binary_normalize 53 1024 m e s).
Proof.
  intros Hm. destruct m; simpl; [done| |lia]. unfold binary_round.
  destruct (shl_align _ _ _). by apply binary_round_aux_nonneg.
Qed.

Lemma f_of_Z_nonneg n : 0 ≤ n → f_nonneg (f_of_Z n).
Proof. apply binary_normalize_nonneg. Qed.

(** The product with a positive finite constant. *)
Lemma f_mul_nonneg x m e : f_nonneg x → f_nonneg (f_mul x (S754_finite false m e)).
Proof.
  unfold f_mul, SFmul. destruct x as [s|[]| |[] m1 e1]; simpl; try done.
  intros _. by apply binary_round_aux_nonneg.
Qed.

Lemma f_add_nonneg x y : f_nonneg x → f_nonneg y → f_nonneg (f_add x y).
Proof.
  unfold f_add, SFadd.
  destruct x as [[]|[]| |[] m1 e1], y as [[]|[]| |[] m2 e2]; try done.
  intros _ _. apply binary_normalize_nonneg. simpl. lia.
Qed.
