(* ===== verification/GoFloatInt.v ===== *)
(** * Integers among the floats

    Integers below 2^53 are exact, and rounding does not carry a value that is below such
    an integer past it; [math.Floor] and [math.Ceil]. *)

From S2P Require Import Prelude GoFloat.

(** [math.Floor] and [math.Ceil] *)
Definition f_floor (x : float64) : float64 :=
  match x with
  | S754_finite s m e =>
      if 0 <=? e then x
      else binary_normalize 53 1024 (if s then - Z.pos m / 2 ^ (- e) else Z.pos m / 2 ^ (- e)) 0 s
  | _ => x
  end.
Definition f_ceil (x : float64) : float64 :=
  match x with
  | S754_finite s m e =>
      if 0 <=? e then x
      else binary_normalize 53 1024 (if s then - (Z.pos m / 2 ^ (- e)) else - (- Z.pos m / 2 ^ (- e))) 0 s
  | _ => x
  end.

Lemma digits2_le p : 2 ^ (Z.pos (digits2_pos p) - 1) ≤ Z.pos p.
Proof.
  rewrite digits2_pos_size. pose proof (Pos.size_le p) as H. apply Pos2Z.pos_le_pos in H.
  rewrite Pos2Z.inj_pow in H. change (Z.pos p~0) with (2 * Z.pos p) in H.
  replace (Z.pos (Pos.size p)) with (Z.pos (Pos.size p) - 1 + 1) in H by lia.
  rewrite Z.pow_add_r, Z.pow_1_r in H by lia. lia.
Qed.

(** No bits are shifted out when the mantissa fits at its exponent. *)
Lemma shr_fexp_fits m e :
  0 < m < 2 ^ 53 → -1074 ≤ e → shr_fexp 53 1024 m e loc_Exact = (shr_record_of_loc m loc_Exact, e).
Proof.
  intros Hm He. unfold shr_fexp. destruct m as [|p|p]; [lia| |lia]. cbn [Zdigits2].
  pose proof (digits2_le p) as Hd.
  assert (Z.pos (digits2_pos p) ≤ 53).
  { destruct (Z.le_gt_cases (Z.pos (digits2_pos p)) 53) as [|Hg]; [done|].
    assert (2 ^ 53 ≤ 2 ^ (Z.pos (digits2_pos p) - 1)) by (apply Z.pow_le_mono_r; lia). lia. }
  unfold fexp, emin. set (n := Z.max _ _ - e). assert (n ≤ 0) by (unfold n; lia).
  unfold shr. destruct n; [done|lia|done].
Qed.

Lemma round_fits p e :
  Z.pos p < 2 ^ 53 → -1074 ≤ e ≤ 971 → binary_round_aux 53 1024 false (Z.pos p) e loc_Exact = S754_finite false p e.
Proof.
  intros Hp He. unfold binary_round_aux. rewrite shr_fexp_fits by lia. cbn [shr_record_of_loc shr_m loc_of_shr_record round_nearest_even].
  rewrite shr_fexp_fits by lia. cbn [shr_record_of_loc shr_m]. by rewrite (proj2 (Z.leb_le e (1024 - 53))) by lia.
Qed.

(** ** Small integers are exact *)

Lemma iter_xO d p : Z.pos (Pos.iter xO p d) = Z.pos p * 2 ^ Z.pos d.
Proof.
  induction d as [|d IH] using Pos.peano_ind; [change (2 ^ 1) with 2; simpl Pos.iter; lia|].
  rewrite Pos.iter_succ, Pos2Z.inj_succ, Z.pow_succ_r by lia.
  change (Z.pos (Pos.iter xO p d)~0) with (2 * Z.pos (Pos.iter xO p d)). lia.
Qed.

Lemma digits_53 p : Z.pos p < 2 ^ 53 → Z.pos (digits2_pos p) ≤ 53.
Proof.
  intros Hp. pose proof (digits2_le p) as Hd. destruct (Z.le_gt_cases (Z.pos (digits2_pos p)) 53) as [|Hg]; [done|].
  assert (2 ^ 53 ≤ 2 ^ (Z.pos (digits2_pos p) - 1)) by (apply Z.pow_le_mono_r; lia). lia.
Qed.

Lemma f_of_Z_exact n :
  0 < n < 2 ^ 53 →
  ∃ m e, f_of_Z n = S754_finite false m e ∧ -52 ≤ e ≤ 0 ∧ Z.pos m = n * 2 ^ (- e) ∧ Z.pos m < 2 ^ 53.
Proof.
  intros Hn. destruct n as [|p|p]; [lia| |lia]. unfold f_of_Z. cbn [binary_normalize]. unfold binary_round, shl_align.
  pose proof (digits_53 p ltac:(lia)) as Hd. pose proof (digits2_gt p) as Hg.
  assert (fexp 53 1024 (Z.pos (digits2_pos p) + 0) - 0 = Z.pos (digits2_pos p) - 53) as -> by (unfold fexp, emin; lia).
  assert (fexp 53 1024 (Z.pos (digits2_pos p) + 0) = Z.pos (digits2_pos p) - 53) as -> by (unfold fexp, emin; lia).
  destruct (Z.pos (digits2_pos p) - 53) as [|d|d] eqn:E; [|lia|].
  - exists p, 0. rewrite round_fits by lia. split_and!; [done|lia..].
  - assert (Hm : Z.pos (Pos.iter xO p d) < 2 ^ 53).
    { rewrite iter_xO. replace 53 with (Z.pos (digits2_pos p) + Z.pos d) by lia. rewrite Z.pow_add_r by lia.
      apply Z.mul_lt_mono_pos_r; [apply Z.pow_pos_nonneg; lia|done]. }
    exists (Pos.iter xO p d), (Z.neg d). rewrite round_fits by lia. split_and!; [done|lia|lia|apply iter_xO|done].
Qed.

Lemma f_to_int_exact n : 0 ≤ n < 2 ^ 53 → f_to_int (f_of_Z n) = n.
Proof.
  intros Hn. destruct (decide (n = 0)) as [->|]; [done|]. destruct (f_of_Z_exact n) as (m & e & -> & He & Hm & Hb); [lia|].
  unfold f_to_int. assert (Ha : (if 0 <=? e then Z.pos m * 2 ^ e else Z.pos m / 2 ^ (- e)) = n).
  { destruct (0 <=? e) eqn:E; zbool; [assert (e = 0) as -> by lia; lia|]. rewrite Hm. apply Z.div_mul.
    assert (0 < 2 ^ (- e)) by (apply Z.pow_pos_nonneg; lia). lia. }
  rewrite Ha. rewrite (proj2 (Z.leb_le (- 2 ^ 63) n)), (proj2 (Z.ltb_lt n (2 ^ 63))) by lia. done.
Qed.

(** ** Rounding below an integer *)

(** A value that is zero or at most [K]. *)
Definition below (K : Z) (x : float64) : Prop :=
  match x with
  | S754_zero _ => True
  | S754_finite false m e => e ≤ 0 ∧ Z.pos m ≤ K * 2 ^ (- e)
  | _ => False
  end.

(** The second half of rounding: a mantissa of at most 2^53 keeps its value. *)
Lemma renormalize_below q e K :
  0 ≤ q ≤ 2 ^ 53 → -1074 ≤ e ≤ 0 → 0 < K < 2 ^ 53 → q ≤ K * 2 ^ (- e) →
  below K (let '(mrs, e') := shr_fexp 53 1024 q e loc_Exact in
           match shr_m mrs with
           | Z0 => S754_zero false
           | Z.pos m => if e' <=? 1024 - 53 then S754_finite false m e' else S754_infinity false
           | Z.neg _ => S754_nan
           end).
Proof.
  intros Hq He HK Hle. destruct (decide (q = 0)) as [->|Hq0].
  { unfold shr_fexp. cbn [Zdigits2]. assert (fexp 53 1024 (0 + e) - e ≤ 0) as Hn by (unfold fexp, emin; lia).
    unfold shr. by destruct (fexp 53 1024 (0 + e) - e); [|lia|]. }
  destruct (decide (q = 2 ^ 53)) as [->|Hq53].
  - assert (e ≠ 0) by (intros ->; rewrite Z.mul_1_r in Hle; lia).
    assert (Hs : shr_fexp 53 1024 (2 ^ 53) e loc_Exact = (Build_shr_record (2 ^ 52) false false, e + 1)).
    { unfold shr_fexp. change (Zdigits2 (2 ^ 53)) with 54.
      assert (fexp 53 1024 (54 + e) - e = 1) as -> by (unfold fexp, emin; lia). reflexivity. }
    rewrite Hs. cbn [shr_m]. change (2 ^ 52) with (Z.pos 4503599627370496).
    rewrite (proj2 (Z.leb_le (e + 1) (1024 - 53))) by lia. split; [lia|].
    replace (- e) with (- (e + 1) + 1) in Hle by lia. rewrite Z.pow_add_r, Z.pow_1_r in Hle by lia. lia.
  - destruct q as [|p|p]; [lia| |lia]. rewrite shr_fexp_fits by lia. cbn [shr_record_of_loc shr_m].
    rewrite (proj2 (Z.leb_le e (1024 - 53))) by lia. split; [lia|done].
Qed.

Lemma nearest_up m l : m ≤ round_nearest_even m l ≤ m + 1.
Proof. unfold round_nearest_even. destruct l as [|[]]; [lia|destruct (Z.even m); lia|lia|lia]. Qed.

(** A value strictly below an integer under 2^53 does not round past it. *)
Lemma round_below m e K :
  0 < m → -1074 ≤ e ≤ 0 → 0 < K < 2 ^ 53 → m < K * 2 ^ (- e) → below K (binary_round_aux 53 1024 false m e loc_Exact).
Proof.
  intros Hm He HK Hlt. unfold binary_round_aux. unfold shr_fexp at 1. destruct m as [|p|p]; [lia| |lia]. cbn [Zdigits2].
  pose proof (digits2_le p) as Hd. pose proof (digits2_gt p) as Hg.
  set (d := Z.pos (digits2_pos p)) in *. set (n := fexp 53 1024 (d + e) - e).
  assert (Hn : n = Z.max (d - 53) (- 1074 - e)) by (unfold n, fexp, emin; lia). clearbody n.
  assert (Hde : d + e ≤ 53).
  { destruct (Z.le_gt_cases (d + e) 53) as [|Hc]; [done|].
    assert (2 ^ (53 - e) ≤ 2 ^ (d - 1)) by (apply Z.pow_le_mono_r; lia).
    assert (K * 2 ^ (- e) < 2 ^ 53 * 2 ^ (- e)) by (apply Z.mul_lt_mono_pos_r; [apply Z.pow_pos_nonneg|]; lia).
    replace (53 - e) with (53 + - e) in * by lia. rewrite Z.pow_add_r in * by lia. lia. }
  unfold shr. destruct n as [|pn|pn].
  1,3: apply renormalize_below; try lia; cbn [shr_record_of_loc loc_of_shr_record shr_m round_nearest_even];
       assert (2 ^ d ≤ 2 ^ 53) by (apply Z.pow_le_mono_r; lia); lia.
  destruct (iter_shr_m pn (shr_record_of_loc (Z.pos p) loc_Exact)) as [Hpos Hdiv]; [done|].
  cbn [shr_record_of_loc shr_m] in Hdiv. pose proof (nearest_up (shr_m (iter_pos shr_1 pn (shr_record_of_loc (Z.pos p) loc_Exact)))
    (loc_of_shr_record (iter_pos shr_1 pn (shr_record_of_loc (Z.pos p) loc_Exact)))) as Hup.
  cbn [shr_record_of_loc] in *. rewrite Hdiv in Hup, Hpos.
  assert (Hp2 : 0 < 2 ^ Z.pos pn) by (apply Z.pow_pos_nonneg; lia).
  assert (Z.pos p / 2 ^ Z.pos pn < 2 ^ 53).
  { apply Z.div_lt_upper_bound; [done|]. rewrite <- Z.pow_add_r by lia. eapply Z.lt_le_trans; [exact Hg|]. apply Z.pow_le_mono_r; lia. }
  assert (Z.pos p / 2 ^ Z.pos pn < K * 2 ^ (- (e + Z.pos pn))).
  { apply Z.div_lt_upper_bound; [done|]. replace (2 ^ Z.pos pn * (K * 2 ^ (- (e + Z.pos pn)))) with (K * (2 ^ Z.pos pn * 2 ^ (- (e + Z.pos pn)))) by lia.
    rewrite <- Z.pow_add_r by lia. replace (Z.pos pn + - (e + Z.pos pn)) with (- e) by lia. done. }
  rewrite Hdiv. apply renormalize_below; lia.
Qed.

(** The integers around a value that is at most [K] are at most [K]. *)
Lemma below_floor_ceil K x :
  0 ≤ K < 2 ^ 53 → below K x →
  0 ≤ f_to_int (f_floor x) ≤ f_to_int (f_ceil x) ∧ f_to_int (f_ceil x) ≤ K.
Proof.
  intros HK Hx. destruct x as [[]|s| |[] m e]; try done; [unfold f_floor, f_ceil, f_to_int; lia..|]. destruct Hx as [He Hm].
  unfold f_floor, f_ceil. destruct (0 <=? e) eqn:E; zbool.
  - assert (e = 0) as -> by lia. rewrite Z.mul_1_r in Hm. unfold f_to_int. cbn [Z.leb Z.compare]. rewrite Z.mul_1_r.
    rewrite (proj2 (Z.leb_le (- 2 ^ 63) (Z.pos m))), (proj2 (Z.ltb_lt (Z.pos m) (2 ^ 63))) by lia. cbn [andb]. lia.
  - assert (0 < 2 ^ (- e)) by (apply Z.pow_pos_nonneg; lia).
    assert (Hc : - (- Z.pos m / 2 ^ (- e)) ≤ K).
    { assert (- K ≤ - Z.pos m / 2 ^ (- e)); [|lia]. apply Z.div_le_lower_bound; lia. }
    assert (Hf : 0 ≤ Z.pos m / 2 ^ (- e)) by (apply Z.div_pos; lia).
    assert (Hfc : Z.pos m / 2 ^ (- e) ≤ - (- Z.pos m / 2 ^ (- e))).
    { pose proof (Z.mul_div_le (Z.pos m) (2 ^ (- e))). pose proof (Z.mul_div_le (- Z.pos m) (2 ^ (- e))). nia. }
    fold (f_of_Z (Z.pos m / 2 ^ (- e))) (f_of_Z (- (- Z.pos m / 2 ^ (- e)))). rewrite !f_to_int_exact by lia. lia.
Qed.

(** A proper fraction of an integer is at most the integer. *)
Lemma fraction_below c k :
  0 < k < 2 ^ 53 → Z.pos c < 2 ^ 53 → below k (f_mul (S754_finite false c (-53)) (f_of_Z k)).
Proof.
  intros Hk Hc. destruct (f_of_Z_exact k Hk) as (m & e & -> & He & Hm & Hb). unfold f_mul. cbn [SFmul xorb].
  apply round_below; [lia|lia|done|]. replace (- (-53 + e)) with (- e + 53) by lia. rewrite Z.pow_add_r by lia.
  rewrite Z.mul_assoc, <- Hm, Pos2Z.inj_mul, Z.mul_comm. apply Z.mul_lt_mono_pos_l; lia.
Qed.
