(* ===== verification/GoParse.v ===== *)
(** * Numbers and durations as text (strconv, time)

    What the configuration uses of the Go standard library to read an environment
    variable: [strconv.Atoi], [strconv.ParseBool], [time.ParseDuration] and
    [strings.TrimRight], on byte strings. *)

From S2P Require Import Prelude Bytes GoStrings GoFloat.

Definition is_digit (c : byte) : bool := (48 <=? Z_of_byte c) && (Z_of_byte c <=? 57).

Definition digit (c : byte) : Z := Z_of_byte c - 48.

Lemma digit_range c : is_digit c = true → 0 ≤ digit c ≤ 9.
Proof. unfold is_digit, digit. rewrite andb_true_iff, !Z.leb_le. lia. Qed.

(** ** strconv.Atoi *)

Inductive num_error := ErrSyntax | ErrRange.

(** [ParseUint] in base 10: the first bad character or the first overflow ends the
    scan. *)
Fixpoint scan_uint (n : Z) (l : list byte) : num_error + Z :=
  match l with
  | [] => inr n
  | c :: l =>
      if negb (is_digit c) then inl ErrSyntax
      else if 2 ^ 64 <=? 10 * n + digit c then inl ErrRange
      else scan_uint (10 * n + digit c) l
  end.

(** The value, which is meaningful beside a range error too, and the error. *)
Definition Atoi (l : list byte) : Z * option num_error :=
  let '(neg, ds) :=
    match l with
    | c :: r => if decide (c = x2d) then (true, r) else if decide (c = x2b) then (false, r) else (false, l)
    | [] => (false, l)
    end in
  match ds with
  | [] => (0, Some ErrSyntax)
  | _ :: _ =>
      match scan_uint 0 ds with
      | inl ErrSyntax => (0, Some ErrSyntax)
      | inl ErrRange => (if neg then - 2 ^ 63 else 2 ^ 63 - 1, Some ErrRange)
      | inr n =>
          if neg then (if 2 ^ 63 <? n then (- 2 ^ 63, Some ErrRange) else (- n, None))
          else (if 2 ^ 63 <=? n then (2 ^ 63 - 1, Some ErrRange) else (n, None))
      end
  end.

Lemma scan_uint_range l n m : 0 ≤ n < 2 ^ 64 → scan_uint n l = inr m → 0 ≤ m < 2 ^ 64.
Proof.
  revert n. induction l as [|c l IH]; intros n Hn; simpl; [by intros [= <-]|].
  destruct (is_digit c) eqn:Ed; simpl; [|done]. apply digit_range in Ed.
  destruct (Z.leb_spec (2 ^ 64) (10 * n + digit c)); [done|]. apply IH. lia.
Qed.

Lemma Atoi_range l : - 2 ^ 63 ≤ (Atoi l).1 < 2 ^ 63.
Proof.
  unfold Atoi. destruct (match l with [] => _ | _ => _ end) as [neg ds]. destruct ds as [|c ds]; [simpl; lia|].
  destruct (scan_uint 0 (c :: ds)) as [[]|n] eqn:E; [simpl; lia|destruct neg; simpl; lia|].
  apply scan_uint_range in E; [|lia].
  destruct neg; [destruct (Z.ltb_spec (2 ^ 63) n)|destruct (Z.leb_spec (2 ^ 63) n)]; simpl; lia.
Qed.

(** ** strconv.ParseBool *)

Definition true_words : list string := ["1"; "t"; "T"; "true"; "TRUE"; "True"].
Definition false_words : list string := ["0"; "f"; "F"; "false"; "FALSE"; "False"].

Definition ParseBool (s : string) : option bool :=
  if decide (s ∈ true_words) then Some true
  else if decide (s ∈ false_words) then Some false
  else None.

(** ** strings.TrimRight with a cut set of one character *)

Fixpoint drop_while (c : byte) (l : list byte) : list byte :=
  match l with d :: r => if decide (d = c) then drop_while c r else l | [] => [] end.

Definition TrimRight (c : byte) (l : list byte) : list byte := rev (drop_while c (rev l)).

(** ** time.ParseDuration *)

(** [leadingInt]: [None] on overflow. *)
Fixpoint leadingInt (x : Z) (l : list byte) : option (Z * list byte) :=
  match l with
  | c :: r =>
      if is_digit c then
        if 2 ^ 63 / 10 <? x then None
        else if 2 ^ 63 <? 10 * x + digit c then None
        else leadingInt (10 * x + digit c) r
      else Some (x, l)
  | [] => Some (x, [])
  end.

(** [leadingFraction]: the digits beyond the precision are skipped. *)
Fixpoint leadingFraction (x : Z) (scale : float64) (over : bool) (l : list byte) : Z * float64 * list byte :=
  match l with
  | c :: r =>
      if is_digit c then
        if over then leadingFraction x scale true r
        else if (2 ^ 63 - 1) / 10 <? x then leadingFraction x scale true r
        else if 2 ^ 63 <? 10 * x + digit c then leadingFraction x scale true r
        else leadingFraction (10 * x + digit c) (f_mul scale (f_of_Z 10)) false r
      else (x, scale, l)
  | [] => (x, scale, [])
  end.

(** The unit: everything up to the next digit or dot. *)
Fixpoint unit_of (l : list byte) : list byte * list byte :=
  match l with
  | c :: r => if is_digit c || bool_decide (c = x2e) then ([], l) else let '(u, r') := unit_of r in (c :: u, r')
  | [] => ([], [])
  end.

(** The unit map; the micro sign has two spellings. *)
Definition unitMap (u : list byte) : option Z :=
  if decide (u = bytes_of "ns") then Some 1
  else if decide (u = bytes_of "us" ∨ u = [xc2; xb5; x73] ∨ u = [xce; xbc; x73]) then Some 1000
  else if decide (u = bytes_of "ms") then Some millisecond
  else if decide (u = bytes_of "s") then Some second
  else if decide (u = bytes_of "m") then Some (60 * second)
  else if decide (u = bytes_of "h") then Some (3600 * second)
  else None.

(** One number with its unit, in nanoseconds, and the rest of the text. *)
Definition parse_component (l : list byte) : option (Z * list byte) :=
  match l with
  | c :: _ =>
      if negb (bool_decide (c = x2e) || is_digit c) then None
      else
        '(v, l1) ← leadingInt 0 l;
        let pre := negb (length l1 =? length l)%nat in
        let '(f, scale, post, l2) :=
          match l1 with
          | d :: r => if decide (d = x2e)
                      then let '(f, scale, l2) := leadingFraction 0 (f_of_Z 1) false r in
                           (f, scale, negb (length l2 =? length r)%nat, l2)
                      else (0, f_of_Z 1, false, l1)
          | [] => (0, f_of_Z 1, false, l1)
          end in
        if negb (pre || post) then None
        else
          let '(u, l3) := unit_of l2 in
          unit ← unitMap u;
          if 2 ^ 63 / unit <? v then None
          else
            let v := v * unit in
            let v := if 0 <? f then v + f_to_int (f_mul (f_of_Z f) (f_div (f_of_Z unit) scale)) else v in
            if 2 ^ 63 <? v then None else Some (v, l3)
  | [] => None
  end.

(** The loop; every turn consumes characters, so as many turns as characters are
    enough. *)
Fixpoint parse_components (fuel : nat) (d : Z) (l : list byte) : option Z :=
  match l, fuel with
  | [], _ => Some d
  | _, O => None
  | _, S fuel =>
      '(v, l') ← parse_component l;
      if 2 ^ 63 <? d + v then None else parse_components fuel (d + v) l'
  end.

Definition ParseDuration (l : list byte) : option Z :=
  let '(neg, s) :=
    match l with
    | c :: r => if decide (c = x2d) then (true, r) else if decide (c = x2b) then (false, r) else (false, l)
    | [] => (false, l)
    end in
  if decide (s = bytes_of "0") then Some 0
  else if decide (s = []) then None
  else
    d ← parse_components (length s) 0 s;
    if neg : bool then Some (- d) else if 2 ^ 63 - 1 <? d then None else Some d.

(** *** Every turn of the loop consumes something *)

Lemma leadingInt_length x l v r : leadingInt x l = Some (v, r) → (length r ≤ length l)%nat.
Proof.
  revert x. induction l as [|c l IH]; intros x; simpl; [by intros [= _ <-]|].
  destruct (is_digit c); [|by intros [= _ <-]].
  destruct (_ <? x); [done|]. destruct (_ <? _); [done|]. intros H%IH. lia.
Qed.

Lemma leadingFraction_length x sc o l : (length (leadingFraction x sc o l).2 ≤ length l)%nat.
Proof.
  revert x sc o. induction l as [|c l IH]; intros x sc o; simpl; [done|].
  destruct (is_digit c); [|done].
  destruct o; [|destruct (_ <? x); [|destruct (_ <? _)]]; etrans; [apply IH|lia|apply IH|lia|apply IH|lia|apply IH|lia].
Qed.

Lemma unit_of_length l : length l = (length (unit_of l).1 + length (unit_of l).2)%nat.
Proof.
  induction l as [|c l IH]; simpl; [done|]. destruct (is_digit c || _); [done|].
  destruct (unit_of l) as [u r]; simpl in *. lia.
Qed.

Lemma parse_component_length l v r : parse_component l = Some (v, r) → (length r < length l)%nat.
Proof.
  unfold parse_component. destruct l as [|c l]; [done|]. destruct (negb _); [done|].
  destruct (leadingInt 0 (c :: l)) as [[v0 l1]|] eqn:E1; [|done]. simpl.
  pose proof (leadingInt_length _ _ _ _ E1) as H1. simpl in H1.
  set (w := match l1 with [] => _ | _ => _ end).
  assert (Hw : (length w.2 ≤ length l1)%nat).
  { unfold w. destruct l1 as [|d r1]; [done|]. case_decide; [|done].
    pose proof (leadingFraction_length 0 (f_of_Z 1) false r1) as H2.
    destruct (leadingFraction 0 (f_of_Z 1) false r1) as [[f sc] l2]. simpl in *. lia. }
  destruct w as [[[f sc] post] l2]. simpl in Hw.
  destruct (negb (_ || post)); [done|]. pose proof (unit_of_length l2) as H3.
  destruct (unit_of l2) as [u l3]. simpl in H3.
  destruct (unitMap u) as [un|] eqn:Eu; [|done]. simpl.
  assert (u ≠ []) by (intros ->; vm_compute in Eu; done).
  destruct (_ <? v0); [done|]. destruct (2 ^ 63 <? _); [done|]. intros [= _ <-].
  destruct u; [done|]. simpl in H3. lia.
Qed.

(** More fuel than characters changes nothing. *)
Lemma parse_components_fuel n d l :
  (length l ≤ n)%nat → parse_components n d l = parse_components (length l) d l.
Proof.
  intros Hn. assert (H : ∀ m n d l, (length l ≤ m ≤ n)%nat → parse_components n d l = parse_components m d l).
  { clear. induction m as [|m IH]; intros n d l Hl.
    - destruct l; [by destruct n|simpl in Hl; lia].
    - destruct n as [|n]; [lia|]. destruct l as [|c l]; [done|]. cbn [parse_components].
      destruct (parse_component (c :: l)) as [[v l']|] eqn:E; [|done]. simpl.
      apply parse_component_length in E. simpl in E, Hl. destruct (_ <? d + v); [done|]. apply IH. lia. }
  by apply H.
Qed.

(** *** Concrete texts *)

Example durations :
  ParseDuration (bytes_of "1h30m") = Some (5400 * second) ∧ ParseDuration (bytes_of "1.5s") = Some 1500000000 ∧
  ParseDuration (bytes_of "-300ms") = Some (- 300 * millisecond) ∧ ParseDuration (bytes_of "0") = Some 0 ∧
  ParseDuration (bytes_of ".25m") = Some (15 * second) ∧ ParseDuration (bytes_of "5") = None ∧
  ParseDuration (bytes_of "") = None ∧ ParseDuration (bytes_of "9223372037s") = None ∧
  ParseDuration (bytes_of "9223372036s") = Some (9223372036 * second) ∧ ParseDuration (bytes_of "1s2") = None.
Proof. vm_compute. done. Qed.

Example integers :
  Atoi (bytes_of "+42") = (42, None) ∧ Atoi (bytes_of "-9223372036854775808") = (- 2 ^ 63, None) ∧
  Atoi (bytes_of "9223372036854775808") = (2 ^ 63 - 1, Some ErrRange) ∧ Atoi (bytes_of "1_000") = (0, Some ErrSyntax) ∧
  Atoi (bytes_of "-") = (0, Some ErrSyntax) ∧ Atoi (bytes_of "99999999999999999999x") = (2 ^ 63 - 1, Some ErrRange).
Proof. vm_compute. done. Qed.
