(* ===== verification/GoFlag.v ===== *)
(** * Command lines as package flag reads them

    The parser of [flag.FlagSet]: one or two dashes, a value after an equals sign or in
    the next argument, boolean flags without a value, the end of the flags at the first
    argument that is not one.  A flag is its name with what setting it does to the
    program's variables.  Integers are read by [strconv.ParseInt] in base 0. *)

From S2P Require Import Prelude Bytes GoStrings GoParse.

(** ** Integers in any base *)

(** The value of a digit, of any base up to 36. *)
Definition digit_value (c : byte) : option Z :=
  let n := Z_of_byte c in
  if (48 <=? n) && (n <=? 57) then Some (n - 48)
  else if (97 <=? n) && (n <=? 122) then Some (n - 87)
  else if (65 <=? n) && (n <=? 90) then Some (n - 55)
  else None.

(** The loop of [ParseUint] in base 0: underscores are skipped. *)
Fixpoint uint_digits (base acc : Z) (l : list byte) : option Z :=
  match l with
  | [] => Some acc
  | c :: l =>
      if Byte.eqb c x5f then uint_digits base acc l
      else match digit_value c with
           | Some d =>
               if base <=? d then None
               else let n := acc * base + d in if 2 ^ 64 <=? n then None else uint_digits base n l
           | None => None
           end
  end.

(** A letter in lower case, for the prefix. *)
Definition prefix_base (c : byte) : option Z :=
  match c with
  | x62 | x42 => Some 2 | x6f | x4f => Some 8 | x78 | x58 => Some 16 | _ => None
  end.

(** [underscoreOK] after the sign and the prefix: [last] is whether a digit (or the
    prefix), an underscore or something else came before. *)
Inductive before := BDigit | BUnderscore | BOther.
Fixpoint underscores_ok (hex : bool) (b : before) (l : list byte) : bool :=
  match l with
  | [] => match b with BUnderscore => false | _ => true end
  | c :: l =>
      let n := Z_of_byte c in
      if (48 <=? n) && (n <=? 57) || hex && ((97 <=? n) && (n <=? 102) || (65 <=? n) && (n <=? 70))
      then underscores_ok hex BDigit l
      else if Byte.eqb c x5f then match b with BDigit => underscores_ok hex BUnderscore l | _ => false end
      else match b with BUnderscore => false | _ => underscores_ok hex BOther l end
  end.

(** [ParseUint(s, 0, 64)] *)
Definition ParseUint0 (l : list byte) : option Z :=
  match l with
  | [] => None
  | x30 :: rest =>
      match rest with
      | p :: d :: r =>
          match prefix_base p with
          | Some b => if underscores_ok (b =? 16) BDigit (d :: r) then uint_digits b 0 (d :: r) else None
          | None => if underscores_ok false BOther l then uint_digits 8 0 rest else None
          end
      | _ => if underscores_ok false BOther l then uint_digits 8 0 rest else None
      end
  | _ => if underscores_ok false BOther l then uint_digits 10 0 l else None
  end.

(** [ParseInt(s, 0, 64)] *)
Definition ParseInt0 (s : string) : option Z :=
  let '(neg, l) :=
    match bytes_of s with x2b :: l => (false, l) | x2d :: l => (true, l) | l => (false, l) end in
  n ← ParseUint0 l;
  if neg : bool then if 2 ^ 63 <? n then None else Some (- n)
  else if 2 ^ 63 <=? n then None else Some n.

(** ** Flags *)

(** What setting a flag to a text does, [None] when the text is not a value of its
    type; a boolean flag may stand alone. *)
Record flag (C : Type) := mkFlag { f_name : string; f_bool : bool; f_set : string → C → option C }.
Arguments mkFlag {C} _ _ _.
Arguments f_name {C} _.
Arguments f_bool {C} _.
Arguments f_set {C} _ _ _.

Inductive flag_error :=
| BadSyntax (arg : string)
| ErrHelp
| NotDefined (name : string)
| InvalidValue (name value : string)
| NeedsArgument (name : string).

#[export] Instance flag_error_eq_dec : EqDecision flag_error.
Proof. solve_decision. Defined.

(** The name of a flag argument and the value after the first equals sign that is not
    at the front. *)
Fixpoint cut_equals (l : list byte) : list byte * option (list byte) :=
  match l with
  | [] => ([], None)
  | c :: l => if Byte.eqb c x3d then ([], Some l) else let '(n, v) := cut_equals l in (c :: n, v)
  end.
Definition split_name (name : list byte) : list byte * option (list byte) :=
  match name with
  | [] => ([], None)
  | c :: l => let '(n, v) := cut_equals l in (c :: n, v)
  end.

(** What an argument is: not a flag, the end of the flags, a syntax error, or a flag. *)
Inductive arg_kind := NotAFlag | Terminator | Bad | IsFlag (name : string) (value : option string).
Definition dash_byte (c : byte) : bool := Byte.eqb c x2d.
Definition classify_name (name : list byte) : arg_kind :=
  match name with
  | [] => Bad
  | c :: _ =>
      if dash_byte c || Byte.eqb c x3d then Bad
      else let '(n, v) := split_name name in IsFlag (string_of n) (string_of <$> v)
  end.
Definition classify (s : string) : arg_kind :=
  match bytes_of s with
  | c :: d :: rest =>
      if negb (dash_byte c) then NotAFlag
      else if negb (dash_byte d) then classify_name (d :: rest)
      else match rest with [] => Terminator | _ => classify_name rest end
  | _ => NotAFlag
  end.

Section parse.
Context {C : Type} (flags : list (flag C)).

Definition lookup_flag (name : string) : option (flag C) := List.find (λ f, String.eqb (f_name f) name) flags.

(** Setting, with the error of a bad value. *)
Definition set_flag (f : flag C) (v : string) (c : C) : flag_error + C :=
  match f_set f v c with Some c => inr c | None => inl (InvalidValue (f_name f) v) end.

(** [FlagSet.Parse]: the variables after the flags, and the arguments left over. *)
Fixpoint parse (args : list string) (c : C) : flag_error + (C * list string) :=
  match args with
  | [] => inr (c, [])
  | s :: rest =>
      match classify s with
      | NotAFlag => inr (c, args)
      | Terminator => inr (c, rest)
      | Bad => inl (BadSyntax s)
      | IsFlag name value =>
          match lookup_flag name with
          | None => if bool_decide (name = "help" ∨ name = "h") then inl ErrHelp else inl (NotDefined name)
          | Some f =>
              if f_bool f then
                match set_flag f (default "true" value) c with inl e => inl e | inr c => parse rest c end
              else match value with
              | Some v => match set_flag f v c with inl e => inl e | inr c => parse rest c end
              | None =>
                  match rest with
                  | [] => inl (NeedsArgument name)
                  | v :: rest => match set_flag f v c with inl e => inl e | inr c => parse rest c end
                  end
              end
          end
      end
  end.

(** ** Reading back what was written *)

(** One assignment on the command line, in the four spellings the parser knows. *)
Inductive spelling := Equals (dashes : bool) | Spaced (dashes : bool).
Definition dash (two : bool) : string := if two then "--" else "-".
Definition spell (sp : spelling) (name value : string) : list string :=
  match sp with
  | Equals two => [(dash two +:+ name +:+ "=" +:+ value)%string]
  | Spaced two => [(dash two +:+ name)%string; value]
  end.

(** A name that can be spelled: not empty, no dash in front, no equals sign. *)
Definition good_name (name : string) : Prop :=
  match bytes_of name with
  | [] => False
  | c :: l => dash_byte c = false ∧ x3d ∉ c :: l
  end.

(** The assignments as a program would make them. *)
Fixpoint assign (l : list (spelling * string * string)) (c : C) : option C :=
  match l with
  | [] => Some c
  | (sp, name, value) :: l =>
      f ← lookup_flag name;
      c ← f_set f value c;
      assign l c
  end.

(** A boolean flag takes its value only after an equals sign. *)
Definition spellable (a : spelling * string * string) : Prop :=
  let '(sp, name, _) := a in
  good_name name
  ∧ match sp with Spaced _ => ∀ f, lookup_flag name = Some f → f_bool f = false | Equals _ => True end.

(** What an equals sign introduces. *)
Definition tail_value (tl : list byte) : option (list byte) := match tl with [] => None | _ :: v => Some v end.

Lemma cut_equals_app l v : x3d ∉ l → cut_equals (l ++ x3d :: v) = (l, Some v).
Proof.
  induction l as [|c l IH]; [done|]. intros Hn. simpl. destruct (Byte.eqb c x3d) eqn:E.
  - apply Byte.byte_dec_bl in E as ->. exfalso. apply Hn, list_elem_of_here.
  - rewrite IH; [done|]. intros Hc. by apply Hn, list_elem_of_further.
Qed.

Lemma cut_equals_none l : x3d ∉ l → cut_equals l = (l, None).
Proof.
  induction l as [|c l IH]; [done|]. intros Hn. simpl. destruct (Byte.eqb c x3d) eqn:E.
  - apply Byte.byte_dec_bl in E as ->. exfalso. apply Hn, list_elem_of_here.
  - rewrite IH; [done|]. intros Hc. by apply Hn, list_elem_of_further.
Qed.

(** A good name after its dashes, with what follows. *)
Lemma classify_spelled two name tl :
  good_name name → (tl = [] ∨ ∃ v, tl = x3d :: v) →
  classify (string_of (bytes_of (dash two) ++ bytes_of name ++ tl)) = IsFlag name (string_of <$> tail_value tl).
Proof.
  unfold good_name, classify. rewrite bytes_of_string_of. destruct (bytes_of name) as [|c l] eqn:E; [done|].
  intros [Hd Hn] Htl.
  assert (Byte.eqb c x3d = false) as Hc.
  { destruct (Byte.eqb c x3d) eqn:Ec; [|done]. apply Byte.byte_dec_bl in Ec as ->. exfalso. apply Hn, list_elem_of_here. }
  assert (classify_name ((c :: l) ++ tl) = IsFlag name (string_of <$> tail_value tl)) as Hcl.
  { unfold classify_name. cbn [app]. rewrite Hd, Hc. cbn [orb]. unfold split_name.
    assert (x3d ∉ l) as Hl by (intros H; by apply Hn, list_elem_of_further).
    assert (string_of (c :: l) = name) as Hname by (by rewrite <- E, string_of_bytes_of).
    destruct Htl as [->|[v ->]]; [rewrite app_nil_r, cut_equals_none by done|rewrite cut_equals_app by done]; by rewrite Hname. }
  destruct two; [exact Hcl|]. rewrite <- Hcl. cbn [app dash]. change (bytes_of "-") with [x2d]. cbn [app].
  replace (dash_byte x2d) with true by done. cbn [negb]. by rewrite Hd.
Qed.

Lemma spell_equals two name value :
  good_name name → classify (dash two +:+ name +:+ "=" +:+ value) = IsFlag name (Some value).
Proof.
  intros Hn. rewrite <- (string_of_bytes_of (dash two +:+ _)), !bytes_of_app.
  change (bytes_of "=" ++ bytes_of value) with (x3d :: bytes_of value).
  rewrite (classify_spelled two name (x3d :: bytes_of value) Hn) by eauto. cbn. by rewrite string_of_bytes_of.
Qed.

Lemma spell_spaced two name : good_name name → classify (dash two +:+ name) = IsFlag name None.
Proof.
  intros Hn. rewrite <- (string_of_bytes_of (dash two +:+ _)), bytes_of_app.
  rewrite <- (app_nil_r (bytes_of name)). by rewrite (classify_spelled two name [] Hn) by eauto.
Qed.

(** A command line reads back as the assignments it was written for, in order and in
    whatever spelling, before an optional end of the flags. *)
Theorem flags_read_back l c c' rest :
  Forall spellable l → assign l c = Some c' →
  let line := l ≫= λ '(sp, n, v), spell sp n v in
  parse line c = inr (c', []) ∧ parse (line ++ "--" :: rest) c = inr (c', rest).
Proof.
  intros Hl E line. assert (∀ tl k, (∀ c, parse tl c = inr (c, k)) → parse (line ++ tl) c = inr (c', k)) as H.
  { intros tl k Htl. unfold line. revert c E. clear line. induction Hl as [|[[sp n] v] l [Hn Hsp] Hl IH]; intros c E.
    - injection E as <-. apply Htl.
    - rewrite bind_cons. cbn [assign] in E. destruct (lookup_flag n) as [f|] eqn:Ef; [|done]. cbn in E.
      destruct (f_set f v c) as [c1|] eqn:Es; [|done]. cbn in E.
      destruct sp as [two|two]; cbn [spell app].
      + cbn [parse]. rewrite spell_equals, Ef by done. unfold set_flag. cbn [default from_option id]. rewrite Es.
        destruct (f_bool f); by apply IH.
      + cbn [parse]. rewrite spell_spaced, Ef by done. rewrite (Hsp f) by done. unfold set_flag. rewrite Es. by apply IH. }
  split; [|by apply H]. rewrite <- (app_nil_r line). by apply H.
Qed.
End parse.
