(* ===== verification/QualityModel.v ===== *)
(** * The QoE rules (internal/quality: status, thresholds, sample, score, analyzer)

    From one pair of browser samples to a verdict: statuses and their order,
    the thresholds of [DefaultConfig], the interval rates of [derive], the
    penalty scoring, and the rule evaluation shared by the three analyzers.
    Numbers are binary64 ([GoFloat]), optional metrics are [option], the
    metrics object of an analysis is a map from metric name to value. *)

From S2P Require Import Prelude.
From S2P Require Import GoFloat.

(** ** Statuses *)

(** src/internal/quality/scoring_status.go:5-12 [Status] *)
Inductive Status :=
| Unknown
| Good
| Warning
| Poor.

(** src/internal/quality/scoring_status.go:45-54 [Problem codes] *)
Inductive Problem :=
| ProblemHighPacketLoss
| ProblemHighJitter
| ProblemHighRTT
| ProblemLowBitrate
| ProblemLowFPS
| ProblemHighFrameDrop
| ProblemConnectionUnstable
| ProblemTrackDisabled.

#[export] Instance Status_eq_dec : EqDecision Status.
Proof. solve_decision. Defined.

#[export] Instance Problem_eq_dec : EqDecision Problem.
Proof. solve_decision. Defined.

(** src/internal/quality/scoring_status.go:14-27 [rank] *)
Definition rank (s : Status) : Z :=
  match s with
  | Good => 0
  | Warning => 1
  | Poor => 2
  | Unknown => -1
  end.

(** src/internal/quality/scoring_status.go:29-42 [worst] *)
Definition worst (a b : Status) : Status :=
  if rank a <? 0 then b
  else if rank b <? 0 then a
  else if rank a >=? rank b then a
  else b.

(** ** Media kinds, directions and samples *)

(** src/internal/quality/sample.go:6-11 [Direction]  The empty direction is the
    one the signaling bridge gives to connection samples. *)
Inductive Direction :=
| Outbound
| Inbound
| NoDirection.

(** src/internal/quality/sample.go:15-21 [Kind] *)
Inductive Kind :=
| Audio
| Video
| Connection.

(** src/internal/quality/sample.go:26-31 [Source] *)
Inductive Source :=
| SourceBrowser
| SourceServer.

#[export] Instance Direction_eq_dec : EqDecision Direction.
Proof. solve_decision. Defined.

#[export] Instance Kind_eq_dec : EqDecision Kind.
Proof. solve_decision. Defined.

(** src/internal/quality/sample.go:33-40 [StreamKey] *)
Record StreamKey := mkKey {
  Participant : string;
  KDirection : Direction;
  KKind : Kind;
  TrackID : string
}.

#[export] Instance StreamKey_eq_dec : EqDecision StreamKey.
Proof. solve_decision. Defined.

#[export] Instance Direction_countable : Countable Direction.
Proof.
  refine (inj_countable'
    (λ d, match d with Outbound => 0 | Inbound => 1 | NoDirection => 2 end)
    (λ n, if n =? 0 then Outbound else if n =? 1 then Inbound else NoDirection) _).
  by intros [].
Defined.

#[export] Instance Kind_countable : Countable Kind.
Proof.
  refine (inj_countable'
    (λ k, match k with Audio => 0 | Video => 1 | Connection => 2 end)
    (λ n, if n =? 0 then Audio else if n =? 1 then Video else Connection) _).
  by intros [].
Defined.

#[export] Instance StreamKey_countable : Countable StreamKey.
Proof.
  refine (inj_countable'
    (λ k, (Participant k, KDirection k, KKind k, TrackID k))
    (λ '(p, d, k, t), mkKey p d k t) _).
  by intros [].
Defined.

(** src/internal/quality/sample.go:42-70 [Sample] *)
Record Sample := mkSample {
  SKey : StreamKey;
  SSource : Source;
  AtMillis : Z;
  PacketsSent : option float64;
  PacketsReceived : option float64;
  PacketsLost : option float64;
  BytesSent : option float64;
  BytesReceived : option float64;
  FramesDecoded : option float64;
  FramesDropped : option float64;
  SJitterMs : option float64;
  SRTTMs : option float64;
  SFPS : option float64;
  SWidth : option float64;
  SHeight : option float64;
  SEnabled : option bool;
  SConnState : string;
  SICEState : string
}.

(** src/internal/quality/sample.go:72-90 [Derived] *)
Record Derived := mkDerived {
  HasData : bool;
  Enabled : bool;
  DtSeconds : float64;
  LossPct : option float64;
  BitrateBps : option float64;
  JitterMs : option float64;
  RTTMs : option float64;
  FPS : option float64;
  FrameDropPct : option float64;
  Width : option float64;
  Height : option float64;
  ConnState : string;
  ICEState : string
}.

Definition f_zero : float64 := S754_zero false.

(** src/internal/quality/sample.go:165-175 [deltaNonNeg] *)
Definition deltaNonNeg (prev cur : option float64) : option float64 :=
  match prev, cur with
  | Some pv, Some cv => if f_lt cv pv then None else Some (f_sub cv pv)
  | _, _ => None
  end.

(** src/internal/quality/sample.go:137-146 [derive: ratio]  The two percentages
    of [derive]: [part / (part + rest) * 100], 0 when nothing was counted, nil
    unless both deltas exist. *)
Definition share_pct (part rest : option float64) : option float64 :=
  match part, rest with
  | Some p, Some r =>
      let total := f_add p r in
      if f_lt f_zero total then Some (f_mul (f_div p total) (f_of_Z 100)) else Some f_zero
  | _, _ => None
  end.

(** src/internal/quality/sample.go:101-163 [derive] *)
Definition derive (prev : option Sample) (cur : Sample) : Derived :=
  let enabled := match SEnabled cur with None => true | Some b => b end in
  let '(dt, bitrate, loss, drop) :=
    match prev with
    | Some p =>
        if AtMillis p <? AtMillis cur then
          let dt := f_div (f_of_Z (wrap64 (AtMillis cur - AtMillis p))) (f_of_Z 1000) in
          let rate s := f_div (f_mul s (f_of_Z 8)) dt in
          let bitrate :=
            match deltaNonNeg (BytesReceived p) (BytesReceived cur) with
            | Some s => Some (rate s)
            | None => rate <$> deltaNonNeg (BytesSent p) (BytesSent cur)
            end in
          let loss := share_pct (deltaNonNeg (PacketsLost p) (PacketsLost cur))
                                (deltaNonNeg (PacketsReceived p) (PacketsReceived cur)) in
          let drop := share_pct (deltaNonNeg (FramesDropped p) (FramesDropped cur))
                                (deltaNonNeg (FramesDecoded p) (FramesDecoded cur)) in
          (dt, bitrate, loss, drop)
        else (f_zero, None, None, None)
    | None => (f_zero, None, None, None)
    end in
  let is_some {A} (o : option A) := match o with Some _ => true | None => false end in
  {| HasData := is_some loss || is_some bitrate || is_some (SJitterMs cur)
                || is_some (SRTTMs cur) || is_some (SFPS cur)
                || negb (String.eqb (SConnState cur) "");
     Enabled := enabled; DtSeconds := dt;
     LossPct := loss; BitrateBps := bitrate;
     JitterMs := SJitterMs cur; RTTMs := SRTTMs cur; FPS := SFPS cur;
     FrameDropPct := drop;
     Width := SWidth cur; Height := SHeight cur;
     ConnState := SConnState cur; ICEState := SICEState cur |}.

(** ** Configuration *)

(** src/internal/quality/scoring_thresholds.go:48-60 [MediaThresholds] *)
Record MediaThresholds := mkThr {
  LossWarn : float64; LossPoor : float64;
  JitterWarn : float64; JitterPoor : float64;
  RTTWarn : float64; RTTPoor : float64;
  BitrateWarn : float64; BitratePoor : float64;
  FPSWarn : float64; FPSPoor : float64;
  FrameDropWarn : float64; FrameDropPoor : float64
}.

(** src/internal/quality/scoring_thresholds.go:18-46 [Config] *)
Record Config := mkConfig {
  SamplingInterval : Z;
  WindowSamples : Z;
  HistorySize : Z;
  DegradeSamples : Z;
  RecoverSamples : Z;
  GoodScore : Z;
  WarningScore : Z;
  CAudio : MediaThresholds;
  CVideo : MediaThresholds;
  CConnection : MediaThresholds
}.

(** src/internal/quality/scoring_thresholds.go:62-93 [DefaultConfig] *)
Definition DefaultConfig : Config :=
  let z := f_of_Z in
  {| SamplingInterval := second;
     WindowSamples := 5; HistorySize := 60;
     DegradeSamples := 3; RecoverSamples := 5;
     GoodScore := 80; WarningScore := 55;
     CAudio := mkThr (z 2) (z 5) (z 30) (z 60) (z 200) (z 400) (z 16000) (z 8000)
                     (z 0) (z 0) (z 0) (z 0);
     CVideo := mkThr (z 2) (z 5) (z 40) (z 80) (z 250) (z 450) (z 150000) (z 60000)
                     (z 15) (z 8) (z 5) (z 15);
     CConnection := mkThr (z 3) (z 7) (z 40) (z 80) (z 200) (z 400) (z 0) (z 0)
                          (z 0) (z 0) (z 0) (z 0) |}.

(** src/internal/quality/scoring_thresholds.go:95-104 [thresholds] *)
Definition thresholds (c : Config) (k : Kind) : MediaThresholds :=
  match k with
  | Audio => CAudio c
  | Video => CVideo c
  | Connection => CConnection c
  end.

(** ** Scoring *)

(** src/internal/quality/scoring_score.go:17-24 [penalty maxima] *)
Definition penLoss : Z := 45.

Definition penJitter : Z := 25.

Definition penRTT : Z := 25.

Definition penBitrate : Z := 30.

Definition penFPS : Z := 30.

Definition penFrameDrop : Z := 25.

(** src/internal/quality/scoring_score.go:26-36 [band] *)
Definition band (v warn poor : float64) : Z :=
  if f_le poor v then 2 else if f_le warn v then 1 else 0.

(** src/internal/quality/scoring_score.go:38-48 [bandLow] *)
Definition bandLow (v warn poor : float64) : Z :=
  if f_le v poor then 2 else if f_le v warn then 1 else 0.

(** src/internal/quality/scoring_score.go:50-62 [penalty] *)
Definition penalty (v warn poor max : float64) : float64 :=
  if f_le warn f_zero && f_le poor f_zero then f_zero
  else if f_le v warn then f_zero
  else if f_le poor v then max
  else f_div (f_mul max (f_sub v warn)) (f_sub poor warn).

(** src/internal/quality/scoring_score.go:64-76 [penaltyLow] *)
Definition penaltyLow (v warn poor max : float64) : float64 :=
  if f_le warn f_zero && f_le poor f_zero then f_zero
  else if f_le warn v then f_zero
  else if f_le v poor then max
  else f_div (f_mul max (f_sub warn v)) (f_sub warn poor).

(** src/internal/quality/scoring_score.go:78-83 [clampScore] *)
Definition clampScore (s : float64) : Z :=
  if f_is_nan s then 0
  else f_to_int (f_round (f_max f_zero (f_min (f_of_Z 100) s))).

(** src/internal/quality/scoring_score.go:85-94 [statusFromScore] *)
Definition statusFromScore (c : Config) (score : Z) : Status :=
  if score >=? GoodScore c then Good
  else if score >=? WarningScore c then Warning
  else Poor.

(** src/internal/quality/scoring_score.go:96-105 [statusFromBand] *)
Definition statusFromBand (b : Z) : Status :=
  if b =? 2 then Poor else if b =? 1 then Warning else Good.

(** ** Analyzers *)

(** src/internal/quality/analyzer.go:3-9 [Analysis] *)
Record Analysis := mkAnalysis {
  AStatus : Status;
  Score : Z;
  Problems : list Problem;
  Metrics : gmap string float64
}.

(** src/internal/quality/analyzer.go:30-37 [rule] *)
Record rule := mkRule {
  problem : Problem;
  rvalue : option float64;
  warn : float64;
  poor : float64;
  pen : float64;
  lowerWorse : bool;
  metricKey : string
}.

(** src/internal/quality/analyzer.go:39-53 [mediaRules] *)
Definition mediaRules (k : Kind) (d : Derived) (t : MediaThresholds) : list rule :=
  let z := f_of_Z in
  [ mkRule ProblemHighPacketLoss (LossPct d) (LossWarn t) (LossPoor t) (z penLoss) false "packetLossPct";
    mkRule ProblemHighJitter (JitterMs d) (JitterWarn t) (JitterPoor t) (z penJitter) false "jitterMs";
    mkRule ProblemHighRTT (RTTMs d) (RTTWarn t) (RTTPoor t) (z penRTT) false "rttMs";
    mkRule ProblemLowBitrate (BitrateBps d) (BitrateWarn t) (BitratePoor t) (z penBitrate) true "bitrateBps" ]
  ++ if decide (k = Video) then
       [ mkRule ProblemLowFPS (FPS d) (FPSWarn t) (FPSPoor t) (z penFPS) true "fps";
         mkRule ProblemHighFrameDrop (FrameDropPct d) (FrameDropWarn t) (FrameDropPoor t)
                (z penFrameDrop) false "frameDropPct" ]
     else [].

(** src/internal/quality/analyzer.go:127-129 [round2] *)
Definition round2 (v : float64) : float64 :=
  f_div (f_of_Z (f_to_int (f_add (f_mul v (f_of_Z 100)) (f_scale 1 (-1))))) (f_of_Z 100).

(** src/internal/quality/analyzer.go:68-75 [evalRules: band and penalty of one rule] *)
Definition rule_band (r : rule) (v : float64) : Z :=
  if lowerWorse r then bandLow v (warn r) (poor r) else band v (warn r) (poor r).

Definition rule_penalty (r : rule) (v : float64) : float64 :=
  if lowerWorse r then penaltyLow v (warn r) (poor r) (pen r)
  else penalty v (warn r) (poor r) (pen r).

(** The loop variables of [evalRules]. *)
Record eval_state := mkEval {
  ev_score : float64;
  ev_problems : list Problem;
  ev_worst : Z;
  ev_metrics : gmap string float64
}.

(** src/internal/quality/analyzer.go:61-82 [evalRules: loop body] *)
Definition eval_rule (st : eval_state) (r : rule) : eval_state :=
  match rvalue r with
  | None => st
  | Some v =>
      let b := rule_band r v in
      {| ev_score := f_sub (ev_score st) (rule_penalty r v);
         ev_problems := if b >=? 1 then ev_problems st ++ [problem r] else ev_problems st;
         ev_worst := if b >? ev_worst st then b else ev_worst st;
         ev_metrics := <[metricKey r := round2 v]> (ev_metrics st) |}
  end.

(** src/internal/quality/analyzer.go:56-59 [evalRules: initial values] *)
Definition eval_init : eval_state := mkEval (f_of_Z 100) [] 0 ∅.

(** src/internal/quality/analyzer.go:55-96 [evalRules] *)
Definition evalRules (rules : list rule) (d : Derived) (cfg : Config) : Analysis :=
  let st := foldl eval_rule eval_init rules in
  let metrics :=
    match Width d, Height d with
    | Some w, Some h => <["height" := h]> (<["width" := w]> (ev_metrics st))
    | _, _ => ev_metrics st
    end in
  let s := clampScore (ev_score st) in
  {| AStatus := worst (statusFromScore cfg s) (statusFromBand (ev_worst st));
     Score := s;
     Problems := ev_problems st;
     Metrics := metrics |}.

(** src/internal/quality/analyzer.go:119-123 [analyzeConnection: rules] *)
Definition connectionRules (d : Derived) (t : MediaThresholds) : list rule :=
  let z := f_of_Z in
  [ mkRule ProblemHighRTT (RTTMs d) (RTTWarn t) (RTTPoor t) (z (penRTT + 10)) false "rttMs";
    mkRule ProblemHighPacketLoss (LossPct d) (LossWarn t) (LossPoor t) (z penLoss) false "packetLossPct";
    mkRule ProblemHighJitter (JitterMs d) (JitterWarn t) (JitterPoor t) (z penJitter) false "jitterMs" ].

(** src/internal/quality/analyzer.go:98-125 [analyzeConnection] *)
Definition analyzeConnection (d : Derived) (cfg : Config) : Analysis :=
  let t := CConnection cfg in
  if negb (String.eqb (ConnState d) "") && negb (String.eqb (ConnState d) "connected") then
    mkAnalysis Poor 0 [ProblemConnectionUnstable] ∅
  else if String.eqb (ICEState d) "disconnected" || String.eqb (ICEState d) "failed" then
    mkAnalysis Poor 10 [ProblemConnectionUnstable] ∅
  else evalRules (connectionRules d t) d cfg.

(** src/internal/quality/analyzer.go:11-28 [analyze] *)
Definition analyze (k : Kind) (d : Derived) (cfg : Config) : Analysis :=
  if negb (HasData d) then mkAnalysis Unknown 0 [] ∅
  else if negb (Enabled d) then mkAnalysis Unknown 0 [ProblemTrackDisabled] ∅
  else match k with
       | Connection => analyzeConnection d cfg
       | _ => evalRules (mediaRules k d (thresholds cfg k)) d cfg
       end.

(** ** Statuses form a severity order *)

Lemma rank_worst a b : rank (worst a b) = Z.max (rank a) (rank b).
Proof. by destruct a, b. Qed.

Lemma rank_inj a b : rank a = rank b → a = b.
Proof. by destruct a, b. Qed.

Lemma worst_comm a b : worst a b = worst b a.
Proof. by destruct a, b. Qed.

Lemma worst_assoc a b c : worst a (worst b c) = worst (worst a b) c.
Proof. by destruct a, b, c. Qed.

Lemma rank_statusFromBand b : 0 ≤ b ≤ 2 → rank (statusFromBand b) = b.
Proof.
  intros H. unfold statusFromBand.
  destruct (Z.eqb_spec b 2), (Z.eqb_spec b 1); subst; simpl; lia.
Qed.

Lemma rank_statusFromScore c s : 0 ≤ rank (statusFromScore c s).
Proof. unfold statusFromScore. by repeat case_match. Qed.

(** ** What [evalRules] computes *)

(** The band a rule contributes; a metric that was not reported contributes
    nothing. *)
Definition rule_sev (r : rule) : Z :=
  match rvalue r with
  | None => 0
  | Some v => rule_band r v
  end.

Lemma rule_sev_range r : 0 ≤ rule_sev r ≤ 2.
Proof. unfold rule_sev, rule_band, band, bandLow. repeat case_match; lia. Qed.

Lemma eval_rules_problems rules st :
  ev_problems (foldl eval_rule st rules)
  = ev_problems st ++ (problem <$> filter (λ r, 1 ≤ rule_sev r) rules).
Proof.
  revert st. induction rules as [|r rules IH]; intros st; simpl; [by rewrite app_nil_r|].
  rewrite IH, filter_cons. unfold eval_rule, rule_sev.
  destruct (rvalue r) as [v|]; simpl.
  - destruct (Z.geb_spec (rule_band r v) 1); case_decide; try lia; [|done].
    by rewrite <- app_assoc.
  - done.
Qed.

Lemma eval_rules_worst rules st :
  0 ≤ ev_worst st →
  ev_worst (foldl eval_rule st rules)
  = Z.max (ev_worst st) (foldr Z.max 0 (rule_sev <$> rules)).
Proof.
  revert st. induction rules as [|r rules IH]; intros st H; csimpl; [lia|].
  unfold eval_rule at 2, rule_sev at 1. destruct (rvalue r) as [v|]; [|rewrite IH; lia].
  rewrite IH; simpl; destruct (Z.gtb_spec (rule_band r v) (ev_worst st)); lia.
Qed.

Lemma max_sev_range rules : 0 ≤ foldr Z.max 0 (rule_sev <$> rules) ≤ 2.
Proof.
  induction rules as [|r rules IH]; csimpl; [lia|].
  pose proof (rule_sev_range r). lia.
Qed.

Lemma max_sev_elem rules r : r ∈ rules → rule_sev r ≤ foldr Z.max 0 (rule_sev <$> rules).
Proof. induction 1; csimpl; lia. Qed.

(** ** Score bounds *)

Lemma penalty_53 r v : prec53 (pen r) → prec53 (rule_penalty r v).
Proof.
  intros H. unfold rule_penalty, penalty, penaltyLow.
  repeat case_match; done || apply f_div_53.
Qed.

Lemma eval_rules_53 rules st :
  prec53 (ev_score st) → Forall (λ r, prec53 (pen r)) rules →
  prec53 (ev_score (foldl eval_rule st rules)).
Proof.
  intros Hst Hr. revert st Hst. induction Hr as [|r rules Hr _ IH]; intros st Hst; [exact Hst|].
  cbn [foldl].
  apply IH. unfold eval_rule. destruct (rvalue r) as [v|]; [|exact Hst].
  apply f_sub_53; [exact Hst|]. apply penalty_53, Hr.
Qed.

Lemma clampScore_range s : prec53 s → 0 ≤ clampScore s ≤ 100.
Proof.
  intros Hs. destruct s as [[]|[]| |[] m e].
  1-5: vm_compute; split; discriminate.
  - assert (clampScore (S754_finite true m e) = 0) as -> by reflexivity. lia.
  - destruct (f_lt (f_of_Z 100) (S754_finite false m e)) eqn:E.
    + assert (clampScore (S754_finite false m e) = 100) as ->; [|lia].
      change (f_to_int (f_round (f_max f_zero
        (if f_lt (f_of_Z 100) (S754_finite false m e)
         then f_of_Z 100 else S754_finite false m e))) = 100).
      by rewrite E.
    + change (0 ≤ f_to_int (f_round (f_max f_zero
        (if f_lt (f_of_Z 100) (S754_finite false m e)
         then f_of_Z 100 else S754_finite false m e))) ≤ 100).
      rewrite E. by apply f_round_small.
Qed.

Lemma evalRules_score rules d cfg :
  Forall (λ r, prec53 (pen r)) rules → 0 ≤ Score (evalRules rules d cfg) ≤ 100.
Proof.
  intros H. apply clampScore_range, eval_rules_53; [apply f_of_Z_53|done].
Qed.

Lemma mediaRules_53 k d t : Forall (λ r, prec53 (pen r)) (mediaRules k d t).
Proof. destruct k; repeat constructor; apply f_of_Z_53. Qed.

Lemma connectionRules_53 d t : Forall (λ r, prec53 (pen r)) (connectionRules d t).
Proof. repeat constructor; apply f_of_Z_53. Qed.

(** ** Properties of the analyzers *)

Lemma evalRules_rank rules d cfg :
  rank (AStatus (evalRules rules d cfg))
  = Z.max (rank (statusFromScore cfg (Score (evalRules rules d cfg))))
          (foldr Z.max 0 (rule_sev <$> rules)).
Proof.
  unfold evalRules. simpl. rewrite rank_worst, eval_rules_worst by done.
  pose proof (max_sev_range rules). simpl.
  rewrite rank_statusFromBand by lia. lia.
Qed.

Lemma evalRules_problems rules d cfg :
  Problems (evalRules rules d cfg) = problem <$> filter (λ r, 1 ≤ rule_sev r) rules.
Proof. unfold evalRules. simpl. by rewrite eval_rules_problems. Qed.

Lemma evalRules_known rules d cfg : AStatus (evalRules rules d cfg) ≠ Unknown.
Proof.
  intros E. pose proof (evalRules_rank rules d cfg) as H. rewrite E in H.
  pose proof (max_sev_range rules). simpl in H. lia.
Qed.

(** No metric in the warn or poor band means no penalty, as long as no number
    involved is a NaN. *)
Definition rule_numeric (r : rule) : Prop :=
  f_is_nan (warn r) = false ∧ f_is_nan (poor r) = false ∧
  match rvalue r with Some v => f_is_nan v = false | None => True end.

Lemma f_not_le x y :
  f_is_nan x = false → f_is_nan y = false → f_le x y = false → f_le y x = true.
Proof.
  intros Hx Hy. rewrite !f_le_lt_eq.
  destruct (f_total x y Hx Hy) as [E|[E|E]]; rewrite E, ?orb_true_r; done.
Qed.

Lemma rule_good_no_penalty r v :
  rule_numeric r → rvalue r = Some v → rule_band r v < 1 → rule_penalty r v = f_zero.
Proof.
  intros (Hw&_&Hv) E. rewrite E in Hv. unfold rule_band, rule_penalty.
  destruct (lowerWorse r).
  - unfold bandLow, penaltyLow. intros Hb.
    destruct (f_le v (poor r)); [lia|]. destruct (f_le v (warn r)) eqn:El; [lia|].
    rewrite (f_not_le v (warn r)) by done. by case_match.
  - unfold band, penalty. intros Hb.
    destruct (f_le (poor r) v); [lia|]. destruct (f_le (warn r) v) eqn:El; [lia|].
    rewrite (f_not_le (warn r) v) by done. by case_match.
Qed.

Lemma eval_rules_no_problem rules st :
  ev_score st = f_of_Z 100 → Forall rule_numeric rules →
  Forall (λ r, rule_sev r < 1) rules →
  ev_score (foldl eval_rule st rules) = f_of_Z 100.
Proof.
  intros Hst Hn. revert st Hst. induction Hn as [|r rules Hr Hn IH]; intros st Hst Hb;
    [exact Hst|]. cbn [foldl]. apply Forall_cons_1 in Hb as [Hb1 Hb2].
  apply IH; [|exact Hb2]. unfold eval_rule. unfold rule_sev in Hb1.
  destruct (rvalue r) as [v|] eqn:E; [|exact Hst]. cbn [ev_score].
  rewrite (rule_good_no_penalty r v Hr E Hb1), Hst. reflexivity.
Qed.

(** C36: every verdict is in range and is withheld exactly when there is no data
    or the track is disabled: for any sample window, thresholds and media kind,
    NaN and infinities included, the score lies between 0 and 100 and the
    status is UNKNOWN exactly when [HasData] or [Enabled] is false. *)
Theorem analyze_in_range (k : Kind) (d : Derived) (cfg : Config) :
  0 ≤ Score (analyze k d cfg) ≤ 100 ∧
  (AStatus (analyze k d cfg) = Unknown ↔ HasData d = false ∨ Enabled d = false).
Proof.
  unfold analyze. destruct (HasData d), (Enabled d); simpl;
    try (split; [lia|by intuition]).
  assert (∀ rules, Forall (λ r, prec53 (pen r)) rules →
    0 ≤ Score (evalRules rules d cfg) ≤ 100 ∧
    (AStatus (evalRules rules d cfg) = Unknown ↔ true = false ∨ true = false)) as H.
  { intros rules Hr. split; [by apply evalRules_score|].
    split; [by intros ?%evalRules_known|by intros []]. }
  destruct k; [apply H, mediaRules_53|apply H, mediaRules_53|].
  unfold analyzeConnection. repeat case_match; try (split; [simpl; lia|by intuition]).
  apply H, connectionRules_53.
Qed.

(** the verdict of a rule set is the worst of what the score says and what
    any single metric says, and the problems it names are exactly the metrics
    in their warn or poor band, in rule order. *)
Theorem evalRules_verdict (rules : list rule) (d : Derived) (cfg : Config) :
  let a := evalRules rules d cfg in
  rank (AStatus a)
  = Z.max (rank (statusFromScore cfg (Score a))) (foldr Z.max 0 (rule_sev <$> rules)) ∧
  Problems a = problem <$> filter (λ r, 1 ≤ rule_sev r) rules.
Proof. split; [apply evalRules_rank|apply evalRules_problems]. Qed.

(** Every classification names its cause: when no number involved is a NaN
    and the analysis lists no problem, nothing was subtracted and the score is
    the full 100. *)
Theorem no_problem_full_score (rules : list rule) (d : Derived) (cfg : Config) :
  Forall rule_numeric rules →
  Problems (evalRules rules d cfg) = [] →
  Score (evalRules rules d cfg) = 100 ∧
  AStatus (evalRules rules d cfg) = statusFromScore cfg 100.
Proof.
  intros Hn Hp. rewrite evalRules_problems in Hp. apply fmap_nil_inv in Hp.
  assert (Forall (λ r, rule_sev r < 1) rules) as Hb.
  { apply list.Forall_forall. intros r Hr. apply Z.nle_gt. intros Hs.
    assert (r ∈ filter (λ r, 1 ≤ rule_sev r) rules) as Hf
      by (apply list_elem_of_filter; by split).
    rewrite Hp in Hf. set_solver. }
  assert (Score (evalRules rules d cfg) = 100) as Hs.
  { unfold evalRules. simpl. by rewrite (eval_rules_no_problem rules eval_init). }
  split; [exact Hs|]. apply rank_inj. rewrite evalRules_rank, Hs.
  assert (foldr Z.max 0 (rule_sev <$> rules) = 0) as ->.
  { clear -Hb. induction Hb as [|r rules Hr _ IH]; csimpl; [done|].
    rewrite IH. pose proof (rule_sev_range r). lia. }
  pose proof (rank_statusFromScore cfg 100). lia.
Qed.

Definition quiet_audio : Derived :=
  mkDerived true true (f_of_Z 1) (Some (f_of_Z 1)) (Some (f_of_Z 32000)) (Some (f_of_Z 10))
            (Some (f_of_Z 40)) None None None None "" "".

Lemma no_problem_full_score_witness :
  Score (evalRules (mediaRules Audio quiet_audio (CAudio DefaultConfig)) quiet_audio DefaultConfig)
  = 100.
Proof.
  apply (no_problem_full_score (mediaRules Audio quiet_audio (CAudio DefaultConfig))
           quiet_audio DefaultConfig).
  - repeat constructor.
  - vm_compute. reflexivity.
Defined.

(** A threshold pair left at zero is documented as "do not evaluate this
    metric", and its penalty is indeed zero; its band is not: any reported
    value that is at least zero puts the stream in the POOR band and is named
    as the problem. *)
Theorem zero_pair_is_poor (rules : list rule) (d : Derived) (cfg : Config) (r : rule) (v : float64) :
  r ∈ rules → rvalue r = Some v → lowerWorse r = false →
  warn r = f_zero → poor r = f_zero → f_le f_zero v = true →
  rule_penalty r v = f_zero ∧
  AStatus (evalRules rules d cfg) = Poor ∧
  problem r ∈ Problems (evalRules rules d cfg).
Proof.
  intros Hin Hv Hl Hw Hp Hle.
  assert (rule_sev r = 2) as Hs.
  { unfold rule_sev, rule_band, band. by rewrite Hv, Hl, Hp, Hle. }
  split; [unfold rule_penalty, penalty; by rewrite Hl, Hw, Hp|]. split.
  - apply rank_inj. rewrite evalRules_rank. pose proof (max_sev_elem rules r Hin).
    pose proof (max_sev_range rules). change (rank Poor) with 2.
    assert (rank (statusFromScore cfg (Score (evalRules rules d cfg))) ≤ 2)
      by (unfold statusFromScore; repeat case_match; simpl; lia).
    lia.
  - rewrite evalRules_problems. apply list_elem_of_fmap. exists r. split; [done|].
    apply list_elem_of_filter. split; [lia|done].
Qed.

Lemma zero_pair_is_poor_witness :
  AStatus (evalRules [mkRule ProblemHighRTT (Some (f_of_Z 5)) f_zero f_zero (f_of_Z penRTT) false "rttMs"]
             quiet_audio DefaultConfig) = Poor.
Proof.
  apply (zero_pair_is_poor
           [mkRule ProblemHighRTT (Some (f_of_Z 5)) f_zero f_zero (f_of_Z penRTT) false "rttMs"]
           quiet_audio DefaultConfig
           (mkRule ProblemHighRTT (Some (f_of_Z 5)) f_zero f_zero (f_of_Z penRTT) false "rttMs")
           (f_of_Z 5)); try reflexivity.
  apply list_elem_of_singleton. reflexivity.
Defined.
