(* ===== verification/QualityEngine.v ===== *)
(** * The QoE engine (internal/quality: window, hysteresis, events, engine)

    Per-stream state and the operations on it: a sliding window of derived
    samples, the stabilizer that turns windowed verdicts into a stable status,
    the transition events, and the engine that owns the streams.  A Go run-time
    panic (an index or slice bound out of range) is the result [None]; the
    engine's clock readings are arguments.  Go iterates maps in an arbitrary
    order, so [Snapshot] takes the order as an argument and the theorem about
    it says the order does not matter. *)

From S2P Require Import Prelude.
From S2P Require Import GoFloat.
From S2P Require Import QualityModel.

(** ** Window *)

(** src/internal/quality/history.go:5-9 [HistoryPoint] *)
Record HistoryPoint := mkHP {
  HAt : Z;
  HStatus : Status
}.

(** src/internal/quality/history.go:11-17 [window] *)
Record window := mkWindow {
  buf : list Derived;
  size : Z
}.

(** src/internal/quality/history.go:19-24 [newWindow] *)
Definition newWindow (size : Z) : window :=
  mkWindow [] (if size <? 1 then 1 else size).

(** [l[len(l)-n:]] guarded by [len(l) > n]: out of range when [n < 0]. *)
Definition keep_last {A} (n : Z) (l : list A) : option (list A) :=
  if Z.of_nat (length l) >? n then
    if n <? 0 then None else Some (last_n (Z.to_nat n) l)
  else Some l.

(** src/internal/quality/history.go:26-31 [window.push] *)
Definition push (w : window) (d : Derived) : option window :=
  (λ b, mkWindow b (size w)) <$> keep_last (size w) (buf w ++ [d]).

(** src/internal/quality/history.go:54-67 [avg] *)
Definition avg (buf : list Derived) (get : Derived → option float64) : option float64 :=
  let '(sum, n) :=
    foldl (λ '(sum, n) d, match get d with
                          | Some v => (f_add sum v, n + 1)
                          | None => (sum, n)
                          end) (f_zero, 0) buf in
  if n =? 0 then None else Some (f_div sum (f_of_Z n)).

(** src/internal/quality/history.go:33-52 [window.mean] *)
Definition mean (w : window) : option Derived :=
  match last (buf w) with
  | None => None
  | Some l =>
      Some {| HasData := true; Enabled := Enabled l; DtSeconds := f_zero;
              LossPct := avg (buf w) LossPct;
              BitrateBps := avg (buf w) BitrateBps;
              JitterMs := avg (buf w) JitterMs;
              RTTMs := avg (buf w) RTTMs;
              FPS := avg (buf w) FPS;
              FrameDropPct := avg (buf w) FrameDropPct;
              Width := Width l; Height := Height l;
              ConnState := ConnState l; ICEState := ICEState l |}
  end.

(** ** Hysteresis *)

(** src/internal/quality/scoring_hysteresis.go:3-15 [stabilizer]  The candidate
    starts as Go's empty string, which no verdict equals: [None]. *)
Record stabilizer := mkStab {
  stable : Status;
  candidate : option Status;
  streak : Z;
  degrade : Z;
  recover : Z
}.

(** src/internal/quality/scoring_hysteresis.go:17-23 [newStabilizer] *)
Definition newStabilizer (cfg : Config) : stabilizer :=
  mkStab Unknown None 0 (DegradeSamples cfg) (RecoverSamples cfg).

(** src/internal/quality/scoring_hysteresis.go:41-48 [observe: need] *)
Definition need (s : stabilizer) (raw : Status) : Z :=
  if (rank (stable s) >=? 0) && (rank raw >=? 0) && (rank raw <? rank (stable s))
  then recover s else degrade s.

(** src/internal/quality/scoring_hysteresis.go:25-57 [stabilizer.observe] *)
Definition observe (s : stabilizer) (raw : Status) : stabilizer * (Status * bool) :=
  if decide (raw = stable s) then
    (mkStab (stable s) (Some (stable s)) 0 (degrade s) (recover s), (stable s, false))
  else
    let streak' := if decide (Some raw = candidate s) then streak s + 1 else 1 in
    if streak' >=? need s raw then
      (mkStab raw (Some raw) 0 (degrade s) (recover s), (raw, true))
    else
      (mkStab (stable s) (Some raw) streak' (degrade s) (recover s), (stable s, false)).

(** ** Events *)

(** src/internal/quality/events.go:6-10 [event types] *)
Inductive EventType :=
| EventDegraded
| EventRecovered
| EventChanged.

(** src/internal/quality/events.go:12-24 [Event] *)
Record Event := mkEvent {
  EType : EventType;
  ParticipantID : string;
  EDirection : Direction;
  MediaType : Kind;
  ETrackID : string;
  From : Status;
  EStatus : Status;
  Reason : option Problem;
  At : Z
}.

(** src/internal/quality/events.go:26-53 [makeEvent] *)
Definition makeEvent (key : StreamKey) (from to : Status) (a : Analysis) (at_ : Z) : Event :=
  {| EType := if rank from <? 0 then EventChanged
              else if rank to >? rank from then EventDegraded
              else if decide (to = Good) then EventRecovered
              else EventChanged;
     ParticipantID := Participant key; EDirection := KDirection key;
     MediaType := KKind key; ETrackID := TrackID key;
     From := from; EStatus := to; Reason := head (Problems a); At := at_ |}.

(** ** Engine *)

(** src/internal/quality/engine.go:24-31 [streamState] *)
Record streamState := mkStream {
  prev : option Sample;
  win : window;
  stab : stabilizer;
  last_ : Analysis;
  history : list HistoryPoint;
  updated : Z
}.

(** src/internal/quality/engine.go:9-22 [Engine] *)
Record Engine := mkEngine {
  cfg : Config;
  streams : gmap StreamKey streamState;
  recovering : gset string
}.

(** src/internal/quality/engine.go:33-44 [New] *)
Definition New (c : Config) : Engine :=
  mkEngine (if WindowSamples c =? 0 then DefaultConfig else c) ∅ ∅.

(** src/internal/quality/engine.go:46-58 [SetRecovering] *)
Definition SetRecovering (e : Engine) (participantID : string) (b : bool) : Engine :=
  mkEngine (cfg e) (streams e)
    (if b then {[participantID]} ∪ recovering e else recovering e ∖ {[participantID]}).

(** src/internal/quality/engine.go:66-74 [Ingest: new stream] *)
Definition newStream (c : Config) : streamState :=
  mkStream None (newWindow (WindowSamples c)) (newStabilizer c)
           (mkAnalysis Unknown 0 [] ∅) [] 0.

Definition set_stream (e : Engine) (k : StreamKey) (st : streamState) : Engine :=
  mkEngine (cfg e) (<[k := st]> (streams e)) (recovering e).

(** src/internal/quality/engine.go:60-108 [Ingest]  [now] and [at_] are the two
    readings of the engine's clock. *)
Definition Ingest (e : Engine) (s : Sample) (now at_ : Z) : option (Engine * list Event) :=
  let st := default (newStream (cfg e)) (streams e !! SKey s) in
  let d := derive (prev st) s in
  let st1 := mkStream (Some s) (win st) (stab st) (last_ st) (history st) now in
  if negb (HasData d) && Enabled d then Some (set_stream e (SKey s) st1, [])
  else
    w ← push (win st1) d;
    m ← mean w;
    let verdict := analyze (KKind (SKey s)) m (cfg e) in
    let prevStable := stable (stab st1) in
    let '(stab', (stable', changed)) := observe (stab st1) (AStatus verdict) in
    let last' := mkAnalysis stable' (Score verdict) (Problems verdict) (Metrics verdict) in
    if negb changed then
      Some (set_stream e (SKey s) (mkStream (prev st1) w stab' last' (history st1) now), [])
    else
      h ← keep_last (HistorySize (cfg e)) (history st1 ++ [mkHP at_ stable']);
      Some (set_stream e (SKey s) (mkStream (prev st1) w stab' last' h now),
            [makeEvent (SKey s) prevStable stable' verdict at_]).

(** src/internal/quality/engine.go:110-120 [Forget] *)
Definition Forget (e : Engine) (participantID : string) : Engine :=
  mkEngine (cfg e) (filter (λ '(k, _), Participant k ≠ participantID) (streams e))
           (recovering e ∖ {[participantID]}).

(** src/internal/quality/engine.go:122-133 [Prune] *)
Definition Prune (e : Engine) (now maxAge : Z) : Engine :=
  let cutoff := now - maxAge in
  mkEngine (cfg e) (filter (λ '(_, st), ¬ updated st < cutoff) (streams e)) (recovering e).

(** ** Snapshot *)

(** src/internal/quality/engine.go:139-148 [StreamQuality] *)
Record StreamQuality := mkSQ {
  QDirection : Direction;
  QKind : Kind;
  QTrackID : string;
  QStatus : Status;
  QScore : Z;
  QProblems : list Problem;
  QMetrics : gmap string float64
}.

(** src/internal/quality/engine.go:150-159 [ParticipantQuality] *)
Record ParticipantQuality := mkPQ {
  PQParticipantID : string;
  PQConnection : StreamQuality;
  PQOutbound : list StreamQuality;
  PQInbound : list StreamQuality;
  Overall : Status;
  PQReason : string;
  Timeline : list HistoryPoint
}.

(** The string of a kind, for its ordering. *)
Definition kind_string (k : Kind) : string :=
  match k with
  | Audio => "audio"
  | Video => "video"
  | Connection => "connection"
  end.

(** src/internal/quality/engine.go:219-226 [sortStreams] *)
Definition stream_less (a b : StreamQuality) : bool :=
  if decide (QKind a = QKind b) then str_lt (QTrackID a) (QTrackID b)
  else str_lt (kind_string (QKind a)) (kind_string (QKind b)).

Definition sortStreams (l : list StreamQuality) : list StreamQuality :=
  sort_by stream_less l.

(** src/internal/quality/engine.go:228-250 [overall] *)
Definition overall (pq : ParticipantQuality) : Status :=
  let '(base, video) :=
    foldl (λ '(base, video) s,
             match QKind s with
             | Audio => (worst base (QStatus s), video)
             | Video => (base, worst video (QStatus s))
             | Connection => (base, video)
             end)
          (QStatus (PQConnection pq), Unknown) (PQOutbound pq ++ PQInbound pq) in
  if decide (video = Poor) then worst base Warning else worst base video.

(** src/internal/quality/engine.go:178-182 [Snapshot: stream view] *)
Definition streamQuality (k : StreamKey) (st : streamState) : StreamQuality :=
  mkSQ (KDirection k) (KKind k) (TrackID k) (AStatus (last_ st)) (Score (last_ st))
       (Problems (last_ st)) (Metrics (last_ st)).

(** src/internal/quality/engine.go:174-192 [Snapshot: loop body] *)
Definition snapshot_step (participantID : string) (pq : ParticipantQuality)
    (kv : StreamKey * streamState) : ParticipantQuality :=
  let '(k, st) := kv in
  if negb (String.eqb (Participant k) participantID) then pq
  else
    let sq := streamQuality k st in
    if decide (KKind k = Connection) then
      mkPQ (PQParticipantID pq) sq (PQOutbound pq) (PQInbound pq) (Overall pq)
           (PQReason pq) (history st)
    else if decide (KDirection k = Outbound) then
      mkPQ (PQParticipantID pq) (PQConnection pq) (PQOutbound pq ++ [sq]) (PQInbound pq)
           (Overall pq) (PQReason pq) (Timeline pq)
    else
      mkPQ (PQParticipantID pq) (PQConnection pq) (PQOutbound pq) (PQInbound pq ++ [sq])
           (Overall pq) (PQReason pq) (Timeline pq).

(** src/internal/quality/engine.go:166-172 [Snapshot: initial value] *)
Definition snapshot_init (participantID : string) : ParticipantQuality :=
  mkPQ participantID (mkSQ NoDirection Connection "" Unknown 0 [] ∅) [] [] Unknown "" [].

(** src/internal/quality/engine.go:161-208 [Snapshot]  [order] is the sequence in
    which the map iteration yields the streams. *)
Definition Snapshot (e : Engine) (order : list (StreamKey * streamState))
    (participantID : string) : ParticipantQuality :=
  let pq := foldl (snapshot_step participantID) (snapshot_init participantID) order in
  let pq := mkPQ (PQParticipantID pq) (PQConnection pq) (sortStreams (PQOutbound pq))
                 (sortStreams (PQInbound pq)) (Overall pq) (PQReason pq) (Timeline pq) in
  let o := overall pq in
  if decide (participantID ∈ recovering e) then
    mkPQ (PQParticipantID pq) (PQConnection pq) (PQOutbound pq) (PQInbound pq)
         (if decide (o = Poor ∨ o = Unknown) then Warning else o)
         "SESSION_RECOVERY" (Timeline pq)
  else
    mkPQ (PQParticipantID pq) (PQConnection pq) (PQOutbound pq) (PQInbound pq) o
         (PQReason pq) (Timeline pq).

(** src/internal/quality/engine.go:210-217 [SnapshotRoom]  Each snapshot iterates
    the map afresh, in its own order. *)
Definition SnapshotRoom (e : Engine) (order : string → list (StreamKey * streamState))
    (participantIDs : list string) : list ParticipantQuality :=
  (λ id, Snapshot e (order id) id) <$> participantIDs.

(** src/internal/signaling/qoe_bridge.go:96-118 [handleQualityReport: key]  The
    key the signaling bridge gives to a sample: unknown kinds and directions
    are skipped, a connection sample has neither direction nor track. *)
Definition sample_key (participant kind direction publicationID : string) : option StreamKey :=
  let validKind k :=
    if String.eqb k "audio" then Some Audio
    else if String.eqb k "video" then Some Video
    else if String.eqb k "connection" then Some Connection else None in
  let validDirection d :=
    if String.eqb d "inbound" then Some Inbound
    else if String.eqb d "outbound" then Some Outbound else None in
  k ← validKind kind;
  if decide (k = Connection) then Some (mkKey participant NoDirection Connection "")
  else d ← validDirection direction; Some (mkKey participant d k publicationID).

(** ** Hysteresis: a commit is a full run of equal verdicts *)

(** The stabilizer after a sequence of windowed verdicts. *)
Definition observes (s : stabilizer) (l : list Status) : stabilizer :=
  foldl (λ s raw, (observe s raw).1) s l.

(** [l] ends with exactly [n] copies of [c]. *)
Definition ends_in_run (l : list Status) (n : nat) (c : Status) : Prop :=
  ∃ l0, l = l0 ++ replicate n c ∧ last l0 ≠ Some c.

Lemma ends_in_run_snoc l n c :
  ends_in_run l n c → ends_in_run (l ++ [c]) (S n) c.
Proof.
  intros (l0 & -> & H). exists l0. split; [|done].
  by rewrite <- app_assoc, <- replicate_cons_app.
Qed.

Lemma ends_in_run_new l c : last l ≠ Some c → ends_in_run (l ++ [c]) 1 c.
Proof. by exists l. Qed.

(** A list that ends in a maximal run of [n] ends in [k] copies iff [k <= n]. *)
Lemma run_length l n c k :
  ends_in_run l n c → (∃ l0, l = l0 ++ replicate k c) ↔ (k ≤ n)%nat.
Proof.
  intros (l0 & -> & Hl0). split.
  - intros [l1 E]. destruct (decide (k ≤ n)%nat) as [|Hk]; [done|exfalso].
    apply Hl0. replace k with (k - n + n)%nat in E by lia.
    rewrite replicate_add, app_assoc in E. apply app_inv_tail in E. subst l0.
    replace (k - n)%nat with (S (k - n - 1)) by lia.
    by rewrite replicate_S_end, app_assoc, last_snoc.
  - intros Hk. exists (l0 ++ replicate (n - k) c).
    by rewrite <- app_assoc, <- replicate_add, Nat.sub_add.
Qed.

(** The candidate is the last verdict, and away from the stable status the
    streak is the length of the run it ends. *)
Definition stab_inv (s : stabilizer) (hist : list Status) : Prop :=
  candidate s = last hist ∧
  match last hist with
  | None => streak s = 0
  | Some c => (c = stable s ∧ streak s = 0) ∨
              (c ≠ stable s ∧ 0 ≤ streak s ∧ ends_in_run hist (Z.to_nat (streak s)) c)
  end.

Lemma next_run s hist raw :
  stab_inv s hist → raw ≠ stable s →
  ends_in_run (hist ++ [raw])
    (Z.to_nat (if decide (Some raw = candidate s) then streak s + 1 else 1)) raw.
Proof.
  intros [Hc Hs] Hraw. case_decide as E; rewrite Hc in E.
  - rewrite <- E in Hs. destruct Hs as [[? _]|(_ & Hn & Hr)]; [done|].
    rewrite Z2Nat.inj_add, Nat.add_1_r by lia. by apply ends_in_run_snoc.
  - by apply ends_in_run_new.
Qed.

Lemma stab_inv_observe s hist raw :
  stab_inv s hist → stab_inv (observe s raw).1 (hist ++ [raw]).
Proof.
  intros Hinv. unfold observe. case_decide as Hst; simpl.
  - subst raw. unfold stab_inv. rewrite last_snoc. simpl. auto.
  - pose proof (next_run s hist raw Hinv Hst) as Hrun.
    destruct (_ >=? need s raw); simpl; unfold stab_inv; rewrite last_snoc; simpl; [auto|].
    split; [done|]. right. split; [done|]. split; [|done].
    destruct Hinv as [_ Hs]. case_decide; [|lia]. destruct (last hist); [|lia].
    destruct Hs as [[_ ->]|(_&?&_)]; lia.
Qed.

Lemma stab_inv_observes cfg hist : stab_inv (observes (newStabilizer cfg) hist) hist.
Proof.
  induction hist as [|r hist IH] using rev_ind; [done|].
  unfold observes. rewrite foldl_app. by apply stab_inv_observe.
Qed.

(** C18: hysteresis commits exactly on a full run.  After any history of
    windowed verdicts, a verdict different from the stable status moves the
    stable status if and only if the last [need] verdicts, this one included,
    are all equal to it, where [need] is the recover count for a strict
    improvement between known statuses and the degrade count otherwise; when it
    moves, it moves to that verdict. *)
Theorem hysteresis_exact (c : Config) (hist : list Status) (raw : Status) :
  let s := observes (newStabilizer c) hist in
  raw ≠ stable s →
  ((observe s raw).2.2 = true ↔
     ∃ l0, hist ++ [raw] = l0 ++ replicate (Z.to_nat (need s raw)) raw) ∧
  stable (observe s raw).1 = (if (observe s raw).2.2 then raw else stable s).
Proof.
  intros s Hraw. pose proof (next_run s hist raw (stab_inv_observes c hist) Hraw) as Hrun.
  rewrite (run_length _ _ _ _ Hrun).
  unfold observe. rewrite decide_False by done.
  set (k := if decide (Some raw = candidate s) then streak s + 1 else 1) in *.
  assert (0 ≤ k) as Hk.
  { unfold k. destruct (stab_inv_observes c hist) as [_ Hs]. fold s in Hs.
    case_decide; [|lia]. destruct (last hist); [|lia].
    destruct Hs as [[_ ->]|(_&?&_)]; lia. }
  destruct (Z.geb_spec k (need s raw)); simpl; (split; [|done]); split; intros; try done; lia.
Qed.

Lemma hysteresis_exact_witness :
  (observe (observes (newStabilizer DefaultConfig) [Good; Good; Good; Poor; Poor]) Poor).2.2 = true.
Proof.
  apply (hysteresis_exact DefaultConfig [Good; Good; Good; Poor; Poor] Poor).
  - vm_compute. discriminate.
  - exists [Good; Good; Good]. reflexivity.
Defined.

(** ** The engine's invariant *)

(** What holds of every stream: bounded window and history, the published
    status is the stabilizer's, and the history ends with it. *)
Record stream_wf (c : Config) (st : streamState) : Prop := {
  wf_size : size (win st) = Z.max 1 (WindowSamples c);
  wf_buf : Z.of_nat (length (buf (win st))) ≤ size (win st);
  wf_last : AStatus (last_ st) = stable (stab st);
  wf_degrade : degrade (stab st) = DegradeSamples c;
  wf_recover : recover (stab st) = RecoverSamples c;
  wf_hist : Z.of_nat (length (history st)) ≤ HistorySize c;
  wf_timeline : match last (history st) with
                | None => stable (stab st) = Unknown
                | Some p => HStatus p = stable (stab st)
                end
}.

Definition engine_wf (e : Engine) : Prop :=
  1 ≤ HistorySize (cfg e) ∧
  ∀ k st, streams e !! k = Some st → stream_wf (cfg e) st.

Lemma keep_last_ok {A} n (l : list A) :
  0 ≤ n → keep_last n l = Some (last_n (Z.to_nat n) l).
Proof.
  intros Hn. unfold keep_last.
  destruct (Z.gtb_spec (Z.of_nat (length l)) n), (Z.ltb_spec n 0); try lia; [done|].
  by rewrite last_n_all by lia.
Qed.

Lemma last_last_n_snoc {A} n (l : list A) x :
  (0 < n)%nat → last (last_n n (l ++ [x])) = Some x.
Proof. destruct n as [|n]; [lia|]. intros _. by rewrite last_n_snoc, last_snoc. Qed.

Lemma push_ok w d :
  1 ≤ size w →
  ∃ w', push w d = Some w' ∧ size w' = size w ∧
        Z.of_nat (length (buf w')) ≤ size w ∧ last (buf w') = Some d.
Proof.
  intros Hs. unfold push. rewrite keep_last_ok by lia. simpl. eexists. split; [done|].
  simpl. rewrite length_last_n, last_last_n_snoc by lia. repeat split; lia.
Qed.

Lemma newStream_wf c : 1 ≤ HistorySize c → stream_wf c (newStream c).
Proof.
  intros H. split; simpl; try done; try lia; destruct (Z.ltb_spec (WindowSamples c) 1); simpl; lia.
Qed.

Lemma observe_pars s raw :
  degrade (observe s raw).1 = degrade s ∧ recover (observe s raw).1 = recover s.
Proof. unfold observe. case_decide; [done|]. by destruct (_ >=? need s raw). Qed.

Lemma observe_result s raw :
  (observe s raw).2.1 = stable (observe s raw).1 ∧
  ((observe s raw).2.2 = true ↔ stable (observe s raw).1 ≠ stable s).
Proof.
  unfold observe. case_decide; [|destruct (_ >=? need s raw)]; simpl;
    (split; [done|]); split; intros; congruence.
Qed.

Lemma stream_of_wf e k : engine_wf e → stream_wf (cfg e) (default (newStream (cfg e)) (streams e !! k)).
Proof.
  intros [Hh Hs]. destruct (streams e !! k) as [st|] eqn:E; simpl; [by eapply Hs|].
  by apply newStream_wf.
Qed.

(** The whole of [Ingest], branch by branch: it returns, touches only the
    sample's stream, keeps it well formed, and emits an event exactly when the
    stable status moved. *)
Lemma Ingest_spec e s now at_ :
  engine_wf e →
  let old := stable (stab (default (newStream (cfg e)) (streams e !! SKey s))) in
  ∃ st' evs, Ingest e s now at_ = Some (set_stream e (SKey s) st', evs) ∧
    stream_wf (cfg e) st' ∧
    ((stable (stab st') = old ∧ evs = []) ∨
     (stable (stab st') ≠ old ∧
      ∃ v, evs = [makeEvent (SKey s) old (stable (stab st')) v at_])).
Proof.
  intros Hwf old. pose proof (stream_of_wf e (SKey s) Hwf) as W. destruct Hwf as [Hh _].
  unfold Ingest. set (st := default _ _) in *. destruct W.
  destruct (negb _ && _); [eexists _, _; split; [done|]; split; [by split|by left]|].
  destruct (push_ok (win st) (derive (prev st) s)) as (w & Ew & Hw & Hl & Hlast); [lia|].
  cbn [win]. rewrite Ew. cbn [mbind option_bind].
  destruct (mean w) as [m|] eqn:Em; [|unfold mean in Em; by rewrite Hlast in Em].
  cbn [mbind option_bind].
  pose proof (observe_result (stab st) (AStatus (analyze (KKind (SKey s)) m (cfg e)))) as [E1 E2].
  pose proof (observe_pars (stab st) (AStatus (analyze (KKind (SKey s)) m (cfg e)))) as [E3 E4].
  simpl in *. destruct (observe _ _) as [sb [stt changed]] eqn:Eo; simpl in *. subst stt.
  destruct changed; simpl.
  - rewrite keep_last_ok by lia. simpl. eexists _, _. split; [done|]. split.
    + split; simpl; try done; try lia; try congruence.
      * rewrite length_last_n. lia.
      * by rewrite last_last_n_snoc by lia.
    + right. split; [by apply E2|]. by eexists.
  - assert (stable sb = stable (stab st)) as Es.
    { destruct (decide (stable sb = stable (stab st))) as [|N]; [done|].
      apply E2 in N. done. }
    eexists _, _. split; [done|]. split; [|by left].
    split; simpl; try done; try lia; try congruence.
    by rewrite Es.
Qed.

(** Engines the server can reach: built by [New], then any sequence of the
    engine's operations. *)
Inductive reachable (c : Config) : Engine → Prop :=
| reach_new : reachable c (New c)
| reach_ingest e s now at_ e' evs :
    reachable c e → Ingest e s now at_ = Some (e', evs) → reachable c e'
| reach_forget e id : reachable c e → reachable c (Forget e id)
| reach_prune e now maxAge : reachable c e → reachable c (Prune e now maxAge)
| reach_recovering e id b : reachable c e → reachable c (SetRecovering e id b).

Lemma set_stream_wf e k st :
  engine_wf e → stream_wf (cfg e) st → engine_wf (set_stream e k st).
Proof.
  intros [Hh Hs] Hst. split; [done|]. intros k' st'. simpl.
  rewrite lookup_insert. case_decide; intros; simplify_eq; [done|by eapply Hs].
Qed.

Lemma engine_wf_sub e ss rec :
  engine_wf e → (∀ k st, ss !! k = Some st → streams e !! k = Some st) →
  engine_wf (mkEngine (cfg e) ss rec).
Proof. intros [Hh Hs] Hsub. split; [done|]. intros k st ?%Hsub. by eapply Hs. Qed.

Lemma reachable_wf c e : 1 ≤ HistorySize (cfg (New c)) → reachable c e → engine_wf e.
Proof.
  intros Hc. induction 1 as [|e s now at_ e' evs _ IH E|e id _ IH|e now maxAge _ IH|e id b _ IH].
  - by split.
  - destruct (Ingest_spec e s now at_ IH) as (st & evs' & E' & Hst & _).
    rewrite E' in E. simplify_eq. by apply set_stream_wf.
  - apply engine_wf_sub; [done|]. by intros k st [??]%map_lookup_filter_Some.
  - apply engine_wf_sub; [done|]. by intros k st [??]%map_lookup_filter_Some.
  - by apply engine_wf_sub.
Qed.

(** the engine never panics and stays within its memory bounds.  In every
    state reachable from [New] by ingesting samples, forgetting participants,
    pruning and marking recoveries, [Ingest] returns, every window holds at
    most [max 1 WindowSamples] samples, every history at most [HistorySize]
    points, and the published status is the stabilizer's, which is also the
    last point of the history. *)
Theorem engine_safe (c : Config) (e : Engine) :
  1 ≤ HistorySize (cfg (New c)) → reachable c e →
  engine_wf e ∧ ∀ s now at_, is_Some (Ingest e s now at_).
Proof.
  intros Hc Hr. pose proof (reachable_wf c e Hc Hr) as Hwf. split; [done|].
  intros s now at_. destruct (Ingest_spec e s now at_ Hwf) as (st & evs & -> & _). eauto.
Qed.

Lemma engine_safe_witness : engine_wf (Prune (New DefaultConfig) 10 5).
Proof.
  apply (engine_safe DefaultConfig).
  - vm_compute. discriminate.
  - apply reach_prune, reach_new.
Defined.

(** One sample causes at most one event, and exactly when the stable
    status of its own stream moves: the event carries the stream's identity,
    the old and the new status, is "degraded" exactly when a known status got
    worse, "recovered" only when it came back to GOOD, and every other stream
    is untouched. *)
Theorem Ingest_events (e : Engine) (s : Sample) (now at_ : Z) :
  engine_wf e →
  ∃ e' evs, Ingest e s now at_ = Some (e', evs) ∧
    let old := stable (stab (default (newStream (cfg e)) (streams e !! SKey s))) in
    (∃ st', streams e' !! SKey s = Some st' ∧
      match evs with
      | [] => stable (stab st') = old
      | [ev] => stable (stab st') ≠ old ∧ From ev = old ∧ EStatus ev = stable (stab st') ∧
                ParticipantID ev = Participant (SKey s) ∧ ETrackID ev = TrackID (SKey s) ∧
                (EType ev = EventDegraded ↔ 0 ≤ rank old < rank (stable (stab st'))) ∧
                (EType ev = EventRecovered ↔ old ≠ Unknown ∧ stable (stab st') = Good)
      | _ => False
      end) ∧
    ∀ k, k ≠ SKey s → streams e' !! k = streams e !! k.
Proof.
  intros Hwf. destruct (Ingest_spec e s now at_ Hwf) as (st & evs & E & _ & Hev).
  eexists _, _. split; [done|]. intros old. fold old in Hev.
  split; [|intros k Hk; simpl; by rewrite lookup_insert_ne].
  exists st. simpl. rewrite lookup_insert_eq. split; [done|].
  destruct Hev as [[? ->]|[Hne [v ->]]]; [done|].
  split; [done|]. repeat (split; [done|]). simpl.
  destruct old, (stable (stab st)); simpl; done || (split; split; intros; destruct_and?; done || lia).
Qed.

Definition audio_key : StreamKey := mkKey "alice" Outbound Audio "pub-1".

Definition sample_at (t : Z) (jitter : Z) : Sample :=
  mkSample audio_key SourceBrowser t None None None None None None None
           (Some (f_of_Z jitter)) None None None None None "" "".

Lemma Ingest_events_witness :
  is_Some (Ingest (New DefaultConfig) (sample_at 1 10) 0 0).
Proof.
  destruct (Ingest_events (New DefaultConfig) (sample_at 1 10) 0 0) as (e' & evs & E & _).
  - split; [vm_compute; discriminate|]. intros k st H. vm_compute in H. discriminate.
  - exists (e', evs). exact E.
Defined.

(** ** The overall verdict *)

Lemma overall_fold l base video :
  let f := λ '(base, video) s,
             match QKind s with
             | Audio => (worst base (QStatus s), video)
             | Video => (base, worst video (QStatus s))
             | Connection => (base, video)
             end in
  let audio := filter (λ s, QKind s = Audio) l in
  (foldl f (base, video) l).1 = foldl worst base (QStatus <$> audio) ∧
  (foldl f (base, video) l).2
  = foldl worst video (QStatus <$> filter (λ s, QKind s = Video) l).
Proof.
  revert base video. induction l as [|s l IH]; intros base video; [done|].
  cbn [foldl]. rewrite !filter_cons.
  destruct (QKind s) eqn:E; repeat case_decide; try done; csimpl; apply IH.
Qed.

Lemma foldl_worst_poor base l :
  foldl worst base l = Poor ↔ base = Poor ∨ Poor ∈ l.
Proof.
  revert base. induction l as [|s l IH]; intros base; simpl.
  - rewrite elem_of_nil. tauto.
  - rewrite IH, elem_of_cons. destruct base, s; naive_solver.
Qed.

Lemma overall_poor pq :
  overall pq = Poor ↔
    QStatus (PQConnection pq) = Poor ∨
    ∃ s, s ∈ PQOutbound pq ++ PQInbound pq ∧ QKind s = Audio ∧ QStatus s = Poor.
Proof.
  unfold overall.
  destruct (overall_fold (PQOutbound pq ++ PQInbound pq) (QStatus (PQConnection pq)) Unknown)
    as [E1 E2].
  destruct (foldl _ _ _) as [base video]; simpl in *. clear E2.
  trans (base = Poor).
  - case_decide as Hv; destruct base, video; simpl; naive_solver.
  - rewrite E1, foldl_worst_poor, list_elem_of_fmap. setoid_rewrite list_elem_of_filter.
    naive_solver.
Qed.

(** What makes a call POOR.  For any enumeration of the streams, the
    snapshot of a participant who is not recovering is POOR exactly when its
    connection or one of its audio streams is; video alone never is.  While a
    participant is recovering the snapshot is never POOR or UNKNOWN and says
    SESSION_RECOVERY. *)
Theorem Snapshot_overall (e : Engine) (order : list (StreamKey * streamState)) (id : string) :
  let pq := Snapshot e order id in
  (id ∉ recovering e →
     Overall pq = Poor ↔
       QStatus (PQConnection pq) = Poor ∨
       ∃ s, s ∈ PQOutbound pq ++ PQInbound pq ∧ QKind s = Audio ∧ QStatus s = Poor) ∧
  (id ∈ recovering e →
     (Overall pq = Good ∨ Overall pq = Warning) ∧ PQReason pq = "SESSION_RECOVERY"%string).
Proof.
  unfold Snapshot. split; intros Hr; case_decide; try done; simpl.
  - set (pq := mkPQ _ _ _ _ _ _ _). apply (overall_poor pq).
  - split; [|done]. case_decide as Ho; [by right|]. destruct (overall _); naive_solver.
Qed.

Lemma Snapshot_overall_witness :
  PQReason (Snapshot (SetRecovering (New DefaultConfig) "bob" true) [] "bob") = "SESSION_RECOVERY"%string.
Proof.
  apply (Snapshot_overall (SetRecovering (New DefaultConfig) "bob" true) [] "bob").
  vm_compute. reflexivity.
Defined.

(** ** Snapshots do not depend on the map iteration order *)

Lemma kind_string_inj k k' : kind_string k = kind_string k' → k = k'.
Proof. by destruct k, k'. Qed.

Lemma stream_less_asym a b : stream_less a b = true → stream_less b a = false.
Proof.
  unfold stream_less. destruct (QKind a), (QKind b); simpl; try done; apply str_lt_asym.
Qed.

Lemma stream_nless_trans a b c :
  stream_less b a = false → stream_less c b = false → stream_less c a = false.
Proof.
  unfold stream_less. destruct (QKind a), (QKind b), (QKind c); simpl; try done;
    apply str_nlt_trans.
Qed.

Lemma stream_less_total a b :
  (QKind a = QKind b ∧ QTrackID a = QTrackID b) ∨
  stream_less a b = true ∨ stream_less b a = true.
Proof.
  unfold stream_less. destruct (QKind a), (QKind b); simpl;
    try (right; left; reflexivity); try (right; right; reflexivity);
    destruct (str_lt_total (QTrackID a) (QTrackID b)) as [?|[?|?]]; auto.
Qed.

Definition conns (id : string) (l : list (StreamKey * streamState)) :=
  filter (λ '(k, _), Participant k = id ∧ KKind k = Connection) l.

Definition outs (id : string) (l : list (StreamKey * streamState)) :=
  filter (λ '(k, _), Participant k = id ∧ KKind k ≠ Connection ∧ KDirection k = Outbound) l.

Definition inns (id : string) (l : list (StreamKey * streamState)) :=
  filter (λ '(k, _), Participant k = id ∧ KKind k ≠ Connection ∧ KDirection k ≠ Outbound) l.

Definition sq (kv : StreamKey * streamState) : StreamQuality := streamQuality kv.1 kv.2.

Definition conn_view (id : string) (l : list (StreamKey * streamState)) :
    StreamQuality * list HistoryPoint :=
  match last (conns id l) with
  | Some (k, st) => (streamQuality k st, history st)
  | None => (PQConnection (snapshot_init id), [])
  end.

(** The loop of [Snapshot] in closed form. *)
Lemma snapshot_fold id l :
  foldl (snapshot_step id) (snapshot_init id) l
  = mkPQ id (conn_view id l).1 (sq <$> outs id l) (sq <$> inns id l) Unknown "" (conn_view id l).2.
Proof.
  induction l as [|[k st] l IH] using rev_ind; [done|].
  rewrite foldl_app, IH. unfold conn_view, conns, outs, inns. rewrite !filter_app, !fmap_app.
  cbn [foldl]. unfold snapshot_step. rewrite !filter_cons, !filter_nil.
  destruct (String.eqb_spec (Participant k) id) as [Hp|Hp]; cbn [negb].
  - destruct (decide (KKind k = Connection)) as [Hk|Hk];
      [|destruct (decide (KDirection k = Outbound)) as [Hd|Hd]];
      repeat case_decide; try tauto; cbn [fmap list_fmap]; rewrite ?app_nil_r, ?last_snoc; done.
  - repeat case_decide; try tauto; by rewrite !app_nil_r.
Qed.

(** Keys as the signaling bridge builds them ([sample_key]). *)
Definition keys_ok (e : Engine) : Prop :=
  ∀ k st, streams e !! k = Some st →
    match KKind k with
    | Connection => KDirection k = NoDirection ∧ TrackID k = ""%string
    | _ => KDirection k ≠ NoDirection
    end.

Lemma sample_key_ok p kd dir pub k :
  sample_key p kd dir pub = Some k →
  match KKind k with
  | Connection => KDirection k = NoDirection ∧ TrackID k = ""%string
  | _ => KDirection k ≠ NoDirection
  end.
Proof.
  unfold sample_key. intros H.
  repeat (case_match; simplify_option_eq; try done).
Qed.

Section order_independent.
Context (e : Engine) (l l' : list (StreamKey * streamState)) (id : string).
Hypothesis Hkeys : keys_ok e.
Hypothesis Hl : l ≡ₚ map_to_list (streams e).
Hypothesis Hl' : l' ≡ₚ map_to_list (streams e).

Lemma order_lookup k st : (k, st) ∈ l → streams e !! k = Some st.
Proof. rewrite Hl. apply elem_of_map_to_list. Qed.

Lemma conn_unique a b : a ∈ conns id l → b ∈ conns id l → a = b.
Proof.
  destruct a as [k st], b as [k' st']. unfold conns.
  rewrite !list_elem_of_filter.
  intros [[Hp Hk] Ha%order_lookup] [[Hp' Hk'] Hb%order_lookup].
  pose proof (Hkeys _ _ Ha) as Ka. rewrite Hk in Ka.
  pose proof (Hkeys _ _ Hb) as Kb. rewrite Hk' in Kb.
  destruct k, k'; simpl in *. destruct_and?. subst. congruence.
Qed.

Lemma conn_view_perm : conn_view id l = conn_view id l'.
Proof.
  assert (conns id l ≡ₚ conns id l') as Hp by (unfold conns; by rewrite Hl, Hl').
  unfold conn_view. destruct (last (conns id l)) as [[k st]|] eqn:E.
  - destruct (last (conns id l')) as [[k' st']|] eqn:E'.
    + apply last_Some_elem_of in E, E'. rewrite <- Hp in E'.
      pose proof (conn_unique _ _ E E'). by simplify_eq.
    + apply last_None in E'. rewrite E' in Hp. apply Permutation_nil_r in Hp.
      by rewrite Hp in E.
  - apply last_None in E. rewrite E in Hp. apply Permutation_nil_l in Hp. by rewrite <- Hp.
Qed.

Lemma side_sorted (P : StreamKey * streamState → Prop) `{!∀ x, Decision (P x)} dir :
  (∀ kv, P kv → kv ∈ l → Participant kv.1 = id ∧ KDirection kv.1 = dir) →
  sortStreams (sq <$> filter P l) = sortStreams (sq <$> filter P l').
Proof.
  intros HP. apply (sort_by_unique stream_less (λ _, True)).
  - eauto using stream_less_asym.
  - eauto using stream_nless_trans.
  - by apply list.Forall_forall.
  - by rewrite Hl, Hl'.
  - intros a b. rewrite !list_elem_of_fmap.
    intros ([k st] & -> & [Ha1 Ha2]%list_elem_of_filter) ([k' st'] & -> & [Hb1 Hb2]%list_elem_of_filter).
    destruct (stream_less_total (sq (k, st)) (sq (k', st'))) as [[Ek Et]|?]; [left|by right].
    pose proof (HP _ Ha1 Ha2) as [Hp Hd]. pose proof (HP _ Hb1 Hb2) as [Hp' Hd'].
    apply order_lookup in Ha2, Hb2. destruct k, k'; simpl in *. simplify_eq. done.
Qed.
End order_independent.

(** Snapshots are deterministic.  Go iterates the stream map in an
    arbitrary order, but as long as the keys are those the signaling bridge
    builds, any two iteration orders give the same snapshot: connection verdict,
    timeline, both sorted stream lists and the overall status. *)
Theorem Snapshot_deterministic (e : Engine) (l l' : list (StreamKey * streamState)) (id : string) :
  keys_ok e → l ≡ₚ map_to_list (streams e) → l' ≡ₚ map_to_list (streams e) →
  Snapshot e l id = Snapshot e l' id.
Proof.
  intros Hk Hl Hl'. unfold Snapshot. rewrite !snapshot_fold.
  rewrite (conn_view_perm e l l' id Hk Hl Hl'). cbn [PQOutbound PQInbound].
  unfold outs, inns.
  rewrite (side_sorted e l l' id Hl Hl' _ Outbound) by (intros [??] (?&_&?) _; done).
  rewrite (side_sorted e l l' id Hl Hl' _ Inbound); [done|].
  intros [k st] (Hp&Hc&Hd) Hin. apply (order_lookup e l Hl) in Hin. apply Hk in Hin.
  simpl in *. split; [done|]. destruct (KKind k), (KDirection k); naive_solver.
Qed.

Definition two_streams : Engine :=
  set_stream (set_stream (New DefaultConfig) (mkKey "bob" Outbound Video "pub-9") (newStream DefaultConfig))
             (mkKey "bob" NoDirection Connection "") (newStream DefaultConfig).

Lemma Snapshot_deterministic_witness :
  Snapshot two_streams (map_to_list (streams two_streams)) "bob"
  = Snapshot two_streams (reverse (map_to_list (streams two_streams))) "bob".
Proof.
  apply (Snapshot_deterministic two_streams).
  - intros k st H. simpl in H. apply lookup_insert_Some in H as [[<- _]|[_ H]]; [done|].
    by apply lookup_insert_Some in H as [[<- _]|[_ H]].
  - reflexivity.
  - apply reverse_Permutation.
Defined.
