(* ===== verification/SendQueue.v ===== *)
(** * A subscriber's send path (internal/sfu: sendqueue, subscription write loop)

    One subscription: the publisher's ingest loop pushes packets into a bounded
    queue, a single writer goroutine pops them, writes them to the subscriber's
    track and returns the buffer to the shared pool.  The pooled buffers are
    modelled as a heap of buffer ids, so aliasing (a buffer recycled while it is
    still queued or being written) is a possibility the theorems have to
    exclude.  Every operation runs under the queue's mutex, hence atomic; a
    [pop] that would wait on the condition variable is the result [PopWait].

    The abstract specification is [aqueue], a list of packets with a drop
    counter and a resync flag; [queue_refines] is the refinement. *)

From S2P Require Import Prelude.
From Stdlib Require Import Strings.Byte.

Abbreviation packet := (list byte).

(** ** State *)

(** src/internal/sfu/sendqueue.go:8-14 [queueKind] *)
Inductive queueKind :=
| queueKindAudio
| queueKindVideo.

#[export] Instance queueKind_eq_dec : EqDecision queueKind.
Proof. solve_decision. Defined.

(** src/internal/sfu/sendqueue.go:16-16 [maxRTPPacketSize] *)
Definition maxRTPPacketSize : nat := 1500.

(** src/internal/sfu/sendqueue.go:18-21 [rtpBufPool]  The pool: what each buffer
    currently holds, which buffers are free, and the next fresh id ([New]). *)
Record bufPool := mkPool {
  contents : gmap nat packet;
  free : list nat;
  fresh : nat
}.

(** src/internal/sfu/sendqueue.go:37-55 [sendQueue] *)
Record sendQueue := mkQueue {
  kind : queueKind;
  cap : Z;
  ring : list nat;
  closed : bool;
  resync : bool;
  dropCnt : Z
}.

(** The pipe: pool, queue, and the local state of the write loop: the packet it
    popped and has not released yet, its error streak, and whether it returned. *)
Record pipe := mkPipe {
  pool : bufPool;
  queue : sendQueue;
  held : option (nat * bool);
  streak : Z;
  exited : bool
}.

(** What the track's [Write] answers: success, [io.ErrClosedPipe], or another
    error. *)
Inductive write_result :=
| WriteOK
| WriteClosedPipe
| WriteError.

(** What the outside sees: drops reported to [onDrop], [Write] calls on the
    track with the answer they got, keyframe requests ([onResync]) and the fatal teardown ([onFatal]). *)
Inductive event :=
| Dropped (n : Z)
| Wrote (pkt : packet) (w : write_result)
| Resync
| Fatal.

Definition set_pool (p : bufPool) (s : pipe) : pipe := mkPipe p (queue s) (held s) (streak s) (exited s).

Definition set_queue (q : sendQueue) (s : pipe) : pipe := mkPipe (pool s) q (held s) (streak s) (exited s).

Definition set_loop (h : option (nat * bool)) (n : Z) (ex : bool) (s : pipe) : pipe :=
  mkPipe (pool s) (queue s) h n ex.

(** ** Operations *)

(** src/internal/sfu/sendqueue.go:23-29 [getBuf]  [copy] keeps what fits in the
    fixed-size buffer. *)
Definition getBuf (pkt : packet) : M pipe event nat := λ s,
  let p := pool s in
  match free p with
  | b :: rest =>
      (b, set_pool (mkPool (<[b := take maxRTPPacketSize pkt]> (contents p)) rest (fresh p)) s, [])
  | [] =>
      (fresh p, set_pool (mkPool (<[fresh p := take maxRTPPacketSize pkt]> (contents p)) []
                                 (S (fresh p))) s, [])
  end.

(** src/internal/sfu/sendqueue.go:31-35 [releaseBuf] *)
Definition releaseBuf (b : nat) : M pipe event unit :=
  modify (λ s, set_pool (mkPool (contents (pool s)) (b :: free (pool s)) (fresh (pool s))) s).

(** src/internal/sfu/sendqueue.go:57-64 [newSendQueue] *)
Definition newSendQueue (k : queueKind) (capacity : Z) : sendQueue :=
  mkQueue k (if capacity <? 1 then 1 else capacity) [] false false 0.

Definition with_ring (r : list nat) (q : sendQueue) : sendQueue :=
  mkQueue (kind q) (cap q) r (closed q) (resync q) (dropCnt q).

(** src/internal/sfu/sendqueue.go:78-97 [push: overflow] *)
Definition overflow : M pipe event unit :=
  s ← get;
  let q := queue s in
  if Z.of_nat (length (ring q)) >=? cap q then
    dropped ←
      (match kind q with
       | queueKindVideo =>
           for_each (ring q) releaseBuf;;
           modify (λ s, set_queue (mkQueue (kind q) (cap q) [] (closed q) true (dropCnt q)) s);;
           mret (Z.of_nat (length (ring q)))
       | queueKindAudio =>
           match ring q with
           | [] => mret 0
           | old :: rest =>
               releaseBuf old;;
               modify (λ s, set_queue (with_ring rest q) s);;
               mret 1
           end
       end : M pipe event Z);
    modify (λ s, set_queue (mkQueue (kind (queue s)) (cap (queue s)) (ring (queue s))
                  (closed (queue s)) (resync (queue s)) (dropCnt (queue s) + dropped)) s);;
    emit (Dropped dropped)
  else mret tt.

(** src/internal/sfu/sendqueue.go:66-100 [push] *)
Definition push (pkt : packet) : M pipe event unit :=
  bp ← getBuf pkt;
  q ← gets queue;
  if closed q then releaseBuf bp
  else
    overflow;;
    modify (λ s, set_queue (with_ring (ring (queue s) ++ [bp]) (queue s)) s).

(** src/internal/sfu/sendqueue.go:102-106 [pop: results] *)
Inductive pop_result :=
| PopWait
| PopClosed
| PopPacket (bp : nat) (rs : bool).

(** src/internal/sfu/sendqueue.go:106-120 [pop] *)
Definition pop : M pipe event pop_result :=
  q ← gets queue;
  match ring q with
  | [] => mret (if closed q then PopClosed else PopWait)
  | bp :: rest =>
      modify (λ s, set_queue (mkQueue (kind q) (cap q) rest (closed q) false (dropCnt q)) s);;
      mret (PopPacket bp (resync q))
  end.

(** src/internal/sfu/sendqueue.go:122-133 [close] *)
Definition close : M pipe event unit :=
  q ← gets queue;
  if closed q then mret tt
  else
    modify (λ s, set_queue (mkQueue (kind q) (cap q) (ring q) true (resync q) (dropCnt q)) s);;
    for_each (ring q) releaseBuf;;
    modify (λ s, set_queue (with_ring [] (queue s)) s).

(** ** The write loop *)

(** src/internal/sfu/subscription.go:8-8 [subWriteErrorBudget] *)
Definition subWriteErrorBudget : Z := 50.

(** src/internal/sfu/subscription.go:20-26 [runSubWriteLoop: pop]  The first
    half of a turn.  The queue's lock is released before the write, so other
    parties may act between the two halves. *)
Definition turn_pop : M pipe event unit :=
  r ← pop;
  match r with
  | PopWait => mret tt
  | PopClosed => modify (λ s, set_loop None (streak s) true s)
  | PopPacket bp rs => modify (λ s, set_loop (Some (bp, rs)) (streak s) (exited s) s)
  end.

(** src/internal/sfu/subscription.go:27-46 [runSubWriteLoop: write]  The second
    half: write, release, account for the error.  [w] is the writer's answer. *)
Definition turn_write (bp : nat) (rs : bool) (w : write_result) : M pipe event unit :=
  s ← get;
  emit (Wrote (default [] (contents (pool s) !! bp)) w);;
  releaseBuf bp;;
  match w with
  | WriteClosedPipe => modify (λ s, set_loop None (streak s) true s)
  | WriteError =>
      modify (λ s, set_loop None (streak s + 1) (exited s) s);;
      n ← gets streak;
      if n >=? subWriteErrorBudget then
        emit Fatal;; modify (λ s, set_loop None (streak s) true s)
      else mret tt
  | WriteOK =>
      modify (λ s, set_loop None 0 (exited s) s);;
      when rs (emit Resync)
  end.

(** The three parties: the ingest loop pushes, the writer goroutine advances by
    half a turn (unless it has returned), the teardown closes the queue. *)
Inductive action :=
| APush (pkt : packet)
| APop
| AWrite (w : write_result)
| AClose.

Definition act (a : action) : M pipe event unit :=
  match a with
  | APush pkt => push pkt
  | APop => s ← get;
            match held s with
            | Some _ => mret tt
            | None => if exited s then mret tt else turn_pop
            end
  | AWrite w => s ← get;
                match held s with
                | Some (bp, rs) => turn_write bp rs w
                | None => mret tt
                end
  | AClose => close
  end.

Definition run (l : list action) : M pipe event unit := for_each l act.

(** A subscription starts on a pool whose buffers are all free or fresh. *)
Definition start (k : queueKind) (capacity : Z) (p : bufPool) : pipe :=
  mkPipe p (newSendQueue k capacity) None 0 false.

(** ** The abstract specification

    No buffers, no pool: a list of packets, and what each party does to it. *)
Record aqueue := mkA {
  a_pkts : list packet;
  a_held : option (packet * bool);
  a_closed : bool;
  a_resync : bool;
  a_drops : Z;
  a_streak : Z;
  a_exited : bool
}.

(** Overflow: audio loses its oldest packet, video its whole backlog (and the
    consumer must resynchronise). *)
Definition a_keep (k : queueKind) (l : list packet) : list packet :=
  match k with queueKindAudio => tail l | queueKindVideo => [] end.

Definition a_push (k : queueKind) (capacity : Z) (pkt : packet) (a : aqueue) : aqueue * list event :=
  if a_closed a then (a, [])
  else if Z.of_nat (length (a_pkts a)) <? capacity then
    (mkA (a_pkts a ++ [take maxRTPPacketSize pkt]) (a_held a) (a_closed a) (a_resync a)
         (a_drops a) (a_streak a) (a_exited a), [])
  else
    let kept := a_keep k (a_pkts a) in
    let n := Z.of_nat (length (a_pkts a)) - Z.of_nat (length kept) in
    (mkA (kept ++ [take maxRTPPacketSize pkt]) (a_held a) (a_closed a)
         (match k with queueKindVideo => true | queueKindAudio => a_resync a end)
         (a_drops a + n) (a_streak a) (a_exited a), [Dropped n]).

Definition a_pop (a : aqueue) : aqueue * list event :=
  match a_held a, a_exited a, a_pkts a with
  | None, false, [] =>
      (mkA [] None (a_closed a) (a_resync a) (a_drops a) (a_streak a) (a_closed a), [])
  | None, false, p :: l =>
      (mkA l (Some (p, a_resync a)) (a_closed a) false (a_drops a) (a_streak a) false, [])
  | _, _, _ => (a, [])
  end.

Definition a_write (w : write_result) (a : aqueue) : aqueue * list event :=
  match a_held a with
  | None => (a, [])
  | Some (p, rs) =>
      let after n ex := mkA (a_pkts a) None (a_closed a) (a_resync a) (a_drops a) n ex in
      match w with
      | WriteOK => (after 0 (a_exited a), Wrote p w :: (if rs then [Resync] else []))
      | WriteClosedPipe => (after (a_streak a) true, [Wrote p w])
      | WriteError =>
          if a_streak a + 1 >=? subWriteErrorBudget
          then (after (a_streak a + 1) true, [Wrote p w; Fatal])
          else (after (a_streak a + 1) (a_exited a), [Wrote p w])
      end
  end.

Definition a_close (a : aqueue) : aqueue * list event :=
  (mkA (if a_closed a then a_pkts a else []) (a_held a) true (a_resync a) (a_drops a)
       (a_streak a) (a_exited a), []).

Definition a_act (k : queueKind) (capacity : Z) (x : action) (a : aqueue) : aqueue * list event :=
  match x with
  | APush pkt => a_push k capacity pkt a
  | APop => a_pop a
  | AWrite w => a_write w a
  | AClose => a_close a
  end.

Fixpoint a_run (k : queueKind) (capacity : Z) (l : list action) (a : aqueue) : aqueue * list event :=
  match l with
  | [] => (a, [])
  | x :: l =>
      let '(a1, w1) := a_act k capacity x a in
      let '(a2, w2) := a_run k capacity l a1 in
      (a2, w1 ++ w2)
  end.

Definition a_start : aqueue := mkA [] None false false 0 0 false.

(** The abstraction function: buffers are replaced by the bytes they hold. *)
Definition bytes_of (s : pipe) (b : nat) : packet := default [] (contents (pool s) !! b).

Definition view (s : pipe) : aqueue :=
  mkA (bytes_of s <$> ring (queue s)) (prod_map (bytes_of s) id <$> held s)
      (closed (queue s)) (resync (queue s)) (dropCnt (queue s)) (streak s) (exited s).

(** ** Buffer ownership

    Every buffer ever allocated has at most one owner: the free list, one slot
    of the ring, or the write loop. *)
Definition held_ids (s : pipe) : list nat := from_option (λ h, [fst h]) [] (held s).

Definition owned (s : pipe) : list nat := free (pool s) ++ ring (queue s) ++ held_ids s.

Definition ownership (s : pipe) : Prop :=
  NoDup (owned s) ∧ Forall (λ b, (b < fresh (pool s))%nat) (owned s).

Definition pool_ok (p : bufPool) : Prop :=
  NoDup (free p) ∧ Forall (λ b, (b < fresh p)%nat) (free p).

Definition queue_inv (s : pipe) : Prop :=
  ownership s ∧ 1 ≤ cap (queue s).

Lemma for_each_release l s :
  for_each l releaseBuf s =
  (tt, set_pool (mkPool (contents (pool s)) (rev l ++ free (pool s)) (fresh (pool s))) s, []).
Proof.
  revert s. induction l as [|b l IH]; intros s; [by destruct s as [[]]|].
  simpl. unfold mbind, M_bind. simpl. rewrite IH. simpl.
  unfold set_pool; simpl. by rewrite <- app_assoc.
Qed.

(** [getBuf] hands out a buffer nobody owns, holding the packet's bytes. *)
Lemma getBuf_fresh pkt s b s' w :
  ownership s → getBuf pkt s = (b, s', w) →
  w = [] ∧ queue s' = queue s ∧ held s' = held s ∧ streak s' = streak s ∧ exited s' = exited s ∧
  NoDup (b :: owned s') ∧ Forall (λ b, (b < fresh (pool s'))%nat) (b :: owned s') ∧
  bytes_of s' b = take maxRTPPacketSize pkt ∧ (∀ b', b' ≠ b → bytes_of s' b' = bytes_of s b').
Proof.
  intros [Hnd Hlt] E. unfold getBuf in E. unfold owned in *.
  destruct (free (pool s)) as [|f rest] eqn:Ef; simplify_eq/=.
  - split_and!; try done.
    + constructor; [|done]. rewrite list.Forall_forall in Hlt. intros Hin.
      apply Hlt in Hin. lia.
    + constructor; [lia|]. eapply Forall_impl; [done|]. simpl. lia.
    + unfold bytes_of; simpl. by rewrite lookup_insert_eq.
    + intros b' Hb'. unfold bytes_of; simpl. by rewrite lookup_insert_ne.
  - split_and!; try done.
    + unfold bytes_of; simpl. by rewrite lookup_insert_eq.
    + intros b' Hb'. unfold bytes_of; simpl. by rewrite lookup_insert_ne.
Qed.

Lemma bytes_of_map s s' (l : list nat) :
  (∀ b, b ∈ l → bytes_of s' b = bytes_of s b) → bytes_of s' <$> l = bytes_of s <$> l.
Proof. intros H. apply list_fmap_ext. intros i b Hb. apply H. by apply list_elem_of_lookup_2 in Hb. Qed.

(** Invariants about ownership only depend on the owned buffers as a multiset. *)
Lemma ownership_perm s s' :
  owned s ≡ₚ owned s' → fresh (pool s) = fresh (pool s') → ownership s → ownership s'.
Proof. unfold ownership. by intros -> ->. Qed.

(** What one action has to establish. *)
Definition refines_step (s : pipe) (r : unit * pipe * list event) (ar : aqueue * list event) : Prop :=
  (view r.1.2, r.2) = ar ∧ queue_inv r.1.2 ∧
  kind (queue r.1.2) = kind (queue s) ∧ cap (queue r.1.2) = cap (queue s).

(** The queue part of [push], entered with a buffer [b] nobody owns. *)
Definition enqueue (b : nat) : M pipe event unit :=
  q ← gets queue;
  if closed q then releaseBuf b
  else
    overflow;;
    modify (λ s, set_queue (with_ring (ring (queue s) ++ [b]) (queue s)) s).

Lemma refines_enqueue b s :
  NoDup (b :: owned s) → Forall (λ b, (b < fresh (pool s))%nat) (b :: owned s) → 1 ≤ cap (queue s) →
  take maxRTPPacketSize (bytes_of s b) = bytes_of s b →
  refines_step s (enqueue b s) (a_push (kind (queue s)) (cap (queue s)) (bytes_of s b) (view s)).
Proof.
  intros Hnd Hlt Hcap Htake.
  assert (Hown : ∀ s', b :: owned s ≡ₚ owned s' → fresh (pool s') = fresh (pool s) → ownership s').
  { intros s' E Ef. split; [by rewrite <- E|by rewrite <- E, Ef]. }
  destruct s as [[ct fr n] [k c r cl rs d] h st ex]; simpl in *.
  unfold enqueue, a_push, overflow, refines_step, mbind, M_bind, gets, get, modify, emit, mret, M_ret.
  simpl. destruct cl; simpl.
  { by split_and!. }
  rewrite length_fmap, Z.geb_leb.
  rewrite (Z.ltb_antisym c). destruct (c <=? Z.of_nat (length r)) eqn:Ec; simpl; zbool.
  - destruct k; simpl.
    + destruct r as [|old r]; simpl in *; [lia|].
      split; [|split; [split; [apply Hown; [|done]|done]|done]].
      * unfold view, bytes_of in *; simpl in *. rewrite fmap_app, !length_fmap, Htake. simpl.
        repeat f_equal; lia.
      * unfold owned; simpl. solve_Permutation.
    + rewrite for_each_release. simpl.
      split; [|split; [split; [apply Hown; [|done]|done]|done]].
      * unfold view, bytes_of in *; simpl in *. by rewrite Htake, Z.sub_0_r.
      * unfold owned; simpl. unfold held_ids; simpl. rewrite <- (Permutation_rev r). solve_Permutation.
  - split; [|split; [split; [apply Hown; [|done]|done]|done]].
    + unfold view, bytes_of in *; simpl in *. by rewrite fmap_app, Htake.
    + unfold owned; simpl. solve_Permutation.
Qed.

Lemma refines_push pkt s :
  queue_inv s → refines_step s (push pkt s) (a_push (kind (queue s)) (cap (queue s)) pkt (view s)).
Proof.
  intros [Hown Hcap]. 
  destruct (getBuf pkt s) as [[b s1] w1] eqn:E.
  destruct (getBuf_fresh _ _ _ _ _ Hown E) as (-> & Hq & Hh & Hs & Hx & Hnd & Hlt & Hb & Hoth).
  assert (Hring : bytes_of s1 <$> ring (queue s) = bytes_of s <$> ring (queue s)).
  { apply bytes_of_map. intros b' Hin. apply Hoth. intros ->.
    apply NoDup_cons in Hnd as [Hnin _]. apply Hnin. unfold owned. rewrite Hq. set_solver. }
  assert (Hheld : prod_map (bytes_of s1) id <$> held s = prod_map (bytes_of s) id <$> held s).
  { destruct (held s) as [[h rs]|] eqn:Eh; [|done]. simpl. unfold prod_map. simpl. do 2 f_equal.
    apply Hoth. intros ->. apply NoDup_cons in Hnd as [Hnin _]. apply Hnin.
    unfold owned, held_ids. rewrite Hh. set_solver. }
  assert (Hview : view s1 = view s).
  { unfold view. by rewrite Hq, Hh, Hs, Hx, Hring, Hheld. }
  pose proof (refines_enqueue b s1 Hnd Hlt) as Hen. rewrite Hq, Hview, Hb in Hen.
  specialize (Hen Hcap ltac:(by rewrite take_take, Nat.min_id)).
  unfold push, mbind at 1, M_bind at 1. rewrite E.
  change (refines_step s (let '(x, s2, w2) := enqueue b s1 in (x, s2, [] ++ w2))
    (a_push (kind (queue s)) (cap (queue s)) pkt (view s))).
  assert (a_push (kind (queue s)) (cap (queue s)) (take maxRTPPacketSize pkt) (view s)
          = a_push (kind (queue s)) (cap (queue s)) pkt (view s)) as Eq.
  { unfold a_push. by rewrite take_take, Nat.min_id. }
  rewrite Eq in Hen. destruct (enqueue b s1) as [[[] s2] w2]. simpl.
  unfold refines_step in *. by rewrite Hq in Hen.
Qed.

Lemma refines_pop s :
  queue_inv s → refines_step s (act APop s) (a_pop (view s)).
Proof.
  intros [Hown Hcap]. destruct s as [[ct fr n] [k c r cl rs d] h st ex]; simpl in *.
  unfold a_pop, refines_step, queue_inv. destruct h as [[h hrs]|]; [done|].
  destruct ex; [done|]. destruct r as [|b r]; [by destruct cl|].
  split; [done|]. split; [|done]. split; [|done].
  refine (ownership_perm _ _ _ _ Hown); [|done].
  unfold owned; simpl. solve_Permutation.
Qed.

Lemma refines_write w s :
  queue_inv s → refines_step s (act (AWrite w) s) (a_write w (view s)).
Proof.
  intros [Hown Hcap]. destruct s as [[ct fr n] [k c r cl rs d] h st ex]; simpl in *.
  unfold a_write, refines_step, queue_inv. destruct h as [[h hrs]|]; [|done].
  assert (∀ st' ex', ownership (mkPipe (mkPool ct (h :: fr) n) (mkQueue k c r cl rs d) None st' ex'))
    as Hown'.
  { intros. refine (ownership_perm _ _ _ _ Hown); [|done].
    unfold owned; simpl. solve_Permutation. }
  assert (∀ st' ex', queue_inv (mkPipe (mkPool ct (h :: fr) n) (mkQueue k c r cl rs d) None st' ex'))
    as Hinv by (intros; split; [apply Hown'|done]).
  destruct w; simpl.
  - destruct hrs; (split; [done|]); (split; [apply Hinv|done]).
  - split; [done|]. split; [apply Hinv|done].
  - unfold turn_write, releaseBuf, mbind, M_bind, modify, gets, get, emit. simpl.
    destruct (st + 1 >=? subWriteErrorBudget); (split; [done|]); (split; [apply Hinv|done]).
Qed.

Lemma refines_close s :
  queue_inv s → refines_step s (act AClose s) (a_close (view s)).
Proof.
  intros [Hown Hcap]. destruct s as [[ct fr n] [k c r cl rs d] h st ex]; simpl in *.
  unfold a_close, refines_step, queue_inv. destruct cl; [done|].
  unfold close, mbind, M_bind, gets, modify; simpl. rewrite for_each_release. simpl.
  split; [done|]. split; [|done]. split; [|done].
  refine (ownership_perm _ _ _ _ Hown); [|done].
  unfold owned; simpl. unfold held_ids; simpl. rewrite <- (Permutation_rev r). solve_Permutation.
Qed.

Lemma refines_act x s :
  queue_inv s → refines_step s (act x s) (a_act (kind (queue s)) (cap (queue s)) x (view s)).
Proof.
  destruct x.
  - apply refines_push.
  - apply refines_pop.
  - apply refines_write.
  - apply refines_close.
Qed.

Lemma refines_run l s :
  queue_inv s → refines_step s (run l s) (a_run (kind (queue s)) (cap (queue s)) l (view s)).
Proof.
  revert s. induction l as [|x l IH]; intros s Hs; [done|].
  simpl. unfold run, mbind, M_bind. simpl.
  destruct (refines_act x s Hs) as (E1 & Hi & Hk & Hc).
  unfold mbind, M_bind. destruct (act x s) as [[[] s1] w1]. simpl in *. rewrite <- E1.
  specialize (IH s1 Hi). rewrite Hk, Hc in IH. destruct IH as (E2 & Hi2 & Hk2 & Hc2).
  fold (run l). destruct (run l s1) as [[[] s2] w2]. simpl in *. rewrite <- E2.
  split; [done|]. split; [done|]. simpl. split; [by rewrite Hk2, Hk|by rewrite Hc2, Hc].
Qed.

Lemma start_inv k capacity p : pool_ok p → queue_inv (start k capacity p).
Proof.
  intros [H1 H2]. split; [|simpl; case_match; zbool; lia].
  split; unfold owned; simpl; by rewrite !app_nil_r.
Qed.

(** C5: the send path refines the abstract packet queue.  Whatever the
    interleaving of pushes, pops, writes and the close, and whatever is in the
    shared buffer pool, the events the pipe shows and the packets it still holds
    are those of a plain list of (truncated) packets with the drop policy of the
    queue's kind; no buffer is ever owned twice, so no packet can be overwritten
    while it is queued or being written. *)
Theorem queue_refines k capacity p l :
  pool_ok p →
  let r := run l (start k capacity p) in
  (view r.1.2, r.2) = a_run k (if capacity <? 1 then 1 else capacity) l a_start ∧ NoDup (owned r.1.2).
Proof.
  intros Hp. pose proof (start_inv k capacity p Hp) as Hs.
  destruct (refines_run l _ Hs) as (E & [[Hnd _] _] & _). simpl. by split.
Qed.

(** Three packets through a video queue of capacity two whose pool already holds
    a recycled buffer: the third push drops the backlog, and the write that
    follows asks for a keyframe. *)
Example queue_refines_witness :
  let p := mkPool {[0%nat := []]} [0%nat] 1 in
  let l := [APush ["a"%byte]; APush ["b"%byte]; APush ["c"%byte]; APop; AWrite WriteOK] in
  let r := run l (start queueKindVideo 2 p) in
  (view r.1.2, r.2) = a_run queueKindVideo 2 l a_start ∧ NoDup (owned r.1.2) ∧
  r.2 = [Dropped 2; Wrote ["c"%byte] WriteOK; Resync].
Proof.
  assert (pool_ok (mkPool {[0%nat := []]} [0%nat] 1)) as Hp.
  { split; simpl; repeat constructor; set_solver. }
  destruct (queue_refines queueKindVideo 2 _
    [APush ["a"%byte]; APush ["b"%byte]; APush ["c"%byte]; APop; AWrite WriteOK] Hp) as [H1 H2].
  split; [exact H1|]. split; [exact H2|]. vm_compute. reflexivity.
Defined.

(** ** Order, capacity and conservation *)

(** The packets the queue accepted: those pushed before it was closed. *)
Fixpoint accepted (l : list action) : list packet :=
  match l with
  | [] => []
  | AClose :: _ => []
  | APush pkt :: l => take maxRTPPacketSize pkt :: accepted l
  | _ :: l => accepted l
  end.

Definition written (w : list event) : list packet :=
  omap (λ e, match e with Wrote p _ => Some p | _ => None end) w.

Definition drops (w : list event) : Z :=
  foldr (λ e n, match e with Dropped d => d + n | _ => n end) 0 w.

Definition a_inflight (a : aqueue) : list packet := from_option (λ h, [fst h]) [] (a_held a).

(** [A] accepted so far, [W] written so far, [D] drops reported so far. *)
Definition fifo_inv (c : Z) (A W : list packet) (D : Z) (a : aqueue) : Prop :=
  (W ++ a_inflight a ++ a_pkts a) `sublist_of` A ∧
  (a_pkts a) `suffix_of` A ∧
  Z.of_nat (length (a_pkts a)) ≤ c ∧
  a_drops a = D ∧ 0 ≤ D ∧
  (a_closed a = false →
   Z.of_nat (length A) =
   Z.of_nat (length (W ++ a_inflight a ++ a_pkts a)) + a_drops a).

Lemma drops_app w1 w2 : drops (w1 ++ w2) = drops w1 + drops w2.
Proof. induction w1 as [|[] w1 IH]; simpl in *; lia. Qed.

Lemma written_app w1 w2 : written (w1 ++ w2) = written w1 ++ written w2.
Proof. apply omap_app. Qed.

Definition accepted_from (cl : bool) (l : list action) : list packet :=
  if cl then [] else accepted l.

Lemma a_keep_suffix k l : a_keep k l `suffix_of` l.
Proof. destruct k; simpl; [destruct l; simpl; solve_suffix|apply suffix_nil]. Qed.

Lemma fifo_keep (A W h l kept : list packet) p :
  (W ++ h ++ l) `sublist_of` A → l `suffix_of` A → kept `suffix_of` l →
  (W ++ h ++ kept ++ [p]) `sublist_of` (A ++ [p]) ∧ (kept ++ [p]) `suffix_of` (A ++ [p]).
Proof.
  intros Hsub Hsuf Hk. split; [|apply suffix_app; by etrans].
  rewrite !app_assoc. apply sublist_app; [|done]. etrans; [|exact Hsub].
  rewrite <- app_assoc. do 2 (apply sublist_app; [done|]).
  destruct Hk as [x ->]. by apply sublist_inserts_l.
Qed.

Lemma fifo_push c k pkt A W D a :
  1 ≤ c → fifo_inv c A W D a →
  fifo_inv c (A ++ accepted_from (a_closed a) [APush pkt])
    (W ++ written (a_push k c pkt a).2) (D + drops (a_push k c pkt a).2) (a_push k c pkt a).1.
Proof.
  intros Hc (Hsub & Hsuf & Hlen & HD & HD0 & Hcons).
  destruct a as [l h cl rs d st ex]. unfold fifo_inv, a_push, a_inflight in *; simpl in *.
  destruct cl; simpl.
  { rewrite !app_nil_r, Z.add_0_r. by split_and!. }
  specialize (Hcons eq_refl). rewrite !length_app in Hcons.
  destruct (Z.of_nat (length l) <? c) eqn:E; zbool; simpl; rewrite app_nil_r.
  - destruct (fifo_keep _ _ _ l l (take maxRTPPacketSize pkt) Hsub Hsuf ltac:(done)) as [H1 H2].
    split_and!; try done; rewrite ?length_app; simpl; lia.
  - pose proof (a_keep_suffix k l) as Hk.
    destruct (fifo_keep _ _ _ l _ (take maxRTPPacketSize pkt) Hsub Hsuf Hk) as [H1 H2].
    assert (length (a_keep k l) < length l)%nat as Hlt.
    { destruct k, l; simpl in *; lia. }
    split_and!; try done; rewrite ?length_app; simpl; lia.
Qed.

Lemma fifo_other c k x A W D a :
  (∀ pkt, x ≠ APush pkt) → fifo_inv c A W D a →
  fifo_inv c A (W ++ written (a_act k c x a).2) (D + drops (a_act k c x a).2) (a_act k c x a).1.
Proof.
  intros Hx (Hsub & Hsuf & Hlen & HD & HD0 & Hcons).
  destruct a as [l h cl rs d st ex], x as [pkt| |w| ]; [by destruct (Hx pkt)| | |];
    unfold fifo_inv, a_inflight in *; simpl in *.
  - unfold a_pop; simpl. destruct h as [h|], ex, l as [|p l]; simpl in *;
      rewrite app_nil_r, Z.add_0_r; try (by split_and!).
    split_and!; try done; [|lia]. by apply suffix_cons_l in Hsuf.
  - unfold a_write; simpl. destruct h as [[h hrs]|]; simpl in *;
      [|rewrite app_nil_r, Z.add_0_r; by split_and!].
    destruct w, hrs; try destruct (st + 1 >=? subWriteErrorBudget); simpl in *;
      rewrite <- ?app_assoc, ?Z.add_0_r; by split_and!.
  - rewrite app_nil_r, Z.add_0_r. split_and!; try done.
    + destruct cl; [done|]. rewrite app_nil_r. etrans; [|exact Hsub].
      rewrite app_assoc. apply sublist_inserts_r. done.
    + destruct cl; [done|]. apply suffix_nil.
    + destruct cl; simpl; lia.
Qed.

Lemma fifo_run c k l A W D a :
  1 ≤ c → fifo_inv c A W D a →
  fifo_inv c (A ++ accepted_from (a_closed a) l)
    (W ++ written (a_run k c l a).2) (D + drops (a_run k c l a).2) (a_run k c l a).1.
Proof.
  intros Hc. revert A W D a. induction l as [|x l IH]; intros A W D a Hi.
  { simpl. rewrite Z.add_0_r. destruct a as [? ? []]; simpl; by rewrite !app_nil_r. }
  simpl. destruct (a_act k c x a) as [a1 w1] eqn:E1.
  assert (fifo_inv c (A ++ accepted_from (a_closed a) [x]) (W ++ written w1) (D + drops w1) a1
    ∧ accepted_from (a_closed a) (x :: l) =
      accepted_from (a_closed a) [x] ++ accepted_from (a_closed a1) l) as [H1 Hacc].
  { destruct x as [pkt| |w| ].
    - pose proof (fifo_push c k pkt _ _ _ _ Hc Hi) as H. simpl in E1. rewrite E1 in H. split; [done|].
      unfold a_push in E1. destruct a as [? ? []]; simpl in *; [by simplify_eq|].
      destruct (_ <? c); by simplify_eq/=.
    - pose proof (fifo_other c k APop _ _ _ _ ltac:(done) Hi) as H. rewrite E1 in H.
      assert (a_closed a1 = a_closed a) as ->.
      { simpl in E1. unfold a_pop in E1. split_all. }
      destruct (a_closed a); simpl; by rewrite app_nil_r.
    - pose proof (fifo_other c k (AWrite w) _ _ _ _ ltac:(done) Hi) as H. rewrite E1 in H.
      assert (a_closed a1 = a_closed a) as ->.
      { simpl in E1. unfold a_write in E1. split_all. }
      destruct (a_closed a); simpl; by rewrite app_nil_r.
    - pose proof (fifo_other c k AClose _ _ _ _ ltac:(done) Hi) as H. rewrite E1 in H.
      simpl in E1. injection E1 as <- <-. destruct (a_closed a); simpl; by rewrite app_nil_r. }
  specialize (IH _ _ _ _ H1). rewrite Hacc.
  destruct (a_run k c l a1) as [a2 w2]. simpl in *.
  rewrite written_app, drops_app, Z.add_assoc, !app_assoc. exact IH.
Qed.

(** order, capacity and conservation on the send path.  At any moment of any
    interleaving: the queue holds at most [capacity] packets (at least 1); the
    packets handed to the subscriber's track, then the one in flight, then the
    queued ones form a subsequence of the packets accepted from the publisher, so
    nothing is reordered, duplicated or invented; what is queued is the most
    recent run of accepted packets; the drop counter is the sum of the reported
    drops; and until the queue is closed every accepted packet is written, in
    flight, queued or counted as dropped. *)
Theorem send_path_fifo k capacity p l :
  pool_ok p →
  let s := final (run l) (start k capacity p) in
  let w := outputs (run l) (start k capacity p) in
  let queued := bytes_of s <$> ring (queue s) in
  let inflight := bytes_of s <$> held_ids s in
  Z.of_nat (length queued) ≤ Z.max 1 capacity ∧
  (written w ++ inflight ++ queued) `sublist_of` accepted l ∧
  queued `suffix_of` accepted l ∧
  dropCnt (queue s) = drops w ∧
  (closed (queue s) = false →
   Z.of_nat (length (accepted l)) =
   Z.of_nat (length (written w)) + Z.of_nat (length inflight) +
   Z.of_nat (length queued) + dropCnt (queue s)).
Proof.
  intros Hp. destruct (refines_run l _ (start_inv k capacity p Hp)) as (E & _).
  simpl in E. unfold final, outputs. destruct (run l (start k capacity p)) as [[[] s] w].
  simpl in *.
  assert (fifo_inv (if capacity <? 1 then 1 else capacity) [] [] 0 a_start) as H0.
  { unfold fifo_inv; simpl. split_and!; try done. destruct (capacity <? 1) eqn:Ec; zbool; lia. }
  apply (fifo_run _ k l) in H0; [|destruct (capacity <? 1) eqn:Ec; zbool; lia].
  change (view (start k capacity p)) with a_start in E. rewrite <- E in H0.
  destruct H0 as (H1 & H2 & H3 & H4 & _ & H6). simpl in *.
  assert (a_inflight (view s) = bytes_of s <$> held_ids s) as Ef.
  { unfold a_inflight, held_ids. simpl. by destruct (held s) as [[]|]. }
  rewrite Ef, !length_app in *. split_and!; try done.
  - destruct (capacity <? 1) eqn:Ec; zbool; lia.
  - intros Hc. specialize (H6 Hc). lia.
Qed.

(** An audio queue of capacity two under five pushes, one full turn and a pop:
    the first and second packets are dropped, the rest stays in order. *)
Example send_path_fifo_witness :
  let p := mkPool ∅ [] 0 in
  let l := [APush ["a"%byte]; APush ["b"%byte]; APush ["c"%byte]; APop; AWrite WriteOK;
            APush ["d"%byte]; APush ["e"%byte]; APop] in
  let s := final (run l) (start queueKindAudio 2 p) in
  written (outputs (run l) (start queueKindAudio 2 p)) = [["b"%byte]] ∧
  (bytes_of s <$> ring (queue s)) = [["e"%byte]] ∧
  Z.of_nat (length (accepted l)) = 1 + 1 + 1 + dropCnt (queue s).
Proof.
  assert (pool_ok (mkPool ∅ [] 0)) as Hp by (split; simpl; constructor).
  pose proof (send_path_fifo queueKindAudio 2 _
    [APush ["a"%byte]; APush ["b"%byte]; APush ["c"%byte]; APop; AWrite WriteOK;
     APush ["d"%byte]; APush ["e"%byte]; APop] Hp) as (_ & _ & _ & _ & H).
  split; [vm_compute; reflexivity|]. split; [vm_compute; reflexivity|].
  etrans; [apply H|]; vm_compute; reflexivity.
Defined.

(** ** The write loop's error budget *)

(** Consecutive failed writes up to now: the answers other than success since the
    last success. *)
Definition bump (n : Z) (e : event) : Z :=
  match e with
  | Wrote _ WriteOK => 0
  | Wrote _ WriteError => n + 1
  | _ => n
  end.

Definition errors_in_a_row (w : list event) : Z := foldl bump 0 w.

Definition is_write (e : event) : bool := match e with Wrote _ _ => true | _ => false end.

(** [W] shown so far. *)
Definition loop_inv (W : list event) (a : aqueue) : Prop :=
  a_streak a = errors_in_a_row W ∧ 0 ≤ a_streak a ≤ subWriteErrorBudget ∧
  (a_exited a = true → a_held a = None) ∧
  (a_exited a = false → a_streak a < subWriteErrorBudget ∧ Fatal ∉ W) ∧
  (a_streak a = subWriteErrorBudget →
   ∃ W1 W2 p, W = W1 ++ [Wrote p WriteError; Fatal] ++ W2 ∧ Fatal ∉ W1 ++ W2 ∧
              Forall (λ e, is_write e = false) W2) ∧
  (a_streak a < subWriteErrorBudget → Fatal ∉ W).

Lemma errors_in_a_row_app w1 w2 :
  errors_in_a_row (w1 ++ w2) = foldl bump (errors_in_a_row w1) w2.
Proof. apply foldl_app. Qed.

(** An action that writes nothing and shows no [Fatal] keeps the invariant. *)
Lemma loop_quiet W a a' w :
  loop_inv W a → a_streak a' = a_streak a →
  (a_exited a' = true → a_held a' = None) → (a_exited a = true → a_exited a' = true) →
  Forall (λ e, is_write e = false) w → Fatal ∉ w → loop_inv (W ++ w) a'.
Proof.
  intros (H1 & H2 & H3 & H4 & H5 & H6) Es Hh Hx Hw Hf. unfold loop_inv. rewrite Es.
  assert (errors_in_a_row (W ++ w) = errors_in_a_row W) as ->.
  { rewrite errors_in_a_row_app. generalize (errors_in_a_row W) as n.
    induction Hw as [|e w He Hw IH]; intros n; [done|]. simpl. rewrite IH by set_solver.
    by destruct e. }
  split_and!; try done; try lia.
  - intros Ex. destruct (a_exited a) eqn:Ea; [by rewrite Hx in Ex|].
    destruct (H4 eq_refl). set_solver.
  - intros E. destruct (H5 E) as (W1 & W2 & p & -> & Hn & HF).
    exists W1, (W2 ++ w), p. split; [by rewrite <- !app_assoc|]. split; [set_solver|].
    by apply Forall_app.
  - intros E. specialize (H6 E). set_solver.
Qed.

Lemma loop_step k c x W a :
  loop_inv W a → loop_inv (W ++ (a_act k c x a).2) (a_act k c x a).1.
Proof.
  intros Hi. destruct x as [pkt| |w| ]; simpl.
  - apply (loop_quiet W a); try done; unfold a_push;
      destruct (a_closed a); simpl; try done; try apply Hi;
      try destruct (Z.of_nat (length (a_pkts a)) <? c); simpl; try done; try apply Hi;
      repeat constructor; set_solver.
  - apply (loop_quiet W a); try done; unfold a_pop;
      destruct a as [l [h|] cl rs d st []]; try destruct l; try destruct cl; simpl; try done;
      try apply Hi; try constructor; set_solver.
  - destruct Hi as (H1 & H2 & H3 & H4 & H5 & H6).
    destruct a as [l [[h hrs]|] cl rs d st ex]; unfold a_write; simpl in *;
      [|by rewrite app_nil_r].
    destruct ex; [by specialize (H3 eq_refl)|]. destruct (H4 eq_refl) as [H7 H8]. clear H3 H4 H5 H6.
    unfold subWriteErrorBudget in *.
    destruct w; simpl.
    + unfold loop_inv, subWriteErrorBudget; simpl. rewrite errors_in_a_row_app.
      destruct hrs; split_and!; intros; try done; try lia; try (split; [lia|]); set_solver.
    + unfold loop_inv, subWriteErrorBudget; simpl. rewrite errors_in_a_row_app.
      split_and!; intros; try done; try lia; set_solver.
    + unfold loop_inv, subWriteErrorBudget. destruct (st + 1 >=? 50) eqn:E; rewrite Z.geb_leb in E; zbool; simpl;
        rewrite errors_in_a_row_app; simpl.
      * split_and!; try done; try lia.
        intros _. exists W, [], h. split; [done|]. split; [by rewrite app_nil_r|]. constructor.
      * split_and!; intros; try done; try lia; try (split; [lia|]); set_solver.
  - apply (loop_quiet W a); try done; simpl; try apply Hi; try constructor; set_solver.
Qed.

Lemma loop_run k c l W a :
  loop_inv W a → loop_inv (W ++ (a_run k c l a).2) (a_run k c l a).1.
Proof.
  revert W a. induction l as [|x l IH]; intros W a Hi; simpl; [by rewrite app_nil_r|].
  pose proof (loop_step k c x W a Hi) as H. destruct (a_act k c x a) as [a1 w1]. simpl in H.
  specialize (IH _ _ H). destruct (a_run k c l a1) as [a2 w2]. simpl in *.
  by rewrite app_assoc.
Qed.

(** The write loop's error budget.  In any run, the loop's streak is the
    number of consecutive failed writes; the subscription is declared dead
    ([onFatal]) exactly when that number reaches 50, right after the write that
    failed, at most once, and nothing is written to the track afterwards. *)
Theorem write_loop_fatal k capacity p l :
  pool_ok p →
  let s := final (run l) (start k capacity p) in
  let w := outputs (run l) (start k capacity p) in
  streak s = errors_in_a_row w ∧ 0 ≤ streak s ≤ subWriteErrorBudget ∧
  (Fatal ∈ w ↔ streak s = subWriteErrorBudget) ∧
  (Fatal ∈ w → exited s = true ∧
   ∃ w1 w2 pkt, w = w1 ++ [Wrote pkt WriteError; Fatal] ++ w2 ∧ Fatal ∉ w1 ++ w2 ∧
                Forall (λ e, is_write e = false) w2).
Proof.
  intros Hp. destruct (refines_run l _ (start_inv k capacity p Hp)) as (E & _).
  simpl in E. unfold final, outputs. destruct (run l (start k capacity p)) as [[[] s] w].
  simpl in *.
  assert (loop_inv [] a_start) as H0.
  { unfold loop_inv, subWriteErrorBudget; simpl. split_and!; try done; set_solver. }
  apply (loop_run k (if capacity <? 1 then 1 else capacity) l) in H0.
  change (view (start k capacity p)) with a_start in E. rewrite <- E in H0.
  destruct H0 as (H1 & H2 & H3 & H4 & H5 & H6). simpl in *.
  assert (Fatal ∈ w → streak s = subWriteErrorBudget) as Hto.
  { intros HF. destruct (decide (streak s < subWriteErrorBudget)) as [Hlt|]; [|lia].
    by destruct (H6 Hlt). }
  split_and!; try done; try lia.
  - split; [done|]. intros Es. destruct (H5 Es) as (w1 & w2 & pk & -> & _). set_solver.
  - intros HF. split; [|by apply H5, Hto].
    destruct (exited s) eqn:Ex; [done|]. destruct (H4 eq_refl) as [_ ?]. done.
Qed.

(** Fifty failing writes: the last one is fatal. *)
Example write_loop_fatal_witness :
  let l := mjoin (replicate 50 [APush ["x"%byte]; APop; AWrite WriteError]) in
  let s := final (run l) (start queueKindVideo 8 (mkPool ∅ [] 0)) in
  let w := outputs (run l) (start queueKindVideo 8 (mkPool ∅ [] 0)) in
  Fatal ∈ w ∧ exited s = true.
Proof.
  assert (pool_ok (mkPool ∅ [] 0)) as Hp by (split; simpl; constructor).
  destruct (write_loop_fatal queueKindVideo 8 _
    (mjoin (replicate 50 [APush ["x"%byte]; APop; AWrite WriteError])) Hp) as (_ & _ & H1 & H2).
  assert (Fatal ∈ outputs (run (mjoin (replicate 50 [APush ["x"%byte]; APop; AWrite WriteError])))
    (start queueKindVideo 8 (mkPool ∅ [] 0))) as HF.
  { apply H1. vm_compute. reflexivity. }
  split; [exact HF|]. by apply H2.
Defined.

(** ** The keyframe request after a dropped backlog *)

(** Without a further overflow no resync flag can appear. *)
Lemma no_resync_act k c x a :
  a_resync a = false → from_option snd false (a_held a) = false →
  (∀ n, Dropped n ∉ (a_act k c x a).2) →
  Resync ∉ (a_act k c x a).2 ∧ a_resync (a_act k c x a).1 = false ∧
  from_option snd false (a_held (a_act k c x a).1) = false.
Proof.
  intros Hr Hh Hd. destruct a as [l h cl rs d st ex]; simpl in *; subst.
  destruct x as [pkt| |w| ]; simpl in *.
  - unfold a_push in *; simpl in *. destruct cl; [set_solver|].
    destruct (Z.of_nat (length l) <? c); simpl in *; [set_solver|]. exfalso. eapply Hd. constructor.
  - unfold a_pop in *; simpl in *. destruct h as [[]|], ex, l; simpl in *; set_solver.
  - unfold a_write in *; simpl in *. destruct h as [[hp hrs]|]; simpl in *; [|set_solver].
    subst. destruct w; try destruct (st + 1 >=? subWriteErrorBudget); simpl; set_solver.
  - set_solver.
Qed.

Lemma no_resync_run k c l a :
  a_resync a = false → from_option snd false (a_held a) = false →
  (∀ n, Dropped n ∉ (a_run k c l a).2) → Resync ∉ (a_run k c l a).2.
Proof.
  revert a. induction l as [|x l IH]; intros a Hr Hh Hd; simpl in *; [set_solver|].
  pose proof (no_resync_act k c x a Hr Hh) as H.
  destruct (a_act k c x a) as [a1 w1]. specialize (IH a1).
  destruct (a_run k c l a1) as [a2 w2]. simpl in *.
  destruct H as (H1 & H2 & H3); [set_solver|]. set_solver.
Qed.

Lemma outputs_run_cons x l s :
  outputs (run (x :: l)) s = outputs (act x) s ++ outputs (run l) (final (act x) s).
Proof.
  unfold outputs, final, run. simpl. unfold mbind, M_bind.
  destruct (act x s) as [[[] s1] w1]. simpl. by destruct (for_each l act s1) as [[[] s2] w2].
Qed.

(** A dropped backlog whose next write fails never gets its keyframe.  The
    queue raises its resync flag on a video overflow and hands it out on the next
    pop only; when that packet's write fails, the loop goes on without calling
    [onResync], and no later action asks for the keyframe unless the queue
    overflows again. *)
Theorem resync_lost_on_write_error s b l :
  queue_inv s → held s = Some (b, true) → resync (queue s) = false →
  let s1 := final (act (AWrite WriteError)) s in
  (∀ n, Dropped n ∉ outputs (run l) s1) →
  Resync ∉ outputs (run (AWrite WriteError :: l)) s.
Proof.
  intros Hs Hh Hr s1 Hd.
  destruct (refines_act (AWrite WriteError) s Hs) as (E1 & H1 & _).
  destruct (refines_run l _ H1) as (E2 & _).
  rewrite outputs_run_cons. fold s1. unfold s1, outputs, final in *. clear s1.
  destruct (act (AWrite WriteError) s) as [[[] s2] w1]. cbn [fst snd] in *.
  destruct (run l s2) as [[[] s3] w2]. cbn [fst snd] in *.
  assert (a_resync (view s2) = false ∧ a_held (view s2) = None ∧ Resync ∉ w1) as (Hr2 & Hh2 & Hw1).
  { unfold a_act, a_write in E1. cbn in E1. rewrite Hh in E1. cbn in E1.
    destruct (_ >=? _); apply pair_eq in E1 as [-> ->]; simpl; rewrite Hr; set_solver. }
  assert (Resync ∉ w2).
  { pose proof (no_resync_run (kind (queue s2)) (cap (queue s2)) l (view s2) Hr2) as H.
    rewrite Hh2, <- E2 in H. by apply H. }
  rewrite elem_of_app. intros [?|?]; contradiction.
Qed.

(** A video queue of capacity one overflows, the next write fails, and the three
    packets written successfully after it carry no keyframe request. *)
Example resync_lost_on_write_error_witness :
  let s0 := start queueKindVideo 1 (mkPool ∅ [] 0) in
  let s := final (run [APush ["a"%byte]; APush ["b"%byte]; APop]) s0 in
  let l := mjoin (replicate 3 [APush ["c"%byte]; APop; AWrite WriteOK]) in
  outputs (run [APush ["a"%byte]; APush ["b"%byte]; APop]) s0 = [Dropped 1] ∧
  Resync ∉ outputs (run (AWrite WriteError :: l)) s ∧
  outputs (run (AWrite WriteError :: l)) s =
  Wrote ["b"%byte] WriteError :: replicate 3 (Wrote ["c"%byte] WriteOK).
Proof.
  split; [vm_compute; reflexivity|]. split; [|vm_compute; reflexivity].
  apply (resync_lost_on_write_error _ 1%nat).
  - split; [|vm_compute; discriminate]. split; vm_compute; repeat constructor; set_solver.
  - vm_compute. reflexivity.
  - vm_compute. reflexivity.
  - intros n. vm_compute. set_solver.
Defined.
