(* ===== verification/ClusterTypes.v ===== *)
(** * Data of the cluster package (internal/cluster: node, errors)

    Node identity and lifecycle, the configuration with its validation, the
    error type with its HTTP mapping, and the records the stores share. *)

From S2P Require Import Prelude GoFloat.
From Stdlib Require Import Strings.Ascii.

(** ** Strings *)

(** [strings.TrimSpace(s) == ""]: the string consists of Unicode white space
    (in UTF-8) only. *)
Fixpoint all_blank (l : list N) : bool :=
  match l with
  | [] => true
  | c :: l1 =>
      if bool_decide (c ∈ [9; 10; 11; 12; 13; 32]%N) then all_blank l1
      else match l1 with
           | [] => false
           | d :: l2 =>
               if (c =? 194)%N && ((d =? 133)%N || (d =? 160)%N) then all_blank l2
               else match l2 with
                    | [] => false
                    | e :: l3 =>
                        if ((c =? 225)%N && (d =? 154)%N && (e =? 128)%N)
                           || ((c =? 226)%N && (d =? 128)%N
                               && ((128 <=? e)%N && (e <=? 138)%N
                                   || (e =? 168)%N || (e =? 169)%N || (e =? 175)%N))
                           || ((c =? 226)%N && (d =? 129)%N && (e =? 159)%N)
                           || ((c =? 227)%N && (d =? 128)%N && (e =? 128)%N)
                        then all_blank l3 else false
                    end
           end
  end.

Definition is_blank (s : string) : bool := all_blank (N_of_ascii <$> String.list_ascii_of_string s).

(** ** Node lifecycle *)

(** src/internal/cluster/node.go:29-38 [NodeState] *)
Inductive NodeState :=
| NodeStarting
| NodeReady
| NodeActive
| NodeShuttingDown
| NodeOffline.

#[export] Instance NodeState_eq_dec : EqDecision NodeState.
Proof. solve_decision. Defined.

(** src/internal/cluster/node.go:40-43 [AcceptsSessions] *)
Definition AcceptsSessions (s : NodeState) : bool :=
  match s with NodeReady | NodeActive => true | _ => false end.

(** src/internal/cluster/node.go:45-59 [NodeInfo] *)
Record NodeInfo := mkNodeInfo {
  ID : string;
  Host : string;
  Port : Z;
  Version : string;
  State : NodeState;
  StartedAt : Z;
  LastSeen : Z;
  MediaAddr : string
}.

#[export] Instance NodeInfo_eq_dec : EqDecision NodeInfo.
Proof. solve_decision. Defined.

(** [NodeInfo{ID: id}]. *)
Definition node_id_only (id : string) : NodeInfo := mkNodeInfo id "" 0 "" NodeStarting 0 0 "".

Definition with_state (st : NodeState) (n : NodeInfo) : NodeInfo :=
  mkNodeInfo (ID n) (Host n) (Port n) (Version n) st (StartedAt n) (LastSeen n) (MediaAddr n).

Definition with_started (t : Z) (n : NodeInfo) : NodeInfo :=
  mkNodeInfo (ID n) (Host n) (Port n) (Version n) (State n) t (LastSeen n) (MediaAddr n).

Definition with_seen (t : Z) (n : NodeInfo) : NodeInfo :=
  mkNodeInfo (ID n) (Host n) (Port n) (Version n) (State n) (StartedAt n) t (MediaAddr n).

(** ** Errors *)

(** src/internal/cluster/errors.go:3-13 [Error] *)
Record Error := mkError {
  Code : string;
  Message : string;
  err_NodeID : string;
  err_RoomID : string;
  err_ParticipantID : string
}.

(** [&Error{Code: c, Message: m}]. *)
Definition error (c m : string) : Error := mkError c m "" "" "".

(** src/internal/cluster/errors.go:17-73 [error codes] *)
Definition CodeRoomOnOtherNode : string := "ROOM_ON_OTHER_NODE".
Definition CodeNodeShuttingDown : string := "NODE_SHUTTING_DOWN".
Definition CodeClusterStateUnavailable : string := "CLUSTER_STATE_UNAVAILABLE".
Definition CodeClusterUnauthorized : string := "CLUSTER_UNAUTHORIZED".
Definition CodeBadRequest : string := "BAD_REQUEST".
Definition CodeNotFound : string := "NOT_FOUND".
Definition CodeClusterNodeNotFound : string := "CLUSTER_NODE_NOT_FOUND".
Definition CodeClusterNodeUnavailable : string := "CLUSTER_NODE_UNAVAILABLE".
Definition CodeClusterMessageInvalid : string := "CLUSTER_MESSAGE_INVALID".
Definition CodeClusterMessageTooLarge : string := "CLUSTER_MESSAGE_TOO_LARGE".
Definition CodeClusterMessageExpired : string := "CLUSTER_MESSAGE_EXPIRED".
Definition CodeClusterMessageDup : string := "CLUSTER_MESSAGE_DUPLICATE".
Definition CodeClusterTargetMismatch : string := "CLUSTER_TARGET_MISMATCH".
Definition CodeParticipantNotFound : string := "PARTICIPANT_NOT_FOUND".
Definition CodeMediaSessionNotFound : string := "MEDIA_SESSION_NOT_FOUND".
Definition CodeMediaSessionInvalid : string := "MEDIA_SESSION_INVALID".
Definition CodeMediaNodeUnavailable : string := "MEDIA_NODE_UNAVAILABLE".
Definition CodeMediaPacketTooLarge : string := "MEDIA_PACKET_TOO_LARGE".
Definition CodeMediaTransportClosed : string := "MEDIA_TRANSPORT_CLOSED".
Definition CodeRemoteTrackNotFound : string := "REMOTE_TRACK_NOT_FOUND".
Definition CodeNoCapacity : string := "NO_CAPACITY".
Definition CodeNodeStale : string := "NODE_STALE".
Definition CodeNodeOffline : string := "NODE_OFFLINE".
Definition CodeParticipantStale : string := "PARTICIPANT_STALE".
Definition CodeOwnershipConflict : string := "OWNERSHIP_CONFLICT".
Definition CodeAlreadyRecovered : string := "ALREADY_RECOVERED".
Definition CodeRecoveryDisabled : string := "RECOVERY_DISABLED".

(** src/internal/cluster/errors.go:75-97 [HTTPStatus] *)
Definition HTTPStatus (e : Error) : Z :=
  let has c := bool_decide (Code e = c) in
  if has CodeClusterMessageInvalid || has CodeBadRequest then 400
  else if has CodeClusterUnauthorized then 401
  else if has CodeParticipantNotFound || has CodeClusterNodeNotFound || has CodeNotFound then 404
  else if has CodeClusterTargetMismatch || has CodeOwnershipConflict then 409
  else if has CodeClusterMessageTooLarge then 413
  else if has CodeClusterMessageExpired then 400
  else if has CodeClusterNodeUnavailable || has CodeClusterStateUnavailable || has CodeNodeStale
          || has CodeNodeOffline || has CodeParticipantStale then 503
  else 500.

(** src/internal/cluster/errors.go:99-107 [RoomRemoteError] *)
Definition RoomRemoteError (roomID : string) (owner : NodeInfo) : Error :=
  mkError CodeRoomOnOtherNode "room is owned by another node" (ID owner) roomID "".

(** ** Configuration *)

(** src/internal/cluster/node.go:113-132 [RedisConfig]  The connection settings
    (address, password, database, prefix, pool) only reach the client library. *)
Record RedisConfig := mkRedis {
  redis_Enabled : bool;
  redis_Required : bool;
  redis_Timeout : Z;
  redis_NodeTTL : Z;
  redis_ParticipTTL : Z;
  redis_RoomTTL : Z
}.

(** src/internal/cluster/node.go:148-159 [CapacityConfig] *)
Record CapacityConfig := mkCapacity {
  MaxRooms : Z;
  MaxParticipants : Z;
  MaxPublications : Z;
  SoftLimitFraction : float64;
  HardLimitFraction : float64
}.

(** src/internal/cluster/node.go:134-146 [MediaConfig] *)
Record MediaConfig := mkMediaConfig {
  media_Enabled : bool;
  BindAddr : string;
  media_Port : Z;
  AdvertiseHost : string;
  media_RequestTimeout : Z;
  MaxPacketSize : Z;
  SessionTimeout : Z;
  media_HeartbeatInterval : Z;
  media_SendQueue : Z
}.

(** src/internal/cluster/node.go:70-111 [Config] *)
Record Config := mkConfig {
  Enabled : bool;
  cfg_NodeID : string;
  cfg_Host : string;
  cfg_Port : Z;
  cfg_Version : string;
  Secret : string;
  Peers : list string;
  HeartbeatInterval : Z;
  StaleAfter : Z;
  RequestTimeout : Z;
  MaxMessageSize : Z;
  MessageMaxAge : Z;
  MaxRetries : Z;
  LoadReportInterval : Z;
  Capacity : CapacityConfig;
  FailureCheckInterval : Z;
  FailureGracePeriod : Z;
  RecoveryConcurrency : Z;
  RecoveryDisabled : bool;
  Redis : RedisConfig
}.

(** The complaints [Validate] joins. *)
Inductive config_error :=
| SecretRequired
| HeartbeatNotPositive (got : Z)
| StaleNotAboveHeartbeat (stale heartbeat : Z).

(** src/internal/cluster/node.go:175-193 [Validate]  [errors.Join] of no error is
    nil, here the empty list. *)
Definition Validate (c : Config) : list config_error :=
  if negb (Enabled c) then []
  else
    (if is_blank (Secret c) then [SecretRequired] else [])
    ++ (if HeartbeatInterval c <=? 0 then [HeartbeatNotPositive (HeartbeatInterval c)] else [])
    ++ (if StaleAfter c <=? HeartbeatInterval c
        then [StaleNotAboveHeartbeat (StaleAfter c) (HeartbeatInterval c)] else []).

Lemma Validate_ok c :
  Enabled c = true → Validate c = [] →
  is_blank (Secret c) = false ∧ 0 < HeartbeatInterval c < StaleAfter c.
Proof.
  unfold Validate. intros ->. simpl. intros H.
  apply app_eq_nil in H as [H1 H]. apply app_eq_nil in H as [H2 H3].
  destruct (is_blank (Secret c)); [done|].
  destruct (_ <=? 0) eqn:E1; [done|]. destruct (StaleAfter c <=? _) eqn:E2; [done|].
  zbool. lia.
Qed.

(** src/internal/cluster/cluster.go:65-71 [staleFor] *)
Definition staleFor (cfg : Config) : Z :=
  let iv := if LoadReportInterval cfg <=? 0 then 2 * second else LoadReportInterval cfg in
  wrap64 (iv * 5).

(** ** Records held in the stores *)

(** src/internal/cluster/routing_participant_locator.go:5-12 [ParticipantLocation] *)
Record ParticipantLocation := mkLoc {
  loc_ParticipantID : string;
  loc_RoomID : string;
  loc_NodeID : string
}.

#[export] Instance ParticipantLocation_eq_dec : EqDecision ParticipantLocation.
Proof. solve_decision. Defined.

(** src/internal/cluster/health_load.go:8-22 [NodeLoad] *)
Record NodeLoad := mkLoad {
  load_NodeID : string;
  load_State : NodeState;
  Rooms : Z;
  Participants : Z;
  Publications : Z;
  Subscriptions : Z;
  CPUPercent : float64;
  MemoryBytes : Z;
  Goroutines : Z;
  ReportedAt : Z
}.
