(* ===== verification/Registry.v ===== *)
(** * The node registry (internal/cluster: registry)

    [InMemoryNodeRegistry]: a mutex-guarded map of nodes, with the clock reading
    of each call as an argument. *)

From S2P Require Import Prelude ClusterTypes.

(** src/internal/cluster/registry.go:32-40 [InMemoryNodeRegistry] *)
Record Registry := mkRegistry {
  staleAfter : Z;
  nodes : gmap string NodeInfo
}.

(** src/internal/cluster/registry.go:42-50 [NewInMemoryNodeRegistry] *)
Definition NewInMemoryNodeRegistry (stale : Z) : Registry := mkRegistry stale ∅.

Definition set_nodes (m : gmap string NodeInfo) (r : Registry) : Registry := mkRegistry (staleAfter r) m.

(** src/internal/cluster/registry.go:52-65 [Register] *)
Definition Register (now : Z) (node : NodeInfo) (r : Registry) : option Error * Registry :=
  if bool_decide (ID node = "") then (Some (error CodeBadRequest "node id is required"), r)
  else
    let node := match nodes r !! ID node with
                | Some existing => if StartedAt node =? 0 then with_started (StartedAt existing) node
                                   else node
                | None => node
                end in
    (None, set_nodes (<[ID node := with_seen now node]> (nodes r)) r).

(** src/internal/cluster/registry.go:67-71 [Unregister] *)
Definition Unregister (nodeID : string) (r : Registry) : Registry :=
  set_nodes (delete nodeID (nodes r)) r.

(** src/internal/cluster/registry.go:73-83 [Heartbeat] *)
Definition Heartbeat (now : Z) (nodeID : string) (r : Registry) : bool * Registry :=
  match nodes r !! nodeID with
  | None => (false, r)
  | Some node => (true, set_nodes (<[nodeID := with_seen now node]> (nodes r)) r)
  end.

(** src/internal/cluster/registry.go:85-90 [Get] *)
Definition Get (nodeID : string) (r : Registry) : option NodeInfo := nodes r !! nodeID.

Definition node_less (a b : NodeInfo) : bool := str_lt (ID a) (ID b).

(** src/internal/cluster/registry.go:92-101 [List] *)
Definition List (r : Registry) : list NodeInfo := sort_by node_less (snd <$> map_to_list (nodes r)).

(** src/internal/cluster/registry.go:103-110 [IsStale] *)
Definition IsStale (now : Z) (node : NodeInfo) (r : Registry) : bool :=
  if staleAfter r <=? 0 then false else time_sub now (LastSeen node) >? staleAfter r.

(** src/internal/cluster/registry.go:112-123 [Counts] *)
Definition Counts (now : Z) (r : Registry) : nat * nat * nat :=
  foldl (λ '(total, active, stale) n,
           if IsStale now n r then (S total, active, S stale)
           else if AcceptsSessions (State n) then (S total, S active, stale)
           else (S total, active, stale))
        (0%nat, 0%nat, 0%nat) (List r).

(** ** Well-formedness: entries are filed under their own, non-empty id *)

Definition registry_wf (r : Registry) : Prop :=
  ∀ id n, nodes r !! id = Some n → ID n = id ∧ id ≠ "".

Lemma wf_insert r id n :
  registry_wf r → ID n = id → id ≠ "" → registry_wf (set_nodes (<[id := n]> (nodes r)) r).
Proof.
  intros H E Hne id' n' L. simpl in L.
  destruct (decide (id' = id)) as [->|]; simplify_map_eq; [done|by apply H].
Qed.

Lemma Register_wf now n r : registry_wf r → registry_wf (Register now n r).2.
Proof.
  intros H. unfold Register. case_bool_decide as Hid; [done|]. simpl.
  destruct (nodes r !! ID n) as [ex|]; simpl; [destruct (StartedAt n =? 0); simpl|];
    by apply wf_insert.
Qed.

Lemma Unregister_wf id r : registry_wf r → registry_wf (Unregister id r).
Proof. intros H id' n L. simpl in L. apply lookup_delete_Some in L as [_ L]. by apply H. Qed.

Lemma Heartbeat_wf now id r : registry_wf r → registry_wf (Heartbeat now id r).2.
Proof.
  intros H. unfold Heartbeat. destruct (nodes r !! id) as [n|] eqn:E; simpl; [|done].
  destruct (H _ _ E). by apply wf_insert.
Qed.

Lemma List_perm r : List r ≡ₚ snd <$> map_to_list (nodes r).
Proof. apply sort_by_perm. Qed.

Lemma List_spec r n : registry_wf r → n ∈ List r ↔ nodes r !! ID n = Some n.
Proof.
  intros H. rewrite List_perm, list_elem_of_fmap. split.
  - intros ([id n'] & -> & Hin). apply elem_of_map_to_list in Hin. simpl.
    by destruct (H _ _ Hin) as [-> _].
  - intros L. exists (ID n, n). split; [done|]. by apply elem_of_map_to_list.
Qed.

(** Two registered nodes with the same id are the same. *)
Lemma List_inj r a b : registry_wf r → a ∈ List r → b ∈ List r → ID a = ID b → a = b.
Proof.
  intros H Ha Hb E. apply List_spec in Ha, Hb; [|done..]. rewrite E in Ha. congruence.
Qed.

Lemma List_NoDup r : registry_wf r → NoDup (ID <$> List r).
Proof.
  intros H. unfold List. rewrite sort_by_perm.
  assert (ID <$> (snd <$> map_to_list (nodes r)) = fst <$> map_to_list (nodes r)) as ->;
    [|apply NoDup_fst_map_to_list].
  rewrite <- list_fmap_compose. apply list_fmap_ext. intros i [id n] L. simpl.
  apply list_elem_of_lookup_2, elem_of_map_to_list in L. by apply H in L as [-> _].
Qed.

(** The order in which the map is walked does not show. *)
Lemma List_any_order r l :
  registry_wf r → l ≡ₚ snd <$> map_to_list (nodes r) → sort_by node_less l = List r.
Proof.
  intros H Hl. apply (sort_by_unique node_less (λ _, True)).
  - intros a b _ _. apply str_lt_asym.
  - intros a b c _ _ _. apply str_nlt_trans.
  - by apply list.Forall_true.
  - done.
  - intros a b Ha Hb.
    assert (a ∈ List r) as Ha' by (rewrite List_perm, <- Hl; done).
    assert (b ∈ List r) as Hb' by (rewrite List_perm, <- Hl; done).
    destruct (str_lt_total (ID a) (ID b)) as [E|[?|?]]; [|by auto..].
    left. by apply (List_inj r).
Qed.

(** ** Operation sequences *)

Inductive registry_op :=
| OpRegister (now : Z) (n : NodeInfo)
| OpUnregister (id : string)
| OpHeartbeat (now : Z) (id : string).

Definition registry_step (r : Registry) (o : registry_op) : Registry :=
  match o with
  | OpRegister now n => (Register now n r).2
  | OpUnregister id => Unregister id r
  | OpHeartbeat now id => (Heartbeat now id r).2
  end.

Definition registry_run (r : Registry) (l : list registry_op) : Registry := foldl registry_step r l.

Lemma registry_run_wf r l : registry_wf r → registry_wf (registry_run r l).
Proof.
  unfold registry_run. revert r. induction l as [|[] l IH]; intros r H; simpl; [done|..]; apply IH.
  - by apply Register_wf.
  - by apply Unregister_wf.
  - by apply Heartbeat_wf.
Qed.

Lemma registry_run_staleAfter r l : staleAfter (registry_run r l) = staleAfter r.
Proof.
  unfold registry_run. revert r. induction l as [|o l IH]; intros r; simpl; [done|].
  rewrite IH. destruct o; simpl; unfold Register, Heartbeat; by repeat case_match.
Qed.

Lemma Counts_sum now r :
  (Counts now r).1.1 = length (List r) ∧ ((Counts now r).1.2 + (Counts now r).2 ≤ length (List r))%nat.
Proof.
  unfold Counts. generalize (List r) as l. intros l.
  assert (∀ t a s, (a + s ≤ t)%nat →
    let c := foldl (λ '(total, active, stale) n,
           if IsStale now n r then (S total, active, S stale)
           else if AcceptsSessions (State n) then (S total, S active, stale)
           else (S total, active, stale)) (t, a, s) l in
    c.1.1 = (t + length l)%nat ∧ (c.1.2 + c.2 ≤ t + length l)%nat) as G.
  { induction l as [|n l IH]; intros t a s Hle; simpl; [lia|].
    destruct (IsStale now n r); [|destruct (AcceptsSessions (State n))];
      edestruct IH as [E1 E2]; try (rewrite E1; split; [lia|]; etrans; [exact E2|]; lia); lia. }
  apply (G 0%nat 0%nat 0%nat). lia.
Qed.

(** The last time a node announced itself, as the operations tell it. *)
Definition announce (id : string) (t : option Z) (o : registry_op) : option Z :=
  match o with
  | OpRegister now n => if bool_decide (ID n = id) then Some now else t
  | OpUnregister id' => if bool_decide (id' = id) then None else t
  | OpHeartbeat now id' => if bool_decide (id' = id) then t ≫= (λ _, Some now) else t
  end.

Lemma announce_step id r o t :
  id ≠ "" → LastSeen <$> nodes r !! id = t →
  LastSeen <$> nodes (registry_step r o) !! id = announce id t o.
Proof.
  intros Hid <-. destruct o as [now n|id'|now id']; simpl.
  - unfold Register. case_bool_decide as E1; simpl.
    + case_bool_decide; [congruence|done].
    + assert (∀ m, ID m = ID n → LastSeen <$> <[ID m := with_seen now m]> (nodes r) !! id =
        (if bool_decide (ID n = id) then Some now else LastSeen <$> nodes r !! id)) as Hm.
      { intros m ->. case_bool_decide as E2; [subst; by rewrite lookup_insert_eq|].
        by rewrite lookup_insert_ne. }
      destruct (nodes r !! ID n) as [ex|]; [destruct (StartedAt n =? 0)|]; by apply Hm.
  - case_bool_decide as E; [subst; by rewrite lookup_delete_eq|by rewrite lookup_delete_ne].
  - unfold Heartbeat. destruct (nodes r !! id') as [n|] eqn:L; simpl.
    + case_bool_decide as E; [subst; rewrite L, lookup_insert_eq; done|by rewrite lookup_insert_ne].
    + case_bool_decide as E; [subst; by rewrite L|done].
Qed.

Lemma announce_run id r l t :
  id ≠ "" → LastSeen <$> nodes r !! id = t →
  LastSeen <$> nodes (registry_run r l) !! id = foldl (announce id) t l.
Proof.
  intros Hid. unfold registry_run. revert r t.
  induction l as [|o l IH]; intros r t Ht; simpl; [done|].
  apply IH. by apply announce_step.
Qed.

(** The registry shows exactly who announced itself, and when.  After any
    sequence of registrations, removals and heartbeats: [List] is in id order,
    independent of the map's iteration order, without duplicates, and holds
    exactly the nodes [Get] finds; a node is known iff it registered and was not
    removed since, and its LastSeen is the time of its last registration or
    accepted heartbeat, so [IsStale] says precisely that this is longer ago than
    staleAfter; [Counts] is consistent with [List]. *)
Theorem registry_contract stale l now :
  let r := registry_run (NewInMemoryNodeRegistry stale) l in
  StronglySorted (not_after node_less) (List r) ∧ NoDup (ID <$> List r) ∧
  (∀ walk, walk ≡ₚ snd <$> map_to_list (nodes r) → sort_by node_less walk = List r) ∧
  (∀ n, n ∈ List r ↔ Get (ID n) r = Some n) ∧
  (∀ id, id ≠ "" → LastSeen <$> Get id r = foldl (announce id) None l) ∧
  (∀ id n, Get id r = Some n → 0 < stale < max_duration →
     (IsStale now n r = true ↔ ∃ t, foldl (announce id) None l = Some t ∧ now - t > stale)) ∧
  (Counts now r).1.1 = length (List r) ∧
  ((Counts now r).1.2 + (Counts now r).2 ≤ length (List r))%nat.
Proof.
  assert (registry_wf (NewInMemoryNodeRegistry stale)) as H0 by (intros id n L; by simplify_map_eq).
  pose proof (registry_run_wf _ l H0) as H. intros r.
  assert (∀ id, id ≠ "" → LastSeen <$> Get id r = foldl (announce id) None l) as Hann.
  { intros id Hid. by apply announce_run. }
  split_and!; try apply Counts_sum.
  - apply (sort_by_sorted node_less (λ _, True)).
    + intros a b _ _. apply str_lt_asym.
    + intros a b c _ _ _. apply str_nlt_trans.
    + by apply list.Forall_true.
  - by apply List_NoDup.
  - intros walk. by apply List_any_order.
  - intros n. by apply List_spec.
  - done.
  - intros id n Hg Hs. destruct (H _ _ Hg) as [_ Hid].
    specialize (Hann id Hid). rewrite Hg in Hann. simpl in Hann. rewrite <- Hann.
    unfold IsStale. unfold r at 1 2. rewrite registry_run_staleAfter. simpl.
    destruct (stale <=? 0) eqn:Es; zbool; [lia|].
    rewrite Z.gtb_gt.
    rewrite time_sub_gt by (unfold is_duration, min_duration; lia). naive_solver.
Qed.
