(* ===== verification/RoomLocator.v ===== *)
(** * Room ownership (internal/cluster: routing_room_locator)

    [RoomLocator] is the interface the rest of the cluster is proved against: the
    operations as a record, and, in [RoomLocatorLaws], what a backend promises
    about the ownership map it keeps.  A backend may be unreachable: [GetOwner]
    then answers "unknown", [ClaimOwner] answers with the empty owner, and
    nothing changes.  [InMemoryRoomLocator] is the instance of this file. *)

From S2P Require Import Prelude.

(** ** The interface *)

(** src/internal/cluster/routing_room_locator.go:31-47 [RecoverOutcome] *)
Inductive RecoverOutcome :=
| RecoverFailed
| RecoverConflict
| RecoverAlready
| RecoverOK.

#[export] Instance RecoverOutcome_eq_dec : EqDecision RecoverOutcome.
Proof. solve_decision. Defined.

(** src/internal/cluster/routing_room_locator.go:62-68 [RecoverResult] *)
Record RecoverResult := mkRecover {
  Outcome : RecoverOutcome;
  Owner : string;
  Generation : Z
}.

(** src/internal/cluster/routing_room_locator.go:5-29 [RoomLocator] *)
Class RoomLocator (L : Type) := {
  GetOwner : string → L → option string;
  ClaimOwner : string → string → L → string * bool * L;
  SetOwner : string → string → L → L;
  RemoveOwner : string → L → L;
  ReleaseOwner : string → string → L → bool * L;
  OwnedBy : string → L → list string;
  All : L → gmap string string;
  Ownership : string → L → option (string * Z);
  RecoverOwner : string → string → string → L → RecoverResult * L
}.

(** What a backend promises: [owners] is the authoritative map. *)
Class RoomLocatorLaws (L : Type) `{RoomLocator L} := {
  owners_of : L → gmap string string;
  law_get l r o : GetOwner r l = Some o → owners_of l !! r = Some o;
  law_all l r o : All l !! r = Some o → owners_of l !! r = Some o;
  law_ownership l r o g : Ownership r l = Some (o, g) → owners_of l !! r = Some o;
  law_claim_won l r n o l' :
    ClaimOwner r n l = (o, true, l') →
    o = n ∧ owners_of l !! r = None ∧ owners_of l' = <[r := n]> (owners_of l);
  law_claim_lost l r n o l' :
    ClaimOwner r n l = (o, false, l') →
    owners_of l' = owners_of l ∧ (o ≠ "" → owners_of l !! r = Some o);
  law_release l r n b l' :
    ReleaseOwner r n l = (b, l') →
    if b then owners_of l !! r = Some n ∧ owners_of l' = delete r (owners_of l)
    else owners_of l' = owners_of l;
  law_recover l r old new res l' :
    RecoverOwner r old new l = (res, l') →
    match Outcome res with
    | RecoverOK => owners_of l !! r = Some old ∧ owners_of l' = <[r := new]> (owners_of l)
    | RecoverAlready => owners_of l !! r = Some new ∧ owners_of l' = owners_of l
    | _ => owners_of l' = owners_of l
    end
}.

(** ** The in-memory locator *)

(** src/internal/cluster/routing_room_locator.go:84-97 [InMemoryRoomLocator] *)
Record InMemoryRoomLocator := mkLocator {
  owners : gmap string string;
  gens : gmap string Z;
  claims_seen : Z;
  conflicts_seen : Z
}.

(** src/internal/cluster/routing_room_locator.go:99-102 [NewInMemoryRoomLocator]
    The metric hooks [onClaim] and [onConflict] are the two counters. *)
Definition NewInMemoryRoomLocator : InMemoryRoomLocator := mkLocator ∅ ∅ 0 0.

Definition on_conflict (l : InMemoryRoomLocator) : InMemoryRoomLocator :=
  mkLocator (owners l) (gens l) (claims_seen l) (conflicts_seen l + 1).

Definition gen_of (l : InMemoryRoomLocator) (roomID : string) : Z := default 0 (gens l !! roomID).

(** src/internal/cluster/routing_room_locator.go:104-113 [Ownership] *)
Definition mem_Ownership (roomID : string) (l : InMemoryRoomLocator) : option (string * Z) :=
  match owners l !! roomID with
  | None => None
  | Some owner => Some (owner, gen_of l roomID)
  end.

(** src/internal/cluster/routing_room_locator.go:115-137 [RecoverOwner] *)
Definition mem_RecoverOwner (roomID oldOwner newOwner : string) (l : InMemoryRoomLocator) :
    RecoverResult * InMemoryRoomLocator :=
  match owners l !! roomID with
  | None => (mkRecover RecoverFailed "" 0, l)
  | Some cur =>
      if bool_decide (cur = newOwner) then (mkRecover RecoverAlready cur (gen_of l roomID), l)
      else if bool_decide (cur ≠ oldOwner) then
        (mkRecover RecoverConflict cur (gen_of l roomID), on_conflict l)
      else
        let g := wrap64 (gen_of l roomID + 1) in
        (mkRecover RecoverOK newOwner g,
         mkLocator (<[roomID := newOwner]> (owners l)) (<[roomID := g]> (gens l))
                   (claims_seen l) (conflicts_seen l))
  end.

(** src/internal/cluster/routing_room_locator.go:139-144 [GetOwner] *)
Definition mem_GetOwner (roomID : string) (l : InMemoryRoomLocator) : option string :=
  owners l !! roomID.

(** src/internal/cluster/routing_room_locator.go:146-160 [ClaimOwner] *)
Definition mem_ClaimOwner (roomID nodeID : string) (l : InMemoryRoomLocator) :
    string * bool * InMemoryRoomLocator :=
  match owners l !! roomID with
  | Some cur => (cur, false, if bool_decide (cur ≠ nodeID) then on_conflict l else l)
  | None =>
      (nodeID, true,
       mkLocator (<[roomID := nodeID]> (owners l)) (gens l) (claims_seen l + 1) (conflicts_seen l))
  end.

(** src/internal/cluster/routing_room_locator.go:162-166 [SetOwner] *)
Definition mem_SetOwner (roomID nodeID : string) (l : InMemoryRoomLocator) : InMemoryRoomLocator :=
  mkLocator (<[roomID := nodeID]> (owners l)) (gens l) (claims_seen l) (conflicts_seen l).

(** src/internal/cluster/routing_room_locator.go:168-173 [RemoveOwner] *)
Definition mem_RemoveOwner (roomID : string) (l : InMemoryRoomLocator) : InMemoryRoomLocator :=
  mkLocator (delete roomID (owners l)) (delete roomID (gens l)) (claims_seen l) (conflicts_seen l).

(** src/internal/cluster/routing_room_locator.go:175-184 [ReleaseOwner] *)
Definition mem_ReleaseOwner (roomID nodeID : string) (l : InMemoryRoomLocator) :
    bool * InMemoryRoomLocator :=
  match owners l !! roomID with
  | Some cur => if bool_decide (cur = nodeID) then (true, mem_RemoveOwner roomID l) else (false, l)
  | None => (false, l)
  end.

(** src/internal/cluster/routing_room_locator.go:186-196 [OwnedBy] *)
Definition mem_OwnedBy (nodeID : string) (l : InMemoryRoomLocator) : list string :=
  fst <$> filter (λ p, p.2 = nodeID) (map_to_list (owners l)).

(** src/internal/cluster/routing_room_locator.go:198-206 [All] *)
Definition mem_All (l : InMemoryRoomLocator) : gmap string string := owners l.

#[export] Instance InMemory_RoomLocator : RoomLocator InMemoryRoomLocator := {
  GetOwner := mem_GetOwner;
  ClaimOwner := mem_ClaimOwner;
  SetOwner := mem_SetOwner;
  RemoveOwner := mem_RemoveOwner;
  ReleaseOwner := mem_ReleaseOwner;
  OwnedBy := mem_OwnedBy;
  All := mem_All;
  Ownership := mem_Ownership;
  RecoverOwner := mem_RecoverOwner
}.

#[export] Instance InMemory_RoomLocatorLaws : RoomLocatorLaws InMemoryRoomLocator.
Proof.
  refine {| owners_of := owners |}; simpl.
  - done.
  - done.
  - unfold mem_Ownership. intros l r o g E. by destruct (owners l !! r); simplify_eq/=.
  - unfold mem_ClaimOwner. intros. by repeat case_match; simplify_eq/=.
  - unfold mem_ClaimOwner. intros. repeat case_match; simplify_eq/=; done.
  - unfold mem_ReleaseOwner. intros l r n b l' E.
    destruct (owners l !! r) as [cur|]; [case_bool_decide|]; by simplify_eq/=.
  - unfold mem_RecoverOwner. intros l r old new res l' E.
    destruct (owners l !! r) as [cur|] eqn:Ho; [|by simplify_eq/=].
    destruct (decide (cur = new)) as [->|Hn];
      [rewrite bool_decide_true in E by done; by simplify_eq/=|].
    rewrite (bool_decide_false (cur = new)) in E by done.
    destruct (decide (cur = old)) as [->|Hold].
    + rewrite bool_decide_false in E by (intros []; done). by simplify_eq/=.
    + rewrite bool_decide_true in E by done. by simplify_eq/=.
Defined.

(** ** Sequences of calls

    Every operation runs under the locator's lock, so a concurrent execution is
    some sequence of these steps. *)
Inductive locator_op :=
| OpClaim (roomID nodeID : string)
| OpRelease (roomID nodeID : string)
| OpRecover (roomID oldOwner newOwner : string).

Inductive locator_res :=
| Claimed (owner : string) (won : bool)
| Released (b : bool)
| Recovered (res : RecoverResult).

Section calls.
Context {L : Type} `{RoomLocatorLaws L}.

Definition locator_step (l : L) (o : locator_op) : locator_res * L :=
  match o with
  | OpClaim r n => let '(ow, c, l') := ClaimOwner r n l in (Claimed ow c, l')
  | OpRelease r n => let '(b, l') := ReleaseOwner r n l in (Released b, l')
  | OpRecover r old new => let '(res, l') := RecoverOwner r old new l in (Recovered res, l')
  end.

Fixpoint locator_run (l : L) (ops : list locator_op) : list locator_res * L :=
  match ops with
  | [] => ([], l)
  | o :: ops =>
      let '(r, l1) := locator_step l o in
      let '(rs, l2) := locator_run l1 ops in
      (r :: rs, l2)
  end.

(** Calls that can take the room away from [n]: its own release, and a recovery
    that names it as the dead owner. *)
Definition op_takes (room n : string) (o : locator_op) : Prop :=
  match o with
  | OpClaim _ _ => False
  | OpRelease r m => r = room ∧ m = n
  | OpRecover r old _ => r = room ∧ old = n
  end.

(** An owner stays the owner until such a call. *)
Lemma owner_stable_step l o room n :
  owners_of l !! room = Some n → ¬ op_takes room n o →
  owners_of (locator_step l o).2 !! room = Some n.
Proof.
  intros Hn Ht. destruct o as [r m|r m|r old new]; simpl in *.
  - destruct (ClaimOwner r m l) as [[ow []] l'] eqn:E; simpl.
    + apply law_claim_won in E as (_ & Hnone & ->).
      destruct (decide (r = room)) as [->|]; [congruence|by rewrite lookup_insert_ne].
    + by apply law_claim_lost in E as [-> _].
  - destruct (ReleaseOwner r m l) as [[] l'] eqn:E; apply law_release in E; simpl in *; [|by rewrite E].
    destruct E as [Ho ->]. rewrite lookup_delete_ne; [done|]. intros ->. apply Ht.
    split; [done|congruence].
  - destruct (RecoverOwner r old new l) as [res l'] eqn:E. apply law_recover in E. simpl.
    destruct (Outcome res); [by rewrite E..|by destruct E as [_ ->]|].
    destruct E as [Ho ->]. rewrite lookup_insert_ne; [done|]. intros ->. apply Ht.
    split; [done|congruence].
Qed.

Lemma owner_stable l ops room n :
  owners_of l !! room = Some n → Forall (λ o, ¬ op_takes room n o) ops →
  owners_of (locator_run l ops).2 !! room = Some n.
Proof.
  intros Hn Ht. revert l Hn. induction Ht as [|o ops Ho Ht IH]; intros l Hn; simpl; [done|].
  pose proof (owner_stable_step l o room n Hn Ho) as H1.
  destruct (locator_step l o) as [r l1]. specialize (IH l1 H1).
  by destruct (locator_run l1 ops).
Qed.
End calls.

(** ** At most one winner *)

Definition won (room : string) (p : locator_op * locator_res) : bool :=
  match p with
  | (OpClaim r _, Claimed _ true) => bool_decide (r = room)
  | _ => false
  end.

Definition wins (room : string) (ops : list locator_op) (rs : list locator_res) : nat :=
  length (filter (λ p, won room p = true) (zip ops rs)).

Section winners.
Context {L : Type} `{RoomLocatorLaws L}.

(** While an owner is stable, nobody else wins, and every answer about the room
    that names an owner names this one. *)
Lemma no_win_while_owned (l : L) ops room n :
  owners_of l !! room = Some n → Forall (λ o, ¬ op_takes room n o) ops →
  wins room ops (locator_run l ops).1 = 0%nat ∧
  ∀ i m ow c, ops !! i = Some (OpClaim room m) →
    (locator_run l ops).1 !! i = Some (Claimed ow c) → ow ≠ "" → ow = n.
Proof.
  intros Hn Ht. revert l Hn. induction Ht as [|o ops Ho Ht IH]; intros l Hn; [done|].
  pose proof (owner_stable_step l o room n Hn Ho) as H1. simpl.
  destruct (locator_step l o) as [res l1] eqn:E1. specialize (IH l1 H1).
  destruct (locator_run l1 ops) as [rs l2]. simpl in *. destruct IH as [IH1 IH2].
  assert (∀ m ow c, o = OpClaim room m → res = Claimed ow c → c = false ∧ (ow ≠ "" → ow = n)) as Hres.
  { intros m ow c -> ->. simpl in E1. destruct (ClaimOwner room m l) as [[ow' c'] l'] eqn:E.
    simplify_eq. destruct c.
    - apply law_claim_won in E as (_ & ? & _). congruence.
    - split; [done|]. intros Hne. apply law_claim_lost in E as [_ E]. specialize (E Hne). congruence. }
  split.
  - unfold wins in *. simpl. rewrite filter_cons_False; [done|]. unfold won.
    destruct o as [r m|r m|r old new]; [|done..]. destruct res as [ow []| |]; [|done..].
    case_bool_decide; [|done]. subst. destruct (Hres m ow true eq_refl eq_refl). done.
  - intros [|i] m ow c Hi Hr Hne; simpl in *; [|by eapply IH2].
    simplify_eq. by apply (Hres m ow c).
Qed.
End winners.

Definition op_room (o : locator_op) : string :=
  match o with OpClaim r _ | OpRelease r _ | OpRecover r _ _ => r end.

(** The node of the first claim of [room]. *)
Fixpoint first_claim (room : string) (ops : list locator_op) : option string :=
  match ops with
  | [] => None
  | OpClaim r n :: ops => if bool_decide (r = room) then Some n else first_claim room ops
  | _ :: ops => first_claim room ops
  end.

(** On this room the sequence only contains claims. *)
Definition only_claims (room : string) (o : locator_op) : Prop :=
  match o with OpClaim _ _ => True | _ => op_room o ≠ room end.

Lemma other_room_step (l : InMemoryRoomLocator) o room :
  op_room o ≠ room → owners (locator_step l o).2 !! room = owners l !! room.
Proof.
  destruct o as [r m|r m|r old new]; simpl; intros Hr.
  - unfold mem_ClaimOwner. destruct (owners l !! r); simpl; [by case_bool_decide|].
    by rewrite lookup_insert_ne.
  - unfold mem_ReleaseOwner. destruct (owners l !! r); simpl; [|done].
    case_bool_decide; simpl; [by rewrite lookup_delete_ne|done].
  - unfold mem_RecoverOwner. destruct (owners l !! r); simpl; [|done].
    case_bool_decide; simpl; [done|]. case_bool_decide; simpl; [done|]. by rewrite lookup_insert_ne.
Qed.

Lemma claims_keep_owner (l : InMemoryRoomLocator) ops room n :
  owners l !! room = Some n → Forall (only_claims room) ops →
  owners (locator_run l ops).2 !! room = Some n ∧
  ∀ i m, ops !! i = Some (OpClaim room m) → (locator_run l ops).1 !! i = Some (Claimed n false).
Proof.
  intros Hn Ht. revert l Hn. induction Ht as [|o ops Ho Ht IH]; intros l Hn; [done|].
  assert (owners (locator_step l o).2 !! room = Some n) as H1.
  { change (owners_of (locator_step l o).2 !! room = Some n). apply (owner_stable_step l o room n); [exact Hn|].
    destruct o; simpl in *; [tauto|intros [-> _]; done..]. }
  simpl. destruct (locator_step l o) as [res l1] eqn:E1. specialize (IH l1 H1).
  destruct (locator_run l1 ops) as [rs l2]. destruct IH as [IH1 IH2]. split; [done|].
  intros [|i] m Hi; simpl in *; [|by eapply IH2].
  simplify_eq. simpl in E1. unfold mem_ClaimOwner in E1. rewrite Hn in E1. by simplify_eq.
Qed.

(** C7: exactly one winner per room.  When any number of nodes claim an unowned
    room, in any order and interleaved with arbitrary calls on other rooms,
    exactly one claim wins, namely the first; every claimer is told that same
    owner, and it still owns the room at the end. *)
Theorem claim_exactly_one ops room n (l : InMemoryRoomLocator) :
  mem_GetOwner room l = None → Forall (only_claims room) ops → first_claim room ops = Some n →
  let rs := (locator_run l ops).1 in
  wins room ops rs = 1%nat ∧
  (∀ i m, ops !! i = Some (OpClaim room m) → ∃ c, rs !! i = Some (Claimed n c)) ∧
  mem_GetOwner room (locator_run l ops).2 = Some n.
Proof.
  unfold mem_GetOwner. revert l. induction ops as [|o ops IH]; intros l Hl Hall Hf; [done|].
  apply Forall_cons_1 in Hall as [Ho Hall].
  destruct (decide (op_room o = room)) as [E|E].
  - destruct o as [r m|r m|r old new]; simpl in *; [|done..]. subst r.
    rewrite bool_decide_true in Hf by done. simplify_eq.
    unfold mem_ClaimOwner. rewrite Hl.
    set (l1 := mkLocator _ _ _ _).
    assert (owners l1 !! room = Some n) as H1 by (simpl; by rewrite lookup_insert_eq).
    destruct (claims_keep_owner l1 ops room n H1 Hall) as [Hend Hans].
    destruct (no_win_while_owned l1 ops room n) as [Hno _]; [exact H1|..].
    { eapply Forall_impl; [done|]. intros [] Hx; simpl in *; [tauto|intros [-> _]; done..]. }
    destruct (locator_run l1 ops) as [rs l2]. simpl in *. split_and!; [|.. |done].
    + unfold wins in *. simpl. rewrite filter_cons_True; simpl; [by rewrite Hno|].
      by apply bool_decide_eq_true.
    + intros [|i] m Hi; simpl in *; [by eexists|]. eexists. by eapply Hans.
  - pose proof (other_room_step l o room E) as H1.
    assert (first_claim room ops = Some n) as Hf'.
    { destruct o; simpl in *; [|done..]. by rewrite bool_decide_false in Hf. }
    simpl. destruct (locator_step l o) as [res l1]. simpl in H1.
    destruct (IH l1) as (W & A & O); [congruence|done|done|].
    destruct (locator_run l1 ops) as [rs l2]. simpl in *. split_and!; [|.. |done].
    + unfold wins in *. simpl. rewrite filter_cons_False; [done|]. unfold won.
      destruct o as [r m| |]; [|done..]. destruct res as [ow []| |]; [|done..].
      by rewrite bool_decide_false.
    + intros [|i] m Hi; simpl in *; [simplify_eq; done|by eapply A].
Qed.

(** Three nodes race for a room while another room is claimed and released. *)
Example claim_exactly_one_witness :
  let ops := [OpClaim "other" "n2"; OpClaim "r" "n1"; OpClaim "r" "n2"; OpRelease "other" "n2";
              OpClaim "r" "n3"] in
  wins "r" ops (locator_run NewInMemoryRoomLocator ops).1 = 1%nat ∧
  mem_GetOwner "r" (locator_run NewInMemoryRoomLocator ops).2 = Some "n1"%string.
Proof.
  destruct (claim_exactly_one [OpClaim "other" "n2"; OpClaim "r" "n1"; OpClaim "r" "n2";
    OpRelease "other" "n2"; OpClaim "r" "n3"] "r" "n1" NewInMemoryRoomLocator) as (H1 & _ & H2).
  - reflexivity.
  - repeat constructor; discriminate.
  - reflexivity.
  - split; [exact H1|exact H2].
Defined.

(** One recovery per failure.  When several nodes try to recover the same
    room from the same dead owner, exactly one of them moves the ownership, the
    generation advances by one (mod 2^64) and no more, and the losers see the
    winner as the owner with the new generation: either because they are the
    winner calling again ("already") or as a conflict. *)
Theorem recover_exactly_one room dead new news (l : InMemoryRoomLocator) :
  mem_GetOwner room l = Some dead → dead ∉ new :: news →
  let g := wrap64 (gen_of l room + 1) in
  let '(rs, l') := locator_run l (OpRecover room dead <$> new :: news) in
  rs = Recovered (mkRecover RecoverOK new g)
       :: ((λ m, Recovered (mkRecover (if bool_decide (new = m) then RecoverAlready else RecoverConflict)
                                      new g)) <$> news) ∧
  mem_Ownership room l' = Some (new, g).
Proof.
  unfold mem_GetOwner. intros Hl Hd. apply not_elem_of_cons in Hd as [Hd Hds].
  csimpl. unfold mem_RecoverOwner at 1. rewrite Hl.
  rewrite (bool_decide_false (dead = new)) by done.
  rewrite bool_decide_false by (intros []; done).
  set (g := wrap64 _). set (l1 := mkLocator _ _ _ _).
  assert (owners l1 !! room = Some new ∧ gen_of l1 room = g) as [Ho Hg].
  { unfold gen_of; simpl. by rewrite !lookup_insert_eq. }
  clearbody l1. clearbody g. clear Hl l.
  assert (∀ (l1 : InMemoryRoomLocator), owners l1 !! room = Some new ∧ gen_of l1 room = g →
    let '(rs, l') := locator_run l1 (OpRecover room dead <$> news) in
    rs = ((λ m, Recovered (mkRecover (if bool_decide (new = m) then RecoverAlready else RecoverConflict)
                                      new g)) <$> news) ∧ mem_Ownership room l' = Some (new, g)) as G.
  { clear l1 Ho Hg. induction news as [|m news IH]; intros l1 [Ho Hg].
    { simpl. split; [done|]. unfold mem_Ownership. by rewrite Ho, Hg. }
    apply not_elem_of_cons in Hds as [Hm Hds]. csimpl. unfold mem_RecoverOwner at 1. rewrite Ho.
    destruct (decide (new = m)) as [->|Hne].
    - rewrite (bool_decide_true (m = m)) by done. specialize (IH Hds l1 (conj Ho Hg)).
      destruct (locator_run l1 _) as [rs l']. destruct IH as [-> Hown].
      by rewrite Hg.
    - rewrite (bool_decide_false (new = m)) by done. rewrite bool_decide_true by done.
      specialize (IH Hds (on_conflict l1) (conj Ho Hg)).
      destruct (locator_run (on_conflict l1) _) as [rs l']. destruct IH as [-> Hown].
      by rewrite Hg. }
  specialize (G l1 (conj Ho Hg)). destruct (locator_run l1 _) as [rs l']. by destruct G as [-> ->].
Qed.

Example recover_exactly_one_witness :
  let l := mkLocator {["r"%string := "dead"%string]} ∅ 0 0 in
  mem_Ownership "r" (locator_run l (OpRecover "r" "dead" <$> ["a"; "b"; "a"])).2 = Some ("a"%string, 1).
Proof.
  pose proof (recover_exactly_one "r" "dead" "a" ["b"; "a"]
    (mkLocator {["r"%string := "dead"%string]} ∅ 0 0)) as H.
  destruct H as [_ H]; [reflexivity|vm_compute; set_solver|exact H].
Defined.
