(* ===== verification/LoadStore.v ===== *)
(** * Participant location and node load (internal/cluster:
      routing_participant_locator, health_load)

    The two remaining in-memory stores, with the clock reading of each call as an
    argument, and the load reporter that fills one of them. *)

From S2P Require Import Prelude GoFloat ClusterTypes.

(** ** Participants *)

(** The locator is its map. *)
Abbreviation ParticipantLocator := (gmap string ParticipantLocation).

(** src/internal/cluster/routing_participant_locator.go:23-32 [NewInMemoryParticipantLocator] *)
Definition NewInMemoryParticipantLocator : ParticipantLocator := ∅.

(** src/internal/cluster/routing_participant_locator.go:34-38 [Register] *)
Definition RegisterLoc (loc : ParticipantLocation) (p : ParticipantLocator) : ParticipantLocator :=
  <[loc_ParticipantID loc := loc]> p.

(** src/internal/cluster/routing_participant_locator.go:40-44 [Remove] *)
Definition RemoveLoc (participantID : string) (p : ParticipantLocator) : ParticipantLocator :=
  delete participantID p.

(** src/internal/cluster/routing_participant_locator.go:46-51 [Lookup] *)
Definition Lookup (participantID : string) (p : ParticipantLocator) : option ParticipantLocation :=
  p !! participantID.

(** src/internal/cluster/routing_participant_locator.go:53-63 [InRoom] *)
Definition InRoom (roomID : string) (p : ParticipantLocator) : list ParticipantLocation :=
  filter (λ loc, loc_RoomID loc = roomID) (snd <$> map_to_list p).

(** src/internal/cluster/routing_participant_locator.go:65-75 [CountByNode] *)
Definition CountByNode (nodeID : string) (p : ParticipantLocator) : nat :=
  length (filter (λ loc, loc_NodeID loc = nodeID) (snd <$> map_to_list p)).

(** ** Loads and room assignments *)

(** src/internal/cluster/health_load.go:50-53 [assignEntry] *)
Record assignEntry := mkAssign { assign_nodeID : string; assign_exp : Z }.

(** src/internal/cluster/health_load.go:55-58 [loadEntry] *)
Record loadEntry := mkLoadEntry { entry_load : NodeLoad; load_exp : Z }.

(** src/internal/cluster/health_load.go:42-48 [InMemoryLoadStore] *)
Record LoadStore := mkLoadStore {
  loads : gmap string loadEntry;
  assign : gmap string assignEntry
}.

(** src/internal/cluster/health_load.go:60-62 [NewInMemoryLoadStore] *)
Definition NewInMemoryLoadStore : LoadStore := mkLoadStore ∅ ∅.

(** src/internal/cluster/health_load.go:64-72 [PutRoomAssignment] *)
Definition PutRoomAssignment (now : Z) (roomID nodeID : string) (ttl : Z) (s : LoadStore) : LoadStore :=
  let ttl := if ttl <=? 0 then 10 * second else ttl in
  mkLoadStore (loads s) (<[roomID := mkAssign nodeID (now + ttl)]> (assign s)).

(** src/internal/cluster/health_load.go:74-82 [RoomAssignment] *)
Definition RoomAssignment (now : Z) (roomID : string) (s : LoadStore) : option string :=
  match assign s !! roomID with
  | None => None
  | Some e => if now >? assign_exp e then None else Some (assign_nodeID e)
  end.

(** src/internal/cluster/health_load.go:84-92 [PublishLoad] *)
Definition PublishLoad (now : Z) (load : NodeLoad) (ttl : Z) (s : LoadStore) : LoadStore :=
  let ttl := if ttl <=? 0 then 6 * second else ttl in
  mkLoadStore (<[load_NodeID load := mkLoadEntry load (now + ttl)]> (loads s)) (assign s).

(** src/internal/cluster/health_load.go:94-105 [LoadSnapshot] *)
Definition LoadSnapshot (now : Z) (s : LoadStore) : list NodeLoad :=
  entry_load <$> filter (λ e, now < load_exp e) (snd <$> map_to_list (loads s)).

(** src/internal/cluster/health_load.go:107-112 [DeleteLoad] *)
Definition DeleteLoad (nodeID : string) (s : LoadStore) : LoadStore :=
  mkLoadStore (delete nodeID (loads s)) (assign s).

(** ** The load reporter *)

(** src/internal/cluster/health_load.go:122-135 [loadReporter] *)
Record loadReporter := mkReporter { interval : Z; rep_ttl : Z }.

(** src/internal/cluster/health_load.go:137-148 [newLoadReporter] *)
Definition newLoadReporter (iv : Z) : loadReporter :=
  let iv := if iv <=? 0 then 2 * second else iv in
  mkReporter iv (wrap64 (iv * 3)).

(** src/internal/cluster/health_load.go:164-180 [report]  [provider] is the
    signaling layer's callback, when it has been set. *)
Definition report (r : loadReporter) (now : Z) (self : NodeInfo) (provider : option NodeLoad)
    (s : LoadStore) : LoadStore :=
  let load := match provider with
              | Some p => mkLoad (ID self) (ClusterTypes.State self) (Rooms p) (Participants p)
                            (Publications p) (Subscriptions p) (CPUPercent p) (MemoryBytes p)
                            (Goroutines p) now
              | None => mkLoad (ID self) (ClusterTypes.State self) 0 0 0 0 (S754_zero false) 0 0 now
              end in
  PublishLoad now load (rep_ttl r) s.

(** ** Facts the router needs *)

(** Loads are filed under the id they carry. *)
Definition loads_wf (s : LoadStore) : Prop :=
  ∀ id e, loads s !! id = Some e → load_NodeID (entry_load e) = id.

Lemma PublishLoad_wf now l ttl s : loads_wf s → loads_wf (PublishLoad now l ttl s).
Proof.
  intros H id e L. simpl in L. destruct (decide (id = load_NodeID l)) as [->|]; simplify_map_eq; [done|].
  by apply H.
Qed.

Lemma report_wf r now self p s : loads_wf s → loads_wf (report r now self p s).
Proof. apply PublishLoad_wf. Qed.

Lemma DeleteLoad_wf id s : loads_wf s → loads_wf (DeleteLoad id s).
Proof. intros H id' e L. simpl in L. apply lookup_delete_Some in L as [_ L]. by apply H. Qed.

Lemma PutRoomAssignment_wf now r n ttl s : loads_wf s → loads_wf (PutRoomAssignment now r n ttl s).
Proof. done. Qed.

Lemma elem_of_LoadSnapshot now s l :
  loads_wf s →
  l ∈ LoadSnapshot now s ↔ ∃ e, loads s !! load_NodeID l = Some e ∧ entry_load e = l ∧ now < load_exp e.
Proof.
  intros H. unfold LoadSnapshot. rewrite list_elem_of_fmap. split.
  - intros (e & -> & Hin). apply list_elem_of_filter in Hin as [Hexp Hin].
    apply list_elem_of_fmap in Hin as ([id e'] & -> & Hin). apply elem_of_map_to_list in Hin.
    simpl in *. rewrite (H _ _ Hin). by eexists.
  - intros (e & L & <- & Hexp). exists e. split; [done|]. apply list_elem_of_filter. split; [done|].
    apply list_elem_of_fmap. eexists (_, e). split; [done|]. by apply elem_of_map_to_list.
Qed.

(** A fresh assignment is honoured for its whole time to live. *)
Lemma RoomAssignment_put now now' room n ttl s :
  0 < ttl → now ≤ now' ≤ now + ttl →
  RoomAssignment now' room (PutRoomAssignment now room n ttl s) = Some n.
Proof.
  intros Ht Hn. unfold RoomAssignment, PutRoomAssignment. simpl. rewrite lookup_insert_eq.
  rewrite (proj2 (Z.leb_gt ttl 0)) by lia. simpl.
  destruct (now' >? now + ttl) eqn:E; [|done]. rewrite Z.gtb_ltb in E. zbool. lia.
Qed.
