(* ===== verification/RoomRouter.v ===== *)
(** * Where a new room goes (internal/cluster: routing_roomrouter)

    The scoring policy and the router that filters the candidates.  A call sees
    one clock reading.  The router's own state is the [pending] map; the registry
    and the load store are the shared ones of [Registry] and [LoadStore].  Metric
    counters and log lines are left out. *)

From S2P Require Import Prelude GoFloat ClusterTypes Registry LoadStore.

(** ** Scoring *)

(** src/internal/cluster/routing_roomrouter.go:27-32 [LoadWeights] *)
Record LoadWeights := mkWeights {
  w_Participant : float64;
  w_Publication : float64;
  w_Subscription : float64;
  w_Room : float64
}.

(** src/internal/cluster/routing_roomrouter.go:34-36 [defaultLoadWeights] *)
Definition defaultLoadWeights : LoadWeights :=
  mkWeights (f_of_Z 1) (f_scale 1 (-1)) (f_scale 1 (-2)) (f_of_Z 2).

(** src/internal/cluster/routing_roomrouter.go:38-43 [score] *)
Definition score (w : LoadWeights) (l : NodeLoad) : float64 :=
  f_add (f_add (f_add (f_mul (f_of_Z (Participants l)) (w_Participant w))
                      (f_mul (f_of_Z (Publications l)) (w_Publication w)))
               (f_mul (f_of_Z (Subscriptions l)) (w_Subscription w)))
        (f_mul (f_of_Z (Rooms l)) (w_Room w)).

(** src/internal/cluster/routing_roomrouter.go:45-54 [LeastLoadedPolicy] *)
Record LeastLoadedPolicy := mkPolicy {
  Weights : LoadWeights;
  PreferLocalMargin : float64;
  LocalNodeID : string
}.

(** [w == LoadWeights{}]. *)
Definition zero_weights (w : LoadWeights) : bool :=
  let z := S754_zero false in
  f_eq (w_Participant w) z && f_eq (w_Publication w) z && f_eq (w_Subscription w) z && f_eq (w_Room w) z.

Definition effective_weights (p : LeastLoadedPolicy) : LoadWeights :=
  if zero_weights (Weights p) then defaultLoadWeights else Weights p.

Definition load_less (w : LoadWeights) (a b : NodeLoad) : bool :=
  let sa := score w a in
  let sb := score w b in
  if negb (f_eq sa sb) then f_lt sa sb else str_lt (load_NodeID a) (load_NodeID b).

Inductive reason := RLocal | RLeastLoaded | RAssigned.

(** src/internal/cluster/routing_roomrouter.go:56-85 [Select] *)
Definition Select (p : LeastLoadedPolicy) (candidates : list NodeLoad) : Error + NodeLoad * reason :=
  let w := effective_weights p in
  match sort_by (load_less w) candidates with
  | [] => inl (error CodeNoCapacity "no node is available to host a new room")
  | (best :: _) as sorted =>
      let local := if bool_decide (LocalNodeID p ≠ "")
                   then list_find (λ c, load_NodeID c = LocalNodeID p) sorted else None in
      match local with
      | Some (_, c) =>
          if f_le (score w c) (f_add (score w best) (PreferLocalMargin p)) then inr (c, RLocal)
          else inr (best, RLeastLoaded)
      | None => inr (best, RLeastLoaded)
      end
  end.

(** ** The router *)

(** src/internal/cluster/routing_roomrouter.go:110-113 [pendingCount] *)
Record pendingCount := mkPending { pend_n : Z; pend_seen : Z }.

(** src/internal/cluster/routing_roomrouter.go:91-108 [roomRouter] *)
Record roomRouter := mkRouter {
  policy : LeastLoadedPolicy;
  router_cap : CapacityConfig;
  loadStale : Z;
  pending : gmap string pendingCount
}.

(** src/internal/cluster/routing_roomrouter.go:115-127 [newRoomRouter] *)
Definition newRoomRouter (p : LeastLoadedPolicy) (c : CapacityConfig) (stale : Z) : roomRouter :=
  mkRouter p c (if stale <=? 0 then 10 * second else stale) ∅.

(** src/internal/cluster/routing_roomrouter.go:228-233 [exceeds] *)
Definition exceeds (current max : Z) (frac : float64) : bool :=
  if max <=? 0 then false else f_le (f_mul (f_of_Z max) frac) (f_of_Z current).

(** src/internal/cluster/routing_roomrouter.go:216-226 [overHardLimit] *)
Definition overHardLimit (r : roomRouter) (l : NodeLoad) : bool :=
  let c := router_cap r in
  let hard := if f_le (HardLimitFraction c) (S754_zero false) then f_of_Z 1 else HardLimitFraction c in
  exceeds (Rooms l) (MaxRooms c) hard || exceeds (Participants l) (MaxParticipants c) hard
  || exceeds (Publications l) (MaxPublications c) hard.

(** src/internal/cluster/routing_roomrouter.go:235-244 [applyPending] *)
Definition applyPending (r : roomRouter) (l : NodeLoad) : NodeLoad :=
  match pending r !! load_NodeID l with
  | None => l
  | Some pc =>
      mkLoad (load_NodeID l) (load_State l) (wrap64 (Rooms l + pend_n pc))
        (wrap64 (Participants l + pend_n pc)) (Publications l) (Subscriptions l) (CPUPercent l)
        (MemoryBytes l) (Goroutines l) (ReportedAt l)
  end.

(** src/internal/cluster/routing_roomrouter.go:246-258 [notePending] *)
Definition notePending (now : Z) (nodeID : string) (r : roomRouter) : roomRouter :=
  let pc := default (mkPending 0 0) (pending r !! nodeID) in
  let n := if time_sub now (pend_seen pc) >? 5 * second then 0 else pend_n pc in
  mkRouter (policy r) (router_cap r) (loadStale r)
    (<[nodeID := mkPending (wrap64 (n + 1)) now]> (pending r)).

(** src/internal/cluster/routing_roomrouter.go:260-266 [clearPending] *)
Definition clearPending (nodeID : string) (r : roomRouter) : roomRouter :=
  mkRouter (policy r) (router_cap r) (loadStale r) (delete nodeID (pending r)).

(** src/internal/cluster/routing_roomrouter.go:141-149 [SelectNode: byID]  The
    fresh reports by node. *)
Definition fresh_loads (r : roomRouter) (now : Z) (snap : list NodeLoad) : gmap string NodeLoad :=
  foldl (λ m l, if time_sub now (ReportedAt l) <=? loadStale r then <[load_NodeID l := l]> m else m)
        ∅ snap.

Definition empty_load (n : NodeInfo) : NodeLoad :=
  mkLoad (ID n) (ClusterTypes.State n) 0 0 0 0 (S754_zero false) 0 0 0.

(** src/internal/cluster/routing_roomrouter.go:153-171 [SelectNode: candidates] *)
Definition candidate (r : roomRouter) (now : Z) (reg : Registry) (byID : gmap string NodeLoad)
    (n : NodeInfo) : option NodeLoad :=
  if negb (AcceptsSessions (ClusterTypes.State n)) then None
  else if IsStale now n reg then None
  else
    let l := applyPending r (default (empty_load n) (byID !! ID n)) in
    if overHardLimit r l then None else Some l.

Definition candidates (r : roomRouter) (now : Z) (reg : Registry) (ls : LoadStore) : list NodeLoad :=
  omap (candidate r now reg (fresh_loads r now (LoadSnapshot now ls))) (List reg).

(** The state a selection reads and writes. *)
Record routing := mkRouting {
  rt_router : roomRouter;
  rt_reg : Registry;
  rt_loads : LoadStore
}.

(** src/internal/cluster/routing_roomrouter.go:129-214 [SelectNode]  [stateOK] is
    the answer of the router's health callback, [self] this node's id. *)
Definition SelectNode (now : Z) (stateOK : bool) (self roomID : string) (st : routing) :
    (Error + NodeInfo * reason) * routing :=
  if negb stateOK then
    (inl (mkError CodeClusterStateUnavailable "cannot route: cluster state unavailable" "" roomID ""), st)
  else
    let r := rt_router st in
    let reg := rt_reg st in
    let cs := candidates r now reg (rt_loads st) in
    match cs with
    | [] => (inl (mkError CodeNoCapacity "all nodes are at capacity or unavailable" "" roomID ""), st)
    | _ =>
        let assigned := a ← RoomAssignment now roomID (rt_loads st);
                        '(_, c) ← list_find (λ c, load_NodeID c = a) cs;
                        Some a in
        match assigned with
        | Some a =>
            let info := default (node_id_only "") (Get a reg) in
            let info := if bool_decide (ID info = "") then node_id_only a else info in
            (inr (info, RAssigned), st)
        | None =>
            let pol := mkPolicy (Weights (policy r)) (PreferLocalMargin (policy r)) self in
            match Select pol cs with
            | inl e => (inl e, st)
            | inr (chosen, why) =>
                let info := default (node_id_only (load_NodeID chosen)) (Get (load_NodeID chosen) reg) in
                (inr (info, why),
                 mkRouting (notePending now (load_NodeID chosen) r) reg
                   (PutRoomAssignment now roomID (load_NodeID chosen) (15 * second) (rt_loads st)))
            end
        end
    end.

(** ** The order on candidates *)

Section order.
Context (w : LoadWeights).

Definition scored (l : NodeLoad) : Prop := f_is_nan (score w l) = false.

Lemma load_less_spec a b :
  load_less w a b = true ↔
  (f_eq (score w a) (score w b) = false ∧ f_lt (score w a) (score w b) = true) ∨
  (f_eq (score w a) (score w b) = true ∧ str_lt (load_NodeID a) (load_NodeID b) = true).
Proof. unfold load_less. destruct (f_eq _ _); simpl; naive_solver. Qed.

Lemma load_less_lt a b :
  f_lt (score w a) (score w b) = true → load_less w a b = true.
Proof.
  intros H. apply load_less_spec. left. split; [|done].
  destruct (f_eq _ _) eqn:E; [|done]. apply f_eq_sym in E.
  pose proof (f_lt_eq_trans _ _ _ H E) as H'. by rewrite f_lt_irrefl in H'.
Qed.

Lemma load_less_asym a b : scored a → scored b → load_less w a b = true → load_less w b a = false.
Proof.
  intros _ _ H. apply not_true_iff_false. rewrite load_less_spec in H |- *.
  intros H'. destruct H as [[E L]|[E L]], H' as [[E' L']|[E' L']].
  - pose proof (f_lt_trans _ _ _ L L') as X. by rewrite f_lt_irrefl in X.
  - apply f_eq_sym in E'. congruence.
  - apply f_eq_sym in E. congruence.
  - apply str_lt_asym in L. congruence.
Qed.

(** "Not less" for scored candidates: a lower score, or the same and not a
    smaller id. *)
Lemma load_nless a b :
  scored a → scored b → load_less w b a = false ↔
  f_lt (score w a) (score w b) = true ∨
  (f_eq (score w a) (score w b) = true ∧ str_lt (load_NodeID b) (load_NodeID a) = false).
Proof.
  intros Ha Hb. split.
  - intros H. destruct (f_total _ _ Ha Hb) as [L|[E|L]]; [by left| |].
    + right. split; [done|]. apply not_true_iff_false. intros S.
      apply not_true_iff_false in H. apply H, load_less_spec. right. by split; [apply f_eq_sym|].
    + apply load_less_lt in L. congruence.
  - intros [L|[E S]]; [by apply load_less_asym, load_less_lt|].
    apply not_true_iff_false. rewrite load_less_spec. intros [[E' L]|[E' S']]; [|congruence].
    apply f_eq_sym in E. congruence.
Qed.

Lemma load_nless_trans a b c :
  scored a → scored b → scored c →
  load_less w b a = false → load_less w c b = false → load_less w c a = false.
Proof.
  intros Ha Hb Hc. rewrite !load_nless by done.
  intros [L1|[E1 S1]] [L2|[E2 S2]].
  - left. by eapply f_lt_trans.
  - left. by eapply f_lt_eq_trans.
  - left. by eapply f_eq_lt_trans.
  - right. split; [by eapply f_eq_trans|]. by eapply str_nlt_trans.
Qed.

Lemma load_less_total a b :
  scored a → scored b → load_NodeID a ≠ load_NodeID b →
  load_less w a b = true ∨ load_less w b a = true.
Proof.
  intros Ha Hb Hne. destruct (f_total _ _ Ha Hb) as [L|[E|L]].
  - left. by apply load_less_lt.
  - destruct (str_lt_total (load_NodeID a) (load_NodeID b)) as [?|[S|S]]; [done| |].
    + left. apply load_less_spec. by right.
    + right. apply load_less_spec. right. by split; [apply f_eq_sym|].
  - right. by apply load_less_lt.
Qed.
End order.

(** With the default weights every non-negative load has a score. *)
Definition load_nonneg (l : NodeLoad) : Prop :=
  0 ≤ Participants l ∧ 0 ≤ Publications l ∧ 0 ≤ Subscriptions l ∧ 0 ≤ Rooms l.

Lemma scored_default l : load_nonneg l → scored defaultLoadWeights l.
Proof.
  intros (H1 & H2 & H3 & H4). apply f_nonneg_not_nan. unfold score, defaultLoadWeights.
  assert (∃ m e, f_of_Z 1 = S754_finite false m e) as (m1 & e1 & E1) by (vm_compute; eauto).
  assert (∃ m e, f_scale 1 (-1) = S754_finite false m e) as (m2 & e2 & E2) by (vm_compute; eauto).
  assert (∃ m e, f_scale 1 (-2) = S754_finite false m e) as (m3 & e3 & E3) by (vm_compute; eauto).
  assert (∃ m e, f_of_Z 2 = S754_finite false m e) as (m4 & e4 & E4) by (vm_compute; eauto).
  cbn [w_Participant w_Publication w_Subscription w_Room]. rewrite E1, E2, E3, E4.
  repeat apply f_add_nonneg; apply f_mul_nonneg; by apply f_of_Z_nonneg.
Qed.

(** ** The policy *)

Lemma Select_head p cs best rest :
  sort_by (load_less (effective_weights p)) cs = best :: rest →
  ∃ c why, Select p cs = inr (c, why) ∧ c ∈ cs ∧
    match why with
    | RLeastLoaded => c = best
    | RLocal => load_NodeID c = LocalNodeID p ∧
        f_le (score (effective_weights p) c)
             (f_add (score (effective_weights p) best) (PreferLocalMargin p)) = true
    | RAssigned => False
    end.
Proof.
  intros E. unfold Select. rewrite E.
  assert (∀ x, x ∈ best :: rest → x ∈ cs) as Hin by (intros x; by rewrite <- E, sort_by_perm).
  destruct (if bool_decide _ then _ else None) as [[i c]|] eqn:F.
  - case_bool_decide; [|done]. apply list_find_Some in F as (L & Hid & _).
    apply list_elem_of_lookup_2 in L.
    destruct (f_le _ _) eqn:Le; eexists _, _; (split; [done|]); (split; [apply Hin; set_solver|done]).
  - eexists _, _. split; [done|]. split; [apply Hin; set_solver|done].
Qed.

(** the placement policy picks a least-loaded node and every node of the
    cluster picks the same one.  For candidates with distinct ids whose scores are
    numbers: [Select] succeeds, the choice does not depend on the order of the
    candidates, and it is either a candidate of minimal score, or the local node
    whose score is within the preference margin of the minimum. *)
Theorem Select_least_loaded p cs :
  let w := effective_weights p in
  cs ≠ [] → Forall (scored w) cs → NoDup (load_NodeID <$> cs) →
  ∃ c why, Select p cs = inr (c, why) ∧ c ∈ cs ∧
    (∀ cs', cs' ≡ₚ cs → Select p cs' = Select p cs) ∧
    match why with
    | RLeastLoaded => ∀ d, d ∈ cs → f_le (score w c) (score w d) = true
    | RLocal => load_NodeID c = LocalNodeID p ∧
        ∃ best, best ∈ cs ∧ (∀ d, d ∈ cs → f_le (score w best) (score w d) = true) ∧
          f_le (score w c) (f_add (score w best) (PreferLocalMargin p)) = true
    | RAssigned => False
    end.
Proof.
  intros w Hne Hs Hnd.
  destruct (sort_by (load_less w) cs) as [|best rest] eqn:E.
  { apply (f_equal length) in E. rewrite sort_by_perm in E. by destruct cs. }
  destruct (sort_by_head (load_less w) (scored w) (load_less_asym w) (load_nless_trans w)
    cs best rest Hs E) as [Hbest Hmin].
  rewrite list.Forall_forall in Hs.
  assert (∀ d, d ∈ cs → f_le (score w best) (score w d) = true) as Hle.
  { intros d Hd. rewrite f_le_lt_eq. apply orb_true_iff. destruct (Hmin d Hd) as [->|Hn].
    - right. apply f_eq_refl. by apply Hs.
    - apply load_nless in Hn; [|by apply Hs..]. naive_solver. }
  destruct (Select_head p cs best rest E) as (c & why & Hsel & Hc & Hwhy).
  exists c, why. split_and!; [done|done| |].
  - intros cs' Hp. unfold Select.
    rewrite (sort_by_unique (load_less (effective_weights p)) (scored w) (load_less_asym w)
               (load_nless_trans w) cs' cs); [done| |done|].
    + rewrite Hp. by apply list.Forall_forall.
    + intros a b. rewrite Hp. intros Ha Hb.
      destruct (decide (load_NodeID a = load_NodeID b)) as [Eid|Nid].
      * left. apply list_elem_of_lookup in Ha as [i Hi], Hb as [j Hj].
        assert (i = j) as ->; [|congruence].
        eapply (NoDup_lookup _ _ _ (load_NodeID a) Hnd); rewrite list_lookup_fmap.
        -- by rewrite Hi.
        -- by rewrite Hj, Eid.
      * right. apply load_less_total; [by apply Hs..|done].
  - destruct why; [|by subst|done]. destruct Hwhy as [Hid Hm]. split; [done|]. by exists best.
Qed.

(** Three nodes under the default weights: the local node is 3 points above the
    best one, within the margin of 4. *)
Example Select_least_loaded_witness :
  let l id n := mkLoad id NodeReady 0 n 0 0 (S754_zero false) 0 0 0 in
  let p := mkPolicy defaultLoadWeights (f_of_Z 4) "b" in
  Select p [l "a"%string 9; l "b"%string 5; l "c"%string 2] = inr (l "b"%string 5, RLocal) ∧
  ∃ c why, Select p [l "a"%string 9; l "b"%string 5; l "c"%string 2] = inr (c, why) ∧
    ∀ cs', cs' ≡ₚ [l "a"%string 9; l "b"%string 5; l "c"%string 2] →
      Select p cs' = Select p [l "a"%string 9; l "b"%string 5; l "c"%string 2].
Proof.
  split; [vm_compute; reflexivity|].
  destruct (Select_least_loaded (mkPolicy defaultLoadWeights (f_of_Z 4) "b")
    [mkLoad "a" NodeReady 0 9 0 0 (S754_zero false) 0 0 0;
     mkLoad "b" NodeReady 0 5 0 0 (S754_zero false) 0 0 0;
     mkLoad "c" NodeReady 0 2 0 0 (S754_zero false) 0 0 0]) as (c & why & H1 & _ & H2 & _).
  - discriminate.
  - repeat constructor; vm_compute; reflexivity.
  - vm_compute. repeat constructor; set_solver.
  - exists c, why. split; [exact H1|exact H2].
Defined.

(** ** The router *)

(** A node new rooms may go to, as one router sees it at one moment. *)
Definition eligible (now : Z) (st : routing) (n : NodeInfo) : Prop :=
  let r := rt_router st in
  let byID := fresh_loads r now (LoadSnapshot now (rt_loads st)) in
  Get (ID n) (rt_reg st) = Some n ∧
  AcceptsSessions (ClusterTypes.State n) = true ∧
  IsStale now n (rt_reg st) = false ∧
  overHardLimit r (applyPending r (default (empty_load n) (byID !! ID n))) = false.

Lemma fresh_loads_spec r now snap id l :
  fresh_loads r now snap !! id = Some l →
  load_NodeID l = id ∧ l ∈ snap ∧ time_sub now (ReportedAt l) ≤ loadStale r.
Proof.
  unfold fresh_loads. induction snap as [|x snap IH] using rev_ind; [simpl; by rewrite lookup_empty|].
  rewrite foldl_app. simpl. destruct (_ <=? _) eqn:E; [zbool|intros H; specialize (IH H); set_solver].
  destruct (decide (load_NodeID x = id)) as [<-|Hne].
  - rewrite lookup_insert_eq. intros [= <-]. set_solver.
  - rewrite lookup_insert_ne by done. intros H; specialize (IH H); set_solver.
Qed.

Lemma applyPending_id r l : load_NodeID (applyPending r l) = load_NodeID l.
Proof. unfold applyPending. by destruct (pending r !! _). Qed.

Lemma candidate_id r now reg snap n c :
  candidate r now reg (fresh_loads r now snap) n = Some c → load_NodeID c = ID n.
Proof.
  unfold candidate.
  destruct (AcceptsSessions _); [|done]. simpl. destruct (IsStale _ _ _); [done|].
  destruct (overHardLimit _ _); [done|]. intros [= <-]. rewrite applyPending_id.
  destruct (fresh_loads r now snap !! ID n) as [l|] eqn:E; [|done]. simpl.
  by apply fresh_loads_spec in E as [-> _].
Qed.

Lemma elem_of_candidates now st c :
  registry_wf (rt_reg st) →
  c ∈ candidates (rt_router st) now (rt_reg st) (rt_loads st) →
  ∃ n, load_NodeID c = ID n ∧ eligible now st n.
Proof.
  intros Hwf. unfold candidates. rewrite list_elem_of_omap. intros (n & Hn & Hc).
  apply List_spec in Hn; [|done]. exists n. split; [by eapply candidate_id|].
  unfold eligible, candidate in *. destruct (AcceptsSessions _); [|done]. simpl in Hc.
  destruct (IsStale _ _ _); [done|]. destruct (overHardLimit _ _); [done|]. done.
Qed.

Lemma eligible_candidate now st n :
  registry_wf (rt_reg st) → eligible now st n →
  ∃ c, c ∈ candidates (rt_router st) now (rt_reg st) (rt_loads st) ∧ load_NodeID c = ID n.
Proof.
  intros Hwf (Hg & Ha & Hs & Ho). unfold candidates.
  pose proof (List_spec (rt_reg st) n Hwf) as Hl.
  destruct (candidate (rt_router st) now (rt_reg st)
    (fresh_loads (rt_router st) now (LoadSnapshot now (rt_loads st))) n) as [c|] eqn:E.
  - exists c. split; [|by eapply candidate_id]. apply list_elem_of_omap. exists n. split; [|done].
    by apply Hl.
  - unfold candidate in E. by rewrite Ha, Hs, Ho in E.
Qed.

(** What the answer of one call is, case by case. *)
Lemma SelectNode_cases now ok self room st res st' :
  registry_wf (rt_reg st) →
  SelectNode now ok self room st = (res, st') →
  match res with
  | inl e =>
      st' = st ∧ err_RoomID e = room ∧
      (Code e = CodeClusterStateUnavailable ∧ ok = false ∨
       Code e = CodeNoCapacity ∧ ok = true ∧ ∀ n, ¬ eligible now st n)
  | inr (info, why) =>
      ok = true ∧ eligible now st info ∧
      match why with
      | RAssigned => st' = st ∧ RoomAssignment now room (rt_loads st) = Some (ID info)
      | _ => RoomAssignment now room (rt_loads st') = Some (ID info) ∧
             st' = mkRouting (notePending now (ID info) (rt_router st)) (rt_reg st)
                     (PutRoomAssignment now room (ID info) (15 * second) (rt_loads st))
      end
  end.
Proof.
  intros Hwf. unfold SelectNode. destruct ok; simpl; [|by intros; simplify_eq/=; auto].
  pose proof (λ c, elem_of_candidates now st c Hwf) as Hel.
  pose proof (λ n, eligible_candidate now st n Hwf) as Hec.
  set (cs := candidates _ _ _ _) in *.
  assert (∀ c, c ∈ cs → ∃ n, Get (load_NodeID c) (rt_reg st) = Some n ∧ load_NodeID c = ID n ∧
            ID n ≠ ""%string ∧ eligible now st n) as Hget.
  { intros c Hc. destruct (Hel c Hc) as (n & En & He). exists n. pose proof He as (Hg & _).
    rewrite En. split_and!; try done. by apply Hwf in Hg as [_ ?]. }
  destruct cs as [|c0 cs0] eqn:Ecs.
  { intros [= <- <-]. simpl. split; [done|]. split; [done|]. right. split_and!; try done.
    intros n Hn. destruct (Hec n Hn) as (c & Hc & _). by apply elem_of_nil in Hc. }
  rewrite <- Ecs in *.
  destruct (RoomAssignment now room (rt_loads st) ≫= _) as [a|] eqn:Ea.
  - apply bind_Some in Ea as (a' & Hra & Ea). apply bind_Some in Ea as ([i c] & Hf & [= ->]).
    apply list_find_Some in Hf as (Hi & Hid & _). apply list_elem_of_lookup_2 in Hi.
    destruct (Hget c Hi) as (n & Hg & En & Hne & He). rewrite Hid in Hg, En.
    rewrite Hg. simpl. rewrite bool_decide_false by done. intros [= <- <-].
    rewrite Hra, En. done.
  - set (pol := mkPolicy _ _ self).
    destruct (sort_by (load_less (effective_weights pol)) cs) as [|best rest] eqn:Es.
    { apply (f_equal length) in Es. rewrite sort_by_perm, Ecs in Es. done. }
    destruct (Select_head pol cs best rest Es) as (c & why & -> & Hc & Hwhy).
    destruct (Hget c Hc) as (n & Hg & En & Hne & He). rewrite Hg. simpl. rewrite En.
    intros [= <- <-]. split; [done|]. split; [done|].
    assert (RoomAssignment now room (PutRoomAssignment now room (ID n) (15 * second) (rt_loads st))
            = Some (ID n)) as Hra by (apply RoomAssignment_put; unfold second; lia).
    by destruct why.
Qed.


(** A redirect never bounces.  Once a router has picked a node for a room,
    then for the next 15 seconds every router that shares the load store (whatever
    its own pending picks, limits or identity) answers with the same node, as
    long as it still finds it eligible, and answering changes nothing. *)
Theorem redirect_never_bounces now ok self room st info why st' :
  registry_wf (rt_reg st) →
  SelectNode now ok self room st = (inr (info, why), st') → why ≠ RAssigned →
  ∀ now' self' st2 n2,
    now ≤ now' ≤ now + 15 * second →
    registry_wf (rt_reg st2) → assign (rt_loads st2) = assign (rt_loads st') →
    ID n2 = ID info → eligible now' st2 n2 →
    SelectNode now' true self' room st2 = (inr (n2, RAssigned), st2).
Proof.
  intros Hwf E Hwhy now' self' st2 n2 Hn Hwf2 Ha Hid He.
  apply SelectNode_cases in E as (_ & _ & Hst); [|done].
  assert (RoomAssignment now' room (rt_loads st2) = Some (ID n2)) as Hra.
  { unfold RoomAssignment. rewrite Ha. fold (RoomAssignment now' room (rt_loads st')).
    destruct why; [| |done]; destruct Hst as [_ ->]; simpl; rewrite Hid;
      apply RoomAssignment_put; unfold second in *; lia. }
  destruct (eligible_candidate now' st2 n2 Hwf2 He) as (c & Hc & Hcid).
  unfold SelectNode. simpl. destruct (candidates _ _ _ _) as [|c0 cs] eqn:Ecs.
  { by apply elem_of_nil in Hc. }
  rewrite <- Ecs in *. rewrite Hra. simpl.
  destruct (list_find (λ c, load_NodeID c = ID n2) (c0 :: cs)) as [[i c']|] eqn:Ef.
  - rewrite Ecs, Ef. simpl. destruct He as (Hg & _). rewrite Hg. simpl.
    rewrite bool_decide_false; [done|]. by apply Hwf2 in Hg as [_ ?].
  - rewrite Ecs in Hc. apply list_find_None in Ef. rewrite list.Forall_forall in Ef.
    by destruct (Ef c Hc).
Qed.

(** A two-node cluster with one draining node, for the examples. *)
Definition demo_registry : Registry :=
  registry_run (NewInMemoryNodeRegistry (15 * second))
    [OpRegister 1 (with_state NodeReady (node_id_only "a"));
     OpRegister 1 (with_state NodeShuttingDown (node_id_only "b"))].

Definition demo_cap : CapacityConfig := mkCapacity 1 0 0 (f_scale 1 (-1)) (f_of_Z 1).

Definition demo_routing : routing :=
  mkRouting (newRoomRouter (mkPolicy defaultLoadWeights (f_of_Z 4) "") demo_cap 0) demo_registry
    NewInMemoryLoadStore.

Lemma demo_registry_wf : registry_wf demo_registry.
Proof. apply registry_run_wf. intros id n L. by simplify_map_eq. Qed.

Definition demo_node : NodeInfo := with_seen 1 (with_state NodeReady (node_id_only "a")).


(** Node "b", with no capacity limit of its own, sends the client to the node "a"
    picked before. *)
Example redirect_never_bounces_witness :
  let st1 := (SelectNode 2 true "a" "room" demo_routing).2 in
  let st2 := mkRouting (newRoomRouter (mkPolicy defaultLoadWeights (f_of_Z 4) "")
               (mkCapacity 0 0 0 (f_of_Z 1) (f_of_Z 1)) 0) demo_registry (rt_loads st1) in
  SelectNode 9 true "b" "room" st2 = (inr (demo_node, RAssigned), st2).
Proof.
  assert ((SelectNode 2 true "a" "room" demo_routing).1 = inr (demo_node, RLocal)) as E
    by (vm_compute; reflexivity).
  destruct (SelectNode 2 true "a" "room" demo_routing) as [res st1] eqn:E1. simpl in E. subst res.
  simpl.
  apply (redirect_never_bounces 2 true "a" "room" demo_routing demo_node RLocal st1
           demo_registry_wf E1).
  - discriminate.
  - unfold second. lia.
  - apply demo_registry_wf.
  - reflexivity.
  - reflexivity.
  - vm_compute in E1. injection E1 as <-. vm_compute. auto.
Defined.

(** ** The pending correction *)

(** One call of a router whose registry and load store evolve around it. *)
Record call := mkCall {
  call_now : Z;
  call_ok : bool;
  call_self : string;
  call_room : string;
  call_reg : Registry;
  call_loads : LoadStore
}.

Fixpoint router_calls (r : roomRouter) (l : list call) : list (Error + NodeInfo * reason) :=
  match l with
  | [] => []
  | c :: l =>
      let '(res, st) := SelectNode (call_now c) (call_ok c) (call_self c) (call_room c)
                          (mkRouting r (call_reg c) (call_loads c)) in
      res :: router_calls (rt_router st) l
  end.

Definition reports_idle (id : string) (c : call) : Prop :=
  registry_wf (call_reg c) ∧
  ∀ l, l ∈ LoadSnapshot (call_now c) (call_loads c) → load_NodeID l = id → Rooms l = 0.

Lemma pending_blocks r c id seen n :
  MaxRooms (router_cap r) = 1 → HardLimitFraction (router_cap r) = f_of_Z 1 →
  pending r !! id = Some (mkPending 1 seen) → reports_idle id c → ID n = id →
  ¬ eligible (call_now c) (mkRouting r (call_reg c) (call_loads c)) n.
Proof.
  intros Hm Hh Hp [_ Hidle] Hid (_ & _ & _ & Ho). simpl in Ho.
  set (l := default (empty_load n) _) in Ho.
  assert (load_NodeID l = id ∧ Rooms l = 0) as [Hlid Hl].
  { unfold l. destruct (fresh_loads _ _ _ !! ID n) as [x|] eqn:E; simpl; [|done].
    apply fresh_loads_spec in E as (E1 & E2 & _). rewrite Hid in E1. auto. }
  unfold overHardLimit in Ho. rewrite Hm, Hh in Ho.
  assert (Rooms (applyPending r l) = 1) as Hr.
  { unfold applyPending. rewrite Hlid, Hp. simpl. by rewrite Hl. }
  rewrite Hr in Ho. vm_compute (f_le (f_of_Z 1) _) in Ho. cbv iota in Ho.
  vm_compute (exceeds 1 1 (f_of_Z 1)) in Ho. done.
Qed.

(** The pending correction never decays, so it can exclude an idle node for
    good.  With a room limit of one, a node this router has picked once and that
    has reported zero rooms ever since is never picked again, at any later time
    and whatever happens in between: the extra room counted by [applyPending]
    stays until the node is picked again, which it prevents. *)
Theorem idle_node_never_picked_again r id seen l :
  MaxRooms (router_cap r) = 1 → HardLimitFraction (router_cap r) = f_of_Z 1 →
  pending r !! id = Some (mkPending 1 seen) → Forall (reports_idle id) l →
  ∀ info why, inr (info, why) ∈ router_calls r l → ID info ≠ id.
Proof.
  intros Hm Hh Hp Hl. revert r Hm Hh Hp.
  induction Hl as [|c l Hc Hl IH]; intros r Hm Hh Hp info why; simpl; [by rewrite elem_of_nil|].
  destruct (SelectNode _ _ _ _ _) as [res st] eqn:E.
  apply SelectNode_cases in E; [|apply Hc].
  assert (router_cap (rt_router st) = router_cap r ∧ pending (rt_router st) !! id = pending r !! id
    ∧ ∀ info why, res = inr (info, why) → ID info ≠ id) as (Hcap & Hpend & Hres).
  { destruct res as [e|[i w]]; [destruct E as (-> & _); done|].
    destruct E as (_ & He & Hst).
    assert (ID i ≠ id) as Hne by (intros Hid; by eapply pending_blocks).
    destruct w; destruct Hst as [Hst Hst']; subst; simpl; rewrite ?lookup_insert_ne by done;
      split_and!; try done; congruence. }
  rewrite elem_of_cons. intros [<-|Hin]; [by eapply Hres|].
  apply (IH (rt_router st)) in Hin; [done|by rewrite Hcap..|by rewrite Hpend].
Qed.

Example idle_node_never_picked_again_witness :
  let r1 := rt_router (SelectNode 2 true "a" "room" demo_routing).2 in
  let later := mkCall (3600 * second) true "a" "room2"
                 (registry_step demo_registry (OpHeartbeat (3600 * second) "a"))
                 NewInMemoryLoadStore in
  (∀ info why, inr (info, why) ∈ router_calls r1 [later] → ID info ≠ "a"%string) ∧
  router_calls r1 [later] =
    [inl (mkError CodeNoCapacity "all nodes are at capacity or unavailable" "" "room2" "")].
Proof.
  split; [|vm_compute; reflexivity].
  apply (idle_node_never_picked_again _ "a" 2).
  - reflexivity.
  - reflexivity.
  - vm_compute. reflexivity.
  - constructor; [|constructor]. split.
    + apply Heartbeat_wf, demo_registry_wf.
    + intros l Hl. vm_compute in Hl. by apply elem_of_nil in Hl.
Defined.
