(* ===== verification/Cluster.v ===== *)
(** * The cluster façade (internal/cluster: cluster, noderpc_http, noderpc_transport)

    Room claims, participant location and the node's lifecycle.  Nodes share one
    store: the room locator [L] (any backend that satisfies [RoomLocatorLaws]),
    the node registry, the load store and the participant locator.  A claim is
    not atomic: between its accesses to the room store other nodes act.  The
    world carries the schedule of these actions, and [interfere] performs the
    next batch before every access, so a theorem about a claim quantifies over
    all interleavings.  Metric counters and log lines are left out. *)

From S2P Require Import Prelude GoFloat ClusterTypes Registry RoomLocator LoadStore RoomRouter.

(** ** Peer queries *)

(** The answer of an /internal endpoint: a status and the fields of its body. *)
Record http_reply := mkReply { status : Z; reply_nodeId : string }.

Section cluster.
Context {L : Type} `{RoomLocatorLaws L}.

(** src/internal/cluster/noderpc_http.go:159-171 [handleInternalRoom] *)
Definition handleInternalRoom (roomID : string) (l : L) : http_reply :=
  if bool_decide (roomID = "") then mkReply 400 ""
  else match GetOwner roomID l with
       | None => mkReply 404 ""
       | Some owner => mkReply 200 owner
       end.

(** src/internal/cluster/noderpc_http.go:22-30 [RegisterRoutes: guard] *)
Definition guard (enabled authorized : bool) (r : http_reply) : http_reply :=
  if negb enabled then mkReply 404 "" else if negb authorized then mkReply 401 "" else r.

(** What happens to a request on its way to a peer: it is lost, or it arrives at a
    node with the cluster enabled or not, with a credential it accepts or not. *)
Inductive delivery :=
| Lost
| Arrives (enabled authorized : bool).

(** src/internal/cluster/noderpc_transport.go:42-72 [get]  [None] is an error. *)
Definition http_get (r : option http_reply) : option http_reply :=
  match r with
  | None => None
  | Some r => if status r =? 404 then Some r else if 400 <=? status r then None else Some r
  end.

(** src/internal/cluster/noderpc_transport.go:74-87 [RoomOwner]  The peer answers
    from the shared store. *)
Definition RoomOwner (d : delivery) (roomID : string) (l : L) : option (option string) :=
  let reply := match d with
               | Lost => None
               | Arrives en au => Some (guard en au (handleInternalRoom roomID l))
               end in
  match http_get reply with
  | None => None
  | Some r => if (status r =? 404) || bool_decide (reply_nodeId r = "") then Some None
              else Some (Some (reply_nodeId r))
  end.

(** ** Room claims *)

(** src/internal/cluster/cluster.go:539-544 [RoomResolution] *)
Record RoomResolution := mkResolution {
  res_RoomID : string;
  res_OwnerID : string;
  res_Local : bool
}.

(** src/internal/cluster/cluster.go:19-59 [Cluster]  What a claim reads of the
    node itself: its configuration, its lifecycle phase, the last known health of
    the backend. *)
Record node := mkNode {
  cfg : Config;
  nodeState : NodeState;
  healthy : bool
}.

Definition NodeID (c : node) : string := cfg_NodeID (cfg c).

Record world := mkWorld {
  rooms : L;
  registry : Registry;
  loadst : LoadStore;
  router : roomRouter;
  others : list (list locator_op)
}.

Definition set_rooms (l : L) (w : world) : world :=
  mkWorld l (registry w) (loadst w) (router w) (others w).

Abbreviation C := (M world unit).

(** The other nodes' turn. *)
Definition interfere : C unit :=
  modify (λ w, match others w with
               | [] => w
               | ops :: rest =>
                   mkWorld (locator_run (rooms w) ops).2 (registry w) (loadst w) (router w) rest
               end).

Definition get_owner (roomID : string) : C (option string) :=
  interfere;; gets (λ w, GetOwner roomID (rooms w)).

Definition claim_owner (roomID nodeID : string) : C (string * bool) :=
  interfere;;
  w ← get;
  let '(o, c, l') := ClaimOwner roomID nodeID (rooms w) in
  modify (set_rooms l');;
  mret (o, c).

(** src/internal/cluster/cluster.go:309-314 [routingStateHealthy] *)
Definition routingStateHealthy (c : node) : bool :=
  if redis_Enabled (Redis (cfg c)) then healthy c else true.

(** src/internal/cluster/cluster.go:555-564 [ResolveRoom: peers]  [net] says what
    becomes of the request to each peer. *)
Fixpoint ask_peers (c : node) (net : string → delivery) (roomID : string) (peers : list string) :
    C (option RoomResolution) :=
  match peers with
  | [] => mret None
  | peer :: rest =>
      interfere;;
      w ← get;
      match RoomOwner (net peer) roomID (rooms w) with
      | Some (Some owner) =>
          mret (Some (mkResolution roomID owner (bool_decide (owner = NodeID c))))
      | _ => ask_peers c net roomID rest
      end
  end.

(** src/internal/cluster/cluster.go:546-566 [ResolveRoom] *)
Definition ResolveRoom (c : node) (net : string → delivery) (roomID : string) :
    C (option RoomResolution) :=
  o ← get_owner roomID;
  match o with
  | Some owner => mret (Some (mkResolution roomID owner (bool_decide (owner = NodeID c))))
  | None =>
      if negb (Enabled (cfg c)) then mret None
      else ask_peers c net roomID (Peers (cfg c))
  end.

(** The registry entry of an owner, or a bare [NodeInfo] with its id. *)
Definition owner_info (w : world) (owner : string) : NodeInfo :=
  default (node_id_only owner) (Get owner (registry w)).

(** src/internal/cluster/cluster.go:610-626 [ClaimRoom: routing]  [None]: go on and
    claim. *)
Definition route_new_room (c : node) (now : Z) (roomID : string) : C (option Error) := λ w,
  if Enabled (cfg c) then
    let '(r, st) := SelectNode now (routingStateHealthy c) (NodeID c) roomID
                      (mkRouting (router w) (registry w) (loadst w)) in
    let w' := mkWorld (rooms w) (rt_reg st) (rt_loads st) (rt_router st) (others w) in
    match r with
    | inl e => (Some (mkError (Code e) (Message e) (err_NodeID e) roomID (err_ParticipantID e)), w', [])
    | inr (target, _) =>
        if bool_decide (ID target ≠ "" ∧ ID target ≠ NodeID c)
        then (Some (RoomRemoteError roomID target), w', [])
        else (None, w', [])
    end
  else (None, w, []).

(** src/internal/cluster/cluster.go:628-650 [ClaimRoom: claim] *)
Definition claim_new_room (c : node) (roomID : string) : C (Error + RoomResolution) :=
  '(owner, claimed) ← claim_owner roomID (NodeID c);
  w ← get;
  mret (if bool_decide (owner = "") then
          inl (mkError CodeClusterStateUnavailable "room claim failed" (NodeID c) roomID "")
        else if bool_decide (owner ≠ NodeID c) then
          inl (RoomRemoteError roomID (owner_info w owner))
        else inr (mkResolution roomID (NodeID c) true)).

(** src/internal/cluster/cluster.go:568-650 [ClaimRoom] *)
Definition ClaimRoom (c : node) (net : string → delivery) (now : Z) (roomID : string) :
    C (Error + RoomResolution) :=
  if Enabled (cfg c) && redis_Enabled (Redis (cfg c)) && negb (healthy c) then
    mret (inl (mkError CodeClusterStateUnavailable "cluster state backend unavailable" (NodeID c) roomID ""))
  else if Enabled (cfg c) && negb (AcceptsSessions (nodeState c)) then
    o ← get_owner roomID;
    mret (if bool_decide (o = Some (NodeID c)) then inr (mkResolution roomID (NodeID c) true)
          else inl (mkError CodeNodeShuttingDown "node is not accepting new rooms" (NodeID c) roomID ""))
  else
    r ← ResolveRoom c net roomID;
    match r with
    | Some res =>
        w ← get;
        mret (if res_Local res then inr res
              else inl (RoomRemoteError roomID (owner_info w (res_OwnerID res))))
    | None =>
        refused ← route_new_room c now roomID;
        match refused with
        | Some e => mret (inl e)
        | None => claim_new_room c roomID
        end
    end.

(** src/internal/cluster/cluster.go:652-660 [ReleaseRoom] *)
Definition ReleaseRoom (c : node) (roomID : string) : C unit :=
  interfere;;
  modify (λ w, set_rooms (ReleaseOwner roomID (NodeID c) (rooms w)).2 w).

(** ** Ownership is exclusive *)

(** The world in which [n] owns [room] and nobody is going to take it away. *)
Definition held_by (room n : string) (w : world) : Prop :=
  owners_of (rooms w) !! room = Some n ∧
  Forall (Forall (λ o, ¬ op_takes room n o)) (others w).

Lemma interfere_held room n : preserves (held_by room n) interfere.
Proof.
  intros w [Hn Ho]. unfold final, interfere, modify; simpl.
  destruct (others w) as [|ops rest] eqn:E; simpl; [split; [done|by rewrite E]|].
  apply Forall_cons_1 in Ho as [Hops Hrest]. split; [|done]. simpl. by apply owner_stable.
Qed.

Lemma claim_owner_held room n r m : preserves (held_by room n) (claim_owner r m).
Proof.
  apply preserves_bind; [apply interfere_held|]. intros _ w [Hn Ho].
  unfold final, mbind, M_bind, get, modify, mret, M_ret; simpl.
  pose proof (owner_stable_step (rooms w) (OpClaim r m) room n Hn (λ x, x)) as Hs. simpl in Hs.
  destruct (ClaimOwner r m (rooms w)) as [[o c] l']. split; [exact Hs|exact Ho].
Qed.

Lemma get_owner_held room n r : preserves (held_by room n) (get_owner r).
Proof. apply preserves_bind; [apply interfere_held|]. intros _. apply preserves_gets. Qed.

Lemma ask_peers_held room n c net r ps : preserves (held_by room n) (ask_peers c net r ps).
Proof.
  induction ps as [|p ps IH]; simpl; [apply preserves_ret|].
  apply preserves_bind; [apply interfere_held|]. intros _.
  apply preserves_bind; [apply preserves_get|]. intros w.
  destruct (RoomOwner _ _ _) as [[o|]|]; [apply preserves_ret|done..].
Qed.

Lemma ResolveRoom_held room n c net r : preserves (held_by room n) (ResolveRoom c net r).
Proof.
  apply preserves_bind; [apply get_owner_held|]. intros [o|]; [apply preserves_ret|].
  destruct (Enabled _); simpl; [apply ask_peers_held|apply preserves_ret].
Qed.

Lemma route_held room n c now r : preserves (held_by room n) (route_new_room c now r).
Proof.
  intros w Hw. unfold final, route_new_room. destruct (Enabled _); [|done].
  destruct (SelectNode _ _ _ _ _) as [[e|[t why]] st]; [exact Hw|].
  case_bool_decide; exact Hw.
Qed.

Lemma ClaimRoom_held room n c net now r : preserves (held_by room n) (ClaimRoom c net now r).
Proof.
  unfold ClaimRoom. destruct (_ && _ && _); [apply preserves_ret|].
  destruct (_ && _).
  - apply preserves_bind; [apply get_owner_held|]. intros o. apply preserves_ret.
  - apply preserves_bind; [apply ResolveRoom_held|]. intros [res|].
    + apply preserves_bind; [apply preserves_get|]. intros w. apply preserves_ret.
    + apply preserves_bind; [apply route_held|]. intros [e|]; [apply preserves_ret|].
      apply preserves_bind; [apply claim_owner_held|]. intros [o cl].
      apply preserves_bind; [apply preserves_get|]. intros w. apply preserves_ret.
Qed.

(** Only the other nodes change anything while this one looks around. *)
Definition only_others (w w' : world) : Prop :=
  registry w' = registry w ∧ (others w = [] → w' = w).

Lemma only_others_refl w : only_others w w.
Proof. done. Qed.

Lemma only_others_trans w1 w2 w3 : only_others w1 w2 → only_others w2 w3 → only_others w1 w3.
Proof.
  intros [H1 H2] [H3 H4]. split; [congruence|]. intros E. specialize (H2 E). subst w2. by apply H4.
Qed.

Lemma interfere_wp (Q : unit → world → Prop) w :
  (∀ w', only_others w w' → Q tt w') → wp interfere Q w.
Proof.
  intros HQ. unfold interfere. apply wp_modify, HQ. split; by destruct (others w).
Qed.

(** What a resolution says is what the store says at that moment. *)
Lemma get_owner_wp r (Q : option string → world → Prop) w :
  (∀ o w', only_others w w' → (∀ x, o = Some x → owners_of (rooms w') !! r = Some x) → Q o w') →
  wp (get_owner r) Q w.
Proof.
  intros HQ. apply wp_bind, interfere_wp. intros w' Hw. apply HQ; [done|]. intros x. apply law_get.
Qed.

Lemma RoomOwner_spec d r l o : RoomOwner d r l = Some (Some o) → owners_of l !! r = Some o.
Proof.
  unfold RoomOwner, http_get, guard, handleInternalRoom.
  destruct d as [|[] []]; simpl; try done. case_bool_decide; simpl; [done|].
  destruct (GetOwner r l) as [x|] eqn:E; simpl; [|done]. case_bool_decide; [done|].
  intros [= <-]. by apply law_get.
Qed.

(** [x] is a true statement about where [r] lives. *)
Definition resolves (c : node) (r : string) (x : option RoomResolution) (w : world) : Prop :=
  ∀ res, x = Some res →
    res = mkResolution r (res_OwnerID res) (bool_decide (res_OwnerID res = NodeID c)) ∧
    owners_of (rooms w) !! r = Some (res_OwnerID res).

Lemma ask_peers_wp c net r ps (Q : option RoomResolution → world → Prop) w :
  (∀ x w', only_others w w' → resolves c r x w' → Q x w') → wp (ask_peers c net r ps) Q w.
Proof.
  revert w. induction ps as [|p ps IH]; intros w HQ; simpl; [by apply HQ|].
  apply wp_bind, interfere_wp. intros w' Hw. apply wp_bind, wp_get.
  assert (wp (ask_peers c net r ps) Q w') as Hrest.
  { apply IH. intros x w2 Hw2. apply HQ. by eapply only_others_trans. }
  destruct (RoomOwner (net p) r (rooms w')) as [[o|]|] eqn:E; [|done..].
  apply wp_ret, HQ; [done|]. intros res [= <-]. split; [done|]. by apply RoomOwner_spec in E.
Qed.

Lemma ResolveRoom_wp c net r (Q : option RoomResolution → world → Prop) w :
  (∀ x w', only_others w w' → resolves c r x w' → Q x w') → wp (ResolveRoom c net r) Q w.
Proof.
  intros HQ. apply wp_bind, get_owner_wp. intros [o|] w' Hw Ho.
  - apply wp_ret, HQ; [done|]. intros res [= <-]. split; [done|]. by apply Ho.
  - destruct (Enabled _); simpl.
    + apply ask_peers_wp. intros x w2 Hw2. apply HQ. by eapply only_others_trans.
    + by apply wp_ret, HQ.
Qed.

Lemma owner_info_id w o : registry_wf (registry w) → ID (owner_info w o) = o.
Proof.
  intros Hwf. unfold owner_info. destruct (Get o (registry w)) as [n|] eqn:E; [|done].
  simpl. by destruct (Hwf _ _ E).
Qed.

(** Routing decides about the room, it does not touch the room store. *)
Lemma route_wp c now r (Q : option Error → world → Prop) w :
  registry_wf (registry w) →
  (∀ x w', registry w' = registry w → rooms w' = rooms w → others w' = others w →
     (∀ e, x = Some e → err_RoomID e = r ∧
        (Code e = CodeClusterStateUnavailable ∨ Code e = CodeNoCapacity ∨
         Code e = CodeRoomOnOtherNode ∧ err_NodeID e ≠ NodeID c)) → Q x w') →
  wp (route_new_room c now r) Q w.
Proof.
  intros Hwf HQ. unfold wp, value, final, route_new_room.
  destruct (Enabled (cfg c)); [|by apply HQ].
  destruct (SelectNode _ _ _ _ _) as [sel st] eqn:E. apply SelectNode_cases in E; [|done].
  destruct sel as [e|[t why]].
  - destruct E as (-> & Er & Hc). apply HQ; [done..|]. intros e' [= <-]. simpl. naive_solver.
  - destruct E as (_ & _ & Hst).
    assert (rt_reg st = registry w) as Hreg
      by (destruct why; [destruct Hst as [_ ->]..|destruct Hst as [-> _]]; done).
    case_bool_decide as Hid; (apply HQ; [done..|]); [|done].
    intros e' [= <-]. simpl. naive_solver.
Qed.

(** The two outcomes of a claim. *)
Definition claim_outcome (c : node) (r : string) (w : world) (x : Error + RoomResolution) (w' : world) :
    Prop :=
  match x with
  | inr res => res = mkResolution r (NodeID c) true ∧ owners_of (rooms w') !! r = Some (NodeID c)
  | inl e =>
      err_RoomID e = r ∧ (others w = [] → owners_of (rooms w') = owners_of (rooms w)) ∧
      (Code e = CodeClusterStateUnavailable ∨
       Code e = CodeNodeShuttingDown ∧ Enabled (cfg c) = true ∧ AcceptsSessions (nodeState c) = false ∨
       Code e = CodeNoCapacity ∨
       Code e = CodeRoomOnOtherNode ∧ err_NodeID e ≠ NodeID c)
  end.

Lemma claim_new_room_wp c r w w0 :
  NodeID c ≠ "" → registry_wf (registry w) →
  (others w0 = [] → others w = [] ∧ rooms w = rooms w0) →
  wp (claim_new_room c r) (claim_outcome c r w0) w.
Proof.
  intros Hne Hwf Hw0. unfold claim_new_room, claim_owner.
  apply wp_bind, wp_bind, interfere_wp. intros w2 [Hreg Hsame].
  apply wp_bind, wp_get. destruct (ClaimOwner r (NodeID c) (rooms w2)) as [[o cl] l'] eqn:E.
  apply wp_bind, wp_modify, wp_ret, wp_bind, wp_get, wp_ret. simpl.
  assert (cl = false → others w0 = [] → owners_of l' = owners_of (rooms w0)) as Hkeep.
  { intros -> Ho. destruct (Hw0 Ho) as [Hn Hr]. rewrite (Hsame Hn) in E. rewrite <- Hr.
    by apply law_claim_lost in E as [-> _]. }
  destruct cl.
  { apply law_claim_won in E as (-> & _ & Hown). rewrite bool_decide_false by done.
    rewrite bool_decide_false by (intros []; done). simpl. split; [done|].
    by rewrite Hown, lookup_insert_eq. }
  apply law_claim_lost in E as [Hown E]. case_bool_decide as Ho; [simpl; auto|].
  case_bool_decide as Hn; simpl.
  - rewrite owner_info_id by (simpl; by rewrite Hreg). split_and!; auto.
  - split; [done|]. assert (o = NodeID c) as -> by (by destruct (decide (o = NodeID c))).
    rewrite Hown. by apply E.
Qed.

Lemma ClaimRoom_wp c net now r w :
  NodeID c ≠ "" → registry_wf (registry w) →
  wp (ClaimRoom c net now r) (claim_outcome c r w) w.
Proof.
  intros Hne Hwf. unfold ClaimRoom. destruct (_ && _ && _); [apply wp_ret; simpl; auto|].
  destruct (Enabled (cfg c) && negb _) eqn:Ed.
  - apply wp_bind, get_owner_wp. intros o w' [Hreg Hsame] Ho. apply wp_ret.
    case_bool_decide as E; simpl; [split; [done|by apply Ho]|].
    zbool. split_and!; auto. intros Hn. by rewrite (Hsame Hn).
  - apply wp_bind, ResolveRoom_wp. intros [res|] w' [Hreg Hsame] Hres.
    + apply wp_bind, wp_get, wp_ret. destruct (Hres _ eq_refl) as [E Ho].
      destruct res as [rr ro rl]; simpl in *. injection E as -> ->.
      case_bool_decide as El; simpl; [by subst|]. rewrite owner_info_id by (by rewrite Hreg).
      split_and!; auto. intros Hn. by rewrite (Hsame Hn).
    + apply wp_bind, route_wp; [by rewrite Hreg|]. intros [e|] w2 Hreg2 Hr2 Ho2 He.
      * apply wp_ret. simpl. destruct (He e eq_refl) as [He1 He2]. split; [done|]. split.
        -- intros Hn. by rewrite Hr2, (Hsame Hn).
        -- naive_solver.
      * apply claim_new_room_wp; [done|by rewrite Hreg2, Hreg|].
        intros Hn. rewrite Ho2, Hr2. by rewrite (Hsame Hn).
Qed.
End cluster.

Arguments world : clear implicits.


(** claims fail closed.  A refused claim reports the room and one of four
    codes; it names another node than this one when it redirects, and says
    NODE_SHUTTING_DOWN only when this node is draining; on its own it leaves the
    ownership map as it was.  With the shared backend down the claim is refused
    without touching anything, and a draining node never gains a room. *)
Theorem claim_room_fails_closed {L} `{RoomLocatorLaws L} c net now room (w : world L) :
  NodeID c ≠ "" → registry_wf (registry w) →
  let x := value (ClaimRoom c net now room) w in
  let w' := final (ClaimRoom c net now room) w in
  (∀ e, x = inl e →
     err_RoomID e = room ∧ (others w = [] → owners_of (rooms w') = owners_of (rooms w)) ∧
     (Code e = CodeClusterStateUnavailable ∨
      Code e = CodeNodeShuttingDown ∧ Enabled (cfg c) = true ∧ AcceptsSessions (nodeState c) = false ∨
      Code e = CodeNoCapacity ∨
      Code e = CodeRoomOnOtherNode ∧ err_NodeID e ≠ NodeID c)) ∧
  (Enabled (cfg c) = true → redis_Enabled (Redis (cfg c)) = true → healthy c = false →
     w' = w ∧ ∃ e, x = inl e ∧ Code e = CodeClusterStateUnavailable) ∧
  (Enabled (cfg c) = true → AcceptsSessions (nodeState c) = false → others w = [] → w' = w).
Proof.
  intros Hne Hwf x w'. pose proof (ClaimRoom_wp c net now room w Hne Hwf) as Hw.
  unfold wp in Hw. fold x w' in Hw. split_and!.
  - intros e E. by rewrite E in Hw.
  - intros H1 H2 H3. unfold x, w', ClaimRoom. rewrite H1, H2, H3. simpl. split; [done|]. by eexists.
  - intros H1 H2 H3. unfold w', ClaimRoom. rewrite H1, H2. simpl.
    destruct (_ && negb (healthy c)); [done|].
    unfold final, mbind, M_bind, get_owner, interfere; simpl.
    unfold mbind, M_bind, modify, gets, mret, M_ret. simpl. by rewrite H3.
Qed.

(** Three nodes over the in-memory locator: "b" loses the race for the room to "a"
    between its lookup and its claim. *)
Definition demo_config (id : string) : Config :=
  mkConfig true id "" 0 "dev" "s3cret" [] (5 * second) (15 * second) (2 * second) 65536
    (30 * second) 2 (2 * second) demo_cap (5 * second) (5 * second) 4 false
    (mkRedis false false 0 0 0 0).

Definition demo_cluster_node (id : string) : node := mkNode (demo_config id) NodeReady true.

Definition demo_world (ops : list (list locator_op)) : world InMemoryRoomLocator :=
  mkWorld NewInMemoryRoomLocator demo_registry NewInMemoryLoadStore (rt_router demo_routing) ops.


(** The room is claimed by "c" between the lookup of "a" and its claim. *)
Example claim_room_fails_closed_witness :
  let w := demo_world [[]; [OpClaim "room" "c"]] in
  ∃ e, value (ClaimRoom (demo_cluster_node "a") (λ _, Lost) 2 "room") w = inl e ∧
       err_RoomID e = "room"%string ∧ Code e = CodeRoomOnOtherNode ∧ err_NodeID e ≠ "a"%string.
Proof.
  destruct (claim_room_fails_closed (demo_cluster_node "a") (λ _, Lost) 2 "room"
    (demo_world [[]; [OpClaim "room" "c"]]) ltac:(discriminate) demo_registry_wf) as (Hx & _).
  eexists. split; [vm_compute; reflexivity|].
  destruct (Hx _ ltac:(vm_compute; reflexivity)) as (H1 & _ & H2). split; [exact H1|].
  split; [reflexivity|discriminate].
Defined.
