(* ===== verification/Lifecycle.v ===== *)
(** * A node's lifecycle (internal/cluster: cluster)

    Start, the heartbeat loop, draining and shutdown of one node over the shared
    registry.  The loop's promotion of a STARTING node reads the state and sets it
    in two steps, so the loop is modelled with the point between them, and the
    other goroutines may act there. *)

From S2P Require Import Prelude GoFloat ClusterTypes Registry.

(** src/internal/cluster/cluster.go:40-58 [Cluster: lifecycle]  The node's phase,
    the loop's local [wasHealthy], whether the loop, the failure detector and the
    stop signal are on, the point between the two halves of a promotion, the last
    known health of the backend, and the registry. *)
Record life := mkLife {
  l_self : NodeInfo;
  l_state : NodeState;
  l_loop : bool;
  l_wasHealthy : bool;
  l_promoting : bool;
  l_detector : bool;
  l_stopped : bool;
  l_healthy : bool;
  l_reg : Registry
}.

Definition set_loop (b wh : bool) (s : life) : life :=
  mkLife (l_self s) (l_state s) b wh (l_promoting s) (l_detector s) (l_stopped s) (l_healthy s) (l_reg s).

Definition set_promoting (b : bool) (s : life) : life :=
  mkLife (l_self s) (l_state s) (l_loop s) (l_wasHealthy s) b (l_detector s) (l_stopped s)
    (l_healthy s) (l_reg s).

Definition set_detector (s : life) : life :=
  mkLife (l_self s) (l_state s) (l_loop s) (l_wasHealthy s) (l_promoting s) true (l_stopped s)
    (l_healthy s) (l_reg s).

Definition set_stopped (s : life) : life :=
  mkLife (l_self s) (l_state s) (l_loop s) (l_wasHealthy s) (l_promoting s) (l_detector s) true
    (l_healthy s) (l_reg s).

Definition set_reg (r : Registry) (s : life) : life :=
  mkLife (l_self s) (l_state s) (l_loop s) (l_wasHealthy s) (l_promoting s) (l_detector s)
    (l_stopped s) (l_healthy s) r.

(** src/internal/cluster/cluster.go:409-415 [currentSelf] *)
Definition currentSelf (s : life) : NodeInfo := with_state (l_state s) (l_self s).

(** src/internal/cluster/cluster.go:400-407 [setState] *)
Definition setState (now : Z) (st : NodeState) (s : life) : life :=
  let s := mkLife (with_state st (l_self s)) st (l_loop s) (l_wasHealthy s) (l_promoting s)
             (l_detector s) (l_stopped s) (l_healthy s) (l_reg s) in
  set_reg (Register now (currentSelf s) (l_reg s)).2 s.

(** src/internal/cluster/cluster.go:112-147 [NewWithState: self]  A new node is
    STARTING and registers itself. *)
Definition newLife (cfg : Config) (now : Z) (r : Registry) : life :=
  let self := mkNodeInfo (cfg_NodeID cfg) (cfg_Host cfg) (cfg_Port cfg) (cfg_Version cfg)
                NodeStarting now 0 "" in
  mkLife self NodeStarting false false false false false
    (negb (redis_Enabled (Redis cfg))) (Register now self r).2.

(** src/internal/cluster/state_redis.go:70-74 [Ping]  The in-memory backend is
    always healthy; the other one remembers its last ping. *)
Definition Ping (cfg : Config) (reachable : bool) (s : life) : bool * life :=
  let ok := if redis_Enabled (Redis cfg) then reachable else true in
  (ok, mkLife (l_self s) (l_state s) (l_loop s) (l_wasHealthy s) (l_promoting s) (l_detector s)
         (l_stopped s) ok (l_reg s)).

(** [hbOnce.Do(go heartbeatLoop)]: the loop starts with the health it finds. *)
Definition start_loop (s : life) : life := if l_loop s then s else set_loop true (l_healthy s) s.

(** src/internal/cluster/cluster.go:417-455 [Start] *)
Definition Start (cfg : Config) (now : Z) (reachable : bool) (s : life) : life :=
  if negb (Enabled cfg) then setState now NodeReady s
  else
    let '(ok, s) := Ping cfg reachable s in
    if negb ok && redis_Enabled (Redis cfg) && redis_Required (Redis cfg) then start_loop s
    else set_detector (start_loop (setState now NodeReady s)).

(** src/internal/cluster/cluster.go:464-478 [Ready] *)
Definition Ready (cfg : Config) (s : life) : bool :=
  if negb (Enabled cfg) then true
  else if negb (AcceptsSessions (l_state s)) then false
  else negb (redis_Enabled (Redis cfg) && redis_Required (Redis cfg) && negb (l_healthy s)).

(** src/internal/cluster/cluster.go:488-499 [heartbeatLoop: ping]  The first half
    of a tick, up to the decision to promote. *)
Definition tick_ping (cfg : Config) (now : Z) (reachable : bool) (s : life) : life :=
  let '(ok, s) := Ping cfg reachable s in
  if ok && negb (l_wasHealthy s) then
    let s := set_reg (Register now (currentSelf s) (l_reg s)).2 s in
    set_promoting (bool_decide (l_state s = NodeStarting)) s
  else s.

(** src/internal/cluster/cluster.go:500-517 [heartbeatLoop: rest]  The second
    half; [peers] are the [NodeInfo]s the reachable peers returned. *)
Definition tick_finish (cfg : Config) (now : Z) (peers : list NodeInfo) (s : life) : life :=
  let s := if l_promoting s then set_promoting false (setState now NodeReady s) else s in
  let s := set_loop (l_loop s) (l_healthy s) s in
  let r := if l_healthy s
           then (Heartbeat now (cfg_NodeID cfg) (Register now (currentSelf s) (l_reg s)).2).2
           else l_reg s in
  set_reg (foldl (λ r n, (Register now n r).2) r peers) s.

(** src/internal/cluster/cluster.go:702-706 [BeginShutdown] *)
Definition BeginShutdown (now : Z) (s : life) : life := setState now NodeShuttingDown s.

(** src/internal/cluster/cluster.go:708-737 [Shutdown]  The teardown of the other
    components (detector, caches, transports, media) is not part of this state. *)
Definition Shutdown (cfg : Config) (now : Z) (s : life) : life :=
  let s := set_stopped (setState now NodeOffline s) in
  set_reg (Unregister (cfg_NodeID cfg) (l_reg s)) s.

(** ** Executions *)

Inductive life_step :=
| SPing (now : Z) (reachable : bool)
| SFinish (now : Z) (peers : list NodeInfo)
| SBeginShutdown (now : Z)
| SShutdown (now : Z).

(** The loop runs from its start until the stop signal; the halves of a tick
    alternate, [mid] says which one is next. *)
Definition life_act (cfg : Config) (p : life * bool) (a : life_step) : life * bool :=
  let '(s, mid) := p in
  match a with
  | SPing now ok =>
      if l_loop s && negb (l_stopped s) && negb mid then (tick_ping cfg now ok s, true) else (s, mid)
  | SFinish now peers => if mid then (tick_finish cfg now peers s, false) else (s, mid)
  | SBeginShutdown now => (BeginShutdown now s, mid)
  | SShutdown now => (Shutdown cfg now s, mid)
  end.

(** A process: a new node, [Start] once, then any interleaving. *)
Definition life_run (cfg : Config) (now : Z) (r : Registry) (ok : bool) (l : list life_step) :
    life * bool :=
  foldl (life_act cfg) (Start cfg now ok (newLife cfg now r), false) l.

(** ** What holds in every execution *)

(** The backend answered a ping, now or before. *)
Fixpoint pinged (l : list life_step) : bool :=
  match l with
  | [] => false
  | SPing _ ok :: l => ok || pinged l
  | _ :: l => pinged l
  end.

Definition draining (st : NodeState) : bool :=
  match st with NodeShuttingDown | NodeOffline => true | _ => false end.

Definition is_drain (a : life_step) : bool :=
  match a with SBeginShutdown _ | SShutdown _ => true | _ => false end.

(** [seen]: the backend has answered a ping; [dr]: the node was told to drain. *)
Definition life_inv (dr seen : bool) (p : life * bool) : Prop :=
  let '(s, mid) := p in
  (dr = true → l_promoting s = false ∧ draining (l_state s) = true) ∧
  (l_promoting s = true → seen = true) ∧
  (AcceptsSessions (l_state s) = true → seen = true).

Definition answered (a : life_step) : bool := match a with SPing _ ok => ok | _ => false end.

Lemma tick_ping_inv cfg dr seen now ok s mid mid' :
  redis_Enabled (Redis cfg) = true →
  life_inv dr seen (s, mid) → life_inv dr (seen || ok) (tick_ping cfg now ok s, mid').
Proof.
  intros Hre (H1 & H2 & H3). unfold tick_ping, Ping. rewrite Hre. simpl.
  destruct ok; simpl; rewrite ?orb_true_r, ?orb_false_r; [|by split_and!].
  destruct (l_wasHealthy s); simpl; [by split_and!|]. split_and!; try done.
  intros Hd. destruct (H1 Hd) as [_ Hs]. simpl. split; [|done].
  apply bool_decide_eq_false. by destruct (l_state s).
Qed.

Lemma tick_finish_inv cfg dr seen now peers s mid mid' :
  life_inv dr seen (s, mid) → life_inv dr seen (tick_finish cfg now peers s, mid').
Proof.
  intros (H1 & H2 & H3). unfold tick_finish.
  destruct (l_promoting s) eqn:Hp; simpl; rewrite ?Hp; [|by split_and!].
  split_and!; try done; try (intros Hd; by destruct (H1 Hd)); by intros; apply H2.
Qed.

Lemma life_inv_step cfg dr seen p a :
  redis_Enabled (Redis cfg) = true →
  (is_drain a = true → l_promoting p.1 = false) →
  life_inv dr seen p → life_inv (dr || is_drain a) (seen || answered a) (life_act cfg p a).
Proof.
  intros Hre Hdr. destruct p as [s mid]. intros Hi.
  destruct a as [now ok|now peers|now|now]; simpl in *; rewrite ?orb_false_r, ?orb_true_r.
  - destruct (_ && _); [by apply (tick_ping_inv _ _ _ _ _ _ mid)|]. destruct Hi as (H1 & H2 & H3).
    split_and!; auto; intros Hx; [by rewrite (H2 Hx)|by rewrite (H3 Hx)].
  - destruct mid; [by apply (tick_finish_inv _ _ _ _ _ _ true)|done].
  - specialize (Hdr eq_refl). split_and!; simpl; auto; try done; try congruence.
  - specialize (Hdr eq_refl). split_and!; simpl; auto; try done; try congruence.
Qed.

(** Drain requests that do not fall between the two halves of a promotion. *)
Definition drains_apart (cfg : Config) (now : Z) (r : Registry) (ok : bool) (l : list life_step) : Prop :=
  ∀ l1 a l2, l = l1 ++ a :: l2 → is_drain a = true →
    l_promoting (life_run cfg now r ok l1).1 = false.

Lemma pinged_existsb l : pinged l = existsb answered l.
Proof. induction l as [|[] l IH]; simpl; congruence. Qed.

Lemma life_run_inv cfg now r ok l :
  Enabled cfg = true → redis_Enabled (Redis cfg) = true → redis_Required (Redis cfg) = true →
  drains_apart cfg now r ok l →
  life_inv (existsb is_drain l) (ok || pinged l) (life_run cfg now r ok l).
Proof.
  intros He Hre Hrq. rewrite pinged_existsb. induction l as [|a l IH] using rev_ind; intros Hd.
  - unfold life_run, Start, Ping, newLife. simpl. rewrite He, Hre, Hrq. simpl.
    rewrite orb_false_r. by destruct ok.
  - unfold life_run. rewrite foldl_app. simpl. rewrite !existsb_app. simpl.
    rewrite !orb_false_r, orb_assoc. apply life_inv_step; [done|..].
    + apply (Hd l a []). done.
    + apply IH. intros l1 a' l2 ->. apply (Hd l1 a' (l2 ++ [a])). by rewrite <- app_assoc.
Qed.

(** A node is READY only with its shared state, and draining is final.  When
    the backend is a hard dependency: in every interleaving of the heartbeat loop
    with drain requests, the node accepts sessions only if the backend has
    answered a ping; [Ready] moreover requires that it answered the last one; and
    after a drain request that does not fall between the loop's check and its
    promotion, the node never accepts sessions again. *)
Theorem lifecycle_safe cfg now r ok l :
  Enabled cfg = true → redis_Enabled (Redis cfg) = true → redis_Required (Redis cfg) = true →
  drains_apart cfg now r ok l →
  let s := (life_run cfg now r ok l).1 in
  (AcceptsSessions (l_state s) = true → ok || pinged l = true) ∧
  (Ready cfg s = true → l_healthy s = true ∧ ok || pinged l = true) ∧
  (existsb is_drain l = true → Ready cfg s = false).
Proof.
  intros He Hre Hrq Hd s. pose proof (life_run_inv cfg now r ok l He Hre Hrq Hd) as Hi.
  unfold s. destruct (life_run cfg now r ok l) as [s' mid]. destruct Hi as (H1 & H2 & H3). simpl.
  unfold Ready. rewrite He, Hre, Hrq. simpl. split_and!; [done| |].
  - destruct (AcceptsSessions (l_state s')) eqn:E; simpl; [|done].
    rewrite negb_involutive. intros ->. auto.
  - intros Hdr. destruct (H1 Hdr) as [_ Hs]. by destruct (l_state s').
Qed.

Definition hard_config : Config :=
  mkConfig true "n" "" 0 "dev" "s3cret" [] (5 * second) (15 * second) (2 * second) 65536
    (30 * second) 2 (2 * second) (mkCapacity 0 0 0 (f_of_Z 1) (f_of_Z 1)) (5 * second) (5 * second) 4
    false (mkRedis true true 0 0 0 0).

(** The backend comes up after the start, then the node drains. *)
Example lifecycle_safe_witness :
  let l := [SPing 1 false; SFinish 1 []; SPing 2 true; SFinish 2 []; SBeginShutdown 3] in
  Ready hard_config (life_run hard_config 0 (NewInMemoryNodeRegistry 15) false (take 4 l)).1 = true ∧
  Ready hard_config (life_run hard_config 0 (NewInMemoryNodeRegistry 15) false l).1 = false.
Proof.
  split; [vm_compute; reflexivity|].
  apply (lifecycle_safe hard_config 0 (NewInMemoryNodeRegistry 15) false
    [SPing 1 false; SFinish 1 []; SPing 2 true; SFinish 2 []; SBeginShutdown 3]); try reflexivity.
  intros l1 a l2 E Ha.
  destruct l1 as [|? [|? [|? [|? [|? l1]]]]]; simplify_eq/=; try done.
  by destruct l1.
Defined.

(** The drain request that falls into the window is overwritten: the node ends up
    READY although it was told to shut down. *)
Example drain_lost_in_promotion :
  Ready hard_config
    (life_run hard_config 0 (NewInMemoryNodeRegistry 15) false
       [SPing 1 true; SBeginShutdown 2; SFinish 3 []]).1 = true.
Proof. vm_compute. reflexivity. Qed.

(** A node that starts while its backend is down never watches the others.
    When the ping in [Start] fails, the heartbeat loop later promotes the node to
    READY, but only [Start] turns the failure detector (and the recovery sweep)
    on: whatever happens afterwards, the detector stays off. *)
Theorem late_ready_without_detector cfg now r l :
  Enabled cfg = true → redis_Enabled (Redis cfg) = true → redis_Required (Redis cfg) = true →
  l_detector (life_run cfg now r false l).1 = false ∧
  Ready cfg (life_run cfg now r false [SPing now true; SFinish now []]).1 = true.
Proof.
  intros He Hre Hrq. split.
  - induction l as [|a l IH] using rev_ind.
    + unfold life_run, Start, Ping. simpl. by rewrite He, Hre, Hrq.
    + unfold life_run in *. rewrite foldl_app. simpl. destruct (foldl _ _ l) as [s mid]. simpl in *.
      destruct a as [t ok|t peers|t|t]; simpl; [| |done..].
      * destruct (_ && _); [|done]. unfold tick_ping, Ping. simpl. by destruct (_ && _).
      * destruct mid; [|done]. unfold tick_finish. by destruct (l_promoting s).
  - unfold life_run, Start, Ping. simpl. rewrite He, Hre, Hrq. simpl.
    unfold tick_ping, tick_finish, Ping, Ready. simpl. by rewrite He, Hre, Hrq.
Qed.

Example late_ready_without_detector_witness :
  l_detector (life_run hard_config 0 (NewInMemoryNodeRegistry 15) false
    [SPing 5 true; SFinish 5 []; SPing 10 true; SFinish 10 []]).1 = false ∧
  Ready hard_config (life_run hard_config 0 (NewInMemoryNodeRegistry 15) false
    [SPing 0 true; SFinish 0 []]).1 = true.
Proof. apply (late_ready_without_detector hard_config); reflexivity. Defined.
