(* ===== verification/Teardown.v ===== *)
(** * Shutting a node down beside its own goroutines (internal/cluster: cluster, health_load)

    [Cluster.Shutdown] stops the node's loops and removes it from the shared stores one
    call at a time; the heartbeat loop and the load reporter are not waited for, and act
    between any two of its calls.  The steps of all three, in any order, over the registry
    and the load store (in memory; the Redis stores keep the same entries with a time to
    live). *)

From S2P Require Import Prelude GoFloat ClusterTypes Registry LoadStore Lifecycle.

(** ** The three threads *)

(** src/internal/cluster/cluster.go:708-737 [Shutdown]  Its calls. *)
Inductive down_op :=
| DOffline | DStopHeartbeat | DCancelDetection | DStopDetector | DCloseDedup | DCloseReporter | DDeleteLoad | DCloseTransport
| DCloseMedia | DUnregister | DCloseState.

#[export] Instance down_op_eq_dec : EqDecision down_op.
Proof. solve_decision. Defined.

(** src/internal/cluster/cluster.go:708-737 [Shutdown]  The order of the calls. *)
Definition shutdown_ops : list down_op :=
  [DOffline; DStopHeartbeat; DCancelDetection; DStopDetector; DCloseDedup; DCloseReporter; DDeleteLoad; DCloseTransport;
   DCloseMedia; DUnregister; DCloseState].

(** src/internal/cluster/health_load.go:150-162 [run]  Where the reporter is: not started,
    at its select, between reading the figures and publishing them, returned. *)
Inductive reporter := RepOff | RepWaiting | RepHolding (load : NodeLoad) | RepGone.

(** src/internal/cluster/health_load.go:164-173 [report]  What is published. *)
Definition report_load (now : Z) (self : NodeInfo) (provider : option NodeLoad) : NodeLoad :=
  match provider with
  | Some p => mkLoad (ID self) (ClusterTypes.State self) (Rooms p) (Participants p) (Publications p) (Subscriptions p)
                (CPUPercent p) (MemoryBytes p) (Goroutines p) now
  | None => mkLoad (ID self) (ClusterTypes.State self) 0 0 0 0 (S754_zero false) 0 0 now
  end.

(** A node with its goroutines: the heartbeat loop between the halves of a tick or
    returned, the reporter, the calls Shutdown has still to make and those it has made, the
    shared stores, and whether the connection to the backend is closed. *)
Record node := mkNode {
  n_life : life; n_mid : bool; n_hbGone : bool; n_rep : reporter; n_loads : LoadStore;
  n_todo : list down_op; n_done : list down_op; n_closed : bool
}.

(** One part replaced. *)
Definition put_life (x : life) (n : node) : node :=
  mkNode x (n_mid n) (n_hbGone n) (n_rep n) (n_loads n) (n_todo n) (n_done n) (n_closed n).
Definition put_mid (x : bool) (n : node) : node :=
  mkNode (n_life n) x (n_hbGone n) (n_rep n) (n_loads n) (n_todo n) (n_done n) (n_closed n).
Definition put_gone (n : node) : node :=
  mkNode (n_life n) (n_mid n) true (n_rep n) (n_loads n) (n_todo n) (n_done n) (n_closed n).
Definition put_rep (x : reporter) (n : node) : node :=
  mkNode (n_life n) (n_mid n) (n_hbGone n) x (n_loads n) (n_todo n) (n_done n) (n_closed n).
Definition put_loads (x : LoadStore) (n : node) : node :=
  mkNode (n_life n) (n_mid n) (n_hbGone n) (n_rep n) x (n_todo n) (n_done n) (n_closed n).
Definition put_closed (x : bool) (n : node) : node :=
  mkNode (n_life n) (n_mid n) (n_hbGone n) (n_rep n) (n_loads n) (n_todo n) (n_done n) x.
Definition put_ops (todo done_ : list down_op) (n : node) : node :=
  mkNode (n_life n) (n_mid n) (n_hbGone n) (n_rep n) (n_loads n) todo done_ (n_closed n).

Section node.
Context (cfg : Config).

(** A closed connection refuses every write. *)
Definition on_registry (f : life → life) (n : node) : node :=
  put_life (if n_closed n then set_reg (l_reg (n_life n)) (f (n_life n)) else f (n_life n)) n.
Definition on_loads (f : LoadStore → LoadStore) (n : node) : node := if n_closed n then n else put_loads (f (n_loads n)) n.

(** src/internal/cluster/cluster.go:708-737 [Shutdown: calls]  Closing the in-memory
    backend does nothing. *)
Definition down (now : Z) (op : down_op) (n : node) : node :=
  match op with
  | DOffline => on_registry (setState now NodeOffline) n
  | DStopHeartbeat => put_life (set_stopped (n_life n)) n
  | DDeleteLoad => on_loads (DeleteLoad (cfg_NodeID cfg)) n
  | DUnregister => on_registry (λ s, set_reg (Unregister (cfg_NodeID cfg) (l_reg s)) s) n
  | DCloseState => put_closed (redis_Enabled (Redis cfg)) n
  | DCancelDetection | DStopDetector | DCloseDedup | DCloseReporter | DCloseTransport | DCloseMedia => n
  end.

(** A step of one of the threads.  A select whose stop channel is closed may still take a
    tick that is ready. *)
Inductive event :=
| HbPing (reachable : bool) | HbFinish (peers : list NodeInfo) | HbReturn
| RepTick (provider : option NodeLoad) | RepPublish | RepReturn
| Down.

(** src/internal/cluster/health_load.go:150-180 [run, report]  Publishing, with the time to
    live the reporter was made with. *)
Definition publish (now : Z) (l : NodeLoad) (s : LoadStore) : LoadStore :=
  PublishLoad now l (rep_ttl (newLoadReporter (LoadReportInterval cfg))) s.

(** The heartbeat loop was started and has not returned. *)
Definition alive (n : node) : bool := l_loop (n_life n) && negb (n_hbGone n).

(** One step, at a time. *)
Definition act (n : node) (e : Z * event) : node :=
  let '(now, a) := e in
  match a with
  | HbPing reachable =>
      if alive n && negb (n_mid n) then put_mid true (on_registry (tick_ping cfg now (reachable && negb (n_closed n))) n) else n
  | HbFinish peers => if n_mid n then put_mid false (on_registry (tick_finish cfg now peers) n) else n
  | HbReturn => if alive n && negb (n_mid n) && l_stopped (n_life n) then put_gone n else n
  | RepTick provider =>
      match n_rep n with RepWaiting => put_rep (RepHolding (report_load now (currentSelf (n_life n)) provider)) n | _ => n end
  | RepPublish => match n_rep n with RepHolding l => put_rep RepWaiting (on_loads (publish now l) n) | _ => n end
  | RepReturn =>
      match n_rep n with RepWaiting => if bool_decide (DCloseReporter ∈ n_done n) then put_rep RepGone n else n | _ => n end
  | Down => match n_todo n with op :: todo => put_ops todo (n_done n ++ [op]) (down now op n) | [] => n end
  end.

(** An interleaving. *)
Definition run (n : node) (l : list (Z * event)) : node := foldl act n l.

(** src/internal/cluster/cluster.go:417-455 [Start]  A node that has started: an enabled one
    has its loops. *)
Definition started (now : Z) (reachable : bool) (r : Registry) (s : LoadStore) : node :=
  mkNode (Lifecycle.Start cfg now reachable (newLife cfg now r)) false false (if Enabled cfg then RepWaiting else RepOff) s
    shutdown_ops [] false.

(** ** Without the other threads *)

Lemma report_splits now self p s :
  report (newLoadReporter (LoadReportInterval cfg)) now self p s = publish now (report_load now self p) s.
Proof. by destruct p. Qed.

(** The calls in a row are the atomic shutdown of the lifecycle, and the removal of the
    node's load. *)
Lemma shutdown_alone now n :
  n_todo n = shutdown_ops → n_closed n = false →
  let n' := run n (replicate 11 (now, Down)) in
  n_life n' = Lifecycle.Shutdown cfg now (n_life n) ∧ n_loads n' = DeleteLoad (cfg_NodeID cfg) (n_loads n) ∧ n_todo n' = [].
Proof.
  intros Ht Hc. destruct n as [s mid gone rep loads todo dn closed]. cbn in Ht, Hc. subst. done.
Qed.

(** ** A node whose loops have returned leaves no trace *)

Definition quiet (n : node) : Prop := n_mid n = false ∧ alive n = false ∧ (n_rep n = RepOff ∨ n_rep n = RepGone).

(** What has been removed stays removed, [k] calls into the shutdown. *)
Definition removed (n : node) : Prop :=
  ∃ k, n_todo n = drop k shutdown_ops
    ∧ ((7 ≤ k)%nat → loads (n_loads n) !! cfg_NodeID cfg = None)
    ∧ ((10 ≤ k)%nat → nodes (l_reg (n_life n)) !! cfg_NodeID cfg = None)
    ∧ ((k ≤ 10)%nat → n_closed n = false).

Lemma quiet_step n e : quiet n → removed n → quiet (act n e) ∧ removed (act n e).
Proof.
  intros Hq Hd. pose proof Hq as (Hm & Ha & Hr). destruct e as [now a]. unfold act. rewrite Hm, Ha.
  destruct a; cbn [andb negb]; try done; try (destruct Hr as [-> | ->]; done).
  destruct Hd as (k & Ht & Hl & Hn & Hc).
  destruct (n_todo n) as [|op todo] eqn:Et; [split; [done|]; exists k; rewrite Et; done|].
  split; [destruct op; cbn [down]; unfold on_registry, on_loads; destruct (n_closed n); exact Hq|]. exists (S k).
  do 11 (destruct k as [|k]; [injection Ht as -> ->; unfold down, on_registry, on_loads; rewrite ?Hc by lia; cbn;
    split_and!; first [done|intros ?; first [lia|by apply Hl; lia|by apply Hn; lia|by apply lookup_delete_eq|by apply Hc; lia]]|]).
  cbn in Ht. by rewrite drop_nil in Ht.
Qed.

(** A node whose loops never ran, or have returned, is in neither store once Shutdown has
    returned, and stays out. *)
Lemma shutdown_clean n l :
  quiet n → n_todo n = shutdown_ops → n_closed n = false →
  let n' := run n l in
  n_todo n' = [] →
  loads (n_loads n') !! cfg_NodeID cfg = None ∧ nodes (l_reg (n_life n')) !! cfg_NodeID cfg = None.
Proof.
  intros Hq Ht Hc. assert (Hr : removed n) by (exists 0%nat; split_and!; [done|lia|lia|done]).
  clear Ht Hc. unfold run. cbv zeta.
  assert (H : quiet (foldl act n l) ∧ removed (foldl act n l)).
  { revert n Hq Hr. induction l as [|e l IH]; intros n Hq Hr; [done|]. cbn [foldl]. by apply IH; apply quiet_step. }
  destruct H as [_ (k & Ht & Hl & Hn & _)]. rewrite Ht. intros Hk.
  assert (11 ≤ k)%nat by (apply (f_equal length) in Hk; rewrite length_drop in Hk; cbn in Hk; lia).
  split; [apply Hl|apply Hn]; lia.
Qed.

(** ** Otherwise it is forgotten *)

(** The time a load is kept after it was published. *)
Definition kept_for : Z :=
  let ttl := rep_ttl (newLoadReporter (LoadReportInterval cfg)) in if ttl <=? 0 then 6 * second else ttl.

(** Nothing in the stores is newer than [t]. *)
Definition old (t : Z) (n : node) : Prop :=
  loads_wf (n_loads n)
  ∧ (∀ e, loads (n_loads n) !! cfg_NodeID cfg = Some e → load_exp e ≤ t + kept_for)
  ∧ (∀ id x, nodes (l_reg (n_life n)) !! id = Some x → LastSeen x ≤ t).

Definition seen_by (t : Z) (r : Registry) : Prop := ∀ id x, nodes r !! id = Some x → LastSeen x ≤ t.

Lemma Register_seen t now x r : now ≤ t → seen_by t r → seen_by t (Register now x r).2.
Proof.
  intros Hn Hr. unfold Register. case_bool_decide; [done|]. cbn [snd set_nodes nodes]. intros id y.
  cbn. rewrite lookup_insert_Some. intros [[_ <-]|[_ Hy]]; [|by apply (Hr id)]. done.
Qed.

Lemma Heartbeat_seen t now id r : now ≤ t → seen_by t r → seen_by t (Heartbeat now id r).2.
Proof.
  intros Hn Hr. unfold Heartbeat. destruct (nodes r !! id) as [y|]; [|done]. intros id' z. cbn.
  rewrite lookup_insert_Some. intros [[_ <-]|[_ Hz]]; [done|by apply (Hr id')].
Qed.

Lemma Unregister_seen t id r : seen_by t r → seen_by t (Unregister id r).
Proof. intros Hr id' x. cbn. rewrite lookup_delete_Some. intros [_ Hx]. by apply (Hr id'). Qed.

Lemma peers_seen t now peers r : now ≤ t → seen_by t r → seen_by t (foldl (λ r n, (Register now n r).2) r peers).
Proof. intros Hn. revert r. induction peers as [|p peers IH]; intros r Hr; [done|]. cbn [foldl]. by apply IH, Register_seen. Qed.

Lemma setState_seen t now st s : now ≤ t → seen_by t (l_reg s) → seen_by t (l_reg (setState now st s)).
Proof. intros Hn Hs. by apply Register_seen. Qed.

Lemma tick_ping_seen t now ok s : now ≤ t → seen_by t (l_reg s) → seen_by t (l_reg (tick_ping cfg now ok s)).
Proof.
  intros Hn Hs. unfold tick_ping, Ping. cbn. destruct (_ && _); [|done]. cbn. by apply Register_seen.
Qed.

Lemma tick_finish_seen t now peers s : now ≤ t → seen_by t (l_reg s) → seen_by t (l_reg (tick_finish cfg now peers s)).
Proof.
  intros Hn Hs. unfold tick_finish. cbn [l_reg set_reg set_loop]. apply peers_seen; [done|].
  assert (H : seen_by t (l_reg (if l_promoting s then set_promoting false (setState now NodeReady s) else s))).
  { destruct (l_promoting s); [|done]. by apply setState_seen. }
  cbn. destruct (l_healthy _); [|done]. by apply Heartbeat_seen, Register_seen.
Qed.

Lemma publish_old t now l s :
  now ≤ t → loads_wf s → (∀ e, loads s !! cfg_NodeID cfg = Some e → load_exp e ≤ t + kept_for) →
  loads_wf (publish now l s) ∧ ∀ e, loads (publish now l s) !! cfg_NodeID cfg = Some e → load_exp e ≤ t + kept_for.
Proof.
  intros Hn Hw Hs. split; [by apply PublishLoad_wf|]. intros e. unfold publish, PublishLoad. cbn [loads].
  fold kept_for. rewrite lookup_insert_Some. intros [[_ <-]|[_ He]]; [cbn [load_exp]; fold kept_for; lia|by apply Hs].
Qed.

Lemma on_registry_old t f n :
  (seen_by t (l_reg (n_life n)) → seen_by t (l_reg (f (n_life n)))) → old t n → old t (on_registry f n).
Proof. intros Hf (H1 & H2 & H3). split; [done|]. split; [done|]. unfold on_registry. cbn. destruct (n_closed n); [done|by apply Hf]. Qed.

Lemma act_old t n e : e.1 ≤ t → old t n → old t (act n e).
Proof.
  destruct e as [now a]. cbn [fst]. intros Hn Ho. pose proof Ho as (H1 & H2 & H3). destruct a; cbn [act].
  - destruct (_ && _); [|done].
    exact (on_registry_old t (tick_ping cfg now (reachable && negb (n_closed n))) n (tick_ping_seen t now _ (n_life n) Hn) Ho).
  - destruct (n_mid n); [|done].
    exact (on_registry_old t (tick_finish cfg now peers) n (tick_finish_seen t now peers (n_life n) Hn) Ho).
  - destruct (_ && _); done.
  - destruct (n_rep n); done.
  - destruct (n_rep n) as [| |l|]; try done. unfold on_loads. destruct (n_closed n); [done|].
    destruct (publish_old t now l (n_loads n) Hn H1 H2) as [? ?]. done.
  - destruct (n_rep n); try done. by case_bool_decide.
  - destruct (n_todo n) as [|op todo]; [done|]. destruct op; try done.
    + exact (on_registry_old t (setState now NodeOffline) n (setState_seen t now _ (n_life n) Hn) Ho).
    + cbn [down]. unfold on_loads. destruct (n_closed n); [done|]. split; [by apply DeleteLoad_wf|]. split; [|done].
      intros e. cbn. rewrite lookup_delete_Some. intros [? _]. done.
    + exact (on_registry_old t (λ s, set_reg (Unregister (cfg_NodeID cfg) (l_reg s)) s) n (Unregister_seen t (cfg_NodeID cfg) _) Ho).
Qed.

(** Nothing is written after the connection was closed. *)
Lemma closed_frozen n l :
  n_closed n = true → n_todo n = [] →
  n_closed (run n l) = true ∧ n_loads (run n l) = n_loads n ∧ l_reg (n_life (run n l)) = l_reg (n_life n).
Proof.
  unfold run. revert n. induction l as [|[now a] l IH]; intros n Hc Ht; [done|]. cbn [foldl].
  assert (H : n_closed (act n (now, a)) = true ∧ n_todo (act n (now, a)) = []
    ∧ n_loads (act n (now, a)) = n_loads n ∧ l_reg (n_life (act n (now, a))) = l_reg (n_life n)).
  { destruct a; cbn [act]; unfold on_registry, on_loads; rewrite ?Hc, ?Ht; try done;
      repeat match goal with |- context [if ?b then _ else _] => destruct b | |- context [match n_rep n with _ => _ end] => destruct (n_rep n) end;
      by rewrite ?Hc, ?Ht. }
  destruct H as (H1 & H2 & H3 & H4). destruct (IH _ H1 H2) as (G1 & G2 & G3). by rewrite G1, G2, G3.
Qed.

(** When Shutdown has made its last call, the connection of a Redis backend is closed. *)
Lemma down_closes n l :
  n_todo n = shutdown_ops → n_todo (run n l) = [] → n_closed (run n l) = redis_Enabled (Redis cfg).
Proof.
  intros Ht. assert (H : ∃ k, n_todo (run n l) = drop k shutdown_ops ∧ ((11 ≤ k)%nat → n_closed (run n l) = redis_Enabled (Redis cfg))).
  { unfold run. induction l as [|[now a] l IH] using rev_ind; [exists 0%nat; split; [done|lia]|]. rewrite foldl_snoc.
    destruct IH as (k & Hk & Hc). destruct (foldl act n l) as [s mid gone rep ld todo dn closed]. cbn in Hk, Hc.
    destruct a; cbn [act n_rep n_mid n_todo];
      try (exists k; repeat case_match; unfold on_registry, on_loads in *; cbn; repeat case_match; simplify_eq; by split).
    destruct todo as [|op todo]; [by exists k|]. exists (S k).
    do 11 (destruct k as [|k]; [injection Hk as -> ->; cbn; unfold on_registry, on_loads; cbn; destruct closed; (split; [done|]); first [lia|done]|]).
    cbn in Hk. by rewrite drop_nil in Hk. }
  destruct H as (k & Hk & Hc). intros He. apply Hc. rewrite Hk in He. apply (f_equal length) in He. rewrite length_drop in He. cbn in He. lia.
Qed.

End node.

(** ** In-flight steps *)

Definition empty_cluster : node := started hard_config 0 true (NewInMemoryNodeRegistry (15 * second)) NewInMemoryLoadStore.
Definition downs (k : nat) : list (Z * event) := replicate k (second, Down).

(** The reporter had read its figures when Shutdown deleted the load: the load is there
    again when Shutdown returns. *)
Example load_published_after_its_deletion :
  let n := run hard_config empty_cluster ([(0, RepTick None)] ++ downs 7 ++ [(second, RepPublish)] ++ downs 4) in
  n_todo n = [] ∧ load_NodeID <$> LoadSnapshot (2 * second) (n_loads n) = ["n"] ∧ LoadSnapshot (20 * second) (n_loads n) = [].
Proof. vm_compute. done. Qed.

(** A heartbeat was under way when Shutdown removed the node: it is registered again. *)
Example registered_after_its_removal :
  let n := run hard_config empty_cluster ([(0, HbPing true)] ++ downs 10 ++ [(second, HbFinish [])] ++ downs 1) in
  n_todo n = [] ∧ (λ x, (ID x, State x)) <$> Registry.List (l_reg (n_life n)) = [("n", NodeOffline)].
Proof. vm_compute. done. Qed.

