(* ===== verification/Messaging.v ===== *)
(** * Node-to-node signaling (internal/cluster: noderpc_message, noderpc_dedup,
      noderpc_handler, noderpc_messagetransport, routing_participant;
      internal/signaling: delivery_cluster)

    A message leaves the [participantRouter] of one node, crosses the HTTP
    transport with its bounded retries, and is processed by the handler of
    another node, which validates it, suppresses duplicates and delivers it.  The
    network is a schedule of hops carried by the state: each attempt meets the
    next one (reply, lost request, lost reply, cancellation).  Metric counters and
    log lines are left out. *)

From S2P Require Import Prelude ClusterTypes Registry LoadStore.
From Stdlib Require Import Strings.Byte.

(** ** Messages *)

(** src/internal/cluster/noderpc_message.go:11-24 [ClusterMessage] *)
Record ClusterMessage := mkMsg {
  Type_ : string;
  RequestID : string;
  SourceNodeID : string;
  TargetNodeID : string;
  Timestamp : Z;
  msg_RoomID : string;
  msg_ParticipantID : string;
  Payload : list byte
}.

Definition with_target (n : string) (m : ClusterMessage) : ClusterMessage :=
  mkMsg (Type_ m) (RequestID m) (SourceNodeID m) n (Timestamp m) (msg_RoomID m) (msg_ParticipantID m)
    (Payload m).

(** src/internal/cluster/noderpc_message.go:29-33 [message types] *)
Definition MsgParticipantMessage : string := "participant.message".
Definition MsgParticipantDisconnect : string := "participant.disconnect".
Definition MsgParticipantControl : string := "participant.control".
Definition MsgRoomEvent : string := "room.event".

(** src/internal/cluster/media_message.go:7-16 [media message types] *)
Definition media_types : list string :=
  ["media.session.open"; "media.session.accept"; "media.session.reject"; "media.session.close";
   "media.subscribe"; "media.subscribe.ack"; "media.unsubscribe"; "media.track.ended"].

(** src/internal/cluster/noderpc_message.go:44-49 [knownMessageTypes] *)
Definition knownMessageTypes : list string :=
  [MsgParticipantMessage; MsgParticipantDisconnect; MsgParticipantControl; MsgRoomEvent] ++ media_types.

(** src/internal/cluster/noderpc_message.go:51-55 [participantScoped] *)
Definition participantScoped (typ : string) : bool :=
  bool_decide (typ = MsgParticipantMessage) || bool_decide (typ = MsgParticipantDisconnect)
  || bool_decide (typ = MsgParticipantControl).

(** [strings.HasPrefix(typ, "media.")]. *)
Definition is_media (typ : string) : bool := String.prefix "media." typ.

Arguments participantScoped : simpl never.
Arguments is_media : simpl never.

(** [time.UnixMilli(ts)] on the time scale of [time.Time]. *)
Definition unix_milli (ts : Z) : Z := 62135596800 * second + ts * millisecond.

(** src/internal/cluster/noderpc_message.go:71-102 [Validate] *)
Definition ValidateMsg (now maxAge maxSize : Z) (m : ClusterMessage) : option Error :=
  if is_blank (Type_ m) || negb (bool_decide (Type_ m ∈ knownMessageTypes)) then
    Some (error CodeClusterMessageInvalid "unknown message type")
  else if is_blank (RequestID m) then Some (error CodeClusterMessageInvalid "requestId is required")
  else if is_blank (SourceNodeID m) then Some (error CodeClusterMessageInvalid "sourceNodeId is required")
  else if is_blank (TargetNodeID m) then Some (error CodeClusterMessageInvalid "targetNodeId is required")
  else if (0 <? maxSize) && (maxSize <? Z.of_nat (length (Payload m))) then
    Some (error CodeClusterMessageTooLarge "payload exceeds limit")
  else if Timestamp m <=? 0 then Some (error CodeClusterMessageInvalid "timestamp is required")
  else if (0 <? maxAge)
          && ((time_sub now (unix_milli (Timestamp m)) >? maxAge)
              || (time_sub (unix_milli (Timestamp m)) now >? wrap64 (maxAge + 30 * second))) then
    Some (error CodeClusterMessageExpired "message timestamp outside the accepted window")
  else None.

(** ** One node: duplicate suppression and dispatch *)

(** src/internal/cluster/noderpc_dedup.go:8-19 [dedupCache] *)
Record dedupCache := mkDedup { dd_ttl : Z; seen : gmap string Z }.

(** src/internal/cluster/noderpc_dedup.go:21-31 [newDedupCache] *)
Definition newDedupCache (ttl : Z) : dedupCache :=
  mkDedup (if ttl <=? 0 then 30 * second else ttl) ∅.

(** src/internal/cluster/noderpc_dedup.go:33-45 [markSeen] *)
Definition markSeen (now : Z) (rid : string) (d : dedupCache) : bool * dedupCache :=
  let fresh := mkDedup (dd_ttl d) (<[rid := now + dd_ttl d]> (seen d)) in
  match seen d !! rid with
  | Some exp => if now <? exp then (true, d) else (false, fresh)
  | None => (false, fresh)
  end.

(** src/internal/cluster/noderpc_dedup.go:47-56 [sweep] *)
Definition sweep (now : Z) (d : dedupCache) : dedupCache :=
  mkDedup (dd_ttl d) (filter (λ p, ¬ (now > p.2)) (seen d)).

(** src/internal/cluster/noderpc_handler.go:17-27 [clusterMessageHandler]  With the
    participants connected to this node, which is what its delivery target
    consults, and the media bridge's control entry point. *)
Record peer := mkPeer {
  p_self : string;
  p_maxAge : Z;
  p_maxSize : Z;
  p_dedup : dedupCache;
  p_delivery : bool;
  p_clients : gset string;
  p_media : option (ClusterMessage → option Error)
}.

Definition set_dedup (d : dedupCache) (p : peer) : peer :=
  mkPeer (p_self p) (p_maxAge p) (p_maxSize p) d (p_delivery p) (p_clients p) (p_media p).

(** What a node does for its participants, and the requests it puts on the wire. *)
Inductive event :=
| Delivered (node : string) (m : ClusterMessage)
| RoomEvent (node : string) (m : ClusterMessage)
| MediaControl (node : string) (m : ClusterMessage)
| Attempt (target : string) (m : ClusterMessage).

(** src/internal/signaling/delivery_cluster.go:21-46 [DeliverToParticipant]  A
    frame with an empty payload is accepted and dropped; a disconnect acts
    without one. *)
Definition DeliverToParticipant (m : ClusterMessage) : M peer event (option Error) :=
  p ← get;
  if negb (bool_decide (msg_ParticipantID m ∈ p_clients p)) then
    mret (Some (mkError CodeParticipantNotFound "participant is not on this node" "" ""
                  (msg_ParticipantID m)))
  else
    when (bool_decide (Type_ m = MsgParticipantDisconnect) || negb (bool_decide (Payload m = [])))
      (emit (Delivered (p_self p) m));;
    mret None.

(** src/internal/signaling/delivery_cluster.go:48-63 [DeliverRoomEvent]  Whether
    the event is a publication announcement or is broadcast to the room's sockets
    is the signaling layer's business; it never fails. *)
Definition DeliverRoomEvent (m : ClusterMessage) : M peer event (option Error) :=
  p ← get;
  emit (RoomEvent (p_self p) m);;
  mret None.

(** src/internal/cluster/noderpc_handler.go:56-79 [Handle: dispatch] *)
Definition dispatch (m : ClusterMessage) : M peer event (option Error) :=
  p ← get;
  if is_media (Type_ m) then
    match p_media p with
    | None => mret (Some (error "MEDIA_NODE_UNAVAILABLE" "cross-node media disabled"))
    | Some f => emit (MediaControl (p_self p) m);; mret (f m)
    end
  else if negb (p_delivery p) then
    mret (Some (error CodeParticipantNotFound "node has no local delivery target"))
  else if participantScoped (Type_ m) then DeliverToParticipant m
  else if bool_decide (Type_ m = MsgRoomEvent) then DeliverRoomEvent m
  else mret (Some (error CodeClusterMessageInvalid "unhandled message type")).

(** src/internal/cluster/noderpc_handler.go:29-80 [Handle] *)
Definition Handle (now : Z) (m : ClusterMessage) : M peer event (option Error) :=
  p ← get;
  match ValidateMsg now (p_maxAge p) (p_maxSize p) m with
  | Some e => mret (Some e)
  | None =>
      if bool_decide (TargetNodeID m ≠ p_self p) then
        mret (Some (mkError CodeClusterTargetMismatch "message addressed to a different node"
                      (TargetNodeID m) "" ""))
      else
        let '(dup, d) := markSeen now (RequestID m) (p_dedup p) in
        modify (set_dedup d);;
        if dup then mret None else dispatch m
  end.

(** ** The transport *)

(** What becomes of one attempt. *)
Inductive hop :=
| HReply
| HLostRequest
| HTimeout (processed : bool)
| HCancelled.

Record netw := mkNet {
  peers : gmap string peer;
  net_reg : Registry;
  hops : list hop
}.

Definition next_hop : M netw event hop :=
  s ← get;
  match hops s with
  | [] => mret HLostRequest
  | h :: rest => modify (λ s, mkNet (peers s) (net_reg s) rest);; mret h
  end.

(** src/internal/cluster/noderpc_messagetransport.go:25-35 [transportDeps] *)
Record transportDeps := mkDeps { d_maxRetries : Z; d_maxSize : Z }.

(** src/internal/cluster/noderpc_messagetransport.go:37-42 [retries] *)
Definition retries (d : transportDeps) : Z := if d_maxRetries d <=? 0 then 2 else d_maxRetries d.

(** src/internal/cluster/noderpc_messagetransport.go:51-62 [resolveReadyNode] *)
Definition resolveReadyNode (nodeID : string) (r : Registry) : option Error :=
  match Get nodeID r with
  | None => Some (mkError CodeClusterNodeNotFound "target node is not registered" nodeID "" "")
  | Some info =>
      if negb (AcceptsSessions (ClusterTypes.State info)) then
        Some (mkError CodeClusterNodeUnavailable "target node is not accepting operations" nodeID "" "")
      else None
  end.

Section transport.
(** The clock, and the length of [json.Marshal(msg)]. *)
Context (now : Z) (body_len : ClusterMessage → Z) (deps : transportDeps).

(** src/internal/cluster/noderpc_http.go:86-137 [handleClusterMessage]  The
    receiving end, after authentication; the answer is the error code of the
    reply, [None] for 204.  A body over the limit does not decode. *)
Definition handleClusterMessage (m : ClusterMessage) : M peer event (option string) :=
  p ← get;
  let limit := if p_maxSize p <=? 0 then 65536 else p_maxSize p in
  if limit + 1024 <? body_len m then mret (Some CodeClusterMessageTooLarge)
  else if bool_decide (TargetNodeID m ≠ "" ∧ TargetNodeID m ≠ p_self p) then
    mret (Some CodeClusterTargetMismatch)
  else
    e ← Handle now (with_target (p_self p) m);
    mret (Code <$> e).

(** A request that arrives at [nodeID]; the node may be gone. *)
Definition arrive (nodeID : string) (m : ClusterMessage) : M netw event (option (option string)) := λ s,
  match peers s !! nodeID with
  | None => (None, s, [])
  | Some p =>
      let '(r, p', w) := handleClusterMessage m p in
      (Some r, mkNet (<[nodeID := p']> (peers s)) (net_reg s) (hops s), w)
  end.

(** The outcomes of [post]. *)
Inductive post_err :=
| PostPlain
| PostError (e : Error).

(** src/internal/cluster/noderpc_messagetransport.go:139-170 [post]  An answer
    without a code counts as CLUSTER_NODE_UNAVAILABLE. *)
Definition post (h : hop) (nodeID : string) (m : ClusterMessage) : M netw event (option post_err) :=
  emit (Attempt nodeID m);;
  match h with
  | HLostRequest | HCancelled => mret (Some PostPlain)
  | HTimeout processed =>
      when processed (arrive nodeID m;; mret tt);;
      mret (Some (PostError (error CodeClusterNodeUnavailable "request timed out")))
  | HReply =>
      r ← arrive nodeID m;
      mret (match r with
            | None => Some PostPlain
            | Some None => None
            | Some (Some c) =>
                Some (PostError (error (if bool_decide (c = "") then CodeClusterNodeUnavailable else c)
                                   "peer returned an error"))
            end)
  end.

(** src/internal/cluster/noderpc_messagetransport.go:121-130 [Send: permanent errors] *)
Definition permanent (e : Error) : bool :=
  bool_decide (Code e ∈ [CodeClusterMessageInvalid; CodeClusterMessageTooLarge; CodeClusterMessageExpired;
                         CodeClusterTargetMismatch; CodeParticipantNotFound; CodeClusterUnauthorized]).

Definition give_up_error (nodeID : string) (last : post_err) : Error :=
  match last with
  | PostError e => e
  | PostPlain => mkError CodeClusterNodeUnavailable "remote node unreachable" nodeID "" ""
  end.

(** src/internal/cluster/noderpc_messagetransport.go:99-137 [Send: attempts]  [n]
    attempts are left; [last] is the error of the previous one, if any. *)
Fixpoint attempts (n : nat) (last : option post_err) (nodeID : string) (m : ClusterMessage) :
    M netw event (option Error) :=
  match n with
  | O => mret (Some (give_up_error nodeID (default PostPlain last)))
  | S n =>
      h ← next_hop;
      match last, h with
      | Some _, HCancelled =>
          mret (Some (mkError CodeClusterNodeUnavailable "context cancelled during retry" nodeID "" ""))
      | _, _ =>
          r ← post h nodeID m;
          match r with
          | None => mret None
          | Some (PostError e) => if permanent e then mret (Some e)
                                  else attempts n (Some (PostError e)) nodeID m
          | Some PostPlain => attempts n (Some PostPlain) nodeID m
          end
      end
  end.

(** src/internal/cluster/noderpc_messagetransport.go:84-137 [Send] *)
Definition Send (nodeID : string) (m : ClusterMessage) : M netw event (option Error) :=
  s ← get;
  match resolveReadyNode nodeID (net_reg s) with
  | Some e => mret (Some e)
  | None =>
      let m := with_target nodeID m in
      if (0 <? d_maxSize deps) && (d_maxSize deps <? body_len m) then
        mret (Some (error CodeClusterMessageTooLarge "message exceeds cluster max size"))
      else attempts (Z.to_nat (retries deps + 1)) None nodeID m
  end.
End transport.

(** ** The participant router *)

(** src/internal/cluster/routing_participant.go:35-38 [cachedLoc] *)
Record cachedLoc := mkCached { c_nodeID : string; c_exp : Z }.

(** src/internal/cluster/routing_participant.go:24-33 [locationCache] *)
Record locationCache := mkCache { cache_ttl : Z; cached : gmap string cachedLoc }.

(** src/internal/cluster/routing_participant.go:40-45 [newLocationCache] *)
Definition newLocationCache (ttl : Z) : locationCache :=
  mkCache (if ttl <=? 0 then 3 * second else ttl) ∅.

(** src/internal/cluster/routing_participant.go:47-56 [get] *)
Definition cache_get (now : Z) (id : string) (c : locationCache) : option string * locationCache :=
  let drop := mkCache (cache_ttl c) (delete id (cached c)) in
  match cached c !! id with
  | None => (None, drop)
  | Some v => if now >? c_exp v then (None, drop) else (Some (c_nodeID v), c)
  end.

(** src/internal/cluster/routing_participant.go:58-62 [put] *)
Definition cache_put (now : Z) (id nodeID : string) (c : locationCache) : locationCache :=
  mkCache (cache_ttl c) (<[id := mkCached nodeID (now + cache_ttl c)]> (cached c)).

(** src/internal/cluster/routing_participant.go:64-68 [invalidate] *)
Definition cache_invalidate (id : string) (c : locationCache) : locationCache :=
  mkCache (cache_ttl c) (delete id (cached c)).

(** src/internal/cluster/routing_participant.go:70-87 [participantRouter]  The
    router's cache, the shared locator, and the network behind it. *)
Record router := mkRouter {
  r_cache : locationCache;
  r_locator : ParticipantLocator;
  r_net : netw
}.

Definition set_cache (f : locationCache → locationCache) (r : router) : router :=
  mkRouter (f (r_cache r)) (r_locator r) (r_net r).

Definition on_net {A} (m : M netw event A) : M router event A := λ r,
  let '(a, n, w) := m (r_net r) in (a, mkRouter (r_cache r) (r_locator r) n, w).

Section router.
Context (now : Z) (body_len : ClusterMessage → Z) (deps : transportDeps).
(** This node's id, the health of the shared state, the failure detector's view. *)
Context (self : string) (stateHealthy : bool) (nodeStale : string → bool).

(** src/internal/cluster/routing_participant.go:178-180 [isStale] *)
Definition isStale (nodeID : string) : bool := bool_decide (nodeID ≠ self) && nodeStale nodeID.

(** src/internal/cluster/routing_participant.go:182-185 [isNotFound] *)
Definition isNotFound (e : option Error) : bool :=
  match e with Some e => bool_decide (Code e = CodeParticipantNotFound) | None => false end.

(** [r.delivery()] and the delivery itself: this node's own client table. *)
Definition deliver_local (m : ClusterMessage) : M netw event (option Error) := λ s,
  match peers s !! self with
  | Some p =>
      if p_delivery p then
        let '(e, p', w) := DeliverToParticipant m p in
        (e, mkNet (<[self := p']> (peers s)) (net_reg s) (hops s), w)
      else (Some (error CodeParticipantNotFound "no local delivery configured"), s, [])
  | None => (Some (error CodeParticipantNotFound "no local delivery configured"), s, [])
  end.

Definition has_delivery (s : netw) : bool := from_option p_delivery false (peers s !! self).

(** src/internal/cluster/routing_participant.go:159-175 [resolve: locator]  The
    authoritative lookup, when the cache did not help. *)
Definition resolve_locator (participantID : string) : M router event (Error + string) :=
  if negb stateHealthy then
    mret (inl (error CodeClusterStateUnavailable "cannot resolve participant location"))
  else
    r ← get;
    match Lookup participantID (r_locator r) with
    | None => mret (inl (error CodeParticipantNotFound "participant not found"))
    | Some loc =>
        if isStale (loc_NodeID loc) then
          mret (inl (mkError CodeParticipantStale "participant's node is stale" (loc_NodeID loc) ""
                       participantID))
        else
          modify (set_cache (cache_put now participantID (loc_NodeID loc)));;
          mret (inr (loc_NodeID loc))
    end.

(** src/internal/cluster/routing_participant.go:151-176 [resolve] *)
Definition resolve (participantID : string) : M router event (Error + string) :=
  r ← get;
  let '(hit, c) := cache_get now participantID (r_cache r) in
  modify (set_cache (λ _, c));;
  match hit with
  | Some n =>
      if negb (isStale n) then mret (inr n)
      else
        modify (set_cache (cache_invalidate participantID));;
        resolve_locator participantID
  | None => resolve_locator participantID
  end.

(** src/internal/cluster/routing_participant.go:123-149 [routeAfterRefresh] *)
Definition routeAfterRefresh (participantID : string) (m : ClusterMessage) :
    M router event (option Error) :=
  r ← get;
  match Lookup participantID (r_locator r) with
  | None => mret (Some (mkError CodeParticipantNotFound "participant not found" "" "" participantID))
  | Some loc =>
      if isStale (loc_NodeID loc) then
        mret (Some (mkError CodeParticipantStale "participant's node is stale" (loc_NodeID loc) ""
                      participantID))
      else
        modify (set_cache (cache_put now participantID (loc_NodeID loc)));;
        if bool_decide (loc_NodeID loc = self) then on_net (deliver_local (with_target self m))
        else on_net (Send now body_len deps (loc_NodeID loc) m)
  end.

(** src/internal/cluster/routing_participant.go:89-121 [Route] *)
Definition Route (participantID : string) (m : ClusterMessage) : M router event (option Error) :=
  target ← resolve participantID;
  match target with
  | inl e => mret (Some e)
  | inr nodeID =>
      r ← get;
      if bool_decide (nodeID = self) && negb (has_delivery (r_net r)) then
        mret (Some (error CodeParticipantNotFound "no local delivery configured"))
      else
        err ← (if bool_decide (nodeID = self) then on_net (deliver_local (with_target self m))
               else on_net (Send now body_len deps nodeID m));
        if isNotFound err then
          modify (set_cache (cache_invalidate participantID));;
          routeAfterRefresh participantID (if bool_decide (nodeID = self) then with_target self m else m)
        else mret err
  end.
End router.

(** ** At most one delivery per request *)

(** What happens at one node: messages arrive, the sweeper runs. *)
Inductive node_op :=
| Arrive (now : Z) (m : ClusterMessage)
| Sweep (now : Z).

Definition op_time (o : node_op) : Z := match o with Arrive t _ | Sweep t => t end.

Definition node_act (o : node_op) : M peer event unit :=
  match o with
  | Arrive now m => Handle now m;; mret tt
  | Sweep now => modify (λ p, set_dedup (sweep now (p_dedup p)) p)
  end.

Definition node_run (l : list node_op) : M peer event unit := for_each l node_act.

(** The side effects of one request. *)
Definition concerns (rid : string) (e : event) : Prop :=
  match e with
  | Delivered _ m | RoomEvent _ m | MediaControl _ m => RequestID m = rid
  | Attempt _ _ => False
  end.

#[export] Instance concerns_dec rid e : Decision (concerns rid e).
Proof. destruct e; simpl; apply _. Defined.

Definition effects (rid : string) (w : list event) : nat := length (filter (concerns rid) w).

Lemma effects_app rid w1 w2 : effects rid (w1 ++ w2) = (effects rid w1 + effects rid w2)%nat.
Proof. unfold effects. by rewrite filter_app, length_app. Qed.

Lemma dispatch_final m p : final (dispatch m) p = p.
Proof.
  unfold dispatch, DeliverToParticipant, DeliverRoomEvent. run_M.
  destruct (is_media (Type_ m)); [by destruct (p_media p)|]. destruct (p_delivery p); simpl; [|done].
  destruct (participantScoped (Type_ m)).
  - destruct (bool_decide (msg_ParticipantID m ∈ p_clients p)); simpl; [|done].
    by destruct (_ || _).
  - by destruct (bool_decide (Type_ m = MsgRoomEvent)).
Qed.

Ltac refold_dispatch m :=
  repeat match goal with
  | |- context [(dispatch m ?q).1.2] =>
      change (dispatch m q).1.2 with (final (dispatch m) q); rewrite dispatch_final
  end.

(** A dispatched message shows at most one effect, its own. *)
Lemma dispatch_effects m p :
  outputs (dispatch m) p ∈ [[]; [Delivered (p_self p) m]; [RoomEvent (p_self p) m];
                            [MediaControl (p_self p) m]].
Proof.
  unfold dispatch, DeliverToParticipant, DeliverRoomEvent. run_M.
  destruct (is_media (Type_ m)); [destruct (p_media p); simpl; set_solver|].
  destruct (p_delivery p); simpl; [|set_solver].
  destruct (participantScoped (Type_ m)).
  - destruct (bool_decide (msg_ParticipantID m ∈ p_clients p)); simpl; [|set_solver].
    destruct (_ || _); simpl; set_solver.
  - destruct (bool_decide (Type_ m = MsgRoomEvent)); simpl; set_solver.
Qed.

Lemma dispatch_only rid m p : RequestID m ≠ rid → effects rid (outputs (dispatch m) p) = 0%nat.
Proof.
  intros Hr. pose proof (dispatch_effects m p) as Hw. unfold effects.
  repeat (apply elem_of_cons in Hw as [-> | Hw]); [..|by apply elem_of_nil in Hw]; [done|..];
    rewrite filter_cons_False by (simpl; done); done.
Qed.

Lemma dispatch_once rid m p : (effects rid (outputs (dispatch m) p) ≤ 1)%nat.
Proof.
  pose proof (dispatch_effects m p) as Hw. unfold effects.
  repeat (apply elem_of_cons in Hw as [-> | Hw]); [..|by apply elem_of_nil in Hw]; [simpl; lia|..];
    (etrans; [apply length_filter|simpl; lia]).
Qed.

(** The three ways through [Handle]. *)
Lemma Handle_cases now m p :
  (∃ e, Handle now m p = (Some e, p, [])) ∨
  (Handle now m p = (None, p, []) ∧
   ∃ exp, seen (p_dedup p) !! RequestID m = Some exp ∧ now < exp) ∨
  (ValidateMsg now (p_maxAge p) (p_maxSize p) m = None ∧
   let p1 := set_dedup (mkDedup (dd_ttl (p_dedup p))
               (<[RequestID m := now + dd_ttl (p_dedup p)]> (seen (p_dedup p)))) p in
   (∀ exp, seen (p_dedup p) !! RequestID m = Some exp → exp ≤ now) ∧
   Handle now m p = dispatch m p1).
Proof.
  unfold Handle. run_M. destruct (ValidateMsg _ _ _ m) as [e|]; [left; by eexists|].
  case_bool_decide; [left; by eexists|]. unfold markSeen.
  destruct (seen (p_dedup p) !! RequestID m) as [exp|] eqn:E.
  - destruct (now <? exp) eqn:Lt; zbool.
    + right; left. split; [by destruct p as [? ? ? [] ? ? ?]|]. by exists exp.
    + right; right. split; [done|]. split; [intros ? [= <-]; lia|].
      by destruct (dispatch m _) as [[r p'] w].
  - right; right. split; [done|]. split; [done|]. by destruct (dispatch m _) as [[r p'] w].
Qed.

Lemma ValidateMsg_age now maxAge maxSize m :
  0 < maxAge < max_duration → ValidateMsg now maxAge maxSize m = None →
  now - unix_milli (Timestamp m) ≤ maxAge.
Proof.
  intros Ha. unfold ValidateMsg. repeat (case_match; [done|]). intros _.
  match goal with E : (0 <? maxAge) && _ = false |- _ => apply andb_false_iff in E as [E|E] end.
  { zbool. lia. }
  zbool. destruct (time_sub now _ >? maxAge) eqn:G; [done|]. rewrite Z.gtb_ltb in G. zbool.
  unfold time_sub, max_duration, min_duration in *. lia.
Qed.

(** The request was processed at [t1]; from [t] on it cannot be again. *)
Definition done_at (rid : string) (t1 t : Z) (p : peer) : Prop :=
  (∃ exp, seen (p_dedup p) !! rid = Some exp ∧ t1 + dd_ttl (p_dedup p) ≤ exp) ∨
  t1 + dd_ttl (p_dedup p) < t.

Definition same_limits (p p' : peer) : Prop :=
  p_maxAge p' = p_maxAge p ∧ dd_ttl (p_dedup p') = dd_ttl (p_dedup p).

Lemma node_act_limits o p : same_limits p (final (node_act o) p).
Proof.
  destruct o as [now m|now]; [|done]. unfold node_act.
  assert (same_limits p (Handle now m p).1.2) as Hh; [|by unfold final, mbind, M_bind; destruct (Handle now m p) as [[? ?] ?]].
  destruct (Handle_cases now m p) as [[e ->]|[[-> _]|(_ & _ & ->)]]; [done..|].
  by refold_dispatch m.
Qed.

Section once.
Context (rid : string) (ts : Z).

(** Copies of the request, all stamped with the same moment, before they arrive. *)
Definition stamped_before (o : node_op) : Prop :=
  match o with
  | Arrive t m => RequestID m = rid → Timestamp m = ts ∧ unix_milli ts < t
  | Sweep _ => True
  end.

Lemma node_act_outputs_handle now m p : outputs (node_act (Arrive now m)) p = outputs (Handle now m) p.
Proof.
  unfold outputs, node_act, mbind, M_bind. destruct (Handle now m p) as [[? ?] ?]. simpl.
  by rewrite app_nil_r.
Qed.

Lemma node_act_final_handle now m p : final (node_act (Arrive now m)) p = final (Handle now m) p.
Proof. unfold final, node_act, mbind, M_bind. by destruct (Handle now m p) as [[? ?] ?]. Qed.

(** Once processed, never again. *)
Lemma done_step o t1 t p :
  0 < p_maxAge p < max_duration → dd_ttl (p_dedup p) = p_maxAge p →
  unix_milli ts < t1 → t ≤ op_time o → stamped_before o → done_at rid t1 t p →
  effects rid (outputs (node_act o) p) = 0%nat ∧ done_at rid t1 (op_time o) (final (node_act o) p).
Proof.
  intros Hage Httl Ht1 Ht Hst Hd. destruct o as [now m|now]; simpl in Ht.
  - rewrite node_act_outputs_handle, node_act_final_handle. unfold outputs, final. simpl.
    assert (done_at rid t1 now p) as Hd' by (destruct Hd; [by left|right; lia]).
    destruct (Handle_cases now m p) as [[e ->]|[[-> _]|(Hv & Hexp & ->)]]; [done..|].
    destruct (decide (RequestID m = rid)) as [Hr|Hr].
    + exfalso. destruct (Hst Hr) as [Hts _]. apply ValidateMsg_age in Hv; [|done].
      rewrite Hts in Hv. rewrite Hr in Hexp.
      destruct Hd' as [(exp & L & Le)|Lt]; [specialize (Hexp _ L)|]; lia.
    + fold (outputs (dispatch m)
        (set_dedup (mkDedup (dd_ttl (p_dedup p))
           (<[RequestID m := now + dd_ttl (p_dedup p)]> (seen (p_dedup p)))) p)).
      split; [by apply dispatch_only|].
      refold_dispatch m. unfold done_at. simpl.
      rewrite lookup_insert_ne by done. exact Hd'.
  - split; [done|]. unfold done_at, final, node_act, modify; simpl.
    destruct Hd as [(exp & L & Le)|Lt]; [|right; lia].
    destruct (decide (now > exp)) as [Hgt|Hle]; [right; lia|left].
    exists exp. split; [|done]. apply map_lookup_filter_Some. by split.
Qed.

Lemma final_for_each_cons {S E A} (f : A → M S E unit) x l s :
  final (for_each (x :: l) f) s = final (for_each l f) (final (f x) s).
Proof.
  unfold final. simpl. unfold mbind, M_bind. destruct (f x s) as [[[] s1] w1].
  simpl. by destruct (for_each l f s1) as [[[] s2] w2].
Qed.

Lemma outputs_for_each_cons {S E A} (f : A → M S E unit) x l s :
  outputs (for_each (x :: l) f) s = outputs (f x) s ++ outputs (for_each l f) (final (f x) s).
Proof.
  unfold outputs, final. simpl. unfold mbind, M_bind. destruct (f x s) as [[[] s1] w1].
  simpl. by destruct (for_each l f s1) as [[[] s2] w2].
Qed.

Lemma done_run l t1 t p :
  0 < p_maxAge p < max_duration → dd_ttl (p_dedup p) = p_maxAge p →
  unix_milli ts < t1 → StronglySorted Z.le (t :: (op_time <$> l)) → Forall stamped_before l →
  done_at rid t1 t p → effects rid (outputs (node_run l) p) = 0%nat.
Proof.
  intros Hage Httl Ht1 Hs Hl. revert t p Hage Httl Hs.
  induction Hl as [|o l Ho Hl IH]; intros t p Hage Httl Hs Hd; [done|].
  unfold node_run. rewrite outputs_for_each_cons, effects_app.
  inversion_clear Hs as [|? ? Hs' Hle]. csimpl. apply Forall_cons_1 in Hle as [Hle _].
  destruct (done_step o t1 t p Hage Httl Ht1 Hle Ho Hd) as [-> Hd'].
  destruct (node_act_limits o p) as [Hl1 Hl2].
  apply (IH (op_time o)); [by rewrite Hl1|by rewrite Hl1, Hl2|done|done].
Qed.
End once.


(** A node with one connected participant, and a message for it. *)
Definition demo_peer : peer :=
  mkPeer "n" (30 * second) 0 (newDedupCache (30 * second)) true {["p"%string]} None.

Definition demo_msg (ts : Z) : ClusterMessage :=
  mkMsg MsgParticipantMessage "req-1" "m" "n" ts "room" "p" ["x"%byte].


(** The bound is sharp: a copy stamped by a clock that is ahead is processed again
    as soon as its entry has expired. *)
Example replay_of_a_future_stamp :
  let t := unix_milli 1000 in
  outputs (node_run [Arrive t (demo_msg 20000); Arrive (t + 30 * second) (demo_msg 20000)]) demo_peer
  = [Delivered "n" (demo_msg 20000); Delivered "n" (demo_msg 20000)].
Proof. vm_compute. reflexivity. Qed.

(** ** Where a routed message goes *)

Definition sent (w : list event) : list (string * ClusterMessage) :=
  omap (λ e, match e with Attempt n m => Some (n, m) | _ => None end) w.

Lemma sent_app w1 w2 : sent (w1 ++ w2) = sent w1 ++ sent w2.
Proof. apply omap_app. Qed.

Lemma Handle_sent now m p : sent (outputs (Handle now m) p) = [].
Proof.
  unfold outputs. destruct (Handle_cases now m p) as [[e ->]|[[-> _]|(_ & _ & ->)]]; [done..|].
  set (p1 := set_dedup _ _). pose proof (dispatch_effects m p1) as Hw. unfold outputs in Hw.
  repeat (apply elem_of_cons in Hw as [-> | Hw]); [done..|]. by apply elem_of_nil in Hw.
Qed.

Lemma DeliverToParticipant_sent m p : sent (outputs (DeliverToParticipant m) p) = [].
Proof.
  unfold DeliverToParticipant. run_M. destruct (bool_decide (msg_ParticipantID m ∈ p_clients p)); [|done].
  simpl. by destruct (_ || _).
Qed.

Section sends.
Context (now : Z) (body_len : ClusterMessage → Z) (deps : transportDeps).

Lemma arrive_sent n m s :
  sent (outputs (arrive now body_len n m) s) = [] ∧
  net_reg (final (arrive now body_len n m) s) = net_reg s.
Proof.
  unfold arrive, outputs, final. destruct (peers s !! n) as [p|]; [|done].
  assert (sent (outputs (handleClusterMessage now body_len m) p) = []) as Hs.
  { unfold handleClusterMessage. autorewrite with mrun.
    destruct (_ <? body_len m); [done|]. case_bool_decide; [done|].
    autorewrite with mrun. by rewrite app_nil_r, app_nil_l, Handle_sent. }
  unfold outputs in Hs. by destruct (handleClusterMessage now body_len m p) as [[r p'] w].
Qed.

Lemma post_sent h n m s :
  sent (outputs (post now body_len h n m) s) = [(n, m)] ∧
  net_reg (final (post now body_len h n m) s) = net_reg s.
Proof.
  unfold post. autorewrite with mrun. rewrite sent_app.
  destruct (arrive_sent n m s) as [Ha Hr].
  destruct h as [| |[]|]; cbn [when]; autorewrite with mrun; rewrite ?sent_app, ?Ha; done.
Qed.

Lemma attempts_sent n last node m s :
  (∃ k, (k ≤ n)%nat ∧ sent (outputs (attempts now body_len n last node m) s) = replicate k (node, m)) ∧
  net_reg (final (attempts now body_len n last node m) s) = net_reg s.
Proof.
  revert last s. induction n as [|n IH]; intros last s; [split; [by exists 0%nat|done]|].
  cbn [attempts]. rewrite outputs_bind, final_bind, sent_app.
  assert (sent (outputs next_hop s) = [] ∧ net_reg (final next_hop s) = net_reg s) as [-> <-].
  { unfold next_hop. run_M. by destruct (hops s). }
  set (h := value next_hop s). set (s1 := final next_hop s). clearbody h s1.
  assert (∀ m' : M netw event (option Error),
    (m' = (r ← post now body_len h node m;
           match r with
           | None => mret None
           | Some (PostError e) => if permanent e then mret (Some e)
                                   else attempts now body_len n (Some (PostError e)) node m
           | Some PostPlain => attempts now body_len n (Some PostPlain) node m
           end)) →
    (∃ k, (k ≤ S n)%nat ∧ sent (outputs m' s1) = replicate k (node, m)) ∧
    net_reg (final m' s1) = net_reg s1) as Hgo.
  { intros m' ->. rewrite outputs_bind, final_bind, sent_app.
    destruct (post_sent h node m s1) as [-> <-].
    set (r := value _ s1). set (s2 := final _ s1). clearbody r s2.
    assert (∀ last', (∃ k, (k ≤ S n)%nat ∧
      [(node, m)] ++ sent (outputs (attempts now body_len n last' node m) s2) = replicate k (node, m)) ∧
      net_reg (final (attempts now body_len n last' node m) s2) = net_reg s2) as Hrec.
    { intros last'. destruct (IH last' s2) as [(k & Hk & ->) Hr]. split; [|done].
      exists (S k). split; [lia|done]. }
    destruct r as [[|e]|]; [apply Hrec| |].
    - destruct (permanent e); [|apply Hrec]. split; [|done]. exists 1%nat. split; [lia|done].
    - split; [|done]. exists 1%nat. split; [lia|done]. }
  destruct last as [last|]; [|by apply Hgo].
  destruct h; try (by apply Hgo). split; [|done]. exists 0%nat. split; [lia|done].
Qed.

Lemma Send_sent n m s :
  (∃ k, (k ≤ Z.to_nat (retries deps + 1))%nat ∧
    sent (outputs (Send now body_len deps n m) s) = replicate k (n, with_target n m) ∧
    (k ≠ 0%nat → resolveReadyNode n (net_reg s) = None)) ∧
  net_reg (final (Send now body_len deps n m) s) = net_reg s.
Proof.
  unfold Send. autorewrite with mrun. rewrite app_nil_l.
  destruct (resolveReadyNode n (net_reg s)) as [e|] eqn:E.
  { split; [|done]. exists 0%nat. split; [lia|done]. }
  destruct (_ && _).
  { split; [|done]. exists 0%nat. split; [lia|done]. }
  destruct (attempts_sent (Z.to_nat (retries deps + 1)) None n (with_target n m) s)
    as [(k & Hk & ->) Hr]. split; [|done]. exists k. split; [done|]. split; [done|]. done.
Qed.
End sends.

Lemma on_net_run {A} (m : M netw event A) r :
  outputs (on_net m) r = outputs m (r_net r) ∧ value (on_net m) r = value m (r_net r) ∧
  final (on_net m) r = mkRouter (r_cache r) (r_locator r) (final m (r_net r)).
Proof. unfold on_net, outputs, value, final. by destruct (m (r_net r)) as [[a n] w]. Qed.

Lemma with_target_twice a b m : with_target a (with_target b m) = with_target a m.
Proof. done. Qed.

Section routes.
Context (now : Z) (body_len : ClusterMessage → Z) (deps : transportDeps).
Context (self : string) (stateHealthy : bool) (nodeStale : string → bool).

Lemma deliver_local_sent m s :
  sent (outputs (deliver_local self m) s) = [] ∧ net_reg (final (deliver_local self m) s) = net_reg s.
Proof.
  unfold deliver_local, outputs, final. destruct (peers s !! self) as [p|]; [|done].
  destruct (p_delivery p); [|done]. pose proof (DeliverToParticipant_sent m p) as Hs.
  unfold outputs in Hs. by destruct (DeliverToParticipant m p) as [[e p'] w].
Qed.

(** A resolution only moves the cache; the node it names is this one or alive. *)
Lemma resolve_run pid r :
  outputs (resolve now self stateHealthy nodeStale pid) r = [] ∧
  r_net (final (resolve now self stateHealthy nodeStale pid) r) = r_net r ∧
  r_locator (final (resolve now self stateHealthy nodeStale pid) r) = r_locator r ∧
  ∀ n, value (resolve now self stateHealthy nodeStale pid) r = inr n → isStale self nodeStale n = false.
Proof.
  assert (∀ r, outputs (resolve_locator now self stateHealthy nodeStale pid) r = [] ∧
    r_net (final (resolve_locator now self stateHealthy nodeStale pid) r) = r_net r ∧
    r_locator (final (resolve_locator now self stateHealthy nodeStale pid) r) = r_locator r ∧
    ∀ n, value (resolve_locator now self stateHealthy nodeStale pid) r = inr n →
      isStale self nodeStale n = false) as Hl.
  { intros r0. unfold resolve_locator. destruct stateHealthy; [|done]. cbn [negb].
    autorewrite with mrun. destruct (Lookup pid (r_locator r0)) as [loc|]; [|done].
    destruct (isStale self nodeStale (loc_NodeID loc)) eqn:E; [done|].
    autorewrite with mrun. split_and!; try done. by intros n [= <-]. }
  unfold resolve. autorewrite with mrun.
  destruct (cache_get now pid (r_cache r)) as [[n|] c]; autorewrite with mrun.
  - destruct (isStale self nodeStale n) eqn:E; cbn [negb]; autorewrite with mrun.
    + set (r1 := set_cache _ _). destruct (Hl r1) as (-> & -> & -> & H). by split_and!.
    + split_and!; try done. by intros n' [= <-].
  - set (r1 := set_cache _ _). destruct (Hl r1) as (-> & -> & -> & H). by split_and!.
Qed.

(** A node a message may be forwarded to. *)
Definition sendable (reg : Registry) (n : string) : Prop :=
  n ≠ self ∧ nodeStale n = false ∧ resolveReadyNode n reg = None.

Lemma not_stale_other n : isStale self nodeStale n = false → n ≠ self → nodeStale n = false.
Proof. unfold isStale. intros H Hn. by rewrite bool_decide_true in H. Qed.

Lemma refresh_sent pid m r :
  ∃ n k, (k ≤ Z.to_nat (retries deps + 1))%nat ∧
    sent (outputs (routeAfterRefresh now body_len deps self nodeStale pid m) r)
      = replicate k (n, with_target n m) ∧
    (k ≠ 0%nat → sendable (net_reg (r_net r)) n ∧ loc_NodeID <$> Lookup pid (r_locator r) = Some n).
Proof.
  unfold routeAfterRefresh. autorewrite with mrun.
  destruct (Lookup pid (r_locator r)) as [loc|] eqn:El;
    [|exists "", 0%nat; split_and!; [lia|done|done]].
  destruct (isStale self nodeStale (loc_NodeID loc)) eqn:Es;
    [exists "", 0%nat; split_and!; [lia|done|done]|].
  autorewrite with mrun. rewrite !app_nil_l. case_bool_decide as Eself.
  - exists "", 0%nat. split_and!; [lia| |done].
    rewrite (proj1 (on_net_run _ _)). by rewrite (proj1 (deliver_local_sent _ _)).
  - rewrite (proj1 (on_net_run _ _)). cbn [r_net set_cache].
    destruct (Send_sent now body_len deps (loc_NodeID loc) m (r_net r)) as [(k & Hk & Hw & Hr) _].
    exists (loc_NodeID loc), k. split_and!; [done|done|]. intros Hk0. split; [|done].
    split_and!; [done|by apply not_stale_other|by apply Hr].
Qed.

Lemma route_sent pid m r :
  ∃ n1 k1 n2 k2,
    sent (outputs (Route now body_len deps self stateHealthy nodeStale pid m) r) =
      replicate k1 (n1, with_target n1 m) ++ replicate k2 (n2, with_target n2 m) ∧
    (k1 ≤ Z.to_nat (retries deps + 1))%nat ∧ (k2 ≤ Z.to_nat (retries deps + 1))%nat ∧
    (k1 ≠ 0%nat → sendable (net_reg (r_net r)) n1) ∧
    (k2 ≠ 0%nat → sendable (net_reg (r_net r)) n2 ∧ loc_NodeID <$> Lookup pid (r_locator r) = Some n2).
Proof.
  unfold Route. autorewrite with mrun.
  destruct (resolve_run pid r) as (-> & Hnet & Hloc & Hstale). rewrite app_nil_l.
  set (r1 := final _ r) in *. destruct (value _ r) as [e|n].
  { exists "", 0%nat, "", 0%nat. split_and!; [done|lia|lia|done|done]. }
  specialize (Hstale n eq_refl). autorewrite with mrun. rewrite app_nil_l.
  destruct (_ && _); [exists "", 0%nat, "", 0%nat; split_and!; [done|lia|lia|done|done]|].
  set (first := if bool_decide (n = self) then on_net _ else on_net _).
  assert (∃ k1, (k1 ≤ Z.to_nat (retries deps + 1))%nat ∧
    sent (outputs first r1) = replicate k1 (n, with_target n m) ∧
    (k1 ≠ 0%nat → sendable (net_reg (r_net r)) n) ∧
    net_reg (r_net (final first r1)) = net_reg (r_net r) ∧
    r_locator (final first r1) = r_locator r) as (k1 & Hk1 & Hw1 & Hs1 & Hreg1 & Hloc1).
  { unfold first. case_bool_decide as Eself.
    - exists 0%nat. rewrite (proj1 (on_net_run _ _)), (proj2 (proj2 (on_net_run _ _))).
      destruct (deliver_local_sent (with_target self m) (r_net r1)) as [-> Hreg].
      cbn [r_net r_locator]. rewrite Hreg, Hnet, Hloc. split_and!; [lia|done..].
    - destruct (Send_sent now body_len deps n m (r_net r1)) as [(k & Hk & Hw & Hr) Hreg].
      exists k. rewrite (proj1 (on_net_run _ _)), (proj2 (proj2 (on_net_run _ _))).
      cbn [r_net r_locator]. rewrite Hreg, Hnet, Hloc in *. split_and!; try done.
      intros Hk0. split_and!; [done|by apply not_stale_other|by apply Hr]. }
  autorewrite with mrun. rewrite sent_app, Hw1.
  destruct (isNotFound (value first r1)).
  2: { exists n, k1, "", 0%nat. split_and!; try done; lia. }
  autorewrite with mrun. rewrite app_nil_l.
  set (m2 := if bool_decide (n = self) then _ else _). set (r2 := set_cache _ _).
  destruct (refresh_sent pid m2 r2) as (n2 & k2 & Hk2 & Hw2 & Hs2).
  exists n, k1, n2, k2. split_and!; try done.
  - rewrite Hw2. unfold m2. by destruct (bool_decide (n = self)).
  - intros Hk0. destruct (Hs2 Hk0) as [Ha Hb]. unfold r2 in Ha, Hb. simpl in Ha, Hb.
    by rewrite Hreg1, Hloc1 in *.
Qed.
End routes.

(** routing goes to live nodes only, a bounded number of times.  A routed
    message is put on the wire for at most two nodes, each time at most one more
    attempt than the configured retries; both are registered, accept sessions, are
    not stale and not this node, and the second one, tried when the first does not
    know the participant, comes from the authoritative locator.  When the shared
    state is down and the cache has no answer, nothing is sent and the caller
    gets CLUSTER_STATE_UNAVAILABLE. *)
Theorem route_discipline now body_len deps self healthy nodeStale pid m r :
  (∃ n1 k1 n2 k2,
    sent (outputs (Route now body_len deps self healthy nodeStale pid m) r) =
      replicate k1 (n1, with_target n1 m) ++ replicate k2 (n2, with_target n2 m) ∧
    (k1 ≤ Z.to_nat (retries deps + 1))%nat ∧ (k2 ≤ Z.to_nat (retries deps + 1))%nat ∧
    (k1 ≠ 0%nat → sendable self nodeStale (net_reg (r_net r)) n1) ∧
    (k2 ≠ 0%nat → sendable self nodeStale (net_reg (r_net r)) n2 ∧
       loc_NodeID <$> Lookup pid (r_locator r) = Some n2)) ∧
  (healthy = false → (cache_get now pid (r_cache r)).1 = None →
     outputs (Route now body_len deps self healthy nodeStale pid m) r = [] ∧
     ∃ e, value (Route now body_len deps self healthy nodeStale pid m) r = Some e ∧
          Code e = CodeClusterStateUnavailable).
Proof.
  split; [apply route_sent|]. intros -> Hc. unfold Route, resolve. autorewrite with mrun.
  destruct (cache_get now pid (r_cache r)) as [hit c]. simpl in Hc. subst hit.
  unfold resolve_locator. cbn [negb]. autorewrite with mrun. split; [done|]. by eexists.
Qed.

(** Two nodes: "a" routes a message to a participant of "b". *)
Definition demo_net (clients : gset string) (h : list hop) : netw :=
  mkNet {["a"%string := mkPeer "a" (30 * second) 0 (newDedupCache (30 * second)) true ∅ None;
          "b"%string := mkPeer "b" (30 * second) 0 (newDedupCache (30 * second)) true clients None]}
    (registry_run (NewInMemoryNodeRegistry (15 * second))
       [OpRegister 1 (with_state NodeReady (node_id_only "a"));
        OpRegister 1 (with_state NodeReady (node_id_only "b"))]) h.

Definition demo_router (clients : gset string) (h : list hop) : router :=
  mkRouter (newLocationCache (2 * second)) {["p"%string := mkLoc "p" "room" "b"]} (demo_net clients h).

Definition demo_route : M router event (option Error) :=
  Route (unix_milli 1001) (λ _, 100) (mkDeps 2 65536) "a" true (λ _, false) "p" (demo_msg 1000).

(** A lost request and a lost reply, then the retry is answered: the participant
    gets the message once. *)
Example route_delivers_once :
  let r := demo_router {["p"%string]} [HLostRequest; HTimeout true; HReply] in
  value demo_route r = None ∧
  outputs demo_route r =
    [Attempt "b" (with_target "b" (demo_msg 1000)); Attempt "b" (with_target "b" (demo_msg 1000));
     Delivered "b" (with_target "b" (demo_msg 1000)); Attempt "b" (with_target "b" (demo_msg 1000))].
Proof. vm_compute. auto. Qed.

(** ** A stale location is reported as a success *)

Section phantom.
Context (now : Z) (body_len : ClusterMessage → Z) (deps : transportDeps).
Context (self n : string) (m : ClusterMessage) (p : peer).
Let mt := with_target n m.
Hypothesis p_is_n : p_self p = n.
Hypothesis p_delivers : p_delivery p = true.
Hypothesis scoped : participantScoped (Type_ m) = true.
Hypothesis valid : ValidateMsg now (p_maxAge p) (p_maxSize p) mt = None.
Hypothesis fits : body_len mt ≤ (if p_maxSize p <=? 0 then 65536 else p_maxSize p) + 1024.

Lemma scoped_not_media t : participantScoped t = true → is_media t = false.
Proof.
  unfold participantScoped. intros H. repeat (apply orb_true_iff in H as [H|H]);
    apply bool_decide_eq_true in H; subst; reflexivity.
Qed.

(** The participant is not there: the request is recorded, then refused. *)
Lemma ingress_unknown :
  msg_ParticipantID m ∉ p_clients p → seen (p_dedup p) !! RequestID m = None →
  handleClusterMessage now body_len mt p =
  (Some CodeParticipantNotFound,
   set_dedup (mkDedup (dd_ttl (p_dedup p))
     (<[RequestID m := now + dd_ttl (p_dedup p)]> (seen (p_dedup p)))) p, []).
Proof.
  intros Hc Hs. unfold handleClusterMessage, mbind, M_bind, get. cbn [fst snd].
  assert (((if p_maxSize p <=? 0 then 65536 else p_maxSize p) + 1024 <? body_len mt) = false) as ->
    by (apply Z.ltb_ge; lia).
  rewrite bool_decide_false by (simpl; rewrite p_is_n; naive_solver).
  unfold Handle, mbind, M_bind, get. rewrite p_is_n.
  change (with_target n mt) with mt. rewrite valid.
  rewrite bool_decide_false by (simpl; naive_solver).
  unfold markSeen. simpl. rewrite Hs. unfold dispatch, mbind, M_bind, get. simpl.
  rewrite (scoped_not_media _ scoped), p_delivers, scoped. simpl.
  unfold DeliverToParticipant, mbind, M_bind, get. simpl.
  by rewrite bool_decide_false.
Qed.

(** The same request again: a duplicate, answered with success. *)
Lemma ingress_duplicate d exp :
  d !! RequestID m = Some exp → now < exp →
  let p1 := set_dedup (mkDedup (dd_ttl (p_dedup p)) d) p in
  handleClusterMessage now body_len mt p1 = (None, p1, []).
Proof.
  intros Hd Hlt p1. unfold handleClusterMessage, mbind, M_bind, get. cbn [fst snd].
  assert (((if p_maxSize p1 <=? 0 then 65536 else p_maxSize p1) + 1024 <? body_len mt) = false) as ->
    by (apply Z.ltb_ge; simpl; lia).
  rewrite bool_decide_false by (simpl; rewrite p_is_n; naive_solver).
  unfold Handle, mbind, M_bind, get. simpl. rewrite p_is_n.
  change (with_target n mt) with mt. rewrite valid.
  rewrite bool_decide_false by (simpl; naive_solver).
  unfold markSeen. simpl. rewrite Hd. rewrite (proj2 (Z.ltb_lt _ _) Hlt). simpl.
  by destruct p as [? ? ? [] ? ? ?].
Qed.

(** One answered attempt. *)
Lemma Send_answered s rest q code q' :
  resolveReadyNode n (net_reg s) = None → hops s = HReply :: rest → peers s !! n = Some q →
  (d_maxSize deps ≤ 0 ∨ body_len mt ≤ d_maxSize deps) →
  handleClusterMessage now body_len mt q = (code, q', []) →
  code = None ∨ code = Some CodeParticipantNotFound →
  Send now body_len deps n m s =
  (code ≫= λ c, Some (error c "peer returned an error"),
   mkNet (<[n := q']> (peers s)) (net_reg s) rest, [Attempt n mt]).
Proof.
  intros Hr Hh Hp Hsz Hq Hc. unfold Send, mbind at 1, M_bind, get. rewrite Hr. fold mt.
  assert ((0 <? d_maxSize deps) && (d_maxSize deps <? body_len mt) = false) as ->.
  { apply andb_false_iff. rewrite !Z.ltb_ge. lia. }
  assert (∃ k, Z.to_nat (retries deps + 1) = S k) as [k ->].
  { exists (Z.to_nat (retries deps)). unfold retries. destruct (d_maxRetries deps <=? 0) eqn:E; [done|].
    zbool. lia. }
  cbn [attempts]. unfold next_hop, post, arrive, mbind, M_bind, get, emit, mret, M_ret, modify.
  rewrite Hh. cbn -[handleClusterMessage]. rewrite Hp. cbn -[handleClusterMessage]. rewrite Hq.
  destruct Hc as [-> | ->]; reflexivity.
Qed.
End phantom.

(** An empty cache and a live location: the resolution fills the cache. *)
Lemma resolve_fresh now self nodeStale pid r loc :
  Lookup pid (r_locator r) = Some loc → isStale self nodeStale (loc_NodeID loc) = false →
  cached (r_cache r) !! pid = None →
  ∃ c, resolve now self true nodeStale pid r =
       (inr (loc_NodeID loc), mkRouter c (r_locator r) (r_net r), []).
Proof.
  intros Hl Hns Hc. unfold resolve, resolve_locator, cache_get. run_M. rewrite Hc. simpl.
  rewrite Hl. simpl. rewrite Hns. by eexists.
Qed.

Lemma refresh_run now body_len deps self nodeStale pid m r loc :
  Lookup pid (r_locator r) = Some loc → isStale self nodeStale (loc_NodeID loc) = false →
  loc_NodeID loc ≠ self →
  ∃ c, routeAfterRefresh now body_len deps self nodeStale pid m r =
       let '(e, net, w) := Send now body_len deps (loc_NodeID loc) m (r_net r) in
       (e, mkRouter c (r_locator r) net, w).
Proof.
  intros Hl Hns Hne. unfold routeAfterRefresh, mbind, M_bind, get. rewrite Hl, Hns.
  rewrite bool_decide_false by done. unfold modify, on_net, set_cache. cbn [r_net r_cache r_locator].
  destruct (Send now body_len deps (loc_NodeID loc) m (r_net r)) as [[e net] w]. by eexists.
Qed.

(** A message to a participant that is gone is reported as delivered.  As long
    as the location record says that the participant is on node [n], while it is
    no longer connected there, [Route] answers success and nothing is delivered:
    the first request is recorded as seen before its delivery fails, the router
    retries it under the same request id, and the retry is acknowledged as a
    duplicate.  PARTICIPANT_NOT_FOUND, which the handler did answer, never reaches
    the caller. *)
Theorem route_phantom_success now body_len deps self nodeStale pid m r loc p rest :
  Lookup pid (r_locator r) = Some loc → loc_NodeID loc ≠ self → nodeStale (loc_NodeID loc) = false →
  cached (r_cache r) !! pid = None →
  resolveReadyNode (loc_NodeID loc) (net_reg (r_net r)) = None →
  hops (r_net r) = HReply :: HReply :: rest →
  peers (r_net r) !! loc_NodeID loc = Some p →
  p_self p = loc_NodeID loc → p_delivery p = true → participantScoped (Type_ m) = true →
  msg_ParticipantID m ∉ p_clients p →
  ValidateMsg now (p_maxAge p) (p_maxSize p) (with_target (loc_NodeID loc) m) = None →
  seen (p_dedup p) !! RequestID m = None → 0 < dd_ttl (p_dedup p) →
  (d_maxSize deps ≤ 0 ∨ body_len (with_target (loc_NodeID loc) m) ≤ d_maxSize deps) →
  body_len (with_target (loc_NodeID loc) m) ≤ (if p_maxSize p <=? 0 then 65536 else p_maxSize p) + 1024 →
  value (Route now body_len deps self true nodeStale pid m) r = None ∧
  outputs (Route now body_len deps self true nodeStale pid m) r =
    replicate 2 (Attempt (loc_NodeID loc) (with_target (loc_NodeID loc) m)).
Proof.
  intros Hl Hself Hst Hcache Hready Hhops Hp Hpid Hpd Hsc Hcl Hv Hseen Httl Hsz Hfit.
  destruct loc as [lp lr n]; simpl in *.
  assert (isStale self nodeStale n = false) as Hns
    by (unfold isStale; by rewrite Hst, andb_false_r).
  destruct (resolve_fresh now self nodeStale pid r (mkLoc lp lr n) Hl Hns Hcache) as [c Hres].
  destruct r as [cache locs net]; simpl in *.
  unfold value, outputs, Route, mbind, M_bind. rewrite Hres. unfold get.
  rewrite bool_decide_false by done. cbn -[Send routeAfterRefresh].
  unfold on_net. cbn -[Send routeAfterRefresh].
  rewrite (Send_answered now body_len deps n m net (HReply :: rest) p _ _ Hready Hhops Hp Hsz
             (ingress_unknown now body_len n m p Hpid Hpd Hsc Hv Hfit Hcl Hseen) (or_intror eq_refl)).
  cbn -[Send routeAfterRefresh]. unfold isNotFound. cbn -[Send routeAfterRefresh].
  rewrite bool_decide_true by done. cbn -[Send routeAfterRefresh].
  match goal with |- context [routeAfterRefresh _ _ _ _ _ _ _ ?q] =>
    destruct (refresh_run now body_len deps self nodeStale pid m q (mkLoc lp lr n) Hl Hns Hself)
      as [c' ->]
  end. cbn -[Send].
  match goal with |- context [Send _ _ _ _ _ ?q] =>
    rewrite (Send_answered now body_len deps n m q rest _ _ _ Hready eq_refl (lookup_insert_eq _ _ _) Hsz
               (ingress_duplicate now body_len n m p Hpid Hpd Hv Hfit _ (now + dd_ttl (p_dedup p))
                  (lookup_insert_eq _ _ _) ltac:(lia)) (or_introl eq_refl))
  end.
  done.
Qed.

Example route_phantom_success_witness :
  let r := demo_router ∅ [HReply; HReply] in
  value demo_route r = None ∧
  outputs demo_route r = replicate 2 (Attempt "b" (with_target "b" (demo_msg 1000))).
Proof.
  apply (route_phantom_success (unix_milli 1001) (λ _, 100) (mkDeps 2 65536) "a" (λ _, false) "p"
           (demo_msg 1000) (demo_router ∅ [HReply; HReply]) (mkLoc "p" "room" "b")
           (mkPeer "b" (30 * second) 0 (newDedupCache (30 * second)) true ∅ None) []);
    try (vm_compute; reflexivity); try discriminate; try (vm_compute; discriminate).
  right. vm_compute. discriminate.
Defined.
