(* ===== verification/Recovery.v ===== *)
(** * Failure detection and room recovery (internal/cluster:
      recovery_failure_detector, recovery_manager)

    The detector's state is a pair of maps over all nodes; its specification,
    [watch_step], is an automaton that watches a single node, and [scan_refines]
    relates the two.  Recovery runs over the world of [Cluster], with the same
    interference by other nodes before every access to the room store.  The
    worker pool of [RecoverNode] is modelled as one room after the other: rooms
    are distinct, and what happens between two of them is covered by the
    interference.  Metric counters and log lines are left out. *)

From S2P Require Import Prelude GoFloat ClusterTypes Registry RoomLocator LoadStore RoomRouter Cluster.

(** ** The failure detector *)

(** src/internal/cluster/recovery_failure_detector.go:31-37 [NodeFailure] *)
Record NodeFailure := mkFailure {
  f_NodeID : string;
  f_State : NodeState;
  f_LastHeartbeat : Z;
  f_AgeSeconds : float64
}.

(** [Duration.Seconds]. *)
Definition duration_seconds (d : Z) : float64 :=
  f_add (f_of_Z (Z.quot d second)) (f_div (f_of_Z (Z.rem d second)) (f_of_Z 1000000000)).

(** src/internal/cluster/recovery_failure_detector.go:39-59 [failureDetector] *)
Record failureDetector := mkDetector {
  checkInterval : Z;
  grace : Z;
  firstMissed : gmap string Z;
  stale : gmap string NodeFailure;
  backendKnwn : bool
}.

(** src/internal/cluster/recovery_failure_detector.go:61-79 [newFailureDetector] *)
Definition newFailureDetector (check gr : Z) : failureDetector :=
  mkDetector (if check <=? 0 then 5 * second else check) (if gr <? 0 then 0 else gr) ∅ ∅ true.

Definition set_missed (m : gmap string Z) (d : failureDetector) : failureDetector :=
  mkDetector (checkInterval d) (grace d) m (stale d) (backendKnwn d).

Definition set_stale (m : gmap string NodeFailure) (d : failureDetector) : failureDetector :=
  mkDetector (checkInterval d) (grace d) (firstMissed d) m (backendKnwn d).

Definition set_known (b : bool) (d : failureDetector) : failureDetector :=
  mkDetector (checkInterval d) (grace d) (firstMissed d) (stale d) b.

Definition forget (id : string) (d : failureDetector) : failureDetector :=
  set_missed (delete id (firstMissed d)) (set_stale (delete id (stale d)) d).

Definition missing (now : Z) (reg : Registry) (n : NodeInfo) : bool :=
  Registry.IsStale now n reg || bool_decide (ClusterTypes.State n = NodeOffline).

(** src/internal/cluster/recovery_failure_detector.go:147-181 [scan: one node]  The
    second component collects [newlyStale]. *)
Definition scan_node (now : Z) (self : string) (reg : Registry)
    (p : failureDetector * list NodeFailure) (n : NodeInfo) : failureDetector * list NodeFailure :=
  let '(d, newly) := p in
  if bool_decide (ID n = self) then (forget (ID n) d, newly)
  else if negb (missing now reg n) then (forget (ID n) d, newly)
  else
    let first := default now (firstMissed d !! ID n) in
    let d := set_missed (<[ID n := first]> (firstMissed d)) d in
    if time_sub now first <? grace d then (d, newly)
    else match stale d !! ID n with
         | Some _ => (d, newly)
         | None =>
             let f := mkFailure (ID n) (ClusterTypes.State n) (LastSeen n)
                        (duration_seconds (time_sub now (LastSeen n))) in
             (set_stale (<[ID n := f]> (stale d)) d, newly ++ [f])
         end.

(** src/internal/cluster/recovery_failure_detector.go:113-194 [scan]  The result
    lists the nodes [onStale] is called for, in order. *)
Definition scan (now : Z) (backendOK : bool) (self : string) (reg : Registry) (d : failureDetector) :
    failureDetector * list string :=
  let d := set_known backendOK d in
  if negb backendOK then (d, [])
  else
    let '(d, newly) := foldl (scan_node now self reg) (d, []) (List reg) in
    (d, f_NodeID <$> newly).

(** src/internal/cluster/recovery_failure_detector.go:196-208 [IsHealthy] *)
Definition det_IsHealthy (now : Z) (nodeID : string) (reg : Registry) (d : failureDetector) : bool :=
  match Get nodeID reg with
  | None => false
  | Some n => if missing now reg n then false else bool_decide (stale d !! nodeID = None)
  end.

(** src/internal/cluster/recovery_failure_detector.go:210-225 [IsStale] *)
Definition det_IsStale (nodeID : string) (reg : Registry) (d : failureDetector) : bool :=
  match stale d !! nodeID with
  | Some _ => true
  | None => match Get nodeID reg with
            | None => true
            | Some n => bool_decide (ClusterTypes.State n = NodeOffline)
            end
  end.

(** src/internal/cluster/recovery_failure_detector.go:227-235 [Failures] *)
Definition Failures (d : failureDetector) : list NodeFailure := snd <$> map_to_list (stale d).

(** ** The specification: watching one node *)

Inductive sighting :=
| Alive
| Missing
| Absent.

(** Since when the node has been missing, and whether it has been reported. *)
Record watch := mkWatch { since : option Z; reported : bool }.

Definition watch_step (gr now : Z) (s : sighting) (w : watch) : watch * bool :=
  match s with
  | Alive => (mkWatch None false, false)
  | Absent => (w, false)
  | Missing =>
      let t0 := default now (since w) in
      if time_sub now t0 <? gr then (mkWatch (Some t0) (reported w), false)
      else (mkWatch (Some t0) true, negb (reported w))
  end.

Definition watch_of (d : failureDetector) (id : string) : watch :=
  mkWatch (firstMissed d !! id) (bool_decide (is_Some (stale d !! id))).

Definition sighting_of (now : Z) (self id : string) (reg : Registry) : sighting :=
  match Get id reg with
  | None => Absent
  | Some n => if bool_decide (id = self) || negb (missing now reg n) then Alive else Missing
  end.

Lemma scan_node_other now self reg d newly n id :
  ID n ≠ id →
  watch_of (scan_node now self reg (d, newly) n).1 id = watch_of d id ∧
  grace (scan_node now self reg (d, newly) n).1 = grace d ∧
  (id ∈ f_NodeID <$> (scan_node now self reg (d, newly) n).2 ↔ id ∈ f_NodeID <$> newly).
Proof.
  intros Hne. unfold scan_node, watch_of. case_bool_decide; simpl.
  { by rewrite !lookup_delete_ne. }
  destruct (missing now reg n); simpl; [|by rewrite !lookup_delete_ne].
  destruct (_ <? grace d); simpl; [by rewrite lookup_insert_ne|].
  destruct (stale d !! ID n); simpl; [by rewrite lookup_insert_ne|].
  rewrite !lookup_insert_ne by done. split; [done|]. split; [done|]. rewrite fmap_app. set_solver.
Qed.

Lemma scan_node_self now self reg d newly n :
  ID n ∉ f_NodeID <$> newly →
  let s := if bool_decide (ID n = self) || negb (missing now reg n) then Alive else Missing in
  let '(w, fired) := watch_step (grace d) now s (watch_of d (ID n)) in
  watch_of (scan_node now self reg (d, newly) n).1 (ID n) = w ∧
  (ID n ∈ f_NodeID <$> (scan_node now self reg (d, newly) n).2 ↔ fired = true).
Proof.
  intros Hnew. unfold scan_node, watch_of. case_bool_decide as Hself; simpl.
  { rewrite !lookup_delete_eq. split; [done|]. split; [done|]. done. }
  destruct (missing now reg n); simpl; [|rewrite !lookup_delete_eq; done].
  destruct (_ <? grace d); simpl; [by rewrite lookup_insert_eq|].
  destruct (stale d !! ID n) eqn:E; simpl.
  - rewrite lookup_insert_eq, E. done.
  - rewrite !lookup_insert_eq. simpl. split; [done|]. rewrite fmap_app. set_solver.
Qed.

Lemma scan_fold_other now self reg l d newly id :
  id ∉ ID <$> l →
  let r := foldl (scan_node now self reg) (d, newly) l in
  watch_of r.1 id = watch_of d id ∧ grace r.1 = grace d ∧
  (id ∈ f_NodeID <$> r.2 ↔ id ∈ f_NodeID <$> newly).
Proof.
  revert d newly. induction l as [|n l IH]; intros d newly Hid; [done|].
  rewrite fmap_cons in Hid. cbn [foldl]. apply not_elem_of_cons in Hid as [Hne Hid].
  destruct (scan_node_other now self reg d newly n id (not_eq_sym Hne)) as (H1 & H2 & H3).
  destruct (scan_node now self reg (d, newly) n) as [d1 newly1]. simpl in *.
  destruct (IH d1 newly1 Hid) as (H4 & H5 & H6). rewrite H4, H5, H6. done.
Qed.

Lemma scan_fold_grace now self reg l p :
  grace (foldl (scan_node now self reg) p l).1 = grace p.1.
Proof.
  revert p. induction l as [|n l IH]; intros [d newly]; [done|]. cbn [foldl]. rewrite IH.
  unfold scan_node. case_bool_decide; [done|]. destruct (missing _ _ _); [|done]. simpl.
  destruct (_ <? _); [done|]. by destruct (stale d !! ID n).
Qed.

(** One scan moves the watch of every node by one step. *)
Lemma scan_watch now self reg d id :
  registry_wf reg →
  let r := scan now true self reg d in
  watch_step (grace d) now (sighting_of now self id reg) (watch_of d id)
    = (watch_of r.1 id, bool_decide (id ∈ r.2)) ∧ grace r.1 = grace d.
Proof.
  intros Hwf. unfold scan. simpl.
  pose proof (scan_fold_grace now self reg (List reg) (set_known true d, [])) as Hg.
  destruct (foldl _ _ _) as [d' newly] eqn:Ef. simpl in *. split; [|done].
  unfold sighting_of. destruct (Get id reg) as [n|] eqn:En.
  - assert (ID n = id) as <- by (by destruct (Hwf _ _ En)).
    apply List_spec in En; [|done]. apply list_elem_of_split in En as (l1 & l2 & El).
    pose proof (List_NoDup reg Hwf) as Hnd. rewrite El in Hnd. rewrite El in Ef.
    rewrite fmap_app, fmap_cons in Hnd. apply NoDup_app in Hnd as (_ & Hn1 & Hn2).
    apply NoDup_cons in Hn2 as [Hn2 _].
    assert (ID n ∉ ID <$> l1) as Hn1' by (intros Hin; apply (Hn1 _ Hin); set_solver).
    rewrite foldl_app in Ef. cbn [foldl] in Ef.
    destruct (scan_fold_other now self reg l1 (set_known true d) [] (ID n) Hn1') as (A1 & A2 & A3).
    destruct (foldl _ (set_known true d, []) l1) as [d1 newly1]. simpl in A1, A2, A3.
    assert (ID n ∉ f_NodeID <$> newly1) as Hnew by (rewrite A3; apply not_elem_of_nil).
    pose proof (scan_node_self now self reg d1 newly1 n Hnew) as Hs. cbv zeta in Hs.
    rewrite A1, A2 in Hs. change (watch_of (set_known true d) (ID n)) with (watch_of d (ID n)) in Hs.
    change (grace (set_known true d)) with (grace d) in Hs.
    destruct (watch_step _ _ _ _) as [w fired]. destruct Hs as [Hs1 Hs2].
    destruct (scan_node now self reg (d1, newly1) n) as [d2 newly2]. cbn [fst snd] in Hs1, Hs2.
    destruct (scan_fold_other now self reg l2 d2 newly2 (ID n) Hn2) as (B1 & _ & B3).
    rewrite Ef in B1, B3. simpl in B1, B3. f_equal; [by rewrite B1, Hs1|].
    symmetry. destruct fired.
    + apply bool_decide_eq_true. apply B3, Hs2. done.
    + apply bool_decide_eq_false. rewrite B3, Hs2. done.
  - assert (id ∉ ID <$> List reg) as Hid.
    { intros (n & -> & Hin)%list_elem_of_fmap. apply List_spec in Hin; [|done]. unfold Get in En; congruence. }
    destruct (scan_fold_other now self reg (List reg) (set_known true d) [] id Hid) as (A1 & _ & A3).
    rewrite Ef in A1, A3. simpl in A1, A3. simpl. f_equal; [by rewrite A1|].
    symmetry. apply bool_decide_eq_false. rewrite A3. apply not_elem_of_nil.
Qed.

(** ** Runs of the detector *)

Record scan_call := mkScan { sc_now : Z; sc_ok : bool; sc_reg : Registry }.

Fixpoint det_run (self : string) (d : failureDetector) (l : list scan_call) :
    list (list string) * failureDetector :=
  match l with
  | [] => ([], d)
  | c :: l =>
      let '(d1, fired) := scan (sc_now c) (sc_ok c) self (sc_reg c) d in
      let '(rs, d2) := det_run self d1 l in
      (fired :: rs, d2)
  end.

(** What the scans see of one node; [None] when the backend is down. *)
Definition sight (self id : string) (c : scan_call) : Z * option sighting :=
  (sc_now c, if sc_ok c then Some (sighting_of (sc_now c) self id (sc_reg c)) else None).

Fixpoint watch_run (gr : Z) (w : watch) (l : list (Z * option sighting)) : list bool * watch :=
  match l with
  | [] => ([], w)
  | (_, None) :: l => let '(rs, w') := watch_run gr w l in (false :: rs, w')
  | (now, Some s) :: l =>
      let '(w1, fired) := watch_step gr now s w in
      let '(rs, w2) := watch_run gr w1 l in
      (fired :: rs, w2)
  end.

Lemma det_run_watch self d l id :
  Forall (λ c, registry_wf (sc_reg c)) l →
  watch_run (grace d) (watch_of d id) (sight self id <$> l) =
  ((λ fired, bool_decide (id ∈ fired)) <$> (det_run self d l).1, watch_of (det_run self d l).2 id).
Proof.
  intros Hl. revert d. induction Hl as [|c l Hc Hl IH]; intros d; [done|].
  rewrite fmap_cons. cbn [det_run].
  destruct (scan (sc_now c) (sc_ok c) self (sc_reg c) d) as [d1 fired] eqn:E.
  assert (watch_run (grace d) (watch_of d id) (sight self id c :: (sight self id <$> l)) =
    let '(rs, w2) := watch_run (grace d1) (watch_of d1 id) (sight self id <$> l) in
    (bool_decide (id ∈ fired) :: rs, w2)) as ->.
  { unfold sight at 1. destruct (sc_ok c).
    - destruct (scan_watch (sc_now c) self (sc_reg c) d id Hc) as [Hw Hg]. rewrite E in Hw, Hg.
      simpl in *. by rewrite Hw, Hg.
    - injection E as <- <-. cbn [watch_run grace set_known].
      change (watch_of (set_known false d) id) with (watch_of d id).
      destruct (watch_run _ _ _). done. }
  rewrite IH. by destruct (det_run self d1 l) as [rs d2].
Qed.

(** C31: the detector watches every node by the book.  For every node, the scans at
    which it is reported and the detector's verdict about it are exactly those of
    the one-node specification: alive forgets everything, missing reports once,
    as soon as the node has been missing for the grace period; and a scan with the
    backend down changes no verdict and reports nothing. *)
Theorem detector_refines check gr self l id :
  Forall (λ c, registry_wf (sc_reg c)) l →
  let d := newFailureDetector check gr in
  watch_run (grace d) (mkWatch None false) (sight self id <$> l) =
  ((λ fired, bool_decide (id ∈ fired)) <$> (det_run self d l).1,
   mkWatch (firstMissed (det_run self d l).2 !! id)
           (bool_decide (is_Some (stale (det_run self d l).2 !! id)))).
Proof. intros Hl d. exact (det_run_watch self d l id Hl). Qed.

(** A node that stops its heartbeat at second 1, watched with a stale time of 15
    seconds and a grace of 5, is reported at the scan of second 25, once. *)
Definition demo_scans : list scan_call :=
  (λ t, mkScan (t * second) true
          (registry_run (NewInMemoryNodeRegistry (15 * second))
             [OpRegister second (with_state NodeReady (node_id_only "x"))])) <$> [10; 20; 25; 30].

Example detector_refines_witness :
  (det_run "me" (newFailureDetector (5 * second) (5 * second)) demo_scans).1 = [[]; []; ["x"%string]; []] ∧
  (watch_run (5 * second) (mkWatch None false) (sight "me" "x" <$> demo_scans)).1
    = [false; false; true; false].
Proof.
  split; [vm_compute; reflexivity|].
  pose proof (detector_refines (5 * second) (5 * second) "me" demo_scans "x") as H.
  change (5 * second) with (grace (newFailureDetector (5 * second) (5 * second))) at 1.
  rewrite H; [vm_compute; reflexivity|].
  apply list.Forall_forall. intros c (t & -> & _)%list_elem_of_fmap.
  apply registry_run_wf. intros id n L. by simplify_map_eq.
Defined.

(** A node that disappears from the registry is never reported.  However long
    it has been missing before, and although [IsStale] says it is stale, a scan
    only looks at the nodes the registry still lists: from the moment its entry is
    gone (its key expired, or it unregistered) [onStale] is not called for it, so
    no recovery of its rooms is triggered. *)
Theorem vanished_never_reported self d l id :
  Forall (λ c, registry_wf (sc_reg c) ∧ Get id (sc_reg c) = None) l →
  id ∉ mjoin (det_run self d l).1 ∧
  ∀ c, c ∈ l → det_IsStale id (sc_reg c) (det_run self d l).2 = true.
Proof.
  intros Hl. split.
  - assert (Forall (λ c, registry_wf (sc_reg c)) l) as Hwf by (eapply Forall_impl; [exact Hl|]; by intros c []).
    pose proof (det_run_watch self d l id Hwf) as H. apply (f_equal fst) in H. simpl in H.
    assert (Forall (λ b, b = false) (watch_run (grace d) (watch_of d id) (sight self id <$> l)).1) as Hf.
    { clear H Hwf. generalize (watch_of d id) as w.
      induction Hl as [|c l [_ Hc] Hl IH]; intros w; csimpl; [constructor|].
      unfold sight at 1, sighting_of. rewrite Hc. specialize (IH w).
      destruct (sc_ok c); cbn [watch_run watch_step]; destruct (watch_run _ w _); by constructor. }
    rewrite H in Hf. intros Hin. apply list_elem_of_join in Hin as (fired & Hin & Hfired).
    rewrite list.Forall_forall in Hf.
    specialize (Hf (bool_decide (id ∈ fired))). rewrite bool_decide_true in Hf by done.
    discriminate Hf. apply list_elem_of_fmap. exists fired. split; [|done].
    by rewrite bool_decide_true.
  - intros c Hc. rewrite list.Forall_forall in Hl. destruct (Hl c Hc) as [_ Hn].
    unfold det_IsStale. destruct (stale _ !! id); [done|]. by rewrite Hn.
Qed.

(** A node seen missing once, inside its grace period, and then gone for a day. *)
Example vanished_never_reported_witness :
  let d := (scan (20 * second) true "me" (sc_reg (mkScan 0 true
             (registry_run (NewInMemoryNodeRegistry (15 * second))
                [OpRegister second (with_state NodeReady (node_id_only "x"))])))
             (newFailureDetector (5 * second) (5 * second))).1 in
  let gone := mkScan (86400 * second) true (NewInMemoryNodeRegistry (15 * second)) in
  is_Some (firstMissed d !! "x"%string) ∧
  ("x"%string ∉ mjoin (det_run "me" d [gone]).1 ∧
   ∀ c, c ∈ [gone] → det_IsStale "x" (sc_reg c) (det_run "me" d [gone]).2 = true).
Proof.
  split; [vm_compute; eauto|]. apply vanished_never_reported.
  constructor; [|constructor]. split; [|reflexivity]. intros i n L. by simplify_map_eq.
Defined.

(** ** The recovery manager *)

Section recovery.
Context {L : Type} `{RoomLocatorLaws L}.

(** src/internal/cluster/recovery_manager.go:26-43 [recoveryManager]  The world of
    [Cluster] with the participant locator, the detector's state and the rooms
    being recovered on this node. *)
Record rworld := mkRW {
  rw : world L;
  parts : ParticipantLocator;
  det : failureDetector;
  active : gset string
}.

Abbreviation R := (M rworld unit).

Definition on_world {A} (m : M (world L) unit A) : R A := λ s,
  let '(a, w, o) := m (rw s) in (a, mkRW w (parts s) (det s) (active s), o).

Definition set_parts (f : ParticipantLocator → ParticipantLocator) (s : rworld) : rworld :=
  mkRW (rw s) (f (parts s)) (det s) (active s).

Definition set_active (f : gset string → gset string) (s : rworld) : rworld :=
  mkRW (rw s) (parts s) (det s) (f (active s)).

Definition set_loads (f : LoadStore → LoadStore) (s : rworld) : rworld :=
  mkRW (mkWorld (rooms (rw s)) (registry (rw s)) (f (loadst (rw s))) (router (rw s)) (others (rw s)))
       (parts s) (det s) (active s).

Definition ownership (roomID : string) : R (option (string * Z)) :=
  on_world (interfere;; gets (λ w, Ownership roomID (rooms w))).

Definition recover_owner (roomID oldOwner newOwner : string) : R RecoverResult :=
  on_world (
    interfere;;
    w ← get;
    let '(res, l') := RecoverOwner roomID oldOwner newOwner (rooms w) in
    modify (set_rooms l');;
    mret res).

(** src/internal/cluster/recovery_manager.go:229-241 [cleanupParticipants] *)
Definition cleanupParticipants (roomID deadNode : string) : R unit :=
  s ← get;
  for_each (InRoom roomID (parts s)) (λ loc,
    when (bool_decide (loc_NodeID loc = deadNode))
      (modify (set_parts (RemoveLoc (loc_ParticipantID loc))))).

(** Ask the room router ([ok]: the shared state is usable for it). *)
Definition select_node (now : Z) (ok : bool) (self roomID : string) : R (Error + NodeInfo * reason) :=
  on_world (λ w,
    let '(r, st) := SelectNode now ok self roomID (mkRouting (router w) (registry w) (loadst w)) in
    (r, mkWorld (rooms w) (rt_reg st) (rt_loads st) (rt_router st) (others w), [])).

(** src/internal/cluster/recovery_manager.go:203-226 [RecoverRoom: compare and swap] *)
Definition take_over (self roomID oldOwner : string) : R (option Error) :=
  res ← recover_owner roomID oldOwner self;
  match Outcome res with
  | RecoverOK => cleanupParticipants roomID oldOwner;; mret None
  | RecoverAlready =>
      mret (Some (mkError CodeAlreadyRecovered "room already recovered" self roomID ""))
  | RecoverConflict =>
      mret (Some (mkError CodeOwnershipConflict "another node won recovery" (Owner res) roomID ""))
  | RecoverFailed =>
      mret (Some (mkError CodeClusterStateUnavailable "recovery compare-and-swap failed" "" roomID ""))
  end.

(** src/internal/cluster/recovery_manager.go:161-226 [RecoverRoom: body] *)
Definition recover_body (now : Z) (ok : bool) (self roomID : string) : R (option Error) :=
  o ← ownership roomID;
  match o with
  | None => mret None
  | Some (oldOwner, _) =>
      if bool_decide (oldOwner = self) then
        mret (Some (mkError CodeAlreadyRecovered "room already owned locally" "" roomID ""))
      else
        s ← get;
        if negb (det_IsStale oldOwner (registry (rw s)) (det s)) then mret None
        else
          sel ← select_node now ok self roomID;
          match sel with
          | inl e =>
              mret (Some (mkError (Code e) (Message e) (err_NodeID e) roomID (err_ParticipantID e)))
          | inr (target, _) =>
              if bool_decide (ID target ≠ "" ∧ ID target ≠ self) then mret None
              else take_over self roomID oldOwner
          end
  end.

(** src/internal/cluster/recovery_manager.go:135-227 [RecoverRoom] *)
Definition RecoverRoom (enabled ok : bool) (now : Z) (self roomID : string) : R (option Error) :=
  if negb enabled then mret (Some (error CodeRecoveryDisabled "room recovery is disabled"))
  else if negb ok then
    mret (Some (mkError CodeClusterStateUnavailable "cannot recover: state backend unavailable" ""
                  roomID ""))
  else
    s ← get;
    if bool_decide (roomID ∈ active s) then
      mret (Some (mkError CodeOwnershipConflict "recovery already in progress" "" roomID ""))
    else
      modify (set_active (λ a, {[roomID]} ∪ a));;
      r ← recover_body now ok self roomID;
      modify (set_active (λ a, a ∖ {[roomID]}));;
      mret r.

Definition counts_as_failure (e : option Error) : bool :=
  match e with
  | None => false
  | Some e => bool_decide (Code e ≠ CodeAlreadyRecovered ∧ Code e ≠ CodeOwnershipConflict)
  end.

(** src/internal/cluster/recovery_manager.go:99-113 [RecoverNode: workers]  Counts
    the failed rooms. *)
Fixpoint recover_rooms (enabled ok : bool) (now : Z) (self : string) (l : list string) : R nat :=
  match l with
  | [] => mret 0%nat
  | room :: l =>
      e ← RecoverRoom enabled ok now self room;
      n ← recover_rooms enabled ok now self l;
      mret (if counts_as_failure e then S n else n)
  end.

(** src/internal/cluster/recovery_manager.go:66-133 [RecoverNode] *)
Definition RecoverNode (enabled ok : bool) (now : Z) (self nodeID : string) : R (option Error) :=
  if negb enabled then mret (Some (error CodeRecoveryDisabled "room recovery is disabled"))
  else if negb ok then
    mret (Some (mkError CodeClusterStateUnavailable "cannot recover: state backend unavailable" nodeID
                  "" ""))
  else
    s ← get;
    if negb (det_IsStale nodeID (registry (rw s)) (det s)) then mret None
    else if bool_decide (nodeID = self) then mret None
    else
      on_world interfere;;
      s ← get;
      let orphaned := fst <$> filter (λ p, p.2 = nodeID) (map_to_list (All (rooms (rw s)))) in
      failed ← recover_rooms enabled ok now self orphaned;
      if (0 <? failed)%nat then
        mret (Some (mkError CodeClusterStateUnavailable "some rooms could not be recovered" nodeID "" ""))
      else
        modify (set_loads (DeleteLoad nodeID));;
        mret None.

(** src/internal/cluster/cluster.go:262-272 [onNodeStale] *)
Definition onNodeStale (recoveryDisabled ok : bool) (now : Z) (self nodeID : string) : R unit :=
  if recoveryDisabled then mret tt
  else RecoverNode (negb recoveryDisabled) ok now self nodeID;; mret tt.

(** src/internal/cluster/cluster.go:274-293 [runStartupRecovery: owners]  [seen]
    holds the owners already handled. *)
Fixpoint sweep_owners (ok : bool) (now : Z) (self : string) (seen : gset string) (l : list string) :
    R unit :=
  match l with
  | [] => mret tt
  | owner :: l =>
      if bool_decide (owner ∈ seen) then sweep_owners ok now self seen l
      else
        s ← get;
        when (det_IsStale owner (registry (rw s)) (det s))
          (RecoverNode true ok now self owner;; mret tt);;
        sweep_owners ok now self ({[owner]} ∪ seen) l
  end.

(** src/internal/cluster/cluster.go:274-293 [runStartupRecovery] *)
Definition runStartupRecovery (recoveryDisabled ok : bool) (now : Z) (self : string) : R unit :=
  if recoveryDisabled || negb ok then mret tt
  else
    on_world interfere;;
    s ← get;
    sweep_owners ok now self {[self]} (snd <$> map_to_list (All (rooms (rw s)))).

(** ** A live owner keeps its rooms *)

Section live.
Context (room n : string) (reg : Registry) (d : failureDetector).
Hypothesis n_live : det_IsStale n reg d = false.

(** [n] owns the room, is alive for the detector, and no other node is about to
    take the room from it. *)
Definition keeps (s : rworld) : Prop :=
  held_by room n (rw s) ∧ registry (rw s) = reg ∧ det s = d.

Lemma on_world_keeps {A} (m : M (world L) unit A) :
  (∀ w, held_by room n w → registry w = reg → held_by room n (final m w) ∧ registry (final m w) = reg) →
  preserves keeps (on_world m).
Proof.
  intros Hm s (Hh & Hr & Hd). unfold final, on_world in *. specialize (Hm (rw s) Hh Hr).
  destruct (m (rw s)) as [[a w] o]. destruct Hm. by split_and!.
Qed.

Lemma interfere_registry (w : world L) : registry (final interfere w) = registry w.
Proof. unfold final, interfere, modify. simpl. by destruct (others w). Qed.

Lemma interfere_keeps : preserves keeps (on_world interfere).
Proof.
  apply on_world_keeps. intros w Hw Hr. split; [by apply interfere_held|]. by rewrite interfere_registry.
Qed.

Lemma ownership_keeps r : preserves keeps (ownership r).
Proof.
  apply on_world_keeps. intros w Hw Hr. rewrite final_bind. split; [by apply interfere_held|].
  exact (eq_trans (interfere_registry w) Hr).
Qed.

Lemma recover_owner_keeps r old new : old ≠ n → preserves keeps (recover_owner r old new).
Proof.
  intros Hold. apply on_world_keeps. intros w Hw Hr. rewrite final_bind, final_bind.
  apply (interfere_held room n) in Hw. rewrite <- Hr, <- (interfere_registry w).
  set (w1 := final interfere w) in *. clearbody w1. rewrite final_get, value_get.
  destruct (RecoverOwner r old new (rooms w1)) as [res l'] eqn:E.
  rewrite final_bind, final_modify, final_ret. destruct Hw as [Ho Hot]. split; [|done].
  split; [|exact Hot].
  pose proof (owner_stable_step (rooms w1) (OpRecover r old new) room n Ho) as Hs.
  simpl in Hs. rewrite E in Hs. apply Hs. by intros [_ ?].
Qed.

Lemma SelectNode_registry now ok self r st : rt_reg (SelectNode now ok self r st).2 = rt_reg st.
Proof.
  unfold SelectNode. destruct ok; [|done]. cbn [negb].
  destruct (candidates _ _ _ _); [done|]. destruct (RoomAssignment _ _ _ ≫= _); [done|].
  by destruct (Select _ _) as [|[]].
Qed.

Lemma select_node_keeps now ok self r : preserves keeps (select_node now ok self r).
Proof.
  apply on_world_keeps. intros w Hw Hr. unfold final.
  pose proof (SelectNode_registry now ok self r (mkRouting (router w) (registry w) (loadst w))) as Hg.
  destruct (SelectNode _ _ _ _ _) as [x st]. simpl in *. split; [exact Hw|congruence].
Qed.

Lemma cleanup_keeps r dead : preserves keeps (cleanupParticipants r dead).
Proof.
  apply preserves_bind; [apply preserves_get|]. intros s. apply preserves_for_each. intros loc _.
  apply preserves_when, preserves_modify. by intros s' Hs.
Qed.

Lemma take_over_keeps self r old : old ≠ n → preserves keeps (take_over self r old).
Proof.
  intros Hold. apply preserves_bind; [by apply recover_owner_keeps|]. intros res.
  destruct (Outcome res); try apply preserves_ret.
  apply preserves_bind; [apply cleanup_keeps|]. intros _. apply preserves_ret.
Qed.

Lemma recover_body_keeps now ok self r : preserves keeps (recover_body now ok self r).
Proof.
  apply preserves_bind; [apply ownership_keeps|]. intros [[old g]|]; [|apply preserves_ret].
  case_bool_decide; [apply preserves_ret|].
  apply preserves_bind_val; [apply preserves_get|]. intros s Hs. rewrite value_get, final_get.
  destruct (det_IsStale old (registry (rw s)) (det s)) eqn:E; [|exact Hs].
  assert (old ≠ n) as Hold.
  { intros ->. destruct Hs as (_ & Hr & Hd). rewrite Hr, Hd in E. congruence. }
  cbn [negb]. revert s Hs E. intros s Hs _. revert s Hs.
  change (preserves keeps (sel ← select_node now ok self r;
          match sel with
          | inl e =>
              mret (Some (mkError (Code e) (Message e) (err_NodeID e) r (err_ParticipantID e)))
          | inr (target, _) =>
              if bool_decide (ID target ≠ "" ∧ ID target ≠ self) then mret None
              else take_over self r old
          end)).
  apply preserves_bind; [apply select_node_keeps|]. intros [e|[t why]]; [apply preserves_ret|].
  case_bool_decide; [apply preserves_ret|by apply take_over_keeps].
Qed.

Lemma RecoverRoom_keeps en ok now self r : preserves keeps (RecoverRoom en ok now self r).
Proof.
  unfold RecoverRoom. destruct en; [|apply preserves_ret]. destruct ok; [|apply preserves_ret].
  apply preserves_bind; [apply preserves_get|]. intros s.
  case_bool_decide; [apply preserves_ret|].
  apply preserves_bind; [by apply preserves_modify|]. intros _.
  apply preserves_bind; [apply recover_body_keeps|]. intros x.
  apply preserves_bind; [by apply preserves_modify|]. intros _. apply preserves_ret.
Qed.

Lemma recover_rooms_keeps en ok now self l : preserves keeps (recover_rooms en ok now self l).
Proof.
  induction l as [|r l IH]; simpl; [apply preserves_ret|].
  apply preserves_bind; [apply RecoverRoom_keeps|]. intros e.
  apply preserves_bind; [apply IH|]. intros k. apply preserves_ret.
Qed.

Lemma RecoverNode_keeps en ok now self node : preserves keeps (RecoverNode en ok now self node).
Proof.
  unfold RecoverNode. destruct en; [|apply preserves_ret]. destruct ok; [|apply preserves_ret].
  apply preserves_bind; [apply preserves_get|]. intros s.
  destruct (det_IsStale node _ _); [|apply preserves_ret]. cbn [negb].
  case_bool_decide; [apply preserves_ret|].
  apply preserves_bind; [apply interfere_keeps|]. intros _.
  apply preserves_bind; [apply preserves_get|]. intros s1.
  apply preserves_bind; [apply recover_rooms_keeps|]. intros k.
  destruct (_ <? _)%nat; [apply preserves_ret|].
  apply preserves_bind; [|intros _; apply preserves_ret]. by apply preserves_modify.
Qed.

Lemma sweep_keeps ok now self seen l : preserves keeps (sweep_owners ok now self seen l).
Proof.
  revert seen. induction l as [|o l IH]; intros seen; simpl; [apply preserves_ret|].
  case_bool_decide; [apply IH|].
  apply preserves_bind; [apply preserves_get|]. intros s.
  apply preserves_bind; [|intros _; apply IH]. apply preserves_when.
  apply preserves_bind; [apply RecoverNode_keeps|]. intros _. apply preserves_ret.
Qed.

Lemma startup_keeps dis ok now self : preserves keeps (runStartupRecovery dis ok now self).
Proof.
  unfold runStartupRecovery. destruct (_ || _); [apply preserves_ret|].
  apply preserves_bind; [apply interfere_keeps|]. intros _.
  apply preserves_bind; [apply preserves_get|]. intros s. apply sweep_keeps.
Qed.
End live.
End recovery.

Arguments rworld : clear implicits.

(** C14: recovery never takes a room from a live node.  Let [n] own a room and be
    alive for the failure detector (listed, not OFFLINE, not reported), while no
    other node takes the room from it.  Then whatever this node recovers (one
    room, all rooms of a node, the sweep at startup), and whatever the others do
    between its accesses to the store, [n] still owns the room at the end. *)
Theorem recovery_spares_live_owners {L} `{RoomLocatorLaws L} room n (s : rworld L) :
  held_by room n (rw s) → det_IsStale n (registry (rw s)) (det s) = false →
  ∀ en ok now self r node,
    owners_of (rooms (rw (final (RecoverRoom en ok now self r) s))) !! room = Some n ∧
    owners_of (rooms (rw (final (RecoverNode en ok now self node) s))) !! room = Some n ∧
    owners_of (rooms (rw (final (runStartupRecovery en ok now self) s))) !! room = Some n.
Proof.
  intros Hh Hl en ok now self r node.
  assert (keeps room n (registry (rw s)) (det s) s) as Hk by done.
  split_and!.
  - by destruct (RecoverRoom_keeps room n _ _ Hl en ok now self r s Hk) as [[? _] _].
  - by destruct (RecoverNode_keeps room n _ _ Hl en ok now self node s Hk) as [[? _] _].
  - by destruct (startup_keeps room n _ _ Hl en ok now self s Hk) as [[? _] _].
Qed.

(** ** What a recovery does *)

(** Locations are filed under the id they carry. *)
Definition parts_wf (p : ParticipantLocator) : Prop :=
  ∀ id loc, p !! id = Some loc → loc_ParticipantID loc = id.

Definition points_at (room dead : string) (x : string * ParticipantLocation) : Prop :=
  loc_RoomID x.2 = room ∧ loc_NodeID x.2 = dead.

Section effect.
Context {L : Type} `{RoomLocatorLaws L}.

Lemma remove_all_run (dead : string) (l : list ParticipantLocation) (s : rworld L) :
  ∃ p', final (E := unit) (for_each l (λ loc, when (bool_decide (loc_NodeID loc = dead))
          (modify (set_parts (RemoveLoc (loc_ParticipantID loc)))))) s
        = mkRW (rw s) p' (det s) (active s) ∧
    ∀ id, p' !! id = if decide (id ∈ loc_ParticipantID <$> filter (λ loc, loc_NodeID loc = dead) l)
                     then None else parts s !! id.
Proof.
  revert s. induction l as [|x l IH]; intros s.
  { exists (parts s). split; [by destruct s|]. intros id. by rewrite decide_False by apply not_elem_of_nil. }
  cbn [for_each]. rewrite final_bind, final_when. case_bool_decide as E.
  - rewrite final_modify. destruct (IH (set_parts (RemoveLoc (loc_ParticipantID x)) s)) as (p' & Hf & Hp).
    exists p'. split; [exact Hf|]. intros id. rewrite Hp. rewrite filter_cons_True by done. csimpl.
    unfold RemoveLoc, set_parts. cbn [parts].
    destruct (decide (id = loc_ParticipantID x)) as [->|Hne].
    + rewrite lookup_delete_eq. repeat case_decide; try done; exfalso; set_solver.
    + rewrite lookup_delete_ne by done. repeat case_decide; try done; exfalso; set_solver.
  - destruct (IH s) as (p' & Hf & Hp). exists p'. split; [exact Hf|].
    intros id. rewrite Hp. by rewrite filter_cons_False.
Qed.

(** Exactly the locations of this room that point at the dead node disappear. *)
Lemma cleanup_run room dead (s : rworld L) :
  parts_wf (parts s) →
  final (cleanupParticipants room dead) s =
  mkRW (rw s) (filter (λ x, ¬ points_at room dead x) (parts s)) (det s) (active s).
Proof.
  intros Hwf. unfold cleanupParticipants. rewrite final_bind, final_get, value_get.
  destruct (remove_all_run dead (InRoom room (parts s)) s) as (p' & -> & Hp). f_equal.
  apply map_eq. intros id. rewrite Hp. unfold InRoom.
  destruct (parts s !! id) as [loc|] eqn:E.
  - destruct (decide (points_at room dead (id, loc))) as [[H1 H2]|Hno].
    + rewrite decide_True.
      * symmetry. apply map_lookup_filter_None. right. intros x. rewrite E. intros [= <-] Hx.
        by apply Hx.
      * apply list_elem_of_fmap. exists loc. split; [by rewrite (Hwf _ _ E)|].
        apply list_elem_of_filter. split; [done|]. apply list_elem_of_filter. split; [done|].
        apply list_elem_of_fmap. exists (id, loc). split; [done|]. by apply elem_of_map_to_list.
    + rewrite decide_False.
      * symmetry. by apply map_lookup_filter_Some.
      * intros (x & Hid & Hx)%list_elem_of_fmap. apply list_elem_of_filter in Hx as [Hd Hx].
        apply list_elem_of_filter in Hx as [Hr Hx].
        apply list_elem_of_fmap in Hx as ([id' y] & -> & Hx). apply elem_of_map_to_list in Hx.
        simpl in *. rewrite (Hwf _ _ Hx) in Hid. subst id'. rewrite E in Hx. simplify_eq.
        by apply Hno.
  - assert (filter (λ x, ¬ points_at room dead x) (parts s) !! id = None) as ->
      by (apply map_lookup_filter_None; by left).
    by case_decide.
Qed.

Lemma quiet (w : world L) : others w = [] → final interfere w = w.
Proof. unfold final, interfere, modify. simpl. by intros ->. Qed.

(** What this node's recovery of [room] amounts to when the others are quiet. *)
Definition recovered_by (self room : string) (s s' : rworld L) : Prop :=
  ∃ old, owners_of (rooms (rw s)) !! room = Some old ∧ old ≠ self ∧
    det_IsStale old (registry (rw s)) (det s) = true ∧
    owners_of (rooms (rw s')) = <[room := self]> (owners_of (rooms (rw s))) ∧
    parts s' = filter (λ x, ¬ points_at room old x) (parts s).

Definition unmoved (s s' : rworld L) : Prop :=
  owners_of (rooms (rw s')) = owners_of (rooms (rw s)) ∧ parts s' = parts s.

Lemma on_world_run {A} (m : M (world L) unit A) (s : rworld L) :
  value (on_world m) s = value m (rw s) ∧
  final (on_world m) s = mkRW (final m (rw s)) (parts s) (det s) (active s).
Proof. unfold on_world, value, final. by destruct (m (rw s)) as [[a w] o]. Qed.

Lemma select_node_run now ok self r (s : rworld L) :
  ∃ w', final (select_node now ok self r) s = mkRW w' (parts s) (det s) (active s) ∧
    rooms w' = rooms (rw s) ∧ others w' = others (rw s) ∧ registry w' = registry (rw s).
Proof.
  unfold select_node. rewrite (proj2 (on_world_run _ s)). unfold final.
  pose proof (SelectNode_registry now ok self r
    (mkRouting (router (rw s)) (registry (rw s)) (loadst (rw s)))) as Hreg.
  destruct (SelectNode _ _ _ _ _) as [sel st]. eexists. by split_and!.
Qed.

Lemma take_over_effect self room old (s : rworld L) :
  others (rw s) = [] → parts_wf (parts s) →
  let s' := final (take_over self room old) s in
  active s' = active s ∧
  (unmoved s s' ∨
   value (take_over self room old) s = None ∧ owners_of (rooms (rw s)) !! room = Some old ∧
   owners_of (rooms (rw s')) = <[room := self]> (owners_of (rooms (rw s))) ∧
   parts s' = filter (λ x, ¬ points_at room old x) (parts s)).
Proof.
  intros Hq Hwf. unfold take_over. rewrite final_bind, value_bind.
  unfold recover_owner. rewrite (proj1 (on_world_run _ s)), (proj2 (on_world_run _ s)).
  rewrite value_bind, final_bind, quiet by done. rewrite value_bind, final_bind, final_get, value_get.
  destruct (RecoverOwner room old self (rooms (rw s))) as [res l'] eqn:E.
  rewrite value_bind, final_bind, final_modify, value_ret, final_ret.
  apply law_recover in E. unfold unmoved.
  destruct (Outcome res); rewrite ?value_ret, ?final_ret.
  - split; [done|]. left. split; [exact E|done].
  - split; [done|]. left. split; [exact E|done].
  - split; [done|]. left. split; [exact (proj2 E)|done].
  - rewrite value_bind, final_bind, final_ret, value_ret. rewrite cleanup_run by done.
    split; [done|]. right. destruct E. by split_and!.
Qed.
End effect.

(** What recovering a room does.  With the other nodes quiet: a disabled or
    blind recovery changes nothing; otherwise either nothing moves, or the room
    had an owner that the detector holds stale, this node becomes the owner of
    this room and no other, success is reported, and exactly the participant
    locations of the room that pointed at the dead owner are removed.  The
    in-progress mark of the room is always cleared again. *)
Theorem recover_room_effect {L} `{RoomLocatorLaws L} en ok now self room (s : rworld L) :
  others (rw s) = [] → parts_wf (parts s) → room ∉ active s →
  let s' := final (RecoverRoom en ok now self room) s in
  active s' = active s ∧
  (en && ok = false → s' = s ∧ value (RecoverRoom en ok now self room) s ≠ None) ∧
  (unmoved s s' ∨
   en && ok = true ∧ value (RecoverRoom en ok now self room) s = None ∧ recovered_by self room s s').
Proof.
  intros Hq Hwf Hact. unfold RecoverRoom.
  destruct en; [|by split_and!; [|split|left]]. destruct ok; [|by split_and!; [|split|left]].
  cbn [negb andb]. rewrite final_bind, value_bind, final_get, value_get.
  rewrite bool_decide_false by done. rewrite final_bind, value_bind, final_modify.
  set (s1 := set_active _ s).
  assert (active (final (recover_body now true self room) s1) = active s1 ∧
    (unmoved s1 (final (recover_body now true self room) s1) ∨
     value (recover_body now true self room) s1 = None ∧
     recovered_by self room s1 (final (recover_body now true self room) s1))) as [Ha Hr].
  { unfold recover_body. rewrite final_bind, value_bind. unfold ownership.
    rewrite (proj1 (on_world_run _ s1)), (proj2 (on_world_run _ s1)).
    rewrite value_bind, final_bind, quiet by done. rewrite value_gets, final_gets.
    assert (mkRW (rw s1) (parts s1) (det s1) (active s1) = s1) as -> by done.
    destruct (Ownership room (rooms (rw s1))) as [[old g]|] eqn:Eo; [|by split; [|left]].
    apply law_ownership in Eo. case_bool_decide as Hself; [by split; [|left]|].
    rewrite final_bind, value_bind, final_get, value_get.
    destruct (det_IsStale old (registry (rw s1)) (det s1)) eqn:Est; [|by split; [|left]].
    cbn [negb]. rewrite final_bind, value_bind.
    destruct (select_node_run now true self room s1) as (w2 & -> & Hr2 & Ho2 & Hg2).
    set (s2 := mkRW w2 (parts s1) (det s1) (active s1)).
    assert (unmoved s1 s2) as Hun by (split; [simpl; by rewrite Hr2|done]).
    destruct (value _ s1) as [e|[t why]]; [by split; [|left]|]. case_bool_decide; [by split; [|left]|].
    destruct (take_over_effect self room old s2) as [Hact2 [Hu|(Hv & Ho & How & Hp)]];
      [exact (eq_trans Ho2 Hq)|done|..].
    - split; [exact Hact2|left]. split; [by rewrite (proj1 Hu); apply Hun|apply Hu].
    - split; [exact Hact2|right]. split; [exact Hv|]. exists old. rewrite How, (proj1 Hun). by split_and!. }
  rewrite !final_bind, !value_bind, final_modify, final_ret, value_ret.
  set (s3 := final (recover_body now true self room) s1) in *.
  split; [|split; [done|]].
  - simpl. rewrite Ha. unfold s1. simpl. set_solver.
  - destruct Hr as [Hu|[Hv Hr]]; [left; exact Hu|right]. split; [done|]. split; [exact Hv|]. exact Hr.
Qed.

(** Node "a" runs a recovery over a store in which "dead" owns two rooms and "a"
    none; "dead" has vanished from the registry, "b" is alive. *)
Definition demo_rworld (ops : list (list locator_op)) : rworld InMemoryRoomLocator :=
  mkRW (mkWorld (mkLocator {["r"%string := "dead"%string; "live"%string := "a2"%string]} ∅ 0 0)
          (registry_run (NewInMemoryNodeRegistry (15 * second))
             [OpRegister 1 (with_state NodeReady (node_id_only "a"));
              OpRegister 1 (with_state NodeReady (node_id_only "a2"))])
          NewInMemoryLoadStore (newRoomRouter (mkPolicy defaultLoadWeights (f_of_Z 4) "")
            (mkCapacity 0 0 0 (f_of_Z 1) (f_of_Z 1)) 0) ops)
       {["p"%string := mkLoc "p" "r" "dead"; "q"%string := mkLoc "q" "r" "a2"]}
       (newFailureDetector 0 0) ∅.

Example recovery_spares_live_owners_witness :
  let s := demo_rworld [[OpClaim "live" "b"]] in
  owners (rooms (rw (final (RecoverRoom true true 2 "a" "live") s))) !! "live"%string
    = Some "a2"%string ∧
  owners (rooms (rw (final (RecoverNode true true 2 "a" "dead") s))) !! "live"%string
    = Some "a2"%string.
Proof.
  destruct (recovery_spares_live_owners "live" "a2" (demo_rworld [[OpClaim "live" "b"]])) with
    (en := true) (ok := true) (now := 2) (self := "a"%string) (r := "live"%string)
    (node := "dead"%string) as (H1 & H2 & _).
  - split; [vm_compute; reflexivity|]. repeat constructor. intros [].
  - vm_compute. reflexivity.
  - split; [exact H1|exact H2].
Defined.

Example recover_room_effect_witness :
  let s := demo_rworld [] in
  let s' := final (RecoverRoom true true 2 "a" "r") s in
  owners (rooms (rw s')) !! "r"%string = Some "a"%string ∧
  parts s' = {["q"%string := mkLoc "q" "r" "a2"]} ∧ active s' = ∅.
Proof.
  destruct (recover_room_effect true true 2 "a" "r" (demo_rworld [])) as (H1 & _ & _).
  - reflexivity.
  - intros i loc E.
    change (({["p"%string := mkLoc "p" "r" "dead"; "q"%string := mkLoc "q" "r" "a2"]}
      : gmap string ParticipantLocation) !! i = Some loc) in E.
    apply lookup_insert_Some in E as [[<- <-]|[_ E]]; [reflexivity|].
    apply lookup_singleton_Some in E as [<- <-]. reflexivity.
  - apply not_elem_of_empty.
  - split; [vm_compute; reflexivity|]. split; [vm_compute; reflexivity|]. exact H1.
Defined.
