(* ===== verification/Sfu.v ===== *)
(** * The SFU's rooms, participants, publications and subscriptions
      (internal/sfu: core_sfu, core_room, core_participant, publication,
      remote, permissions)

    The objects of the media plane are shared: a publication is reachable from
    its publisher, from every subscription to it and from the goroutines that
    serve it, and a room or a participant outlives its removal from the maps
    that name it.  The model therefore keeps a heap per kind of object and
    passes pointers around, exactly where the program does.

    Handlers are programs of the monad [M]; their observable actions are the
    messages pushed to browsers, the hooks fired, the RTCP written and the
    goroutines started.  What the program takes from elsewhere is an argument:
    the order of a [range] over a map and the answers of the WebRTC library are
    the environment [Env], clock readings and minted uuids are arguments.

    This file holds the data and the operations; SfuInvariant has the theorems
    about every reachable state. *)

From S2P Require Import Prelude SendQueue.

(** ** Data *)

(** src/internal/sfu/permissions.go:7-10 [Permissions] *)
Record Permissions := mkPerms {
  Publish : bool;
  CanSubscribe : bool
}.

(** src/internal/sfu/permissions.go:14-14 [FullPermissions] *)
Definition FullPermissions : Permissions := mkPerms true true.

(** The two values of [webrtc.RTPCodecType] a track has, and its [String]. *)
Inductive RTPCodecType :=
| RTPCodecTypeAudio
| RTPCodecTypeVideo.

#[export] Instance RTPCodecType_eq_dec : EqDecision RTPCodecType.
Proof. solve_decision. Defined.

Definition kind_String (k : RTPCodecType) : string :=
  match k with RTPCodecTypeAudio => "audio" | RTPCodecTypeVideo => "video" end.

Record Codec := mkCodec {
  MimeType : string;
  ClockRate : Z;
  Channels : Z;
  PayloadType : Z
}.

(** What the code reads of an incoming [webrtc.TrackRemote]. *)
Record TrackRemote := mkTrack {
  track_ID : string;
  track_Kind : RTPCodecType;
  track_SSRC : Z;
  track_Codec : Codec
}.

(** src/internal/cluster/media_remotetrack.go:21-32 [RemotePublicationInfo] *)
Record RemotePublicationInfo := mkInfo {
  info_RoomID : string;
  info_PublicationID : string;
  info_ParticipantID : string;
  info_OriginNodeID : string;
  info_Kind : string;
  info_MimeType : string;
  info_ClockRate : Z;
  info_Channels : Z;
  info_PayloadType : Z;
  info_SSRC : Z
}.

(** src/internal/sfu/publication.go:17-19 [media sources] *)
Definition SourceCamera : string := "camera".
Definition SourceMicrophone : string := "microphone".
Definition SourceScreen : string := "screen".

(** src/internal/sfu/publication.go:22-25 [keyframeRateLimit] *)
Definition keyframeRateLimit : Z := second.

(** src/internal/sfu/publication.go:40-91 [Publication]  The callbacks
    ([remoteRTCPSink], the function of a [remoteSink]) are names.  A nil sink
    slice behaves as an empty one. *)
Record Publication := mkPub {
  pub_id : string;
  participantID : string;
  pub_kind : RTPCodecType;
  ssrc : Z;
  codec : Codec;
  remoteTrackID : string;
  source : string;
  muted : bool;
  remote : bool;
  remoteRTCPSink : option nat;
  pub_room : option nat;
  lastKeyframe : Z;
  remoteSinks : list (N * nat);
  sinkSeq : N;
  subSinks : list (N * nat);
  subSeq : N
}.

(** src/internal/sfu/publication.go:297-308 [Subscription]  [sub_sink] is the
    entry id the [detach] closure removes. *)
Record Subscription := mkSub {
  publication : nat;
  sub_queue : nat;
  sub_sink : N
}.

(** src/internal/sfu/core_participant.go:25-44 [Participant]  The pub/sub half;
    the negotiation fields are in Negotiation, but for the debounce timer. *)
Record Participant := mkPart {
  part_id : string;
  part_room : nat;
  perms : Permissions;
  publications : gmap string nat;
  subscriptions : gmap string Subscription;
  optedOut : gset string;
  pendingSources : gmap string string;
  negotiateTimer : bool;
  bootstrapped : bool;
  part_closed : bool
}.

(** src/internal/sfu/core_room.go:15-27 [Room] *)
Record Room := mkRoom {
  room_id : string;
  participants : gmap string nat;
  remotePubs : gmap string nat
}.

(** src/internal/sfu/core_sfu.go:98-121 [SFU: counters] *)
Inductive counter :=
| roomsCreated | roomsClosed
| peerConnectionsMade | peerConnectionsClose
| publicationsMade | publicationsRemoved | screenPublicationsMade
| subscriptionsMade | subscriptionsRemoved | subscriptionsFailed
| negotiationsCoalesced
| subQueueDroppedAudio | subQueueDroppedVideo | subQueueResyncs.

#[export] Instance counter_eq_dec : EqDecision counter.
Proof. solve_decision. Defined.

(** src/internal/sfu/core_sfu.go:84-132 [SFU]  With the heaps its pointers live
    in, the shared packet-buffer pool and the next fresh pointer.  A hook field
    says whether a callback is registered. *)
Record sfu := mkSFU {
  rooms : gmap string nat;
  room_heap : gmap nat Room;
  part_heap : gmap nat Participant;
  pub_heap : gmap nat Publication;
  queue_heap : gmap nat sendQueue;
  buffers : bufPool;
  next : nat;
  counters : counter → Z;
  subQueueAudioCap : Z;
  subQueueVideoCap : Z;
  mediaPubEnded : bool;
  pubEvent : bool;
  subFailedHook : bool
}.

(** src/internal/sfu/core_sfu.go:27-82 [messages]  What a browser is sent. *)
Inductive msg :=
| MsgPublicationAdded (pubID participant kind source : string) (muted : bool)
| MsgPublicationRemoved (pubID participant kind source : string) (muted : bool)
| MsgPublicationMuted (pubID participant kind source : string) (muted : bool)
| MsgSubscriptionAdded (pubID participant kind source : string)
| MsgSubscriptionRemoved (pubID participant kind source : string)
| MsgPublishDenied
| MsgSubscribeDenied.

(** Goroutines started with [go]. *)
Inductive goroutine :=
| DrainReceiverRTCP
| DrainTrack
| IngestLoop (p pub : nat)
| RunSubWriteLoop (p pub q : nat)
| SubscriberRTCPLoop (p pub : nat)
| RequestKeyframe (pub : nat).

Inductive sfu_event :=
| Sent (p : nat) (m : msg)
| PublicationHook (roomID : string) (added : bool) (pubID participant kind : string)
| PublicationEndedHook (roomID pubID : string)
| SubscriptionFailedHook (roomID subscriber pubID : string)
| Go (g : goroutine)
| WroteRTCP (p : nat) (mediaSSRC : Z) (at_ : option Z)
| RemoteRTCP (sink : nat) (mediaSSRC : Z) (at_ : Z)
| Forwarded (fn : nat) (pkt : packet).

Abbreviation SM := (M sfu sfu_event).

(** The environment of a call: the order in which a [range] visits a map, and
    whether the WebRTC library accepts a track. *)
Record Env := mkEnv {
  range : ∀ A, gmap string A → list (string * A);
  NewTrackLocalStaticRTP_ok : Publication → bool;
  AddTrack_ok : nat → nat → bool
}.

Definition env_ok (env : Env) : Prop := ∀ A (m : gmap string A), range env A m ≡ₚ map_to_list m.

(** ** The heap *)

Definition null_pub : Publication :=
  mkPub "" "" RTPCodecTypeAudio 0 (mkCodec "" 0 0 0) "" "" false false None None 0 [] 0 [] 0.

Definition null_part : Participant :=
  mkPart "" 0 (mkPerms false false) ∅ ∅ ∅ ∅ false false true.

Definition null_room : Room := mkRoom "" ∅ ∅.

Definition pub_at (s : sfu) (x : nat) : Publication := default null_pub (pub_heap s !! x).

Definition part_at (s : sfu) (x : nat) : Participant := default null_part (part_heap s !! x).

Definition room_at (s : sfu) (x : nat) : Room := default null_room (room_heap s !! x).

Definition set_rooms (f : gmap string nat → gmap string nat) (s : sfu) : sfu :=
  mkSFU (f (rooms s)) (room_heap s) (part_heap s) (pub_heap s) (queue_heap s) (buffers s) (next s)
    (counters s) (subQueueAudioCap s) (subQueueVideoCap s) (mediaPubEnded s) (pubEvent s)
    (subFailedHook s).

Definition set_room_heap (f : gmap nat Room → gmap nat Room) (s : sfu) : sfu :=
  mkSFU (rooms s) (f (room_heap s)) (part_heap s) (pub_heap s) (queue_heap s) (buffers s) (next s)
    (counters s) (subQueueAudioCap s) (subQueueVideoCap s) (mediaPubEnded s) (pubEvent s)
    (subFailedHook s).

Definition set_part_heap (f : gmap nat Participant → gmap nat Participant) (s : sfu) : sfu :=
  mkSFU (rooms s) (room_heap s) (f (part_heap s)) (pub_heap s) (queue_heap s) (buffers s) (next s)
    (counters s) (subQueueAudioCap s) (subQueueVideoCap s) (mediaPubEnded s) (pubEvent s)
    (subFailedHook s).

Definition set_pub_heap (f : gmap nat Publication → gmap nat Publication) (s : sfu) : sfu :=
  mkSFU (rooms s) (room_heap s) (part_heap s) (f (pub_heap s)) (queue_heap s) (buffers s) (next s)
    (counters s) (subQueueAudioCap s) (subQueueVideoCap s) (mediaPubEnded s) (pubEvent s)
    (subFailedHook s).

Definition set_queues (qs : gmap nat sendQueue) (b : bufPool) (s : sfu) : sfu :=
  mkSFU (rooms s) (room_heap s) (part_heap s) (pub_heap s) qs b (next s)
    (counters s) (subQueueAudioCap s) (subQueueVideoCap s) (mediaPubEnded s) (pubEvent s)
    (subFailedHook s).

Definition set_next (n : nat) (s : sfu) : sfu :=
  mkSFU (rooms s) (room_heap s) (part_heap s) (pub_heap s) (queue_heap s) (buffers s) n
    (counters s) (subQueueAudioCap s) (subQueueVideoCap s) (mediaPubEnded s) (pubEvent s)
    (subFailedHook s).

Definition set_counters (c : counter → Z) (s : sfu) : sfu :=
  mkSFU (rooms s) (room_heap s) (part_heap s) (pub_heap s) (queue_heap s) (buffers s) (next s)
    c (subQueueAudioCap s) (subQueueVideoCap s) (mediaPubEnded s) (pubEvent s) (subFailedHook s).

Definition set_hooks (ended ev failed : bool) (s : sfu) : sfu :=
  mkSFU (rooms s) (room_heap s) (part_heap s) (pub_heap s) (queue_heap s) (buffers s) (next s)
    (counters s) (subQueueAudioCap s) (subQueueVideoCap s) ended ev failed.

Definition upd_part (x : nat) (f : Participant → Participant) : SM unit :=
  modify (set_part_heap (alter f x)).

Definition upd_pub (x : nat) (f : Publication → Publication) : SM unit :=
  modify (set_pub_heap (alter f x)).

Definition upd_room (x : nat) (f : Room → Room) : SM unit :=
  modify (set_room_heap (alter f x)).

(** A fresh pointer. *)
Definition alloc : SM nat :=
  x ← gets next;
  modify (set_next (S x));;
  mret x.

(** [c.Add(n)]. *)
Definition Add (c : counter) (n : Z) : SM unit :=
  modify (λ s, set_counters (λ c', if decide (c' = c) then counters s c + n else counters s c') s).

Definition with_publications (m : gmap string nat) (p : Participant) : Participant :=
  mkPart (part_id p) (part_room p) (perms p) m (subscriptions p) (optedOut p) (pendingSources p)
    (negotiateTimer p) (bootstrapped p) (part_closed p).

Definition with_subscriptions (m : gmap string Subscription) (p : Participant) : Participant :=
  mkPart (part_id p) (part_room p) (perms p) (publications p) m (optedOut p) (pendingSources p)
    (negotiateTimer p) (bootstrapped p) (part_closed p).

Definition with_optedOut (o : gset string) (p : Participant) : Participant :=
  mkPart (part_id p) (part_room p) (perms p) (publications p) (subscriptions p) o
    (pendingSources p) (negotiateTimer p) (bootstrapped p) (part_closed p).

Definition with_pendingSources (m : gmap string string) (p : Participant) : Participant :=
  mkPart (part_id p) (part_room p) (perms p) (publications p) (subscriptions p) (optedOut p) m
    (negotiateTimer p) (bootstrapped p) (part_closed p).

Definition with_timer (t : bool) (p : Participant) : Participant :=
  mkPart (part_id p) (part_room p) (perms p) (publications p) (subscriptions p) (optedOut p)
    (pendingSources p) t (bootstrapped p) (part_closed p).

Definition with_bootstrapped (b : bool) (p : Participant) : Participant :=
  mkPart (part_id p) (part_room p) (perms p) (publications p) (subscriptions p) (optedOut p)
    (pendingSources p) (negotiateTimer p) b (part_closed p).

Definition with_participants (m : gmap string nat) (r : Room) : Room :=
  mkRoom (room_id r) m (remotePubs r).

Definition with_remotePubs (m : gmap string nat) (r : Room) : Room :=
  mkRoom (room_id r) (participants r) m.

Definition with_subSinks (l : list (N * nat)) (seq : N) (b : Publication) : Publication :=
  mkPub (pub_id b) (participantID b) (pub_kind b) (ssrc b) (codec b) (remoteTrackID b) (source b)
    (muted b) (remote b) (remoteRTCPSink b) (pub_room b) (lastKeyframe b) (remoteSinks b)
    (sinkSeq b) l seq.

Definition with_remoteSinks (l : list (N * nat)) (seq : N) (b : Publication) : Publication :=
  mkPub (pub_id b) (participantID b) (pub_kind b) (ssrc b) (codec b) (remoteTrackID b) (source b)
    (muted b) (remote b) (remoteRTCPSink b) (pub_room b) (lastKeyframe b) l seq (subSinks b)
    (subSeq b).

Definition with_muted (m : bool) (b : Publication) : Publication :=
  mkPub (pub_id b) (participantID b) (pub_kind b) (ssrc b) (codec b) (remoteTrackID b) (source b)
    m (remote b) (remoteRTCPSink b) (pub_room b) (lastKeyframe b) (remoteSinks b) (sinkSeq b)
    (subSinks b) (subSeq b).

Definition with_lastKeyframe (t : Z) (b : Publication) : Publication :=
  mkPub (pub_id b) (participantID b) (pub_kind b) (ssrc b) (codec b) (remoteTrackID b) (source b)
    (muted b) (remote b) (remoteRTCPSink b) (pub_room b) t (remoteSinks b) (sinkSeq b)
    (subSinks b) (subSeq b).

(** ** Publications *)

(** src/internal/sfu/publication.go:267-272 [defaultSource] *)
Definition defaultSource (k : RTPCodecType) : string :=
  match k with RTPCodecTypeVideo => SourceCamera | RTPCodecTypeAudio => SourceMicrophone end.

(** src/internal/sfu/publication.go:257-265 [Source] *)
Definition Source (b : Publication) : string :=
  if decide (source b = "") then defaultSource (pub_kind b) else source b.

(** src/internal/sfu/publication.go:274-287 [newPublication]  [uuid] is the value
    [uuid.NewString] returns. *)
Definition newPublication (uuid : string) (pid : string) (t : TrackRemote) (src : string) : Publication :=
  let src := if decide (src = "") then defaultSource (track_Kind t) else src in
  mkPub ("pub-" +:+ uuid) pid (track_Kind t) (track_SSRC t) (track_Codec t) (track_ID t) src
    false false None None 0 [] 0 [] 0.

(** src/internal/sfu/publication.go:289-295 [queueKind] *)
Definition queueKind_of (b : Publication) : queueKind :=
  match pub_kind b with
  | RTPCodecTypeVideo => queueKindVideo
  | RTPCodecTypeAudio => queueKindAudio
  end.

(** src/internal/sfu/publication.go:93-107 [attachSink]  Returns the id the
    detach closure captured. *)
Definition attachSink (x : nat) (q : nat) : SM N :=
  seq ← gets (λ s, (subSeq (pub_at s x) + 1)%N);
  upd_pub x (λ b, with_subSinks (subSinks b ++ [(seq, q)]) seq b);;
  mret seq.

(** src/internal/sfu/publication.go:108-126 [attachSink: detach] *)
Definition detachSink (x : nat) (i : N) : SM unit :=
  upd_pub x (λ b, with_subSinks (filter (λ e, e.1 ≠ i) (subSinks b)) (subSeq b) b).

(** src/internal/sfu/publication.go:188-201 [addRemoteSink] *)
Definition addRemoteSink (x : nat) (fn : nat) : SM N :=
  seq ← gets (λ s, (sinkSeq (pub_at s x) + 1)%N);
  upd_pub x (λ b, with_remoteSinks (remoteSinks b ++ [(seq, fn)]) seq b);;
  mret seq.

(** src/internal/sfu/publication.go:202-222 [addRemoteSink: remove] *)
Definition removeRemoteSink (x : nat) (i : N) : SM unit :=
  upd_pub x (λ b, with_remoteSinks (filter (λ e, e.1 ≠ i) (remoteSinks b)) (sinkSeq b) b).

(** src/internal/sfu/publication.go:237-243 [fanRemote] *)
Definition fanRemote (x : nat) (pkt : packet) : SM unit :=
  l ← gets (λ s, remoteSinks (pub_at s x));
  for_each l (λ e, emit (Forwarded e.2 pkt)).

(** src/internal/sfu/core_sfu.go:230-236 [subQueueCap] *)
Definition subQueueCap (s : sfu) (k : queueKind) : Z :=
  match k with queueKindVideo => subQueueVideoCap s | queueKindAudio => subQueueAudioCap s end.

(** src/internal/sfu/core_sfu.go:238-245 [addSubQueueDrops] *)
Definition addSubQueueDrops (k : queueKind) (n : Z) : SM unit :=
  match k with
  | queueKindVideo => Add subQueueDroppedVideo n
  | queueKindAudio => Add subQueueDroppedAudio n
  end.

(** An operation of one send queue, run on the shared buffer pool.  The write
    loop's own state is not touched by [push] and [close]. *)
Definition on_queue (q : nat) (m : M pipe event unit) : SM (list event) := λ s,
  match queue_heap s !! q with
  | None => ([], s, [])
  | Some qq =>
      let '(_, p, w) := m (mkPipe (buffers s) qq None 0 false) in
      (w, set_queues (<[q := queue p]> (queue_heap s)) (pool p) s, [])
  end.

(** The queue's [onDrop] callback, installed by [subscribe]. *)
Definition onDrop (k : queueKind) (e : event) : SM unit :=
  match e with Dropped n => addSubQueueDrops k n | _ => mret tt end.

(** src/internal/sfu/publication.go:171-178 [writeRTP] *)
Definition writeRTP (x : nat) (pkt : packet) : SM unit :=
  b ← gets (λ s, pub_at s x);
  for_each (subSinks b) (λ e,
    w ← on_queue e.2 (SendQueue.push pkt);
    for_each w (onDrop (queueKind_of b))).

(** src/internal/sfu/core_room.go:205-210 [Room.participant] *)
Definition room_participant (s : sfu) (r : nat) (pid : string) : option nat :=
  participants (room_at s r) !! pid.

(** src/internal/sfu/publication.go:149-169 [requestKeyframe: compare-and-swap
    and send]  [last] is what the goroutine loaded, [now] its clock reading. *)
Definition requestKeyframe_swap (x : nat) (last now : Z) : SM unit :=
  s ← get;
  let b := pub_at s x in
  if decide (lastKeyframe b = last) then
    upd_pub x (with_lastKeyframe now);;
    if remote b then
      match remoteRTCPSink b with
      | Some sink => emit (RemoteRTCP sink (ssrc b) now)
      | None => mret tt
      end
    else
      match pub_room b with
      | None => mret tt
      | Some r =>
          match room_participant s r (participantID b) with
          | Some p => emit (WroteRTCP p (ssrc b) (Some now))
          | None => mret tt
          end
      end
  else mret tt.

(** src/internal/sfu/publication.go:136-169 [requestKeyframe]  The goroutine may
    be delayed between its load and its swap: [requestKeyframe_from] is the call
    with the value [last] it loaded. *)
Definition requestKeyframe_from (x : nat) (last now : Z) : SM unit :=
  b ← gets (λ s, pub_at s x);
  match pub_kind b with
  | RTPCodecTypeAudio => mret tt
  | RTPCodecTypeVideo =>
      if wrap64 (now - last) <? keyframeRateLimit then mret tt
      else requestKeyframe_swap x last now
  end.

Definition requestKeyframe (x : nat) (now : Z) : SM unit :=
  last ← gets (λ s, lastKeyframe (pub_at s x));
  requestKeyframe_from x last now.

Section operations.
Context (env : Env).

(** ** Introspection *)

(** src/internal/sfu/core_participant.go:644-652 [listPublications] *)
Definition listPublications (s : sfu) (p : nat) : list nat :=
  (range env _ (publications (part_at s p))).*2.

(** src/internal/sfu/core_room.go:218-231 [othersOf] *)
Definition othersOf (s : sfu) (r : nat) (pid : string) : list nat :=
  (filter (λ e, e.1 ≠ pid) (range env _ (participants (room_at s r)))).*2.

(** src/internal/sfu/core_room.go:233-241 [snapshot] *)
Definition snapshot (s : sfu) (r : nat) : list nat :=
  (range env _ (participants (room_at s r))).*2.

(** src/internal/sfu/core_room.go:212-216 [size] *)
Definition room_size (s : sfu) (r : nat) : nat := size (participants (room_at s r)).

(** src/internal/sfu/core_room.go:185-199 [findPublication] *)
Definition findPublication (s : sfu) (r : nat) (pubID : string) : option nat :=
  match list_find (λ x, pub_id (pub_at s x) = pubID) (snapshot s r ≫= listPublications s) with
  | Some (_, x) => Some x
  | None => remotePubs (room_at s r) !! pubID
  end.

(** ** Messages and hooks *)

(** src/internal/sfu/core_participant.go:619-628 [sendPublicationEvent] *)
Definition sendPublicationEvent (typ : string → string → string → string → bool → msg) (p x : nat) : SM unit :=
  b ← gets (λ s, pub_at s x);
  emit (Sent p (typ (pub_id b) (participantID b) (kind_String (pub_kind b)) (Source b) (muted b))).

(** src/internal/sfu/core_participant.go:630-638 [sendSubscriptionEvent] *)
Definition sendSubscriptionEvent (typ : string → string → string → string → msg) (p x : nat) : SM unit :=
  b ← gets (λ s, pub_at s x);
  emit (Sent p (typ (pub_id b) (participantID b) (kind_String (pub_kind b)) (Source b))).

(** src/internal/sfu/core_sfu.go:164-173 [firePublicationEvent] *)
Definition firePublicationEvent (roomID : string) (added : bool) (x : nat) : SM unit :=
  s ← get;
  let b := pub_at s x in
  if remote b then mret tt
  else when (pubEvent s)
         (emit (PublicationHook roomID added (pub_id b) (participantID b) (kind_String (pub_kind b)))).

(** src/internal/sfu/remote.go:26-30 [firePublicationEnded] *)
Definition firePublicationEnded (roomID pubID : string) : SM unit :=
  s ← get;
  when (mediaPubEnded s) (emit (PublicationEndedHook roomID pubID)).

(** src/internal/sfu/core_participant.go:215-233 [scheduleNegotiate] *)
Definition scheduleNegotiate (p : nat) : SM unit :=
  P ← gets (λ s, part_at s p);
  if part_closed P then mret tt
  else if negotiateTimer P then Add negotiationsCoalesced 1
  else upd_part p (with_timer true).

(** ** Subscriptions *)

(** src/internal/sfu/core_participant.go:475-524 [subscribe] *)
Definition subscribe (p x : nat) : SM unit :=
  s ← get;
  let P := part_at s p in
  let b := pub_at s x in
  if part_closed P then mret tt
  else match subscriptions P !! pub_id b with
  | Some _ => mret tt
  | None =>
      if negb (NewTrackLocalStaticRTP_ok env b) then mret tt
      else if negb (AddTrack_ok env p x) then mret tt
      else
        let k := queueKind_of b in
        q ← alloc;
        modify (λ s, set_queues (<[q := newSendQueue k (subQueueCap s k)]> (queue_heap s)) (buffers s) s);;
        i ← attachSink x q;
        upd_part p (λ P, with_subscriptions (<[pub_id b := mkSub x q i]> (subscriptions P)) P);;
        Add subscriptionsMade 1;;
        emit (Go (RunSubWriteLoop p x q));;
        emit (Go (SubscriberRTCPLoop p x));;
        sendSubscriptionEvent MsgSubscriptionAdded p x;;
        scheduleNegotiate p;;
        emit (Go (RequestKeyframe x))
  end.

(** src/internal/sfu/core_participant.go:542-567 [unsubscribe]  [RemoveTrack]'s
    error is only logged. *)
Definition unsubscribe (p : nat) (pubID : string) : SM unit :=
  s ← get;
  match subscriptions (part_at s p) !! pubID with
  | None => mret tt
  | Some sub =>
      upd_part p (λ P, with_subscriptions (delete pubID (subscriptions P)) P);;
      detachSink (publication sub) (sub_sink sub);;
      on_queue (sub_queue sub) SendQueue.close;;
      Add subscriptionsRemoved 1;;
      sendSubscriptionEvent MsgSubscriptionRemoved p (publication sub);;
      scheduleNegotiate p
  end.

(** src/internal/sfu/core_participant.go:459-473 [maybeAutoSubscribe] *)
Definition maybeAutoSubscribe (p x : nat) : SM unit :=
  s ← get;
  let P := part_at s p in
  let b := pub_at s x in
  if negb (CanSubscribe (perms P)) then mret tt
  else if decide (pub_id b ∈ optedOut P) then mret tt
  else if decide (is_Some (subscriptions P !! pub_id b)) then mret tt
  else if part_closed P then mret tt
  else subscribe p x.

(** src/internal/sfu/core_participant.go:418-420 [errors] *)
Inductive sub_error :=
| errSubscribeDenied
| errNotFound
| errOwnPublication.

(** src/internal/sfu/core_participant.go:422-448 [Subscribe] *)
Definition Subscribe (p : nat) (pubID : string) : SM (option sub_error) :=
  s ← get;
  let P := part_at s p in
  if negb (CanSubscribe (perms P)) then
    emit (Sent p MsgSubscribeDenied);; mret (Some errSubscribeDenied)
  else match findPublication s (part_room P) pubID with
  | None => mret (Some errNotFound)
  | Some x =>
      if decide (participantID (pub_at s x) = part_id P) then mret (Some errOwnPublication)
      else
        upd_part p (λ P, with_optedOut (optedOut P ∖ {[pubID]}) P);;
        (if decide (is_Some (subscriptions P !! pubID)) then
           sendSubscriptionEvent MsgSubscriptionAdded p x
         else subscribe p x);;
        mret None
  end.

(** src/internal/sfu/core_participant.go:450-457 [Unsubscribe] *)
Definition Unsubscribe (p : nat) (pubID : string) : SM unit :=
  upd_part p (λ P, with_optedOut (optedOut P ∪ {[pubID]}) P);;
  unsubscribe p pubID.

(** src/internal/sfu/core_participant.go:526-540 [onSubscriptionFatal] *)
Definition onSubscriptionFatal (p : nat) (pubID : string) : SM unit :=
  unsubscribe p pubID;;
  Add subscriptionsFailed 1;;
  s ← get;
  let P := part_at s p in
  when (subFailedHook s)
    (emit (SubscriptionFailedHook (room_id (room_at s (part_room P))) (part_id P) pubID)).

(** src/internal/sfu/core_participant.go:510-513 [subscribe: onResync callback] *)
Definition onResync (x : nat) (now : Z) : SM unit :=
  Add subQueueResyncs 1;;
  requestKeyframe x now.

(** ** Room coordination *)

(** src/internal/sfu/core_room.go:158-166 [onPublicationAdded] *)
Definition onPublicationAdded (r x : nat) : SM unit :=
  s ← get;
  for_each (othersOf s r (participantID (pub_at s x))) (λ sp,
    sendPublicationEvent MsgPublicationAdded sp x;;
    maybeAutoSubscribe sp x);;
  firePublicationEvent (room_id (room_at s r)) true x.

(** src/internal/sfu/core_room.go:168-176 [onPublicationRemoved] *)
Definition onPublicationRemoved (r x : nat) : SM unit :=
  s ← get;
  for_each (othersOf s r (participantID (pub_at s x))) (λ sp,
    unsubscribe sp (pub_id (pub_at s x));;
    sendPublicationEvent MsgPublicationRemoved sp x);;
  firePublicationEvent (room_id (room_at s r)) false x.

(** src/internal/sfu/core_room.go:178-183 [onPublicationMuted] *)
Definition onPublicationMuted (r x : nat) : SM unit :=
  s ← get;
  for_each (othersOf s r (participantID (pub_at s x))) (λ sp,
    sendPublicationEvent MsgPublicationMuted sp x).

(** ** Publishing *)

(** src/internal/sfu/core_participant.go:102-113 [DeclareSource] *)
Definition DeclareSource (p : nat) (trackID src : string) : SM unit :=
  if decide (trackID = "" ∨ src = "") then mret tt
  else upd_part p (λ P, with_pendingSources (<[trackID := src]> (pendingSources P)) P).

(** src/internal/sfu/core_participant.go:287-338 [onTrack: up to the start of the
    ingest loop]  Returns the publication, [None] when publishing is refused.
    The goroutines it starts run concurrently with the rest of [onTrack]. *)
Definition onTrack_mint (p : nat) (t : TrackRemote) (uuid : string) : SM (option nat) :=
  s ← get;
  let P := part_at s p in
  if negb (Publish (perms P)) then
    emit (Sent p MsgPublishDenied);;
    emit (Go DrainReceiverRTCP);;
    emit (Go DrainTrack);;
    mret None
  else
    let src := default "" (pendingSources P !! track_ID t) in
    upd_part p (λ P, with_pendingSources (delete (track_ID t) (pendingSources P)) P);;
    let b := newPublication uuid (part_id P) t src in
    x ← alloc;
    modify (set_pub_heap (<[x :=
      mkPub (pub_id b) (participantID b) (pub_kind b) (ssrc b) (codec b) (remoteTrackID b)
        (source b) (muted b) (remote b) (remoteRTCPSink b) (Some (part_room P)) (lastKeyframe b)
        (remoteSinks b) (sinkSeq b) (subSinks b) (subSeq b)]>));;
    upd_part p (λ P, with_publications (<[pub_id b := x]> (publications P)) P);;
    Add publicationsMade 1;;
    when (bool_decide (source b = SourceScreen)) (Add screenPublicationsMade 1);;
    sendPublicationEvent MsgPublicationAdded p x;;
    emit (Go DrainReceiverRTCP);;
    emit (Go (IngestLoop p x));;
    mret (Some x).

(** src/internal/sfu/core_participant.go:287-341 [onTrack] *)
Definition onTrack (p : nat) (t : TrackRemote) (uuid : string) : SM unit :=
  mx ← onTrack_mint p t uuid;
  match mx with
  | None => mret tt
  | Some x => s ← get; onPublicationAdded (part_room (part_at s p)) x
  end.

(** src/internal/sfu/core_participant.go:366-391 [removePublication, Unpublish] *)
Definition removePublication (p : nat) (pubID : string) : SM unit :=
  s ← get;
  let P := part_at s p in
  match publications P !! pubID with
  | None => mret tt
  | Some x =>
      upd_part p (λ P, with_publications (delete pubID (publications P)) P);;
      Add publicationsRemoved 1;;
      onPublicationRemoved (part_room P) x;;
      firePublicationEnded (room_id (room_at s (part_room P))) pubID
  end.

(** src/internal/sfu/core_participant.go:346-363 [ingestLoop]  One turn: a packet
    read from the publisher, or the end of the track. *)
Definition ingest_turn (p x : nat) (read : option packet) : SM unit :=
  match read with
  | Some pkt => writeRTP x pkt;; fanRemote x pkt
  | None => s ← get; removePublication p (pub_id (pub_at s x))
  end.

(** src/internal/sfu/core_participant.go:397-412 [SetMute]  [false] is the error
    "not your publication". *)
Definition SetMute (p : nat) (pubID : string) (m : bool) : SM bool :=
  s ← get;
  let P := part_at s p in
  match publications P !! pubID with
  | None => mret false
  | Some x => upd_pub x (with_muted m);; onPublicationMuted (part_room P) x;; mret true
  end.

(** ** Joining, bootstrap and teardown *)

(** src/internal/sfu/core_participant.go:592-600 [bootstrap] *)
Definition bootstrap (p : nat) : SM unit :=
  s ← get;
  for_each (othersOf s (part_room (part_at s p)) (part_id (part_at s p))) (λ sp,
    s ← get;
    for_each (listPublications s sp) (λ x, maybeAutoSubscribe p x)).

(** src/internal/sfu/core_participant.go:75-89 [newParticipant:
    OnConnectionStateChange]  The state the connection entered is "connected". *)
Definition onConnected (p : nat) : SM unit :=
  P ← gets (λ s, part_at s p);
  upd_part p (with_bootstrapped true);;
  when (negb (bootstrapped P)) (bootstrap p).

(** src/internal/sfu/core_participant.go:602-617 [SendExistingPublications] *)
Definition SendExistingPublications (p : nat) : SM unit :=
  s ← get;
  for_each (othersOf s (part_room (part_at s p)) (part_id (part_at s p))) (λ sp,
    s ← get;
    for_each (listPublications s sp) (λ x, sendPublicationEvent MsgPublicationAdded p x)).

(** src/internal/sfu/core_participant.go:46-64 [newParticipant]  [pc_ok]: did
    [NewPeerConnection] succeed. *)
Definition newParticipant (pid : string) (r : nat) (pc_ok : bool) : SM (option nat) :=
  if pc_ok then
    p ← alloc;
    modify (set_part_heap (<[p := mkPart pid r FullPermissions ∅ ∅ ∅ ∅ false false false]>));;
    mret (Some p)
  else mret None.

(** src/internal/sfu/core_room.go:111-128 [JoinWithPermissions] *)
Definition JoinWithPermissions (r : nat) (pid : string) (pm : Permissions) (pc_ok : bool) : SM (option nat) :=
  mp ← newParticipant pid r pc_ok;
  match mp with
  | None => mret None
  | Some p =>
      upd_part p (λ P, mkPart (part_id P) (part_room P) pm (publications P) (subscriptions P)
        (optedOut P) (pendingSources P) (negotiateTimer P) (bootstrapped P) (part_closed P));;
      upd_room r (λ R, with_participants (<[pid := p]> (participants R)) R);;
      Add peerConnectionsMade 1;;
      mret (Some p)
  end.

(** src/internal/sfu/core_room.go:104-109 [Join] *)
Definition Join (r : nat) (pid : string) (pc_ok : bool) : SM (option nat) :=
  JoinWithPermissions r pid FullPermissions pc_ok.

(** src/internal/sfu/core_participant.go:674-714 [close] *)
Definition part_close (p : nat) : SM unit :=
  P ← gets (λ s, part_at s p);
  if part_closed P then mret tt
  else
    let subs := subscriptions P in
    upd_part p (λ P, mkPart (part_id P) (part_room P) (perms P) (publications P) ∅ (optedOut P)
      (pendingSources P) false (bootstrapped P) true);;
    for_each (range env _ subs) (λ e,
      detachSink (publication e.2) (sub_sink e.2);;
      on_queue (sub_queue e.2) SendQueue.close;;
      mret tt);;
    when (0 <? Z.of_nat (size subs)) (Add subscriptionsRemoved (Z.of_nat (size subs))).

(** src/internal/sfu/core_sfu.go:279-287 [removeRoomIfEmpty] *)
Definition removeRoomIfEmpty (roomID : string) : SM unit :=
  s ← get;
  match rooms s !! roomID with
  | Some r =>
      when (bool_decide (room_size s r = 0%nat))
        (modify (set_rooms (delete roomID));; Add roomsClosed 1)
  | None => mret tt
  end.

(** src/internal/sfu/core_room.go:130-152 [Leave] *)
Definition room_Leave (r : nat) (pid : string) : SM unit :=
  s ← get;
  match room_participant s r pid with
  | None => mret tt
  | Some p =>
      upd_room r (λ R, with_participants (delete pid (participants R)) R);;
      for_each (listPublications s p) (λ x, onPublicationRemoved r x);;
      part_close p;;
      Add peerConnectionsClose 1;;
      removeRoomIfEmpty (room_id (room_at s r))
  end.

(** ** The SFU *)

(** src/internal/sfu/core_room.go:29-36 [newRoom] *)
Definition newRoom (roomID : string) : Room := mkRoom roomID ∅ ∅.

(** src/internal/sfu/core_sfu.go:247-259 [SFU.Room] *)
Definition getOrCreateRoom (roomID : string) : SM nat :=
  s ← get;
  match rooms s !! roomID with
  | Some r => mret r
  | None =>
      r ← alloc;
      modify (set_room_heap (<[r := newRoom roomID]>));;
      modify (set_rooms (<[roomID := r]>));;
      Add roomsCreated 1;;
      mret r
  end.

(** src/internal/sfu/core_sfu.go:261-267 [GetRoom] *)
Definition GetRoom (s : sfu) (roomID : string) : option nat := rooms s !! roomID.

(** src/internal/sfu/core_sfu.go:269-277 [SFU.Leave] *)
Definition Leave (roomID pid : string) : SM unit :=
  s ← get;
  match GetRoom s roomID with
  | None => mret tt
  | Some r => room_Leave r pid
  end.

(** src/internal/sfu/core_sfu.go:296-318 [LoadCounts] *)
Definition LoadCounts (s : sfu) : nat * nat * nat * nat :=
  let rl := (range env _ (rooms s)).*2 in
  let ps := rl ≫= snapshot s in
  (length rl, length ps,
   sum_list (size ∘ publications ∘ part_at s <$> ps),
   sum_list (size ∘ subscriptions ∘ part_at s <$> ps)).

(** src/internal/sfu/core_sfu.go:141-149 [SetPublicationEventHook,
    SetSubscriptionFailedHook] *)
Definition SetPublicationEventHook : SM unit :=
  modify (λ s, set_hooks (mediaPubEnded s) true (subFailedHook s) s).
Definition SetSubscriptionFailedHook : SM unit :=
  modify (λ s, set_hooks (mediaPubEnded s) (pubEvent s) true s).

(** ** Cross-node media *)

(** src/internal/sfu/remote.go:22-24 [SetMediaPublicationEndedHook] *)
Definition SetMediaPublicationEndedHook : SM unit :=
  modify (λ s, set_hooks true (pubEvent s) (subFailedHook s) s).

(** src/internal/sfu/core_room.go:38-76 [addRemotePublication]  [sink] names the
    [rtcpToOrigin] callback, [uuid] is the value of [uuid.NewString]; the result
    is the publication of the handle. *)
Definition addRemotePublication (r : nat) (info : RemotePublicationInfo) (sink : option nat) (uuid : string) : SM nat :=
  let k := if decide (info_Kind info = "video") then RTPCodecTypeVideo else RTPCodecTypeAudio in
  let b := mkPub (info_PublicationID info) (info_ParticipantID info) k (info_SSRC info)
             (mkCodec (info_MimeType info) (info_ClockRate info) (info_Channels info) (info_PayloadType info))
             (info_PublicationID info +:+ "-" +:+ String.substring 0 8 uuid) "" false true sink (Some r)
             0 [] 0 [] 0 in
  s ← get;
  match remotePubs (room_at s r) !! pub_id b with
  | Some existing => mret existing
  | None =>
      x ← alloc;
      modify (set_pub_heap (<[x := b]>));;
      upd_room r (λ R, with_remotePubs (<[pub_id b := x]> (remotePubs R)) R);;
      Add publicationsMade 1;;
      onPublicationAdded r x;;
      mret x
  end.

(** src/internal/sfu/core_room.go:78-89 [removeRemotePublication] *)
Definition removeRemotePublication (r : nat) (pubID : string) : SM unit :=
  s ← get;
  match remotePubs (room_at s r) !! pubID with
  | None => mret tt
  | Some x =>
      upd_room r (λ R, with_remotePubs (delete pubID (remotePubs R)) R);;
      Add publicationsRemoved 1;;
      onPublicationRemoved r x
  end.

(** src/internal/sfu/remote.go:101-107 [AddRemotePublication]  With the room of
    the handle. *)
Definition AddRemotePublication (info : RemotePublicationInfo) (sink : option nat) (uuid : string) : SM (nat * nat) :=
  r ← getOrCreateRoom (info_RoomID info);
  x ← addRemotePublication r info sink uuid;
  mret (r, x).

(** src/internal/sfu/remote.go:115-122 [remotePubHandle]  [WriteRTP] and [Close];
    [WriteRTCP] does nothing. *)
Definition handle_WriteRTP (x : nat) (pkt : packet) : SM unit := writeRTP x pkt.
Definition handle_Close (r x : nat) : SM unit :=
  s ← get; removeRemotePublication r (pub_id (pub_at s x)).

(** src/internal/sfu/remote.go:32-57 [AttachForwarder]  [fn] names the [onRTP]
    callback; the result has the publication and the sink id of [detach]. *)
Definition AttachForwarder (roomID pubID : string) (fn : nat) : SM (option (RemotePublicationInfo * (nat * N))) :=
  s ← get;
  match GetRoom s roomID with
  | None => mret None
  | Some r =>
      match findPublication s r pubID with
      | None => mret None
      | Some x =>
          let b := pub_at s x in
          if remote b then mret None
          else
            i ← addRemoteSink x fn;
            mret (Some (mkInfo roomID (pub_id b) (participantID b) "" (kind_String (pub_kind b))
                          (MimeType (codec b)) (ClockRate (codec b)) (Channels (codec b))
                          (PayloadType (codec b)) (ssrc b), (x, i)))
      end
  end.

(** The RTCP packets a feedback datagram decodes to. *)
Inductive rtcp_packet :=
| PictureLossIndication
| FullIntraRequest
| OtherRTCP.

(** src/internal/sfu/remote.go:59-88 [DeliverRTCPToPublisher]  [pkts] is what
    [rtcp.Unmarshal] returns for the datagram. *)
Definition DeliverRTCPToPublisher (roomID pubID : string) (pkts : option (list rtcp_packet)) : SM unit :=
  s ← get;
  match GetRoom s roomID with
  | None => mret tt
  | Some r =>
      match findPublication s r pubID with
      | None => mret tt
      | Some x =>
          let b := pub_at s x in
          if remote b then mret tt
          else match room_participant s r (participantID b), pkts with
          | Some peer, Some l =>
              for_each l (λ pk,
                match pk with
                | PictureLossIndication | FullIntraRequest => emit (WroteRTCP peer (ssrc b) None)
                | OtherRTCP => mret tt
                end)
          | _, _ => mret tt
          end
      end
  end.

(** src/internal/sfu/remote.go:90-99 [RoomHasPublication] *)
Definition RoomHasPublication (s : sfu) (roomID pubID : string) : bool :=
  match GetRoom s roomID with
  | None => false
  | Some r => bool_decide (is_Some (findPublication s r pubID))
  end.

(** src/internal/sfu/core_participant.go:569-587 [subscriberRTCPLoop]  One batch
    of a subscriber's feedback. *)
Definition subscriberRTCP (x : nat) (pkts : list rtcp_packet) (now : Z) : SM unit :=
  for_each pkts (λ pk,
    match pk with
    | PictureLossIndication | FullIntraRequest => requestKeyframe x now
    | OtherRTCP => mret tt
    end).

End operations.
