(* ===== verification/SfuInvariant.v ===== *)
(** * Invariants of the SFU's object graph

    What holds in every state the SFU can reach, whatever the order of the
    calls, of the map iterations and of the goroutines it started: who may be
    subscribed to what, how subscriptions and publications are wired through
    the send queues, and what the counters count.

    The state is seen through [core_of], which forgets what the invariant does
    not depend on.  Inside a handler a subscription may be half made or half
    removed: the invariant [Inv] takes the list of the dangling ones and the
    amounts not counted yet as ghost arguments, so it holds at every program
    point, and the handlers are proved call by call. *)

From S2P Require Import Prelude SendQueue Sfu.

(** ** The core of a state *)

(** A participant, without its subscriptions and what is local to it. *)
Record pstat := mkPs {
  ps_id : string;
  ps_room : nat;
  ps_perms : Permissions;
  ps_pubs : gmap string nat;
  ps_closed : bool
}.

(** A publication, without its sinks. *)
Record bstat := mkBs {
  bs_id : string;
  bs_owner : string;
  bs_room : option nat;
  bs_remote : bool
}.

Definition pstat_of (P : Participant) : pstat :=
  mkPs (part_id P) (part_room P) (perms P) (publications P) (part_closed P).

Definition bstat_of (b : Publication) : bstat :=
  mkBs (pub_id b) (participantID b) (pub_room b) (remote b).

Definition sinks_of (b : Publication) : list (N * nat) * N := (subSinks b, subSeq b).

Record core := mkCore {
  c_parts : gmap nat pstat;
  c_subs : gmap nat (gmap string Subscription);
  c_pubs : gmap nat bstat;
  c_sinks : gmap nat (list (N * nat) * N);
  c_queues : gmap nat bool;
  c_objs : gmap nat Room;
  c_rooms : gmap string nat;
  c_next : nat;
  c_dsubs : Z;
  c_dpubs : Z;
  c_dpcs : Z;
  c_drooms : Z
}.

Definition core_of (s : sfu) : core :=
  mkCore (pstat_of <$> part_heap s) (subscriptions <$> part_heap s)
    (bstat_of <$> pub_heap s) (sinks_of <$> pub_heap s) (SendQueue.closed <$> queue_heap s)
    (room_heap s) (rooms s) (next s)
    (counters s subscriptionsMade - counters s subscriptionsRemoved)
    (counters s publicationsMade - counters s publicationsRemoved)
    (counters s peerConnectionsMade - counters s peerConnectionsClose)
    (counters s roomsCreated - counters s roomsClosed).

(** ** The invariant *)

(** Participant object [p] holds subscription [sub] under key [k]. *)
Definition live (subs : gmap nat (gmap string Subscription)) (p : nat) (k : string) (sub : Subscription) : Prop :=
  ∃ m, subs !! p = Some m ∧ m !! k = Some sub.

Definition claimed subs (d : list Subscription) (sub : Subscription) : Prop :=
  (∃ p k, live subs p k sub) ∨ sub ∈ d.

(** Objects refer to each other consistently: a room's members are open
    participants of that room under their own id, its mirrors are remote
    publications of that room; only those who may publish own publications,
    which are theirs and of their room. *)
Record stat_ok (parts : gmap nat pstat) (pubs : gmap nat bstat) (objs : gmap nat Room)
    (rms : gmap string nat) : Prop := mkStat {
  so_members r R pid p :
    objs !! r = Some R → participants R !! pid = Some p →
    ∃ P, parts !! p = Some P ∧ ps_id P = pid ∧ ps_room P = r ∧ ps_closed P = false;
  so_mirrors r R k x :
    objs !! r = Some R → remotePubs R !! k = Some x →
    ∃ B, pubs !! x = Some B ∧ bs_id B = k ∧ bs_room B = Some r ∧ bs_remote B = true;
  so_owned p P k x :
    parts !! p = Some P → ps_pubs P !! k = Some x →
    Publish (ps_perms P) = true ∧
    ∃ B, pubs !! x = Some B ∧ bs_id B = k ∧ bs_owner B = ps_id P ∧
         bs_room B = Some (ps_room P) ∧ bs_remote B = false;
  so_rooms id r : rms !! id = Some r → ∃ R, objs !! r = Some R ∧ room_id R = id
}.

(** A subscription is held by an open participant that may subscribe, to a
    publication of another participant in the same room. *)
Definition may_subscribe (parts : gmap nat pstat) (pubs : gmap nat bstat) (p x : nat) (k : string) : Prop :=
  ∃ P B, parts !! p = Some P ∧ pubs !! x = Some B ∧ bs_id B = k ∧
    CanSubscribe (ps_perms P) = true ∧ ps_closed P = false ∧
    bs_owner B ≠ ps_id P ∧ bs_room B = Some (ps_room P).

Definition subs_ok parts pubs subs : Prop :=
  ∀ p k sub, live subs p k sub → may_subscribe parts pubs p (publication sub) k.

(** Each subscription is held once, and the dangling ones are held by nobody. *)
Definition ledger subs (d : list Subscription) : Prop :=
  (∀ p k p' k' sub, live subs p k sub → live subs p' k' sub → p = p' ∧ k = k') ∧
  NoDup d ∧ ∀ sub p k, sub ∈ d → ¬ live subs p k sub.

(** The sinks of a publication are exactly the claimed subscriptions to it, each
    with a queue of its own that is open. *)
Record wiring (C : Subscription → Prop) (sinks : gmap nat (list (N * nat) * N))
    (queues : gmap nat bool) : Prop := mkWiring {
  wi_attached sub : C sub →
    ∃ l n, sinks !! publication sub = Some (l, n) ∧ (sub_sink sub, sub_queue sub) ∈ l ∧
           queues !! sub_queue sub = Some false;
  wi_sinks x l n i q :
    sinks !! x = Some (l, n) → (i, q) ∈ l → C (mkSub x q i) ∧ (i ≤ n)%N;
  wi_ids x l n : sinks !! x = Some (l, n) → NoDup l.*1;
  wi_queues sub sub' : C sub → C sub' → sub_queue sub = sub_queue sub' → sub = sub'
}.

Definition fresh_ok (c : core) : Prop := ∀ n, (c_next c ≤ n)%nat →
  c_parts c !! n = None ∧ c_subs c !! n = None ∧ c_pubs c !! n = None ∧ c_sinks c !! n = None ∧
  c_queues c !! n = None ∧ c_objs c !! n = None.

(** What the counters count; [k] subscriptions and [kp] connections are removed
    and not counted yet. *)
Record balance (k kp : Z) (c : core) : Prop := mkBalance {
  ba_subs : c_dsubs c = msum (λ m, Z.of_nat (size m)) (c_subs c) + k;
  ba_pubs : c_dpubs c = msum (λ P, Z.of_nat (size (ps_pubs P))) (c_parts c)
                        + msum (λ R, Z.of_nat (size (remotePubs R))) (c_objs c);
  ba_pcs : c_dpcs c = msum (λ P, if ps_closed P then 0 else 1) (c_parts c) + kp;
  ba_rooms : c_drooms c = Z.of_nat (size (c_rooms c))
}.

Record Inv (d : list Subscription) (k kp : Z) (c : core) : Prop := mkInv {
  in_stat : stat_ok (c_parts c) (c_pubs c) (c_objs c) (c_rooms c);
  in_subs : subs_ok (c_parts c) (c_pubs c) (c_subs c);
  in_ledger : ledger (c_subs c) d;
  in_wiring : wiring (claimed (c_subs c) d) (c_sinks c) (c_queues c);
  in_fresh : fresh_ok c;
  in_balance : balance k kp c
}.

(** The calls that only touch subscriptions leave the rest alone. *)
Definition ext (t c : core) : Prop :=
  c_parts c = c_parts t ∧ c_pubs c = c_pubs t ∧ c_objs c = c_objs t ∧ c_rooms c = c_rooms t.

#[export] Instance ext_equivalence : Equivalence ext.
Proof.
  split.
  - done.
  - intros a b (?&?&?&?). by repeat split.
  - intros a b c (?&?&?&?) (?&?&?&?). repeat split; congruence.
Qed.

(** ** Who holds what *)

Section live.
Context (subs : gmap nat (gmap string Subscription)) (p : nat) (m : gmap string Subscription).
Hypothesis Hp : subs !! p = Some m.

Lemma live_self k sub : live subs p k sub ↔ m !! k = Some sub.
Proof. unfold live. rewrite Hp. naive_solver. Qed.

Lemma live_update m' p' k' sub :
  live (<[p := m']> subs) p' k' sub ↔ (p' = p ∧ m' !! k' = Some sub) ∨ (p' ≠ p ∧ live subs p' k' sub).
Proof.
  unfold live. destruct (decide (p' = p)) as [->|Hne].
  - rewrite lookup_insert_eq. naive_solver.
  - rewrite lookup_insert_ne by done. naive_solver.
Qed.

Lemma live_insert k sub p' k' sub' :
  m !! k = None →
  live (<[p := <[k := sub]> m]> subs) p' k' sub'
  ↔ (p' = p ∧ k' = k ∧ sub' = sub) ∨ live subs p' k' sub'.
Proof.
  intros Hk. rewrite live_update. destruct (decide (p' = p)) as [->|]; [|naive_solver].
  rewrite live_self, lookup_insert_Some. naive_solver congruence.
Qed.

Lemma live_delete k p' k' sub' :
  live (<[p := delete k m]> subs) p' k' sub' ↔ live subs p' k' sub' ∧ ¬ (p' = p ∧ k' = k).
Proof.
  rewrite live_update. destruct (decide (p' = p)) as [->|]; [|naive_solver].
  rewrite live_self, lookup_delete_Some. naive_solver.
Qed.

Lemma live_clear p' k' sub' :
  live (<[p := ∅]> subs) p' k' sub' ↔ live subs p' k' sub' ∧ p' ≠ p.
Proof. rewrite live_update. rewrite lookup_empty. naive_solver. Qed.
End live.

(** A new subscription object enters the ledger through the dangling list,
    and leaves it the same way. *)
Lemma ledger_hold subs d p m k sub :
  subs !! p = Some m → m !! k = None → ledger subs (sub :: d) →
  ledger (<[p := <[k := sub]> m]> subs) d.
Proof.
  intros Hp Hk (Hu & Hd & Hn). apply NoDup_cons in Hd as [Hs Hd].
  assert (∀ p' k', ¬ live subs p' k' sub) as Hns by (intros; apply Hn; set_solver).
  split_and!.
  - intros p1 k1 p2 k2 sub'. rewrite !(live_insert _ _ _ Hp) by done. naive_solver.
  - done.
  - intros sub' p' k' Hin. rewrite (live_insert _ _ _ Hp) by done.
    intros [(-> & -> & ->)|Hl]; [done|]. eapply Hn; [|done]. by right.
Qed.

Lemma ledger_unhold subs d p m k sub :
  subs !! p = Some m → m !! k = Some sub → ledger subs d →
  ledger (<[p := delete k m]> subs) (sub :: d).
Proof.
  intros Hp Hk (Hu & Hd & Hn).
  assert (live subs p k sub) as Hl by by eexists.
  split_and!.
  - intros p1 k1 p2 k2 sub'. rewrite !(live_delete _ _ _ Hp). naive_solver.
  - constructor; [|done]. intros Hin. by apply (Hn _ _ _ Hin Hl).
  - intros sub' p' k' Hin. rewrite (live_delete _ _ _ Hp). intros [Hl' Hne].
    apply elem_of_cons in Hin as [->|Hin]; [|by apply (Hn _ _ _ Hin Hl')].
    destruct (Hu _ _ _ _ _ Hl Hl'). naive_solver.
Qed.

Lemma ledger_drop subs d sub : ledger subs (sub :: d) → ledger subs d.
Proof.
  intros (Hu & Hd & Hn). apply NoDup_cons in Hd as [_ Hd].
  split_and!; [done|done|]. intros. apply Hn. by right.
Qed.

Lemma ledger_clear subs d p m l :
  subs !! p = Some m → l ≡ₚ map_to_list m → ledger subs d →
  ledger (<[p := ∅]> subs) (l.*2 ++ d).
Proof.
  intros Hp Hl (Hu & Hd & Hn).
  assert (∀ k sub, (k, sub) ∈ l ↔ live subs p k sub) as Hin.
  { intros k sub. rewrite Hl, elem_of_map_to_list. symmetry. by apply live_self. }
  split_and!.
  - intros p1 k1 p2 k2 sub'. rewrite !(live_clear _ _). naive_solver.
  - apply NoDup_app. split_and!; [|intros sub|done].
    + apply NoDup_fmap_2_strong.
      * intros [k1 s1] [k2 s2] H1 H2 ?; simplify_eq/=. apply Hin in H1, H2.
        by destruct (Hu _ _ _ _ _ H1 H2) as [_ ->].
      * rewrite Hl. apply NoDup_map_to_list.
    + intros ([k s] & -> & Hks)%list_elem_of_fmap Hd'. apply Hin in Hks.
      by apply (Hn _ _ _ Hd' Hks).
  - intros sub p' k' [Hs|Hs]%elem_of_app; rewrite live_clear.
    + intros [Hl' Hne]. apply list_elem_of_fmap in Hs as ([k s] & -> & Hks).
      apply Hin in Hks. by destruct (Hu _ _ _ _ _ Hks Hl').
    + intros [Hl' _]. by apply (Hn _ _ _ Hs Hl').
Qed.

(** ** Wiring *)

Lemma wiring_claims (C C' : Subscription → Prop) sinks queues :
  (∀ sub, C sub ↔ C' sub) → wiring C sinks queues → wiring C' sinks queues.
Proof.
  intros HC [H1 H2 H3 H4]. split.
  - intros sub Hs. apply H1. by apply HC.
  - intros x l n i q Hx Hi. destruct (H2 x l n i q Hx Hi). by rewrite <- HC.
  - done.
  - intros sub sub' Hs Hs'. apply H4; by apply HC.
Qed.

Lemma wiring_attach (C : Subscription → Prop) sinks queues x l n q :
  wiring C sinks queues → sinks !! x = Some (l, n) → queues !! q = None →
  wiring (λ sub, C sub ∨ sub = mkSub x q (n + 1))
    (<[x := (l ++ [((n + 1)%N, q)], (n + 1)%N)]> sinks) (<[q := false]> queues).
Proof.
  intros [H1 H2 H3 H4] Hx Hq.
  assert (∀ sub, C sub → sub_queue sub ≠ q) as Hnew.
  { intros sub Hs <-. destruct (H1 sub Hs) as (?&?&?&?&?). congruence. }
  split.
  - intros sub [Hs| ->].
    + destruct (H1 sub Hs) as (l' & n' & Hl & Hin & Hq').
      rewrite (lookup_insert_ne queues) by (symmetry; by apply Hnew).
      destruct (decide (publication sub = x)) as [E|].
      * rewrite E in *. simplify_eq. rewrite lookup_insert_eq. eexists _, _. split_and!; [done| |done].
        apply elem_of_app. by left.
      * rewrite lookup_insert_ne by done. eauto.
    + simpl. rewrite !lookup_insert_eq. eexists _, _. split_and!; [done| |done].
      apply elem_of_app. right. by apply list_elem_of_singleton.
  - intros x' l' n' i q'. destruct (decide (x' = x)) as [->|].
    + rewrite lookup_insert_eq. intros [= <- <-] [Hi|Hi]%elem_of_app.
      * destruct (H2 _ _ _ _ _ Hx Hi). split; [by left|lia].
      * apply list_elem_of_singleton in Hi. simplify_eq. split; [by right|lia].
    + rewrite lookup_insert_ne by done. intros Hl Hi. destruct (H2 _ _ _ _ _ Hl Hi). eauto.
  - intros x' l' n'. destruct (decide (x' = x)) as [->|].
    + rewrite lookup_insert_eq. intros [= <- <-]. rewrite fmap_app. apply NoDup_app.
      split_and!; [by eapply H3| |apply NoDup_singleton].
      intros i ([i' q'] & -> & Hi)%list_elem_of_fmap E%list_elem_of_singleton.
      destruct (H2 _ _ _ _ _ Hx Hi). simpl in *. lia.
    + rewrite lookup_insert_ne by done. apply H3.
  - intros sub sub' [Hs| ->] [Hs'| ->]; simpl; intros E; [by apply H4| | |done].
    + by destruct (Hnew sub Hs).
    + by destruct (Hnew sub' Hs').
Qed.

Lemma wiring_detach (C : Subscription → Prop) sinks queues sub l n :
  wiring C sinks queues → C sub → sinks !! publication sub = Some (l, n) →
  wiring (λ sub', C sub' ∧ sub' ≠ sub)
    (<[publication sub := (filter (λ e, e.1 ≠ sub_sink sub) l, n)]> sinks)
    (<[sub_queue sub := true]> queues).
Proof.
  intros [H1 H2 H3 H4] Hsub Hx.
  destruct (H1 sub Hsub) as (l0 & n0 & Hl0 & Hin0 & _). simplify_eq.
  split.
  - intros sub' [Hs Hne]. destruct (H1 sub' Hs) as (l' & n' & Hl & Hin & Hq').
    rewrite (lookup_insert_ne queues) by (intros ?; apply Hne; symmetry; by apply H4).
    destruct (decide (publication sub' = publication sub)) as [E|].
    + rewrite E in *. simplify_eq. rewrite lookup_insert_eq.
      eexists _, _. split_and!; [done| |done].
      apply list_elem_of_filter. split; [|done]. simpl. intros Ei. apply Hne.
      apply H4; [done..|]. rewrite Ei in Hin.
      apply list_elem_of_lookup in Hin as [a Ha], Hin0 as [b Hb].
      assert (a = b) as ->; [|congruence].
      eapply (NoDup_lookup l.*1); [by eapply H3| |]; rewrite list_lookup_fmap; by (rewrite Ha || rewrite Hb).
    + rewrite lookup_insert_ne by done. eauto.
  - intros x' l' n' i q'. destruct (decide (x' = publication sub)) as [->|].
    + rewrite lookup_insert_eq. intros [= <- <-] [Hi Hin]%list_elem_of_filter.
      destruct (H2 _ _ _ _ _ Hx Hin). split; [|done]. split; [done|]. intros E. apply Hi. by rewrite <- E.
    + rewrite lookup_insert_ne by done. intros Hl Hi. destruct (H2 _ _ _ _ _ Hl Hi).
      split; [|done]. split; [done|]. intros E. by rewrite <- E in *.
  - intros x' l' n'. destruct (decide (x' = publication sub)) as [->|].
    + rewrite lookup_insert_eq. intros [= <- <-].
      eapply sublist_NoDup; [by eapply H3|]. apply fmap_sublist, sublist_filter.
    + rewrite lookup_insert_ne by done. apply H3.
  - intros s1 s2 [Hs1 _] [Hs2 _]. by apply H4.
Qed.

(** ** The primitive changes of a core *)

Definition c_attach (x q : nat) (l : list (N * nat)) (n : N) (c : core) : core :=
  mkCore (c_parts c) (c_subs c) (c_pubs c) (<[x := (l ++ [((n + 1)%N, q)], (n + 1)%N)]> (c_sinks c))
    (<[q := false]> (c_queues c)) (c_objs c) (c_rooms c) (S q)
    (c_dsubs c) (c_dpubs c) (c_dpcs c) (c_drooms c).

Definition c_hold (p : nat) (m : gmap string Subscription) (c : core) : core :=
  mkCore (c_parts c) (<[p := m]> (c_subs c)) (c_pubs c) (c_sinks c) (c_queues c) (c_objs c)
    (c_rooms c) (c_next c) (c_dsubs c) (c_dpubs c) (c_dpcs c) (c_drooms c).

Definition c_drop (sub : Subscription) (l : list (N * nat)) (n : N) (c : core) : core :=
  mkCore (c_parts c) (c_subs c) (c_pubs c)
    (<[publication sub := (filter (λ e, e.1 ≠ sub_sink sub) l, n)]> (c_sinks c))
    (<[sub_queue sub := true]> (c_queues c)) (c_objs c) (c_rooms c) (c_next c)
    (c_dsubs c) (c_dpubs c) (c_dpcs c) (c_drooms c).

Definition c_count (ds dp : Z) (c : core) : core :=
  mkCore (c_parts c) (c_subs c) (c_pubs c) (c_sinks c) (c_queues c) (c_objs c) (c_rooms c)
    (c_next c) (c_dsubs c + ds) (c_dpubs c) (c_dpcs c + dp) (c_drooms c).

Definition c_close (p : nat) (P : pstat) (c : core) : core :=
  mkCore (<[p := mkPs (ps_id P) (ps_room P) (ps_perms P) (ps_pubs P) true]> (c_parts c))
    (<[p := ∅]> (c_subs c)) (c_pubs c) (c_sinks c) (c_queues c) (c_objs c) (c_rooms c)
    (c_next c) (c_dsubs c) (c_dpubs c) (c_dpcs c) (c_drooms c).

Section core_steps.
Context (d : list Subscription) (k kp : Z) (c : core).

Lemma Inv_attach x l n :
  Inv d k kp c → c_sinks c !! x = Some (l, n) →
  Inv (mkSub x (c_next c) (n + 1) :: d) k kp (c_attach x (c_next c) l n c).
Proof.
  intros [Hst Hsu Hle Hwi Hfr [B1 B2 B3 B4]] Hx.
  destruct (Hfr (c_next c)) as (F1 & F2 & F3 & F4 & F5 & F6); [done|].
  assert (¬ claimed (c_subs c) d (mkSub x (c_next c) (n + 1))) as Hnew.
  { intros Hc. destruct (wi_attached _ _ _ Hwi _ Hc) as (?&?&?&?&?). simpl in *. congruence. }
  split; simpl; [done|done| | |intros n' Hn'; simpl in *|by split].
  - destruct Hle as (Hu & Hd & Hn). split_and!; [done| |].
    + constructor; [|done]. intros Hin. apply Hnew. by right.
    + intros sub p kk [->|Hin]%elem_of_cons Hl; [|by apply (Hn _ _ _ Hin Hl)].
      apply Hnew. left. eauto.
  - refine (wiring_claims _ _ _ _ _ (wiring_attach _ _ _ x l n _ Hwi Hx F5)).
    intros sub. unfold claimed. rewrite elem_of_cons. tauto.
  - destruct (Hfr n') as (? & ? & ? & ? & ? & ?); [lia|]. rewrite !lookup_insert_ne; [done|lia|].
    intros ->. congruence.
Qed.

Lemma Inv_hold p m key sub :
  Inv (sub :: d) k kp c → c_subs c !! p = Some m → m !! key = None →
  may_subscribe (c_parts c) (c_pubs c) p (publication sub) key →
  Inv d (k - 1) kp (c_hold p (<[key := sub]> m) c).
Proof.
  intros [Hst Hsu Hle Hwi Hfr [B1 B2 B3 B4]] Hp Hk Hmay.
  split; simpl; [done| | | | |split; simpl; try done].
  - intros p' k' sub'. rewrite (live_insert _ _ _ Hp) by done.
    intros [(-> & -> & ->)|Hl]; [done|by apply Hsu].
  - by apply ledger_hold.
  - eapply wiring_claims; [|done]. intros sub'. unfold claimed. rewrite elem_of_cons.
    setoid_rewrite (live_insert _ _ _ Hp); [|done]. naive_solver.
  - intros n' Hn'. simpl in *. destruct (Hfr n' Hn') as (? & ? & ? & ? & ? & ?). split_and!; try done.
    rewrite lookup_insert_ne; [done|]. intros ->. congruence.
  - rewrite (msum_update _ _ _ m), map_size_insert_None, B1 by done. lia.
Qed.

Lemma Inv_unhold p m key sub :
  Inv d k kp c → c_subs c !! p = Some m → m !! key = Some sub →
  Inv (sub :: d) (k + 1) kp (c_hold p (delete key m) c).
Proof.
  intros [Hst Hsu Hle Hwi Hfr [B1 B2 B3 B4]] Hp Hk.
  split; simpl; [done| | | | |split; simpl; try done].
  - intros p' k' sub'. rewrite (live_delete _ _ _ Hp). intros [Hl _]. by apply Hsu.
  - by apply ledger_unhold.
  - eapply wiring_claims; [|done]. intros sub'. unfold claimed. rewrite elem_of_cons.
    setoid_rewrite (live_delete _ _ _ Hp). split.
    + intros [(p' & k' & Hl)|Hin]; [|naive_solver].
      destruct (decide (p' = p ∧ k' = key)) as [[-> ->]|]; [|naive_solver].
      apply (live_self _ _ _ Hp) in Hl. naive_solver.
    + intros [(p' & k' & Hl & _)|[->|Hin]]; [naive_solver| |naive_solver].
      left. exists p, key. by apply (live_self _ _ _ Hp).
  - intros n' Hn'. simpl in *. destruct (Hfr n' Hn') as (? & ? & ? & ? & ? & ?). split_and!; try done.
    rewrite lookup_insert_ne; [done|]. intros ->. congruence.
  - rewrite (msum_update _ _ _ m), map_size_delete_Some, B1 by done.
    pose proof (size_lookup_pos _ _ _ Hk). lia.
Qed.

Lemma Inv_drop sub l n :
  Inv (sub :: d) k kp c → c_sinks c !! publication sub = Some (l, n) →
  Inv d k kp (c_drop sub l n c).
Proof.
  intros [Hst Hsu Hle Hwi Hfr [B1 B2 B3 B4]] Hx.
  assert (claimed (c_subs c) (sub :: d) sub) as Hc by (right; left).
  destruct (wi_attached _ _ _ Hwi _ Hc) as (?&?&_&_&Hq).
  split; simpl; [done|done|by eapply ledger_drop| |intros n' Hn'; simpl in *|by split].
  - refine (wiring_claims _ _ _ _ _ (wiring_detach _ _ _ sub l n Hwi Hc Hx)).
    intros sub'. unfold claimed. rewrite elem_of_cons.
    destruct Hle as (_ & Hd & Hn). apply NoDup_cons in Hd as [Hs _]. split.
    + intros [[?|[?|?]] ?]; tauto.
    + intros [(p & kk & Hl)|Hin]; (split; [naive_solver|]); intros ->; [|done].
      eapply Hn; [|done]. by left.
  - destruct (Hfr n' Hn') as (? & ? & ? & ? & ? & ?).
    split_and!; try done; (rewrite lookup_insert_ne; [done|]); intros <-; congruence.
Qed.

Lemma Inv_count n n' : Inv d k kp c → Inv d (k + n) (kp + n') (c_count n n' c).
Proof. intros [????? [????]]. split; try done. split; simpl; try done; lia. Qed.

Lemma Inv_close p P m l :
  Inv d k kp c → c_parts c !! p = Some P → ps_closed P = false → c_subs c !! p = Some m →
  l ≡ₚ map_to_list m →
  (∀ r R pid, c_objs c !! r = Some R → participants R !! pid ≠ Some p) →
  Inv (l.*2 ++ d) (k + Z.of_nat (size m)) (kp + 1) (c_close p P c).
Proof.
  intros [[S1 S2 S3 S4] Hsu Hle Hwi Hfr [B1 B2 B3 B4]] HP Hcl Hp Hl Hout.
  split; simpl; [split| | | | |split]; simpl; try done.
  - intros r R pid p' HR Hp'. rewrite lookup_insert_ne; [eauto|].
    intros <-. by apply (Hout r R pid).
  - intros p' P' key x. rewrite lookup_insert_Some. intros [[<- <-]|[Hne HP']] Hkx; simpl in *; eauto.
  - intros p' k' sub'. rewrite live_clear. intros [Hl' Hne].
    destruct (Hsu p' k' sub' Hl') as (P1 & B & H1 & H2). exists P1, B.
    split; [|done]. by rewrite lookup_insert_ne.
  - by eapply ledger_clear.
  - eapply wiring_claims; [|done]. intros sub'. unfold claimed. rewrite elem_of_app.
    setoid_rewrite live_clear. setoid_rewrite list_elem_of_fmap. setoid_rewrite Hl.
    split.
    + intros [(p' & k' & Hl')|Hin]; [|tauto].
      destruct (decide (p' = p)) as [->|]; [|naive_solver].
      apply (live_self _ _ _ Hp) in Hl'. right. left. exists (k', sub'). split; [done|].
      by apply elem_of_map_to_list.
    + intros [(p' & k' & Hl' & _)|[([k' s'] & -> & Hin)|Hin]]; [naive_solver| |tauto].
      left. exists p, k'. apply (live_self _ _ _ Hp). by apply elem_of_map_to_list.
  - intros n' Hn'. simpl in *. destruct (Hfr n' Hn') as (? & ? & ? & ? & ? & ?).
    split_and!; try done; rewrite lookup_insert_ne; try done; intros ->; congruence.
  - rewrite (msum_update _ _ _ m), B1 by done. rewrite map_size_empty. lia.
  - rewrite (msum_update _ _ _ P), B2 by done. simpl. lia.
  - rewrite (msum_update _ _ _ P), B3, Hcl by done. simpl. lia.
Qed.
End core_steps.

(** Structural changes: a participant's or a room's publications, new objects,
    the table of rooms.  [dp], [dc], [dr] are the changes of the counts. *)
Definition c_struct (parts : gmap nat pstat) (subs : gmap nat (gmap string Subscription))
    (pubs : gmap nat bstat) (sinks : gmap nat (list (N * nat) * N)) (objs : gmap nat Room)
    (rms : gmap string nat) (n : nat) (dp dc dr : Z) (c : core) : core :=
  mkCore parts subs pubs sinks (c_queues c) objs rms n
    (c_dsubs c) (c_dpubs c + dp) (c_dpcs c + dc) (c_drooms c + dr).

Definition ps_with_pubs (m : gmap string nat) (P : pstat) : pstat :=
  mkPs (ps_id P) (ps_room P) (ps_perms P) m (ps_closed P).

Section core_struct.
Context (d : list Subscription) (k kp : Z) (c : core).
Hypothesis HI : Inv d k kp c.

Let Hfr := in_fresh _ _ _ _ HI.

Lemma fresh_next :
  c_parts c !! c_next c = None ∧ c_subs c !! c_next c = None ∧ c_pubs c !! c_next c = None ∧
  c_sinks c !! c_next c = None ∧ c_objs c !! c_next c = None.
Proof. destruct (Hfr (c_next c)) as (?&?&?&?&?&?); [done|]. by split_and!. Qed.

(** A participant loses or keeps its publications; nothing else moves. *)
Lemma Inv_unpublish p P key x :
  c_parts c !! p = Some P → ps_pubs P !! key = Some x →
  Inv d k kp (c_struct (<[p := ps_with_pubs (delete key (ps_pubs P)) P]> (c_parts c)) (c_subs c)
                (c_pubs c) (c_sinks c) (c_objs c) (c_rooms c) (c_next c) (-1) 0 0 c).
Proof.
  intros HP Hk. pose proof HI as [[S1 S2 S3 S4] Hsu Hle Hwi _ [B1 B2 B3 B4]].
  split; simpl; [split| |done|done| |split]; simpl; try done.
  - intros r R pid p' HR Hp'. destruct (S1 r R pid p' HR Hp') as (P' & HP' & ? & ? & ?).
    destruct (decide (p' = p)) as [->|]; [|rewrite lookup_insert_ne by done; eauto].
    simplify_eq. rewrite lookup_insert_eq. eauto.
  - intros p' P' key' x'. rewrite lookup_insert_Some. intros [[<- <-]|[_ HP']]; [|eauto].
    simpl. rewrite lookup_delete_Some. intros [_ Hk']. eauto.
  - intros p' k' sub' Hl. destruct (Hsu p' k' sub' Hl) as (P' & B & HP' & Hrest).
    destruct (decide (p' = p)) as [->|]; [|exists P', B; by rewrite lookup_insert_ne].
    simplify_eq. exists (ps_with_pubs (delete key (ps_pubs P)) P), B. by rewrite lookup_insert_eq.
  - intros n Hn. destruct (Hfr n Hn) as (?&?&?&?&?&?). split_and!; try done.
    simpl. rewrite lookup_insert_ne; [done|]. intros ->. congruence.
  - rewrite (msum_update _ _ _ P), B2 by done. simpl. rewrite map_size_delete_Some by done.
    pose proof (size_lookup_pos _ _ _ Hk). lia.
  - rewrite (msum_update _ _ _ P), B3 by done. simpl. lia.
  - lia.
Qed.

(** A new publication object, owned by participant [p]. *)
Lemma Inv_publish p P B :
  c_parts c !! p = Some P → ps_pubs P !! bs_id B = None → Publish (ps_perms P) = true →
  bs_owner B = ps_id P → bs_room B = Some (ps_room P) → bs_remote B = false →
  Inv d k kp (c_struct (<[p := ps_with_pubs (<[bs_id B := c_next c]> (ps_pubs P)) P]> (c_parts c))
                (c_subs c) (<[c_next c := B]> (c_pubs c)) (<[c_next c := ([], 0%N)]> (c_sinks c))
                (c_objs c) (c_rooms c) (S (c_next c)) 1 0 0 c).
Proof.
  intros HP Hk Hpb Ho Hr Hre. destruct fresh_next as (F1 & F2 & F3 & F4 & F5).
  pose proof HI as [[S1 S2 S3 S4] Hsu Hle [W1 W2 W3 W4] _ [B1 B2 B3 B4]].
  assert (∀ x B', c_pubs c !! x = Some B' → <[c_next c := B]> (c_pubs c) !! x = Some B') as Hold.
  { intros x B' HB. rewrite lookup_insert_ne; [done|]. intros <-. congruence. }
  split; simpl; [split| |done|split| |split]; simpl; try done.
  - intros r R pid p' HR Hp'. destruct (S1 r R pid p' HR Hp') as (P' & HP' & ? & ? & ?).
    destruct (decide (p' = p)) as [->|]; [|rewrite lookup_insert_ne by done; eauto].
    simplify_eq. rewrite lookup_insert_eq. eauto.
  - intros r R key x HR Hx. destruct (S2 r R key x HR Hx) as (B' & ? & ?). eauto.
  - intros p' P' key' x'. rewrite lookup_insert_Some. intros [[<- <-]|[_ HP']].
    + simpl. rewrite lookup_insert_Some. intros [[<- <-]|[_ Hk']].
      * split; [done|]. exists B. by rewrite lookup_insert_eq.
      * destruct (S3 p P key' x' HP Hk') as (? & B' & ? & ?). eauto.
    + intros Hk'. destruct (S3 p' P' key' x' HP' Hk') as (? & B' & ? & ?). eauto.
  - intros p' k' sub' Hl. destruct (Hsu p' k' sub' Hl) as (P' & B' & HP' & HB' & Hrest).
    apply Hold in HB'. destruct (decide (p' = p)) as [->|]; [|exists P', B'; by rewrite lookup_insert_ne].
    simplify_eq. exists (ps_with_pubs (<[bs_id B := c_next c]> (ps_pubs P)) P), B'. by rewrite lookup_insert_eq.
  - intros sub Hs. destruct (W1 sub Hs) as (l & n & Hl & Hrest). exists l, n. split; [|done].
    rewrite lookup_insert_ne; [done|]. intros E. rewrite <- E in Hl. congruence.
  - intros x l n i q. rewrite lookup_insert_Some. intros [[<- [= <- <-]]|[_ Hl]]; [by intros ?%elem_of_nil|].
    eauto.
  - intros x l n. rewrite lookup_insert_Some. intros [[<- [= <- <-]]|[_ Hl]]; [constructor|eauto].
  - intros n Hn. simpl in *. destruct (Hfr n) as (?&?&?&?&?&?); [lia|].
    rewrite !(lookup_insert_ne _ (c_next c)) by lia. split_and!; try done.
    rewrite lookup_insert_ne; [done|]. intros ->. congruence.
  - rewrite (msum_update _ _ _ P), B2 by done. simpl. rewrite map_size_insert_None by done. lia.
  - rewrite (msum_update _ _ _ P), B3 by done. simpl. lia.
  - lia.
Qed.

(** A room's members or mirrors change. *)
Lemma Inv_room r R R' dp :
  c_objs c !! r = Some R → room_id R' = room_id R →
  (∀ pid p, participants R' !! pid = Some p → participants R !! pid = Some p) →
  (∀ key x, remotePubs R' !! key = Some x → remotePubs R !! key = Some x) →
  Z.of_nat (size (remotePubs R')) = Z.of_nat (size (remotePubs R)) + dp →
  Inv d k kp (c_struct (c_parts c) (c_subs c) (c_pubs c) (c_sinks c) (<[r := R']> (c_objs c))
                (c_rooms c) (c_next c) dp 0 0 c).
Proof.
  intros HR Hid Hpa Hre Hsz. pose proof HI as [[S1 S2 S3 S4] Hsu Hle Hwi _ [B1 B2 B3 B4]].
  split; simpl; [split|done|done|done| |split]; simpl; try done; try lia.
  - intros r' R1 pid p. rewrite lookup_insert_Some. intros [[<- <-]|[_ HR']]; [|eauto].
    intros Hp. eauto.
  - intros r' R1 key x. rewrite lookup_insert_Some. intros [[<- <-]|[_ HR']]; [|eauto].
    intros Hp. eauto.
  - intros id r' Hr'. destruct (S4 id r' Hr') as (R1 & HR1 & <-).
    destruct (decide (r' = r)) as [->|]; [|rewrite lookup_insert_ne by done; eauto].
    simplify_eq. rewrite lookup_insert_eq. eauto.
  - intros n Hn. destruct (Hfr n Hn) as (?&?&?&?&?&?). split_and!; try done.
    simpl. rewrite lookup_insert_ne; [done|]. intros ->. congruence.
  - rewrite (msum_update _ _ _ R), B2 by done. lia.
Qed.
(** A new participant object, entered in room [r] under its id. *)
Lemma Inv_join r R pid pm :
  c_objs c !! r = Some R →
  Inv d k kp (c_struct (<[c_next c := mkPs pid r pm ∅ false]> (c_parts c))
                (<[c_next c := ∅]> (c_subs c)) (c_pubs c) (c_sinks c)
                (<[r := with_participants (<[pid := c_next c]> (participants R)) R]> (c_objs c))
                (c_rooms c) (S (c_next c)) 0 1 0 c).
Proof.
  intros HR. destruct fresh_next as (F1 & F2 & F3 & F4 & F5).
  pose proof HI as [[S1 S2 S3 S4] Hsu Hle Hwi _ [B1 B2 B3 B4]].
  assert (∀ p P, c_parts c !! p = Some P → <[c_next c := mkPs pid r pm ∅ false]> (c_parts c) !! p = Some P) as Hold.
  { intros p P HP. rewrite lookup_insert_ne; [done|]. intros <-. congruence. }
  assert (∀ p key sub, live (<[c_next c := ∅]> (c_subs c)) p key sub ↔ live (c_subs c) p key sub) as Hlive.
  { intros p key sub. rewrite live_clear. split; [tauto|]. intros Hl. split; [done|].
    intros ->. destruct Hl as (m & Hm & _). congruence. }
  split; simpl; [split| | | | |split]; simpl; try done; try lia.
  - intros r' R1 pid' p. rewrite lookup_insert_Some. intros [[<- <-]|[_ HR']] Hp.
    + simpl in Hp. rewrite lookup_insert_Some in Hp. destruct Hp as [[<- <-]|[_ Hp]].
      * rewrite lookup_insert_eq. eauto.
      * destruct (S1 r R pid' p HR Hp) as (P & ? & ?). eauto.
    + destruct (S1 r' R1 pid' p HR' Hp) as (P & ? & ?). eauto.
  - intros r' R1 key x. rewrite lookup_insert_Some. intros [[<- <-]|[_ HR']]; [|eauto].
    simpl. eauto.
  - intros p P key x. rewrite lookup_insert_Some. intros [[<- <-]|[_ HP]]; [done|eauto].
  - intros id r' Hr'. destruct (S4 id r' Hr') as (R1 & HR1 & <-).
    destruct (decide (r' = r)) as [->|]; [|rewrite lookup_insert_ne by done; eauto].
    simplify_eq. rewrite lookup_insert_eq. eauto.
  - intros p key sub Hl%Hlive. destruct (Hsu p key sub Hl) as (P & B & ? & ?). exists P, B. eauto.
  - destruct Hle as (Hu & Hd & Hn). split_and!; [|done|].
    + intros p1 k1 p2 k2 sub. rewrite !Hlive. apply Hu.
    + intros sub p key Hin. rewrite Hlive. by apply Hn.
  - eapply wiring_claims; [|done]. intros sub. unfold claimed. by setoid_rewrite Hlive.
  - intros n Hn. simpl in *. destruct (Hfr n) as (?&?&?&?&?&?); [lia|].
    rewrite !(lookup_insert_ne _ (c_next c)) by lia. split_and!; try done.
    rewrite lookup_insert_ne; [done|]. intros ->. congruence.
  - rewrite msum_insert, B1 by done. rewrite map_size_empty. lia.
  - rewrite msum_insert, (msum_update _ _ _ R), B2 by done. simpl. rewrite map_size_empty. lia.
  - rewrite msum_insert, B3 by done. simpl. lia.
Qed.

(** A new mirror publication, entered in room [r]. *)
Lemma Inv_mirror r R B :
  c_objs c !! r = Some R → remotePubs R !! bs_id B = None → bs_room B = Some r → bs_remote B = true →
  Inv d k kp (c_struct (c_parts c) (c_subs c) (<[c_next c := B]> (c_pubs c))
                (<[c_next c := ([], 0%N)]> (c_sinks c))
                (<[r := with_remotePubs (<[bs_id B := c_next c]> (remotePubs R)) R]> (c_objs c))
                (c_rooms c) (S (c_next c)) 1 0 0 c).
Proof.
  intros HR Hk Hr Hre. destruct fresh_next as (F1 & F2 & F3 & F4 & F5).
  pose proof HI as [[S1 S2 S3 S4] Hsu Hle [W1 W2 W3 W4] _ [B1 B2 B3 B4]].
  assert (∀ x B', c_pubs c !! x = Some B' → <[c_next c := B]> (c_pubs c) !! x = Some B') as Hold.
  { intros x B' HB. rewrite lookup_insert_ne; [done|]. intros <-. congruence. }
  split; simpl; [split| |done|split| |split]; simpl; try done; try lia.
  - intros r' R1 pid p. rewrite lookup_insert_Some. intros [[<- <-]|[_ HR']]; [|eauto].
    simpl. eauto.
  - intros r' R1 key x. rewrite lookup_insert_Some. intros [[<- <-]|[_ HR']] Hx.
    + simpl in Hx. rewrite lookup_insert_Some in Hx. destruct Hx as [[<- <-]|[_ Hx]].
      * exists B. by rewrite lookup_insert_eq.
      * destruct (S2 r R key x HR Hx) as (B' & ? & ?). eauto.
    + destruct (S2 r' R1 key x HR' Hx) as (B' & ? & ?). eauto.
  - intros p P key x HP Hx. destruct (S3 p P key x HP Hx) as (? & B' & ? & ?). eauto.
  - intros id r' Hr'. destruct (S4 id r' Hr') as (R1 & HR1 & <-).
    destruct (decide (r' = r)) as [->|]; [|rewrite lookup_insert_ne by done; eauto].
    simplify_eq. rewrite lookup_insert_eq. eauto.
  - intros p key sub Hl. destruct (Hsu p key sub Hl) as (P & B' & ? & ? & ?). exists P, B'. eauto.
  - intros sub Hs. destruct (W1 sub Hs) as (l & n & Hl & Hrest). exists l, n. split; [|done].
    rewrite lookup_insert_ne; [done|]. intros E. rewrite <- E in Hl. congruence.
  - intros x l n i q. rewrite lookup_insert_Some. intros [[<- [= <- <-]]|[_ Hl]]; [by intros ?%elem_of_nil|].
    eauto.
  - intros x l n. rewrite lookup_insert_Some. intros [[<- [= <- <-]]|[_ Hl]]; [constructor|eauto].
  - intros n Hn. simpl in *. destruct (Hfr n) as (?&?&?&?&?&?); [lia|].
    rewrite !(lookup_insert_ne _ (c_next c)) by lia. split_and!; try done.
    rewrite lookup_insert_ne; [done|]. intros ->. congruence.
  - rewrite (msum_update _ _ _ R), B2 by done. simpl. rewrite map_size_insert_None by done. lia.
Qed.

(** The table of rooms: a new room object, and a room forgotten. *)
Lemma Inv_newroom id :
  c_rooms c !! id = None →
  Inv d k kp (c_struct (c_parts c) (c_subs c) (c_pubs c) (c_sinks c)
                (<[c_next c := newRoom id]> (c_objs c)) (<[id := c_next c]> (c_rooms c))
                (S (c_next c)) 0 0 1 c).
Proof.
  intros Hid. destruct fresh_next as (F1 & F2 & F3 & F4 & F5).
  pose proof HI as [[S1 S2 S3 S4] Hsu Hle Hwi _ [B1 B2 B3 B4]].
  split; simpl; [split|done|done|done| |split]; simpl; try done; try lia.
  - intros r R pid p. rewrite lookup_insert_Some. intros [[<- <-]|[_ HR']]; [done|eauto].
  - intros r R key x. rewrite lookup_insert_Some. intros [[<- <-]|[_ HR']]; [done|eauto].
  - intros id' r. rewrite lookup_insert_Some. intros [[<- <-]|[_ Hr]].
    + rewrite lookup_insert_eq. eauto.
    + destruct (S4 id' r Hr) as (R & HR & ?). exists R. split; [|done].
      rewrite lookup_insert_ne; [done|]. intros <-. congruence.
  - intros n Hn. simpl in *. destruct (Hfr n) as (?&?&?&?&?&?); [lia|]. split_and!; try done.
    rewrite lookup_insert_ne by lia. done.
  - rewrite msum_insert, B2 by done. simpl. rewrite map_size_empty. lia.
  - rewrite map_size_insert_None by done. lia.
Qed.

Lemma Inv_droproom id r :
  c_rooms c !! id = Some r →
  Inv d k kp (c_struct (c_parts c) (c_subs c) (c_pubs c) (c_sinks c) (c_objs c)
                (delete id (c_rooms c)) (c_next c) 0 0 (-1) c).
Proof.
  intros Hid. pose proof HI as [[S1 S2 S3 S4] Hsu Hle Hwi _ [B1 B2 B3 B4]].
  split; simpl; [split|done|done|done|done|split]; simpl; try done; try lia.
  - intros id' r'. rewrite lookup_delete_Some. intros [_ Hr]. eauto.
  - rewrite map_size_delete_Some by done.
    pose proof (size_lookup_pos _ _ _ Hid). lia.
Qed.
End core_struct.
