(* ===== verification/SfuSteps.v ===== *)
(** * The SFU's handlers preserve its invariant

    Each operation of Sfu is followed through [core_of] and shown to preserve
    the invariant of SfuInvariant; the step relation collects them, at the
    grain of the goroutines: a handler that starts goroutines or that walks a
    snapshot of a room may be overtaken by any other step.  The theorems about
    every reachable state are at the end. *)

From S2P Require Import Prelude SendQueue Sfu SfuInvariant.

(** ** The state, seen through its core *)

Lemma core_soft_part s p f :
  (∀ P, pstat_of (f P) = pstat_of P) → (∀ P, subscriptions (f P) = subscriptions P) →
  core_of (set_part_heap (alter f p) s) = core_of s.
Proof. intros H1 H2. unfold core_of; simpl. by rewrite !fmap_alter_same. Qed.

Lemma core_soft_pub s x f :
  (∀ b, bstat_of (f b) = bstat_of b) → (∀ b, sinks_of (f b) = sinks_of b) →
  core_of (set_pub_heap (alter f x) s) = core_of s.
Proof. intros H1 H2. unfold core_of; simpl. by rewrite !fmap_alter_same. Qed.

(** A counter the invariant does not speak of. *)
Definition quiet (c : counter) : bool :=
  match c with
  | screenPublicationsMade | subscriptionsFailed | negotiationsCoalesced
  | subQueueDroppedAudio | subQueueDroppedVideo | subQueueResyncs => true
  | _ => false
  end.

Lemma core_Add s c n :
  core_of (final (Add c n) s) =
  match c with
  | subscriptionsMade => c_count n 0 (core_of s)
  | subscriptionsRemoved => c_count (- n) 0 (core_of s)
  | peerConnectionsMade => c_count 0 n (core_of s)
  | peerConnectionsClose => c_count 0 (- n) (core_of s)
  | _ => core_of (final (Add c n) s)
  end.
Proof. destruct c; try done; unfold core_of, c_count; simpl; f_equal; lia. Qed.

Lemma core_Add_quiet s c n : quiet c = true → core_of (final (Add c n) s) = core_of s.
Proof. by destruct c. Qed.

Lemma pub_at_core s x : bstat_of <$> (pub_heap s !! x) = c_pubs (core_of s) !! x.
Proof. unfold core_of; simpl. by rewrite lookup_fmap. Qed.

Lemma core_pub s x B :
  c_pubs (core_of s) !! x = Some B →
  ∃ b, pub_heap s !! x = Some b ∧ pub_at s x = b ∧ B = bstat_of b ∧
       c_sinks (core_of s) !! x = Some (subSinks b, subSeq b).
Proof.
  unfold core_of, pub_at; simpl. rewrite !lookup_fmap. intros (b & Hb & ->)%fmap_Some.
  rewrite Hb. eauto.
Qed.

Lemma core_part s p P :
  c_parts (core_of s) !! p = Some P →
  ∃ b, part_heap s !! p = Some b ∧ part_at s p = b ∧ P = pstat_of b ∧
       c_subs (core_of s) !! p = Some (subscriptions b).
Proof.
  unfold core_of, part_at; simpl. rewrite !lookup_fmap. intros (b & Hb & ->)%fmap_Some.
  rewrite Hb. eauto.
Qed.

Lemma core_subs s p m :
  c_subs (core_of s) !! p = Some m →
  ∃ b, part_heap s !! p = Some b ∧ part_at s p = b ∧ m = subscriptions b ∧
       c_parts (core_of s) !! p = Some (pstat_of b).
Proof.
  unfold core_of, part_at; simpl. rewrite !lookup_fmap. intros (b & Hb & ->)%fmap_Some.
  rewrite Hb. eauto.
Qed.

Lemma core_sinks s x l n :
  c_sinks (core_of s) !! x = Some (l, n) →
  ∃ b, pub_heap s !! x = Some b ∧ pub_at s x = b ∧ l = subSinks b ∧ n = subSeq b.
Proof.
  unfold core_of, pub_at; simpl. rewrite lookup_fmap. intros (b & Hb & Hs)%fmap_Some.
  rewrite Hb. unfold sinks_of in Hs. simplify_eq. eauto.
Qed.

(** Queue operations: a push or a pop never opens or closes a queue. *)
Lemma release_all_queue l p : queue (final (for_each l releaseBuf) p) = queue p.
Proof.
  revert p. induction l as [|b l IH]; intros p; simpl; [done|].
  autorewrite with mrun. by rewrite IH.
Qed.

Lemma overflow_closed p :
  SendQueue.closed (queue (final overflow p)) = SendQueue.closed (queue p).
Proof.
  destruct p as [pl [kd cp rg cl rs dc] h st ex]. unfold overflow.
  autorewrite with mrun. simpl. case_match; [|done].
  autorewrite with mrun. destruct kd; [destruct rg|]; simpl; autorewrite with mrun; simpl; try done.
Qed.

Lemma getBuf_queue pkt p : queue (final (getBuf pkt) p) = queue p.
Proof. unfold getBuf, final. by destruct (free (pool p)). Qed.

Lemma push_closed pkt p :
  SendQueue.closed (queue (final (SendQueue.push pkt) p)) = SendQueue.closed (queue p).
Proof.
  unfold SendQueue.push. autorewrite with mrun. rewrite getBuf_queue.
  destruct (SendQueue.closed (queue p)) eqn:E.
  - unfold releaseBuf. autorewrite with mrun. simpl. by rewrite getBuf_queue.
  - autorewrite with mrun. simpl. by rewrite overflow_closed, getBuf_queue.
Qed.

Lemma pop_closed p :
  SendQueue.closed (queue (final SendQueue.pop p)) = SendQueue.closed (queue p).
Proof.
  unfold SendQueue.pop. autorewrite with mrun. destruct (ring (queue p)); [by case_match|].
  by autorewrite with mrun.
Qed.

Lemma close_closed p : SendQueue.closed (queue (final SendQueue.close p)) = true.
Proof.
  unfold SendQueue.close. autorewrite with mrun. destruct (SendQueue.closed (queue p)) eqn:E; [done|].
  autorewrite with mrun. simpl.
  by rewrite release_all_queue.
Qed.

Lemma final_on_queue q m s :
  final (on_queue q m) s =
  match queue_heap s !! q with
  | None => s
  | Some qq => let p := final m (mkPipe (buffers s) qq None 0 false) in
               set_queues (<[q := queue p]> (queue_heap s)) (pool p) s
  end.
Proof.
  unfold on_queue, final. destruct (queue_heap s !! q) as [qq|]; [|done].
  by destruct (m _) as [[[] p] w].
Qed.

Lemma core_queue_soft q m s :
  (∀ p, SendQueue.closed (queue (final m p)) = SendQueue.closed (queue p)) →
  core_of (final (on_queue q m) s) = core_of s.
Proof.
  intros Hm. rewrite final_on_queue. destruct (queue_heap s !! q) as [qq|] eqn:E; [|done].
  unfold core_of; simpl. f_equal. rewrite fmap_insert, Hm; simpl.
  apply insert_id. by rewrite lookup_fmap, E.
Qed.

(** ** Subscribing and unsubscribing *)

(** [s] is a later point of the handler that started from [t]. *)
Definition ok (t : core) (d : list Subscription) (k kp : Z) (s : sfu) : Prop :=
  ext t (core_of s) ∧ Inv d k kp (core_of s).

Lemma ok_refl d k kp s : Inv d k kp (core_of s) → ok (core_of s) d k kp s.
Proof. by split. Qed.

Lemma ok_core t d k kp s s' : core_of s' = core_of s → ok t d k kp s → ok t d k kp s'.
Proof. unfold ok. by intros ->. Qed.

Lemma ok_Add t d k kp s c n : quiet c = true → ok t d k kp s → ok t d k kp (final (Add c n) s).
Proof. intros Hc. apply ok_core. by apply core_Add_quiet. Qed.

Lemma scheduleNegotiate_core s p : core_of (final (scheduleNegotiate p) s) = core_of s.
Proof.
  unfold scheduleNegotiate, upd_part. autorewrite with mrun.
  case_match; [done|]. case_match; [by apply core_Add_quiet|].
  autorewrite with mrun. by apply core_soft_part.
Qed.

Lemma final_sendSub typ p x s : final (sendSubscriptionEvent typ p x) s = s.
Proof. done. Qed.

Lemma final_sendPub typ p x s : final (sendPublicationEvent typ p x) s = s.
Proof. done. Qed.

#[export] Hint Rewrite final_sendSub final_sendPub : mrun.

(** [p] may hold a subscription to [x], unless it is closed. *)
Definition entitled (t : core) (p x : nat) : Prop :=
  ∃ P B, c_parts t !! p = Some P ∧ c_pubs t !! x = Some B ∧
    CanSubscribe (ps_perms P) = true ∧ bs_owner B ≠ ps_id P ∧ bs_room B = Some (ps_room P).

(** Between calls nothing dangles and everything is counted. *)
Abbreviation good s := (Inv [] 0 0 (core_of s)).

Section operations.
Context (env : Env).

(** The state change of [subscribe], when it goes through. *)
Definition subscribed (p x : nat) (s : sfu) : sfu :=
  let b := pub_at s x in
  let q := next s in
  let s1 := set_queues (<[q := newSendQueue (queueKind_of b) (subQueueCap s (queueKind_of b))]> (queue_heap s))
              (buffers s) (set_next (S q) s) in
  let i := (subSeq b + 1)%N in
  let s2 := set_pub_heap (alter (λ b, with_subSinks (subSinks b ++ [(i, q)]) i b) x) s1 in
  let s3 := set_part_heap (alter (λ P, with_subscriptions (<[pub_id b := mkSub x q i]> (subscriptions P)) P) p) s2 in
  final (Add subscriptionsMade 1) s3.

Lemma core_subscribed p x s P b :
  part_heap s !! p = Some P → pub_heap s !! x = Some b →
  core_of (subscribed p x s) =
  c_count 1 0 (c_hold p (<[pub_id b := mkSub x (next s) (subSeq b + 1)]> (subscriptions P))
    (c_attach x (next s) (subSinks b) (subSeq b) (core_of s))).
Proof.
  intros HP Hb. unfold subscribed. rewrite core_Add. unfold pub_at. rewrite Hb. simpl.
  f_equal. unfold core_of, c_hold, c_attach; simpl. f_equal.
  - by rewrite fmap_alter_same.
  - by rewrite (fmap_alter_set _ _ _ _ P).
  - by rewrite fmap_alter_same.
  - by rewrite (fmap_alter_set _ _ _ _ b).
  - by rewrite fmap_insert.
Qed.

Lemma subscribe_final p x s :
  let P := part_at s p in
  core_of (final (subscribe env p x) s) = core_of s ∨
  part_closed P = false ∧ subscriptions P !! pub_id (pub_at s x) = None ∧
  core_of (final (subscribe env p x) s) = core_of (subscribed p x s).
Proof.
  intros P. unfold subscribe, alloc, attachSink, upd_pub, upd_part.
  autorewrite with mrun. fold P. destruct (part_closed P); [by left|].
  destruct (subscriptions P !! _); [by left|].
  destruct (negb (NewTrackLocalStaticRTP_ok _ _)); [by left|].
  destruct (negb (AddTrack_ok _ _ _)); [by left|]. right. split_and!; [done..|].
  autorewrite with mrun. by rewrite scheduleNegotiate_core.
Qed.

Lemma subscribe_ok t d kp p x s :
  ok t d 0 kp s → entitled t p x → ok t d 0 kp (final (subscribe env p x) s).
Proof.
  intros [Hext HI] (P & B & HP & HB & Hsub & Hown & Hroom).
  destruct (subscribe_final p x s) as [E|(Hcl & Hnone & E)]; [by eapply ok_core|].
  rewrite <- (proj1 Hext) in HP. rewrite <- (proj1 (proj2 Hext)) in HB.
  destruct (core_part s p P HP) as (P' & HP' & EP & -> & Hm).
  destruct (core_pub s x B HB) as (b & Hb & Eb & -> & Hs).
  rewrite EP, Eb in *. rewrite (core_subscribed p x s P' b) in E by done.
  unfold ok. rewrite E. split.
  - etrans; [exact Hext|]. done.
  - replace 0 with (0 - 1 + 1) by lia. replace kp with (kp + 0) by lia. apply Inv_count.
    apply Inv_hold; [by apply (Inv_attach d 0 kp (core_of s) x)|done|done|].
    exists (pstat_of P'), (bstat_of b). by split_and!.
Qed.

(** Detaching a dangling subscription's sink and closing its queue. *)
Lemma drop_ok {A} t d k kp sub s (m : list event → SM A) :
  (∀ w s', core_of (final (m w) s') = core_of s') →
  ok t (sub :: d) k kp s →
  ok t d k kp (final (detachSink (publication sub) (sub_sink sub);;
                      (w ← on_queue (sub_queue sub) SendQueue.close; m w)) s).
Proof.
  intros Hm [Hext HI].
  destruct (wi_attached _ _ _ (in_wiring _ _ _ _ HI) sub) as (l & n & Hl & Hin & Hq); [right; left|].
  destruct (core_sinks s _ _ _ Hl) as (b & Hb & Eb & -> & ->).
  unfold detachSink, upd_pub. autorewrite with mrun. eapply ok_core; [apply Hm|].
  rewrite final_on_queue; simpl. unfold core_of in Hq; simpl in Hq. rewrite lookup_fmap in Hq.
  apply fmap_Some in Hq as (qq & Hqq & Hcl). rewrite Hqq. unfold ok.
  assert (∀ s', core_of s' = c_drop sub (subSinks b) (subSeq b) (core_of s) →
            ext t (core_of s') ∧ Inv d k kp (core_of s')) as Hgoal.
  { intros s' ->. split; [by etrans; [exact Hext|]|by apply Inv_drop]. }
  apply Hgoal. unfold core_of, c_drop; simpl. f_equal.
  - by rewrite fmap_alter_same.
  - by rewrite (fmap_alter_set _ _ _ _ b).
  - by rewrite fmap_insert, close_closed.
Qed.

Lemma unsubscribe_ok t d kp p key s :
  ok t d 0 kp s → ok t d 0 kp (final (unsubscribe p key) s).
Proof.
  intros [Hext HI]. unfold unsubscribe. autorewrite with mrun.
  destruct (part_heap s !! p) as [P|] eqn:HP; unfold part_at; rewrite HP; simpl; [|by split].
  destruct (subscriptions P !! key) as [sub|] eqn:Hsub; [|by split].
  unfold upd_part. autorewrite with mrun. eapply ok_core; [apply scheduleNegotiate_core|].
  assert (ok t (sub :: d) 1 kp (set_part_heap (alter (λ P, with_subscriptions (delete key (subscriptions P)) P) p) s)) as H1.
  { assert (∀ s', core_of s' = c_hold p (delete key (subscriptions P)) (core_of s) →
              ext t (core_of s') ∧ Inv (sub :: d) 1 kp (core_of s')) as Hgoal.
    { intros s' ->. split; [by etrans; [exact Hext|]|].
      apply (Inv_unhold d 0 kp); [done| |done]. unfold core_of; simpl. by rewrite lookup_fmap, HP. }
    apply Hgoal. unfold core_of, c_hold; simpl. f_equal.
    - by rewrite fmap_alter_same.
    - by rewrite (fmap_alter_set _ _ _ _ P). }
  apply (drop_ok t d 1 kp sub _ (λ _, mret tt)) in H1; [|done].
  autorewrite with mrun in H1 |- *. destruct H1 as [Hext1 HI1].
  unfold ok. rewrite core_Add. split; [done|].
  replace 0 with (1 + - 1) by lia. replace kp with (kp + 0) by lia. by apply Inv_count.
Qed.

Lemma maybeAutoSubscribe_ok t d kp p x s :
  ok t d 0 kp s →
  (CanSubscribe (perms (part_at s p)) = true → entitled t p x) →
  ok t d 0 kp (final (maybeAutoSubscribe env p x) s).
Proof.
  intros Hok He. unfold maybeAutoSubscribe. autorewrite with mrun.
  destruct (CanSubscribe (perms (part_at s p))); [|done]. simpl.
  repeat case_match; try done. apply subscribe_ok; auto.
Qed.

Hypothesis Henv : env_ok env.

Lemma range_in {A} (m : gmap string A) k a : (k, a) ∈ range env A m ↔ m !! k = Some a.
Proof. rewrite (Henv A m). apply elem_of_map_to_list. Qed.

Lemma othersOf_in s r pid sp :
  sp ∈ othersOf env s r pid ↔ ∃ pid', participants (room_at s r) !! pid' = Some sp ∧ pid' ≠ pid.
Proof.
  unfold othersOf. rewrite list_elem_of_fmap. split.
  - intros ([k a] & -> & [Hk Hin]%list_elem_of_filter). apply range_in in Hin. eauto.
  - intros (pid' & H & Hne). exists (pid', sp). split; [done|].
    apply list_elem_of_filter. split; [done|by apply range_in].
Qed.

Lemma listPublications_in s p x :
  x ∈ listPublications env s p ↔ ∃ k, publications (part_at s p) !! k = Some x.
Proof.
  unfold listPublications. rewrite list_elem_of_fmap. split.
  - intros ([k a] & -> & Hin). apply range_in in Hin. eauto.
  - intros (k & H). exists (k, x). split; [done|by apply range_in].
Qed.

(** A member of a room other than [pid], as the core knows it. *)
Lemma member_core d k kp s r pid sp :
  Inv d k kp (core_of s) → sp ∈ othersOf env s r pid →
  ∃ P, c_parts (core_of s) !! sp = Some P ∧ ps_room P = r ∧ ps_id P ≠ pid ∧ ps_closed P = false.
Proof.
  intros HI (pid' & Hin & Hne)%othersOf_in. unfold room_at in Hin.
  destruct (room_heap s !! r) as [R|] eqn:HR; [|done].
  destruct (so_members _ _ _ _ (in_stat _ _ _ _ HI) r R pid' sp) as (P & ? & <- & ? & ?); [done..|].
  eauto.
Qed.

Lemma owned_core d k kp s p x P :
  Inv d k kp (core_of s) → c_parts (core_of s) !! p = Some P → x ∈ listPublications env s p →
  ∃ B, c_pubs (core_of s) !! x = Some B ∧ ps_pubs P !! bs_id B = Some x ∧ bs_owner B = ps_id P ∧
       bs_room B = Some (ps_room P) ∧ bs_remote B = false.
Proof.
  intros HI HP (key & Hk)%listPublications_in.
  destruct (core_part s p P HP) as (P' & HP' & EP & -> & _). rewrite EP in Hk.
  destruct (so_owned _ _ _ _ (in_stat _ _ _ _ HI) p _ key x HP Hk) as (_ & B & ? & <- & ? & ? & ?).
  eauto 10.
Qed.

Lemma auto_entitled t s p x P B :
  ext t (core_of s) → c_parts t !! p = Some P → c_pubs t !! x = Some B →
  bs_owner B ≠ ps_id P → bs_room B = Some (ps_room P) →
  CanSubscribe (perms (part_at s p)) = true → entitled t p x.
Proof.
  intros Hext HP HB Ho Hr Hc. exists P, B. split_and!; try done.
  rewrite <- (proj1 Hext) in HP. destruct (core_part s p P HP) as (P' & _ & EP & -> & _).
  by rewrite EP in Hc.
Qed.

Lemma firePublicationEvent_final id a x s : final (firePublicationEvent id a x) s = s.
Proof. unfold firePublicationEvent, when. autorewrite with mrun. by repeat case_match. Qed.

Lemma firePublicationEnded_final id x s : final (firePublicationEnded id x) s = s.
Proof. unfold firePublicationEnded, when. autorewrite with mrun. by repeat case_match. Qed.

#[local] Hint Rewrite firePublicationEvent_final firePublicationEnded_final : mrun.

Lemma onPublicationAdded_ok d kp r x s B :
  Inv d 0 kp (core_of s) → c_pubs (core_of s) !! x = Some B → bs_room B = Some r →
  ok (core_of s) d 0 kp (final (onPublicationAdded env r x) s).
Proof.
  intros HI HB Hr. unfold onPublicationAdded. autorewrite with mrun.
  destruct (core_pub s x B HB) as (b & _ & Eb & -> & _). rewrite Eb.
  refine (preserves_for_each _ _ _ _ s (ok_refl _ _ _ _ HI)).
  intros sp Hsp s' Hok. autorewrite with mrun. apply maybeAutoSubscribe_ok; [done|].
  destruct (member_core _ _ _ _ _ _ _ HI Hsp) as (P & HP & <- & Hne & _).
  apply (auto_entitled _ _ _ _ P (bstat_of b) (proj1 Hok) HP HB); [|done]. intros E. by apply Hne.
Qed.

Lemma onPublicationRemoved_ok t d kp r x s :
  ok t d 0 kp s → ok t d 0 kp (final (onPublicationRemoved env r x) s).
Proof.
  intros Hok. unfold onPublicationRemoved. autorewrite with mrun.
  refine (preserves_for_each _ _ _ _ s Hok). intros sp _ s' Hok'.
  autorewrite with mrun. by apply unsubscribe_ok.
Qed.

Lemma bootstrap_ok d kp p s :
  Inv d 0 kp (core_of s) → is_Some (part_heap s !! p) →
  ok (core_of s) d 0 kp (final (bootstrap env p) s).
Proof.
  intros HI [P HP]. unfold bootstrap. autorewrite with mrun.
  assert (c_parts (core_of s) !! p = Some (pstat_of P)) as HPc.
  { unfold core_of; simpl. by rewrite lookup_fmap, HP. }
  unfold part_at. rewrite HP; simpl.
  refine (preserves_for_each _ _ _ _ s (ok_refl _ _ _ _ HI)).
  intros sp Hsp s' Hok. autorewrite with mrun.
  refine (preserves_for_each _ _ _ _ s' Hok). intros x Hx s2 Hok2.
  apply maybeAutoSubscribe_ok; [done|].
  destruct (member_core _ _ _ _ _ _ _ HI Hsp) as (P1 & HP1 & Hr & Hne & _).
  rewrite <- (proj1 (proj1 Hok)) in HP1.
  destruct (owned_core _ _ _ _ _ _ _ (proj2 Hok) HP1 Hx) as (B & HB & _ & Ho & Hro & _).
  rewrite (proj1 (proj2 (proj1 Hok))) in HB.
  apply (auto_entitled _ _ _ _ _ B (proj1 Hok2) HPc HB); simpl; congruence.
Qed.

(** ** The handlers *)

Lemma good_core s s' : core_of s' = core_of s → good s → good s'.
Proof. by intros ->. Qed.

Lemma good_ok s s' : ok (core_of s) [] 0 0 s' → good s'.
Proof. by intros [_ ?]. Qed.

Lemma findPublication_core s r key x :
  good s → findPublication env s r key = Some x →
  ∃ B, c_pubs (core_of s) !! x = Some B ∧ bs_id B = key ∧ bs_room B = Some r.
Proof.
  intros HI. unfold findPublication.
  destruct (list_find _ _) as [[i y]|] eqn:Hf; intros Hx; simplify_eq.
  - apply list_find_Some in Hf as (Hi & Hid & _). apply list_elem_of_lookup_2 in Hi.
    apply list_elem_of_bind in Hi as (sp & Hx & Hsp).
    assert (∃ pid, participants (room_at s r) !! pid = Some sp) as [pid Hpid].
    { unfold snapshot in Hsp. apply list_elem_of_fmap in Hsp as ([pid a] & -> & Hin).
      apply range_in in Hin. eauto. }
    unfold room_at in Hpid. destruct (room_heap s !! r) as [R|] eqn:HR; [|done].
    destruct (so_members _ _ _ _ (in_stat _ _ _ _ HI) r R pid sp) as (P & HP & _ & <- & _); [done..|].
    destruct (owned_core _ _ _ _ _ _ _ HI HP Hx) as (B & HB & _ & _ & Hro & _).
    exists B. split_and!; [done| |done].
    destruct (core_pub s x B HB) as (b & _ & Eb & -> & _). by rewrite Eb in Hid.
  - unfold room_at in Hx. destruct (room_heap s !! r) as [R|] eqn:HR; [|done].
    destruct (so_mirrors _ _ _ _ (in_stat _ _ _ _ HI) r R key x) as (B & ? & ? & ? & _); [done..|].
    eauto.
Qed.

Lemma Subscribe_good p key s :
  good s → is_Some (part_heap s !! p) → good (final (Subscribe env p key) s).
Proof.
  intros HI [P HP]. unfold Subscribe, upd_part. autorewrite with mrun.
  assert (part_at s p = P) as EP by (unfold part_at; by rewrite HP). rewrite EP.
  destruct (CanSubscribe (perms P)) eqn:Hc; simpl; autorewrite with mrun; [|done].
  destruct (findPublication env s (part_room P) key) as [x|] eqn:Hf; [|done].
  destruct (findPublication_core _ _ _ _ HI Hf) as (B & HB & Hid & Hr).
  destruct (core_pub s x B HB) as (b & _ & Eb & -> & _). rewrite Eb.
  case_decide as Ho; [done|]. autorewrite with mrun.
  set (s1 := set_part_heap _ s).
  assert (core_of s1 = core_of s) as Es by by apply core_soft_part.
  case_decide; autorewrite with mrun; [by eapply good_core|].
  apply (good_ok s). rewrite <- Es. apply subscribe_ok; [apply ok_refl; by rewrite Es|].
  rewrite Es. exists (pstat_of P), (bstat_of b). unfold core_of at 1; simpl.
  by rewrite lookup_fmap, HP.
Qed.

Lemma Unsubscribe_good p key s : good s → good (final (Unsubscribe p key) s).
Proof.
  intros HI. unfold Unsubscribe, upd_part. autorewrite with mrun.
  eapply good_ok, unsubscribe_ok, ok_refl. by rewrite core_soft_part.
Qed.

Lemma onSubscriptionFatal_good p key s : good s → good (final (onSubscriptionFatal p key) s).
Proof.
  intros HI. unfold onSubscriptionFatal. autorewrite with mrun. rewrite final_when.
  set (s1 := final (Add _ _) _).
  assert (good s1) as H1; [|by case_match; autorewrite with mrun].
  unfold s1. eapply good_core; [by apply core_Add_quiet|].
  by eapply good_ok, unsubscribe_ok, ok_refl.
Qed.

Lemma removePublication_good p key s : good s → good (final (removePublication env p key) s).
Proof.
  intros HI. unfold removePublication, upd_part. autorewrite with mrun.
  destruct (part_heap s !! p) as [P|] eqn:HP; unfold part_at; rewrite HP; simpl; [|done].
  destruct (publications P !! key) as [x|] eqn:Hx; [|done]. autorewrite with mrun.
  eapply good_ok, onPublicationRemoved_ok, ok_refl.
  assert (c_parts (core_of s) !! p = Some (pstat_of P)) as HPc.
  { unfold core_of; simpl. by rewrite lookup_fmap, HP. }
  set (s' := final _ _).
  replace (core_of s') with
    (c_struct (<[p := ps_with_pubs (delete key (publications P)) (pstat_of P)]> (c_parts (core_of s)))
      (c_subs (core_of s)) (c_pubs (core_of s)) (c_sinks (core_of s)) (c_objs (core_of s))
      (c_rooms (core_of s)) (c_next (core_of s)) (-1) 0 0 (core_of s)).
  { by eapply (Inv_unpublish _ _ _ _ HI p (pstat_of P) key x). }
  unfold s', core_of, c_struct; simpl. f_equal; try lia.
  - by rewrite (fmap_alter_set _ _ _ _ P).
  - by rewrite fmap_alter_same.
Qed.

(** [uuid] is new to participant [p]. *)
Definition new_pub_id (s : sfu) (p : nat) (uuid : string) : Prop :=
  publications (part_at s p) !! ("pub-" +:+ uuid) = None.

Lemma onTrack_mint_good p t uuid s :
  good s → is_Some (part_heap s !! p) → new_pub_id s p uuid →
  let s' := final (onTrack_mint p t uuid) s in
  good s' ∧
  ∀ x, value (onTrack_mint p t uuid) s = Some x →
    ∃ B, c_pubs (core_of s') !! x = Some B ∧ bs_room B = Some (part_room (part_at s' p)).
Proof.
  intros HI [P HP] Hnew. unfold onTrack_mint, alloc, upd_part.
  assert (part_at s p = P) as EP by (unfold part_at; by rewrite HP).
  unfold new_pub_id in Hnew. rewrite EP in Hnew.
  autorewrite with mrun. rewrite EP. destruct (Publish (perms P)) eqn:Hpb; simpl; autorewrite with mrun; [|done].
  rewrite final_when.
  set (s1 := final (Add publicationsMade 1) _).
  assert (c_parts (core_of s) !! p = Some (pstat_of P)) as HPc.
  { unfold core_of; simpl. by rewrite lookup_fmap, HP. }
  set (B := mkBs ("pub-" +:+ uuid) (part_id P) (Some (part_room P)) false).
  assert (core_of s1 = c_struct
    (<[p := ps_with_pubs (<[bs_id B := next s]> (publications P)) (pstat_of P)]> (c_parts (core_of s)))
    (c_subs (core_of s)) (<[next s := B]> (c_pubs (core_of s))) (<[next s := ([], 0%N)]> (c_sinks (core_of s)))
    (c_objs (core_of s)) (c_rooms (core_of s)) (S (next s)) 1 0 0 (core_of s)) as E1.
  { unfold s1, core_of, c_struct; simpl. f_equal; try lia.
    - rewrite (fmap_alter_set _ _ _ _ (with_pendingSources (delete (track_ID t) (pendingSources P)) P)).
      + by rewrite fmap_alter_same.
      + by rewrite lookup_alter_eq, HP.
    - by rewrite !fmap_alter_same.
    - by rewrite fmap_insert.
    - by rewrite fmap_insert. }
  assert (∀ s2, core_of s2 = core_of s1 → good s2 ∧
    ∀ x, Some (next s) = Some x → ∃ B0, c_pubs (core_of s2) !! x = Some B0 ∧
      bs_room B0 = Some (part_room (part_at s2 p))) as Hgoal.
  { intros s2 E2. rewrite E1 in E2. split.
    - rewrite E2. by apply (Inv_publish _ _ _ _ HI p (pstat_of P) B).
    - intros x [= <-].
      assert (c_parts (core_of s2) !! p = Some (ps_with_pubs (<[bs_id B := next s]> (publications P)) (pstat_of P))) as Hp2.
      { rewrite E2. simpl. by rewrite lookup_insert_eq. }
      destruct (core_part s2 p _ Hp2) as (P2 & _ & EP2 & Es & _).
      exists B. rewrite E2; simpl. rewrite lookup_insert_eq, EP2. split; [done|].
      unfold pstat_of, ps_with_pubs in Es. simpl in *. congruence. }
  case_match; apply Hgoal; [by apply core_Add_quiet|done].
Qed.

Lemma onTrack_good p t uuid s :
  good s → is_Some (part_heap s !! p) → new_pub_id s p uuid → good (final (onTrack env p t uuid) s).
Proof.
  intros HI HP Hnew. unfold onTrack. autorewrite with mrun.
  destruct (onTrack_mint_good p t uuid s HI HP Hnew) as [H1 H2].
  destruct (value (onTrack_mint p t uuid) s) as [x|]; [|done]. autorewrite with mrun.
  destruct (H2 x eq_refl) as (B & HB & Hr).
  by eapply good_ok, onPublicationAdded_ok.
Qed.

Lemma SetMute_good p key m s : good s → good (final (SetMute env p key m) s).
Proof.
  intros HI. unfold SetMute, upd_pub, onPublicationMuted. autorewrite with mrun.
  destruct (publications _ !! _); [|done]. autorewrite with mrun.
  refine (preserves_for_each (λ s, good s) _ _ _ _ _); [intros sp _ s' Hs'; by autorewrite with mrun|].
  by rewrite core_soft_pub.
Qed.

Lemma onConnected_good p s :
  good s → is_Some (part_heap s !! p) → good (final (onConnected env p) s).
Proof.
  intros HI [P HP]. unfold onConnected, upd_part. autorewrite with mrun. rewrite final_when.
  assert (core_of (set_part_heap (alter (with_bootstrapped true) p) s) = core_of s) as E
    by by apply core_soft_part.
  case_match; [|by rewrite E].
  eapply good_ok, bootstrap_ok; [by rewrite E|]. simpl. rewrite lookup_alter_eq, HP. by eexists.
Qed.

Lemma JoinWithPermissions_good r pid pm pc_ok s :
  good s → is_Some (room_heap s !! r) → good (final (JoinWithPermissions r pid pm pc_ok) s).
Proof.
  intros HI [R HR]. unfold JoinWithPermissions, newParticipant, alloc, upd_part, upd_room.
  destruct pc_ok; autorewrite with mrun; [|done].
  set (s' := final _ _).
  replace (core_of s') with
    (c_struct (<[next s := mkPs pid r pm ∅ false]> (c_parts (core_of s)))
      (<[next s := ∅]> (c_subs (core_of s))) (c_pubs (core_of s)) (c_sinks (core_of s))
      (<[r := with_participants (<[pid := next s]> (participants R)) R]> (c_objs (core_of s)))
      (c_rooms (core_of s)) (S (next s)) 0 1 0 (core_of s)); [by apply (Inv_join _ _ _ _ HI)|].
  assert (∀ f, alter f (next s) (<[next s := mkPart pid r FullPermissions ∅ ∅ ∅ ∅ false false false]> (part_heap s))
    = <[next s := f (mkPart pid r FullPermissions ∅ ∅ ∅ ∅ false false false)]> (part_heap s)) as Ealt.
  { intros f. by rewrite alter_insert_eq. }
  unfold s', core_of, c_struct; simpl. rewrite Ealt, !fmap_insert.
  f_equal; try lia. by rewrite (alter_lookup_insert _ _ _ R).
Qed.

Lemma drop_all_ok t d k kp (l : list (string * Subscription)) s :
  ok t (l.*2 ++ d) k kp s →
  ok t d k kp (final (for_each l (λ e,
    detachSink (publication e.2) (sub_sink e.2);;
    on_queue (sub_queue e.2) SendQueue.close;;
    mret tt)) s).
Proof.
  revert s. induction l as [|[key sub] l IH]; intros s Hok; [done|].
  cbn [for_each]. rewrite final_bind. apply IH.
  by apply (drop_ok t (l.*2 ++ d) k kp sub s (λ _, mret tt)).
Qed.

(** Closing an open participant that is in no room: one connection is left to
    count. *)
Lemma part_close_inv p P s :
  good s → part_heap s !! p = Some P → part_closed P = false →
  (∀ r R pid, room_heap s !! r = Some R → participants R !! pid ≠ Some p) →
  Inv [] 0 1 (core_of (final (part_close env p) s)).
Proof.
  intros HI HP Hcl Hout. unfold part_close, upd_part.
  assert (part_at s p = P) as EP by (unfold part_at; by rewrite HP).
  autorewrite with mrun. rewrite EP, Hcl. autorewrite with mrun. rewrite final_when.
  set (s1 := set_part_heap _ s). set (s2 := final (for_each _ _) s1).
  assert (core_of s1 = c_close p (pstat_of P) (core_of s)) as E1.
  { unfold s1, core_of, c_close; simpl. f_equal; by rewrite (fmap_alter_set _ _ _ _ P). }
  assert (ok (core_of s1) [] (Z.of_nat (size (subscriptions P))) 1 s2) as [_ H2].
  { apply drop_all_ok, ok_refl. rewrite E1.
    apply (Inv_close [] 0 0 (core_of s) p (pstat_of P) (subscriptions P));
      [done|unfold core_of; simpl; by rewrite lookup_fmap, HP|done|
       unfold core_of; simpl; by rewrite lookup_fmap, HP|apply Henv|done]. }
  destruct (0 <? _) eqn:Hsz; zbool.
  - rewrite core_Add. replace 0 with (Z.of_nat (size (subscriptions P)) + - Z.of_nat (size (subscriptions P))) at 1 by lia.
    replace 1 with (1 + 0) at 1 by lia. by apply Inv_count.
  - by replace 0 with (Z.of_nat (size (subscriptions P))) at 1 by lia.
Qed.

Lemma removeRoomIfEmpty_good id s : good s → good (final (removeRoomIfEmpty id) s).
Proof.
  intros HI. unfold removeRoomIfEmpty. autorewrite with mrun.
  destruct (rooms s !! id) as [r|] eqn:Hr; [|done]. rewrite final_when. case_match; [|done].
  autorewrite with mrun. set (s' := final _ _).
  replace (core_of s') with
    (c_struct (c_parts (core_of s)) (c_subs (core_of s)) (c_pubs (core_of s)) (c_sinks (core_of s))
      (c_objs (core_of s)) (delete id (c_rooms (core_of s))) (c_next (core_of s)) 0 0 (-1) (core_of s));
    [by apply (Inv_droproom _ _ _ _ HI id r)|].
  unfold s', core_of, c_struct; simpl. f_equal; lia.
Qed.

Lemma core_upd_room s r R f :
  room_heap s !! r = Some R →
  core_of (set_room_heap (alter f r) s) =
  c_struct (c_parts (core_of s)) (c_subs (core_of s)) (c_pubs (core_of s)) (c_sinks (core_of s))
    (<[r := f R]> (c_objs (core_of s))) (c_rooms (core_of s)) (c_next (core_of s)) 0 0 0 (core_of s).
Proof.
  intros HR. unfold core_of, c_struct; simpl. f_equal; try lia. by rewrite (alter_lookup_insert _ _ _ R).
Qed.

Lemma room_Leave_good r pid s : good s → good (final (room_Leave env r pid) s).
Proof.
  intros HI. unfold room_Leave, upd_room, room_participant. autorewrite with mrun.
  destruct (room_heap s !! r) as [R|] eqn:HR; unfold room_at; rewrite HR; simpl; [|done].
  destruct (participants R !! pid) as [p|] eqn:Hp; [|done]. autorewrite with mrun.
  apply removeRoomIfEmpty_good. rewrite core_Add.
  set (s1 := set_room_heap _ s). set (s2 := final (for_each _ _) s1).
  destruct (so_members _ _ _ _ (in_stat _ _ _ _ HI) r R pid p HR Hp) as (P & HP & Hid & Hro & Hcl).
  assert (good s1) as H1.
  { unfold s1. rewrite (core_upd_room _ _ R) by done.
    apply (Inv_room _ _ _ _ HI r R); simpl; try done; [|lia].
    intros pid' p' [_ ?]%lookup_delete_Some. done. }
  assert (ok (core_of s1) [] 0 0 s2) as [Hext H2].
  { refine (preserves_for_each _ _ _ _ s1 (ok_refl _ _ _ _ H1)).
    intros x _ s' Hok. by apply onPublicationRemoved_ok. }
  destruct Hext as (E1 & _ & E3 & _).
  assert (c_parts (core_of s2) !! p = Some P) as HP2 by by rewrite E1.
  destruct (core_part s2 p P HP2) as (P2 & HP2' & _ & -> & _).
  replace 0 with (1 + - 1) by lia. replace 0 with (0 + 0) at 1 by lia. apply Inv_count.
  apply (part_close_inv p P2); [done|done|done|].
  intros r' R' pid' HR' Hin. change (c_objs (core_of s2) !! r' = Some R') in HR'. rewrite E3 in HR'.
  destruct (so_members _ _ _ _ (in_stat _ _ _ _ H1) r' R' pid' p HR' Hin) as (P' & HP' & <- & <- & _).
  rewrite <- E1, HP2 in HP'. injection HP' as <-. rewrite Hid, Hro in *.
  unfold s1 in HR'; simpl in HR'. rewrite lookup_alter_eq, HR in HR'. injection HR' as <-.
  simpl in Hin. by rewrite lookup_delete_eq in Hin.
Qed.

Lemma getOrCreateRoom_good id s :
  good s →
  good (final (getOrCreateRoom id) s) ∧
  is_Some (room_heap (final (getOrCreateRoom id) s) !! value (getOrCreateRoom id) s).
Proof.
  intros HI. unfold getOrCreateRoom, alloc. autorewrite with mrun.
  destruct (rooms s !! id) as [r|] eqn:Hr; autorewrite with mrun.
  - split; [done|]. destruct (so_rooms _ _ _ _ (in_stat _ _ _ _ HI) id r Hr) as (R & HR & _).
    by exists R.
  - split; [|simpl; rewrite lookup_insert_eq; by eexists]. set (s' := final _ _).
    replace (core_of s') with
      (c_struct (c_parts (core_of s)) (c_subs (core_of s)) (c_pubs (core_of s)) (c_sinks (core_of s))
        (<[next s := newRoom id]> (c_objs (core_of s))) (<[id := next s]> (c_rooms (core_of s)))
        (S (next s)) 0 0 1 (core_of s)); [by apply (Inv_newroom _ _ _ _ HI)|].
    unfold s', core_of, c_struct; simpl. f_equal; lia.
Qed.

Lemma addRemotePublication_good r info sink uuid s :
  good s → is_Some (room_heap s !! r) → good (final (addRemotePublication env r info sink uuid) s).
Proof.
  intros HI [R HR]. unfold addRemotePublication, alloc, upd_room. autorewrite with mrun.
  unfold room_at. rewrite HR. simpl.
  destruct (remotePubs R !! info_PublicationID info) as [x|] eqn:Hx; [done|]. autorewrite with mrun.
  set (s1 := final (Add publicationsMade 1) _).
  set (B := mkBs (info_PublicationID info) (info_ParticipantID info) (Some r) true).
  assert (core_of s1 = c_struct (c_parts (core_of s)) (c_subs (core_of s))
     (<[next s := B]> (c_pubs (core_of s))) (<[next s := ([], 0%N)]> (c_sinks (core_of s)))
     (<[r := with_remotePubs (<[bs_id B := next s]> (remotePubs R)) R]> (c_objs (core_of s)))
     (c_rooms (core_of s)) (S (next s)) 1 0 0 (core_of s)) as E1.
  { unfold s1, core_of, c_struct; simpl. rewrite !fmap_insert. f_equal; try lia.
    by rewrite (alter_lookup_insert _ _ _ R). }
  eapply good_ok, (onPublicationAdded_ok _ _ _ _ _ B); [|rewrite E1; simpl; by rewrite lookup_insert_eq|done].
  rewrite E1. by apply (Inv_mirror _ _ _ _ HI).
Qed.

Lemma removeRemotePublication_good r key s : good s → good (final (removeRemotePublication env r key) s).
Proof.
  intros HI. unfold removeRemotePublication, upd_room. autorewrite with mrun.
  destruct (room_heap s !! r) as [R|] eqn:HR; unfold room_at; rewrite HR; simpl; [|done].
  destruct (remotePubs R !! key) as [x|] eqn:Hx; [|done]. autorewrite with mrun.
  eapply good_ok, onPublicationRemoved_ok, ok_refl. set (s' := final _ _).
  replace (core_of s') with
    (c_struct (c_parts (core_of s)) (c_subs (core_of s)) (c_pubs (core_of s)) (c_sinks (core_of s))
      (<[r := with_remotePubs (delete key (remotePubs R)) R]> (c_objs (core_of s)))
      (c_rooms (core_of s)) (c_next (core_of s)) (-1) 0 0 (core_of s)).
  { apply (Inv_room _ _ _ _ HI r R); simpl; try done.
    - intros k x' [_ ?]%lookup_delete_Some. done.
    - rewrite map_size_delete_Some by done. pose proof (size_lookup_pos _ _ _ Hx). lia. }
  unfold s', core_of, c_struct; simpl. f_equal; try lia. by rewrite (alter_lookup_insert _ _ _ R).
Qed.

Lemma AddRemotePublication_good info sink uuid s :
  good s → good (final (AddRemotePublication env info sink uuid) s).
Proof.
  intros HI. unfold AddRemotePublication. autorewrite with mrun.
  destruct (getOrCreateRoom_good (info_RoomID info) s HI).
  by apply addRemotePublication_good.
Qed.

(** *** Operations that leave the core alone *)

Lemma requestKeyframe_from_core x last now s :
  core_of (final (requestKeyframe_from x last now) s) = core_of s.
Proof.
  unfold requestKeyframe_from, requestKeyframe_swap, upd_pub. autorewrite with mrun.
  case_match; [done|]. case_match; [done|]. autorewrite with mrun. case_match; [|done].
  autorewrite with mrun. set (m := if remote _ then _ else _).
  assert (∀ s', final m s' = s') as Hm.
  { intros s'. unfold m. by repeat case_match. }
  rewrite Hm. by apply core_soft_pub.
Qed.

Lemma writeRTP_core x pkt s : core_of (final (writeRTP x pkt) s) = core_of s.
Proof.
  unfold writeRTP. autorewrite with mrun.
  refine (preserves_for_each (λ s', core_of s' = core_of s) _ _ _ s eq_refl).
  intros [i q] _ s1 H1. autorewrite with mrun.
  refine (preserves_for_each (λ s', core_of s' = core_of s) _ _ _ _ _).
  - intros e _ s2 H2. unfold onDrop, addSubQueueDrops.
    destruct e; try done. by destruct (queueKind_of _); rewrite core_Add_quiet.
  - rewrite core_queue_soft; [done|]. apply push_closed.
Qed.

Lemma fanRemote_final x pkt s : final (fanRemote x pkt) s = s.
Proof.
  unfold fanRemote. autorewrite with mrun.
  refine (preserves_for_each (λ s', s' = s) _ _ _ s eq_refl). by intros e _ s' ->.
Qed.

Lemma DeclareSource_core p a b s : core_of (final (DeclareSource p a b) s) = core_of s.
Proof. unfold DeclareSource, upd_part. case_decide; [done|]. autorewrite with mrun. by apply core_soft_part. Qed.

Lemma AttachForwarder_core id key fn s : core_of (final (AttachForwarder env id key fn) s) = core_of s.
Proof.
  unfold AttachForwarder, addRemoteSink, upd_pub. autorewrite with mrun.
  repeat case_match; autorewrite with mrun; try done. by apply core_soft_pub.
Qed.

Lemma removeRemoteSink_core x i s : core_of (final (removeRemoteSink x i) s) = core_of s.
Proof. unfold removeRemoteSink, upd_pub. autorewrite with mrun. by apply core_soft_pub. Qed.

Lemma ingest_turn_good p x r s : good s → good (final (ingest_turn env p x r) s).
Proof.
  intros HI. unfold ingest_turn. destruct r as [pkt|]; autorewrite with mrun.
  - by rewrite fanRemote_final, writeRTP_core.
  - by apply removePublication_good.
Qed.
End operations.

(** ** The step relation *)

(** A step is one call into the SFU: from the signaling layer, from the WebRTC
    library's callbacks, from the media bridge, or from a goroutine the SFU
    started.  The parts of a handler that other goroutines may overtake are
    steps of their own: [OpMint] and [OpAnnounce] are the two halves of
    [onTrack], [OpAutoSubscribe] and [OpDrop] single turns of the loops of
    [onPublicationAdded] and [onPublicationRemoved] on a stale snapshot. *)
Inductive op :=
| OpRoom (roomID : string)
| OpJoin (r : nat) (pid : string) (pm : Permissions) (pc_ok : bool)
| OpLeave (roomID pid : string)
| OpRoomLeave (r : nat) (pid : string)
| OpDeclareSource (p : nat) (trackID src : string)
| OpTrack (p : nat) (t : TrackRemote) (uuid : string)
| OpMint (p : nat) (t : TrackRemote) (uuid : string)
| OpAnnounce (r x : nat)
| OpAutoSubscribe (p x : nat)
| OpDrop (p : nat) (pubID : string)
| OpIngest (p x : nat) (read : option packet)
| OpUnpublish (p : nat) (pubID : string)
| OpSetMute (p : nat) (pubID : string) (m : bool)
| OpSubscribe (p : nat) (pubID : string)
| OpUnsubscribe (p : nat) (pubID : string)
| OpFatal (p : nat) (pubID : string)
| OpResync (x : nat) (now : Z)
| OpKeyframe (x : nat) (last now : Z)
| OpConnected (p : nat)
| OpTimerFired (p : nat)
| OpPop (q : nat)
| OpAddRemote (info : RemotePublicationInfo) (sink : option nat) (uuid : string)
| OpHandleClose (r x : nat)
| OpAttachForwarder (roomID pubID : string) (fn : nat)
| OpDetachForwarder (x : nat) (i : N)
| OpHooks.

Definition perform (env : Env) (o : op) : SM unit :=
  match o with
  | OpRoom id => getOrCreateRoom id;; mret tt
  | OpJoin r pid pm ok => JoinWithPermissions r pid pm ok;; mret tt
  | OpLeave id pid => Leave env id pid
  | OpRoomLeave r pid => room_Leave env r pid
  | OpDeclareSource p t src => DeclareSource p t src
  | OpTrack p t uuid => onTrack env p t uuid
  | OpMint p t uuid => onTrack_mint p t uuid;; mret tt
  | OpAnnounce r x => onPublicationAdded env r x
  | OpAutoSubscribe p x => maybeAutoSubscribe env p x
  | OpDrop p k => unsubscribe p k
  | OpIngest p x r => ingest_turn env p x r
  | OpUnpublish p k => removePublication env p k
  | OpSetMute p k m => SetMute env p k m;; mret tt
  | OpSubscribe p k => Subscribe env p k;; mret tt
  | OpUnsubscribe p k => Unsubscribe p k
  | OpFatal p k => onSubscriptionFatal p k
  | OpResync x now => onResync x now
  | OpKeyframe x last now => requestKeyframe_from x last now
  | OpConnected p => onConnected env p
  | OpTimerFired p => upd_part p (with_timer false)
  | OpPop q => on_queue q (SendQueue.pop;; mret tt);; mret tt
  | OpAddRemote info sink uuid => AddRemotePublication env info sink uuid;; mret tt
  | OpHandleClose r x => handle_Close env r x
  | OpAttachForwarder id k fn => AttachForwarder env id k fn;; mret tt
  | OpDetachForwarder x i => removeRemoteSink x i
  | OpHooks => SetPublicationEventHook;; SetSubscriptionFailedHook;; SetMediaPublicationEndedHook
  end.

(** What a caller needs: pointers it was given, a uuid that is new, and for the
    loop turns a participant and a publication of another one in its room. *)
Definition enabled (s : sfu) (o : op) : Prop :=
  match o with
  | OpJoin r _ _ _ => is_Some (room_heap s !! r)
  | OpTrack p _ uuid | OpMint p _ uuid => is_Some (part_heap s !! p) ∧ new_pub_id s p uuid
  | OpAnnounce r x => is_Some (pub_heap s !! x) ∧ pub_room (pub_at s x) = Some r
  | OpAutoSubscribe p x =>
      is_Some (part_heap s !! p) ∧ is_Some (pub_heap s !! x) ∧
      pub_room (pub_at s x) = Some (part_room (part_at s p)) ∧
      participantID (pub_at s x) ≠ part_id (part_at s p)
  | OpSubscribe p _ | OpConnected p => is_Some (part_heap s !! p)
  | _ => True
  end.

#[export] Instance enabled_dec s o : Decision (enabled s o).
Proof. destruct o; unfold enabled, new_pub_id; apply _. Defined.

Definition init (audio video : Z) (pl : bufPool) : sfu :=
  mkSFU ∅ ∅ ∅ ∅ ∅ pl 0 (λ _, 0) audio video false false false.

Inductive reachable : sfu → Prop :=
| reach_init audio video pl : reachable (init audio video pl)
| reach_step s env o :
    reachable s → env_ok env → enabled s o → reachable (final (perform env o) s).

Lemma init_good audio video pl : good (init audio video pl).
Proof.
  split; [split; done| | | | |split; done].
  - intros p k sub (m & Hm & _). done.
  - split_and!; [|constructor|by intros ??? ?%elem_of_nil]. intros p k p' k' sub (m & Hm & _). done.
  - split; try done.
    + by intros sub [(p & k & m & Hm & _)|?%elem_of_nil].
    + by intros sub sub' [(p & k & m & Hm & _)|?%elem_of_nil].
  - by intros n _.
Qed.

(** Every operation preserves the invariant. *)
Lemma perform_good env o s : env_ok env → good s → enabled s o → good (final (perform env o) s).
Proof.
  intros Henv HI Hen. destruct o; simpl in *; autorewrite with mrun.
  - by apply getOrCreateRoom_good.
  - by apply JoinWithPermissions_good.
  - unfold Leave. autorewrite with mrun. case_match; [by apply room_Leave_good|done].
  - by apply room_Leave_good.
  - by rewrite DeclareSource_core.
  - apply onTrack_good; tauto.
  - apply (onTrack_mint_good p t uuid); tauto.
  - destruct Hen as [[b Hb] Hr]. eapply good_ok, (onPublicationAdded_ok _ Henv _ _ _ _ _ (bstat_of b)); [done| |].
    + unfold core_of; simpl. by rewrite lookup_fmap, Hb.
    + unfold pub_at in Hr. by rewrite Hb in Hr.
  - destruct Hen as ([P HP] & [b Hb] & Hr & Ho). unfold pub_at, part_at in *. rewrite HP, Hb in *.
    eapply good_ok, maybeAutoSubscribe_ok; [by apply ok_refl|].
    apply (auto_entitled _ _ _ _ (pstat_of P) (bstat_of b)); try done;
      unfold core_of; simpl; by rewrite lookup_fmap, ?HP, ?Hb.
  - by eapply good_ok, unsubscribe_ok, ok_refl.
  - by apply ingest_turn_good.
  - by apply removePublication_good.
  - by apply SetMute_good.
  - by apply Subscribe_good.
  - by apply Unsubscribe_good.
  - by apply onSubscriptionFatal_good.
  - unfold onResync, requestKeyframe. autorewrite with mrun.
    by rewrite requestKeyframe_from_core, core_Add_quiet.
  - by rewrite requestKeyframe_from_core.
  - by apply onConnected_good.
  - unfold upd_part. autorewrite with mrun. by rewrite core_soft_part.
  - rewrite core_queue_soft; [done|]. intros q'. autorewrite with mrun. apply pop_closed.
  - by apply AddRemotePublication_good.
  - unfold handle_Close. autorewrite with mrun. by apply removeRemotePublication_good.
  - by rewrite AttachForwarder_core.
  - by rewrite removeRemoteSink_core.
  - done.
Qed.

Lemma reachable_good s : reachable s → good s.
Proof.
  induction 1 as [|s env o _ IH Henv Hen]; [apply init_good|by apply perform_good].
Qed.
