(* ===== verification/SfuSafety.v ===== *)
(** * What the SFU guarantees

    The theorems about every reachable state of the media plane: who is
    authorised, where a packet goes, what the counters mean, what leaving
    severs, how often a publisher is asked for a keyframe; and two interleavings
    the code does not exclude. *)

From S2P Require Import Prelude SendQueue Sfu SfuInvariant SfuSteps.

(** ** Authorization *)

Definition holds (s : sfu) (p : nat) (k : string) (sub : Subscription) : Prop :=
  ∃ P, part_heap s !! p = Some P ∧ subscriptions P !! k = Some sub.

Lemma holds_live s p k sub : holds s p k sub ↔ live (c_subs (core_of s)) p k sub.
Proof.
  unfold holds, live, core_of; simpl. rewrite lookup_fmap. split.
  - intros (P & -> & H). eauto.
  - intros (m & (P & HP & ->)%fmap_Some & H). eauto.
Qed.

(** [P] is entitled to receive [b]. *)
Definition authorized (P : Participant) (b : Publication) : Prop :=
  CanSubscribe (perms P) = true ∧ part_closed P = false ∧
  pub_room b = Some (part_room P) ∧ participantID b ≠ part_id P.

Lemma good_authorized s p k sub :
  good s → holds s p k sub →
  ∃ P b, part_heap s !! p = Some P ∧ pub_heap s !! publication sub = Some b ∧
         pub_id b = k ∧ authorized P b.
Proof.
  intros HI Hl%holds_live. destruct (in_subs _ _ _ _ HI _ _ _ Hl) as (P & B & HP & HB & Hid & Hc & Hcl & Ho & Hr).
  destruct (core_part _ _ _ HP) as (P' & HP' & _ & -> & _).
  destruct (core_pub _ _ _ HB) as (b & Hb & _ & -> & _).
  exists P', b. by split_and!.
Qed.

(** C6: authorization in the media plane.  In every reachable state, whatever
    the interleaving of the calls: a participant that owns a publication has
    the PUBLISH permission, and the publication carries its id and its room; a
    participant that holds a subscription has the SUBSCRIBE permission, is not
    closed, and the publication belongs to another participant and to the same
    room. *)
Theorem sfu_authorization (s : sfu) :
  reachable s →
  (∀ p P k x, part_heap s !! p = Some P → publications P !! k = Some x →
     Publish (perms P) = true ∧
     ∃ b, pub_heap s !! x = Some b ∧ pub_id b = k ∧ participantID b = part_id P ∧
          pub_room b = Some (part_room P)) ∧
  (∀ p k sub, holds s p k sub →
     ∃ P b, part_heap s !! p = Some P ∧ pub_heap s !! publication sub = Some b ∧
            pub_id b = k ∧ authorized P b).
Proof.
  intros HI%reachable_good. split; [|intros; by apply good_authorized].
  intros p P k x HP Hx.
  destruct (so_owned _ _ _ _ (in_stat _ _ _ _ HI) p (pstat_of P) k x) as (Hpb & B & HB & ? & ? & ? & _);
    [unfold core_of; simpl; by rewrite lookup_fmap, HP|done|].
  split; [done|]. destruct (core_pub _ _ _ HB) as (b & Hb & _ & -> & _). eauto.
Qed.

(** ** Fan-out *)

Definition fan_turn (k : queueKind) (pkt : packet) (e : N * nat) : SM unit :=
  w ← on_queue e.2 (SendQueue.push pkt); for_each w (onDrop k).

Lemma onDrop_queues k w s : queue_heap (final (for_each w (onDrop k)) s) = queue_heap s.
Proof.
  refine (preserves_for_each (λ s', queue_heap s' = queue_heap s) _ _ _ s eq_refl).
  intros e _ s' H. unfold onDrop, addSubQueueDrops. by destruct e, k.
Qed.

Lemma fan_turn_queue k pkt e s q :
  queue_heap (final (fan_turn k pkt e) s) !! q =
  if decide (e.2 = q) then
    (λ qq, queue (final (SendQueue.push pkt) (mkPipe (buffers s) qq None 0 false))) <$> queue_heap s !! q
  else queue_heap s !! q.
Proof.
  unfold fan_turn. autorewrite with mrun. rewrite onDrop_queues, final_on_queue.
  case_decide as Hq; [subst q|]; destruct (queue_heap s !! e.2) as [qq|] eqn:E; simpl; try done.
  - by rewrite lookup_insert_eq.
  - by rewrite lookup_insert_ne.
Qed.

Lemma fan_other k pkt l s q :
  q ∉ l.*2 → queue_heap (final (for_each l (fan_turn k pkt)) s) !! q = queue_heap s !! q.
Proof.
  intros Hq. refine (preserves_for_each (λ s', queue_heap s' !! q = queue_heap s !! q) _ _ _ s eq_refl).
  intros e He s' H. rewrite fan_turn_queue, decide_False; [done|].
  intros <-. apply Hq. by apply list_elem_of_fmap_2.
Qed.

Lemma final_writeRTP x pkt s :
  final (writeRTP x pkt) s =
  final (for_each (subSinks (pub_at s x)) (fan_turn (queueKind_of (pub_at s x)) pkt)) s.
Proof. unfold writeRTP. by autorewrite with mrun. Qed.

Lemma sink_holder s x q :
  good s → q ∈ (subSinks (pub_at s x)).*2 →
  ∃ p k i, holds s p k (mkSub x q i).
Proof.
  intros HI ([i q'] & -> & Hin)%list_elem_of_fmap. unfold pub_at in Hin.
  destruct (pub_heap s !! x) as [b|] eqn:Hb; [|by apply elem_of_nil in Hin]. simpl in Hin.
  assert (c_sinks (core_of s) !! x = Some (subSinks b, subSeq b)) as Hs.
  { unfold core_of; simpl. by rewrite lookup_fmap, Hb. }
  destruct (wi_sinks _ _ _ (in_wiring _ _ _ _ HI) _ _ _ _ _ Hs Hin) as [[(p & k & Hl)|?%elem_of_nil] _]; [|done].
  exists p, k, i. by apply holds_live.
Qed.

(** C1: the room is an isolation boundary for media.  If forwarding a packet of
    publication [x] changes a send queue at all, the queue is that of a live
    subscription to [x], held by one participant, which is entitled to it: it
    may subscribe, it is not closed, it is in the publication's room and it is
    not the publisher. *)
Theorem media_isolation (s : sfu) (x q : nat) (pkt : packet) :
  reachable s →
  queue_heap (final (writeRTP x pkt) s) !! q ≠ queue_heap s !! q →
  ∃ p P b i, holds s p (pub_id b) (mkSub x q i) ∧ part_heap s !! p = Some P ∧
             pub_heap s !! x = Some b ∧ authorized P b ∧
             ∀ p' k' sub', holds s p' k' sub' → sub_queue sub' = q → p' = p.
Proof.
  intros HI%reachable_good Hne.
  destruct (decide (q ∈ (subSinks (pub_at s x)).*2)) as [Hin|Hout];
    [|by rewrite final_writeRTP, fan_other in Hne].
  destruct (sink_holder s x q HI Hin) as (p & k & i & Hh).
  destruct (good_authorized s p k _ HI Hh) as (P & b & HP & Hb & <- & Ha).
  exists p, P, b, i. split_and!; try done. intros p' k' sub' Hh' Hq.
  apply holds_live in Hh, Hh'.
  rewrite (wi_queues _ _ _ (in_wiring _ _ _ _ HI) sub' (mkSub x q i)) in Hh'; [|left; eauto..|done].
  by destruct (proj1 (in_ledger _ _ _ _ HI) _ _ _ _ _ Hh Hh').
Qed.

Lemma sink_queues_NoDup s x : good s → NoDup (subSinks (pub_at s x)).*2.
Proof.
  intros HI. unfold pub_at. destruct (pub_heap s !! x) as [b|] eqn:Hb; [|constructor]. simpl.
  assert (c_sinks (core_of s) !! x = Some (subSinks b, subSeq b)) as Hs.
  { unfold core_of; simpl. by rewrite lookup_fmap, Hb. }
  pose proof (in_wiring _ _ _ _ HI) as [W1 W2 W3 W4].
  apply NoDup_fmap_2_strong.
  - intros [i q] [i' q'] Hi Hi' E; simpl in E; subst q'.
    destruct (W2 _ _ _ _ _ Hs Hi) as [H1 _], (W2 _ _ _ _ _ Hs Hi') as [H2 _].
    by specialize (W4 _ _ H1 H2 eq_refl) as [= ->].
  - apply (NoDup_fmap_1 fst). by eapply W3.
Qed.


(** ** Accounting *)

(** C21: the cumulative counters account for the objects.  In every reachable
    state, subscriptions made minus removed is the number of subscriptions held
    by all participant objects (those of closed participants included, which
    hold none), publications made minus removed is the number of publications
    owned by participants plus mirrored in rooms, connections made minus closed
    is the number of participants not closed, rooms created minus closed is the
    number of rooms the SFU knows. *)
Theorem sfu_accounting (s : sfu) :
  reachable s →
  counters s subscriptionsMade - counters s subscriptionsRemoved
    = msum (λ P, Z.of_nat (size (subscriptions P))) (part_heap s) ∧
  counters s publicationsMade - counters s publicationsRemoved
    = msum (λ P, Z.of_nat (size (publications P))) (part_heap s)
      + msum (λ R, Z.of_nat (size (remotePubs R))) (room_heap s) ∧
  counters s peerConnectionsMade - counters s peerConnectionsClose
    = msum (λ P, if part_closed P then 0 else 1) (part_heap s) ∧
  counters s roomsCreated - counters s roomsClosed = Z.of_nat (size (rooms s)).
Proof.
  intros HI%reachable_good. destruct (in_balance _ _ _ _ HI) as [B1 B2 B3 B4].
  unfold core_of in *; simpl in *. rewrite !msum_fmap in *. unfold compose in *; simpl in *.
  split_and!; [lia|done|lia|done].
Qed.

(** ** Leaving *)

(** Subscriptions only go away. *)
Definition shrinks (s s' : sfu) : Prop := ∀ p k sub, holds s' p k sub → holds s p k sub.

#[export] Instance shrinks_preorder : PreOrder shrinks.
Proof. split; [by intros s p k sub|]. intros a b c H1 H2 p k sub H. by apply H1, H2. Qed.

Lemma shrinks_core s s' : core_of s' = core_of s → shrinks s s'.
Proof. intros E p k sub. rewrite !holds_live. by rewrite E. Qed.

Lemma holds_subs s s' : subscriptions <$> part_heap s' = subscriptions <$> part_heap s →
  ∀ p k sub, holds s' p k sub ↔ holds s p k sub.
Proof. intros E p k sub. rewrite !holds_live. unfold core_of; simpl. by rewrite E. Qed.

Lemma on_queue_parts q m s : part_heap (final (on_queue q m) s) = part_heap s.
Proof. rewrite final_on_queue. by case_match. Qed.

Lemma scheduleNegotiate_holds s p p' k sub :
  holds (final (scheduleNegotiate p) s) p' k sub ↔ holds s p' k sub.
Proof. rewrite !holds_live. by rewrite scheduleNegotiate_core. Qed.

Lemma unsubscribe_holds p key s p' k sub :
  holds (final (unsubscribe p key) s) p' k sub ↔ holds s p' k sub ∧ ¬ (p' = p ∧ k = key).
Proof.
  unfold unsubscribe. autorewrite with mrun.
  destruct (subscriptions (part_at s p) !! key) as [sub0|] eqn:Hs.
  - unfold upd_part, detachSink, upd_pub, Add. autorewrite with mrun. rewrite scheduleNegotiate_holds.
    unfold holds; simpl. rewrite on_queue_parts; simpl. unfold part_at in Hs.
    destruct (part_heap s !! p) as [P|] eqn:HP; [|done]. simpl in Hs.
    destruct (decide (p' = p)) as [->|].
    + rewrite lookup_alter_eq, HP. simpl. split.
      * intros (P' & [= <-] & H). simpl in H. rewrite lookup_delete_Some in H. naive_solver.
      * intros [(P' & [= <-] & H) Hne]. eexists. split; [done|]. simpl. rewrite lookup_delete_Some. naive_solver.
    + rewrite lookup_alter_ne by done. naive_solver.
  - autorewrite with mrun. split; [|by intros [? _]]. intros Hh. split; [done|]. intros [-> ->].
    destruct Hh as (P & HP & H). unfold part_at in Hs. rewrite HP in Hs. simpl in Hs. congruence.
Qed.

Lemma removed_loop_holds key x l s :
  let s' := final (for_each l (λ sp,
              unsubscribe sp key;; sendPublicationEvent MsgPublicationRemoved sp x)) s in
  shrinks s s' ∧ ∀ sp sub, sp ∈ l → ¬ holds s' sp key sub.
Proof.
  revert s. induction l as [|sp l IH]; intros s; [split; [done|by intros ?? ?%elem_of_nil]|].
  simpl. autorewrite with mrun. destruct (IH (final (unsubscribe sp key) s)) as [H1 H2]. split.
  - intros p k sub Hh%H1. by apply unsubscribe_holds in Hh as [? _].
  - intros sp' sub [->|Hin]%elem_of_cons; [|by apply H2].
    intros Hh%H1. apply unsubscribe_holds in Hh as [_ Hne]. by apply Hne.
Qed.

Lemma onPublicationRemoved_holds env r x s :
  env_ok env → good s →
  let s' := final (onPublicationRemoved env r x) s in
  shrinks s s' ∧
  ∀ pid sp sub, participants (room_at s r) !! pid = Some sp → pid ≠ participantID (pub_at s x) →
    ¬ holds s' sp (pub_id (pub_at s x)) sub.
Proof.
  intros Henv HI s'. unfold s', onPublicationRemoved. autorewrite with mrun.
  rewrite firePublicationEvent_final. set (key := pub_id (pub_at s x)).
  set (l := othersOf env s r _).
  destruct (removed_loop_holds key x l s) as [H1 H2]. split; [done|]. intros pid sp sub Hp Hne. apply H2.
  apply othersOf_in; [done|]. eauto.
Qed.

Lemma final_removeRoom_parts id s :
  part_heap (final (removeRoomIfEmpty id) s) = part_heap s ∧
  room_heap (final (removeRoomIfEmpty id) s) = room_heap s.
Proof.
  unfold removeRoomIfEmpty. autorewrite with mrun. case_match; [|done]. rewrite final_when.
  by case_match.
Qed.

(** Closing participant [p]: it ends closed and without subscriptions, and only
    its record, sinks and queues change. *)
Lemma part_close_effect env p P s :
  part_heap s !! p = Some P → part_closed P = false →
  let s' := final (part_close env p) s in
  (∃ P', part_heap s' = <[p := P']> (part_heap s) ∧ part_closed P' = true ∧ subscriptions P' = ∅ ∧
         publications P' = publications P ∧ part_id P' = part_id P ∧ part_room P' = part_room P) ∧
  room_heap s' = room_heap s ∧ rooms s' = rooms s ∧
  c_pubs (core_of s') = c_pubs (core_of s).
Proof.
  intros HP Hcl s'. unfold s', part_close, upd_part. autorewrite with mrun.
  assert (part_at s p = P) as EP by (unfold part_at; by rewrite HP). rewrite EP, Hcl.
  autorewrite with mrun. set (s1 := set_part_heap _ s). set (loop := for_each _ _).
  assert (∃ P', part_heap s1 = <[p := P']> (part_heap s) ∧ part_closed P' = true ∧ subscriptions P' = ∅ ∧
         publications P' = publications P ∧ part_id P' = part_id P ∧ part_room P' = part_room P) as (P' & E1 & HP').
  { eexists. unfold s1; simpl. rewrite (alter_lookup_insert _ _ _ P) by done. by split_and!. }
  assert (∀ s2, part_heap s2 = part_heap s1 ∧ room_heap s2 = room_heap s ∧ rooms s2 = rooms s ∧
            c_pubs (core_of s2) = c_pubs (core_of s) → let s3 := final loop s2 in
          part_heap s3 = part_heap s1 ∧ room_heap s3 = room_heap s ∧ rooms s3 = rooms s ∧
            c_pubs (core_of s3) = c_pubs (core_of s)) as Hloop.
  { intros s2 H2. refine (preserves_for_each (λ s3, part_heap s3 = part_heap s1 ∧ room_heap s3 = room_heap s ∧
      rooms s3 = rooms s ∧ c_pubs (core_of s3) = c_pubs (core_of s)) _ _ _ s2 H2).
    intros [key sub] _ s3 (A1 & A2 & A3 & A4). unfold detachSink, upd_pub. autorewrite with mrun.
    rewrite final_on_queue. unfold core_of in *; simpl in *.
    case_match; simpl; (split_and!; [done..|]); by rewrite fmap_alter_same. }
  destruct (Hloop s1) as (A1 & A2 & A3 & A4); [done|].
  rewrite final_when. case_match; (split_and!; [|done..]); exists P'; simpl; by rewrite A1, E1.
Qed.

Lemma onPublicationRemoved_ext env r l s :
  good s → ok (core_of s) [] 0 0 (final (for_each l (onPublicationRemoved env r)) s).
Proof.
  intros HI. refine (preserves_for_each _ _ _ _ s (ok_refl _ _ _ _ HI)).
  intros x _ s' Hok. by apply onPublicationRemoved_ok.
Qed.

Lemma ext_at s s' : ext (core_of s) (core_of s') →
  (∀ r, room_at s' r = room_at s r) ∧ (∀ x, bstat_of (pub_at s' x) = bstat_of (pub_at s x)).
Proof.
  intros (_ & E2 & E3 & _). split.
  - intros r. unfold room_at. change (room_heap s') with (c_objs (core_of s')). by rewrite E3.
  - intros x. unfold core_of in E2; simpl in E2. unfold pub_at.
    assert (bstat_of <$> pub_heap s' !! x = bstat_of <$> pub_heap s !! x) as E.
    { by rewrite <- !lookup_fmap, E2. }
    destruct (pub_heap s' !! x), (pub_heap s !! x); simpl in *; congruence.
Qed.

Lemma leave_loop env r l s :
  env_ok env → good s →
  let s' := final (for_each l (onPublicationRemoved env r)) s in
  shrinks s s' ∧
  ∀ x pid sp sub, x ∈ l → participants (room_at s r) !! pid = Some sp →
    pid ≠ participantID (pub_at s x) → ¬ holds s' sp (pub_id (pub_at s x)) sub.
Proof.
  intros Henv. revert s. induction l as [|x l IH]; intros s HI; [split; [done|by intros ???? ?%elem_of_nil]|].
  simpl. autorewrite with mrun. set (s1 := final (onPublicationRemoved env r x) s).
  assert (ok (core_of s) [] 0 0 s1) as [Hext H1] by by apply onPublicationRemoved_ok, ok_refl.
  destruct (ext_at s s1 Hext) as [Er Ex].
  destruct (onPublicationRemoved_holds env r x s Henv HI) as [Hs1 Hx].
  destruct (IH s1 H1) as [Hs2 Hl]. split; [by etrans|].
  intros y pid sp sub [->|Hin]%elem_of_cons Hp Hne.
  - intros Hh%Hs2. by eapply Hx.
  - specialize (Hl y pid sp sub Hin). rewrite Er in Hl. specialize (Ex y).
    injection Ex as E1 E2 _ _. rewrite E1, E2 in Hl. by apply Hl.
Qed.

Section leave.
Context (env : Env) (s : sfu) (r : nat) (R : Room) (pid : string) (p : nat).
Hypothesis Henv : env_ok env.
Hypothesis HI : good s.
Hypothesis HR : room_heap s !! r = Some R.
Hypothesis Hp : participants R !! pid = Some p.

(** The stages of [room_Leave]: out of the room, publications retired, closed. *)
Let s1 := set_room_heap (alter (λ R, with_participants (delete pid (participants R)) R) r) s.
Let s2 := final (for_each (listPublications env s p) (onPublicationRemoved env r)) s1.
Let s3 := final (part_close env p) s2.
Let s' := final (room_Leave env r pid) s.

Lemma leave_stages : s' = final (removeRoomIfEmpty (room_id R)) (final (Add peerConnectionsClose 1) s3).
Proof.
  unfold s', room_Leave, upd_room, room_participant. autorewrite with mrun.
  unfold room_at. rewrite HR; simpl. rewrite Hp. by autorewrite with mrun.
Qed.

Lemma leave_s1 : good s1.
Proof.
  unfold s1. rewrite (core_upd_room _ _ R) by done.
  apply (Inv_room _ _ _ _ HI r R); simpl; try done; [|lia].
  by intros pid' p' [_ ?]%lookup_delete_Some.
Qed.

Lemma leave_s2 : ok (core_of s1) [] 0 0 s2.
Proof. apply onPublicationRemoved_ext, leave_s1. Qed.

Lemma leaver : ∃ P, part_heap s !! p = Some P ∧ part_id P = pid ∧ part_room P = r ∧ part_closed P = false.
Proof.
  destruct (so_members _ _ _ _ (in_stat _ _ _ _ HI) r R pid p HR Hp) as (Pc & HPc & Hid & Hro & Hcl).
  destruct (core_part _ _ _ HPc) as (P & HP & EP & -> & _). eauto.
Qed.

Lemma leave_s3 :
  (∃ P', part_heap s3 = <[p := P']> (part_heap s2) ∧ part_closed P' = true ∧ subscriptions P' = ∅) ∧
  room_heap s3 = <[r := with_participants (delete pid (participants R)) R]> (room_heap s) ∧
  rooms s3 = rooms s ∧ c_pubs (core_of s3) = c_pubs (core_of s).
Proof.
  destruct leaver as (P & HP & _ & _ & Hcl), leave_s2 as [(E1 & E2 & E3 & E4) _].
  assert (c_parts (core_of s2) !! p = Some (pstat_of P)) as HP2.
  { rewrite E1. unfold s1, core_of; simpl. by rewrite lookup_fmap, HP. }
  destruct (core_part _ _ _ HP2) as (P2 & HP2' & _ & EP2 & _). injection EP2 as ? ? ? ? ?.
  destruct (part_close_effect env p P2 s2 HP2') as ((P3 & A1 & A2 & A3 & _) & Ar & Arm & Ap); [congruence|].
  fold s3 in A1, Ar, Arm, Ap. split_and!; [eauto| | |].
  - rewrite Ar. etrans; [exact E3|]. unfold s1, core_of; simpl. by rewrite (alter_lookup_insert _ _ _ R).
  - rewrite Arm. exact E4.
  - by rewrite Ap, E2.
Qed.

Lemma leave_frame :
  part_heap s' = part_heap s3 ∧
  room_heap s' = <[r := with_participants (delete pid (participants R)) R]> (room_heap s) ∧
  c_pubs (core_of s') = c_pubs (core_of s).
Proof.
  rewrite leave_stages. destruct leave_s3 as (_ & A2 & _ & A4).
  unfold removeRoomIfEmpty. autorewrite with mrun. case_match; [rewrite final_when; case_match|]; done.
Qed.

Lemma leave_severed x pid' sp sub :
  x ∈ listPublications env s p → delete pid (participants R) !! pid' = Some sp →
  ¬ holds s' sp (pub_id (pub_at s x)) sub.
Proof.
  intros Hx Hsp. destruct leaver as (P & HP & Hid & Hro & _).
  destruct (leave_loop env r (listPublications env s p) s1 Henv leave_s1) as [_ Hsev].
  destruct leave_frame as (F1 & _ & _), leave_s3 as ((P3 & A1 & _ & A3) & _).
  assert (c_parts (core_of s) !! p = Some (pstat_of P)) as HPc.
  { unfold core_of; simpl. by rewrite lookup_fmap, HP. }
  destruct (owned_core env Henv _ _ _ _ _ _ _ HI HPc Hx) as (B & HB & _ & Ho & _).
  destruct (core_pub _ _ _ HB) as (b & _ & Eb & -> & _). simpl in Ho.
  intros (P' & HP' & Hsub). rewrite F1, A1 in HP'. apply lookup_insert_Some in HP' as [[<- <-]|[Hne HP']].
  - by rewrite A3, lookup_empty in Hsub.
  - refine (Hsev x pid' sp sub Hx _ _ _).
    + unfold room_at, s1; simpl. rewrite lookup_alter_eq, HR. done.
    + change (pub_at s1 x) with (pub_at s x). rewrite Eb, Ho, Hid.
      intros ->. by rewrite lookup_delete_eq in Hsp.
    + by exists P'.
Qed.

Lemma leave_unfindable k x :
  publications (part_at s p) !! k = Some x → findPublication env s' r k ≠ Some x.
Proof.
  intros Hx Hf. assert (good s') as HI' by by apply room_Leave_good.
  destruct leaver as (P & HP & Hid & Hro & _), leave_frame as (F1 & F2 & F3).
  assert (part_at s p = P) as EP by (unfold part_at; by rewrite HP). rewrite EP in Hx.
  destruct (so_owned _ _ _ _ (in_stat _ _ _ _ HI) p (pstat_of P) k x) as (_ & B & HB & _ & Ho & _ & Hre);
    [unfold core_of; simpl; by rewrite lookup_fmap, HP|done|]. simpl in Ho.
  assert (room_heap s' !! r = Some (with_participants (delete pid (participants R)) R)) as HR'.
  { by rewrite F2, lookup_insert_eq. }
  unfold findPublication in Hf. destruct (list_find _ _) as [[i y]|] eqn:E.
  - injection Hf as ->. apply list_find_Some in E as (Hi & _ & _). apply list_elem_of_lookup_2 in Hi.
    apply list_elem_of_bind in Hi as (sp & Hsp & ([pid' a] & -> & Hin)%list_elem_of_fmap).
    apply range_in in Hin; [|done]. simpl in Hsp. unfold room_at in Hin. rewrite HR' in Hin. simpl in Hin.
    destruct (so_members _ _ _ _ (in_stat _ _ _ _ HI') r _ pid' a HR' Hin) as (Pc & HPc & Hid' & _).
    destruct (owned_core env Henv _ _ _ _ _ _ _ HI' HPc Hsp) as (B' & HB' & _ & Ho' & _).
    rewrite F3 in HB'. simplify_eq. rewrite Ho' in Ho. rewrite Ho in Hin.
    by rewrite lookup_delete_eq in Hin.
  - unfold room_at in Hf. rewrite HR' in Hf.
    destruct (so_mirrors _ _ _ _ (in_stat _ _ _ _ HI') r _ k x HR' Hf) as (B' & HB' & _ & _ & Hre').
    rewrite F3 in HB'. congruence.
Qed.

Lemma leave_forgets :
  delete pid (participants R) = ∅ → rooms s !! room_id R = Some r → rooms s' !! room_id R = None.
Proof.
  intros He Hr. rewrite leave_stages. destruct leave_s3 as (_ & A2 & A3 & _).
  unfold removeRoomIfEmpty. autorewrite with mrun.
  change (rooms (final (Add peerConnectionsClose 1) s3)) with (rooms s3). rewrite A3, Hr, final_when.
  rewrite bool_decide_true; [simpl; by rewrite lookup_delete_eq|].
  unfold room_size, room_at. change (room_heap (final (Add peerConnectionsClose 1) s3)) with (room_heap s3).
  rewrite A2, lookup_insert_eq; simpl. by rewrite He.
Qed.
End leave.

(** C20: leaving severs everything.  When a member leaves its room: it is out of
    the room's map, its participant object is closed and holds no subscription,
    no remaining member holds a subscription under the id of any publication it
    had, none of its publications can be found in the room any more, and the
    SFU forgets the room when nobody is left. *)
Theorem leave_severs (env : Env) (s : sfu) (r : nat) (R : Room) (pid : string) (p : nat) :
  env_ok env → reachable s → room_heap s !! r = Some R → participants R !! pid = Some p →
  let s' := final (room_Leave env r pid) s in
  participants (room_at s' r) = delete pid (participants R) ∧
  part_closed (part_at s' p) = true ∧ subscriptions (part_at s' p) = ∅ ∧
  (∀ k x, publications (part_at s p) !! k = Some x →
     (∀ pid' sp sub, participants (room_at s' r) !! pid' = Some sp → ¬ holds s' sp k sub) ∧
     findPublication env s' r k ≠ Some x) ∧
  (delete pid (participants R) = ∅ → rooms s !! room_id R = Some r → rooms s' !! room_id R = None).
Proof.
  intros Henv HI%reachable_good HR Hp s'.
  destruct (leave_frame env s r R pid p HI HR Hp) as (F1 & F2 & _).
  destruct (leave_s3 env s r R pid p HI HR Hp) as ((P' & A1 & A2 & A3) & _).
  assert (room_at s' r = with_participants (delete pid (participants R)) R) as ER.
  { unfold room_at, s'. by rewrite F2, lookup_insert_eq. }
  assert (part_at s' p = P') as EP. { unfold part_at, s'. by rewrite F1, A1, lookup_insert_eq. }
  rewrite ER, EP. split_and!; [done..| |by eapply leave_forgets].
  intros k x Hx. split; [|by eapply leave_unfindable].
  destruct (leaver s r R pid p HI HR Hp) as (P & HP & _).
  assert (part_at s p = P) as EP0 by (unfold part_at; by rewrite HP). rewrite EP0 in Hx.
  destruct (so_owned _ _ _ _ (in_stat _ _ _ _ HI) p (pstat_of P) k x) as (_ & B & HB & Hk & _);
    [unfold core_of; simpl; by rewrite lookup_fmap, HP|done|].
  destruct (core_pub _ _ _ HB) as (b & _ & Eb & -> & _). simpl in Hk. subst k.
  intros pid' sp sub Hsp. rewrite <- Eb. eapply leave_severed; try done.
  apply listPublications_in; [done|]. rewrite EP0. eauto.
Qed.

(** ** Keyframe requests *)

(** The requests a batch of keyframe calls sent to the publisher, with the clock
    readings they were made at. *)
Definition request_time (e : sfu_event) : option Z :=
  match e with
  | WroteRTCP _ _ (Some t) => Some t
  | RemoteRTCP _ _ t => Some t
  | _ => None
  end.

(** Goroutines asking for a keyframe of [x]: each loaded some value [last] of
    the limiter and read the clock [now]; they swap in this order. *)
Definition keyframe_calls (x : nat) (l : list (Z * Z)) : SM unit :=
  for_each l (λ e, requestKeyframe_from x e.1 e.2).

Definition unix_nano (t : Z) : Prop := 0 ≤ t < 2 ^ 63.

(** One call: nothing, or a swap at least [keyframeRateLimit] after the previous
    one, with at most one request, stamped [now]. *)
Lemma keyframe_call x last now s b :
  pub_heap s !! x = Some b → unix_nano last → unix_nano now →
  let m := requestKeyframe_from x last now in
  (final m s = s ∧ outputs m s = []) ∨
  (lastKeyframe b + keyframeRateLimit ≤ now ∧
   pub_heap (final m s) !! x = Some (with_lastKeyframe now b) ∧
   (omap request_time (outputs m s) = [] ∨ omap request_time (outputs m s) = [now])).
Proof.
  intros Hb Hl Hn. unfold requestKeyframe_from, requestKeyframe_swap, upd_pub.
  autorewrite with mrun. assert (pub_at s x = b) as -> by (unfold pub_at; by rewrite Hb).
  destruct (pub_kind b); [by left|]. destruct (wrap64 (now - last) <? keyframeRateLimit) eqn:E; [by left|].
  zbool. rewrite wrap64_id in E by (unfold unix_nano in *; lia).
  autorewrite with mrun. assert (pub_at s x = b) as -> by (unfold pub_at; by rewrite Hb).
  case_decide as El; [|by left]. right. subst last. split; [lia|].
  autorewrite with mrun. simpl.
  destruct (remote b); [destruct (remoteRTCPSink b)|destruct (pub_room b); [case_match|]];
    autorewrite with mrun; simpl; rewrite lookup_alter_eq, Hb; split; auto.
Qed.

(** Keyframe requests are rate limited.  However many goroutines ask at
    once, and however stale the limiter value each of them loaded, the requests
    that [requestKeyframe] sends to the publisher of one publication are at least
    [keyframeRateLimit] (one second) apart, and the first is that long after the
    last one before the batch. *)
Theorem keyframe_rate (x : nat) (l : list (Z * Z)) (s : sfu) (b : Publication) :
  pub_heap s !! x = Some b → Forall (λ e, unix_nano e.1 ∧ unix_nano e.2) l →
  let ts := omap request_time (outputs (keyframe_calls x l) s) in
  StronglySorted (λ t t', t + keyframeRateLimit ≤ t') ts ∧
  Forall (λ t, lastKeyframe b + keyframeRateLimit ≤ t) ts.
Proof.
  intros Hb Hl. revert s b Hb. induction Hl as [|[last now] l [Hla Hno] Hl IH]; intros s b Hb;
    [split; constructor|].
  unfold keyframe_calls. simpl. autorewrite with mrun.
  destruct (keyframe_call x last now s b Hb Hla Hno) as [[Ef Eo]|(Hlim & Hb' & Ho)]; simpl in *.
  - rewrite Ef, Eo. by apply IH.
  - rewrite omap_app. destruct (IH _ _ Hb') as [IH1 IH2]. simpl in IH2.
    assert (0 < keyframeRateLimit) by done.
    destruct Ho as [-> | ->]; simpl.
    + split; [done|]. eapply Forall_impl; [exact IH2|]. simpl. intros t Ht. lia.
    + split; [by constructor|]. constructor; [done|].
      eapply Forall_impl; [exact IH2|]. simpl. intros t Ht. lia.
Qed.

(** ** Runs *)

Fixpoint run_ops (env : Env) (l : list op) (s : sfu) : option sfu :=
  match l with
  | [] => Some s
  | o :: l => if decide (enabled s o) then run_ops env l (final (perform env o) s) else None
  end.

Lemma run_ops_reachable env l s s' :
  env_ok env → reachable s → run_ops env l s = Some s' → reachable s'.
Proof.
  intros Henv. revert s. induction l as [|o l IH]; simpl; intros s Hs E; [by simplify_eq|].
  case_decide as Hen; [|done]. eapply IH; [|exact E]. by constructor.
Qed.

(** The environment that visits maps in [map_to_list]'s order and whose WebRTC
    library accepts every track. *)
Definition plain_env : Env := mkEnv (λ A m, map_to_list m) (λ _, true) (λ _ _, true).

Lemma plain_env_ok : env_ok plain_env.
Proof. by intros A m. Qed.

Definition start_sfu : sfu := init 4 4 (mkPool ∅ [] 0).

Definition state_after (l : list op) : sfu := default start_sfu (run_ops plain_env l start_sfu).

Lemma state_after_reachable l : reachable (state_after l).
Proof.
  unfold state_after. destruct (run_ops plain_env l start_sfu) as [s|] eqn:E; [|constructor].
  eapply run_ops_reachable; [apply plain_env_ok|constructor|exact E].
Qed.

Definition camera : TrackRemote := mkTrack "t1" RTPCodecTypeVideo 4711 (mkCodec "video/VP8" 90000 0 96).

(** Ann (object 1) and Bob (object 2) in room object 0; Ann publishes her camera
    (object 3) and Bob is subscribed automatically (queue 4). *)
Definition meeting : list op :=
  [OpRoom "demo"; OpJoin 0 "ann" FullPermissions true; OpJoin 0 "bob" (mkPerms false true) true;
   OpTrack 1 camera "v"].

Lemma meeting_bob : holds (state_after meeting) 2 "pub-v" (mkSub 3 4 1).
Proof. eexists. split; vm_compute; reflexivity. Qed.

Lemma sfu_authorization_witness :
  ∃ P b, part_heap (state_after meeting) !! 2%nat = Some P ∧
         pub_heap (state_after meeting) !! 3%nat = Some b ∧ pub_id b = "pub-v" ∧ authorized P b.
Proof.
  apply (proj2 (sfu_authorization (state_after meeting) (state_after_reachable meeting)) 2%nat "pub-v" (mkSub 3 4 1)).
  exact meeting_bob.
Defined.

Lemma media_isolation_witness :
  ∃ p P b i, holds (state_after meeting) p (pub_id b) (mkSub 3 4 i) ∧
    part_heap (state_after meeting) !! p = Some P ∧ pub_heap (state_after meeting) !! 3%nat = Some b ∧
    authorized P b ∧
    ∀ p' k' sub', holds (state_after meeting) p' k' sub' → sub_queue sub' = 4%nat → p' = p.
Proof.
  apply (media_isolation (state_after meeting) 3 4 []); [apply state_after_reachable|].
  vm_compute. congruence.
Defined.


Lemma sfu_accounting_witness :
  counters (state_after meeting) subscriptionsMade - counters (state_after meeting) subscriptionsRemoved
  = msum (λ P, Z.of_nat (size (subscriptions P))) (part_heap (state_after meeting)).
Proof. apply (sfu_accounting (state_after meeting)), state_after_reachable. Defined.

Lemma leave_severs_witness :
  part_closed (part_at (final (room_Leave plain_env 0 "ann") (state_after meeting)) 1) = true ∧
  ¬ holds (final (room_Leave plain_env 0 "ann") (state_after meeting)) 2 "pub-v" (mkSub 3 4 1).
Proof.
  assert (room_heap (state_after meeting) !! 0%nat = Some (room_at (state_after meeting) 0)) as H1
    by (vm_compute; reflexivity).
  assert (participants (room_at (state_after meeting) 0) !! "ann" = Some 1%nat) as H2
    by (vm_compute; reflexivity).
  destruct (leave_severs plain_env (state_after meeting) 0 _ "ann" 1
    plain_env_ok (state_after_reachable meeting) H1 H2) as (_ & Hc & _ & H & _).
  split; [exact Hc|].
  refine (proj1 (H "pub-v" 3%nat _) "bob" 2%nat (mkSub 3 4 1) _); vm_compute; reflexivity.
Defined.

Lemma keyframe_rate_witness :
  omap request_time (outputs (keyframe_calls 3 [(0, 5 * second); (0, 6 * second); (5 * second, 5 * second + 1);
    (5 * second, 6 * second)]) (state_after meeting)) = [5 * second; 6 * second] ∧
  StronglySorted (λ t t', t + keyframeRateLimit ≤ t') [5 * second; 6 * second].
Proof.
  split; [vm_compute; reflexivity|].
  refine (proj1 (keyframe_rate 3 [(0, 5 * second); (0, 6 * second); (5 * second, 5 * second + 1);
    (5 * second, 6 * second)] (state_after meeting) (pub_at (state_after meeting) 3) _ _)).
  - vm_compute. reflexivity.
  - repeat constructor; unfold unix_nano; simpl; unfold second; lia.
Defined.

(** ** Interleavings the code does not exclude *)

(** Ann's track ends at once: the ingest loop, started before [onTrack] announces
    the publication, retires it first; the announcement then subscribes Bob. *)
Definition track_ends_at_once : list op :=
  [OpRoom "demo"; OpJoin 0 "ann" FullPermissions true; OpJoin 0 "bob" FullPermissions true;
   OpMint 1 camera "v"; OpIngest 1 3 None; OpAnnounce 0 3].

(** Whether object [x] is some participant's publication or some room's mirror. *)
Definition published (s : sfu) (x : nat) : bool :=
  existsb (λ P, existsb (λ y, Nat.eqb x y) (map_to_list (publications P)).*2) (map_to_list (part_heap s)).*2
  || existsb (λ R, existsb (λ y, Nat.eqb x y) (map_to_list (remotePubs R)).*2) (map_to_list (room_heap s)).*2.

(** [onTrack] starts the ingest loop before it announces the publication.
    If the track ends in between, the removal overtakes the announcement, and a
    state is reachable in which a participant stays subscribed to a publication
    that nobody publishes any more: no later end of the track removes it. *)
Theorem announcement_after_removal :
  ∃ s p sub, reachable s ∧ holds s p "pub-v" sub ∧ published s (publication sub) = false ∧
    ∀ env, final (ingest_turn env 1 (publication sub) None) s = s.
Proof.
  exists (state_after track_ends_at_once), 2%nat, (mkSub 3 4 1). split_and!.
  - apply state_after_reachable.
  - eexists. split; vm_compute; reflexivity.
  - vm_compute. reflexivity.
  - intros env. unfold ingest_turn, removePublication. autorewrite with mrun.
    by assert (publications (part_at (state_after track_ends_at_once) 1)
      !! pub_id (pub_at (state_after track_ends_at_once) (publication (mkSub 3 4 1))) = None) as ->
      by (vm_compute; reflexivity).
Qed.

(** Bob's join has fetched the room; Ann, the last member, leaves before Bob is
    entered in it; Cy joins afterwards. *)
Definition join_races_last_leave : list op :=
  [OpRoom "demo"; OpJoin 0 "ann" FullPermissions true; OpRoom "demo"; OpLeave "demo" "ann";
   OpJoin 0 "bob" FullPermissions true; OpRoom "demo"; OpJoin 3 "cy" FullPermissions true].

(** [SFU.Room] and [JoinWithPermissions] are two critical sections.  If the
    last member leaves in between, the joiner enters a room object the SFU has
    forgotten: two open participants of the same room id sit in different
    rooms, where neither can see the other, and [SFU.Leave] no longer finds the
    first one, so its connection is never closed. *)
Theorem join_races_room_removal :
  ∃ s r1 r2 R1 R2 p1 p2, reachable s ∧ r1 ≠ r2 ∧
    room_heap s !! r1 = Some R1 ∧ room_heap s !! r2 = Some R2 ∧ room_id R1 = room_id R2 ∧
    participants R1 !! "bob" = Some p1 ∧ participants R2 !! "cy" = Some p2 ∧
    part_closed (part_at s p1) = false ∧ part_closed (part_at s p2) = false ∧
    ∀ env, final (Leave env (room_id R1) "bob") s = s.
Proof.
  exists (state_after join_races_last_leave), 0%nat, 3%nat,
    (room_at (state_after join_races_last_leave) 0), (room_at (state_after join_races_last_leave) 3), 2%nat, 4%nat.
  split_and!; try (vm_compute; reflexivity).
  - apply state_after_reachable.
  - done.
Qed.

(** [DeliverRTCPToPublisher] does not go through [requestKeyframe]: feedback of
    a remote node reaches the publisher at once, request by request. *)
Example remote_feedback_is_not_limited :
  outputs (DeliverRTCPToPublisher plain_env "demo" "pub-v" (Some (replicate 3 PictureLossIndication)))
    (state_after meeting)
  = replicate 3 (WroteRTCP 1 4711 None).
Proof. vm_compute. reflexivity. Qed.

(** [Leave] retires a participant's publications without removing them from it;
    when the ingest loop then ends, the room is told a second time. *)
Example removal_announced_twice :
  let s := final (room_Leave plain_env 0 "ann") (final (perform plain_env OpHooks) (state_after meeting)) in
  let removed := Sent 2 (MsgPublicationRemoved "pub-v" "ann" "video" "camera" false) in
  removed ∈ outputs (room_Leave plain_env 0 "ann") (final (perform plain_env OpHooks) (state_after meeting)) ∧
  outputs (ingest_turn plain_env 1 3 None) s
  = [removed; PublicationHook "demo" false "pub-v" "ann" "video"; PublicationEndedHook "demo" "pub-v"].
Proof.
  split; [|vm_compute; reflexivity].
  assert (outputs (room_Leave plain_env 0 "ann") (final (perform plain_env OpHooks) (state_after meeting))
    = [Sent 2 (MsgSubscriptionRemoved "pub-v" "ann" "video" "camera");
       Sent 2 (MsgPublicationRemoved "pub-v" "ann" "video" "camera" false);
       PublicationHook "demo" false "pub-v" "ann" "video"]) as -> by (vm_compute; reflexivity).
  right. left.
Qed.

(** A participant that connects is not subscribed to the mirrored publications
    that are already in the room: [bootstrap] walks only the local ones. *)
Example bootstrap_skips_mirrors :
  let info := mkInfo "demo" "pub-far" "zoe" "node-2" "video" "video/VP8" 90000 0 96 99 in
  let s := state_after [OpRoom "demo"; OpAddRemote info None "u"; OpJoin 0 "bob" FullPermissions true] in
  subscriptions (part_at (final (onConnected plain_env 2) s) 2) = ∅ ∧
  findPublication plain_env s 0 "pub-far" = Some 1%nat.
Proof. vm_compute. done. Qed.
