(* ===== verification/Negotiation.v ===== *)
(** * Perfect negotiation of one participant (internal/sfu: core_participant,
      negotiation)

    The browser and the SFU may both offer; the SFU is the impolite peer.  The
    handlers run in different goroutines and release the participant's lock
    around the calls into the WebRTC library, so each is cut into the pieces
    that run without interruption: [thread] says where a goroutine stands, and a
    schedule picks which one goes on.  The library is the interface
    [PeerConnection]; its laws are the signaling-state table of the WebRTC
    specification.  [jsep] is the least implementation of them. *)

From S2P Require Import Prelude.

(** ** The WebRTC library *)

Inductive sig_state :=
| Stable
| HaveLocalOffer
| HaveRemoteOffer
| HaveLocalPranswer
| HaveRemotePranswer
| ClosedState.

#[export] Instance sig_state_eq_dec : EqDecision sig_state.
Proof. solve_decision. Defined.

Inductive sdp_type := SDPTypeOffer | SDPTypeAnswer.

(** What the code calls.  A fallible call returns [None] on error. *)
Class PeerConnection (PC : Type) := {
  SignalingState : PC → sig_state;
  HasRemoteDescription : PC → bool;
  SetRemoteDescription : sdp_type → string → PC → option PC;
  SetLocalDescription : sdp_type → string → PC → option PC;
  CreateOffer : PC → option string;
  CreateAnswer : PC → option string;
  AddICECandidate : string → PC → option PC;
  pc_Close : PC → PC
}.

(** The signaling-state table: which calls are legal where, and where they lead. *)
Class PeerConnectionLaws (PC : Type) `{PeerConnection PC} : Prop := {
  remote_offer sdp pc pc' : SetRemoteDescription SDPTypeOffer sdp pc = Some pc' →
    (SignalingState pc = Stable ∨ SignalingState pc = HaveRemoteOffer) ∧
    SignalingState pc' = HaveRemoteOffer;
  remote_answer sdp pc pc' : SetRemoteDescription SDPTypeAnswer sdp pc = Some pc' →
    (SignalingState pc = HaveLocalOffer ∨ SignalingState pc = HaveRemotePranswer) ∧
    SignalingState pc' = Stable;
  local_offer sdp pc pc' : SetLocalDescription SDPTypeOffer sdp pc = Some pc' →
    (SignalingState pc = Stable ∨ SignalingState pc = HaveLocalOffer) ∧
    SignalingState pc' = HaveLocalOffer;
  local_answer sdp pc pc' : SetLocalDescription SDPTypeAnswer sdp pc = Some pc' →
    (SignalingState pc = HaveRemoteOffer ∨ SignalingState pc = HaveLocalPranswer) ∧
    SignalingState pc' = Stable;
  add_candidate c pc pc' : AddICECandidate c pc = Some pc' → SignalingState pc' = SignalingState pc;
  close_state pc : SignalingState (pc_Close pc) = ClosedState
}.

(** ** State *)

(** Where a goroutine inside a handler stands. *)
Inductive thread :=
| OfferChecked (sdp : string)
| OfferApplied
| AnswerMade (sdp : string)
| AnswerReceived (sdp : string)
| AnswerApplied
| NegotiateStarted
| OfferMade (sdp : string)
| TimerGoroutine
| Closing.

(** What the outside sees: the messages sent to the browser, and the browser
    answers the library accepted. *)
Inductive neg_event :=
| SentOffer (sdp : string)
| SentAnswer (sdp : string)
| AcceptedAnswer (sdp : string).

Section negotiation.
Context {PC : Type} `{PeerConnection PC}.

(** src/internal/sfu/core_participant.go:25-44 [Participant]  The negotiation
    fields, the goroutines in flight, the permits of the SFU-wide limiter they
    hold and the counters. *)
Record peer := mkPeer {
  pc : PC;
  pendingCands : list string;
  makingOffer : bool;
  needNegotiate : bool;
  negotiateTimer : bool;
  closed : bool;
  threads : list thread;
  permits : nat;
  started : Z;
  completed : Z;
  failed : Z;
  coalesced : Z
}.

Abbreviation NM := (M peer neg_event).

Definition set_pc (c : PC) (s : peer) : peer :=
  mkPeer c (pendingCands s) (makingOffer s) (needNegotiate s) (negotiateTimer s) (closed s)
    (threads s) (permits s) (started s) (completed s) (failed s) (coalesced s).

Definition set_cands (l : list string) (s : peer) : peer :=
  mkPeer (pc s) l (makingOffer s) (needNegotiate s) (negotiateTimer s) (closed s)
    (threads s) (permits s) (started s) (completed s) (failed s) (coalesced s).

Definition set_flags (making need timer cl : bool) (s : peer) : peer :=
  mkPeer (pc s) (pendingCands s) making need timer cl
    (threads s) (permits s) (started s) (completed s) (failed s) (coalesced s).

Definition set_threads (l : list thread) (s : peer) : peer :=
  mkPeer (pc s) (pendingCands s) (makingOffer s) (needNegotiate s) (negotiateTimer s) (closed s)
    l (permits s) (started s) (completed s) (failed s) (coalesced s).

Definition set_permits (n : nat) (s : peer) : peer :=
  mkPeer (pc s) (pendingCands s) (makingOffer s) (needNegotiate s) (negotiateTimer s) (closed s)
    (threads s) n (started s) (completed s) (failed s) (coalesced s).

Definition count (st co fa cl : Z) (s : peer) : peer :=
  mkPeer (pc s) (pendingCands s) (makingOffer s) (needNegotiate s) (negotiateTimer s) (closed s)
    (threads s) (permits s) (started s + st) (completed s + co) (failed s + fa) (coalesced s + cl).

(** The goroutine goes on from [t] when it is scheduled again. *)
Definition continue_at (t : thread) : NM unit := modify (λ s, set_threads (threads s ++ [t]) s).

(** src/internal/sfu/negotiation.go:41-42 [acquire, release]  Whether a permit
    is free is decided by the scheduler ([enabled]). *)
Definition acquire : NM unit := modify (λ s, set_permits (S (permits s)) s).
Definition release : NM unit := modify (λ s, set_permits (pred (permits s)) s).

(** src/internal/sfu/core_participant.go:277-281 [clearMakingOffer] *)
Definition clearMakingOffer : NM unit :=
  modify (λ s, set_flags false (needNegotiate s) (negotiateTimer s) (closed s) s).

(** src/internal/sfu/core_participant.go:196-206 [flushPendingCandidates]  An
    error is logged. *)
Definition flushPendingCandidates : NM unit :=
  pend ← gets pendingCands;
  modify (set_cands []);;
  for_each pend (λ c, modify (λ s,
    match AddICECandidate c (pc s) with Some pc' => set_pc pc' s | None => s end)).

(** src/internal/sfu/core_participant.go:183-194 [HandleICECandidate]  [false] is
    the error of [AddICECandidate]. *)
Definition HandleICECandidate (c : string) : NM bool :=
  s ← get;
  if negb (HasRemoteDescription (pc s)) then
    modify (λ s, set_cands (pendingCands s ++ [c]) s);; mret true
  else match AddICECandidate c (pc s) with
       | Some pc' => modify (set_pc pc');; mret true
       | None => mret false
       end.

(** src/internal/sfu/core_participant.go:119-130 [HandleOffer: collision check] *)
Definition HandleOffer (sdp : string) : NM unit :=
  s ← get;
  if makingOffer s || negb (bool_decide (SignalingState (pc s) = Stable)) then mret tt
  else continue_at (OfferChecked sdp).

(** src/internal/sfu/core_participant.go:132-143 [HandleOffer: apply] *)
Definition offer_apply (sdp : string) : NM unit :=
  acquire;;
  s ← get;
  match SetRemoteDescription SDPTypeOffer sdp (pc s) with
  | None => release
  | Some pc' => modify (set_pc pc');; flushPendingCandidates;; continue_at OfferApplied
  end.

(** src/internal/sfu/core_participant.go:145-149 [HandleOffer: CreateAnswer] *)
Definition offer_create_answer : NM unit :=
  s ← get;
  match CreateAnswer (pc s) with
  | None => release
  | Some answer => continue_at (AnswerMade answer)
  end.

(** src/internal/sfu/core_participant.go:150-157 [HandleOffer: SetLocalDescription] *)
Definition offer_finish (answer : string) : NM unit :=
  s ← get;
  match SetLocalDescription SDPTypeAnswer answer (pc s) with
  | None => release
  | Some pc' => modify (set_pc pc');; release;; emit (SentAnswer answer)
  end.

(** src/internal/sfu/core_participant.go:235-252 [negotiate: claim] *)
Definition negotiate : NM unit :=
  s ← get;
  if closed s then mret tt
  else if makingOffer s || negb (bool_decide (SignalingState (pc s) = Stable)) then
    modify (set_flags (makingOffer s) true (negotiateTimer s) (closed s));;
    modify (count 0 0 0 1)
  else
    modify (set_flags true (needNegotiate s) (negotiateTimer s) (closed s));;
    modify (count 1 0 0 0);;
    continue_at NegotiateStarted.

(** src/internal/sfu/core_participant.go:254-263 [negotiate: CreateOffer] *)
Definition negotiate_create : NM unit :=
  acquire;;
  s ← get;
  match CreateOffer (pc s) with
  | None => release;; modify (count 0 0 1 0);; clearMakingOffer
  | Some offer => continue_at (OfferMade offer)
  end.

(** src/internal/sfu/core_participant.go:264-275 [negotiate: SetLocalDescription] *)
Definition negotiate_finish (offer : string) : NM unit :=
  s ← get;
  match SetLocalDescription SDPTypeOffer offer (pc s) with
  | None => release;; modify (count 0 0 1 0);; clearMakingOffer
  | Some pc' =>
      modify (set_pc pc');; release;; modify (count 0 1 0 0);; emit (SentOffer offer)
  end.

(** src/internal/sfu/core_participant.go:159-169 [HandleAnswer: apply] *)
Definition answer_apply (sdp : string) : NM unit :=
  acquire;;
  s ← get;
  match SetRemoteDescription SDPTypeAnswer sdp (pc s) with
  | None => release
  | Some pc' =>
      modify (set_pc pc');; emit (AcceptedAnswer sdp);; release;;
      flushPendingCandidates;; continue_at AnswerApplied
  end.

(** src/internal/sfu/core_participant.go:171-181 [HandleAnswer: settle] *)
Definition answer_settle : NM unit :=
  s ← get;
  modify (set_flags false false (negotiateTimer s) (closed s));;
  when (needNegotiate s) negotiate.

(** src/internal/sfu/core_participant.go:215-233 [scheduleNegotiate] *)
Definition scheduleNegotiate : NM unit :=
  s ← get;
  if closed s then mret tt
  else if negotiateTimer s then modify (count 0 0 0 1)
  else modify (set_flags (makingOffer s) (needNegotiate s) true (closed s)).

(** src/internal/sfu/core_participant.go:226-231 [scheduleNegotiate: timer] *)
Definition timer_fired : NM unit :=
  s ← get;
  modify (set_flags (makingOffer s) (needNegotiate s) false (closed s));;
  continue_at TimerGoroutine.

(** src/internal/sfu/core_participant.go:681-695 [close: flags]  And the start of
    the rest of the teardown. *)
Definition close : NM unit :=
  s ← get;
  if closed s then mret tt
  else modify (set_flags (makingOffer s) (needNegotiate s) false true);; continue_at Closing.

(** ** Interleavings *)

(** A goroutine's next piece. *)
Definition run_thread (t : thread) : NM unit :=
  match t with
  | OfferChecked sdp => offer_apply sdp
  | OfferApplied => offer_create_answer
  | AnswerMade answer => offer_finish answer
  | AnswerReceived sdp => answer_apply sdp
  | AnswerApplied => answer_settle
  | NegotiateStarted => negotiate_create
  | OfferMade offer => negotiate_finish offer
  | TimerGoroutine => negotiate
  | Closing => modify (λ s, set_pc (pc_Close (pc s)) s)
  end.

Inductive action :=
| CallOffer (sdp : string)
| CallAnswer (sdp : string)
| CallCandidate (c : string)
| CallSchedule
| CallClose
| TimerFires
| Resume (i : nat).

(** Whether the thread is about to wait for a permit of the limiter. *)
Definition needs_permit (t : thread) : bool :=
  match t with OfferChecked _ | AnswerReceived _ | NegotiateStarted => true | _ => false end.

(** [cap]: the permits not held by other participants. *)
Definition enabled (cap : nat) (s : peer) (a : action) : bool :=
  match a with
  | TimerFires => negotiateTimer s
  | Resume i => match threads s !! i with
                | Some t => negb (needs_permit t) || (permits s <? cap)%nat
                | None => false
                end
  | _ => true
  end.

Definition act (a : action) : NM unit :=
  match a with
  | CallOffer sdp => HandleOffer sdp
  | CallAnswer sdp => continue_at (AnswerReceived sdp)
  | CallCandidate c => HandleICECandidate c;; mret tt
  | CallSchedule => scheduleNegotiate
  | CallClose => close
  | TimerFires => timer_fired
  | Resume i =>
      s ← get;
      match threads s !! i with
      | Some t => modify (set_threads (delete i (threads s)));; run_thread t
      | None => mret tt
      end
  end.

Definition start (c : PC) : peer := mkPeer c [] false false false false [] 0 0 0 0 0.

(** States a participant can reach, with what it has sent so far. *)
Inductive reaches (cap : nat) : peer → list neg_event → Prop :=
| reaches_start c : SignalingState c = Stable → reaches cap (start c) []
| reaches_step s w a :
    reaches cap s w → enabled cap s a = true →
    reaches cap (final (act a) s) (w ++ outputs (act a) s).

(** ** The invariant *)

Definition b2n (b : bool) : nat := if b then 1%nat else 0%nat.

Fixpoint tally {A} (f : A → bool) (l : list A) : nat :=
  match l with [] => 0 | a :: l => b2n (f a) + tally f l end.

Lemma tally_app {A} (f : A → bool) l1 l2 : tally f (l1 ++ l2) = (tally f l1 + tally f l2)%nat.
Proof. induction l1 as [|a l1 IH]; simpl; lia. Qed.

Lemma tally_delete {A} (f : A → bool) l i a :
  l !! i = Some a → tally f l = (b2n (f a) + tally f (delete i l))%nat.
Proof.
  revert i. induction l as [|b l IH]; intros [|i] E; simplify_eq/=; [done|].
  rewrite (IH i E). lia.
Qed.

(** Goroutines between claiming the negotiation and its end, goroutines that
    accepted an answer and have not cleared the flag, permit holders. *)
Definition negotiating (t : thread) : bool :=
  match t with NegotiateStarted | OfferMade _ => true | _ => false end.
Definition settling (t : thread) : bool :=
  match t with AnswerApplied => true | _ => false end.
Definition holding (t : thread) : bool :=
  match t with OfferApplied | AnswerMade _ | OfferMade _ => true | _ => false end.

Definition is_offer (e : neg_event) : bool := match e with SentOffer _ => true | _ => false end.
Definition is_accepted (e : neg_event) : bool := match e with AcceptedAnswer _ => true | _ => false end.

Definition outstanding (st : sig_state) : nat := match st with HaveLocalOffer => 1 | _ => 0 end.

Record neg_inv (cap : nat) (s : peer) (w : list neg_event) : Prop := mkNegInv {
  ni_states : SignalingState (pc s) ≠ HaveLocalPranswer ∧ SignalingState (pc s) ≠ HaveRemotePranswer;
  ni_flag : SignalingState (pc s) ≠ ClosedState →
    (tally negotiating (threads s) + outstanding (SignalingState (pc s)) + tally settling (threads s)
     = b2n (makingOffer s))%nat;
  ni_offers : SignalingState (pc s) ≠ ClosedState →
    (tally is_offer w = tally is_accepted w + outstanding (SignalingState (pc s)))%nat;
  ni_bound : (tally is_accepted w ≤ tally is_offer w ≤ S (tally is_accepted w))%nat;
  ni_permits : permits s = tally holding (threads s);
  ni_cap : (permits s ≤ cap)%nat;
  ni_started : started s = completed s + failed s + Z.of_nat (tally negotiating (threads s));
  ni_completed : completed s = Z.of_nat (tally is_offer w)
}.

Context `{!PeerConnectionLaws PC}.

Lemma flush_run s :
  outputs flushPendingCandidates s = [] ∧
  ∃ c, final flushPendingCandidates s = set_pc c (set_cands [] s) ∧
       SignalingState c = SignalingState (pc s).
Proof.
  unfold flushPendingCandidates. autorewrite with mrun. simpl.
  assert (∀ l s, let m := for_each l (λ c, modify (λ s,
      match AddICECandidate c (pc s) with Some pc' => set_pc pc' s | None => s end) : NM unit) in
    outputs m s = [] ∧ ∃ c, final m s = set_pc c s ∧ SignalingState c = SignalingState (pc s)) as Hl.
  { clear s. induction l as [|c l IH]; intros s; simpl.
    - split; [done|]. exists (pc s). by destruct s.
    - autorewrite with mrun. destruct (AddICECandidate c (pc s)) as [pc'|] eqn:E.
      + destruct (IH (set_pc pc' s)) as [-> (c' & -> & Hc)]. split; [done|]. exists c'.
        split; [done|]. rewrite Hc. simpl. by eapply add_candidate.
      + apply IH. }
  destruct (Hl (pendingCands s) (set_cands [] s)) as [-> (c & -> & Hc)]. eauto.
Qed.

(** [s] while one of its goroutines, which stood at [t], is running. *)
Definition running (cap : nat) (t : thread) (s : peer) (w : list neg_event) : Prop :=
  neg_inv cap (set_threads (t :: threads s) s) w.

Ltac neg_open :=
  let Hst := fresh in intros Hst;
  repeat match goal with
  | Hc : _ ≠ ClosedState → _ |- _ => first [specialize (Hc Hst) | specialize (Hc ltac:(discriminate))]
  end; lia.

Ltac neg_solve :=
  match goal with
  | Hi : neg_inv _ _ _ |- _ => destruct Hi as [[? ?] ? ? ? ? ? ? ?]
  end;
  split; simpl in *; rewrite ?app_nil_r, ?tally_app in *; simpl in *;
  repeat match goal with E : SignalingState _ = _ |- _ => rewrite E in * end; simpl in *;
  try (split; congruence);
  repeat match goal with Hc : _ ≠ ClosedState → _ |- _ => specialize (Hc ltac:(discriminate)) end;
  try (destruct (makingOffer _); simpl in *; lia);
  try (destruct (makingOffer _); simpl in *; neg_open); try neg_open; try congruence.

Lemma offer_apply_inv cap sdp s w :
  (permits s < cap)%nat → running cap (OfferChecked sdp) s w →
  neg_inv cap (final (offer_apply sdp) s) (w ++ outputs (offer_apply sdp) s).
Proof.
  intros Hcap Hi. unfold running, offer_apply, acquire, release, continue_at in *. autorewrite with mrun. simpl.
  destruct (SetRemoteDescription SDPTypeOffer sdp (pc s)) as [pc'|] eqn:E; autorewrite with mrun; simpl; [|by neg_solve].
  destruct (remote_offer _ _ _ E) as [Hs Hs'].
  destruct (flush_run (set_pc pc' (set_permits (S (permits s)) s))) as [-> (c & -> & Hc)].
  simpl in *. rewrite Hs' in Hc. destruct Hs as [Hs|Hs]; neg_solve.
Qed.

Lemma offer_create_answer_inv cap s w :
  running cap OfferApplied s w →
  neg_inv cap (final offer_create_answer s) (w ++ outputs offer_create_answer s).
Proof.
  intros Hi. unfold running, offer_create_answer, release, continue_at in *. autorewrite with mrun. simpl.
  destruct (CreateAnswer (pc s)); autorewrite with mrun; simpl; neg_solve.
Qed.

Lemma offer_finish_inv cap answer s w :
  running cap (AnswerMade answer) s w →
  neg_inv cap (final (offer_finish answer) s) (w ++ outputs (offer_finish answer) s).
Proof.
  intros Hi. unfold running, offer_finish, release in *. autorewrite with mrun. simpl.
  destruct (SetLocalDescription SDPTypeAnswer answer (pc s)) as [pc'|] eqn:E; autorewrite with mrun; simpl;
    [|by neg_solve].
  destruct (local_answer _ _ _ E) as [[Hs|Hs] Hs']; neg_solve.
Qed.

Lemma negotiate_inv cap s w :
  neg_inv cap s w → neg_inv cap (final negotiate s) (w ++ outputs negotiate s).
Proof.
  intros Hi. unfold negotiate, continue_at. autorewrite with mrun. simpl.
  destruct (closed s); autorewrite with mrun; [by rewrite app_nil_r|].
  destruct (makingOffer s) eqn:Em; simpl; autorewrite with mrun; simpl.
  - neg_solve.
  - destruct (bool_decide (SignalingState (pc s) = Stable)) eqn:Es; simpl; autorewrite with mrun; simpl.
    + apply bool_decide_eq_true in Es. neg_solve.
    + neg_solve.
Qed.

Lemma negotiate_create_inv cap s w :
  (permits s < cap)%nat → running cap NegotiateStarted s w →
  neg_inv cap (final negotiate_create s) (w ++ outputs negotiate_create s).
Proof.
  intros Hcap Hi. unfold running, negotiate_create, acquire, release, clearMakingOffer, continue_at in *.
  autorewrite with mrun. simpl.
  destruct (CreateOffer (pc s)); autorewrite with mrun; simpl; neg_solve.
Qed.

Lemma negotiate_finish_inv cap offer s w :
  running cap (OfferMade offer) s w →
  neg_inv cap (final (negotiate_finish offer) s) (w ++ outputs (negotiate_finish offer) s).
Proof.
  intros Hi. unfold running, negotiate_finish, release, clearMakingOffer in *. autorewrite with mrun. simpl.
  destruct (SetLocalDescription SDPTypeOffer offer (pc s)) as [pc'|] eqn:E; autorewrite with mrun; simpl.
  - destruct (local_offer _ _ _ E) as [[Hs|Hs] Hs']; neg_solve.
  - neg_solve.
Qed.

Lemma answer_apply_inv cap sdp s w :
  (permits s < cap)%nat → running cap (AnswerReceived sdp) s w →
  neg_inv cap (final (answer_apply sdp) s) (w ++ outputs (answer_apply sdp) s).
Proof.
  intros Hcap Hi. unfold running, answer_apply, acquire, release, continue_at in *. autorewrite with mrun. simpl.
  destruct (SetRemoteDescription SDPTypeAnswer sdp (pc s)) as [pc'|] eqn:E; autorewrite with mrun; simpl; [|by neg_solve].
  destruct (remote_answer _ _ _ E) as [Hs Hs'].
  destruct (flush_run (set_permits (permits s) (set_pc pc' (set_permits (S (permits s)) s)))) as [-> (c & -> & Hc)].
  simpl in *. rewrite Hs' in Hc. destruct Hs as [Hs|Hs]; neg_solve.
Qed.

Lemma answer_settle_inv cap s w :
  running cap AnswerApplied s w →
  neg_inv cap (final answer_settle s) (w ++ outputs answer_settle s).
Proof.
  intros Hi. unfold running, answer_settle in *. autorewrite with mrun. simpl.
  assert (neg_inv cap (set_flags false false (negotiateTimer s) (closed s) s) w) as H1.
  { neg_solve. }
  destruct (needNegotiate s); simpl; [|by rewrite app_nil_r].
  by apply negotiate_inv.
Qed.

Lemma run_thread_inv cap t s w :
  (needs_permit t = true → (permits s < cap)%nat) → running cap t s w →
  neg_inv cap (final (run_thread t) s) (w ++ outputs (run_thread t) s).
Proof.
  intros Hcap Hi. destruct t; simpl in Hcap |- *.
  - by apply offer_apply_inv; [apply Hcap|].
  - by apply offer_create_answer_inv.
  - by apply offer_finish_inv.
  - by apply answer_apply_inv; [apply Hcap|].
  - by apply answer_settle_inv.
  - by apply negotiate_create_inv; [apply Hcap|].
  - by apply negotiate_finish_inv.
  - apply negotiate_inv. unfold running in Hi. neg_solve.
  - unfold running in Hi. autorewrite with mrun. pose proof (close_state (pc s)). neg_solve.
Qed.

Lemma resume_running cap t i s w :
  neg_inv cap s w → threads s !! i = Some t →
  running cap t (set_threads (delete i (threads s)) s) w.
Proof.
  intros [? ? ? ? ? ? ? ?] Ht. unfold running.
  pose proof (tally_delete negotiating _ _ _ Ht). pose proof (tally_delete settling _ _ _ Ht).
  pose proof (tally_delete holding _ _ _ Ht).
  split; simpl; try done; try lia. intros Hst. rewrite <- ni_flag0 by done. lia.
Qed.

Lemma act_inv cap a s w :
  neg_inv cap s w → enabled cap s a = true →
  neg_inv cap (final (act a) s) (w ++ outputs (act a) s).
Proof.
  intros Hi Hen. destruct a; simpl.
  - unfold HandleOffer, continue_at. autorewrite with mrun.
    case_match; autorewrite with mrun; neg_solve.
  - unfold continue_at. autorewrite with mrun. neg_solve.
  - unfold HandleICECandidate. autorewrite with mrun.
    destruct (HasRemoteDescription (pc s)); simpl; autorewrite with mrun; simpl; [|neg_solve].
    destruct (AddICECandidate c (pc s)) as [pc'|] eqn:E; autorewrite with mrun; simpl;
      [|by rewrite app_nil_r].
    pose proof (add_candidate _ _ _ E) as Hs. destruct Hi as [[? ?] ? ? ? ? ? ? ?].
    split; simpl; rewrite ?app_nil_r, ?Hs; try done.
  - unfold scheduleNegotiate. autorewrite with mrun.
    repeat case_match; autorewrite with mrun; neg_solve.
  - unfold close, continue_at. autorewrite with mrun.
    case_match; autorewrite with mrun; neg_solve.
  - unfold timer_fired, continue_at. autorewrite with mrun. neg_solve.
  - autorewrite with mrun. simpl in Hen. destruct (threads s !! i) as [t|] eqn:Ht; [|done].
    autorewrite with mrun. simpl. apply run_thread_inv; [|by apply resume_running].
    intros Hn. simpl. rewrite Hn in Hen. simpl in Hen. by apply Nat.ltb_lt.
Qed.

Lemma reaches_inv cap s w : reaches cap s w → neg_inv cap s w.
Proof.
  induction 1 as [c Hc|s w a _ IH Hen]; [|by apply act_inv].
  split; simpl; rewrite ?Hc; try done; lia.
Qed.
End negotiation.

Arguments peer PC : clear implicits.

(** ** What holds for every library *)

(** C22: one SFU offer at a time.  Whatever the interleaving of the handlers, and
    for every WebRTC library that obeys the signaling-state table: at most one
    offer sent to the browser has no accepted answer; as long as the connection
    is open, [makingOffer] is set exactly while one negotiation is in flight (a
    goroutine is preparing the offer, or it waits for the answer, or the answer
    is being settled), never two; the permits of the limiter in use are those of
    the goroutines inside an SDP operation, within the capacity; and every
    negotiation started is completed, failed or still in flight. *)
Theorem one_offer_in_flight {PC} `{PeerConnectionLaws PC} (cap : nat) (s : peer PC) (w : list neg_event) :
  reaches cap s w →
  (tally is_accepted w ≤ tally is_offer w ≤ S (tally is_accepted w))%nat ∧
  (SignalingState (pc s) ≠ ClosedState →
     (tally negotiating (threads s) + outstanding (SignalingState (pc s)) + tally settling (threads s)
      = b2n (makingOffer s))%nat) ∧
  permits s = tally holding (threads s) ∧ (permits s ≤ cap)%nat ∧
  started s = completed s + failed s + Z.of_nat (tally negotiating (threads s)) ∧
  completed s = Z.of_nat (tally is_offer w).
Proof. intros [? ? ? ? ? ? ? ?]%reaches_inv. split_and!; done || lia. Qed.

(** ** The least library *)

Record jsep := mkJsep { j_state : sig_state; j_remote : bool }.

(** The signaling-state table itself; an empty description is malformed. *)
#[export] Instance jsep_pc : PeerConnection jsep := {
  SignalingState := j_state;
  HasRemoteDescription := j_remote;
  SetRemoteDescription ty sdp c :=
    if decide (sdp = "") then None
    else match ty, j_state c with
         | SDPTypeOffer, (Stable | HaveRemoteOffer) => Some (mkJsep HaveRemoteOffer true)
         | SDPTypeAnswer, (HaveLocalOffer | HaveRemotePranswer) => Some (mkJsep Stable true)
         | _, _ => None
         end;
  SetLocalDescription ty sdp c :=
    match ty, j_state c with
    | SDPTypeOffer, (Stable | HaveLocalOffer) => Some (mkJsep HaveLocalOffer (j_remote c))
    | SDPTypeAnswer, (HaveRemoteOffer | HaveLocalPranswer) => Some (mkJsep Stable (j_remote c))
    | _, _ => None
    end;
  CreateOffer c := match j_state c with ClosedState => None | _ => Some "v=0 offer" end;
  CreateAnswer c := match j_state c with HaveRemoteOffer => Some "v=0 answer" | _ => None end;
  AddICECandidate cand c := if j_remote c then Some c else None;
  pc_Close c := mkJsep ClosedState (j_remote c)
}.

#[export] Instance jsep_laws : PeerConnectionLaws jsep.
Proof.
  split; simpl; intros; repeat case_match; simplify_eq/=; auto.
Qed.

Fixpoint run_actions (cap : nat) (l : list action) (s : peer jsep) (w : list neg_event)
    : option (peer jsep * list neg_event) :=
  match l with
  | [] => Some (s, w)
  | a :: l => if enabled cap s a then run_actions cap l (final (act a) s) (w ++ outputs (act a) s) else None
  end.

Lemma run_actions_reaches cap l s w s' w' :
  reaches cap s w → run_actions cap l s w = Some (s', w') → reaches cap s' w'.
Proof.
  revert s w. induction l as [|a l IH]; simpl; intros s w Hs E; [by simplify_eq|].
  destruct (enabled cap s a) eqn:Hen; [|done]. eapply IH; [|exact E]. by constructor.
Qed.

Definition fresh_peer : peer jsep := start (mkJsep Stable false).

(** A forwarded track is added: the debounced timer fires, the SFU offers and the
    browser answers. *)
Definition sfu_offers : list action :=
  [CallSchedule; TimerFires; Resume 0; Resume 0; Resume 0].

Lemma one_offer_in_flight_witness :
  run_actions 1 sfu_offers fresh_peer [] =
    Some (mkPeer (mkJsep HaveLocalOffer false) [] true false false false [] 0 1 1 0 0, [SentOffer "v=0 offer"]) ∧
  (tally is_accepted [SentOffer "v=0 offer"] ≤ tally is_offer [SentOffer "v=0 offer"]
   ≤ S (tally is_accepted [SentOffer "v=0 offer"]))%nat.
Proof.
  split; [vm_compute; reflexivity|].
  apply (one_offer_in_flight 1 (mkPeer (mkJsep HaveLocalOffer false) [] true false false false [] 0 1 1 0 0)
    [SentOffer "v=0 offer"]).
  eapply (run_actions_reaches 1 sfu_offers fresh_peer []); [by constructor|vm_compute; reflexivity].
Defined.

(** ** Requests that get lost *)

(** The browser's offer is being answered when the debounce timer fires. *)
Definition deferred_while_answering : list action :=
  [CallOffer "v=0"; Resume 0; CallSchedule; TimerFires; Resume 1; Resume 0; Resume 0].

(** A renegotiation deferred while a browser offer is being answered is
    stranded.  [negotiate] remembers it in [needNegotiate], but only
    [HandleAnswer] looks at the flag, and no answer is due: a state is reachable
    in which the connection is stable and open, nothing is in flight and no timer
    is pending, the renegotiation is still needed and no offer was ever sent. *)
Theorem deferred_negotiation_stranded :
  ∃ (s : peer jsep) w, reaches 1 s w ∧ SignalingState (pc s) = Stable ∧ closed s = false ∧
    threads s = [] ∧ negotiateTimer s = false ∧ makingOffer s = false ∧
    needNegotiate s = true ∧ tally is_offer w = 0%nat.
Proof.
  eexists _, _. split.
  - eapply (run_actions_reaches 1 deferred_while_answering fresh_peer []); [by constructor|].
    vm_compute. reflexivity.
  - by vm_compute.
Qed.

(** The browser's offer passes the collision check, then the SFU claims the
    negotiation; the browser's offer is applied first, so the SFU's own offer is
    refused by the library: the failure is counted and nothing remembers that a
    renegotiation is due. *)
Example negotiation_lost_in_glare :
  (λ r, (needNegotiate r.1, failed r.1, negotiateTimer r.1, r.2)) <$>
    run_actions 2 [CallOffer "v=0"; CallSchedule; TimerFires; Resume 1; Resume 0; Resume 0; Resume 1; Resume 0; Resume 0]
      fresh_peer []
  = Some (false, 1, false, [SentAnswer "v=0 answer"]).
Proof. vm_compute. reflexivity. Qed.
