(* ===== verification/MediaWire.v ===== *)
(** * The wire format of cross-node media (internal/cluster/media_transport.go)

    Datagrams between two SFU nodes: the frame with its header, the payload of
    RTP and RTCP frames (a track key and the packet), and the authenticated HELLO.
    HMAC-SHA256 is a parameter; all the format relies on is the length of its
    result.  The theorems: what a node encodes is what the peer decodes, byte for
    byte, within the widths of the length fields, and what happens beyond them;
    every accepted datagram is the encoding of what was decoded. *)

From S2P Require Import Prelude Bytes.

(** src/internal/cluster/media_transport.go:53-63 [frame constants] *)
Definition mediaMagic : byte := x9c.
Definition mediaVersion : byte := x01.
Definition mediaHeaderSize : Z := 21.
Definition frameHello : byte := x00.
Definition frameRTP : byte := x01.
Definition frameRTCP : byte := x02.
Definition frameHeartbeat : byte := x03.
Definition frameBye : byte := x04.

(** A session id is a [[16]byte]. *)
Definition is_session_id (sid : list byte) : Prop := length sid = 16%nat.

(** ** Frames *)

(** src/internal/cluster/media_transport.go:74-83 [encodeFrame] *)
Definition encodeFrame (kind : byte) (sessionID payload : list byte) : list byte :=
  [mediaMagic; mediaVersion; kind] ++ sessionID ++ put_uint16 (blen payload) ++ payload.

(** src/internal/cluster/media_transport.go:85-89 [parsedFrame] *)
Record parsedFrame := mkFrame {
  f_kind : byte;
  f_sessionID : list byte;
  f_payload : list byte
}.

(** src/internal/cluster/media_transport.go:91-104 [decodeFrame] *)
Definition decodeFrame (b : list byte) : option parsedFrame :=
  if (blen b <? mediaHeaderSize) || negb (bool_decide (byte_at b 0 = mediaMagic))
     || negb (bool_decide (byte_at b 1 = mediaVersion)) then None
  else
    let plen := uint16 (byte_at b 19) (byte_at b 20) in
    if blen b <? mediaHeaderSize + plen then None
    else Some (mkFrame (byte_at b 2) (slice 3 19 b)
                 (slice mediaHeaderSize (mediaHeaderSize + plen) b)).

(** ** Keyed payloads *)

(** src/internal/cluster/media_transport.go:106-115 [encodeKeyed] *)
Definition encodeKeyed (key : string) (packet : list byte) : list byte :=
  let key := if 255 <? blen (bytes_of key) then slice 0 255 (bytes_of key) else bytes_of key in
  byte_of_Z (blen key) :: key ++ packet.

(** src/internal/cluster/media_transport.go:117-126 [decodeKeyed] *)
Definition decodeKeyed (payload : list byte) : option (string * list byte) :=
  if blen payload <? 1 then None
  else
    let kl := Z_of_byte (byte_at payload 0) in
    if blen payload <? 1 + kl then None
    else Some (string_of (slice 1 (1 + kl) payload), slice (1 + kl) (blen payload) payload).

(** ** HELLO *)

Definition sha256_Size : Z := 32.

(** src/internal/cluster/media_transport.go:65-72 [helloMAC]  The bytes written
    into the MAC, one after the other. *)
Definition helloMAC_input (sessionID : list byte) (src dst : string) : list byte :=
  sessionID ++ bytes_of src ++ [x00] ++ bytes_of dst.

(** src/internal/cluster/media_transport.go:65-72 [helloMAC] *)
Definition helloMAC (hmac : list byte → list byte → list byte) (secret : string)
    (sessionID : list byte) (src dst : string) : list byte :=
  hmac (bytes_of secret) (helloMAC_input sessionID src dst).

(** src/internal/cluster/media_conn.go:91-102 [sendHello]  The payload; sending
    it is [sendHello] of MediaTransport. *)
Definition hello_payload (src dst : string) (mac : list byte) : list byte :=
  byte_of_Z (blen (bytes_of src)) :: bytes_of src
  ++ byte_of_Z (blen (bytes_of dst)) :: bytes_of dst ++ mac.

(** src/internal/cluster/media_transport.go:312-330 [parseHello] *)
Definition parseHello (p : list byte) : option (string * string * list byte) :=
  if blen p <? 1 then None
  else
    let sl := Z_of_byte (byte_at p 0) in
    if blen p <? 1 + sl + 1 then None
    else
      let src := string_of (slice 1 (1 + sl) p) in
      let off := 1 + sl in
      let dl := Z_of_byte (byte_at p off) in
      let off := off + 1 in
      if negb (off + dl + sha256_Size =? blen p) then None
      else Some (src, string_of (slice off (off + dl) p), slice (off + dl) (blen p) p).

(** ** Slices of a concatenation *)

Lemma blen_app a b : blen (a ++ b) = blen a + blen b.
Proof. unfold blen. rewrite length_app. lia. Qed.

Lemma blen_cons x a : blen (x :: a) = 1 + blen a.
Proof. unfold blen. simpl. lia. Qed.

Lemma blen_nonneg a : 0 ≤ blen a.
Proof. unfold blen. lia. Qed.

(** The part of [a ++ b ++ c] that [b] occupies. *)
Lemma slice_middle {A} (a b c : list A) lo hi :
  lo = Z.of_nat (length a) → hi = lo + Z.of_nat (length b) → slice lo hi (a ++ b ++ c) = b.
Proof.
  intros -> ->. unfold slice.
  replace (Z.to_nat (_ + _ - _)) with (length b) by lia.
  rewrite Nat2Z.id, drop_app_length. by rewrite take_app_length.
Qed.

Lemma slice_rest {A} (a b : list A) lo hi :
  lo = Z.of_nat (length a) → hi = Z.of_nat (length (a ++ b)) → slice lo hi (a ++ b) = b.
Proof.
  intros -> ->. rewrite <- (app_nil_r b) at 2. apply slice_middle; [done|].
  rewrite length_app. lia.
Qed.

Lemma byte_at_middle a x c i : i = blen a → byte_at (a ++ x :: c) i = x.
Proof.
  intros ->. unfold byte_at, blen. rewrite Nat2Z.id, lookup_app_r by lia.
  by rewrite Nat.sub_diag.
Qed.

Ltac blen := repeat (rewrite blen_cons in * || rewrite blen_app in * ); unfold blen in *; simpl in *; try lia.

(** ** Frames: round trips *)

(** [encodeFrame] followed by [decodeFrame] on a datagram with trailing bytes:
    the payload comes back cut to its length modulo 2^16. *)
Lemma decode_encode_frame kind sid payload rest :
  is_session_id sid →
  decodeFrame (encodeFrame kind sid payload ++ rest)
  = Some (mkFrame kind sid (take (Z.to_nat (blen payload mod 65536)) (payload ++ rest))).
Proof.
  intros Hs. unfold is_session_id in Hs.
  do 16 (destruct sid as [|? sid]; [done|]). destruct sid; [clear Hs|done].
  unfold decodeFrame, encodeFrame, put_uint16. simpl app.
  set (v := blen payload mod 65536).
  assert (0 ≤ v ≤ blen payload) as Hv.
  { pose proof (blen_nonneg payload). split; [apply Z.mod_pos_bound; lia|].
    by apply Z.mod_le. }
  match goal with |- (if ?c then _ else _) = _ => replace c with false end.
  2: { symmetry. rewrite orb_false_iff, orb_false_iff. split_and!;
         [|done..]. apply Z.ltb_ge. unfold mediaHeaderSize. blen. }
  change (byte_at _ 19) with (byte_of_Z (Z.shiftr v 8)). change (byte_at _ 20) with (byte_of_Z v).
  pose proof (uint16_put (blen payload)) as Hu. fold v in Hu. simpl in Hu. rewrite Hu. clear Hu.
  replace (_ <? _) with false.
  2: { symmetry. apply Z.ltb_ge. unfold mediaHeaderSize. blen. }
  f_equal. f_equal. unfold slice, mediaHeaderSize.
  by replace (Z.to_nat (21 + v - 21)) with (Z.to_nat v) by lia.
Qed.

Lemma decode_encode_frame_exact kind sid payload rest :
  is_session_id sid → blen payload < 65536 →
  decodeFrame (encodeFrame kind sid payload ++ rest) = Some (mkFrame kind sid payload).
Proof.
  intros Hs Hp. rewrite decode_encode_frame by done.
  rewrite Z.mod_small by (split; [apply blen_nonneg|done]). unfold blen.
  by rewrite Nat2Z.id, take_app_length.
Qed.

(** A list cut at a checked index. *)
Lemma split_at (b : list byte) n :
  0 ≤ n ≤ blen b → b = slice 0 n b ++ slice n (blen b) b.
Proof.
  intros H. unfold slice, blen in *. rewrite (take_ge (drop (Z.to_nat n) b)) by (rewrite length_drop; lia).
  rewrite drop_0, Z.sub_0_r. by rewrite take_drop.
Qed.

Lemma length_slice {A} lo hi (b : list A) :
  0 ≤ lo ≤ hi → hi ≤ Z.of_nat (length b) → length (slice lo hi b) = Z.to_nat (hi - lo).
Proof. intros H1 H2. unfold slice. rewrite length_take, length_drop. lia. Qed.

(** Every accepted datagram is an encoding of what was decoded, followed by
    bytes that are ignored. *)
Lemma decodeFrame_sound b f :
  decodeFrame b = Some f →
  is_session_id (f_sessionID f) ∧ blen (f_payload f) < 65536
  ∧ ∃ rest, b = encodeFrame (f_kind f) (f_sessionID f) (f_payload f) ++ rest.
Proof.
  unfold decodeFrame. destruct (_ || _) eqn:E1; [done|].
  apply orb_false_iff in E1 as [E1 Hv]. apply orb_false_iff in E1 as [Hl Hm].
  apply negb_false_iff, bool_decide_eq_true in Hm, Hv. apply Z.ltb_ge in Hl.
  unfold mediaHeaderSize in *.
  do 21 (destruct b as [|? b]; [unfold blen in Hl; simpl in Hl; lia|]).
  unfold byte_at in Hm, Hv. simpl in Hm, Hv. subst.
  change (byte_at _ 19) with b19. change (byte_at _ 20) with b20.
  pose proof (uint16_range b19 b20) as Hr. set (n := uint16 b19 b20) in *.
  destruct (_ <? _) eqn:E2; [done|]. apply Z.ltb_ge in E2. intros [= <-]. cbn [f_kind f_sessionID f_payload].
  assert (n ≤ blen b) as Hn by blen. clear E2 Hl.
  assert (slice 21 (21 + n) (mediaMagic :: mediaVersion :: b2 :: b3 :: b4 :: b5 :: b6 :: b7 :: b8
    :: b9 :: b10 :: b11 :: b12 :: b13 :: b14 :: b15 :: b16 :: b17 :: b18 :: b19 :: b20 :: b)
    = slice 0 n b) as Hs.
  { unfold slice. by replace (Z.to_nat (21 + n - 21)) with (Z.to_nat (n - 0)) by lia. }
  split_and!; [done| |].
  - rewrite Hs. unfold blen in *. rewrite length_slice; lia.
  - exists (slice n (blen b) b). rewrite Hs. unfold encodeFrame.
    assert (blen (slice 0 n b) = n) as ->.
    { unfold blen in *. rewrite length_slice; lia. }
    pose proof (put_uint16_uint16 b19 b20) as Hp. fold n in Hp. rewrite Hp.
    rewrite (split_at b n) at 1 by lia. reflexivity.
Qed.

(** ** Keyed payloads and HELLO: round trips *)

Lemma decode_encode_keyed key packet :
  decodeKeyed (encodeKeyed key packet) = Some (string_of (take 255 (bytes_of key)), packet).
Proof.
  unfold decodeKeyed, encodeKeyed.
  set (k := if 255 <? blen (bytes_of key) then _ else _).
  assert (k = take 255 (bytes_of key)) as Hk.
  { subst k. destruct (255 <? _) eqn:E; [done|]. apply Z.ltb_ge in E. rewrite take_ge; [done|].
    unfold blen in E. lia. }
  assert (blen k < 256) as Hl by (rewrite Hk; unfold blen; rewrite length_take; lia).
  rewrite <- Hk. clear Hk. clearbody k. pose proof (blen_nonneg k).
  change (byte_at _ 0) with (byte_of_Z (blen k)). rewrite Z_of_byte_of_Z, Z.mod_small by done.
  destruct (_ <? 1) eqn:E; [apply Z.ltb_lt in E; blen|clear E].
  destruct (_ <? _) eqn:E; [apply Z.ltb_lt in E; blen|clear E].
  f_equal. f_equal.
  - f_equal. apply (slice_middle [_] k packet); [done|]. unfold blen. lia.
  - apply (slice_rest (_ :: k) packet); unfold blen; simpl; lia.
Qed.

Lemma decodeKeyed_sound p key packet :
  decodeKeyed p = Some (key, packet) →
  p = encodeKeyed key packet ∧ blen (bytes_of key) ≤ 255.
Proof.
  unfold decodeKeyed. destruct p as [|k p]; [done|].
  destruct (_ <? 1); [done|]. change (byte_at _ 0) with k.
  destruct (_ <? _) eqn:E; [done|]. apply Z.ltb_ge in E. pose proof (Z_of_byte_range k).
  intros [= <- <-]. rewrite bytes_of_string_of. unfold encodeKeyed. rewrite bytes_of_string_of.
  assert (slice 1 (1 + Z_of_byte k) (k :: p) = slice 0 (Z_of_byte k) p) as ->.
  { unfold slice. by replace (Z.to_nat (1 + _ - 1)) with (Z.to_nat (Z_of_byte k - 0)) by lia. }
  assert (slice (1 + Z_of_byte k) (blen (k :: p)) (k :: p) = slice (Z_of_byte k) (blen p) p) as ->.
  { unfold slice. replace (Z.to_nat (1 + Z_of_byte k)) with (S (Z.to_nat (Z_of_byte k))) by lia.
    rewrite blen_cons. by replace (1 + blen p - (1 + Z_of_byte k)) with (blen p - Z_of_byte k) by lia. }
  rewrite blen_cons in E.
  assert (blen (slice 0 (Z_of_byte k) p) = Z_of_byte k) as Hl.
  { unfold blen in *. rewrite length_slice; lia. }
  rewrite Hl. split; [|lia]. destruct (255 <? _) eqn:E2; [apply Z.ltb_lt in E2; lia|].
  rewrite Hl, byte_of_Z_of_byte. f_equal. apply split_at. lia.
Qed.

Lemma parse_hello src dst mac :
  blen (bytes_of src) < 256 → blen (bytes_of dst) < 256 → blen mac = sha256_Size →
  parseHello (hello_payload src dst mac) = Some (src, dst, mac).
Proof.
  intros Hs Hd Hm. unfold parseHello, hello_payload.
  set (s := bytes_of src) in *. set (d := bytes_of dst) in *.
  pose proof (blen_nonneg s). pose proof (blen_nonneg d). unfold sha256_Size in *.
  set (p := _ :: _). change (byte_at p 0) with (byte_of_Z (blen s)).
  assert (blen p = blen s + blen d + 34) as Hp by (subst p; blen).
  rewrite Hp, !Z_of_byte_of_Z, (Z.mod_small (blen s)) by done.
  destruct (_ <? 1) eqn:E; [apply Z.ltb_lt in E; lia|clear E].
  destruct (_ <? _) eqn:E; [apply Z.ltb_lt in E; lia|clear E].
  assert (byte_at p (1 + blen s) = byte_of_Z (blen d)) as ->.
  { by apply (byte_at_middle (_ :: s)); rewrite blen_cons. }
  rewrite Z_of_byte_of_Z, Z.mod_small by done.
  destruct (_ =? _) eqn:E; [|apply Z.eqb_neq in E; lia]. clear E. simpl negb. cbv iota.
  assert (p = (byte_of_Z (blen s) :: s ++ [byte_of_Z (blen d)]) ++ d ++ mac) as E3
    by (subst p; simpl; by rewrite <- app_assoc).
  assert (p = (byte_of_Z (blen s) :: s ++ byte_of_Z (blen d) :: d) ++ mac) as E4
    by (subst p; simpl; by rewrite <- app_assoc).
  assert (slice 1 (1 + blen s) p = s) as ->.
  { apply (slice_middle [_] s); unfold blen; simpl; lia. }
  unfold s at 1. rewrite string_of_bytes_of. rewrite E3 at 1. rewrite E4 at 1.
  rewrite slice_middle, slice_rest; [|unfold blen in *; simpl; rewrite ?length_app; simpl;
    rewrite ?length_app; simpl; lia..].
  unfold d. by rewrite string_of_bytes_of.
Qed.

Lemma slice_split lo mid hi (b : list byte) :
  0 ≤ lo ≤ mid → mid ≤ hi → slice lo hi b = slice lo mid b ++ slice mid hi b.
Proof.
  intros H1 H2. unfold slice.
  replace (Z.to_nat (hi - lo)) with (Z.to_nat (mid - lo) + Z.to_nat (hi - mid))%nat by lia.
  rewrite <- take_take_drop, drop_drop. f_equal. f_equal. f_equal. lia.
Qed.

Lemma slice_one i (b : list byte) : 0 ≤ i < blen b → slice i (i + 1) b = [byte_at b i].
Proof.
  intros H. unfold slice, byte_at, blen in *. replace (i + 1 - i) with 1 by lia.
  destruct (lookup_lt_is_Some_2 b (Z.to_nat i)) as [x Hx]; [lia|].
  by rewrite (drop_S _ _ _ Hx), Hx.
Qed.

Lemma slice_all (b : list byte) : slice 0 (blen b) b = b.
Proof. unfold slice, blen. rewrite drop_0, take_ge by lia. done. Qed.

Lemma parseHello_sound p src dst mac :
  parseHello p = Some (src, dst, mac) →
  p = hello_payload src dst mac ∧ blen mac = sha256_Size
  ∧ blen (bytes_of src) < 256 ∧ blen (bytes_of dst) < 256.
Proof.
  unfold parseHello. destruct (_ <? 1) eqn:E1; [done|]. apply Z.ltb_ge in E1.
  set (sl := Z_of_byte (byte_at p 0)). pose proof (Z_of_byte_range (byte_at p 0)) as Hs. fold sl in Hs.
  destruct (_ <? _) eqn:E2; [done|]. apply Z.ltb_ge in E2.
  set (dl := Z_of_byte (byte_at p (1 + sl))).
  pose proof (Z_of_byte_range (byte_at p (1 + sl))) as Hd. fold dl in Hd.
  destruct (_ =? _) eqn:E3; [|done]. apply Z.eqb_eq in E3. unfold sha256_Size in *.
  intros [= <- <- <-]. unfold hello_payload. rewrite !bytes_of_string_of.
  assert (blen (slice 1 (1 + sl) p) = sl) as ->.
  { unfold blen in *. rewrite length_slice; lia. }
  assert (blen (slice (1 + sl + 1) (1 + sl + 1 + dl) p) = dl) as ->.
  { unfold blen in *. rewrite length_slice; lia. }
  assert (blen (slice (1 + sl + 1 + dl) (blen p) p) = 32) as ->.
  { unfold blen in *. rewrite length_slice; lia. }
  split_and!; [|lia..]. subst sl dl. rewrite !byte_of_Z_of_byte.
  set (sl := Z_of_byte _) in *. set (dl := Z_of_byte (byte_at p (1 + sl))) in *.
  rewrite <- (slice_all p) at 1.
  rewrite (slice_split 0 1), (slice_one 0) by lia. simpl. f_equal.
  rewrite (slice_split 1 (1 + sl)) by lia. f_equal.
  rewrite (slice_split _ (1 + sl + 1)), slice_one by lia. simpl. f_equal.
  apply slice_split; lia.
Qed.

(** ** What the MAC covers *)

(** The bytes under the MAC determine the session and both node ids, as long as
    node ids contain no NUL byte (the separator). *)
Lemma helloMAC_input_inj sid src dst sid' src' dst' :
  is_session_id sid → is_session_id sid' →
  x00 ∉ bytes_of src → x00 ∉ bytes_of src' →
  helloMAC_input sid src dst = helloMAC_input sid' src' dst' →
  sid = sid' ∧ src = src' ∧ dst = dst'.
Proof.
  unfold is_session_id, helloMAC_input. intros H1 H2 N1 N2 E.
  apply app_inj_1 in E as [-> E]; [|lia]. split; [done|]. clear H1 H2.
  assert (bytes_of src = bytes_of src' ∧ bytes_of dst = bytes_of dst') as [Es Ed].
  { revert N1 N2 E. generalize (bytes_of src) (bytes_of src'). intros l.
    induction l as [|a l IH]; intros [|a' l'] N1 N2 E; simpl in E; injection E.
    - done.
    - intros _ <-. destruct N2. apply elem_of_cons. by left.
    - intros _ ->. destruct N1. apply elem_of_cons. by left.
    - intros E' ->. apply not_elem_of_cons in N1 as [_ N1], N2 as [_ N2].
      destruct (IH l' N1 N2 E') as [-> ->]. done. }
  split; by apply (inj bytes_of).
Qed.

(** ** The theorems *)

(** C25: What a node sends is what the peer reads.  A frame comes back with its
    kind, its session and its payload (any trailing bytes of the datagram are
    ignored) whenever the payload is at most 65535 bytes, and is otherwise cut to
    its length modulo 65536, the width of the length field; an RTP or RTCP payload
    comes back with the same packet and the key cut to 255 bytes, so unchanged for
    the keys that fit; a HELLO comes back with both node ids and the MAC when the
    ids are at most 255 bytes long. *)
Theorem wire_roundtrip kind sid payload rest key packet src dst mac :
  is_session_id sid →
  decodeFrame (encodeFrame kind sid payload ++ rest)
    = Some (mkFrame kind sid (if blen payload <=? 65535 then payload
                              else take (Z.to_nat (blen payload mod 65536)) payload))
  ∧ decodeKeyed (encodeKeyed key packet)
    = Some (if blen (bytes_of key) <=? 255 then key else string_of (take 255 (bytes_of key)), packet)
  ∧ (blen (bytes_of src) ≤ 255 → blen (bytes_of dst) ≤ 255 → blen mac = sha256_Size →
     parseHello (hello_payload src dst mac) = Some (src, dst, mac)).
Proof.
  intros Hs. split_and!.
  - destruct (_ <=? _) eqn:E; zbool; [apply decode_encode_frame_exact; [done|lia]|].
    rewrite decode_encode_frame by done. rewrite take_app_le; [done|].
    pose proof (Z.mod_le (blen payload) 65536). unfold blen in *. lia.
  - rewrite decode_encode_keyed. destruct (_ <=? _) eqn:E; zbool; [|done].
    rewrite take_ge by (unfold blen in E; lia). by rewrite string_of_bytes_of.
  - intros. apply parse_hello; lia.
Qed.

Lemma wire_roundtrip_witness :
  decodeFrame (encodeFrame frameRTP (replicate 16 x07) (encodeKeyed "pub-1" [x80; x60]) ++ [xff])
  = Some (mkFrame frameRTP (replicate 16 x07) (encodeKeyed "pub-1" [x80; x60])).
Proof.
  destruct (wire_roundtrip frameRTP (replicate 16 x07) (encodeKeyed "pub-1" [x80; x60]) [xff]
              "" [] "" "" []) as (H & _ & _); [reflexivity|].
  vm_compute in H |- *. exact H.
Defined.

(** Nothing else is accepted.  A datagram that decodes is an encoded frame of
    exactly the decoded kind, session and payload followed by ignored bytes; a
    payload that decodes as keyed is the encoding of exactly that key and packet;
    a payload that parses as a HELLO is the encoding of exactly those node ids and
    that MAC.  And two HELLOs under the same MAC input name the same session, the
    same sender and the same receiver. *)
Theorem wire_unambiguous :
  (∀ b f, decodeFrame b = Some f →
     is_session_id (f_sessionID f) ∧ blen (f_payload f) ≤ 65535
     ∧ ∃ rest, b = encodeFrame (f_kind f) (f_sessionID f) (f_payload f) ++ rest)
  ∧ (∀ p key packet, decodeKeyed p = Some (key, packet) → p = encodeKeyed key packet)
  ∧ (∀ p src dst mac, parseHello p = Some (src, dst, mac) → p = hello_payload src dst mac)
  ∧ (∀ sid src dst sid' src' dst', is_session_id sid → is_session_id sid' →
     x00 ∉ bytes_of src → x00 ∉ bytes_of src' →
     helloMAC_input sid src dst = helloMAC_input sid' src' dst' →
     sid = sid' ∧ src = src' ∧ dst = dst').
Proof.
  split_and!.
  - intros b f H. apply decodeFrame_sound in H as (?&?&?). split_and!; [done|lia|done].
  - intros p key packet H. by apply decodeKeyed_sound in H as [? _].
  - intros p src dst mac H. by apply parseHello_sound in H as [? _].
  - apply helloMAC_input_inj.
Qed.
