(* ===== verification/MediaTransport.v ===== *)
(** * The UDP media transport (internal/cluster/media_transport.go, media_conn.go)

    One node's end of the SFU to SFU channel: the connections by session id, the
    handshake, the inbound path from a datagram to the registered handlers, the
    bounded outbound queue with its sender, heartbeats and timeouts.

    Connections are objects of a heap: the maps of the program hold pointers and a
    connection outlives its removal from the map.  HMAC-SHA256 is a parameter, the
    clock readings and the results of name resolution are arguments, and what the
    transport does to the outside (datagrams written, packets delivered, the lost
    callback, metrics) are the outputs of the monad, in order.  The read loop
    handles a datagram as one step: only the read loop changes what a datagram is
    checked against. *)

From S2P Require Import Prelude Bytes ClusterTypes MediaWire.

(** ** Data *)

(** A [*net.UDPAddr], with the IP in its 16-byte form so that [IP.Equal] is
    equality. *)
Record UDPAddr := mkAddr { addr_IP : list byte; addr_Port : Z }.

#[export] Instance UDPAddr_eq_dec : EqDecision UDPAddr.
Proof. solve_decision. Defined.

(** src/internal/cluster/media_conn.go:16-36 [udpMediaConn]  The handlers are
    represented by whether one is registered; [sendCh] is the list of the frames
    waiting in the channel; the flag [c_sending] says that the sender goroutine
    has not returned. *)
Record udpMediaConn := mkConn {
  c_sessionID : list byte;
  c_remoteNodeID : string;
  c_remoteAddr : option UDPAddr;
  c_srcOK : bool;
  c_authOK : bool;
  c_closed : bool;
  c_lastRx : Z;
  c_onRTP : bool;
  c_onRTCP : bool;
  c_lostHandler : bool;
  c_sendCh : list (list byte);
  c_sending : bool
}.

(** src/internal/cluster/media_transport.go:132-145 [udpMediaTransport] *)
Record udpMediaTransport := mkTransport {
  t_cfg : MediaConfig;
  t_secret : string;
  t_selfID : string;
  t_conns : gmap (list byte) nat;
  t_heap : gmap nat udpMediaConn;
  t_next : nat;
  t_closed : bool
}.

(** The counters the two files increment. *)
Inductive media_metric :=
| mediaRTPInvalid | mediaOversized | mediaRTPReceived | mediaRTCPReceived | mediaAuthFailed
| mediaRTPDropped | mediaRTCPDropped | mediaRTPSent | mediaRTCPSent | mediaSessionFailed.

Inductive media_event :=
| WriteUDP (to : UDPAddr) (frame : list byte)
| DeliverRTP (c : nat) (key : string) (packet : list byte)
| DeliverRTCP (c : nat) (key : string) (packet : list byte)
| LostConn (c : nat)
| Metric (m : media_metric).

Abbreviation TM := (M udpMediaTransport media_event).

(** ** Updates *)

Definition set_conn (c : nat) (f : udpMediaConn → udpMediaConn) : TM unit :=
  modify (λ t, mkTransport (t_cfg t) (t_secret t) (t_selfID t) (t_conns t)
                 (alter f c (t_heap t)) (t_next t) (t_closed t)).

Definition set_conns (f : gmap (list byte) nat → gmap (list byte) nat) : TM unit :=
  modify (λ t, mkTransport (t_cfg t) (t_secret t) (t_selfID t) (f (t_conns t))
                 (t_heap t) (t_next t) (t_closed t)).

Definition with_addr a ok (c : udpMediaConn) : udpMediaConn :=
  mkConn (c_sessionID c) (c_remoteNodeID c) a ok (c_authOK c) (c_closed c) (c_lastRx c)
    (c_onRTP c) (c_onRTCP c) (c_lostHandler c) (c_sendCh c) (c_sending c).

Definition with_auth (c : udpMediaConn) : udpMediaConn :=
  mkConn (c_sessionID c) (c_remoteNodeID c) (c_remoteAddr c) (c_srcOK c) true (c_closed c)
    (c_lastRx c) (c_onRTP c) (c_onRTCP c) (c_lostHandler c) (c_sendCh c) (c_sending c).

Definition with_closed (c : udpMediaConn) : udpMediaConn :=
  mkConn (c_sessionID c) (c_remoteNodeID c) (c_remoteAddr c) (c_srcOK c) (c_authOK c) true
    (c_lastRx c) (c_onRTP c) (c_onRTCP c) (c_lostHandler c) (c_sendCh c) (c_sending c).

Definition with_rx now (c : udpMediaConn) : udpMediaConn :=
  mkConn (c_sessionID c) (c_remoteNodeID c) (c_remoteAddr c) (c_srcOK c) (c_authOK c) (c_closed c)
    now (c_onRTP c) (c_onRTCP c) (c_lostHandler c) (c_sendCh c) (c_sending c).

Definition with_handlers rtp rtcp lost (c : udpMediaConn) : udpMediaConn :=
  mkConn (c_sessionID c) (c_remoteNodeID c) (c_remoteAddr c) (c_srcOK c) (c_authOK c) (c_closed c)
    (c_lastRx c) (c_onRTP c || rtp) (c_onRTCP c || rtcp) (c_lostHandler c || lost)
    (c_sendCh c) (c_sending c).

Definition with_queue q (c : udpMediaConn) : udpMediaConn :=
  mkConn (c_sessionID c) (c_remoteNodeID c) (c_remoteAddr c) (c_srcOK c) (c_authOK c) (c_closed c)
    (c_lastRx c) (c_onRTP c) (c_onRTCP c) (c_lostHandler c) q (c_sending c).

Definition with_sender_done (c : udpMediaConn) : udpMediaConn :=
  mkConn (c_sessionID c) (c_remoteNodeID c) (c_remoteAddr c) (c_srcOK c) (c_authOK c) (c_closed c)
    (c_lastRx c) (c_onRTP c) (c_onRTCP c) (c_lostHandler c) (c_sendCh c) false.

(** The connection a pointer leads to. *)
Definition conn_at (c : nat) : TM (option udpMediaConn) := gets (λ t, t_heap t !! c).

(** ** Connections *)

(** src/internal/cluster/media_conn.go:39-42 [newUDPMediaConn] *)
Definition queue_depth (cfg : MediaConfig) : Z :=
  if media_SendQueue cfg <=? 0 then 1024 else media_SendQueue cfg.

(** src/internal/cluster/media_conn.go:38-54 [newUDPMediaConn]  The two goroutines
    are the steps [sendLoop_turn] and [heartbeat_tick]. *)
Definition newUDPMediaConn (sid : list byte) (remoteNodeID : string) (raddr : option UDPAddr)
    (now : Z) : TM nat :=
  c ← gets t_next;
  modify (λ t, mkTransport (t_cfg t) (t_secret t) (t_selfID t) (t_conns t)
    (<[c := mkConn sid remoteNodeID raddr false false false now false false false [] true]> (t_heap t))
    (S c) (t_closed t));;
  mret c.

(** src/internal/cluster/media_conn.go:58-59 [OnRTP] *)
Definition OnRTP (c : nat) : TM unit := set_conn c (with_handlers true false false).
Definition OnRTCP (c : nat) : TM unit := set_conn c (with_handlers false true false).

(** src/internal/cluster/media_conn.go:212-214 [setLostHandler] *)
Definition setLostHandler (c : nat) : TM unit := set_conn c (with_handlers false false true).

(** src/internal/cluster/media_conn.go:61-67 [markRx] *)
Definition markAuthenticated (c : nat) : TM unit := set_conn c with_auth.
Definition markRx (c : nat) (now : Z) : TM unit := set_conn c (with_rx now).
Definition idleFor (conn : udpMediaConn) (now : Z) : Z := time_sub now (c_lastRx conn).

(** src/internal/cluster/media_conn.go:69-74 [confirmSource] *)
Definition confirmSource (c : nat) (src : UDPAddr) : TM unit :=
  set_conn c (with_addr (Some src) true).

(** src/internal/cluster/media_conn.go:76-83 [matchesSource] *)
Definition matchesSource (conn : udpMediaConn) (src : UDPAddr) : bool :=
  c_srcOK conn && bool_decide (c_remoteAddr conn = Some src).

(** src/internal/cluster/media_conn.go:141-149 [enqueue] *)
Definition enqueue (c : nat) (frame : list byte) : TM bool :=
  mc ← conn_at c;
  cfg ← gets t_cfg;
  match mc with
  | None => mret false
  | Some conn =>
      if Z.of_nat (length (c_sendCh conn)) <? queue_depth cfg
      then set_conn c (with_queue (c_sendCh conn ++ [frame]));; mret true
      else mret false
  end.

(** src/internal/cluster/media_transport.go:332-338 [writeTo] *)
Definition writeTo (addr : option UDPAddr) (frame : list byte) : TM (option Error) :=
  match addr with
  | None => mret (Some (error CodeMediaNodeUnavailable "no peer address yet"))
  | Some a => emit (WriteUDP a frame);; mret None
  end.

(** src/internal/cluster/media_transport.go:198-202 [removeConn] *)
Definition removeConn (sid : list byte) : TM unit := set_conns (delete sid).

(** src/internal/cluster/media_conn.go:227-238 [Close]  The guard is [sync.Once]:
    the body runs on the first call only, and sets [closed]. *)
Definition conn_Close (c : nat) : TM unit :=
  mc ← conn_at c;
  match mc with
  | None => mret tt
  | Some conn =>
      if c_closed conn then mret tt
      else
        set_conn c with_closed;;
        match c_remoteAddr conn with
        | Some a => when (c_authOK conn)
            (writeTo (Some a) (encodeFrame frameBye (c_sessionID conn) []);; mret tt)
        | None => mret tt
        end;;
        removeConn (c_sessionID conn)
  end.

(** src/internal/cluster/media_conn.go:216-225 [peerClosed] *)
Definition notifyLost (c : nat) : TM unit :=
  mc ← conn_at c;
  match mc with
  | Some conn => when (c_lostHandler conn) (emit (LostConn c))
  | None => mret tt
  end.
Definition peerClosed (c : nat) : TM unit := notifyLost c;; conn_Close c.

(** src/internal/cluster/media_conn.go:200-210 [deliverRTP] *)
Definition deliverRTP (c : nat) (key : string) (pkt : list byte) : TM unit :=
  mc ← conn_at c;
  match mc with
  | Some conn => when (c_onRTP conn) (emit (DeliverRTP c key pkt))
  | None => mret tt
  end.
Definition deliverRTCP (c : nat) (key : string) (pkt : list byte) : TM unit :=
  mc ← conn_at c;
  match mc with
  | Some conn => when (c_onRTCP conn) (emit (DeliverRTCP c key pkt))
  | None => mret tt
  end.

Section transport.
Context (hmac : list byte → list byte → list byte).

(** src/internal/cluster/media_conn.go:91-102 [sendHello] *)
Definition sendHello (c : nat) : TM unit :=
  mc ← conn_at c;
  t ← get;
  match mc with
  | None => mret tt
  | Some conn =>
      let src := t_selfID t in
      let dst := c_remoteNodeID conn in
      let mac := helloMAC hmac (t_secret t) (c_sessionID conn) src dst in
      enqueue c (encodeFrame frameHello (c_sessionID conn) (hello_payload src dst mac));; mret tt
  end.

(** src/internal/cluster/media_conn.go:104-139 [sendKeyed] *)
Definition sendKeyed (kind : byte) (c : nat) (key : string) (packet : list byte) (isRTP : bool)
    : TM (option Error) :=
  mc ← conn_at c;
  cfg ← gets t_cfg;
  match mc with
  | None => mret None
  | Some conn =>
      if c_closed conn then mret (Some (error CodeMediaTransportClosed "media connection closed"))
      else if negb (c_authOK conn)
      then mret (Some (error CodeMediaSessionInvalid "media session not established"))
      else if (0 <? MaxPacketSize cfg) && (MaxPacketSize cfg <? blen packet)
      then emit (Metric mediaOversized);;
           mret (Some (error CodeMediaPacketTooLarge "media packet exceeds MTU budget"))
      else
        ok ← enqueue c (encodeFrame kind (c_sessionID conn) (encodeKeyed key packet));
        (if negb ok then emit (Metric (if isRTP then mediaRTPDropped else mediaRTCPDropped))
         else emit (Metric (if isRTP then mediaRTPSent else mediaRTCPSent)));;
        mret None
  end.

Definition SendRTP (c : nat) (key : string) (packet : list byte) : TM (option Error) :=
  sendKeyed frameRTP c key packet true.
Definition SendRTCP (c : nat) (key : string) (packet : list byte) : TM (option Error) :=
  sendKeyed frameRTCP c key packet false.

(** src/internal/cluster/media_conn.go:151-163 [sendLoop]  One turn: the select
    takes a queued frame, or, once the connection is closed, may return. *)
Definition sendLoop_turn (c : nat) : TM unit :=
  mc ← conn_at c;
  match mc with
  | None => mret tt
  | Some conn =>
      if negb (c_sending conn) then mret tt
      else match c_sendCh conn with
           | [] => mret tt
           | frame :: q =>
               set_conn c (with_queue q);;
               match c_remoteAddr conn with
               | Some a => writeTo (Some a) frame;; mret tt
               | None => mret tt
               end
           end
  end.
Definition sendLoop_return (c : nat) : TM unit :=
  mc ← conn_at c;
  match mc with
  | Some conn => when (c_closed conn) (set_conn c with_sender_done)
  | None => mret tt
  end.

(** src/internal/cluster/media_conn.go:165-198 [heartbeatLoop]  One tick of the
    ticker while the connection is open. *)
Definition session_timeout (cfg : MediaConfig) : Z :=
  if SessionTimeout cfg <=? 0 then 10 * second else SessionTimeout cfg.
Definition heartbeat_tick (c : nat) (now : Z) : TM unit :=
  mc ← conn_at c;
  cfg ← gets t_cfg;
  match mc with
  | None => mret tt
  | Some conn =>
      if c_closed conn then mret tt
      else if session_timeout cfg <? idleFor conn now
      then emit (Metric mediaSessionFailed);; notifyLost c;; conn_Close c
      else if c_authOK conn
      then enqueue c (encodeFrame frameHeartbeat (c_sessionID conn) []);; mret tt
      else sendHello c
  end.

(** ** The transport *)

(** src/internal/cluster/media_transport.go:154-172 [newUDPMediaTransport]  The
    socket is bound. *)
Definition newUDPMediaTransport (cfg : MediaConfig) (secret selfID : string) : udpMediaTransport :=
  mkTransport cfg secret selfID ∅ ∅ 0 false.

(** src/internal/cluster/media_transport.go:176-196 [Dial]  [raddr] is what
    [net.ResolveUDPAddr] answers, [None] an error. *)
Definition Dial (sid : list byte) (nodeID : string) (raddr : option UDPAddr) (now : Z)
    : TM (nat + Error) :=
  match raddr with
  | None => mret (inr (mkError CodeMediaNodeUnavailable "bad media address" nodeID "" ""))
  | Some a =>
      t ← get;
      if t_closed t then mret (inr (error CodeMediaTransportClosed "transport closed"))
      else match t_conns t !! sid with
           | Some c => mret (inl c)
           | None =>
               c ← newUDPMediaConn sid nodeID (Some a) now;
               set_conns <[sid := c]>;;
               sendHello c;;
               mret (inl c)
           end
  end.

(** src/internal/cluster/media_transport.go:343-362 [acceptSession]  [raddr] is
    the resolved address, [None] when it is empty or does not resolve. *)
Definition acceptSession (sid : list byte) (remoteNodeID : string) (raddr : option UDPAddr) (now : Z)
    : TM (nat + Error) :=
  t ← get;
  if t_closed t then mret (inr (error CodeMediaTransportClosed "transport closed"))
  else match t_conns t !! sid with
       | Some c => mret (inl c)
       | None =>
           c ← newUDPMediaConn sid remoteNodeID raddr now;
           set_conns <[sid := c]>;;
           mret (inl c)
       end.

(** src/internal/cluster/media_transport.go:204-209 [connFor] *)
Definition connFor (sid : list byte) : TM (option nat) := gets (λ t, t_conns t !! sid).

(** src/internal/cluster/media_transport.go:282-310 [handleHello] *)
Definition handleHello (f : parsedFrame) (src : UDPAddr) (conn : option nat) (now : Z) : TM unit :=
  t ← get;
  match parseHello (f_payload f) with
  | None => emit (Metric mediaAuthFailed)
  | Some (src1, dst1, mac) =>
      let want := helloMAC hmac (t_secret t) (f_sessionID f) src1 dst1 in
      if negb (bool_decide (mac = want)) || negb (bool_decide (dst1 = t_selfID t))
      then emit (Metric mediaAuthFailed)
      else match conn with
           | None => emit (Metric mediaAuthFailed)
           | Some c =>
               mc ← conn_at c;
               if negb (bool_decide (c_remoteNodeID <$> mc = Some src1))
               then emit (Metric mediaAuthFailed)
               else
                 confirmSource c src;;
                 markAuthenticated c;;
                 markRx c now;;
                 sendHello c
           end
  end.

(** src/internal/cluster/media_transport.go:260-279 [handleDatagram]  The switch on
    the kind of an accepted frame. *)
Definition handle_frame (f : parsedFrame) (c : nat) : TM unit :=
  if bool_decide (f_kind f = frameHeartbeat) then mret tt
  else if bool_decide (f_kind f = frameBye) then peerClosed c
  else if bool_decide (f_kind f = frameRTP)
  then match decodeKeyed (f_payload f) with
       | Some (key, pkt) => emit (Metric mediaRTPReceived);; deliverRTP c key pkt
       | None => emit (Metric mediaRTPInvalid)
       end
  else if bool_decide (f_kind f = frameRTCP)
  then match decodeKeyed (f_payload f) with
       | Some (key, pkt) => emit (Metric mediaRTCPReceived);; deliverRTCP c key pkt
       | None => emit (Metric mediaRTPInvalid)
       end
  else mret tt.

(** src/internal/cluster/media_transport.go:233-280 [handleDatagram] *)
Definition handleDatagram (b : list byte) (src : UDPAddr) (now : Z) : TM unit :=
  match decodeFrame b with
  | None => emit (Metric mediaRTPInvalid)
  | Some f =>
      cfg ← gets t_cfg;
      when ((0 <? MaxPacketSize cfg) && (MaxPacketSize cfg + mediaHeaderSize <? blen b))
        (emit (Metric mediaOversized));;
      conn ← connFor (f_sessionID f);
      if bool_decide (f_kind f = frameHello) then handleHello f src conn now
      else match conn with
           | None => emit (Metric mediaRTPInvalid)
           | Some c =>
               mc ← conn_at c;
               match mc with
               | None => emit (Metric mediaRTPInvalid)
               | Some cn =>
                   if negb (c_authOK cn) || negb (matchesSource cn src)
                   then emit (Metric mediaRTPInvalid)
                   else markRx c now;; handle_frame f c
               end
           end
  end.

(** src/internal/cluster/media_transport.go:211-231 [readLoop]  One datagram: the
    buffer holds 2048 bytes, and [ReadFromUDP] discards what does not fit. *)
Definition datagram_read (b : list byte) : list byte := take (Z.to_nat 2048) b.
#[global] Arguments datagram_read : simpl never.
#[global] Strategy 100 [datagram_read].
Definition readLoop_turn (b : list byte) (src : UDPAddr) (now : Z) : TM unit :=
  handleDatagram (datagram_read b) src now.

(** src/internal/cluster/media_transport.go:364-384 [Close]  [order] is the order
    in which [range] visits the connections. *)
Definition transport_Close (order : list nat → list nat) : TM unit :=
  t ← get;
  if t_closed t then mret tt
  else
    modify (λ t, mkTransport (t_cfg t) (t_secret t) (t_selfID t) (t_conns t) (t_heap t) (t_next t) true);;
    for_each (order ((map_to_list (t_conns t)).*2)) conn_Close.
End transport.

(** ** Runs

    Everything that happens to a transport: the calls of the bridge, the datagrams
    the socket receives (from anybody), the turns of the goroutines. *)
Inductive media_op :=
| ODial (sid : list byte) (nodeID : string) (raddr : option UDPAddr) (now : Z)
| OAccept (sid : list byte) (nodeID : string) (raddr : option UDPAddr) (now : Z)
| ODatagram (b : list byte) (src : UDPAddr) (now : Z)
| OSendRTP (c : nat) (key : string) (packet : list byte)
| OSendRTCP (c : nat) (key : string) (packet : list byte)
| OOnRTP (c : nat)
| OOnRTCP (c : nat)
| OSetLost (c : nat)
| OSendTurn (c : nat)
| OSendReturn (c : nat)
| OTick (c : nat) (now : Z)
| OCloseConn (c : nat)
| OCloseTransport (order : list nat → list nat).

Section runs.
Context (hmac : list byte → list byte → list byte).

Definition perform (o : media_op) : TM unit :=
  match o with
  | ODial sid node a now => Dial hmac sid node a now;; mret tt
  | OAccept sid node a now => acceptSession sid node a now;; mret tt
  | ODatagram b src now => readLoop_turn hmac b src now
  | OSendRTP c key pkt => SendRTP c key pkt;; mret tt
  | OSendRTCP c key pkt => SendRTCP c key pkt;; mret tt
  | OOnRTP c => OnRTP c
  | OOnRTCP c => OnRTCP c
  | OSetLost c => setLostHandler c
  | OSendTurn c => sendLoop_turn c
  | OSendReturn c => sendLoop_return c
  | OTick c now => heartbeat_tick hmac c now
  | OCloseConn c => conn_Close c
  | OCloseTransport order => transport_Close order
  end.

Definition run_media (ops : list media_op) (t : udpMediaTransport) : udpMediaTransport :=
  final (for_each ops perform) t.

(** ** The invariant

    [H] holds of the operations performed so far. *)
Context (secret self : string) (H : media_op → Prop).

(** The session was opened by this node for that peer. *)
Definition opened (sid : list byte) (peer : string) : Prop :=
  ∃ a now, H (ODial sid peer a now) ∨ H (OAccept sid peer a now).

(** The datagram carries a HELLO from [peer] to this node for the session, under
    the right MAC. *)
Definition valid_hello (b sid : list byte) (peer : string) : Prop :=
  ∃ f, decodeFrame b = Some f ∧ f_kind f = frameHello ∧ f_sessionID f = sid
    ∧ parseHello (f_payload f) = Some (peer, self, helloMAC hmac secret sid peer self).

(** A valid HELLO for the session was received from the address. *)
Definition confirmed (sid : list byte) (peer : string) (a : UDPAddr) : Prop :=
  ∃ b now, H (ODatagram b a now) ∧ valid_hello (datagram_read b) sid peer.

Record conn_ok (cfg : MediaConfig) (cn : udpMediaConn) : Prop := {
  ok_queue : Z.of_nat (length (c_sendCh cn)) ≤ queue_depth cfg;
  ok_opened : opened (c_sessionID cn) (c_remoteNodeID cn);
  ok_auth : c_authOK cn = true →
    c_srcOK cn = true ∧ ∃ a, c_remoteAddr cn = Some a
                         ∧ confirmed (c_sessionID cn) (c_remoteNodeID cn) a
}.

Record transport_inv (t : udpMediaTransport) : Prop := {
  inv_secret : t_secret t = secret;
  inv_self : t_selfID t = self;
  inv_fresh : ∀ c, t_heap t !! c ≠ None → (c < t_next t)%nat;
  inv_conns : ∀ sid c, t_conns t !! sid = Some c →
    ∃ cn, t_heap t !! c = Some cn ∧ c_sessionID cn = sid ∧ c_closed cn = false;
  inv_open : ∀ c cn, t_heap t !! c = Some cn → c_closed cn = false →
    t_conns t !! c_sessionID cn = Some c;
  inv_heap : ∀ c cn, t_heap t !! c = Some cn → conn_ok (t_cfg t) cn
}.

Lemma transport_inv_new cfg : transport_inv (newUDPMediaTransport cfg secret self).
Proof. split; simpl; try done; intros *; rewrite lookup_empty; done. Qed.

(** An update of one connection that keeps its identity. *)
Lemma inv_set_conn c f t :
  (∀ cn, t_heap t !! c = Some cn → conn_ok (t_cfg t) cn →
     conn_ok (t_cfg t) (f cn) ∧ c_sessionID (f cn) = c_sessionID cn
     ∧ c_closed (f cn) = c_closed cn) →
  transport_inv t → transport_inv (final (set_conn c f) t).
Proof.
  intros Hf [Hs Hi Hn Hc Ho Hh]. split; simpl; [done|done|..].
  - intros c'. destruct (decide (c' = c)) as [->|]; [|by rewrite lookup_alter_ne; auto].
    rewrite lookup_alter_eq. intros E. apply Hn. by destruct (t_heap t !! c).
  - intros sid c' E. destruct (Hc _ _ E) as (cn & E1 & E2 & E3).
    destruct (decide (c' = c)) as [->|].
    + exists (f cn). rewrite lookup_alter_eq, E1. destruct (Hf cn E1 (Hh _ _ E1)) as (_ & E4 & E5).
      by rewrite E4, E5.
    + exists cn. by rewrite lookup_alter_ne.
  - intros c' cn. destruct (decide (c' = c)) as [->|]; [|rewrite lookup_alter_ne; auto].
    rewrite lookup_alter_eq. destruct (t_heap t !! c) as [cn0|] eqn:E0; [|done]. simpl.
    intros [= <-]. destruct (Hf cn0 eq_refl (Hh _ _ E0)) as (_ & -> & ->). by apply Ho.
  - intros c' cn. destruct (decide (c' = c)) as [->|]; [|rewrite lookup_alter_ne; eauto].
    rewrite lookup_alter_eq. destruct (t_heap t !! c) as [cn0|] eqn:E0; [|done]. simpl.
    intros [= <-]. destruct (Hf cn0 eq_refl (Hh _ _ E0)) as (? & _). done.
Qed.

(** The updates that touch neither the identity nor the checks of a connection. *)
Lemma preserves_set_conn c f :
  (∀ cn, c_sessionID (f cn) = c_sessionID cn ∧ c_remoteNodeID (f cn) = c_remoteNodeID cn
    ∧ c_remoteAddr (f cn) = c_remoteAddr cn ∧ c_srcOK (f cn) = c_srcOK cn
    ∧ c_authOK (f cn) = c_authOK cn ∧ c_closed (f cn) = c_closed cn
    ∧ (length (c_sendCh (f cn)) ≤ length (c_sendCh cn))%nat) →
  preserves transport_inv (set_conn c f).
Proof.
  intros Hf t. apply inv_set_conn. intros cn _ [Hq Hop Ha].
  destruct (Hf cn) as (E1 & E2 & E3 & E4 & E5 & E6 & E7).
  split_and!; [|done..]. split; rewrite ?E1, ?E2, ?E3, ?E4, ?E5; [lia|done|done].
Qed.

Lemma preserves_conn_at c : preserves transport_inv (conn_at c).
Proof. by intros t. Qed.

Lemma preserves_enqueue c frame : preserves transport_inv (enqueue c frame).
Proof.
  intros t Ht. unfold enqueue, conn_at. autorewrite with mrun.
  destruct (t_heap t !! c) as [cn|] eqn:E; [|done].
  destruct (_ <? _) eqn:El; [|done]. apply Z.ltb_lt in El. rewrite final_bind. unfold mret. simpl.
  apply inv_set_conn; [|done]. intros cn' E' [Hq Hop Ha]. rewrite E in E'. injection E' as <-.
  split_and!; [|done..]. split; simpl; [|done..]. rewrite length_app. simpl. lia.
Qed.

Lemma preserves_sendHello c : preserves transport_inv (sendHello hmac c).
Proof.
  intros t Ht. unfold sendHello, conn_at. autorewrite with mrun.
  destruct (t_heap t !! c) as [cn|]; [|done].
  autorewrite with mrun. by apply preserves_enqueue.
Qed.

(** A new connection entered into the map. *)
Lemma inv_open_conn sid peer raddr now t :
  t_conns t !! sid = None → opened sid peer → transport_inv t →
  transport_inv (final (c ← newUDPMediaConn sid peer raddr now; set_conns <[sid := c]>;; mret c) t).
Proof.
  intros Hn Hop [Hs Hi Hf Hc Ho Hh].
  assert (t_heap t !! t_next t = None) as Hnew.
  { destruct (t_heap t !! t_next t) eqn:E; [|done]. specialize (Hf (t_next t)). rewrite E in Hf.
    specialize (Hf ltac:(done)). lia. }
  unfold newUDPMediaConn, set_conns. autorewrite with mrun. split; simpl; [done|done|..].
  - intros c Hl. destruct (decide (c = t_next t)) as [->|]; [lia|].
    rewrite lookup_insert_ne in Hl by done. specialize (Hf c Hl). lia.
  - intros sid' c. destruct (decide (sid' = sid)) as [->|].
    + rewrite lookup_insert_eq. intros [= <-]. eexists. by rewrite lookup_insert_eq.
    + rewrite lookup_insert_ne by done. intros E. destruct (Hc _ _ E) as (cn & E1 & E2).
      exists cn. rewrite lookup_insert_ne; [done|]. intros <-. congruence.
  - intros c cn. destruct (decide (c = t_next t)) as [->|].
    + rewrite lookup_insert_eq. intros [= <-] _. simpl. by rewrite lookup_insert_eq.
    + rewrite lookup_insert_ne by done. intros E Ecl. specialize (Ho _ _ E Ecl).
      rewrite lookup_insert_ne; [done|]. intros Es. congruence.
  - intros c cn. destruct (decide (c = t_next t)) as [->|].
    + rewrite lookup_insert_eq. intros [= <-]. split; simpl; [|done|done].
      unfold queue_depth. destruct (_ <=? 0) eqn:E; zbool; lia.
    + rewrite lookup_insert_ne by done. apply Hh.
Qed.

Lemma preserves_conn_Close c : preserves transport_inv (conn_Close c).
Proof.
  intros t Ht. unfold conn_Close, conn_at. autorewrite with mrun.
  destruct (t_heap t !! c) as [cn|] eqn:E; [|done].
  destruct (c_closed cn) eqn:Ecl; [done|].
  destruct Ht as [Hs Hi Hf Hc Ho Hh].
  assert (∀ m : TM unit, (∀ u, final m u = u) →
    transport_inv (final (set_conn c with_closed;; m;; removeConn (c_sessionID cn)) t)) as Hclose.
  { intros m Hm. rewrite !final_bind, Hm. unfold removeConn, set_conns, set_conn.
    autorewrite with mrun. split; simpl; [done|done|..].
    - intros c'. destruct (decide (c' = c)) as [->|]; [|rewrite lookup_alter_ne; auto].
      intros _. apply Hf. by rewrite E.
    - intros sid c'. destruct (decide (sid = c_sessionID cn)) as [->|];
        [by rewrite lookup_delete_eq|rewrite lookup_delete_ne by done].
      intros E'. destruct (Hc _ _ E') as (cn' & E1 & E2 & E3). exists cn'.
      rewrite lookup_alter_ne; [done|]. intros <-. congruence.
    - intros c' cn'. destruct (decide (c' = c)) as [->|].
      + rewrite lookup_alter_eq, E. simpl. by intros [= <-].
      + rewrite lookup_alter_ne by done. intros E' Ecl'. rewrite lookup_delete_ne; [auto|].
        intros Esid. pose proof (Ho _ _ E Ecl) as H1. pose proof (Ho _ _ E' Ecl') as H2.
        rewrite Esid in H1. congruence.
    - intros c' cn'. destruct (decide (c' = c)) as [->|]; [|rewrite lookup_alter_ne; eauto].
      rewrite lookup_alter_eq, E. simpl. intros [= <-]. specialize (Hh _ _ E) as [Hq Hop Ha].
      by split. }
  apply Hclose. intros u. destruct (c_remoteAddr cn); [|done]. by destruct (c_authOK cn).
Qed.

Lemma preserves_notifyLost c : preserves transport_inv (notifyLost c).
Proof.
  intros t Ht. unfold notifyLost, conn_at. autorewrite with mrun.
  destruct (t_heap t !! c) as [cn|]; [|done]. by destruct (c_lostHandler cn).
Qed.

Lemma preserves_peerClosed c : preserves transport_inv (peerClosed c).
Proof.
  apply preserves_bind; [apply preserves_notifyLost|intros _; apply preserves_conn_Close].
Qed.

Lemma preserves_deliver c key pkt :
  preserves transport_inv (deliverRTP c key pkt) ∧ preserves transport_inv (deliverRTCP c key pkt).
Proof.
  split; intros t Ht; unfold deliverRTP, deliverRTCP, conn_at; autorewrite with mrun;
    (destruct (t_heap t !! c) as [cn|]; [|done]).
  - by destruct (c_onRTP cn).
  - by destruct (c_onRTCP cn).
Qed.

Lemma preserves_handle_frame f c : preserves transport_inv (handle_frame f c).
Proof.
  unfold handle_frame. repeat case_match; auto with preserves;
    try apply preserves_peerClosed; apply preserves_bind; auto with preserves;
    intros _; apply preserves_deliver.
Qed.

Lemma preserves_Dial sid node raddr now :
  H (ODial sid node raddr now) → preserves transport_inv (Dial hmac sid node raddr now).
Proof.
  intros Hop t Ht. unfold Dial. destruct raddr as [a|]; [|done]. rewrite final_bind, value_get, final_get.
  destruct (t_closed t); [done|]. destruct (t_conns t !! sid) as [c|] eqn:E; [done|].
  pose proof (inv_open_conn sid node (Some a) now t E ltac:(eexists _, _; eauto) Ht) as Hc.
  autorewrite with mrun in *. by apply preserves_sendHello.
Qed.

Lemma preserves_acceptSession sid node raddr now :
  H (OAccept sid node raddr now) → preserves transport_inv (acceptSession sid node raddr now).
Proof.
  intros Hop t Ht. unfold acceptSession. rewrite final_bind, value_get, final_get.
  destruct (t_closed t); [done|]. destruct (t_conns t !! sid) as [c|] eqn:E; [done|].
  pose proof (inv_open_conn sid node raddr now t E ltac:(eexists _, _; eauto) Ht) as Hc.
  by autorewrite with mrun in *.
Qed.

(** The only step that authenticates a connection. *)
Lemma inv_handleHello f b src now t :
  H (ODatagram b src now) → decodeFrame (datagram_read b) = Some f → f_kind f = frameHello →
  transport_inv t →
  transport_inv (final (handleHello hmac f src (t_conns t !! f_sessionID f) now) t).
Proof.
  intros Hop Hdec Hk Ht. unfold handleHello. rewrite final_bind, value_get, final_get.
  destruct (parseHello (f_payload f)) as [[[src1 dst1] mac]|] eqn:Hp; [|done].
  destruct (_ || _) eqn:Ev; [done|]. apply orb_false_iff in Ev as [Em Ed].
  apply negb_false_iff, bool_decide_eq_true in Em, Ed. subst mac dst1.
  destruct (t_conns t !! f_sessionID f) as [c|] eqn:Ec; [|done].
  unfold conn_at. rewrite final_bind, value_gets, final_gets.
  destruct (inv_conns _ Ht _ _ Ec) as (cn & E & Esid & Ecl). rewrite E. simpl.
  destruct (bool_decide _) eqn:En; [|done]. apply bool_decide_eq_true in En.
  injection En as En. simpl. rewrite !final_bind. apply preserves_sendHello.
  pose proof (inv_secret _ Ht) as Hs. pose proof (inv_self _ Ht) as Hi.
  apply preserves_set_conn; [done|].
  assert (final (markAuthenticated c) (final (confirmSource c src) t)
          = final (set_conn c (λ cn, with_auth (with_addr (Some src) true cn))) t) as ->.
  { unfold markAuthenticated, confirmSource, set_conn, modify, final. simpl.
    by rewrite alter_alter_eq. }
  apply inv_set_conn; [|done]. intros cn' E' [Hq Hop' Ha]. rewrite E in E'. injection E' as <-.
  split_and!; [|done..]. split; simpl; [done|done|]. intros _. split; [done|].
  exists src. split; [done|]. exists b, now. split; [done|]. exists f.
  split_and!; [done..|]. by rewrite Hp, En, Hs, Hi, <- Esid.
Qed.

Lemma preserves_datagram b src now :
  H (ODatagram b src now) → preserves transport_inv (readLoop_turn hmac b src now).
Proof.
  intros Hop t Ht. unfold readLoop_turn, handleDatagram.
  destruct (decodeFrame (datagram_read b)) as [f|] eqn:Hdec; [|done].
  unfold connFor. rewrite !final_bind, !value_gets, !final_gets, final_when.
  assert (∀ b : bool, (if b then final (emit (Metric mediaOversized)) t else t) = t) as Ew by by intros [].
  rewrite Ew. clear Ew. case_bool_decide as Hk; [by eapply inv_handleHello|].
  destruct (t_conns t !! f_sessionID f) as [c|]; [|done].
  unfold conn_at. rewrite final_bind, value_gets, final_gets.
  destruct (t_heap t !! c) as [cn|]; [|done]. destruct (_ || _); [done|].
  rewrite final_bind. apply preserves_handle_frame, preserves_set_conn; done.
Qed.

Lemma preserves_sendKeyed kind c key pkt isRTP :
  preserves transport_inv (sendKeyed kind c key pkt isRTP).
Proof.
  intros t Ht. unfold sendKeyed, conn_at. rewrite !final_bind, !value_gets, !final_gets.
  destruct (t_heap t !! c) as [cn|]; [|done]. destruct (c_closed cn); [done|].
  destruct (negb _); [done|]. destruct (_ && _); [done|]. rewrite !final_bind.
  destruct (negb _); by apply preserves_enqueue.
Qed.

Lemma preserves_sendLoop_turn c : preserves transport_inv (sendLoop_turn c).
Proof.
  intros t Ht. unfold sendLoop_turn, conn_at. rewrite final_bind, value_gets, final_gets.
  destruct (t_heap t !! c) as [cn|] eqn:E; [|done]. destruct (negb _); [done|].
  destruct (c_sendCh cn) as [|fr q] eqn:Eq; [done|]. rewrite final_bind.
  assert (transport_inv (final (set_conn c (with_queue q)) t)) as Hq.
  { apply inv_set_conn; [|done]. intros cn' E' [Hq Hop Ha]. rewrite E in E'. injection E' as <-.
    split_and!; [|done..]. split; simpl; [|done..]. rewrite Eq in Hq. simpl in Hq. lia. }
  by destruct (c_remoteAddr cn).
Qed.

Lemma preserves_heartbeat c now : preserves transport_inv (heartbeat_tick hmac c now).
Proof.
  intros t Ht. unfold heartbeat_tick, conn_at. rewrite !final_bind, !value_gets, !final_gets.
  destruct (t_heap t !! c) as [cn|] eqn:E; [|done]. destruct (c_closed cn); [done|].
  destruct (_ <? _); [rewrite !final_bind; by apply preserves_conn_Close, preserves_notifyLost|].
  destruct (c_authOK cn); [rewrite final_bind; by apply preserves_enqueue|].
  by apply preserves_sendHello.
Qed.

Lemma preserves_transport_Close order : preserves transport_inv (transport_Close order).
Proof.
  intros t Ht. unfold transport_Close. rewrite final_bind, value_get, final_get.
  destruct (t_closed t); [done|]. rewrite final_bind.
  apply (preserves_for_each transport_inv); [intros; apply preserves_conn_Close|].
  destruct Ht. by split.
Qed.

Lemma transport_perform o : H o → preserves transport_inv (perform o).
Proof.
  intros Ho. destruct o; simpl.
  - apply preserves_bind; [by apply preserves_Dial|intros; apply preserves_ret].
  - apply preserves_bind; [by apply preserves_acceptSession|intros; apply preserves_ret].
  - by apply preserves_datagram.
  - apply preserves_bind; [apply preserves_sendKeyed|intros; apply preserves_ret].
  - apply preserves_bind; [apply preserves_sendKeyed|intros; apply preserves_ret].
  - apply preserves_set_conn. intros; simpl. by rewrite ?orb_true_r.
  - by apply preserves_set_conn.
  - by apply preserves_set_conn.
  - apply preserves_sendLoop_turn.
  - intros t Ht. unfold sendLoop_return, conn_at. rewrite final_bind, value_gets, final_gets.
    destruct (t_heap t !! c); [|done]. rewrite final_when. destruct (c_closed u); [|done].
    by apply preserves_set_conn.
  - apply preserves_heartbeat.
  - apply preserves_conn_Close.
  - apply preserves_transport_Close.
Qed.
End runs.

Lemma run_media_inv hmac ops cfg secret self :
  transport_inv hmac secret self (λ o, o ∈ ops)
    (run_media hmac ops (newUDPMediaTransport cfg secret self)).
Proof.
  apply (preserves_for_each (transport_inv _ _ _ _)); [|apply transport_inv_new].
  intros o Ho. by apply transport_perform.
Qed.

(** ** Deliveries *)

Definition is_delivery (ev : media_event) : bool :=
  match ev with DeliverRTP _ _ _ | DeliverRTCP _ _ _ => true | _ => false end.

(** A program that hands no packet to a handler. *)
Definition quiet {A} (m : TM A) : Prop := emits_only (λ ev, is_delivery ev = false) m.

Ltac quiet := unfold quiet; emits_only.

Section deliveries.
Context (hmac : list byte → list byte → list byte).

Lemma quiet_enqueue c fr : quiet (enqueue c fr).
Proof. unfold enqueue, conn_at, set_conn. quiet. Qed.

Lemma quiet_sendHello c : quiet (sendHello hmac c).
Proof. unfold sendHello, conn_at. quiet; apply quiet_enqueue. Qed.

Lemma quiet_conn_Close c : quiet (conn_Close c).
Proof. unfold conn_Close, conn_at, set_conn, removeConn, set_conns, writeTo. quiet. Qed.

Lemma quiet_notifyLost c : quiet (notifyLost c).
Proof. unfold notifyLost, conn_at. quiet. Qed.

Lemma quiet_sendKeyed k c key pkt r : quiet (sendKeyed k c key pkt r).
Proof. unfold sendKeyed, conn_at. quiet; apply quiet_enqueue. Qed.

(** Only datagrams lead to deliveries. *)
Lemma quiet_perform o : (∀ b src now, o ≠ ODatagram b src now) → quiet (perform hmac o).
Proof.
  intros Ho. destruct o; simpl.
  - unfold Dial, newUDPMediaConn, set_conns. quiet; apply quiet_sendHello.
  - unfold acceptSession, newUDPMediaConn, set_conns. quiet.
  - by destruct (Ho b src now).
  - apply emits_only_bind; [apply quiet_sendKeyed|quiet].
  - apply emits_only_bind; [apply quiet_sendKeyed|quiet].
  - apply emits_only_modify.
  - apply emits_only_modify.
  - apply emits_only_modify.
  - unfold sendLoop_turn, conn_at, set_conn, writeTo. quiet.
  - unfold sendLoop_return, conn_at, set_conn. quiet.
  - unfold heartbeat_tick, conn_at.
    quiet.
  - apply quiet_conn_Close.
  - unfold transport_Close. quiet; apply quiet_conn_Close.
Qed.

Lemma quiet_handleHello f src conn now : quiet (handleHello hmac f src conn now).
Proof.
  unfold handleHello, conn_at, confirmSource, markAuthenticated, markRx, set_conn. quiet; apply quiet_sendHello.
Qed.

Lemma quiet_not_in {A} (m : TM A) t ev : quiet m → is_delivery ev = true → ev ∈ outputs m t → False.
Proof.
  intros Hq Hd. apply (emits_only_not_in _ _ _ _ Hq). by rewrite Hd.
Qed.

Definition delivery (rtcp : bool) : nat → string → list byte → media_event :=
  if rtcp then DeliverRTCP else DeliverRTP.

Definition frame_of (rtcp : bool) : byte := if rtcp then frameRTCP else frameRTP.

Lemma delivery_inj r r' c key pkt c' key' pkt' :
  delivery r c key pkt = delivery r' c' key' pkt' → r = r' ∧ c = c' ∧ key = key' ∧ pkt = pkt'.
Proof. destruct r, r'; simpl; intros; by simplify_eq. Qed.

(** The switch delivers the packet of the frame, to the connection given. *)
Lemma handle_frame_delivers f c t rtcp c' key pkt :
  delivery rtcp c' key pkt ∈ outputs (handle_frame f c) t →
  c' = c ∧ f_kind f = frame_of rtcp ∧ decodeKeyed (f_payload f) = Some (key, pkt).
Proof.
  assert (is_delivery (delivery rtcp c' key pkt) = true) as Hd by by destruct rtcp.
  unfold handle_frame. case_bool_decide as E1; [by intros ?%elem_of_nil|].
  case_bool_decide as E2.
  { intros Hin. exfalso. revert Hd Hin. apply quiet_not_in. unfold peerClosed.
    apply emits_only_bind; [apply quiet_notifyLost|intros _; apply quiet_conn_Close]. }
  case_bool_decide as E3; [|case_bool_decide as E4; [|by intros ?%elem_of_nil]];
    (destruct (decodeKeyed (f_payload f)) as [[k p]|];
      [|intros Hin; exfalso; revert Hd Hin; apply quiet_not_in; quiet]);
    unfold deliverRTP, deliverRTCP, conn_at; autorewrite with mrun; simpl;
    (destruct (t_heap t !! c) as [cn|]; [|by rewrite list_elem_of_singleton; destruct rtcp]);
    [destruct (c_onRTP cn)|destruct (c_onRTCP cn)]; simpl;
    rewrite ?outputs_emit, ?elem_of_cons, ?elem_of_nil; intros [?|[]]; destruct rtcp;
    simpl in *; by simplify_eq.
Qed.

(** What a delivery says about the datagram and the connection. *)
Lemma datagram_delivers b src now t rtcp c key pkt :
  delivery rtcp c key pkt ∈ outputs (handleDatagram hmac b src now) t →
  ∃ f cn, decodeFrame b = Some f ∧ f_kind f = frame_of rtcp
    ∧ decodeKeyed (f_payload f) = Some (key, pkt)
    ∧ t_conns t !! f_sessionID f = Some c ∧ t_heap t !! c = Some cn
    ∧ c_authOK cn = true ∧ matchesSource cn src = true.
Proof.
  assert (is_delivery (delivery rtcp c key pkt) = true) as Hd by by destruct rtcp.
  unfold handleDatagram. destruct (decodeFrame b) as [f|].
  2: { intros Hin. exfalso. revert Hd Hin. by apply quiet_not_in, emits_only_emit. }
  unfold connFor. rewrite outputs_bind, outputs_gets, final_gets, value_gets. simpl app.
  rewrite outputs_bind, elem_of_app. intros [Hin|Hin].
  { exfalso. revert Hd Hin. by apply quiet_not_in, emits_only_when, emits_only_emit. }
  revert Hin. rewrite final_when.
  assert (∀ b : bool, (if b then final (emit (Metric mediaOversized)) t else t) = t) as Ew by by intros [].
  rewrite Ew. clear Ew. rewrite outputs_bind, outputs_gets, final_gets, value_gets. simpl app.
  case_bool_decide as Ek.
  { intros Hin. exfalso. revert Hd Hin. apply quiet_not_in, quiet_handleHello. }
  destruct (t_conns t !! f_sessionID f) as [c'|] eqn:Ec.
  2: { intros Hin. exfalso. revert Hd Hin. by apply quiet_not_in, emits_only_emit. }
  unfold conn_at. rewrite outputs_bind, outputs_gets, final_gets, value_gets. simpl app.
  destruct (t_heap t !! c') as [cn|] eqn:Ecn.
  2: { intros Hin. exfalso. revert Hd Hin. by apply quiet_not_in, emits_only_emit. }
  destruct (_ || _) eqn:Echk.
  { intros Hin. exfalso. revert Hd Hin. by apply quiet_not_in, emits_only_emit. }
  apply orb_false_iff in Echk as [Ea Es]. apply negb_false_iff in Ea, Es.
  rewrite outputs_bind. unfold markRx, set_conn. rewrite outputs_modify. simpl app.
  intros Hin. apply handle_frame_delivers in Hin as (-> & Hk & Hkey).
  exists f, cn. done.
Qed.
End deliveries.

(** A delivery in a state satisfying the invariant. *)
Lemma delivery_sound hmac secret self H t o rtcp c key pkt :
  transport_inv hmac secret self H t →
  delivery rtcp c key pkt ∈ outputs (perform hmac o) t →
  ∃ b src now sid peer rest,
    o = ODatagram b src now
    ∧ datagram_read b = encodeFrame (frame_of rtcp) sid (encodeKeyed key pkt) ++ rest
    ∧ t_conns t !! sid = Some c
    ∧ opened H sid peer
    ∧ confirmed hmac secret self H sid peer src.
Proof.
  intros Ht Hin.
  assert (is_delivery (delivery rtcp c key pkt) = true) as Hd by by destruct rtcp.
  destruct o as [| |b src now| | | | | | | | | |];
    try (exfalso; revert Hd Hin; apply quiet_not_in, quiet_perform; congruence).
  change (perform hmac _) with (handleDatagram hmac (datagram_read b) src now) in Hin.
  apply datagram_delivers in Hin as (f & cn & Hdec & Hk & Hkey & Hc & Hcn & Ha & Hm).
  apply decodeFrame_sound in Hdec as (_ & _ & rest & Hb).
  apply decodeKeyed_sound in Hkey as [Hp _].
  destruct (inv_conns _ _ _ _ _ Ht _ _ Hc) as (cn' & Hcn' & Hsid & _).
  rewrite Hcn in Hcn'. injection Hcn' as <-.
  destruct (inv_heap _ _ _ _ _ Ht _ _ Hcn) as [_ Hop Hauth].
  destruct (Hauth Ha) as (Hsrc & a & Haddr & Hconf).
  unfold matchesSource in Hm. apply andb_true_iff in Hm as [_ Hm].
  apply bool_decide_eq_true in Hm. rewrite Haddr in Hm. injection Hm as ->.
  exists b, src, now, (f_sessionID f), (c_remoteNodeID cn), rest. rewrite <- Hsid in *.
  split_and!; try done. by rewrite Hb, Hk, Hp.
Qed.

(** ** The theorems *)

(** C4: Nobody injects media.  Whatever sequence of calls, datagrams and goroutine
    turns a node's transport goes through, with datagrams of any content from any
    address, a packet is handed to the SFU only while processing a datagram that is
    the encoding of exactly this packet and key for a session this node opened for
    some peer; and a HELLO for that session, naming that peer as sender and this
    node as receiver under the MAC of the cluster secret, was received before from
    the very address the packet comes from. *)
Theorem media_authenticated hmac cfg secret self ops o rtcp c key pkt :
  let t := run_media hmac ops (newUDPMediaTransport cfg secret self) in
  delivery rtcp c key pkt ∈ outputs (perform hmac o) t →
  ∃ b src now sid peer rest,
    o = ODatagram b src now
    ∧ datagram_read b = encodeFrame (frame_of rtcp) sid (encodeKeyed key pkt) ++ rest
    ∧ t_conns t !! sid = Some c
    ∧ opened (λ o, o ∈ ops) sid peer
    ∧ confirmed hmac secret self (λ o, o ∈ ops) sid peer src.
Proof. intros t. apply delivery_sound, run_media_inv. Qed.

Definition media_cfg_default : MediaConfig :=
  mkMediaConfig true "" 10000 "" (2 * second) 1500 (10 * second) (2 * second) 1024.

(** A stand-in for HMAC-SHA256 with results of the right length. *)
Definition toy_hmac (k m : list byte) : list byte :=
  take 32 (k ++ m ++ replicate 32 x00).

Definition demo_sid : list byte := replicate 16 x05.

Definition addr_A : UDPAddr := mkAddr [x0a; x00; x00; x01] 10000.

Definition addr_B : UDPAddr := mkAddr [x0a; x00; x00; x02] 10000.

Definition hello_frame hmac secret sid src dst : list byte :=
  encodeFrame frameHello sid (hello_payload src dst (helloMAC hmac secret sid src dst)).

(** A node that accepted a session and received the HELLO of its peer. *)
Definition demo_ops : list media_op :=
  [OAccept demo_sid "node-a" None 0; OOnRTP 0;
   ODatagram (hello_frame toy_hmac "s3cret" demo_sid "node-a" "node-b") addr_A 1].

Lemma media_authenticated_witness :
  confirmed toy_hmac "s3cret" "node-b" (λ o, o ∈ demo_ops) demo_sid "node-a" addr_A.
Proof.
  destruct (media_authenticated toy_hmac media_cfg_default "s3cret" "node-b" demo_ops
    (ODatagram (encodeFrame frameRTP demo_sid (encodeKeyed "pub-1" [x80; x60])) addr_A 2)
    false 0 "pub-1" [x80; x60])
    as (b & src & now & sid & peer & rest & E1 & E2 & E3 & E4 & E5).
  { apply (list_elem_of_lookup_2 _ 1). vm_compute. reflexivity. }
  injection E1 as <- <- <-. destruct E5 as (b & now' & Hin & f & Hd & Hk & Hs & Hp).
  apply elem_of_cons in Hin as [?|Hin]; [done|]. apply elem_of_cons in Hin as [?|Hin]; [done|].
  apply list_elem_of_singleton in Hin. injection Hin as -> ->.
  exists (hello_frame toy_hmac "s3cret" demo_sid "node-a" "node-b"), 1. split.
  - do 2 (apply elem_of_cons; right). by apply list_elem_of_singleton.
  - eexists. split; [vm_compute; reflexivity|]. split_and!; vm_compute; reflexivity.
Defined.

Section peers.
Context (hmac : list byte → list byte → list byte).
Context (hmac_size : ∀ k m, blen (hmac k m) = sha256_Size).

(** Connection [c] of the transport is the open, established end of session [sid]
    with the peer at address [a]. *)
Definition established (t : udpMediaTransport) (c : nat) (cn : udpMediaConn) (sid : list byte)
    (a : UDPAddr) : Prop :=
  t_conns t !! sid = Some c ∧ t_heap t !! c = Some cn ∧ c_sessionID cn = sid
  ∧ c_closed cn = false ∧ c_authOK cn = true ∧ c_srcOK cn = true ∧ c_remoteAddr cn = Some a.

Lemma SendRTP_established t c cn sid a key pkt :
  established t c cn sid a →
  Z.of_nat (length (c_sendCh cn)) < queue_depth (t_cfg t) →
  (0 < MaxPacketSize (t_cfg t) → blen pkt ≤ MaxPacketSize (t_cfg t)) →
  value (SendRTP c key pkt) t = None
  ∧ t_heap (final (SendRTP c key pkt) t) !! c
    = Some (with_queue (c_sendCh cn ++ [encodeFrame frameRTP sid (encodeKeyed key pkt)]) cn).
Proof.
  intros (_ & Hcn & Hs & Hcl & Ha & _) Hq Hm. unfold SendRTP, sendKeyed, conn_at.
  autorewrite with mrun. rewrite Hcn, Hcl, Ha. simpl.
  destruct (_ && _) eqn:E; [zbool; lia|]. autorewrite with mrun. split; [done|].
  unfold enqueue, conn_at. autorewrite with mrun. rewrite Hcn.
  rewrite (proj2 (Z.ltb_lt _ _) Hq). unfold set_conn. autorewrite with mrun. simpl.
  rewrite lookup_alter_eq, Hcn, Hs. done.
Qed.

Lemma datagram_established t c cn sid a key pkt now :
  established t c cn sid a → c_onRTP cn = true → is_session_id sid →
  blen (bytes_of key) ≤ 255 → 22 + blen (bytes_of key) + blen pkt ≤ 2048 →
  outputs (readLoop_turn hmac (encodeFrame frameRTP sid (encodeKeyed key pkt)) a now) t
  = outputs (when ((0 <? MaxPacketSize (t_cfg t))
                   && (MaxPacketSize (t_cfg t) <? 1 + blen (bytes_of key) + blen pkt))
               (emit (Metric mediaOversized))) t
    ++ [Metric mediaRTPReceived; DeliverRTP c key pkt].
Proof.
  intros (Hc & Hcn & Hs & Hcl & Ha & Hsrc & Haddr) Hon Hsid Hkey Hlen.
  assert (blen (encodeKeyed key pkt) = 1 + blen (bytes_of key) + blen pkt) as Hk.
  { unfold encodeKeyed. destruct (255 <? _) eqn:E; zbool; [lia|].
    by rewrite blen_cons, blen_app, Z.add_assoc. }
  assert (blen (encodeFrame frameRTP sid (encodeKeyed key pkt)) = 22 + blen (bytes_of key) + blen pkt) as Hf.
  { unfold encodeFrame. rewrite !blen_app, Hk. unfold is_session_id in Hsid. unfold blen at 1 2.
    rewrite Hsid. unfold put_uint16, blen. simpl. lia. }
  unfold readLoop_turn, datagram_read. rewrite take_ge by (unfold blen in *; lia).
  unfold handleDatagram. rewrite <- (app_nil_r (encodeFrame _ _ _)) at 1.
  rewrite decode_encode_frame_exact by (done || lia).
  unfold connFor, conn_at. cbn [f_kind f_sessionID f_payload].
  rewrite outputs_bind, outputs_gets, final_gets, value_gets, app_nil_l.
  rewrite Hf, outputs_bind, final_when.
  assert (∀ b : bool, (if b then final (emit (Metric mediaOversized)) t else t) = t) as Ew by by intros [].
  rewrite Ew. clear Ew. f_equal.
  { f_equal. f_equal. f_equal. unfold mediaHeaderSize. apply eq_iff_eq_true. rewrite !Z.ltb_lt. lia. }
  rewrite outputs_bind, outputs_gets, final_gets, value_gets, Hc, app_nil_l.
  rewrite bool_decide_eq_false_2 by done.
  rewrite outputs_bind, outputs_gets, final_gets, value_gets, Hcn, app_nil_l.
  cbv beta iota. unfold matchesSource. rewrite Ha, Hsrc, Haddr, bool_decide_eq_true_2 by done. cbn [negb orb andb].
  rewrite outputs_bind. unfold markRx, set_conn. rewrite outputs_modify, final_modify, app_nil_l.
  unfold handle_frame. cbn [f_kind f_payload].
  rewrite !bool_decide_eq_false_2, bool_decide_eq_true_2 by done.
  rewrite decode_encode_keyed, take_ge, string_of_bytes_of by (unfold blen in *; lia).
  unfold deliverRTP, conn_at. autorewrite with mrun. simpl t_heap.
  rewrite lookup_alter_eq, Hcn. simpl. by rewrite Hon.
Qed.

(** Media arrives intact across nodes.  When both ends of a session are
    established and the sender's queue has room, sending an RTP packet within the
    size limits succeeds and queues exactly one datagram; that datagram, arriving
    from the sender's confirmed address, makes the receiver hand exactly this
    packet, under exactly this key, to the handler of the session, once. *)
Theorem media_end_to_end tA cA cnA addrA' tB cB cnB addrA sid key pkt now :
  established tA cA cnA sid addrA' → established tB cB cnB sid addrA →
  is_session_id sid → c_onRTP cnB = true →
  Z.of_nat (length (c_sendCh cnA)) < queue_depth (t_cfg tA) →
  (0 < MaxPacketSize (t_cfg tA) → blen pkt ≤ MaxPacketSize (t_cfg tA)) →
  blen (bytes_of key) ≤ 255 → 22 + blen (bytes_of key) + blen pkt ≤ 2048 →
  value (SendRTP cA key pkt) tA = None
  ∧ ∃ frame cn, t_heap (final (SendRTP cA key pkt) tA) !! cA = Some cn
    ∧ c_sendCh cn = c_sendCh cnA ++ [frame]
    ∧ filter (λ ev, is_delivery ev) (outputs (readLoop_turn hmac frame addrA now) tB)
      = [DeliverRTP cB key pkt].
Proof.
  intros HA HB Hs Hon Hq Hm Hk Hl.
  destruct (SendRTP_established _ _ _ _ _ key pkt HA Hq Hm) as [Hv Hh].
  split; [done|]. eexists _, _. split; [exact Hh|]. split; [done|].
  rewrite (datagram_established _ _ _ _ _ _ _ now HB Hon Hs Hk Hl), filter_app.
  destruct (_ && _); reflexivity.
Qed.

(** ** The handshake *)

(** Connection [c] is an open end of session [sid] between this node and [peer],
    its sender idle. *)
Definition idle_end (secret self : string) (t : udpMediaTransport) (c : nat) (sid : list byte)
    (peer : string) : Prop :=
  t_secret t = secret ∧ t_selfID t = self ∧ t_conns t !! sid = Some c
  ∧ ∃ cn, t_heap t !! c = Some cn ∧ c_sessionID cn = sid ∧ c_remoteNodeID cn = peer
    ∧ c_sendCh cn = [] ∧ c_sending cn = true.

(** The node reads one datagram, and its sender takes one turn. *)
Definition answer (t : udpMediaTransport) (c : nat) (d : list byte) (src : UDPAddr) (now : Z)
    : udpMediaTransport * list media_event :=
  let t1 := final (readLoop_turn hmac d src now) t in
  (final (sendLoop_turn c) t1, outputs (sendLoop_turn c) t1).

Lemma hello_frame_reads secret sid src dst :
  is_session_id sid → blen (bytes_of src) < 256 → blen (bytes_of dst) < 256 →
  decodeFrame (datagram_read (hello_frame hmac secret sid src dst))
  = Some (mkFrame frameHello sid (hello_payload src dst (helloMAC hmac secret sid src dst))).
Proof.
  intros Hs H1 H2. unfold hello_frame, datagram_read. set (p := hello_payload _ _ _).
  assert (blen p < 600) as Hp.
  { subst p. unfold hello_payload. rewrite blen_cons, blen_app, blen_cons, blen_app.
    unfold helloMAC. rewrite hmac_size. unfold sha256_Size. lia. }
  rewrite take_ge.
  - rewrite <- (app_nil_r (encodeFrame _ _ _)). apply decode_encode_frame_exact; [done|lia].
  - enough (blen (encodeFrame frameHello sid p) ≤ 2048) by (unfold blen in *; lia).
    unfold encodeFrame. rewrite !blen_app. unfold is_session_id in Hs. unfold blen at 1 2 3.
    rewrite Hs. simpl. lia.
Qed.

(** A HELLO is answered by a HELLO, whatever was exchanged before. *)
Lemma hello_answered secret self peer t c sid src now :
  is_session_id sid → blen (bytes_of self) < 256 → blen (bytes_of peer) < 256 →
  idle_end secret self t c sid peer →
  let '(t', out) := answer t c (hello_frame hmac secret sid peer self) src now in
  idle_end secret self t' c sid peer ∧ out = [WriteUDP src (hello_frame hmac secret sid self peer)].
Proof.
  intros Hs H1 H2 (E1 & E2 & Ec & cn & Ecn & Esid & Epeer & Eq & Esend). unfold answer.
  set (cn' := with_queue [hello_frame hmac secret sid self peer]
                (with_rx now (with_auth (with_addr (Some src) true cn)))).
  assert (final (readLoop_turn hmac (hello_frame hmac secret sid peer self) src now) t
    = mkTransport (t_cfg t) (t_secret t) (t_selfID t) (t_conns t) (<[c := cn']> (t_heap t)) (t_next t)
        (t_closed t)) as ->.
  { unfold readLoop_turn, handleDatagram. rewrite hello_frame_reads by done.
    unfold connFor. rewrite !final_bind, !value_gets, !final_gets, final_when.
    assert (∀ b : bool, (if b then final (emit (Metric mediaOversized)) t else t) = t) as Ew by by intros [].
    rewrite Ew. clear Ew. cbn [f_kind f_sessionID f_payload]. rewrite bool_decide_eq_true_2 by done.
    rewrite Ec. unfold handleHello. rewrite final_bind, value_get, final_get.
    cbn [f_kind f_sessionID f_payload]. rewrite parse_hello by (done || apply hmac_size).
    rewrite E1, E2, !bool_decide_eq_true_2 by done. cbn [negb orb].
    unfold conn_at. rewrite final_bind, value_gets, final_gets, Ecn. cbn [fmap option_fmap option_map].
    rewrite bool_decide_eq_true_2 by (by rewrite Epeer). cbn [negb].
    unfold confirmSource, markAuthenticated, markRx, sendHello, enqueue, conn_at, set_conn.
    autorewrite with mrun. cbn [t_heap t_cfg t_selfID t_secret].
    rewrite !lookup_alter_eq, Ecn. cbn [fmap option_fmap option_map]. autorewrite with mrun.
    cbn [t_heap t_cfg t_selfID t_secret]. rewrite !lookup_alter_eq, Ecn. cbn [fmap option_fmap option_map].
    cbn [c_sendCh with_rx with_auth with_addr]. rewrite Eq.
    destruct (_ <? _) eqn:El.
    2: { apply Z.ltb_ge in El. exfalso. simpl in El. unfold queue_depth in El.
         destruct (_ <=? 0) eqn:E0 in El; zbool; lia. }
    autorewrite with mrun. cbn [t_heap t_cfg t_selfID t_secret t_conns t_next t_closed]. f_equal; [done|done|].
    apply map_eq. intros i. destruct (decide (i = c)) as [->|].
    - rewrite !lookup_alter_eq, Ecn, lookup_insert_eq. simpl. unfold cn', hello_frame.
      simpl. by rewrite E1, E2, Esid, Epeer.
    - by rewrite !lookup_alter_ne, lookup_insert_ne. }
  set (t1 := mkTransport _ _ _ _ _ _ _).
  assert (t_heap t1 !! c = Some cn') as Et1 by apply lookup_insert_eq.
  unfold sendLoop_turn, conn_at, set_conn. autorewrite with mrun. rewrite Et1.
  unfold cn' at 1 3. simpl. rewrite Esend. simpl. autorewrite with mrun. simpl.
  split; [|done]. split_and!; [done..|]. eexists. cbn [t_heap].
  rewrite lookup_alter_eq, lookup_insert_eq. split; [done|]. done.
Qed.

(** Two nodes that answer each other: [n] datagrams, starting with [d] on its way
    from [X] to [Y]; the network loses nothing. *)
Fixpoint exchange (n : nat) (tX : udpMediaTransport) (cX : nat) (aX : UDPAddr)
    (tY : udpMediaTransport) (cY : nat) (aY : UDPAddr) (d : list byte) (now : Z)
    : list (list byte) :=
  match n with
  | O => []
  | S n =>
      match answer tY cY d aX now with
      | (tY', [WriteUDP _ d']) => d' :: exchange n tY' cY aY tX cX aX d' now
      | _ => []
      end
  end.

Lemma exchange_goes_on secret nX nY sid n now :
  is_session_id sid → blen (bytes_of nX) < 256 → blen (bytes_of nY) < 256 →
  ∀ tX cX aX tY cY aY,
  idle_end secret nX tX cX sid nY → idle_end secret nY tY cY sid nX →
  length (exchange n tX cX aX tY cY aY (hello_frame hmac secret sid nX nY) now) = n.
Proof.
  intros Hs HX HY. revert nX nY HX HY.
  induction n as [|n IH]; intros nX nY HX HY tX cX aX tY cY aY HiX HiY; [done|]. cbn [exchange].
  pose proof (hello_answered secret nY nX tY cY sid aX now Hs HY HX HiY) as Ha.
  destruct (answer tY cY _ aX now) as [tY' out]. destruct Ha as [Ha ->].
  cbn [length]. f_equal. by apply IH.
Qed.

(** The handshake never ends.  Two nodes that opened the same session and whose
    network loses nothing answer every HELLO with a HELLO, also when both have
    already authenticated the other: whatever the number, the exchange started by
    one HELLO reaches it, so the pair keeps trading HELLOs at the pace of the round
    trip for as long as the session lives. *)
Theorem hello_storm secret nX nY sid tX cX aX tY cY aY now n :
  is_session_id sid → blen (bytes_of nX) < 256 → blen (bytes_of nY) < 256 →
  idle_end secret nX tX cX sid nY → idle_end secret nY tY cY sid nX →
  length (exchange n tX cX aX tY cY aY (hello_frame hmac secret sid nX nY) now) = n.
Proof. intros. by apply exchange_goes_on. Qed.
End peers.

(** Two nodes after the dialer's first HELLO has left. *)
Definition demo_dialer : udpMediaTransport :=
  run_media toy_hmac [ODial demo_sid "node-b" (Some addr_B) 0; OSendTurn 0]
    (newUDPMediaTransport media_cfg_default "s3cret" "node-a").

Definition demo_acceptor : udpMediaTransport :=
  run_media toy_hmac [OAccept demo_sid "node-a" None 0]
    (newUDPMediaTransport media_cfg_default "s3cret" "node-b").

Lemma toy_hmac_size k m : blen (toy_hmac k m) = sha256_Size.
Proof.
  unfold toy_hmac, blen, sha256_Size. rewrite length_take, !length_app, length_replicate. lia.
Qed.

Lemma hello_storm_witness :
  length (exchange toy_hmac 100 demo_dialer 0 addr_A demo_acceptor 0 addr_B
            (hello_frame toy_hmac "s3cret" demo_sid "node-a" "node-b") 1) = 100%nat.
Proof.
  apply (hello_storm toy_hmac toy_hmac_size).
  - reflexivity.
  - vm_compute. reflexivity.
  - vm_compute. reflexivity.
  - split_and!; [vm_compute; reflexivity..|]. eexists. split; [vm_compute; reflexivity|].
    split_and!; vm_compute; reflexivity.
  - split_and!; [vm_compute; reflexivity..|]. eexists. split; [vm_compute; reflexivity|].
    split_and!; vm_compute; reflexivity.
Defined.

Definition demo_established : udpMediaTransport :=
  run_media toy_hmac demo_ops (newUDPMediaTransport media_cfg_default "s3cret" "node-b").

Definition demo_sender : udpMediaTransport :=
  run_media toy_hmac
    [ODial demo_sid "node-b" (Some addr_B) 0; OSendTurn 0;
     ODatagram (hello_frame toy_hmac "s3cret" demo_sid "node-b" "node-a") addr_B 1; OSendTurn 0]
    (newUDPMediaTransport media_cfg_default "s3cret" "node-a").

Lemma media_end_to_end_witness :
  value (SendRTP 0 "pub-1" [x80; x60]) demo_sender = None.
Proof.
  refine (proj1 (media_end_to_end toy_hmac demo_sender 0 _ addr_B demo_established 0 _ addr_A demo_sid
    "pub-1" [x80; x60] 3 _ _ _ _ _ _ _ _)).
  - split; [vm_compute; reflexivity|]. split; [vm_compute; reflexivity|].
    split_and!; vm_compute; reflexivity.
  - split; [vm_compute; reflexivity|]. split; [vm_compute; reflexivity|].
    split_and!; vm_compute; reflexivity.
  - reflexivity.
  - vm_compute. reflexivity.
  - vm_compute. reflexivity.
  - intros _. vm_compute. discriminate.
  - vm_compute. discriminate.
  - vm_compute. discriminate.
Defined.

(** A HELLO carries neither a nonce nor an address: sent again by somebody else, it
    makes its address the confirmed one, and the session's media goes there. *)
Example replayed_hello_redirects_media :
  outputs (perform toy_hmac (OSendTurn 0))
    (run_media toy_hmac
      (demo_ops ++ [OSendTurn 0; (* the answer to the true peer *)
        ODatagram (hello_frame toy_hmac "s3cret" demo_sid "node-a" "node-b")
          (mkAddr [xc0; x00; x02; x42] 6666) 2;
        OSendTurn 0; OSendRTP 0 "pub-1" [x80; x60]])
      (newUDPMediaTransport media_cfg_default "s3cret" "node-b"))
  = [WriteUDP (mkAddr [xc0; x00; x02; x42] 6666)
       (encodeFrame frameRTP demo_sid (encodeKeyed "pub-1" [x80; x60]))].
Proof. vm_compute. reflexivity. Qed.

(** A packet the sender accepts under a larger size limit does not fit the
    receiver's buffer: the datagram is cut and no longer decodes. *)
Example large_packet_never_arrives :
  decodeFrame (datagram_read (encodeFrame frameRTP demo_sid (encodeKeyed "pub-1" (replicate (Z.to_nat 2040) x00))))
  = None.
Proof. vm_compute. reflexivity. Qed.
