(* ===== verification/MediaBridge.v ===== *)
(** * The cross-node media bridge (internal/cluster: media_bridge, media_session,
      media_remotetrack, media_message)

    Sessions between this node and other nodes, the publications mirrored over
    them in both directions, and the control messages that set them up.  Sessions
    and mirrored tracks are objects of a heap, shared by pointer between the maps
    of the bridge, the callbacks installed in a connection and the goroutines in
    flight.

    The methods that release the bridge's lock, wait for a message or poll are cut
    there: each piece is one operation and the theorems quantify over every
    sequence of pieces.  The transport, the registry, the message transport and the
    SFU are outside: what they answer (the connection dialled, whether a send
    succeeded, the SFU's handle) are arguments, what the bridge does to them are
    outputs.  A control message is its decoded payload, [None] when
    [json.Unmarshal] fails.  [range] over a map visits it in the order of the
    model's map; the statements are up to permutation. *)

From S2P Require Import Prelude Bytes ClusterTypes Sfu.

(** ** Data *)

(** src/internal/cluster/media_session.go:9-16 [MediaSessionState] *)
Inductive MediaSessionState := MediaSessionCreating | MediaSessionActive | MediaSessionClosed.

#[export] Instance MediaSessionState_eq_dec : EqDecision MediaSessionState.
Proof. solve_decision. Defined.

(** src/internal/cluster/media_remotetrack.go:8-16 [RemoteTrackState] *)
Inductive RemoteTrackState :=
| RemoteTrackCreating | RemoteTrackActive | RemoteTrackMuted | RemoteTrackEnded.

#[export] Instance RemoteTrackState_eq_dec : EqDecision RemoteTrackState.
Proof. solve_decision. Defined.

(** src/internal/cluster/media_remotetrack.go:34-44 [RemoteTrack] *)
Record RemoteTrack := mkTrack {
  rt_Info : RemotePublicationInfo;
  rt_SessionID : list byte;
  rt_state : RemoteTrackState;
  rt_handle : option nat
}.

(** src/internal/cluster/media_session.go:18-39 [MediaSession]  [s_once] is the
    state of [closeOnce]. *)
Record MediaSession := mkSession {
  s_ID : list byte;
  s_RoomID : string;
  s_LocalNodeID : string;
  s_RemoteNodeID : string;
  s_conn : nat;
  s_state : MediaSessionState;
  s_forwarders : gmap string nat;
  s_tracks : gmap string nat;
  s_once : bool
}.

(** [IDHex] *)
Definition s_IDHex (s : MediaSession) : string := hex_encode (s_ID s).

(** src/internal/cluster/media_message.go:28-34 [mediaSessionOpen] *)
Record mediaSessionOpen := mkOpen { open_SessionID : string; open_RoomID : string; open_MediaAddr : string }.

(** src/internal/cluster/media_message.go:36-39 [mediaSessionAccept] *)
Record mediaSessionAccept := mkAccept { accept_SessionID : string; accept_MediaAddr : string }.

(** src/internal/cluster/media_message.go:50-57 [mediaSubscribe] *)
Record mediaSubscribe := mkMediaSub {
  sub_SessionID : string; sub_RoomID : string; sub_PublicationID : string; sub_SubscriberID : string }.

(** src/internal/cluster/media_message.go:59-73 [mediaSubscribeAck] *)
Record mediaSubscribeAck := mkAck {
  ack_SessionID : string;
  ack_PublicationID : string;
  ack_ParticipantID : string;
  ack_Kind : string;
  ack_MimeType : string;
  ack_ClockRate : Z;
  ack_Channels : Z;
  ack_PayloadType : Z;
  ack_SSRC : Z;
  ack_Accepted : bool;
  ack_Reason : string
}.

(** src/internal/cluster/media_message.go:75-84 [mediaUnsubscribe, mediaTrackEnded] *)
Record mediaUnsubscribe := mkUnsub {
  unsub_SessionID : string; unsub_PublicationID : string; unsub_SubscriberID : string }.
Record mediaTrackEnded := mkEnded { ended_SessionID : string; ended_PublicationID : string }.

(** src/internal/cluster/media_message.go:7-16 [media message types]  Reject and
    close carry only the session id; their decoding errors are ignored by the
    code, which then sees the empty id. *)
Inductive control :=
| MediaSessionOpen (p : option mediaSessionOpen)
| MediaSessionAccept (p : option mediaSessionAccept)
| MediaSessionReject (sessionID : string)
| MediaSessionClose (sessionID : string)
| MediaSubscribe (p : option mediaSubscribe)
| MediaSubscribeAck (p : option mediaSubscribeAck)
| MediaUnsubscribe (p : option mediaUnsubscribe)
| MediaTrackEnded (p : option mediaTrackEnded)
| UnknownControl.

Inductive bridge_metric :=
| mediaSessionCreated | mediaSessionFailed | mediaSessionClosed | mediaRemoteTrackAdd | mediaRemoteTrackDel.

(** What the bridge does to its neighbours. *)
Inductive bridge_event :=
| SendControl (node : string) (m : control)
| ConnClose (c : nat)
| ConnSendRTP (c : nat) (key : string) (pkt : list byte)
| ConnSendRTCP (c : nat) (key : string) (pkt : list byte)
| HandleWriteRTP (h : nat) (pkt : list byte)
| HandleWriteRTCP (h : nat) (pkt : list byte)
| HandleClose (h : nat)
| Detach (d : nat)
| ToPublisher (room pub : string) (pkt : list byte)
| WouldBlock (ch : nat)
| BMetric (m : bridge_metric).

(** src/internal/cluster/media_bridge.go:48-71 [mediaBridge]  [b_wired] maps a
    connection to the session its callbacks were last set for; [b_accepts] and
    [b_acks] are the contents of the one-slot channels. *)
Record mediaBridge := mkBridge {
  b_cfg : MediaConfig;
  b_selfID : string;
  b_localAddr : string;
  b_sessions : gmap nat MediaSession;
  b_tracks : gmap nat RemoteTrack;
  b_wired : gmap nat nat;
  b_accepts : gmap nat (list mediaSessionAccept);
  b_acks : gmap nat (list mediaSubscribeAck);
  b_next : nat;
  byNode : gmap string nat;
  bySID : gmap string nat;
  pendingAccept : gmap string nat;
  pendingSubAck : gmap string nat;
  b_sink : bool;
  b_source : bool;
  b_closed : bool
}.

Abbreviation BM := (M mediaBridge bridge_event).

(** src/internal/cluster/media_bridge.go:73-95 [newMediaBridge] *)
Definition newMediaBridge (cfg : MediaConfig) (selfID localAddr : string) : mediaBridge :=
  mkBridge cfg selfID localAddr ∅ ∅ ∅ ∅ ∅ 0 ∅ ∅ ∅ ∅ false false false.

(** ** Updates *)

Definition upd_sessions (f : gmap nat MediaSession → gmap nat MediaSession) : BM unit :=
  modify (λ b, mkBridge (b_cfg b) (b_selfID b) (b_localAddr b) (f (b_sessions b)) (b_tracks b) (b_wired b)
    (b_accepts b) (b_acks b) (b_next b) (byNode b) (bySID b) (pendingAccept b) (pendingSubAck b)
    (b_sink b) (b_source b) (b_closed b)).

Definition upd_tracks (f : gmap nat RemoteTrack → gmap nat RemoteTrack) : BM unit :=
  modify (λ b, mkBridge (b_cfg b) (b_selfID b) (b_localAddr b) (b_sessions b) (f (b_tracks b)) (b_wired b)
    (b_accepts b) (b_acks b) (b_next b) (byNode b) (bySID b) (pendingAccept b) (pendingSubAck b)
    (b_sink b) (b_source b) (b_closed b)).

Definition upd_wired (f : gmap nat nat → gmap nat nat) : BM unit :=
  modify (λ b, mkBridge (b_cfg b) (b_selfID b) (b_localAddr b) (b_sessions b) (b_tracks b) (f (b_wired b))
    (b_accepts b) (b_acks b) (b_next b) (byNode b) (bySID b) (pendingAccept b) (pendingSubAck b)
    (b_sink b) (b_source b) (b_closed b)).

Definition upd_maps (f g : gmap string nat → gmap string nat) : BM unit :=
  modify (λ b, mkBridge (b_cfg b) (b_selfID b) (b_localAddr b) (b_sessions b) (b_tracks b) (b_wired b)
    (b_accepts b) (b_acks b) (b_next b) (f (byNode b)) (g (bySID b)) (pendingAccept b) (pendingSubAck b)
    (b_sink b) (b_source b) (b_closed b)).

Definition upd_pending (f g : gmap string nat → gmap string nat) : BM unit :=
  modify (λ b, mkBridge (b_cfg b) (b_selfID b) (b_localAddr b) (b_sessions b) (b_tracks b) (b_wired b)
    (b_accepts b) (b_acks b) (b_next b) (byNode b) (bySID b) (f (pendingAccept b)) (g (pendingSubAck b))
    (b_sink b) (b_source b) (b_closed b)).

Definition upd_chans (f : gmap nat (list mediaSessionAccept) → gmap nat (list mediaSessionAccept))
    (g : gmap nat (list mediaSubscribeAck) → gmap nat (list mediaSubscribeAck)) : BM unit :=
  modify (λ b, mkBridge (b_cfg b) (b_selfID b) (b_localAddr b) (b_sessions b) (b_tracks b) (b_wired b)
    (f (b_accepts b)) (g (b_acks b)) (b_next b) (byNode b) (bySID b) (pendingAccept b) (pendingSubAck b)
    (b_sink b) (b_source b) (b_closed b)).

Definition set_flags (sink source closed : bool) : BM unit :=
  modify (λ b, mkBridge (b_cfg b) (b_selfID b) (b_localAddr b) (b_sessions b) (b_tracks b) (b_wired b)
    (b_accepts b) (b_acks b) (b_next b) (byNode b) (bySID b) (pendingAccept b) (pendingSubAck b)
    (b_sink b || sink) (b_source b || source) (b_closed b || closed)).

(** A fresh pointer. *)
Definition alloc_id : BM nat :=
  n ← gets b_next;
  modify (λ b, mkBridge (b_cfg b) (b_selfID b) (b_localAddr b) (b_sessions b) (b_tracks b) (b_wired b)
    (b_accepts b) (b_acks b) (S n) (byNode b) (bySID b) (pendingAccept b) (pendingSubAck b)
    (b_sink b) (b_source b) (b_closed b));;
  mret n.

Definition with_sstate st (s : MediaSession) : MediaSession :=
  mkSession (s_ID s) (s_RoomID s) (s_LocalNodeID s) (s_RemoteNodeID s) (s_conn s) st
    (s_forwarders s) (s_tracks s) (s_once s).

Definition with_forwarders f (s : MediaSession) : MediaSession :=
  mkSession (s_ID s) (s_RoomID s) (s_LocalNodeID s) (s_RemoteNodeID s) (s_conn s) (s_state s)
    (f (s_forwarders s)) (s_tracks s) (s_once s).

Definition with_tracks f (s : MediaSession) : MediaSession :=
  mkSession (s_ID s) (s_RoomID s) (s_LocalNodeID s) (s_RemoteNodeID s) (s_conn s) (s_state s)
    (s_forwarders s) (f (s_tracks s)) (s_once s).

(** The session after the first lines of [Close]. *)
Definition closed_session (s : MediaSession) : MediaSession :=
  mkSession (s_ID s) (s_RoomID s) (s_LocalNodeID s) (s_RemoteNodeID s) (s_conn s) MediaSessionClosed
    ∅ ∅ true.

Definition session_at (s : nat) : BM (option MediaSession) := gets (λ b, b_sessions b !! s).

(** [if sess, ok := ...; ok { f(sess) }] on a pointer. *)
Definition with_session {A} (s : nat) (none : A) (f : MediaSession → BM A) : BM A :=
  ms ← session_at s;
  match ms with Some v => f v | None => mret none end.

(** ** Remote tracks *)

(** src/internal/cluster/media_remotetrack.go:46-51 [newRemoteTrack] *)
Definition newRemoteTrack (info : RemotePublicationInfo) (sid : list byte) : RemoteTrack :=
  mkTrack info sid RemoteTrackCreating None.

(** src/internal/cluster/media_remotetrack.go:66-84 [writeRTP] *)
Definition track_writeRTP (rt : nat) (pkt : list byte) : BM unit :=
  mt ← gets (λ b, b_tracks b !! rt);
  match mt with
  | None => mret tt
  | Some t =>
      match rt_handle t with
      | None => mret tt
      | Some h => if decide (rt_state t = RemoteTrackEnded) then mret tt
                  else emit (HandleWriteRTP h pkt)
      end
  end.
Definition track_writeRTCP (rt : nat) (pkt : list byte) : BM unit :=
  mt ← gets (λ b, b_tracks b !! rt);
  match mt ≫= rt_handle with
  | None => mret tt
  | Some h => emit (HandleWriteRTCP h pkt)
  end.

(** src/internal/cluster/media_remotetrack.go:86-100 [end] *)
Definition track_end (rt : nat) : BM unit :=
  mt ← gets (λ b, b_tracks b !! rt);
  match mt with
  | None => mret tt
  | Some t =>
      if decide (rt_state t = RemoteTrackEnded) then mret tt
      else
        upd_tracks (<[rt := mkTrack (rt_Info t) (rt_SessionID t) RemoteTrackEnded None]>);;
        match rt_handle t with Some h => emit (HandleClose h) | None => mret tt end
  end.

(** ** Sessions *)

(** src/internal/cluster/media_session.go:41-51 [newMediaSession] *)
Definition newMediaSession (id : list byte) (roomID local remote : string) (conn : nat) : MediaSession :=
  mkSession id roomID local remote conn MediaSessionCreating ∅ ∅ false.

(** src/internal/cluster/media_session.go:60-64 [setState] *)
Definition setState (s : nat) (st : MediaSessionState) : BM unit := upd_sessions (alter (with_sstate st) s).

(** src/internal/cluster/media_session.go:66-75 [addForwarder] *)
Definition addForwarder (s : nat) (pubID : string) (detach : nat) : BM unit :=
  with_session s tt (λ v,
    match s_forwarders v !! pubID with Some old => emit (Detach old) | None => mret tt end;;
    upd_sessions (alter (with_forwarders <[pubID := detach]>) s)).

(** src/internal/cluster/media_session.go:77-85 [removeForwarder] *)
Definition removeForwarder (s : nat) (pubID : string) : BM unit :=
  with_session s tt (λ v,
    upd_sessions (alter (with_forwarders (delete pubID)) s);;
    match s_forwarders v !! pubID with Some d => emit (Detach d) | None => mret tt end).

(** src/internal/cluster/media_session.go:87-91 [addTrack] *)
Definition addTrack (s : nat) (pubID : string) (rt : nat) : BM unit :=
  upd_sessions (alter (with_tracks <[pubID := rt]>) s).

(** src/internal/cluster/media_session.go:93-98 [track] *)
Definition track (s : nat) (pubID : string) : BM (option nat) :=
  gets (λ b, v ← b_sessions b !! s; s_tracks v !! pubID).

(** src/internal/cluster/media_session.go:100-108 [removeTrack] *)
Definition removeTrack (s : nat) (pubID : string) : BM unit :=
  with_session s tt (λ v,
    upd_sessions (alter (with_tracks (delete pubID)) s);;
    match s_tracks v !! pubID with Some rt => track_end rt | None => mret tt end).

(** src/internal/cluster/media_bridge.go:242-251 [forget] *)
Definition forget (s : nat) : BM unit :=
  with_session s tt (λ v,
    b ← get;
    upd_maps (λ m, if decide (byNode b !! s_RemoteNodeID v = Some s) then delete (s_RemoteNodeID v) m else m)
             (delete (s_IDHex v));;
    emit (BMetric mediaSessionClosed)).

(** src/internal/cluster/media_session.go:110-136 [Close]  [onClose] is [forget]. *)
Definition session_Close (s : nat) : BM unit :=
  with_session s tt (λ v,
    if s_once v then mret tt
    else
      upd_sessions (alter closed_session s);;
      for_each (map_to_list (s_forwarders v)) (λ kd, emit (Detach kd.2));;
      for_each (map_to_list (s_tracks v)) (λ kt, track_end kt.2);;
      emit (ConnClose (s_conn v));;
      forget s).

(** ** The bridge *)

(** src/internal/cluster/media_bridge.go:106-107 [SetSink] *)
Definition SetSink : BM unit := set_flags true false false.
Definition SetSource : BM unit := set_flags false true false.

(** src/internal/cluster/media_bridge.go:209-214 [reqTimeout] *)
Definition reqTimeout (cfg : MediaConfig) : Z :=
  if 0 <? media_RequestTimeout cfg then media_RequestTimeout cfg else 2 * second.

(** src/internal/cluster/media_bridge.go:216-234 [wireConn] *)
Definition wireConn (s c : nat) : BM unit := upd_wired <[c := s]>.

(** src/internal/cluster/media_bridge.go:217-221 [wireConn OnRTP callback] *)
Definition onRTP (c : nat) (key : string) (pkt : list byte) : BM unit :=
  ws ← gets (λ b, b_wired b !! c);
  match ws with
  | None => mret tt
  | Some s =>
      mt ← track s key;
      match mt with Some rt => track_writeRTP rt pkt | None => mret tt end
  end.

(** src/internal/cluster/media_bridge.go:222-230 [wireConn OnRTCP callback] *)
Definition onRTCP (c : nat) (key : string) (pkt : list byte) : BM unit :=
  ws ← gets (λ b, b_wired b !! c);
  match ws with
  | None => mret tt
  | Some s =>
      mt ← track s key;
      match mt with
      | Some rt => track_writeRTCP rt pkt
      | None =>
          src ← gets b_source;
          with_session s tt (λ v, when src (emit (ToPublisher (s_RoomID v) key pkt)))
      end
  end.

(** src/internal/cluster/media_bridge.go:231-240 [onSessionLost] *)
Definition onSessionLost (c : nat) : BM unit :=
  ws ← gets (λ b, b_wired b !! c);
  match ws with
  | None => mret tt
  | Some s => emit (BMetric mediaSessionFailed);; session_Close s
  end.

(** src/internal/cluster/media_bridge.go:137-160 [EnsureSession]  Opening a new
    session.  [reg] is the registry's answer, [sid] the random id, [dialed] the
    answer of [Dial]; the result has the channel the accept arrives on. *)
Definition EnsureSession_open (remoteNodeID roomID : string) (reg : option NodeInfo)
    (sid : list byte) (dialed : nat + Error) : BM (Error + (nat * option nat)) :=
  match reg with
  | None => mret (inl (mkError CodeMediaNodeUnavailable "remote node has no media address" remoteNodeID "" ""))
  | Some info =>
      if decide (MediaAddr info = "")
      then mret (inl (mkError CodeMediaNodeUnavailable "remote node has no media address" remoteNodeID "" ""))
      else if negb (AcceptsSessions (State info))
      then mret (inl (mkError CodeMediaNodeUnavailable "remote node not ready" remoteNodeID "" ""))
      else match dialed with
           | inr err => mret (inl err)
           | inl c =>
               self ← gets b_selfID;
               s ← alloc_id;
               upd_sessions <[s := newMediaSession sid roomID self remoteNodeID c]>;;
               wireConn s c;;
               upd_maps <[remoteNodeID := s]> <[hex_encode sid := s]>;;
               ch ← alloc_id;
               upd_chans <[ch := []]> id;;
               upd_pending <[hex_encode sid := ch]> id;;
               mret (inr (s, Some ch))
           end
  end.

(** src/internal/cluster/media_bridge.go:123-160 [EnsureSession]  The part under
    the lock: the session to use and, when it was just opened, the channel its
    accept arrives on. *)
Definition EnsureSession_begin (remoteNodeID roomID : string) (reg : option NodeInfo)
    (sid : list byte) (dialed : nat + Error) : BM (Error + (nat * option nat)) :=
  b ← get;
  if b_closed b then mret (inl (error CodeMediaTransportClosed "media bridge closed"))
  else match byNode b !! remoteNodeID with
       | Some s =>
           if decide (s_state <$> (b_sessions b !! s) = Some MediaSessionClosed)
           then EnsureSession_open remoteNodeID roomID reg sid dialed
           else mret (inr (s, None))
       | None => EnsureSession_open remoteNodeID roomID reg sid dialed
       end.

(** src/internal/cluster/media_bridge.go:162-173 [EnsureSession]  Asking the peer;
    [ok] is whether the message transport accepted the request. *)
Definition EnsureSession_ask (s : nat) (remoteNodeID roomID : string) (ok : bool) : BM (option Error) :=
  emit (BMetric mediaSessionCreated);;
  b ← get;
  with_session s None (λ v,
    emit (SendControl remoteNodeID
      (MediaSessionOpen (Some (mkOpen (s_IDHex v) roomID (b_localAddr b)))));;
    if ok then mret None
    else session_Close s;;
         mret (Some (mkError CodeMediaNodeUnavailable "media session open failed" remoteNodeID "" ""))).

Definition CodeMediaTransportTimeout : string := "MEDIA_TRANSPORT_TIMEOUT".

(** src/internal/cluster/media_bridge.go:175-180 [EnsureSession]  The select: the
    accept, if it is there; otherwise the request has timed out. *)
Definition EnsureSession_accepted (s ch : nat) : BM (option Error) :=
  cs ← gets (λ b, b_accepts b !! ch);
  match cs with
  | Some (_ :: rest) => upd_chans <[ch := rest]> id;; mret None
  | _ => session_Close s;; mret (Some (error CodeMediaTransportTimeout "media session accept timed out"))
  end.

(** What one round of [waitActive] decides. *)
Inductive wait_step := WaitDone (e : option Error) | WaitPromote | WaitAgain.

(** src/internal/cluster/media_bridge.go:190-206 [waitActive]  The checks of one
    round: the state twice, the connection, the deadline. *)
Definition waitActive_check (s : nat) (authenticated : bool) (now deadline : Z) (cancelled : bool)
    : BM wait_step :=
  with_session s (WaitDone (Some (error CodeMediaSessionInvalid "media session closed during setup"))) (λ v,
    mret (if decide (s_state v = MediaSessionActive) then WaitDone None
          else if decide (s_state v = MediaSessionClosed)
          then WaitDone (Some (error CodeMediaSessionInvalid "media session closed during setup"))
          else if authenticated then WaitPromote
          else if (deadline <? now) || cancelled
          then WaitDone (Some (error CodeMediaTransportTimeout "media session did not become active"))
          else WaitAgain)).

(** src/internal/cluster/media_bridge.go:198-198 [waitActive]  After the checks, a
    separate step: the session may have been closed in between. *)
Definition waitActive_promote (s : nat) : BM unit := setState s MediaSessionActive.

(** src/internal/cluster/media_bridge.go:397-410 [promoteWhenReady]  One round. *)
Definition promoteWhenReady_check (s : nat) (authenticated : bool) (now deadline : Z) : BM wait_step :=
  with_session s (WaitDone None) (λ v,
    mret (if negb (now <? deadline) then WaitDone None
          else if decide (s_state v = MediaSessionClosed) then WaitDone None
          else if authenticated then WaitPromote
          else WaitAgain)).

(** src/internal/cluster/media_bridge.go:260-268 [SubscribeRemote]  The existing
    track, or the channel registered for the answer. *)
Definition sub_key (v : MediaSession) (publicationID : string) : string :=
  s_IDHex v +:+ "|" +:+ publicationID.
Definition SubscribeRemote_begin (s : nat) (publicationID : string) : BM (nat + nat) :=
  mt ← track s publicationID;
  match mt with
  | Some rt => mret (inl rt)
  | None =>
      with_session s (inr 0%nat) (λ v,
        ch ← alloc_id;
        upd_chans id <[ch := []]>;;
        upd_pending id <[sub_key v publicationID := ch]>;;
        mret (inr ch))
  end.

(** src/internal/cluster/media_bridge.go:269-269 [SubscribeRemote]  The deferred
    clean-up. *)
Definition SubscribeRemote_done (s : nat) (publicationID : string) : BM unit :=
  with_session s tt (λ v, upd_pending id (delete (sub_key v publicationID))).

(** src/internal/cluster/media_bridge.go:271-278 [SubscribeRemote] *)
Definition SubscribeRemote_ask (s : nat) (remoteNodeID roomID publicationID subscriberID : string) (ok : bool)
    : BM (option Error) :=
  with_session s None (λ v,
    emit (SendControl remoteNodeID
      (MediaSubscribe (Some (mkMediaSub (s_IDHex v) roomID publicationID subscriberID))));;
    if ok then mret None
    else SubscribeRemote_done s publicationID;;
         mret (Some (mkError CodeMediaNodeUnavailable "media subscribe failed" remoteNodeID "" ""))).

(** src/internal/cluster/media_bridge.go:290-294 [SubscribeRemote] *)
Definition remote_info (roomID publicationID remoteNodeID : string) (ack : mediaSubscribeAck) : RemotePublicationInfo :=
  mkInfo roomID publicationID (ack_ParticipantID ack) remoteNodeID (ack_Kind ack) (ack_MimeType ack)
    (ack_ClockRate ack) (ack_Channels ack) (ack_PayloadType ack) (ack_SSRC ack).

(** src/internal/cluster/media_bridge.go:280-312 [SubscribeRemote]  After the
    select: the answer if it is there, else a timeout.  [sinkAnswer] is what
    [AddRemotePublication] answers. *)
Definition SubscribeRemote_finish (s ch : nat) (remoteNodeID roomID publicationID : string)
    (sinkAnswer : nat + Error) : BM (Error + nat) :=
  cs ← gets (λ b, b_acks b !! ch);
  match cs with
  | Some (ack :: rest) =>
      upd_chans id <[ch := rest]>;;
      if negb (ack_Accepted ack)
      then SubscribeRemote_done s publicationID;;
           mret (inl (mkError CodeRemoteTrackNotFound (ack_Reason ack) "" roomID ""))
      else
        with_session s (inl (error CodeMediaSessionInvalid "")) (λ v,
          let rt := newRemoteTrack (remote_info roomID publicationID remoteNodeID ack) (s_ID v) in
          let add (handle : option nat) :=
            r ← alloc_id;
            upd_tracks <[r := mkTrack (rt_Info rt) (rt_SessionID rt) RemoteTrackActive handle]>;;
            addTrack s publicationID r;;
            emit (BMetric mediaRemoteTrackAdd);;
            SubscribeRemote_done s publicationID;;
            mret (inr r) in
          sink ← gets b_sink;
          if sink : bool then
            match sinkAnswer with
            | inr herr => SubscribeRemote_done s publicationID;; mret (inl herr)
            | inl h => add (Some h)
            end
          else add None)
  | _ =>
      SubscribeRemote_done s publicationID;;
      mret (inl (error CodeMediaTransportTimeout "media subscribe timed out"))
  end.

(** src/internal/cluster/media_bridge.go:297-299 [SubscribeRemote]  The feedback
    callback handed to the SFU. *)
Definition rtcpToOrigin (s : nat) (publicationID : string) (pkt : list byte) : BM unit :=
  with_session s tt (λ v, emit (ConnSendRTCP (s_conn v) publicationID pkt)).

(** src/internal/cluster/media_bridge.go:315-331 [UnsubscribeRemote] *)
Definition UnsubscribeRemote (remoteNodeID publicationID subscriberID : string) : BM unit :=
  ms ← gets (λ b, byNode b !! remoteNodeID);
  match ms with
  | None => mret tt
  | Some s =>
      removeTrack s publicationID;;
      emit (BMetric mediaRemoteTrackDel);;
      with_session s tt (λ v,
        emit (SendControl remoteNodeID
          (MediaUnsubscribe (Some (mkUnsub (s_IDHex v) publicationID subscriberID)))))
  end.

(** src/internal/cluster/media_bridge.go:356-395 [onSessionOpen]  [accepted] is the
    answer of [acceptSession], [sent] the error of sending the reply, if any; the
    second result names the session [promoteWhenReady] is started for. *)
Definition onSessionOpen (source : string) (p : option mediaSessionOpen) (accepted : nat + Error)
    (sent : option Error) : BM (option Error * option nat) :=
  match p with
  | None => mret (Some (error CodeMediaSessionInvalid "bad session open"), None)
  | Some p =>
      if decide (open_SessionID p = "")
      then mret (Some (error CodeMediaSessionInvalid "bad session open"), None)
      else match hex_decode (open_SessionID p) with
      | None => mret (Some (error CodeMediaSessionInvalid "bad session id"), None)
      | Some id =>
          if negb (blen id =? 16) then mret (Some (error CodeMediaSessionInvalid "bad session id"), None)
          else match accepted with
          | inr err => mret (Some err, None)
          | inl c =>
              b ← get;
              s ← alloc_id;
              upd_sessions <[s := newMediaSession id (open_RoomID p) (b_selfID b) source c]>;;
              wireConn s c;;
              sess ← match bySID b !! open_SessionID p with
                     | None =>
                         upd_maps <[source := s]> <[open_SessionID p := s]>;;
                         emit (BMetric mediaSessionCreated);;
                         mret s
                     | Some known => mret known
                     end;
              emit (SendControl source
                (MediaSessionAccept (Some (mkAccept (open_SessionID p) (b_localAddr b)))));;
              mret (sent, Some sess)
          end
      end
  end.

(** src/internal/cluster/media_bridge.go:412-425 [resolveAccept] *)
Definition resolveAccept (p : option mediaSessionAccept) : BM (option Error) :=
  match p with
  | None => mret (Some (error CodeMediaSessionInvalid "bad accept"))
  | Some p =>
      ch ← gets (λ b, pendingAccept b !! accept_SessionID p);
      upd_pending (delete (accept_SessionID p)) id;;
      match ch with
      | None => mret tt
      | Some ch => upd_chans (alter (λ l, l ++ [p]) ch) id
      end;;
      mret None
  end.

(** src/internal/cluster/media_bridge.go:427-437 [resolveReject]  The close runs in
    its own goroutine: the pointer it is started for is the result. *)
Definition resolveReject (sessionID : string) : BM (option nat) :=
  ms ← gets (λ b, bySID b !! sessionID);
  upd_pending (delete sessionID) id;;
  mret ms.

(** src/internal/cluster/media_bridge.go:439-449 [onSessionClose] *)
Definition onSessionClose (sessionID : string) : BM unit :=
  ms ← gets (λ b, bySID b !! sessionID);
  match ms with Some s => session_Close s | None => mret tt end.

(** src/internal/cluster/media_bridge.go:451-491 [onSubscribe]  [attached] is the
    answer of [AttachForwarder]: the parameters and the detach function. *)
Definition reject_ack (p : mediaSubscribe) (reason : string) : control :=
  MediaSubscribeAck (Some (mkAck (sub_SessionID p) (sub_PublicationID p) "" "" "" 0 0 0 0 false reason)).
Definition onSubscribe (source : string) (p : option mediaSubscribe)
    (attached : option (RemotePublicationInfo * nat)) (sent : option Error) : BM (option Error) :=
  match p with
  | None => mret (Some (error CodeMediaSessionInvalid "bad subscribe"))
  | Some p =>
      b ← get;
      match bySID b !! sub_SessionID p with
      | None => emit (SendControl source (reject_ack p CodeMediaSessionNotFound));; mret sent
      | Some s =>
          if negb (b_source b)
          then emit (SendControl source (reject_ack p CodeRemoteTrackNotFound));; mret sent
          else match attached with
          | None => emit (SendControl source (reject_ack p CodeRemoteTrackNotFound));; mret sent
          | Some (info, d) =>
              addForwarder s (sub_PublicationID p) d;;
              emit (SendControl source (MediaSubscribeAck (Some
                (mkAck (sub_SessionID p) (sub_PublicationID p) (info_ParticipantID info) (info_Kind info)
                   (info_MimeType info) (info_ClockRate info) (info_Channels info) (info_PayloadType info)
                   (info_SSRC info) true ""))));;
              mret sent
          end
      end
  end.

(** src/internal/cluster/media_bridge.go:474-476 [onSubscribe]  The callback that
    copies a local publication's packets to the peer. *)
Definition forward (s : nat) (publicationID : string) (pkt : list byte) : BM unit :=
  with_session s tt (λ v, emit (ConnSendRTP (s_conn v) publicationID pkt)).

(** src/internal/cluster/media_bridge.go:493-509 [resolveSubAck]  Sending on the
    channel when its slot is taken blocks the handler. *)
Definition resolveSubAck (p : option mediaSubscribeAck) : BM (option Error) :=
  match p with
  | None => mret (Some (error CodeMediaSessionInvalid "bad subscribe ack"))
  | Some p =>
      b ← get;
      match v ← bySID b !! ack_SessionID p; s ← b_sessions b !! v;
            pendingSubAck b !! sub_key s (ack_PublicationID p) with
      | None => mret None
      | Some ch =>
          match b_acks b !! ch with
          | Some [] => upd_chans id <[ch := [p]]>;; mret None
          | _ => emit (WouldBlock ch);; mret None
          end
      end
  end.

(** src/internal/cluster/media_bridge.go:511-523 [onUnsubscribe] *)
Definition onUnsubscribe (p : option mediaUnsubscribe) : BM (option Error) :=
  match p with
  | None => mret (Some (error CodeMediaSessionInvalid "bad unsubscribe"))
  | Some p =>
      ms ← gets (λ b, bySID b !! unsub_SessionID p);
      match ms with Some s => removeForwarder s (unsub_PublicationID p) | None => mret tt end;;
      mret None
  end.

(** src/internal/cluster/media_bridge.go:525-538 [onTrackEnded] *)
Definition onTrackEnded (p : option mediaTrackEnded) : BM (option Error) :=
  match p with
  | None => mret (Some (error CodeMediaSessionInvalid "bad track ended"))
  | Some p =>
      ms ← gets (λ b, bySID b !! ended_SessionID p);
      match ms with
      | Some s => removeTrack s (ended_PublicationID p);; emit (BMetric mediaRemoteTrackDel)
      | None => mret tt
      end;;
      mret None
  end.

(** What the neighbours answer while a control message is handled. *)
Record answers := mkAnswers {
  an_accepted : nat + Error;
  an_attached : option (RemotePublicationInfo * nat);
  an_sent : option Error
}.

(** src/internal/cluster/media_bridge.go:333-354 [handleControl] *)
Definition handleControl (source : string) (msg : control) (an : answers) : BM (option Error) :=
  match msg with
  | MediaSessionOpen p =>
      r ← onSessionOpen source p (an_accepted an) (an_sent an);
      mret r.1
  | MediaSessionAccept p => resolveAccept p
  | MediaSessionReject sid => resolveReject sid;; mret None
  | MediaSessionClose sid => onSessionClose sid;; mret None
  | MediaSubscribe p => onSubscribe source p (an_attached an) (an_sent an)
  | MediaSubscribeAck p => resolveSubAck p
  | MediaUnsubscribe p => onUnsubscribe p
  | MediaTrackEnded p => onTrackEnded p
  | UnknownControl => mret (Some (error CodeClusterMessageInvalid "unknown media message"))
  end.

(** src/internal/cluster/media_bridge.go:540-563 [PublicationEnded] *)
Definition PublicationEnded (roomID publicationID : string) : BM unit :=
  sessions ← gets (λ b, (map_to_list (byNode b)).*2);
  for_each sessions (λ s,
    with_session s tt (λ v,
      when (bool_decide (is_Some (s_forwarders v !! publicationID)))
        (removeForwarder s publicationID;;
         emit (SendControl (s_RemoteNodeID v)
           (MediaTrackEnded (Some (mkEnded (s_IDHex v) publicationID))))))).

(** src/internal/cluster/media_bridge.go:565-581 [Close]  The transport is closed
    afterwards. *)
Definition bridge_Close : BM unit :=
  b ← get;
  if b_closed b then mret tt
  else
    set_flags false false true;;
    for_each ((map_to_list (bySID b)).*2) session_Close.

(** ** Runs *)

Inductive bridge_op :=
| BEnsure (remote room : string) (reg : option NodeInfo) (sid : list byte) (dialed : nat + Error)
| BAsk (s : nat) (remote room : string) (ok : bool)
| BAccepted (s ch : nat)
| BPromote (s : nat)
| BSubBegin (s : nat) (pub : string)
| BSubAsk (s : nat) (remote room pub subscriber : string) (ok : bool)
| BSubFinish (s ch : nat) (remote room pub : string) (sinkAnswer : nat + Error)
| BFeedback (s : nat) (pub : string) (pkt : list byte)
| BForward (s : nat) (pub : string) (pkt : list byte)
| BUnsubscribe (remote pub subscriber : string)
| BControl (source : string) (m : control) (an : answers)
| BPublicationEnded (room pub : string)
| BCloseSession (s : nat)
| BLost (c : nat)
| BRTP (c : nat) (key : string) (pkt : list byte)
| BRTCP (c : nat) (key : string) (pkt : list byte)
| BSetSink
| BSetSource
| BCloseBridge.

Definition perform (o : bridge_op) : BM unit :=
  match o with
  | BEnsure remote room reg sid dialed => EnsureSession_begin remote room reg sid dialed;; mret tt
  | BAsk s remote room ok => EnsureSession_ask s remote room ok;; mret tt
  | BAccepted s ch => EnsureSession_accepted s ch;; mret tt
  | BPromote s => waitActive_promote s
  | BSubBegin s pub => SubscribeRemote_begin s pub;; mret tt
  | BSubAsk s remote room pub sub ok => SubscribeRemote_ask s remote room pub sub ok;; mret tt
  | BSubFinish s ch remote room pub ans => SubscribeRemote_finish s ch remote room pub ans;; mret tt
  | BFeedback s pub pkt => rtcpToOrigin s pub pkt
  | BForward s pub pkt => forward s pub pkt
  | BUnsubscribe remote pub sub => UnsubscribeRemote remote pub sub
  | BControl source m an => handleControl source m an;; mret tt
  | BPublicationEnded room pub => PublicationEnded room pub
  | BCloseSession s => session_Close s
  | BLost c => onSessionLost c
  | BRTP c key pkt => onRTP c key pkt
  | BRTCP c key pkt => onRTCP c key pkt
  | BSetSink => SetSink
  | BSetSource => SetSource
  | BCloseBridge => bridge_Close
  end.

(** A subscription is finished on the session [EnsureSession] returned for its
    node. *)
Definition enabled (o : bridge_op) (b : mediaBridge) : Prop :=
  match o with
  | BSubFinish s _ remote _ _ _ => s_RemoteNodeID <$> b_sessions b !! s = Some remote
  | _ => True
  end.

Inductive bridge_reachable (cfg : MediaConfig) (self addr : string) : mediaBridge → Prop :=
| reach_new : bridge_reachable cfg self addr (newMediaBridge cfg self addr)
| reach_step b o : bridge_reachable cfg self addr b → enabled o b →
    bridge_reachable cfg self addr (final (perform o) b).

(** ** The invariant *)

(** A mirrored track belongs to its session: same node, same session id, filed
    under its publication id. *)
Definition track_ok (v : MediaSession) (pub : string) (t : RemoteTrack) : Prop :=
  info_PublicationID (rt_Info t) = pub ∧ info_OriginNodeID (rt_Info t) = s_RemoteNodeID v
  ∧ rt_SessionID t = s_ID v.

Record bridge_inv (b : mediaBridge) : Prop := {
  bi_sessions : ∀ s v, b_sessions b !! s = Some v → (s < b_next b)%nat;
  bi_tracks : ∀ r t, b_tracks b !! r = Some t → (r < b_next b)%nat;
  bi_byNode : ∀ n s, byNode b !! n = Some s → ∃ v, b_sessions b !! s = Some v ∧ s_RemoteNodeID v = n;
  bi_bySID : ∀ k s, bySID b !! k = Some s → is_Some (b_sessions b !! s);
  bi_wired : ∀ c s, b_wired b !! c = Some s → ∃ v, b_sessions b !! s = Some v ∧ s_conn v = c;
  bi_mirror : ∀ s v pub r, b_sessions b !! s = Some v → s_tracks v !! pub = Some r →
    ∃ t, b_tracks b !! r = Some t ∧ track_ok v pub t;
  bi_ended : ∀ r t, b_tracks b !! r = Some t → rt_state t = RemoteTrackEnded → rt_handle t = None
}.

Lemma bridge_inv_new cfg self addr : bridge_inv (newMediaBridge cfg self addr).
Proof. split; simpl; intros *; rewrite lookup_empty; done. Qed.

(** Updates of the channels, the pending tables and the flags. *)
Lemma preserves_upd_pending f g : preserves bridge_inv (upd_pending f g).
Proof. intros b [? ? ? ? ? ? ?]. by split. Qed.

Lemma preserves_upd_chans f g : preserves bridge_inv (upd_chans f g).
Proof. intros b [? ? ? ? ? ? ?]. by split. Qed.

Lemma preserves_set_flags x y z : preserves bridge_inv (set_flags x y z).
Proof. intros b [? ? ? ? ? ? ?]. by split. Qed.

Lemma preserves_alloc_id : preserves bridge_inv alloc_id.
Proof.
  intros b [H1 H2 ? ? ? ? ?]. split; simpl; try done.
  - intros s v E. specialize (H1 _ _ E). lia.
  - intros r t E. specialize (H2 _ _ E). lia.
Qed.

(** An update of one session that keeps its identity and at most forgets tracks. *)
Lemma preserves_upd_session s f :
  (∀ v, s_conn (f v) = s_conn v ∧ s_RemoteNodeID (f v) = s_RemoteNodeID v ∧ s_ID (f v) = s_ID v
        ∧ s_tracks (f v) ⊆ s_tracks v) →
  preserves bridge_inv (upd_sessions (alter f s)).
Proof.
  intros Hf b [H1 H2 H3 H4 H5 H6 H7].
  assert (∀ s' v', alter f s (b_sessions b) !! s' = Some v' →
    ∃ v, b_sessions b !! s' = Some v ∧ (v' = v ∨ v' = f v)) as Hold.
  { intros s' v'. destruct (decide (s' = s)) as [->|]; [|rewrite lookup_alter_ne by done; eauto].
    rewrite lookup_alter_eq. destruct (b_sessions b !! s) as [v|]; simpl; [|done].
    intros [= <-]. eauto. }
  assert (∀ s' v, b_sessions b !! s' = Some v →
    ∃ v', alter f s (b_sessions b) !! s' = Some v' ∧ s_conn v' = s_conn v
          ∧ s_RemoteNodeID v' = s_RemoteNodeID v) as Hnew.
  { intros s' v E. destruct (decide (s' = s)) as [->|].
    - exists (f v). rewrite lookup_alter_eq, E. destruct (Hf v) as (?&?&_). done.
    - exists v. by rewrite lookup_alter_ne. }
  split; simpl; try done.
  - intros s' v' E. destruct (Hold _ _ E) as (v & E' & _). eauto.
  - intros n s' E. destruct (H3 _ _ E) as (v & E1 & E2). destruct (Hnew _ _ E1) as (v' & E3 & _ & E4).
    exists v'. by rewrite E4.
  - intros k s' E. destruct (H4 _ _ E) as [v E1]. destruct (Hnew _ _ E1) as (v' & E3 & _). eauto.
  - intros c s' E. destruct (H5 _ _ E) as (v & E1 & E2). destruct (Hnew _ _ E1) as (v' & E3 & E4 & _).
    exists v'. by rewrite E4.
  - intros s' v' pub r E Er. destruct (Hold _ _ E) as (v & E' & Hv).
    destruct (Hf v) as (_ & F2 & F3 & F4).
    assert (s_tracks v !! pub = Some r) as Er'.
    { destruct Hv as [-> | ->]; [done|]. by eapply lookup_weaken. }
    destruct (H6 _ _ _ _ E' Er') as (t & Et & G1 & G2 & G3). exists t. split; [done|].
    destruct Hv as [-> | ->]; split_and!; congruence.
Qed.

(** Ending a track. *)
Lemma preserves_track_end r : preserves bridge_inv (track_end r).
Proof.
  intros b Hb. unfold track_end. rewrite final_bind, value_gets, final_gets.
  destruct (b_tracks b !! r) as [t|] eqn:E; [|done].
  case_decide as Hs; [done|]. rewrite final_bind.
  assert (bridge_inv (final (upd_tracks <[r := mkTrack (rt_Info t) (rt_SessionID t) RemoteTrackEnded None]>) b)).
  { destruct Hb as [H1 H2 H3 H4 H5 H6 H7]. split; simpl; try done.
    - intros r' t'. destruct (decide (r' = r)) as [->|]; [intros _; eauto|].
      rewrite lookup_insert_ne by done. eauto.
    - intros s v pub r' Ev Er. destruct (H6 _ _ _ _ Ev Er) as (t' & Et' & Ht').
      destruct (decide (r' = r)) as [->|]; [|exists t'; by rewrite lookup_insert_ne].
      rewrite lookup_insert_eq. eexists. split; [done|]. rewrite E in Et'. by injection Et' as <-.
    - intros r' t'. destruct (decide (r' = r)) as [->|].
      + rewrite lookup_insert_eq. by intros [= <-].
      + rewrite lookup_insert_ne by done. eauto. }
  by destruct (rt_handle t).
Qed.

#[export] Hint Resolve preserves_upd_pending preserves_upd_chans preserves_set_flags preserves_alloc_id
  preserves_track_end : preserves.

Lemma preserves_with_session {A} s (none : A) f :
  (∀ v, preserves bridge_inv (f v)) → preserves bridge_inv (with_session s none f).
Proof.
  intros Hf b Hb. unfold with_session, session_at. rewrite final_bind, value_gets, final_gets.
  destruct (b_sessions b !! s) as [v|]; [by apply Hf|done].
Qed.

(** The lemmas about the program's own operations; extended below. *)
Ltac keep_op := first [ apply preserves_track_end | apply preserves_alloc_id ].

Ltac keep_step :=
  first
    [ apply preserves_upd_pending | apply preserves_upd_chans | apply preserves_set_flags
    | apply preserves_upd_session; intros ?; split_and!;
      [done..|first [done|apply delete_subseteq|apply map_empty_subseteq]]
    | apply (preserves_for_each bridge_inv)
    | apply preserves_bind | apply preserves_when | apply preserves_with_session | apply preserves_ret
    | apply preserves_get | apply preserves_gets | apply preserves_emit
    | case_match ].

Ltac keep := repeat (intros; first [keep_op | keep_step]).

Lemma preserves_addForwarder s pub d : preserves bridge_inv (addForwarder s pub d).
Proof. unfold addForwarder. keep. Qed.

Lemma preserves_removeForwarder s pub : preserves bridge_inv (removeForwarder s pub).
Proof. unfold removeForwarder. keep. Qed.

Lemma preserves_removeTrack s pub : preserves bridge_inv (removeTrack s pub).
Proof. unfold removeTrack. keep. Qed.

(** Removing entries from the maps of the bridge. *)
Lemma preserves_upd_maps_sub f g :
  (∀ m, f m ⊆ m) → (∀ m, g m ⊆ m) → preserves bridge_inv (upd_maps f g).
Proof.
  intros Hf Hg b [H1 H2 H3 H4 H5 H6 H7]. split; simpl; try done.
  - intros n s E. apply (H3 n). by eapply lookup_weaken.
  - intros k s E. apply (H4 k). by eapply lookup_weaken.
Qed.

Lemma preserves_forget s : preserves bridge_inv (forget s).
Proof.
  unfold forget. keep; apply preserves_upd_maps_sub; intros ?; try apply delete_subseteq; done.
Qed.

Ltac keep_op ::= first
  [ apply preserves_track_end | apply preserves_alloc_id | apply preserves_addForwarder
  | apply preserves_removeForwarder | apply preserves_removeTrack | apply preserves_forget ].

Lemma preserves_session_Close s : preserves bridge_inv (session_Close s).
Proof. unfold session_Close. keep. Qed.

(** A new session, entered into the wiring and possibly into the maps. *)
Lemma inv_new_session b sid room self remote c (keys : option string) :
  bridge_inv b →
  bridge_inv (final (
    s ← alloc_id;
    upd_sessions <[s := newMediaSession sid room self remote c]>;;
    wireConn s c;;
    match keys with Some k => upd_maps <[remote := s]> <[k := s]> | None => mret tt end) b).
Proof.
  intros [H1 H2 H3 H4 H5 H6 H7].
  assert (∀ s v, b_sessions b !! s = Some v → s ≠ b_next b) as Hne.
  { intros s v E ->. specialize (H1 _ _ E). lia. }
  set (v0 := newMediaSession sid room self remote c).
  assert (∀ n s, byNode b !! n = Some s →
    ∃ v, <[b_next b := v0]> (b_sessions b) !! s = Some v ∧ s_RemoteNodeID v = n) as G3.
  { intros n s E. destruct (H3 _ _ E) as (v & Ev & Hv). exists v.
    rewrite lookup_insert_ne; [done|]. by apply not_eq_sym, (Hne _ v). }
  assert (∀ k s, bySID b !! k = Some s → is_Some (<[b_next b := v0]> (b_sessions b) !! s)) as G4.
  { intros k s E. destruct (H4 _ _ E) as (v & Ev). exists v.
    rewrite lookup_insert_ne; [done|]. by apply not_eq_sym, (Hne _ v). }
  unfold alloc_id, upd_sessions, wireConn, upd_wired. rewrite !final_bind. autorewrite with mrun.
  destruct keys as [k|]; split; simpl; try done.
  all: try (intros s v E; destruct (decide (s = b_next b)) as [->|]; [lia|];
    rewrite lookup_insert_ne in E by done; specialize (H1 _ _ E); lia).
  all: try (intros r t E; specialize (H2 _ _ E); lia).
  all: try (intros c' s; destruct (decide (c' = c)) as [->|];
    [rewrite lookup_insert_eq; intros [= <-]; exists v0; by rewrite lookup_insert_eq
    |rewrite lookup_insert_ne by done; intros E; destruct (H5 _ _ E) as (v & Ev & Hv); exists v;
     rewrite lookup_insert_ne; [done|by apply not_eq_sym, (Hne _ v)]]).
  all: try (intros s v pub r E Er; destruct (decide (s = b_next b)) as [->|];
    [rewrite lookup_insert_eq in E; injection E as <-; simpl in Er; by rewrite lookup_empty in Er
    |rewrite lookup_insert_ne in E by done; eauto]).
  - intros n s. destruct (decide (n = remote)) as [->|]; [|rewrite lookup_insert_ne by done; auto].
    rewrite lookup_insert_eq. intros [= <-]. exists v0. by rewrite lookup_insert_eq.
  - intros k' s. destruct (decide (k' = k)) as [->|]; [|rewrite lookup_insert_ne by done; eauto].
    rewrite lookup_insert_eq. intros [= <-]. exists v0. by rewrite lookup_insert_eq.
Qed.

(** A new track filed in its session. *)
Lemma inv_add_track b s v pub t :
  b_sessions b !! s = Some v → track_ok v pub t → rt_state t = RemoteTrackActive →
  bridge_inv b →
  bridge_inv (final (r ← alloc_id; upd_tracks <[r := t]>;; addTrack s pub r) b).
Proof.
  intros Ev Ht Hact [H1 H2 H3 H4 H5 H6 H7].
  assert (∀ r t', b_tracks b !! r = Some t' → b_next b ≠ r) as Hne.
  { intros r t' E En. specialize (H2 _ _ E). lia. }
  unfold alloc_id, upd_tracks, addTrack, upd_sessions. rewrite !final_bind. autorewrite with mrun.
  split; simpl.
  - intros s' v'. destruct (decide (s' = s)) as [->|].
    + intros _. specialize (H1 _ _ Ev). lia.
    + rewrite lookup_alter_ne by done. intros E. specialize (H1 _ _ E). lia.
  - intros r t' E. destruct (decide (r = b_next b)) as [->|]; [lia|].
    rewrite lookup_insert_ne in E by done. specialize (H2 _ _ E). lia.
  - intros n s' E. destruct (H3 _ _ E) as (v' & E1 & E2).
    destruct (decide (s' = s)) as [->|]; [|exists v'; by rewrite lookup_alter_ne].
    rewrite lookup_alter_eq, E1. by eexists.
  - intros k s' E. destruct (H4 _ _ E) as [v' E1].
    destruct (decide (s' = s)) as [->|]; [rewrite lookup_alter_eq, E1; by eexists|].
    exists v'. by rewrite lookup_alter_ne.
  - intros c s' E. destruct (H5 _ _ E) as (v' & E1 & E2).
    destruct (decide (s' = s)) as [->|]; [|exists v'; by rewrite lookup_alter_ne].
    rewrite lookup_alter_eq, E1. by eexists.
  - intros s' v' pub' r E Er. destruct (decide (s' = s)) as [->|].
    + rewrite lookup_alter_eq, Ev in E. injection E as <-. simpl in Er.
      destruct (decide (pub' = pub)) as [->|].
      * rewrite lookup_insert_eq in Er. injection Er as <-. exists t.
        by rewrite lookup_insert_eq.
      * rewrite lookup_insert_ne in Er by done. destruct (H6 _ _ _ _ Ev Er) as (t' & Et' & Ht').
        exists t'. by rewrite lookup_insert_ne by eauto.
    + rewrite lookup_alter_ne in E by done. destruct (H6 _ _ _ _ E Er) as (t' & Et' & Ht').
      exists t'. by rewrite lookup_insert_ne by eauto.
  - intros r t' E. destruct (decide (r = b_next b)) as [->|].
    + rewrite lookup_insert_eq in E. injection E as <-. by rewrite Hact.
    + rewrite lookup_insert_ne in E by done. eauto.
Qed.

Ltac keep_op ::= first
  [ apply preserves_track_end | apply preserves_alloc_id | apply preserves_addForwarder
  | apply preserves_removeForwarder | apply preserves_removeTrack | apply preserves_forget
  | apply preserves_session_Close ].

Lemma preserves_EnsureSession_begin remote room reg sid dialed :
  preserves bridge_inv (EnsureSession_begin remote room reg sid dialed).
Proof.
  intros b Hb.
  assert (bridge_inv (final (EnsureSession_open remote room reg sid dialed) b)).
  { unfold EnsureSession_open. destruct reg as [info|]; [|done]. case_decide; [done|].
    destruct (negb _); [done|]. destruct dialed as [c|err]; [|done].
    pose proof (inv_new_session b sid room (b_selfID b) remote c (Some (hex_encode sid)) Hb) as Hn.
    rewrite final_bind, value_gets, final_gets. rewrite !final_bind in *.
    by apply preserves_upd_pending, preserves_upd_chans, preserves_alloc_id. }
  unfold EnsureSession_begin. rewrite final_bind, value_get, final_get.
  destruct (b_closed b); [done|]. destruct (byNode b !! remote) as [s|]; [|done]. by case_decide.
Qed.

Lemma preserves_SubscribeRemote_done s pub : preserves bridge_inv (SubscribeRemote_done s pub).
Proof. unfold SubscribeRemote_done. keep. Qed.

Lemma preserves_SubscribeRemote_finish s ch remote room pub ans b :
  s_RemoteNodeID <$> b_sessions b !! s = Some remote →
  bridge_inv b → bridge_inv (final (SubscribeRemote_finish s ch remote room pub ans) b).
Proof.
  intros Hr Hb. unfold SubscribeRemote_finish. rewrite final_bind, value_gets, final_gets.
  destruct (b_acks b !! ch) as [[|ack rest]|];
    try (rewrite final_bind; by apply preserves_SubscribeRemote_done).
  rewrite final_bind. set (b1 := final (upd_chans id <[ch := rest]>) b).
  assert (bridge_inv b1) as Hb1 by by apply preserves_upd_chans.
  assert (b_sessions b1 = b_sessions b) as Es by done.
  destruct (negb _); [rewrite final_bind; by apply preserves_SubscribeRemote_done|].
  unfold with_session, session_at. rewrite final_bind, value_gets, final_gets, Es.
  destruct (b_sessions b !! s) as [v|] eqn:Ev; [|done]. injection Hr as Hr.
  assert (∀ h, bridge_inv (final (r ← alloc_id;
    upd_tracks <[r := mkTrack (remote_info room pub remote ack) (s_ID v) RemoteTrackActive h]>;;
    addTrack s pub r) b1)) as Hadd.
  { intros h. apply (inv_add_track _ _ v); [by rewrite Es| |done..]. by split_and!. }
  rewrite final_bind, value_gets, final_gets.
  assert (∀ h, bridge_inv (final (r ← alloc_id;
    upd_tracks <[r := mkTrack (remote_info room pub remote ack) (s_ID v) RemoteTrackActive h]>;;
    addTrack s pub r;; emit (BMetric mediaRemoteTrackAdd);; SubscribeRemote_done s pub;;
    mret (inr (A := Error) r)) b1)) as Hall.
  { intros h. specialize (Hadd h). rewrite !final_bind in *. by apply preserves_SubscribeRemote_done. }
  destruct (b_sink b1); [|apply Hall]. destruct ans as [h|herr]; [apply Hall|].
  rewrite final_bind. by apply preserves_SubscribeRemote_done.
Qed.

Lemma preserves_onSessionOpen source p accepted sent :
  preserves bridge_inv (onSessionOpen source p accepted sent).
Proof.
  intros b Hb. unfold onSessionOpen. destruct p as [p|]; [|done]. case_decide; [done|].
  destruct (hex_decode (open_SessionID p)) as [sid|]; [|done]. destruct (negb _); [done|].
  destruct accepted as [c|err]; [|done]. rewrite final_bind, value_get, final_get.
  destruct (bySID b !! open_SessionID p) as [known|].
  - pose proof (inv_new_session b sid (open_RoomID p) (b_selfID b) source c None Hb) as Hn.
    by rewrite !final_bind in *.
  - pose proof (inv_new_session b sid (open_RoomID p) (b_selfID b) source c
      (Some (open_SessionID p)) Hb) as Hn. by rewrite !final_bind in *.
Qed.

Lemma preserves_handleControl source m an : preserves bridge_inv (handleControl source m an).
Proof.
  destruct m; simpl;
    [apply preserves_bind; [apply preserves_onSessionOpen|keep]
    |unfold resolveAccept|unfold resolveReject|unfold onSessionClose|unfold onSubscribe
    |unfold resolveSubAck|unfold onUnsubscribe|unfold onTrackEnded|]; keep.
Qed.

Lemma preserves_other o :
  (∀ s ch remote room pub a, o ≠ BSubFinish s ch remote room pub a) → preserves bridge_inv (perform o).
Proof.
  intros Ho. destruct o; simpl.
  - apply preserves_bind; [apply preserves_EnsureSession_begin|keep].
  - unfold EnsureSession_ask. keep.
  - unfold EnsureSession_accepted. keep.
  - apply preserves_upd_session. by intros.
  - unfold SubscribeRemote_begin, track. keep.
  - unfold SubscribeRemote_ask. keep; apply preserves_SubscribeRemote_done.
  - by destruct (Ho s ch remote room pub sinkAnswer).
  - unfold rtcpToOrigin. keep.
  - unfold forward. keep.
  - unfold UnsubscribeRemote. keep.
  - apply preserves_bind; [apply preserves_handleControl|keep].
  - unfold PublicationEnded. keep.
  - apply preserves_session_Close.
  - unfold onSessionLost. keep.
  - unfold onRTP, track, track_writeRTP. keep.
  - unfold onRTCP, track, track_writeRTCP. keep.
  - apply preserves_set_flags.
  - apply preserves_set_flags.
  - unfold bridge_Close. keep.
Qed.

Lemma bridge_perform o b : enabled o b → bridge_inv b → bridge_inv (final (perform o) b).
Proof.
  intros He Hb. destruct o as [| | | | | |s ch remote room pub a| | | | | | | | | | | |];
    try (by apply preserves_other).
  simpl. rewrite final_bind. by apply preserves_SubscribeRemote_finish.
Qed.

Lemma reachable_inv cfg self addr b : bridge_reachable cfg self addr b → bridge_inv b.
Proof. induction 1; [apply bridge_inv_new|by apply bridge_perform]. Qed.

(** ** Where inbound packets go *)

Definition not_rtp (ev : bridge_event) : Prop := ∀ h pkt, ev ≠ HandleWriteRTP h pkt.

Lemma silent_with_session {A} s (none : A) f :
  (∀ v, emits_only not_rtp (f v)) → emits_only not_rtp (with_session s none f).
Proof. intros Hf. unfold with_session, session_at. emits_only. apply Hf. Qed.

Lemma silent_track_end r : emits_only not_rtp (track_end r).
Proof. unfold track_end, upd_tracks. emits_only. Qed.

Lemma silent_session_Close s : emits_only not_rtp (session_Close s).
Proof.
  apply silent_with_session. intros v. emits_only.
Qed.

Lemma silent_alloc : emits_only not_rtp alloc_id.
Proof. unfold alloc_id. emits_only. Qed.

Ltac silent :=
  repeat (intros; first
    [ apply silent_session_Close | apply silent_track_end | apply silent_alloc
    | apply silent_with_session
    | apply emits_only_bind | apply emits_only_when | apply emits_only_ret | apply emits_only_gets
    | apply emits_only_get | apply emits_only_modify | apply emits_only_emit; done
    | apply emits_only_for_each | case_match ]).

Lemma silent_perform o : (∀ c key pkt, o ≠ BRTP c key pkt) → emits_only not_rtp (perform o).
Proof.
  intros Ho. destruct o; simpl; try (by edestruct Ho);
    unfold EnsureSession_begin, EnsureSession_open, wireConn, upd_wired, upd_maps, upd_chans, upd_pending,
      upd_sessions, EnsureSession_ask, EnsureSession_accepted, waitActive_promote, setState,
      SubscribeRemote_begin, track, SubscribeRemote_ask, SubscribeRemote_done, SubscribeRemote_finish,
      addTrack, upd_tracks, rtcpToOrigin, forward, UnsubscribeRemote, removeTrack, PublicationEnded,
      removeForwarder, onSessionLost, onRTCP, track_writeRTCP, bridge_Close, SetSink, SetSource, set_flags;
    try (silent; fail).
  destruct m; simpl;
    unfold onSessionOpen, resolveAccept, resolveReject, onSessionClose, onSubscribe, resolveSubAck,
      onUnsubscribe, onTrackEnded, wireConn, upd_wired, upd_maps, upd_chans, upd_pending, upd_sessions,
      addForwarder, removeForwarder, removeTrack; silent.
Qed.
