(* ===== verification/MediaBridgeSafety.v ===== *)
(** * Theorems about the media bridge

    Mirrored media stays within its session and its publication, closing a session
    releases everything it holds, waiting for a session ends; and runs that show
    where the bridge does not do what it means to. *)

From S2P Require Import Prelude Bytes ClusterTypes Sfu MediaBridge.

(** ** Isolation *)

Lemma onRTP_outputs c key pkt b ev :
  ev ∈ outputs (onRTP c key pkt) b →
  ∃ s r t h, b_wired b !! c = Some s ∧ value (track s key) b = Some r ∧ b_tracks b !! r = Some t
    ∧ rt_handle t = Some h ∧ rt_state t ≠ RemoteTrackEnded ∧ ev = HandleWriteRTP h pkt.
Proof.
  unfold onRTP. rewrite outputs_bind, outputs_gets, final_gets, value_gets, app_nil_l.
  destruct (b_wired b !! c) as [s|]; [|by intros ?%elem_of_nil].
  rewrite outputs_bind.
  replace (outputs (track s key) b) with (@nil bridge_event) by done.
  replace (final (track s key) b) with b by done. rewrite app_nil_l.
  destruct (value (track s key) b) as [r|] eqn:Er; [|by intros ?%elem_of_nil].
  unfold track_writeRTP. rewrite outputs_bind, outputs_gets, final_gets, value_gets, app_nil_l.
  destruct (b_tracks b !! r) as [t|] eqn:Et; [|by intros ?%elem_of_nil].
  destruct (rt_handle t) as [h|] eqn:Eh; [|by intros ?%elem_of_nil].
  case_decide as Hs; [by intros ?%elem_of_nil|]. rewrite outputs_emit. intros ->%list_elem_of_singleton.
  eauto 10.
Qed.

(** C17: Mirrored media stays where it belongs.  In every state the bridge can reach,
    the only step that writes a packet into a mirrored publication of the local SFU
    is the arrival of that packet on a connection under some key, and the
    publication written is the live mirror filed under that key in the session the
    connection is wired to: its publication id is the key, its origin is the node
    of that session, and its session id is the session's. *)
Theorem mirror_isolation cfg self addr b o h pkt :
  bridge_reachable cfg self addr b →
  HandleWriteRTP h pkt ∈ outputs (perform o) b →
  ∃ c key s v r t,
    o = BRTP c key pkt
    ∧ b_wired b !! c = Some s ∧ b_sessions b !! s = Some v ∧ s_conn v = c
    ∧ s_tracks v !! key = Some r ∧ b_tracks b !! r = Some t
    ∧ rt_handle t = Some h ∧ rt_state t ≠ RemoteTrackEnded
    ∧ info_PublicationID (rt_Info t) = key
    ∧ info_OriginNodeID (rt_Info t) = s_RemoteNodeID v
    ∧ rt_SessionID t = s_ID v.
Proof.
  intros Hr Hin. apply reachable_inv in Hr.
  destruct o as [| | | | | | | | | | | | | |c key p| | | |];
    try (exfalso; revert Hin; apply (emits_only_not_in not_rtp);
         [apply silent_perform; done|by intros Hn; edestruct Hn]).
  simpl in Hin. apply onRTP_outputs in Hin as (s & r & t & h' & Hw & Ht & Et & Eh & Es & [= <- <-]).
  destruct (bi_wired _ Hr _ _ Hw) as (v & Ev & Hc).
  unfold track in Ht. rewrite value_gets, Ev in Ht. simpl in Ht.
  destruct (bi_mirror _ Hr _ _ _ _ Ev Ht) as (t' & Et' & H1 & H2 & H3).
  rewrite Et in Et'. injection Et' as <-.
  exists c, key, s, v, r, t. done.
Qed.

(** ** Closing a session *)

Definition live_handle (t : RemoteTrack) : option nat :=
  if decide (rt_state t = RemoteTrackEnded) then None else rt_handle t.

Definition ended (t : RemoteTrack) : RemoteTrack :=
  if decide (rt_state t = RemoteTrackEnded) then t
  else mkTrack (rt_Info t) (rt_SessionID t) RemoteTrackEnded None.

Lemma track_end_spec r b t :
  b_tracks b !! r = Some t →
  b_tracks (final (track_end r) b) = <[r := ended t]> (b_tracks b)
  ∧ outputs (track_end r) b = match live_handle t with Some h => [HandleClose h] | None => [] end
  ∧ b_sessions (final (track_end r) b) = b_sessions b
  ∧ byNode (final (track_end r) b) = byNode b ∧ bySID (final (track_end r) b) = bySID b.
Proof.
  intros E. unfold track_end, ended, live_handle. autorewrite with mrun. rewrite E.
  case_decide as Hs; [rewrite outputs_ret, final_ret, insert_id; done|].
  unfold upd_tracks. autorewrite with mrun. by destruct (rt_handle t).
Qed.

(** Ending the tracks of a list: each of them is ended and its handle closed. *)
Lemma track_ends_spec (l : list (string * nat)) b :
  (∀ k r, (k, r) ∈ l → is_Some (b_tracks b !! r)) →
  let m := for_each l (λ kt, track_end kt.2) in
  (∀ r t, b_tracks b !! r = Some t → ∃ t', b_tracks (final m b) !! r = Some t' ∧ (t' = t ∨ t' = ended t))
  ∧ (∀ k r t, (k, r) ∈ l → b_tracks b !! r = Some t →
       b_tracks (final m b) !! r = Some (ended t)
       ∧ ∀ h, live_handle t = Some h → HandleClose h ∈ outputs m b)
  ∧ b_sessions (final m b) = b_sessions b
  ∧ byNode (final m b) = byNode b ∧ bySID (final m b) = bySID b.
Proof.
  assert (∀ t, ended (ended t) = ended t) as Hee.
  { intros t. unfold ended. repeat case_decide; done. }
  revert b. induction l as [|[k0 r0] l IH]; intros b Hl; simpl.
  { split_and!; [|by intros ??? ?%elem_of_nil|done..]. intros r t E. exists t. auto. }
  destruct (Hl k0 r0) as [t0 E0]; [by apply elem_of_cons; left|].
  destruct (track_end_spec r0 b t0 E0) as (F1 & F2 & F3 & F4 & F5).
  rewrite final_bind, outputs_bind. set (b1 := final (track_end r0) b) in *.
  destruct (IH b1) as (G1 & G2 & G3 & G4 & G5).
  { intros k r Hin. rewrite F1. destruct (decide (r = r0)) as [->|];
      [rewrite lookup_insert_eq; eauto|rewrite lookup_insert_ne by done].
    apply (Hl k). apply elem_of_cons. by right. }
  assert (∀ r t, b_tracks b !! r = Some t →
    b_tracks b1 !! r = Some t ∨ (r = r0 ∧ b_tracks b1 !! r = Some (ended t))) as Hstep.
  { intros r t E. rewrite F1. destruct (decide (r = r0)) as [->|].
    - right. rewrite lookup_insert_eq. split; congruence.
    - left. by rewrite lookup_insert_ne. }
  split_and!; [| |congruence..].
  - intros r t E. destruct (Hstep _ _ E) as [E1|[-> E1]]; [by apply G1|].
    destruct (G1 _ _ E1) as (t' & Et' & [-> | ->]); exists (ended t); rewrite ?Hee in Et'; auto.
  - intros k r t Hin E. apply elem_of_cons in Hin as [[= -> ->]|Hin].
    + rewrite E0 in E. injection E as <-. split.
      * assert (b_tracks b1 !! r0 = Some (ended t0)) as E1 by (rewrite F1; apply lookup_insert_eq).
        destruct (G1 _ _ E1) as (t' & Et' & [-> | ->]); by rewrite ?Hee in Et'.
      * intros h Hh. apply elem_of_app. left. rewrite F2, Hh. by apply list_elem_of_singleton.
    + destruct (Hstep _ _ E) as [E1|[-> E1]].
      * destruct (G2 _ _ _ Hin E1) as [G2a G2b]. split; [done|]. intros h Hh.
        apply elem_of_app. right. auto.
      * rewrite E0 in E. injection E as <-. destruct (G2 _ _ _ Hin E1) as [G2a _].
        rewrite Hee in G2a. split; [done|]. intros h Hh. apply elem_of_app. left.
        rewrite F2, Hh. by apply list_elem_of_singleton.
Qed.

Lemma emits_elem {S E A} (l : list A) (f : A → E) (s : S) x :
  x ∈ l → f x ∈ outputs (for_each l (λ a, emit (f a))) s.
Proof.
  induction l as [|a l IH]; [by intros ?%elem_of_nil|]. simpl. rewrite outputs_bind, elem_of_app.
  intros [->|Hin]%elem_of_cons; [left; by apply list_elem_of_singleton|right; by apply IH].
Qed.

Lemma emits_final {S E A} (l : list A) (f : A → E) (s : S) :
  final (for_each l (λ a, emit (f a))) s = s.
Proof. induction l as [|a l IH]; [done|]. simpl. rewrite final_bind. apply IH. Qed.

(** Closing a session releases everything it holds.  From every reachable state,
    the first Close of a session detaches every forwarder it has, ends every track
    mirrored over it and closes its handle in the SFU, closes the connection,
    empties both tables, and removes the session from the bridge's maps; closing it
    again does nothing. *)
Theorem session_close_releases cfg self addr b s v :
  bridge_reachable cfg self addr b → b_sessions b !! s = Some v → s_once v = false →
  let b' := final (session_Close s) b in
  let out := outputs (session_Close s) b in
  b_sessions b' !! s = Some (closed_session v)
  ∧ (∀ pub d, s_forwarders v !! pub = Some d → Detach d ∈ out)
  ∧ (∀ pub r t, s_tracks v !! pub = Some r → b_tracks b !! r = Some t →
       b_tracks b' !! r = Some (ended t) ∧ ∀ h, live_handle t = Some h → HandleClose h ∈ out)
  ∧ ConnClose (s_conn v) ∈ out
  ∧ byNode b' !! s_RemoteNodeID v ≠ Some s ∧ bySID b' !! s_IDHex v = None
  ∧ final (session_Close s) b' = b' ∧ outputs (session_Close s) b' = [].
Proof.
  intros Hr Ev Ho b' out. apply reachable_inv in Hr.
  set (b1 := final (upd_sessions (alter closed_session s)) b).
  set (b2 := final (for_each (map_to_list (s_tracks v)) (λ kt, track_end kt.2)) b1).
  destruct (track_ends_spec (map_to_list (s_tracks v)) b1) as (_ & T2 & T3 & T4 & T5).
  { intros k r Hin%elem_of_map_to_list. destruct (bi_mirror _ Hr _ _ _ _ Ev Hin) as (t & Et & _). by exists t. }
  fold b2 in T2, T3, T4, T5.
  assert (b_sessions b2 !! s = Some (closed_session v)) as Es2.
  { rewrite T3. simpl. by rewrite lookup_alter_eq, Ev. }
  assert (b' = final (forget s) b2 ∧ out =
    (outputs (for_each (map_to_list (s_forwarders v)) (λ kd, emit (Detach kd.2))) b1
     ++ outputs (for_each (map_to_list (s_tracks v)) (λ kt, track_end kt.2)) b1
     ++ [ConnClose (s_conn v)] ++ outputs (forget s) b2)) as [Eb' Eout].
  { subst b' out. unfold session_Close, with_session, session_at.
    rewrite final_bind, outputs_bind, value_gets, final_gets, outputs_gets, Ev, app_nil_l. cbv beta iota.
    rewrite Ho, !final_bind, !outputs_bind, !final_emit, outputs_emit, (emits_final (map_to_list (s_forwarders v))).
    fold b1 b2. split; [done|]. by rewrite app_nil_l. }
  assert (final (forget s) b2 = final (upd_maps
      (λ m, if decide (byNode b2 !! s_RemoteNodeID v = Some s) then delete (s_RemoteNodeID v) m else m)
      (delete (s_IDHex v))) b2) as Ef.
  { unfold forget, with_session, session_at. autorewrite with mrun. rewrite Es2.
    by autorewrite with mrun. }
  assert (b_sessions b' !! s = Some (closed_session v)) as Es' by (by rewrite Eb', Ef).
  split_and!; [done|..].
  - intros pub d Hd. rewrite Eout. apply elem_of_app. left.
    apply (emits_elem _ (λ kd : string * nat, Detach kd.2) _ (pub, d)). by apply elem_of_map_to_list.
  - intros pub r t Hp Et. destruct (T2 pub r t) as [T2a T2b]; [by apply elem_of_map_to_list|done|].
    split; [by rewrite Eb', Ef|]. intros h Hh. rewrite Eout. apply elem_of_app. right.
    apply elem_of_app. left. by apply T2b.
  - rewrite Eout. do 2 (apply elem_of_app; right). apply elem_of_app. left. by apply list_elem_of_singleton.
  - rewrite Eb', Ef. simpl. case_decide as Hd; [by rewrite lookup_delete_eq|done].
  - rewrite Eb', Ef. simpl. by rewrite lookup_delete_eq.
  - unfold session_Close, with_session, session_at. rewrite final_bind, value_gets, final_gets, Es'. done.
  - unfold session_Close, with_session, session_at.
    rewrite outputs_bind, value_gets, final_gets, outputs_gets, Es'. done.
Qed.

(** ** A run *)

Definition sid0 : list byte := replicate 16 x0a.

Definition sid1 : list byte := replicate 16 x0b.

Definition node_B : option NodeInfo :=
  Some (mkNodeInfo "node-b" "b" 8080 "1" NodeReady 0 0 "b:10000").

Definition demo_cfg : MediaConfig :=
  mkMediaConfig true "" 10000 "" (2 * second) 1500 (10 * second) (2 * second) 1024.

Definition fresh_bridge : mediaBridge := newMediaBridge demo_cfg "node-a" "a:10000".

Definition run_bridge (ops : list bridge_op) : mediaBridge := final (for_each ops perform) fresh_bridge.

Definition demo_ack : mediaSubscribeAck :=
  mkAck (hex_encode sid0) "pub-1" "alice" "video" "video/VP8" 90000 0 96 1234 true "".

Definition nothing : answers := mkAnswers (inr (error "" "")) None None.

(** Node A opens a session to node B and mirrors a publication of it. *)
Definition subscribe_run : list bridge_op :=
  [BSetSink; BSetSource;
   BEnsure "node-b" "room-1" node_B sid0 (inl 7%nat); BAsk 0 "node-b" "room-1" true;
   BControl "node-b" (MediaSessionAccept (Some (mkAccept (hex_encode sid0) "b:10000"))) nothing;
   BAccepted 0 1; BPromote 0;
   BSubBegin 0 "pub-1"; BSubAsk 0 "node-b" "room-1" "pub-1" "bob" true;
   BControl "node-b" (MediaSubscribeAck (Some demo_ack)) nothing;
   BSubFinish 0 2 "node-b" "room-1" "pub-1" (inl 40%nat)].

Lemma run_reachable ops b :
  bridge_reachable demo_cfg "node-a" "a:10000" b →
  (∀ k o, ops !! k = Some o → enabled o (final (for_each (take k ops) perform) b)) →
  bridge_reachable demo_cfg "node-a" "a:10000" (final (for_each ops perform) b).
Proof.
  revert b. induction ops as [|o ops IH]; intros b Hr He; [done|]. simpl. rewrite final_bind.
  apply IH.
  - constructor; [done|]. apply (He 0%nat). done.
  - intros k o' Ho'. specialize (He (S k) o' Ho'). simpl in He. by rewrite final_bind in He.
Qed.

(** The states of a run are reachable when its only subscription step is enabled. *)
Ltac run_enabled :=
  intros k o Hk; repeat (destruct k as [|k]; [injection Hk as <-; vm_compute; solve [reflexivity|exact I]|]);
  vm_compute in Hk; discriminate.

Lemma subscribe_run_reachable : bridge_reachable demo_cfg "node-a" "a:10000" (run_bridge subscribe_run).
Proof. apply run_reachable; [apply reach_new|]. run_enabled. Qed.

Lemma mirror_isolation_witness :
  HandleWriteRTP 40 [x80] ∈ outputs (perform (BRTP 7 "pub-1" [x80])) (run_bridge subscribe_run)
  ∧ ∃ t, info_PublicationID (rt_Info t) = "pub-1" ∧ info_OriginNodeID (rt_Info t) = "node-b"
         ∧ rt_handle t = Some 40%nat.
Proof.
  assert (HandleWriteRTP 40 [x80] ∈ outputs (perform (BRTP 7 "pub-1" [x80])) (run_bridge subscribe_run))
    as Hin by (vm_compute; left).
  split; [exact Hin|].
  destruct (mirror_isolation demo_cfg "node-a" "a:10000" (run_bridge subscribe_run)
    (BRTP 7 "pub-1" [x80]) 40 [x80] subscribe_run_reachable Hin)
    as (c & key & s & v & r & t & Ho & Hw & Hs & Hc & Ht & Hr & Hh & _ & H1 & H2 & _).
  exists t. injection Ho as <- <-. split; [exact H1|]. split; [|exact Hh].
  rewrite H2. vm_compute in Hw. injection Hw as <-. vm_compute in Hs. by injection Hs as <-.
Defined.

Lemma session_close_releases_witness :
  HandleClose 40 ∈ outputs (session_Close 0) (run_bridge subscribe_run)
  ∧ byNode (final (session_Close 0) (run_bridge subscribe_run)) !! "node-b" ≠ Some 0%nat.
Proof.
  destruct (b_sessions (run_bridge subscribe_run) !! 0%nat) as [v|] eqn:Ev; [|vm_compute in Ev; discriminate].
  assert (s_once v = false) as Ho by (vm_compute in Ev; by injection Ev as <-).
  destruct (session_close_releases demo_cfg "node-a" "a:10000" (run_bridge subscribe_run) 0 v
    subscribe_run_reachable Ev Ho) as (_ & _ & Ht & _ & Hn & _).
  destruct (b_tracks (run_bridge subscribe_run) !! 3%nat) as [t|] eqn:Et; [|vm_compute in Et; discriminate].
  split.
  - destruct (Ht "pub-1" 3%nat t) as [_ Hh]; [|exact Et|].
    + vm_compute in Ev. injection Ev as <-. vm_compute. reflexivity.
    + apply Hh. vm_compute in Et. injection Et as <-. vm_compute. reflexivity.
  - intros E. apply Hn. vm_compute in Ev. injection Ev as <-. exact E.
Defined.

(** ** Waiting for a session *)

(** What a round of [waitActive] meets: the others act, the connection is
    authenticated or not, the clock, the context; then the others act again before
    the state is set. *)
Record round := mkRound {
  rd_before : mediaBridge → mediaBridge;
  rd_auth : bool;
  rd_now : Z;
  rd_cancelled : bool;
  rd_between : mediaBridge → mediaBridge
}.

(** src/internal/cluster/media_bridge.go:188-207 [waitActive]  At most [fuel]
    rounds; [None] when they are used up. *)
Fixpoint waitActive (fuel : nat) (s : nat) (deadline : Z) (rounds : nat → round) (i : nat) (b : mediaBridge)
    : option (option Error * mediaBridge) :=
  match fuel with
  | O => None
  | S fuel =>
      let rd := rounds i in
      let b1 := rd_before rd b in
      match value (waitActive_check s (rd_auth rd) (rd_now rd) deadline (rd_cancelled rd)) b1 with
      | WaitDone e => Some (e, b1)
      | WaitPromote => Some (None, final (waitActive_promote s) (rd_between rd b1))
      | WaitAgain => waitActive fuel s deadline rounds (S i) b1
      end
  end.

Definition poll_interval : Z := 10 * millisecond.

(** A number of rounds that is always enough. *)
Definition wait_rounds (cfg : MediaConfig) : nat := Z.to_nat (reqTimeout cfg / poll_interval + 2).

Lemma waitActive_late s rounds deadline i b :
  deadline < rd_now (rounds i) → waitActive 1 s deadline rounds i b ≠ None.
Proof.
  intros Hi. simpl. unfold waitActive_check, with_session, session_at. autorewrite with mrun.
  destruct (b_sessions _ !! s) as [v|]; [|done]. rewrite value_ret. repeat case_decide; try done.
  destruct (rd_auth _); [done|]. by rewrite (proj2 (Z.ltb_lt _ _) Hi).
Qed.

Lemma waitActive_more fuel s deadline rounds i b r :
  waitActive fuel s deadline rounds i b = Some r → waitActive (S fuel) s deadline rounds i b = Some r.
Proof.
  revert i b. induction fuel as [|fuel IH]; intros i b; [done|].
  intros E. cbn [waitActive] in E |- *. destruct (value _ _); [done|done|]. by apply IH.
Qed.

Lemma waitActive_returns fuel s deadline rounds i b :
  (0 < fuel)%nat → deadline < rd_now (rounds (i + fuel - 1)%nat) →
  waitActive fuel s deadline rounds i b ≠ None.
Proof.
  revert i b. induction fuel as [|fuel IH]; intros i b Hf Hd; [lia|].
  destruct fuel as [|fuel].
  - apply waitActive_late. by replace (i + 1 - 1)%nat with i in Hd by lia.
  - cbn [waitActive]. destruct (value _ _); [done|done|]. apply IH; [lia|].
    by replace (S i + S fuel - 1)%nat with (i + S (S fuel) - 1)%nat by lia.
Qed.

(** C35: Waiting for a media session ends.  Whatever the other goroutines do between
    its rounds and whenever the connection authenticates, [waitActive] returns
    after at most timeout / 10 ms + 2 rounds, because every round but the last
    sleeps 10 ms and the deadline is the timeout away. *)
Theorem waitActive_terminates cfg s rounds b start :
  0 ≤ reqTimeout cfg →
  (∀ i, start + Z.of_nat i * poll_interval ≤ rd_now (rounds i)) →
  ∃ e b', waitActive (wait_rounds cfg) s (start + reqTimeout cfg) rounds 0 b = Some (e, b').
Proof.
  intros Ht Hclock. set (n := wait_rounds cfg).
  pose proof (Z.div_pos (reqTimeout cfg) poll_interval Ht eq_refl) as Hdiv.
  pose proof (Z.mul_succ_div_gt (reqTimeout cfg) poll_interval eq_refl) as Hgt.
  assert (waitActive n s (start + reqTimeout cfg) rounds 0 b ≠ None) as Hn.
  { apply waitActive_returns; [unfold n, wait_rounds; lia|]. specialize (Hclock (0 + n - 1)%nat).
    eapply Z.lt_le_trans; [|exact Hclock].
    replace (Z.of_nat (0 + n - 1)) with (Z.succ (reqTimeout cfg / poll_interval))
      by (unfold n, wait_rounds; lia). lia. }
  destruct (waitActive n s _ rounds 0 b) as [[e b']|]; [eauto|done].
Qed.

Lemma waitActive_terminates_witness :
  ∃ e b', waitActive (wait_rounds demo_cfg) 0 (2 * second)
            (λ i, mkRound id false (Z.of_nat i * poll_interval) false id) 0 (run_bridge subscribe_run)
          = Some (e, b').
Proof.
  apply (waitActive_terminates demo_cfg 0
    (λ i, mkRound id false (Z.of_nat i * poll_interval) false id) (run_bridge subscribe_run) 0).
  - vm_compute. discriminate.
  - intros i. simpl. lia.
Defined.

(** ** Where the bridge goes wrong *)

(** Node A serves two rooms over the one session node B opened for room-1. *)
Definition two_rooms_run : list bridge_op :=
  [BSetSink; BSetSource;
   BControl "node-b" (MediaSessionOpen (Some (mkOpen (hex_encode sid1) "room-1" "b:10000")))
     (mkAnswers (inl 9%nat) None None);
   BControl "node-b" (MediaSubscribe (Some (mkMediaSub (hex_encode sid1) "room-1" "cam-1" "bob")))
     (mkAnswers (inr (error "" "")) (Some (mkInfo "room-1" "cam-1" "alice" "" "video" "video/VP8" 90000 0 96 1, 51%nat)) None);
   BControl "node-b" (MediaSubscribe (Some (mkMediaSub (hex_encode sid1) "room-2" "cam-2" "dave")))
     (mkAnswers (inr (error "" "")) (Some (mkInfo "room-2" "cam-2" "carol" "" "video" "video/VP8" 90000 0 96 2, 52%nat)) None)].

(** Feedback for a second room goes to the wrong room.  There is one session per
    pair of nodes, opened for the room of the first subscription and then used for
    every room; but the feedback a remote node sends for a publication is delivered
    to the SFU under the room the session was opened for.  So when two rooms are
    mirrored over a session opened for room-1, a keyframe request for cam-2 of
    room-2 is looked up in room-1. *)
Theorem feedback_in_first_room :
  let b := run_bridge two_rooms_run in
  (∃ v, b_sessions b !! 0%nat = Some v ∧ s_forwarders v !! "cam-1" = Some 51%nat
        ∧ s_forwarders v !! "cam-2" = Some 52%nat)
  ∧ outputs (perform (BRTCP 9 "cam-1" [x81])) b = [ToPublisher "room-1" "cam-1" [x81]]
  ∧ outputs (perform (BRTCP 9 "cam-2" [x81])) b = [ToPublisher "room-1" "cam-2" [x81]].
Proof.
  cbv zeta. split_and!; [|vm_compute; reflexivity..].
  eexists. split; [vm_compute; reflexivity|]. split; vm_compute; reflexivity.
Qed.

(** Both nodes open a session at the same time; then node B subscribes to a
    publication of node A over the session A opened. *)
Definition crossing_run : list bridge_op :=
  [BSetSink; BSetSource;
   BEnsure "node-b" "room-1" node_B sid0 (inl 7%nat); BAsk 0 "node-b" "room-1" true;
   BControl "node-b" (MediaSessionOpen (Some (mkOpen (hex_encode sid1) "room-1" "b:10000")))
     (mkAnswers (inl 9%nat) None None);
   BControl "node-b" (MediaSubscribe (Some (mkMediaSub (hex_encode sid0) "room-1" "cam-1" "bob")))
     (mkAnswers (inr (error "" "")) (Some (mkInfo "room-1" "cam-1" "alice" "" "video" "video/VP8" 90000 0 96 1, 51%nat)) None)].

(** Crossing opens strand a forwarder.  When two nodes open sessions to each
    other at the same time, each replaces its own session by the peer's in the table
    by node, while the forwarders stay in the session they were requested on; the
    end of a publication is looked up through that table only, so the forwarder of
    cam-1 is not detached and the subscribing node is not told. *)
Theorem crossing_opens_strand_forwarder :
  let b := run_bridge crossing_run in
  (∃ s v, bySID b !! hex_encode sid0 = Some s ∧ b_sessions b !! s = Some v
          ∧ s_forwarders v !! "cam-1" = Some 51%nat)
  ∧ outputs (perform (BPublicationEnded "room-1" "cam-1")) b = []
  ∧ final (perform (BPublicationEnded "room-1" "cam-1")) b = b.
Proof.
  cbv zeta. split_and!; [|vm_compute; reflexivity..].
  exists 0%nat. eexists. split; [vm_compute; reflexivity|]. split; vm_compute; reflexivity.
Qed.

(** Between the checks of [waitActive] and the assignment of ACTIVE the session may
    close: it is then ACTIVE and forgotten, its connection closed. *)
Example closed_session_revived :
  let b := run_bridge [BEnsure "node-b" "room-1" node_B sid0 (inl 7%nat); BCloseSession 0; BPromote 0] in
  value (waitActive_check 0 true 0 second false)
    (run_bridge [BEnsure "node-b" "room-1" node_B sid0 (inl 7%nat)]) = WaitPromote
  ∧ s_state <$> b_sessions b !! 0%nat = Some MediaSessionActive
  ∧ s_once <$> b_sessions b !! 0%nat = Some true
  ∧ byNode b !! "node-b" = None ∧ bySID b !! hex_encode sid0 = None.
Proof. vm_compute. repeat split. Qed.

(** A second open message for a known session re-wires the connection to a session
    nobody finds: packets for the mirrored track no longer reach it. *)
Example second_open_captures_connection :
  let b := run_bridge (subscribe_run ++
    [BControl "node-b" (MediaSessionOpen (Some (mkOpen (hex_encode sid0) "room-1" "b:10000")))
       (mkAnswers (inl 7%nat) None None)]) in
  outputs (perform (BRTP 7 "pub-1" [x80])) (run_bridge subscribe_run) = [HandleWriteRTP 40 [x80]]
  ∧ outputs (perform (BRTP 7 "pub-1" [x80])) b = [].
Proof. vm_compute. split; reflexivity. Qed.

(** An open that is never answered leaves its entry in the table of pending
    accepts. *)
Example pending_accept_leaks :
  pendingAccept (run_bridge
    [BEnsure "node-b" "room-1" node_B sid0 (inl 7%nat); BAsk 0 "node-b" "room-1" false])
  !! hex_encode sid0 = Some 1%nat.
Proof. vm_compute. reflexivity. Qed.

(** Two subscriptions to the same publication at the same time: the second takes
    over the table entry, the answer goes to it, and the first times out. *)
Example concurrent_subscribers_lose_the_ack :
  let b := run_bridge
    [BSetSink; BEnsure "node-b" "room-1" node_B sid0 (inl 7%nat); BPromote 0;
     BSubBegin 0 "pub-1"; BSubBegin 0 "pub-1";
     BSubAsk 0 "node-b" "room-1" "pub-1" "bob" true; BSubAsk 0 "node-b" "room-1" "pub-1" "eve" true;
     BControl "node-b" (MediaSubscribeAck (Some demo_ack)) nothing] in
  value (SubscribeRemote_finish 0 2 "node-b" "room-1" "pub-1" (inl 40%nat)) b
  = inl (error CodeMediaTransportTimeout "media subscribe timed out").
Proof. vm_compute. reflexivity. Qed.
