(* ===== verification/Wiring.v ===== *)
(** * How a node is put together (internal/cluster: state_redis, media_bridge,
      routing_selector; internal/signaling: delivery_media)

    The small routines between the components: the order in which the Redis registry lists
    its nodes, the address a node announces for media, the local placement rule, and the
    figures the signaling layer hands to the load reporter. *)

From S2P Require Import Prelude Bytes GoStrings GoFloat Sfu ClusterTypes Registry RoomLocator LoadStore RoomRouter Cluster.

(** ** Sorting by exchange *)

(** src/internal/cluster/state_redis.go:185-188 [sortNodes: inner loop]  The element at [j]
    moves towards the front while its left neighbour is greater. *)
Fixpoint sift (j : nat) (ns : list NodeInfo) : list NodeInfo :=
  match j with
  | O => ns
  | S i =>
      match ns !! i, ns !! j with
      | Some a, Some b => if node_less b a then sift i (<[i := b]> (<[j := a]> ns)) else ns
      | _, _ => ns
      end
  end.

(** src/internal/cluster/state_redis.go:184-190 [sortNodes] *)
Definition sortNodes (ns : list NodeInfo) : list NodeInfo := foldl (λ ns i, sift i ns) ns (seq 1 (length ns - 1)).

Abbreviation in_order := (StronglySorted (not_after node_less)).

Lemma node_less_asym a b : node_less a b = true → node_less b a = false.
Proof. apply str_lt_asym. Qed.

(** Moving an element into the sorted part in front of it. *)
Lemma sift_spec p x q :
  in_order p → ∃ r, sift (length p) (p ++ x :: q) = r ++ q ∧ r ≡ₚ x :: p ∧ in_order r.
Proof.
  revert q. induction p as [|y p IH] using rev_ind; intros q Hp.
  - exists [x]. split; [done|]. split; [done|]. by repeat constructor.
  - rewrite length_app, Nat.add_1_r. cbn [sift].
    apply StronglySorted_app in Hp as (Hpy & Hp & _).
    assert (E1 : ((p ++ [y]) ++ x :: q) !! length p = Some y) by (rewrite <- app_assoc; by apply list_lookup_middle).
    assert (E2 : ((p ++ [y]) ++ x :: q) !! S (length p) = Some x).
    { apply list_lookup_middle. rewrite length_app. simpl. lia. }
    rewrite E1, E2. destruct (node_less x y) eqn:E.
    + assert (<[length p := x]> (<[S (length p) := y]> ((p ++ [y]) ++ x :: q)) = p ++ x :: (y :: q)) as ->.
      { rewrite <- app_assoc. cbn [app]. rewrite insert_app_r_alt by lia.
        rewrite insert_app_r_alt by lia. rewrite Nat.sub_diag. by replace (S (length p) - length p)%nat with 1%nat by lia. }
      destruct (IH (y :: q) Hp) as (r & -> & Hr & Hs). exists (r ++ [y]). split; [by rewrite <- app_assoc|].
      split; [by rewrite Hr, app_comm_cons|]. apply StronglySorted_app. split_and!; [|done|by repeat constructor].
      intros a b Ha Hb. apply list_elem_of_singleton in Hb as ->. rewrite Hr in Ha. apply elem_of_cons in Ha as [->|Ha].
      * by apply node_less_asym.
      * apply Hpy; [done|]. by apply list_elem_of_singleton.
    + exists ((p ++ [y]) ++ [x]). split; [by rewrite <- !app_assoc|]. split; [by rewrite Permutation_app_comm|].
      apply StronglySorted_app. split_and!; [|apply StronglySorted_app; split_and!; [done|done|by repeat constructor]|by repeat constructor].
      intros a b Ha Hb. apply list_elem_of_singleton in Hb as ->. apply elem_of_app in Ha as [Ha|Ha].
      * apply (str_nlt_trans (ID a) (ID y) (ID x)); [|done]. apply (Hpy a y Ha). by apply list_elem_of_singleton.
      * by apply list_elem_of_singleton in Ha as ->.
Qed.

(** The loop sorts, and when the identifiers differ its result is the list the registry
    is specified to return. *)
Theorem sortNodes_exact l :
  sortNodes l ≡ₚ l ∧ in_order (sortNodes l) ∧ (NoDup (ID <$> l) → sortNodes l = sort_by node_less l).
Proof.
  assert (H : ∀ n p q, (n ≤ length q)%nat → in_order p → p ≠ [] →
    ∃ r, foldl (λ ns i, sift i ns) (p ++ q) (seq (length p) n) = r ++ drop n q ∧ r ≡ₚ p ++ take n q ∧ in_order r).
  { induction n as [|n IH]; intros p q Hq Hp Hne.
    - exists p. cbn. by rewrite drop_0, app_nil_r.
    - destruct q as [|x q]; [simpl in Hq; lia|]. cbn [seq foldl]. destruct (sift_spec p x q Hp) as (r & -> & Hr & Hs).
      assert (Hl : length r = S (length p)) by (rewrite (Permutation_length Hr); done). rewrite <- Hl.
      destruct (IH r q) as (r' & -> & Hr' & Hs'); [simpl in Hq; lia|done|by intros ->|].
      exists r'. split; [done|]. split; [|done]. rewrite Hr', Hr. cbn [take app]. by rewrite Permutation_middle. }
  assert (Hs : ∃ r, sortNodes l = r ∧ r ≡ₚ l ∧ in_order r).
  { unfold sortNodes. destruct l as [|x l]; [exists []; split_and!; [done|done|constructor]|].
    destruct (H (length l) [x] l) as (r & E & Hr & Hs); [done|by repeat constructor|done|].
    cbn [length]. replace (S (length l) - 1)%nat with (length l) by lia. cbn [length app] in E. rewrite E.
    rewrite drop_all, app_nil_r. exists r. rewrite firstn_all in Hr. done. }
  destruct Hs as (r & -> & Hp & Hs). split; [done|]. split; [done|]. intros Hn.
  apply (StronglySorted_unique_strong (not_after node_less)).
  - intros a b Ha Hb. rewrite sort_by_perm in Hb. rewrite Hp in Ha. unfold not_after, node_less. intros H1 H2.
    apply list_elem_of_lookup in Ha as [i Hi]. apply list_elem_of_lookup in Hb as [j Hj].
    assert (i = j) as ->; [|by simplify_eq]. eapply NoDup_lookup; [exact Hn|..]; rewrite list_lookup_fmap.
    + rewrite Hi. cbn. reflexivity.
    + rewrite Hj. cbn. f_equal. destruct (str_lt_total (ID b) (ID a)) as [?|[?|?]]; congruence.
  - done.
  - by apply (sort_by_sorted node_less (λ _, True)); [intros; by apply node_less_asym|intros; by eapply str_nlt_trans|apply Forall_true].
  - by rewrite sort_by_perm.
Qed.

(** ** The address for media *)

(** src/internal/cluster/media_bridge.go:583-590 [splitHostPort]  From the end to the first
    colon. *)
Fixpoint split_at_colon (back front : list byte) : list byte * list byte * bool :=
  match back with
  | [] => (front, [], false)
  | c :: back => if Byte.eqb c x3a then (rev back, front, true) else split_at_colon back (c :: front)
  end.
Definition splitHostPort (hp : list byte) : list byte * list byte * bool := split_at_colon (rev hp) [].

(** src/internal/cluster/media_bridge.go:97-104 [LocalMediaAddr]  [addr]: the address the
    transport is bound to. *)
Definition LocalMediaAddr (cfg : MediaConfig) (addr : list byte) : list byte :=
  if decide (AdvertiseHost cfg = "") then addr
  else let '(_, port, _) := splitHostPort addr in bytes_of (AdvertiseHost cfg) ++ x3a :: port.

Lemma split_at_colon_back back front host :
  x3a ∉ back → split_at_colon (back ++ x3a :: rev host) front = (host, rev back ++ front, true).
Proof.
  revert front. induction back as [|c back IH]; intros front Hn; cbn [app split_at_colon].
  - replace (Byte.eqb x3a x3a) with true by done. by rewrite rev_involutive.
  - destruct (Byte.eqb c x3a) eqn:E.
    + apply Byte.byte_dec_bl in E as ->. exfalso. apply Hn, list_elem_of_here.
    + rewrite IH by (intros H; by apply Hn, list_elem_of_further). cbn [rev]. by rewrite <- app_assoc.
Qed.

(** The host and the port of an address are found again, whatever the host. *)
Lemma splitHostPort_join host port : x3a ∉ port → splitHostPort (host ++ x3a :: port) = (host, port, true).
Proof.
  intros Hp. unfold splitHostPort. rewrite rev_app_distr. cbn [rev]. rewrite <- app_assoc. cbn [app].
  rewrite split_at_colon_back, rev_involutive, app_nil_r; [done|]. intros H. apply Hp.
  by apply list_elem_of_In, in_rev, list_elem_of_In.
Qed.

(** A node announces the port it listens on, on the host it is told to announce. *)
Lemma LocalMediaAddr_exact cfg host port :
  x3a ∉ port →
  LocalMediaAddr cfg (host ++ x3a :: port)
  = (if decide (AdvertiseHost cfg = "") then host else bytes_of (AdvertiseHost cfg)) ++ x3a :: port.
Proof. intros Hp. unfold LocalMediaAddr. rewrite splitHostPort_join by done. by case_decide. Qed.

(** ** The local placement rule *)

Section select.
Context {L : Type} `{RoomLocatorLaws L}.

(** src/internal/cluster/routing_selector.go:21-32 [SelectNode]  [ready], [self]: the node's
    own answers. *)
Definition LocalSelectNode (c : node) (net : string → delivery) (ready : bool) (self : NodeInfo) (roomID : string) :
    M (world L) unit (Error + NodeInfo) :=
  res ← ResolveRoom c net roomID;
  match res with
  | Some res => w ← get; mret (inr (owner_info w (res_OwnerID res)))
  | None => mret (if negb ready then inl (error CodeNodeShuttingDown "this node is draining") else inr self)
  end.

(** A room is placed where it lives, or here; a draining node places no new room. *)
Lemma LocalSelectNode_sound c net ready self r (w : world L) :
  registry_wf (registry w) →
  wp (LocalSelectNode c net ready self r)
    (λ x w', match x with
             | inr n => owners_of (rooms w') !! r = Some (ID n) ∨ n = self ∧ ready = true
             | inl e => ready = false ∧ Code e = CodeNodeShuttingDown
             end) w.
Proof.
  intros Hwf. apply wp_bind, ResolveRoom_wp. intros x w' Ho Hx. destruct x as [res|].
  - apply wp_bind, wp_get, wp_ret. left. destruct (Hx res eq_refl) as [_ Hr].
    assert (registry w' = registry w) as Hreg by apply Ho. rewrite owner_info_id; [done|]. by rewrite Hreg.
  - apply wp_ret. destruct ready; simpl; [by right|done].
Qed.
End select.

(** ** The node's own load *)

(** src/internal/signaling/delivery_media.go:36-51 [wireLoadProvider]  [heap],
    [goroutines]: the runtime's figures; the identity, the state and the time are filled in
    by the reporter. *)
Definition load_provider (env : Env) (s : sfu) (heap goroutines : Z) : NodeLoad :=
  let '(rooms, participants, publications, subscriptions) := LoadCounts env s in
  mkLoad "" NodeStarting (Z.of_nat rooms) (Z.of_nat participants) (Z.of_nat publications) (Z.of_nat subscriptions)
    (f_of_Z 0) heap goroutines 0.
