(* ===== verification/Mirrors.v ===== *)
(** * Mirrors of remote publications (internal/signaling/delivery_media.go)

    The signaling layer's index of publications that live on other nodes, and the
    sets of subscribers that want each of them mirrored locally.  The calls into the
    media bridge are outputs; their results, and what the SFU answers, are
    arguments. *)

From S2P Require Import Prelude Bytes GoStrings ClusterTypes MediaBridge.
From Stdlib Require Import Strings.Ascii.

(** src/internal/signaling/delivery_media.go:19-23 [remotePubRef] *)
Record remotePubRef := mkRef { ref_NodeID : string; ref_ParticipantID : string; ref_Kind : string }.

(** The zero value a Go map answers for a missing key. *)
Definition no_ref : remotePubRef := mkRef "" "" "".

(** src/internal/signaling/delivery_media.go:25-34 [crossNodePubEvent] *)
Record crossNodePubEvent := mkPubEvent {
  ev_Type : string;
  ev_RoomID : string;
  ev_PublicationID : string;
  ev_ParticipantID : string;
  ev_Kind : string;
  ev_OriginNodeID : string
}.

(** src/internal/signaling/delivery_media.go:59-60 [wireCrossNodeMedia]  The two
    maps; an inner map of true entries is a set. *)
Record mirrors := mkMirrors {
  remotePubs : gmap string remotePubRef;
  mirrorSubs : gmap string (gset string)
}.

Inductive mirror_event :=
| CallSubscribe (node room pub subscriber : string)
| CallUnsubscribe (node pub subscriber : string)
| BroadcastRoomEvent (room : string) (ev : crossNodePubEvent)
| PublishIntent (subject room kind : string) (added : bool).

Abbreviation RM := (M mirrors mirror_event).

Definition upd_pubs (f : gmap string remotePubRef → gmap string remotePubRef) : RM unit :=
  modify (λ m, mkMirrors (f (remotePubs m)) (mirrorSubs m)).

Definition upd_subs (f : gmap string (gset string) → gmap string (gset string)) : RM unit :=
  modify (λ m, mkMirrors (remotePubs m) (f (mirrorSubs m))).

(** src/internal/signaling/delivery_media.go:68-68 [mediaKey] *)
Definition mediaKey (roomID pubID : string) : string := roomID +:+ "|" +:+ pubID.

Definition node_mirror : string := "__node__".

(** src/internal/signaling/delivery_media.go:70-103 [onLocalPublicationEvent]
    [recovery] and [enabled] are configuration; [owner] is the subject of the
    connected client that publishes, if it is connected. *)
Definition onLocalPublicationEvent (recovery enabled : bool) (self : string) (owner : option string)
    (roomID : string) (added : bool) (pubID participantID kind : string) : RM unit :=
  when recovery (match owner with
                 | Some subject => emit (PublishIntent subject roomID kind added)
                 | None => mret tt
                 end);;
  when enabled
    (emit (BroadcastRoomEvent roomID
       (mkPubEvent (if added then "remote_publication_added" else "remote_publication_removed")
          roomID pubID participantID kind self))).

(** src/internal/signaling/delivery_media.go:132-159 [ensureRemoteMirror]  Up to the
    call of the bridge; the result is whether the bridge is called, and for which
    node.  [present] is the SFU's [RoomHasPublication]. *)
Definition ensureRemoteMirror_begin (enabled present : bool) (roomID pubID subscriberID : string)
    : RM (option string) :=
  if bool_decide (roomID = "") || bool_decide (pubID = "") || negb enabled then mret None
  else if present then mret None
  else
    m ← get;
    match remotePubs m !! mediaKey roomID pubID with
    | None => mret None
    | Some ref =>
        let subs := default ∅ (mirrorSubs m !! mediaKey roomID pubID) in
        upd_subs <[mediaKey roomID pubID := {[subscriberID]} ∪ subs]>;;
        if decide (subs = ∅)
        then emit (CallSubscribe (ref_NodeID ref) roomID pubID subscriberID);; mret (Some (ref_NodeID ref))
        else mret None
    end.

(** src/internal/signaling/delivery_media.go:163-174 [ensureRemoteMirror]  The
    answer of the bridge: the error the client is told, if any. *)
Definition ensureRemoteMirror_end (roomID pubID subscriberID : string) (res : option Error)
    : RM (option Error) :=
  match res with
  | None => mret None
  | Some e =>
      upd_subs (alter (λ subs, subs ∖ {[subscriberID]}) (mediaKey roomID pubID));;
      mret (Some e)
  end.

(** src/internal/signaling/delivery_media.go:204-213 [tearDownMirror] *)
Definition tearDownMirror (roomID pubID : string) : RM unit :=
  m ← get;
  let ref := default no_ref (remotePubs m !! mediaKey roomID pubID) in
  upd_subs (delete (mediaKey roomID pubID));;
  emit (CallUnsubscribe (ref_NodeID ref) pubID node_mirror).

(** src/internal/signaling/delivery_media.go:105-130 [handleRemotePublicationEvent]
    [occupied] is whether the room has a local participant, [present] the SFU's
    answer for the publication, [bridge] the bridge's when it is called. *)
Definition handleRemotePublicationEvent (enabled occupied present : bool) (bridge : option Error)
    (ev : crossNodePubEvent) : RM bool :=
  if negb (bool_decide (ev_Type ev = "remote_publication_added"))
     && negb (bool_decide (ev_Type ev = "remote_publication_removed"))
  then mret false
  else
    let key := mediaKey (ev_RoomID ev) (ev_PublicationID ev) in
    if bool_decide (ev_Type ev = "remote_publication_removed")
    then
      upd_pubs (delete key);;
      tearDownMirror (ev_RoomID ev) (ev_PublicationID ev);;
      mret true
    else
      upd_pubs <[key := mkRef (ev_OriginNodeID ev) (ev_ParticipantID ev) (ev_Kind ev)]>;;
      when occupied
        (node ← ensureRemoteMirror_begin enabled present (ev_RoomID ev) (ev_PublicationID ev) node_mirror;
         match node with
         | None => mret tt
         | Some _ => ensureRemoteMirror_end (ev_RoomID ev) (ev_PublicationID ev) node_mirror bridge;; mret tt
         end);;
      mret true.

(** src/internal/signaling/delivery_media.go:176-193 [releaseRemoteMirror]  Under
    the lock; the result is the node when nobody is left. *)
Definition releaseRemoteMirror_begin (enabled : bool) (roomID pubID subscriberID : string) : RM (option string) :=
  if negb enabled then mret None
  else
    m ← get;
    match mirrorSubs m !! mediaKey roomID pubID with
    | None => mret None
    | Some subs =>
        let rest := subs ∖ {[subscriberID]} in
        upd_subs <[mediaKey roomID pubID := rest]>;;
        let ref := default no_ref (remotePubs m !! mediaKey roomID pubID) in
        mret (if decide (rest = ∅) then Some (ref_NodeID ref) else None)
    end.

(** src/internal/signaling/delivery_media.go:194-201 [releaseRemoteMirror]  Under
    the lock again, when nobody was left. *)
Definition releaseRemoteMirror_end (node roomID pubID subscriberID : string) : RM unit :=
  upd_subs (delete (mediaKey roomID pubID));;
  emit (CallUnsubscribe node pubID subscriberID).

(** [k[:len(roomID)+1] == roomID+"|"] for a long enough [k], and the rest of it. *)
Definition key_in_room (roomID k : string) : bool := String.prefix (roomID +:+ "|") k.

Definition key_pub (roomID k : string) : string :=
  String.substring (String.length roomID + 1) (String.length k - (String.length roomID + 1)) k.

(** src/internal/signaling/delivery_media.go:215-240 [dropRoomMirrors] *)
Definition dropRoomMirrors (roomID : string) : RM unit :=
  m ← get;
  let keys := filter (λ k, key_in_room roomID k) ((map_to_list (mirrorSubs m)).*1) in
  for_each keys (λ k, upd_subs (delete k));;
  for_each keys (λ k,
    emit (CallUnsubscribe (ref_NodeID (default no_ref (remotePubs m !! k))) (key_pub roomID k) node_mirror)).

(** ** Keys *)

Lemma mediaKey_prefix r p : key_in_room r (mediaKey r p) = true.
Proof.
  unfold key_in_room, mediaKey. induction r as [|a r IH]; [by destruct p|].
  rewrite !(app_cons a r), prefix_cons, IH. by rewrite bool_decide_eq_true_2.
Qed.

(** A room id without the separator. *)
Fixpoint no_bar (s : string) : bool :=
  match s with
  | EmptyString => true
  | String a s => negb (bool_decide (a = "|"%char)) && no_bar s
  end.

Lemma key_in_room_inv r r' p :
  no_bar r = true → no_bar r' = true → key_in_room r (mediaKey r' p) = true → r = r'.
Proof.
  unfold key_in_room, mediaKey. revert r'.
  induction r as [|a r IH]; intros [|a' r'] H1 H2; cbn [no_bar] in H1, H2; [done|..];
    [change ("" +:+ "|") with (String "|" "")|change ("" +:+ "|" +:+ p) with (String "|" p)|];
    rewrite ?(app_cons a r), ?(app_cons a' r'), prefix_cons, andb_true_iff, bool_decide_eq_true.
  - apply andb_true_iff in H2 as [H2 _]. apply negb_true_iff, bool_decide_eq_false in H2.
    intros [E _]. by rewrite E in H2.
  - apply andb_true_iff in H1 as [H1 _]. apply negb_true_iff, bool_decide_eq_false in H1.
    intros [E _]. by rewrite E in H1.
  - apply andb_true_iff in H1 as [_ H1], H2 as [_ H2]. intros [-> Hp]. f_equal. by apply IH.
Qed.

Lemma key_pub_mediaKey r p : key_pub r (mediaKey r p) = p.
Proof.
  unfold key_pub, mediaKey. induction r as [|a r IH]; simpl; [|exact IH].
  rewrite Nat.sub_0_r. apply substring_all.
Qed.

Lemma mediaKey_inj r p r' p' :
  no_bar r = true → no_bar r' = true → mediaKey r p = mediaKey r' p' → r = r' ∧ p = p'.
Proof.
  intros H1 H2 E. assert (r = r') as <-.
  { apply (key_in_room_inv r r' p'); [done..|]. rewrite <- E. apply mediaKey_prefix. }
  split; [done|]. by rewrite <- (key_pub_mediaKey r p), E, key_pub_mediaKey.
Qed.

(** ** Dropping the mirrors of a room *)

Lemma deletes_final (l : list string) m :
  final (for_each l (λ k, upd_subs (delete k))) m
  = mkMirrors (remotePubs m) (filter (λ kv, kv.1 ∉ l) (mirrorSubs m)).
Proof.
  revert m. induction l as [|k l IH]; intros m; simpl.
  - rewrite final_ret. destruct m as [p q]. f_equal. symmetry. apply map_filter_id.
    intros ?? _. apply not_elem_of_nil.
  - rewrite final_bind. unfold upd_subs at 2. rewrite final_modify, IH. simpl. f_equal.
    apply map_eq. intros i. apply option_eq. intros s.
    rewrite !map_lookup_filter_Some, lookup_delete_Some. simpl. rewrite not_elem_of_cons. naive_solver.
Qed.

Lemma emits_list {S E A} (l : list A) (f : A → E) (s : S) :
  outputs (for_each l (λ a, emit (f a))) s = f <$> l.
Proof.
  induction l as [|a l IH]; [done|]. simpl. by rewrite outputs_bind, outputs_emit, final_emit, IH.
Qed.

Lemma deletes_quiet (l : list string) m : outputs (for_each l (λ k, upd_subs (delete k))) m = [].
Proof. revert m. induction l as [|k l IH]; intros m; [done|]. simpl. by rewrite outputs_bind, IH. Qed.

(** When the last local participant leaves a room, exactly the room's mirrors
    are dropped.  For room ids without the separator, dropRoomMirrors unsubscribes,
    at the node it was mirrored from, every publication of the room that somebody
    wanted, forgets those entries, and touches no other room's. *)
Theorem drop_room_exact m r :
  no_bar r = true →
  (∀ p subs, mirrorSubs m !! mediaKey r p = Some subs →
     CallUnsubscribe (ref_NodeID (default no_ref (remotePubs m !! mediaKey r p))) p node_mirror
       ∈ outputs (dropRoomMirrors r) m
     ∧ mirrorSubs (final (dropRoomMirrors r) m) !! mediaKey r p = None)
  ∧ (∀ r' p, no_bar r' = true → r' ≠ r →
     mirrorSubs (final (dropRoomMirrors r) m) !! mediaKey r' p = mirrorSubs m !! mediaKey r' p)
  ∧ remotePubs (final (dropRoomMirrors r) m) = remotePubs m
  ∧ length (outputs (dropRoomMirrors r) m)
    = length (filter (λ k, key_in_room r k) ((map_to_list (mirrorSubs m)).*1)).
Proof.
  intros Hr. set (keys := filter (λ k, key_in_room r k) ((map_to_list (mirrorSubs m)).*1)).
  assert (∀ k, k ∈ keys ↔ key_in_room r k = true ∧ is_Some (mirrorSubs m !! k)) as Hk.
  { intros k. subst keys. rewrite list_elem_of_filter, Is_true_true. split.
    - intros [H1 [[k' v] [-> H2%elem_of_map_to_list]]%list_elem_of_fmap]. eauto.
    - intros [H1 [v Hv]]. split; [done|]. apply list_elem_of_fmap. exists (k, v).
      split; [done|]. by apply elem_of_map_to_list. }
  assert (final (dropRoomMirrors r) m
          = mkMirrors (remotePubs m) (filter (λ kv, kv.1 ∉ keys) (mirrorSubs m))) as Hf.
  { unfold dropRoomMirrors. rewrite final_bind, value_get, final_get, final_bind. fold keys.
    rewrite deletes_final. generalize keys at 1. intros l.
    induction l as [|k l IH]; [done|]. simpl. by rewrite final_bind, final_emit. }
  assert (outputs (dropRoomMirrors r) m = (λ k, CallUnsubscribe
    (ref_NodeID (default no_ref (remotePubs m !! k))) (key_pub r k) node_mirror) <$> keys) as Ho.
  { unfold dropRoomMirrors. rewrite outputs_bind, outputs_get, value_get, final_get, outputs_bind.
    fold keys. by rewrite deletes_quiet, emits_list. }
  rewrite Hf, Ho. split_and!.
  - intros p subs Hp.
    assert (mediaKey r p ∈ keys) as Hin by (apply Hk; split; [apply mediaKey_prefix|eauto]). split.
    + apply list_elem_of_fmap. exists (mediaKey r p). by rewrite key_pub_mediaKey.
    + simpl. apply map_lookup_filter_None. right. intros v _ Hn. by apply Hn.
  - intros r' p Hr' Hne. simpl. apply option_eq. intros v. rewrite map_lookup_filter_Some. simpl.
    split; [by intros [? _]|]. intros Hv. split; [done|]. rewrite Hk. intros [Hpre _].
    apply Hne. symmetry. by apply (key_in_room_inv r r' p).
  - done.
  - by rewrite length_fmap.
Qed.

Definition demo_mirrors : mirrors :=
  mkMirrors {[ mediaKey "room-1" "cam-1" := mkRef "node-b" "alice" "video" ]}
    {[ mediaKey "room-1" "cam-1" := {["bob"]}; mediaKey "room-2" "cam-2" := {["dave"]} ]}.

Lemma drop_room_exact_witness :
  CallUnsubscribe "node-b" "cam-1" node_mirror ∈ outputs (dropRoomMirrors "room-1") demo_mirrors
  ∧ mirrorSubs (final (dropRoomMirrors "room-1") demo_mirrors) !! mediaKey "room-1" "cam-1" = None.
Proof.
  destruct (drop_room_exact demo_mirrors "room-1") as (H & _); [reflexivity|].
  destruct (H "cam-1" {["bob"]}) as [H1 H2]; [vm_compute; reflexivity|]. split.
  - assert (ref_NodeID (default no_ref (remotePubs demo_mirrors !! mediaKey "room-1" "cam-1")) = "node-b")
      as E by (vm_compute; reflexivity). by rewrite E in H1.
  - exact H2.
Defined.

(** The announcement that a publication is gone does not take its mirror down.
    The handler forgets where the publication lives before it asks tearDownMirror
    to unsubscribe there, so from every state the unsubscription is addressed to the
    empty node id, for which no bridge with well-named nodes has a session: neither
    the bridge's state nor the remote node hears of it. *)
Theorem removed_event_keeps_mirror m room pub ev (b : mediaBridge) enabled occupied present bridge :
  ev_Type ev = "remote_publication_removed" → ev_RoomID ev = room → ev_PublicationID ev = pub →
  byNode b !! "" = None →
  outputs (handleRemotePublicationEvent enabled occupied present bridge ev) m = [CallUnsubscribe "" pub node_mirror]
  ∧ outputs (UnsubscribeRemote "" pub node_mirror) b = [] ∧ final (UnsubscribeRemote "" pub node_mirror) b = b.
Proof.
  intros Ht Hr Hp Hb. subst room pub. split.
  - unfold handleRemotePublicationEvent. rewrite Ht. simpl. unfold tearDownMirror, upd_pubs, upd_subs.
    autorewrite with mrun. simpl. by rewrite lookup_delete_eq.
  - unfold UnsubscribeRemote. rewrite outputs_bind, final_bind, value_gets, final_gets, outputs_gets, Hb. done.
Qed.

Lemma removed_event_keeps_mirror_witness :
  outputs (handleRemotePublicationEvent true true true None
    (mkPubEvent "remote_publication_removed" "room-1" "cam-1" "alice" "video" "node-b")) demo_mirrors
  = [CallUnsubscribe "" "cam-1" node_mirror].
Proof.
  apply (removed_event_keeps_mirror demo_mirrors "room-1" "cam-1"
    (mkPubEvent "remote_publication_removed" "room-1" "cam-1" "alice" "video" "node-b")
    (newMediaBridge (mkMediaConfig true "" 0 "" 0 0 0 0 0) "node-a" "") true true true None);
    vm_compute; reflexivity.
Defined.

(** The subscribers of one publication: the bridge is asked for the first one only,
    and a failed request does not stop a second subscriber who came meanwhile from
    believing the mirror is there. *)
Example second_subscriber_believes_in_a_failed_mirror :
  let m0 := mkMirrors {[ mediaKey "room-1" "cam-1" := mkRef "node-b" "alice" "video" ]} ∅ in
  let m1 := final (ensureRemoteMirror_begin true false "room-1" "cam-1" "bob") m0 in
  let m2 := final (ensureRemoteMirror_begin true false "room-1" "cam-1" "eve") m1 in
  outputs (ensureRemoteMirror_begin true false "room-1" "cam-1" "eve") m1 = []
  ∧ let m3 := final (ensureRemoteMirror_end "room-1" "cam-1" "bob" (Some (error "X" "down"))) m2 in
    outputs (ensureRemoteMirror_begin true false "room-1" "cam-1" "bob") m3 = [].
Proof. vm_compute. split; reflexivity. Qed.
