(* ===== verification/Sessions.v ===== *)
(** * Logical sessions and reconnection (internal/signaling/session.go)

    The registry of one node: which logical presence (an identity in a room) is
    bound to which physical connection, with the generation that fences off
    connections that were taken over.  Every method holds the registry's lock, so
    each is one step.  Clock readings and minted session ids are arguments, the
    metric hooks are outputs. *)

From S2P Require Import Prelude Bytes.

(** ** Data *)

(** src/internal/signaling/session.go:23-32 [SessionState] *)
Inductive SessionState :=
| SessionConnecting | SessionConnected | SessionRecovering | SessionReconnected | SessionClosed.

#[export] Instance SessionState_eq_dec : EqDecision SessionState.
Proof. solve_decision. Defined.

(** src/internal/signaling/session.go:34-41 [TrackIntent] *)
Record TrackIntent := mkTrackIntent { ti_TrackID : string; ti_Kind : string; ti_Muted : bool }.

(** src/internal/signaling/session.go:43-47 [SubIntent] *)
Record SubIntent := mkSubIntent { si_PublicationID : string; si_Enabled : bool }.

(** src/internal/signaling/session.go:49-68 [Session] *)
Record Session := mkSess {
  SessionID : string;
  LogicalID : string;
  ParticipantID : string;
  RoomID : string;
  NodeID : string;
  Generation : Z;
  State : SessionState;
  CreatedAt : Z;
  RecoveryStartedAt : Z;
  ReconnectedAt : Z;
  Publish : gmap string TrackIntent;
  Subscribe : gmap string SubIntent
}.

(** src/internal/signaling/session.go:70-76 [ResumeInfo] *)
Record ResumeInfo := mkResume { resume_SessionID : string; resume_Generation : Z }.

(** src/internal/signaling/session.go:78-91 [SessionError]  The error is its code
    and message. *)
Record SessionError := mkSessionError { se_Code : string; se_Message : string }.
Definition CodeStaleSession : string := "STALE_SESSION".
Definition CodeSessionReplaced : string := "SESSION_REPLACED".
Definition CodeRecoveryDisabled : string := "SESSION_RECOVERY_DISABLED".

(** src/internal/signaling/session.go:168-180 [SessionRegistry] *)
Record SessionRegistry := mkRegistry {
  RecoveryTimeout : Z;
  byPhys : gmap string Session;
  primary : gmap string string
}.

(** The metric hooks. *)
Inductive session_event := OnStarted | OnReplaced | OnTimeout | OnReconnect (d : Z).

Abbreviation GM := (M SessionRegistry session_event).

(** src/internal/signaling/session.go:182-188 [newSessionRegistry] *)
Definition newSessionRegistry (timeout : Z) : SessionRegistry := mkRegistry timeout ∅ ∅.

Definition upd_byPhys (f : gmap string Session → gmap string Session) : GM unit :=
  modify (λ r, mkRegistry (RecoveryTimeout r) (f (byPhys r)) (primary r)).

Definition upd_primary (f : gmap string string → gmap string string) : GM unit :=
  modify (λ r, mkRegistry (RecoveryTimeout r) (byPhys r) (f (primary r))).

Definition nul : string := String (Ascii.ascii_of_nat 0) "".

(** src/internal/signaling/session.go:157-158 [sessionKey] *)
Definition sessionKey (logicalID roomID : string) : string := logicalID +:+ nul +:+ roomID.

(** A [uint64] increment. *)
Definition next_generation (g : Z) : Z := (g + 1) mod 2 ^ 64.

(** ** Operations *)

(** src/internal/signaling/session.go:190-199 [OpenResult] *)
Record OpenResult := mkOpenResult {
  res_Session : Session;
  Kick : string;
  Reconnected : bool;
  RecoveryDur : Z
}.

(** src/internal/signaling/session.go:232-240 [Open]  The fields a reconnect
    changes. *)
Definition resumed (prev : Session) (physicalID nodeID : string) (now : Z) : Session :=
  mkSess (SessionID prev) (LogicalID prev) physicalID (RoomID prev) nodeID
    (next_generation (Generation prev)) SessionConnected (CreatedAt prev) 0 now
    (Publish prev) (Subscribe prev).

(** src/internal/signaling/session.go:215-249 [Open]  With a resume claim. *)
Definition Open_resume (logicalID roomID physicalID nodeID : string) (resume : ResumeInfo) (now : Z)
    : GM (SessionError + OpenResult) :=
  r ← get;
  let key := sessionKey logicalID roomID in
  match primary r !! key with
  | None => mret (inl (mkSessionError CodeStaleSession "no such session to resume"))
  | Some prevPhys =>
      match byPhys r !! prevPhys with
      | None => mret (inl (mkSessionError CodeStaleSession "no such session to resume"))
      | Some prev =>
          if negb (bool_decide (SessionID prev = resume_SessionID resume))
          then mret (inl (mkSessionError CodeStaleSession "no such session to resume"))
          else if negb (resume_Generation resume =? 0) && (resume_Generation resume <? Generation prev)
          then mret (inl (mkSessionError CodeStaleSession "session generation is stale"))
          else
            let kick := bool_decide (State prev = SessionConnected) && negb (bool_decide (prevPhys = physicalID)) in
            when kick (emit OnReplaced);;
            let dur := if RecoveryStartedAt prev =? 0 then 0 else time_sub now (RecoveryStartedAt prev) in
            let sess := resumed prev physicalID nodeID now in
            upd_byPhys (delete prevPhys);;
            upd_byPhys <[physicalID := sess]>;;
            upd_primary <[key := physicalID]>;;
            emit (OnReconnect dur);;
            mret (inr (mkOpenResult sess (if kick then prevPhys else "") true dur))
      end
  end.

(** src/internal/signaling/session.go:251-262 [Open] *)
Definition fresh_session (sid logicalID roomID physicalID nodeID : string) (now : Z) : Session :=
  mkSess sid logicalID physicalID roomID nodeID 1 SessionConnected now 0 0 ∅ ∅.

(** src/internal/signaling/session.go:201-269 [Open]  [sid] is the minted id. *)
Definition Open (logicalID roomID physicalID nodeID : string) (resume : option ResumeInfo) (sid : string)
    (now : Z) : GM (SessionError + OpenResult) :=
  match resume with
  | Some resume => Open_resume logicalID roomID physicalID nodeID resume now
  | None =>
      let sess := fresh_session sid logicalID roomID physicalID nodeID now in
      upd_byPhys <[physicalID := sess]>;;
      upd_primary <[sessionKey logicalID roomID := physicalID]>;;
      emit OnStarted;;
      mret (inr (mkOpenResult sess "" false 0))
  end.

Definition parked (now : Z) (s : Session) : Session :=
  mkSess (SessionID s) (LogicalID s) (ParticipantID s) (RoomID s) (NodeID s) (Generation s)
    SessionRecovering (CreatedAt s) now (ReconnectedAt s) (Publish s) (Subscribe s).

(** src/internal/signaling/session.go:271-284 [MarkRecovering] *)
Definition MarkRecovering (physicalID : string) (now : Z) : GM bool :=
  r ← get;
  match byPhys r !! physicalID with
  | None => mret false
  | Some cur =>
      if decide (State cur = SessionClosed) then mret false
      else upd_byPhys <[physicalID := parked now cur]>;; mret true
  end.

(** src/internal/signaling/session.go:286-296 [Get] *)
Definition Get (r : SessionRegistry) (logicalID roomID : string) : option Session :=
  p ← primary r !! sessionKey logicalID roomID; byPhys r !! p.

(** src/internal/signaling/session.go:298-312 [Close] *)
Definition Close (logicalID roomID physicalID : string) : GM unit :=
  r ← get;
  match byPhys r !! physicalID with
  | None => mret tt
  | Some _ =>
      let key := sessionKey logicalID roomID in
      upd_byPhys (delete physicalID);;
      when (bool_decide (primary r !! key = Some physicalID)) (upd_primary (delete key))
  end.

(** src/internal/signaling/session.go:325-325 [SweepExpired] *)
Definition expired (cutoff : Z) (s : Session) : bool :=
  bool_decide (State s = SessionRecovering) && (RecoveryStartedAt s <? cutoff).

(** src/internal/signaling/session.go:324-336 [SweepExpired]  The body of the loop. *)
Definition sweep_one (cutoff : Z) (phys : string) (s : Session) : GM unit :=
  when (expired cutoff s)
    (upd_byPhys (delete phys);;
     r ← get;
     when (bool_decide (primary r !! sessionKey (LogicalID s) (RoomID s) = Some phys))
       (upd_primary (delete (sessionKey (LogicalID s) (RoomID s))));;
     emit OnTimeout).

(** src/internal/signaling/session.go:314-338 [SweepExpired]  [order] is the order
    in which [range] visits the sessions. *)
Definition SweepExpired (order : list (string * Session) → list (string * Session)) (now : Z) : GM Z :=
  r ← get;
  if RecoveryTimeout r <=? 0 then mret 0
  else
    let cutoff := now - RecoveryTimeout r in
    let l := order (map_to_list (byPhys r)) in
    for_each l (λ ps, sweep_one cutoff ps.1 ps.2);;
    mret (Z.of_nat (length (filter (λ ps, expired cutoff ps.2) l))).

Definition with_intents p q (s : Session) : Session :=
  mkSess (SessionID s) (LogicalID s) (ParticipantID s) (RoomID s) (NodeID s) (Generation s)
    (State s) (CreatedAt s) (RecoveryStartedAt s) (ReconnectedAt s) (p (Publish s)) (q (Subscribe s)).

(** src/internal/signaling/session.go:368-376 [withSession] *)
Definition withSession (logicalID roomID : string) (fn : Session → Session) : GM unit :=
  r ← get;
  match primary r !! sessionKey logicalID roomID with
  | None => mret tt
  | Some phys => upd_byPhys (alter fn phys)
  end.

(** src/internal/signaling/session.go:340-366 [UpdatePublishIntent] *)
Definition UpdatePublishIntent (logicalID roomID : string) (ti : TrackIntent) : GM unit :=
  withSession logicalID roomID
    (if decide (ti_TrackID ti = "") then id else with_intents <[ti_TrackID ti := ti]> id).
Definition RemovePublishIntent (logicalID roomID trackID : string) : GM unit :=
  withSession logicalID roomID (with_intents (delete trackID) id).
Definition UpdateSubIntent (logicalID roomID : string) (si : SubIntent) : GM unit :=
  withSession logicalID roomID
    (if decide (si_PublicationID si = "") then id
     else if si_Enabled si then with_intents id <[si_PublicationID si := si]>
     else with_intents id (delete (si_PublicationID si))).

(** src/internal/signaling/session.go:378-406 [RoomStats, Count] *)
Definition count_sessions (p : Session → bool) (r : SessionRegistry) : Z :=
  Z.of_nat (length (filter (λ ps, p ps.2) (map_to_list (byPhys r)))).
Definition RoomStats (r : SessionRegistry) (roomID : string) : Z * Z :=
  (count_sessions (λ s, bool_decide (RoomID s = roomID)) r,
   count_sessions (λ s, bool_decide (RoomID s = roomID) && bool_decide (State s = SessionRecovering)) r).
Definition Count (r : SessionRegistry) : Z * Z :=
  (count_sessions (λ _, true) r, count_sessions (λ s, bool_decide (State s = SessionRecovering)) r).

(** ** Runs *)

Inductive session_op :=
| SOpen (logicalID roomID physicalID nodeID : string) (resume : option ResumeInfo) (sid : string) (now : Z)
| SMark (physicalID : string) (now : Z)
| SClose (logicalID roomID physicalID : string)
| SSweep (order : list (string * Session) → list (string * Session)) (now : Z)
| SPublish (logicalID roomID : string) (ti : TrackIntent)
| SUnpublish (logicalID roomID trackID : string)
| SSubscribe (logicalID roomID : string) (si : SubIntent).

Definition perform (o : session_op) : GM unit :=
  match o with
  | SOpen l r p n res sid now => Open l r p n res sid now;; mret tt
  | SMark p now => MarkRecovering p now;; mret tt
  | SClose l r p => Close l r p
  | SSweep order now => SweepExpired order now;; mret tt
  | SPublish l r ti => UpdatePublishIntent l r ti
  | SUnpublish l r t => RemovePublishIntent l r t
  | SSubscribe l r si => UpdateSubIntent l r si
  end.

(** What the server guarantees: a connection opens with its own new id and a newly
    minted session id, a connection is closed under the identity and room of its
    session, identities contain no NUL, and [range] visits every session once. *)
Definition no_nul (s : string) : Prop := x00 ∉ bytes_of s.

Definition enabled (o : session_op) (r : SessionRegistry) : Prop :=
  match o with
  | SOpen l _ p _ _ sid _ =>
      no_nul l ∧ byPhys r !! p = None ∧ ∀ q s, byPhys r !! q = Some s → SessionID s ≠ sid
  | SClose l rm p => ∀ s, byPhys r !! p = Some s → LogicalID s = l ∧ RoomID s = rm
  | SSweep order _ => ∀ l, order l ≡ₚ l
  | _ => True
  end.

Inductive session_reachable (timeout : Z) : SessionRegistry → Prop :=
| sess_new : session_reachable timeout (newSessionRegistry timeout)
| sess_step r o : session_reachable timeout r → enabled o r →
    session_reachable timeout (final (perform o) r).

(** ** The invariant *)

Definition key_of (s : Session) : string := sessionKey (LogicalID s) (RoomID s).

Record registry_inv (r : SessionRegistry) : Prop := {
  ri_phys : ∀ p s, byPhys r !! p = Some s → ParticipantID s = p ∧ State s ≠ SessionClosed ∧ no_nul (LogicalID s);
  ri_primary : ∀ k p, primary r !! k = Some p → ∃ s, byPhys r !! p = Some s ∧ k = key_of s;
  ri_unique : ∀ p q s t, byPhys r !! p = Some s → byPhys r !! q = Some t → SessionID s = SessionID t → p = q
}.

Lemma registry_inv_new timeout : registry_inv (newSessionRegistry timeout).
Proof. split; simpl; intros *; rewrite lookup_empty; done. Qed.

(** The session at [p] is replaced by one with the same identity. *)
Lemma inv_update r p s s' :
  byPhys r !! p = Some s → ParticipantID s' = ParticipantID s → State s' ≠ SessionClosed →
  key_of s' = key_of s → LogicalID s' = LogicalID s → SessionID s' = SessionID s →
  registry_inv r → registry_inv (mkRegistry (RecoveryTimeout r) (<[p := s']> (byPhys r)) (primary r)).
Proof.
  intros Ep H1 H2 H3 H4 H5 [I1 I2 I3]. split; simpl.
  - intros q t. destruct (decide (q = p)) as [->|]; [|rewrite lookup_insert_ne by done; auto].
    rewrite lookup_insert_eq. intros [= <-]. destruct (I1 _ _ Ep) as (? & ? & ?).
    rewrite H1, H4. done.
  - intros k q E. destruct (I2 _ _ E) as (t & Et & ->). destruct (decide (q = p)) as [->|].
    + exists s'. rewrite lookup_insert_eq. split; [done|]. congruence.
    + exists t. by rewrite lookup_insert_ne.
  - assert (∀ q t, <[p := s']> (byPhys r) !! q = Some t →
      ∃ t0, byPhys r !! q = Some t0 ∧ SessionID t0 = SessionID t) as Hold.
    { intros q t. destruct (decide (q = p)) as [->|]; [|rewrite lookup_insert_ne by done; eauto].
      rewrite lookup_insert_eq. intros [= <-]. eauto. }
    intros q1 q2 t1 t2 E1 E2 Es. destruct (Hold _ _ E1) as (u1 & F1 & G1).
    destruct (Hold _ _ E2) as (u2 & F2 & G2). apply (I3 q1 q2 u1 u2); congruence.
Qed.

(** A session leaves the registry together with its primary entry. *)
Lemma inv_delete r p s :
  byPhys r !! p = Some s → registry_inv r →
  registry_inv (mkRegistry (RecoveryTimeout r) (delete p (byPhys r))
    (if decide (primary r !! key_of s = Some p) then delete (key_of s) (primary r) else primary r)).
Proof.
  intros Ep [I1 I2 I3]. split; simpl.
  - intros q t [_ E]%lookup_delete_Some. auto.
  - intros k q E.
    assert (primary r !! k = Some q ∧ (k = key_of s → q ≠ p)) as [E' Hne].
    { case_decide as Hd.
      - apply lookup_delete_Some in E as [Hk E]. split; [done|]. intros ->. done.
      - split; [done|]. intros -> ->. done. }
    destruct (I2 _ _ E') as (t & Et & ->). exists t. split; [|done].
    apply lookup_delete_Some. split; [|done]. intros ->. rewrite Ep in Et. injection Et as <-.
    by apply Hne.
  - intros q1 q2 t1 t2 [_ E1]%lookup_delete_Some [_ E2]%lookup_delete_Some. eauto.
Qed.

(** A session enters at a new physical id and becomes its key's primary. *)
Lemma inv_insert r p s :
  byPhys r !! p = None → ParticipantID s = p → State s ≠ SessionClosed → no_nul (LogicalID s) →
  (∀ q t, byPhys r !! q = Some t → SessionID t ≠ SessionID s) →
  registry_inv r →
  registry_inv (mkRegistry (RecoveryTimeout r) (<[p := s]> (byPhys r)) (<[key_of s := p]> (primary r))).
Proof.
  intros Ep H1 H2 H3 H4 [I1 I2 I3]. split; simpl.
  - intros q t. destruct (decide (q = p)) as [->|]; [|rewrite lookup_insert_ne by done; auto].
    rewrite lookup_insert_eq. intros [= <-]. done.
  - intros k q. destruct (decide (k = key_of s)) as [->|].
    + rewrite lookup_insert_eq. intros [= <-]. exists s. by rewrite lookup_insert_eq.
    + rewrite lookup_insert_ne by done. intros E. destruct (I2 _ _ E) as (t & Et & ->).
      exists t. rewrite lookup_insert_ne; [done|]. intros ->. congruence.
  - intros q1 q2 t1 t2 E1 E2 Es.
    destruct (decide (q1 = p)) as [->|], (decide (q2 = p)) as [->|]; [done|..];
      repeat match goal with
        | H : <[p := s]> _ !! p = _ |- _ => rewrite lookup_insert_eq in H; injection H as <-
        | H : <[p := s]> _ !! _ = _ |- _ => rewrite lookup_insert_ne in H by done
        end; eauto.
    + destruct (H4 _ _ E2). congruence.
    + destruct (H4 _ _ E1). congruence.
Qed.

(** [sessionKey] separates identities and rooms. *)
Lemma nul_separates {A} (x : A) (l1 l2 r1 r2 : list A) :
  x ∉ l1 → x ∉ l2 → l1 ++ x :: r1 = l2 ++ x :: r2 → l1 = l2 ∧ r1 = r2.
Proof.
  revert l2. induction l1 as [|a l1 IH]; intros [|b l2] N1 N2 E; simpl in E; injection E.
  - done.
  - intros _ <-. destruct N2. apply elem_of_cons. by left.
  - intros _ ->. destruct N1. apply elem_of_cons. by left.
  - intros E' ->. apply not_elem_of_cons in N1 as [_ N1], N2 as [_ N2].
    destruct (IH l2 N1 N2 E') as [-> ->]. done.
Qed.

Lemma sessionKey_inj l rm l' rm' :
  no_nul l → no_nul l' → sessionKey l rm = sessionKey l' rm' → l = l' ∧ rm = rm'.
Proof.
  intros N1 N2 E. unfold sessionKey in E. apply (f_equal bytes_of) in E. rewrite !bytes_of_app in E.
  apply nul_separates in E as [E1 E2]; [|done..]. split; by apply (inj bytes_of).
Qed.

Lemma preserves_Open_resume l rm p n res now r :
  no_nul l → byPhys r !! p = None → registry_inv r → registry_inv (final (Open_resume l rm p n res now) r).
Proof.
  intros Nl Hp Hr. unfold Open_resume. rewrite final_bind, value_get, final_get.
  destruct (primary r !! sessionKey l rm) as [q|] eqn:Eq; [|done].
  destruct (byPhys r !! q) as [prev|] eqn:Eprev; [|done].
  destruct (negb _); [done|]. destruct (negb _ && _); [done|].
  rewrite !final_bind, final_when.
  assert (∀ b : bool, (if b then final (emit OnReplaced) r else r) = r) as -> by by intros [].
  unfold upd_byPhys, upd_primary. autorewrite with mrun. simpl.
  destruct (ri_phys _ Hr _ _ Eprev) as (F1 & F2 & F3).
  destruct (ri_primary _ Hr _ _ Eq) as (s & Es & Ek). rewrite Eprev in Es. injection Es as <-.
  pose proof (inv_delete r q prev Eprev Hr) as Hd.
  rewrite <- Ek in Hd. rewrite decide_True in Hd by done.
  eapply (inv_insert _ p (resumed prev p n now)) in Hd; simpl in *; [|try done..].
  - unfold key_of in Hd. simpl in Hd. change (sessionKey (LogicalID prev) (RoomID prev)) with (key_of prev) in Hd.
    rewrite <- Ek, insert_delete_eq in Hd. exact Hd.
  - apply lookup_delete_None. auto.
  - intros q' t [Hne Et]%lookup_delete_Some Hs. apply Hne. symmetry.
    by apply (ri_unique _ Hr q' q t prev).
Qed.

Lemma preserves_withSession l rm f :
  (∀ s, ParticipantID (f s) = ParticipantID s ∧ State (f s) = State s ∧ key_of (f s) = key_of s
        ∧ LogicalID (f s) = LogicalID s ∧ SessionID (f s) = SessionID s) →
  preserves registry_inv (withSession l rm f).
Proof.
  intros Hf r Hr. unfold withSession. rewrite final_bind, value_get, final_get.
  destruct (primary r !! sessionKey l rm) as [p|] eqn:Ep; [|done].
  destruct (ri_primary _ Hr _ _ Ep) as (s & Es & _).
  unfold upd_byPhys. rewrite final_modify.
  replace (alter f p (byPhys r)) with (<[p := f s]> (byPhys r)).
  - destruct (Hf s) as (H1 & H2 & H3 & H4 & H5). destruct (ri_phys _ Hr _ _ Es) as (_ & Hc & _).
    apply (inv_update r p s); try done. by rewrite H2.
  - apply map_eq. intros i. destruct (decide (i = p)) as [->|].
    + by rewrite lookup_insert_eq, lookup_alter_eq, Es.
    + by rewrite lookup_insert_ne, lookup_alter_ne.
Qed.

(** ** The sweep *)

Lemma sweep_one_run cutoff p s r :
  byPhys r !! p = Some s →
  final (sweep_one cutoff p s) r
  = (if expired cutoff s
     then mkRegistry (RecoveryTimeout r) (delete p (byPhys r))
            (if decide (primary r !! key_of s = Some p) then delete (key_of s) (primary r) else primary r)
     else r)
  ∧ outputs (sweep_one cutoff p s) r = if expired cutoff s then [OnTimeout] else [].
Proof.
  intros E. unfold sweep_one. destruct (expired cutoff s); [|done]. unfold when, upd_byPhys, upd_primary.
  autorewrite with mrun. simpl. change (sessionKey (LogicalID s) (RoomID s)) with (key_of s).
  case_decide as Hd; [rewrite bool_decide_eq_true_2 by done|rewrite bool_decide_eq_false_2 by done];
    by autorewrite with mrun.
Qed.

(** Whatever the order, exactly the expired sessions go. *)
Lemma sweep_run cutoff l r :
  NoDup l.*1 → (∀ p s, (p, s) ∈ l → byPhys r !! p = Some s) → registry_inv r →
  let m := for_each l (λ ps, sweep_one cutoff ps.1 ps.2) in
  registry_inv (final m r)
  ∧ (∀ p s, byPhys (final m r) !! p = Some s ↔
       byPhys r !! p = Some s ∧ ¬ ((p, s) ∈ l ∧ expired cutoff s = true))
  ∧ (∀ k p, primary (final m r) !! k = Some p ↔
       primary r !! k = Some p ∧ is_Some (byPhys (final m r) !! p))
  ∧ length (outputs m r) = length (filter (λ ps, expired cutoff ps.2) l).
Proof.
  revert r. induction l as [|[p0 s0] l IH]; intros r Hnd Hl Hr; simpl.
  { split_and!; [done| | |done].
    - intros p s. split; [intros E; split; [done|by intros [?%elem_of_nil _]]|by intros [? _]].
    - intros k p. split; [|by intros [? _]]. intros E. split; [done|].
      destruct (ri_primary _ Hr _ _ E) as (s & Es & _). by exists s. }
  apply NoDup_cons in Hnd as [Hp0 Hnd].
  assert (byPhys r !! p0 = Some s0) as E0 by (apply Hl, elem_of_cons; by left).
  destruct (sweep_one_run cutoff p0 s0 r E0) as [Ef Eo].
  rewrite final_bind, outputs_bind, Ef, Eo, length_app.
  assert (∀ p s, (p, s) ∈ l → p ≠ p0) as Hne.
  { intros p s Hin ->. apply Hp0. apply list_elem_of_fmap. by exists (p0, s). }
  set (r1 := if expired cutoff s0 then _ else r).
  assert (registry_inv r1) as Hr1.
  { subst r1. destruct (expired cutoff s0); [by apply inv_delete|done]. }
  assert (∀ p s, byPhys r1 !! p = Some s ↔
    byPhys r !! p = Some s ∧ ¬ (p = p0 ∧ expired cutoff s0 = true)) as Hb1.
  { intros p s. subst r1. destruct (expired cutoff s0); simpl; [rewrite lookup_delete_Some|]; naive_solver. }
  assert (∀ k p, primary r1 !! k = Some p ↔ primary r !! k = Some p ∧ is_Some (byPhys r1 !! p)) as Hq1.
  { intros k p. subst r1. destruct (expired cutoff s0) eqn:Ee; simpl.
    - split.
      + intros E. assert (primary r !! k = Some p) as E'.
        { case_decide; [by apply lookup_delete_Some in E as [_ ?]|done]. }
        split; [done|]. destruct (ri_primary _ Hr1 _ _ E) as (s & Es & _). by exists s.
      + intros [E [s Hs]]. apply lookup_delete_Some in Hs as [Hne' _].
        case_decide as Hd; [|done]. apply lookup_delete_Some. split; [|done]. intros <-.
        apply Hne'. congruence.
    - split; [|by intros [? _]]. intros E. split; [done|].
      destruct (ri_primary _ Hr _ _ E) as (s & Es & _). by exists s. }
  destruct (IH r1 Hnd) as (J1 & J2 & J3 & J4); [|done|].
  { intros p s Hin. apply Hb1. split; [apply Hl, elem_of_cons; by right|].
    intros [-> _]. by apply (Hne _ _ Hin). }
  split_and!; [done|..].
  - intros p s. rewrite J2, Hb1. rewrite elem_of_cons. split.
    + intros [[E Hn1] Hn2]. split; [done|]. intros [[[= -> ->]|Hin] Hexp]; naive_solver.
    + intros [E Hn]. split; [split; [done|]|].
      * intros [-> Hexp]. apply Hn. rewrite E0 in E. injection E as <-. auto.
      * intros [Hin Hexp]. naive_solver.
  - intros k p. rewrite J3, Hq1. split; [by intros [[? _] ?]|]. intros [E [s Hs]].
    split; [split; [done|]|by exists s]. apply J2 in Hs as [Hs _]. by exists s.
  - rewrite J4, filter_cons. simpl. by destruct (expired cutoff s0).
Qed.

Lemma sweep_list r (order : list (string * Session) → list (string * Session)) :
  (∀ l, order l ≡ₚ l) →
  NoDup (order (map_to_list (byPhys r))).*1
  ∧ ∀ p s, (p, s) ∈ order (map_to_list (byPhys r)) ↔ byPhys r !! p = Some s.
Proof.
  intros Ho. split.
  - rewrite (Ho (map_to_list (byPhys r))). apply NoDup_fst_map_to_list.
  - intros p s. rewrite (Ho (map_to_list (byPhys r))). apply elem_of_map_to_list.
Qed.

Lemma preserves_session_op o r : enabled o r → registry_inv r → registry_inv (final (perform o) r).
Proof.
  intros He Hr. destruct o; simpl in *.
  - destruct He as (Nl & Hp & Hs). rewrite final_bind. unfold Open. destruct resume as [res|].
    + by apply preserves_Open_resume.
    + unfold upd_byPhys, upd_primary. autorewrite with mrun. simpl.
      apply (inv_insert r physicalID (fresh_session sid logicalID roomID physicalID nodeID now)); done.
  - unfold MarkRecovering. autorewrite with mrun.
    destruct (byPhys r !! physicalID) as [s|] eqn:E; [|done]. case_decide; [done|].
    unfold upd_byPhys. autorewrite with mrun. by apply (inv_update r physicalID s).
  - unfold Close. autorewrite with mrun. destruct (byPhys r !! physicalID) as [s|] eqn:E; [|done].
    destruct (He _ eq_refl) as [<- <-]. pose proof (inv_delete r physicalID s E Hr) as Hd.
    change (sessionKey (LogicalID s) (RoomID s)) with (key_of s).
    unfold upd_byPhys, upd_primary. rewrite !final_bind, final_when, !final_modify. simpl.
    case_decide as Hk; [rewrite bool_decide_eq_true_2 by done|rewrite bool_decide_eq_false_2 by done]; done.
  - unfold SweepExpired. autorewrite with mrun. destruct (_ <=? 0); [done|]. autorewrite with mrun.
    destruct (sweep_list r order He) as [Hnd Hl]. apply sweep_run; [done| |done]. intros. by apply Hl.
  - revert Hr. apply preserves_withSession. intros s. by case_decide.
  - revert Hr. apply preserves_withSession. done.
  - revert Hr. apply preserves_withSession. intros s. case_decide; [done|]. by destruct (si_Enabled si).
Qed.

Lemma session_reachable_inv timeout r : session_reachable timeout r → registry_inv r.
Proof. induction 1; [apply registry_inv_new|by apply preserves_session_op]. Qed.

(** ** The theorems *)


Definition demo_registry : SessionRegistry :=
  final (perform (SPublish "alice" "room-1" (mkTrackIntent "cam" "video" false)))
    (final (perform (SOpen "alice" "room-1" "ws-1" "node-a" None "sess-1" 10))
       (newSessionRegistry (30 * second))).

Lemma demo_registry_reachable : session_reachable (30 * second) demo_registry.
Proof.
  apply sess_step; [apply sess_step; [apply sess_new|]|exact I].
  simpl. split_and!; [vm_compute; set_solver|apply lookup_empty|]. intros q s. by rewrite lookup_empty.
Qed.


(** The sweep closes exactly the sessions whose recovery timed out.  From every
    reachable registry and in whatever order the map is walked, the sessions that
    remain are those not parked for longer than the timeout, unchanged; the primary
    index keeps exactly its entries for remaining sessions; and the result is the
    number of sessions closed. *)
Theorem sweep_exact timeout r order now :
  session_reachable timeout r → (∀ l, order l ≡ₚ l) → 0 < RecoveryTimeout r →
  let r' := final (SweepExpired order now) r in
  let gone s := expired (now - RecoveryTimeout r) s in
  (∀ p s, byPhys r' !! p = Some s ↔ byPhys r !! p = Some s ∧ gone s = false)
  ∧ (∀ k p, primary r' !! k = Some p ↔ primary r !! k = Some p ∧ is_Some (byPhys r' !! p))
  ∧ value (SweepExpired order now) r
    = Z.of_nat (length (filter (λ ps, gone ps.2) (map_to_list (byPhys r))))
  ∧ Z.of_nat (length (outputs (SweepExpired order now) r)) = value (SweepExpired order now) r.
Proof.
  intros Hr Ho Ht r' gone. apply session_reachable_inv in Hr.
  destruct (sweep_list r order Ho) as [Hnd Hl].
  set (l := order (map_to_list (byPhys r))) in *.
  destruct (sweep_run (now - RecoveryTimeout r) l r Hnd) as (_ & J2 & J3 & J4); [intros; by apply Hl|done|].
  assert (final (SweepExpired order now) r
          = final (for_each l (λ ps, sweep_one (now - RecoveryTimeout r) ps.1 ps.2)) r) as Ef.
  { unfold SweepExpired. autorewrite with mrun. rewrite (proj2 (Z.leb_gt _ _) Ht). by autorewrite with mrun. }
  assert (value (SweepExpired order now) r = Z.of_nat (length (filter (λ ps, gone ps.2) l))) as Ev.
  { unfold SweepExpired. autorewrite with mrun. rewrite (proj2 (Z.leb_gt _ _) Ht). by autorewrite with mrun. }
  assert (outputs (SweepExpired order now) r
          = outputs (for_each l (λ ps, sweep_one (now - RecoveryTimeout r) ps.1 ps.2)) r) as Eo.
  { unfold SweepExpired. autorewrite with mrun. rewrite (proj2 (Z.leb_gt _ _) Ht). autorewrite with mrun.
    by rewrite app_nil_r. }
  subst r'. rewrite Ef. split_and!.
  - intros p s. rewrite J2, Hl. unfold gone. destruct (expired _ s); naive_solver.
  - exact J3.
  - rewrite Ev. f_equal. apply Permutation_length. subst l. by rewrite (Ho (map_to_list (byPhys r))).
  - rewrite Eo, J4, Ev. done.
Qed.

Lemma sweep_exact_witness :
  byPhys (final (SweepExpired id (100 * second)) (final (perform (SMark "ws-1" second)) demo_registry))
    !! "ws-1" = None.
Proof.
  set (r := final (perform (SMark "ws-1" second)) demo_registry).
  assert (session_reachable (30 * second) r) as Hr by (apply sess_step; [apply demo_registry_reachable|exact I]).
  destruct (sweep_exact (30 * second) r id (100 * second) Hr ltac:(done) ltac:(vm_compute; reflexivity))
    as (H & _ & _). apply eq_None_not_Some. intros [s [Hs Hg]%H].
  vm_compute in Hs. injection Hs as <-. vm_compute in Hg. discriminate.
Defined.

(** A fresh connection disturbs an existing session.  The registry promises that
    a connection without a resume claim leaves an existing session of the same
    identity and room alone; but it becomes the primary of the pair, so from then on
    a resume of the older session is refused as stale although its connection may
    only just have dropped, and it stays refused after the newer session is gone. *)
Theorem fresh_open_strands_older_session :
  let r := final (for_each [SOpen "alice" "room-1" "ws-1" "node-a" None "sess-1" 10;
                            SOpen "alice" "room-1" "ws-2" "node-a" None "sess-2" 20;
                            SMark "ws-1" 30] perform) (newSessionRegistry (30 * second)) in
  State <$> byPhys r !! "ws-1" = Some SessionRecovering
  ∧ value (Open_resume "alice" "room-1" "ws-3" "node-a" (mkResume "sess-1" 1) 40) r
    = inl (mkSessionError CodeStaleSession "no such session to resume")
  ∧ value (Open_resume "alice" "room-1" "ws-3" "node-a" (mkResume "sess-1" 1) 40)
      (final (perform (SClose "alice" "room-1" "ws-2")) r)
    = inl (mkSessionError CodeStaleSession "no such session to resume").
Proof. cbv zeta. split_and!; vm_compute; reflexivity. Qed.

(** A resume that names no generation, or one from the future, is accepted. *)
Example resume_without_generation_accepted :
  ∃ a b, value (Open_resume "alice" "room-1" "ws-2" "node-a" (mkResume "sess-1" 0) 20) demo_registry = inr a
    ∧ value (Open_resume "alice" "room-1" "ws-2" "node-a" (mkResume "sess-1" 99) 20) demo_registry = inr b.
Proof. eexists _, _. split; vm_compute; reflexivity. Qed.
