(* ===== verification/Auth.v ===== *)
(** * Authentication and authorization (internal/auth, internal/cluster/internalauth.go)

    Access tokens (signing, parsing, the validation policy), the permissions a
    token carries, the per-key rate limiter, the gate in front of the WebSocket
    endpoint, and the credential of the node-to-node API.

    HMAC and encoding/json are parameters: the classes [Mac] and [TokenJSON] with
    the laws the code relies on (a MAC is not empty; unmarshalling what was
    marshalled gives it back), and a concrete instance of each.  Base64 and the
    string functions are GoStrings.  Clock readings and uuids are arguments. *)

From S2P Require Import Prelude Bytes GoStrings GoFloat.

(** ** Claims, identities, errors *)

(** src/internal/auth/claims.go:17-25 [Permissions] *)
Record Permissions := mkPerms { Join : bool; Publish : bool; Subscribe : bool; Control : bool }.

#[export] Instance Permissions_eq_dec : EqDecision Permissions.
Proof. solve_decision. Defined.

(** src/internal/auth/claims.go:27-41 [Claims] *)
Record Claims := mkClaims {
  cl_Subject : string;
  cl_Name : string;
  cl_Room : string;
  cl_Permissions : Permissions;
  cl_IssuedAt : Z;
  cl_ExpiresAt : Z;
  cl_Issuer : string;
  cl_Audience : string;
  cl_JTI : string
}.

(** src/internal/auth/claims.go:43-52 [Identity] *)
Record Identity := mkIdentity {
  id_Subject : string;
  id_Name : string;
  id_Room : string;
  id_Permissions : Permissions;
  id_JTI : string;
  id_ExpiresAt : Z
}.

(** src/internal/auth/errors.go:3-6 [Error] *)
Record AuthError := mkAuthError { ae_Code : string; ae_Message : string }.

#[export] Instance AuthError_eq_dec : EqDecision AuthError.
Proof. solve_decision. Defined.

(** src/internal/auth/errors.go:10-24 [security error codes] *)
Definition CodeUnauthenticated : string := "UNAUTHENTICATED".
Definition CodeInvalidToken : string := "INVALID_TOKEN".
Definition CodeExpiredToken : string := "EXPIRED_TOKEN".
Definition CodeInvalidIssuer : string := "INVALID_ISSUER".
Definition CodeInvalidAudience : string := "INVALID_AUDIENCE".
Definition CodeRoomAccessDenied : string := "ROOM_ACCESS_DENIED".
Definition CodePublishDenied : string := "PUBLISH_NOT_ALLOWED".
Definition CodeSubscribeDenied : string := "SUBSCRIBE_NOT_ALLOWED".
Definition CodeControlDenied : string := "CONTROL_NOT_ALLOWED".
Definition CodeJoinDenied : string := "JOIN_NOT_ALLOWED".
Definition CodeRateLimited : string := "RATE_LIMITED".

(** src/internal/auth/errors.go:26-38 [errors] *)
Definition errMissing : AuthError := mkAuthError CodeUnauthenticated "authentication required".
Definition errMalformed : AuthError := mkAuthError CodeInvalidToken "token is malformed".
Definition errBadSig : AuthError := mkAuthError CodeInvalidToken "token signature is invalid".
Definition errBadAlg : AuthError := mkAuthError CodeInvalidToken "unexpected token algorithm".
Definition errExpired : AuthError := mkAuthError CodeExpiredToken "token has expired".
Definition errNotYetValid : AuthError := mkAuthError CodeInvalidToken "token is not valid yet".
Definition errNoIat : AuthError := mkAuthError CodeInvalidToken "token is missing iat".
Definition errStale : AuthError := mkAuthError CodeInvalidToken "token is too old".
Definition errNoSub : AuthError := mkAuthError CodeInvalidToken "token is missing sub".
Definition errIssuer : AuthError := mkAuthError CodeInvalidIssuer "token issuer is not accepted".
Definition errAudience : AuthError := mkAuthError CodeInvalidAudience "token audience is not accepted".

(** [strings.TrimSpace(s) == ""] *)
Definition blank (s : string) : bool := bool_decide (TrimSpace (bytes_of s) = []).

(** src/internal/auth/claims.go:59-67 [RoomAllowed] *)
Definition RoomAllowed (i : Identity) (roomID : string) : bool :=
  blank (id_Room i) || bool_decide (id_Room i = roomID).

(** ** Authorization *)

(** src/internal/auth/permissions.go:8-21 [AuthorizeJoin] *)
Definition AuthorizeJoin (id : option Identity) (roomID : string) : option AuthError :=
  match id with
  | None => Some errMissing
  | Some id =>
      if negb (Join (id_Permissions id))
      then Some (mkAuthError CodeJoinDenied "join is not permitted for this identity")
      else if negb (RoomAllowed id roomID)
      then Some (mkAuthError CodeRoomAccessDenied "token does not grant access to this room")
      else None
  end.

(** src/internal/auth/permissions.go:23-33 [AuthorizePublish] *)
Definition AuthorizePublish (id : option Identity) : option AuthError :=
  match id with
  | None => Some errMissing
  | Some id =>
      if negb (Publish (id_Permissions id))
      then Some (mkAuthError CodePublishDenied "publishing is not permitted for this identity") else None
  end.

(** src/internal/auth/permissions.go:35-44 [AuthorizeSubscribe] *)
Definition AuthorizeSubscribe (id : option Identity) : option AuthError :=
  match id with
  | None => Some errMissing
  | Some id =>
      if negb (Subscribe (id_Permissions id))
      then Some (mkAuthError CodeSubscribeDenied "subscribing is not permitted for this identity") else None
  end.

(** src/internal/auth/permissions.go:46-56 [AuthorizeControl] *)
Definition AuthorizeControl (id : option Identity) : option AuthError :=
  match id with
  | None => Some errMissing
  | Some id =>
      if negb (Control (id_Permissions id))
      then Some (mkAuthError CodeControlDenied "control operations are not permitted for this identity") else None
  end.

(** ** Tokens *)

(** src/internal/auth/token.go:14-27 [hmacHashes] *)
Inductive hash := SHA256 | SHA384 | SHA512.
Definition AlgHS256 : string := "HS256".
Definition AlgHS384 : string := "HS384".
Definition AlgHS512 : string := "HS512".
Definition hmacHashes (alg : string) : option hash :=
  if bool_decide (alg = AlgHS256) then Some SHA256
  else if bool_decide (alg = AlgHS384) then Some SHA384
  else if bool_decide (alg = AlgHS512) then Some SHA512
  else None.

(** src/internal/auth/token.go:29-32 [jwtHeader] *)
Record jwtHeader := mkHeader { hdr_Alg : string; hdr_Typ : string }.

(** HMAC with one of the hashes, and encoding/json on the two structs. *)
Class Mac := hmac_sum : hash → list byte → list byte → list byte.

Class MacLaws (M : Mac) := mac_nonempty : ∀ h k m, hmac_sum h k m ≠ [].

Class TokenJSON := {
  hdr_marshal : jwtHeader → list byte;
  hdr_unmarshal : list byte → option jwtHeader;
  claims_marshal : Claims → list byte;
  claims_unmarshal : list byte → option Claims
}.

(** The strings encoding/json returns unchanged include all of printable ASCII. *)
Definition plain (s : string) : bool := forallb (λ c, (32 <=? Z_of_byte c) && (Z_of_byte c <=? 126)) (bytes_of s).

Definition plain_claims (c : Claims) : Prop :=
  plain (cl_Subject c) = true ∧ plain (cl_Name c) = true ∧ plain (cl_Room c) = true
  ∧ plain (cl_Issuer c) = true ∧ plain (cl_Audience c) = true ∧ plain (cl_JTI c) = true
  ∧ - 2 ^ 63 ≤ cl_IssuedAt c < 2 ^ 63 ∧ - 2 ^ 63 ≤ cl_ExpiresAt c < 2 ^ 63.

Class TokenJSONLaws (J : TokenJSON) := {
  hdr_roundtrip : ∀ alg, is_Some (hmacHashes alg) →
    hdr_unmarshal (hdr_marshal (mkHeader alg "JWT")) = Some (mkHeader alg "JWT");
  hdr_nonempty : ∀ h, hdr_marshal h ≠ [];
  claims_roundtrip : ∀ c, plain_claims c → claims_unmarshal (claims_marshal c) = Some c;
  claims_nonempty : ∀ c, claims_marshal c ≠ []
}.

Definition dot : byte := x2e.

Section tokens.
Context {MC : Mac} {J : TokenJSON}.

(** src/internal/auth/token.go:36-56 [Sign] *)
Definition Sign (claims : Claims) (alg secret : string) : AuthError + list byte :=
  match hmacHashes alg with
  | None => inl errBadAlg
  | Some h =>
      let signing := b64_encode (hdr_marshal (mkHeader alg "JWT")) ++ [dot] ++ b64_encode (claims_marshal claims) in
      inr (signing ++ [dot] ++ b64_encode (hmac_sum h (bytes_of secret) signing))
  end.

(** src/internal/auth/token.go:58-104 [parse] *)
Definition parse (token : list byte) (secret : string) (allowedAlgs : gset string) : AuthError + Claims :=
  match split_on dot (TrimSpace token) with
  | [p0; p1; p2] =>
      if bool_decide (p0 = [] ∨ p1 = [] ∨ p2 = []) then inl errMalformed
      else match b64_decode p0 with
      | None => inl errMalformed
      | Some hb =>
          match hdr_unmarshal hb with
          | None => inl errMalformed
          | Some hdr =>
              if negb (bool_decide (hdr_Alg hdr ∈ allowedAlgs)) then inl errBadAlg
              else match hmacHashes (hdr_Alg hdr) with
              | None => inl errBadAlg
              | Some h =>
                  match b64_decode p2 with
                  | None => inl errMalformed
                  | Some sig =>
                      if negb (bool_decide (sig = hmac_sum h (bytes_of secret) (p0 ++ [dot] ++ p1)))
                      then inl errBadSig
                      else match b64_decode p1 with
                      | None => inl errMalformed
                      | Some pb =>
                          match claims_unmarshal pb with
                          | None => inl errMalformed
                          | Some claims => inr claims
                          end
                      end
                  end
              end
          end
      end
  | _ => inl errMalformed
  end.

(** ** Validation *)

(** src/internal/auth/validator.go:8-19 [Validator] *)
Record Validator := mkValidator {
  v_secret : string;
  v_issuer : string;
  v_audience : string;
  v_algs : gset string;
  v_leeway : Z;
  v_maxTokenAge : Z
}.

(** [time.Unix(sec, 0)]: the seconds are shifted to the epoch of [time.Time] in
    64-bit arithmetic. *)
Definition time_Unix (sec : Z) : Z := wrap64 (sec + 62135596800) * second.

(** src/internal/auth/validator.go:54-80 [Validate]  The policy, in the order of the
    checks. *)
Definition policy (v : Validator) (claims : Claims) (now : Z) : option AuthError :=
  if cl_ExpiresAt claims =? 0 then Some errExpired
  else if time_Unix (cl_ExpiresAt claims) + v_leeway v <? now then Some errExpired
  else if cl_IssuedAt claims =? 0 then Some errNoIat
  else if now + v_leeway v <? time_Unix (cl_IssuedAt claims) then Some errNotYetValid
  else if (0 <? v_maxTokenAge v)
          && (wrap64 (v_maxTokenAge v + v_leeway v) <? time_sub now (time_Unix (cl_IssuedAt claims)))
  then Some errStale
  else if blank (cl_Subject claims) then Some errNoSub
  else if negb (bool_decide (v_issuer v = "")) && negb (bool_decide (cl_Issuer claims = v_issuer v))
  then Some errIssuer
  else if negb (bool_decide (v_audience v = "")) && negb (bool_decide (cl_Audience claims = v_audience v))
  then Some errAudience
  else None.

(** src/internal/auth/validator.go:82-89 [Validate] *)
Definition identity_of (c : Claims) : Identity :=
  mkIdentity (cl_Subject c) (cl_Name c) (cl_Room c) (cl_Permissions c) (cl_JTI c) (cl_ExpiresAt c).

(** src/internal/auth/validator.go:42-90 [Validate] *)
Definition Validate (v : Validator) (token : list byte) (now : Z) : AuthError + Identity :=
  if bool_decide (TrimSpace token = []) then inl errMissing
  else match parse token (v_secret v) (v_algs v) with
       | inl e => inl e
       | inr claims =>
           match policy v claims now with
           | Some e => inl e
           | None => inr (identity_of claims)
           end
       end.

(** ** Round trip and soundness *)

Context {ML : MacLaws MC} {JL : TokenJSONLaws J}.

Lemma encoded_part l : (dot ∉ b64_encode l) ∧ (l ≠ [] → b64_encode l ≠ []).
Proof.
  split.
  - intros Hd. by destruct (b64_encode_clean l dot Hd) as (_ & ? & _).
  - intros Hn E. by apply Hn, b64_encode_nil.
Qed.

Lemma encoded_ends l c : (head (b64_encode l) = Some c ∨ last (b64_encode l) = Some c) → visible c = true.
Proof.
  intros Hc. apply (b64_encode_clean l c). destruct Hc as [Hc|Hc].
  - apply head_Some in Hc as [k ->]. apply elem_of_cons. by left.
  - apply last_Some in Hc as [k ->]. apply elem_of_app. right. by apply list_elem_of_singleton.
Qed.

(** A token of three encoded parts splits into them. *)
Lemma token_split a b c :
  a ≠ [] → b ≠ [] → c ≠ [] →
  TrimSpace (b64_encode a ++ [dot] ++ b64_encode b ++ [dot] ++ b64_encode c)
    = b64_encode a ++ [dot] ++ b64_encode b ++ [dot] ++ b64_encode c
  ∧ split_on dot (b64_encode a ++ [dot] ++ b64_encode b ++ [dot] ++ b64_encode c)
    = [b64_encode a; b64_encode b; b64_encode c].
Proof.
  intros Ha Hb Hc. destruct (encoded_part a) as [Da Na], (encoded_part b) as [Db Nb], (encoded_part c) as [Dc Nc].
  split.
  - destruct (b64_encode a) as [|x a'] eqn:Ea; [by destruct Na|].
    assert (∃ y, last (b64_encode c) = Some y) as [y Hy].
    { destruct (last (b64_encode c)) eqn:E; [eauto|]. apply last_None in E. by destruct Nc. }
    apply (TrimSpace_id _ x y); [done| |apply (encoded_ends a); rewrite Ea; by left|].
    + rewrite !last_app, Hy. done.
    + apply (encoded_ends c). by right.
  - simpl. rewrite split_on_cons by done. rewrite split_on_cons by done. by rewrite split_on_last.
Qed.

Lemma parse_Sign claims alg secret algs h :
  hmacHashes alg = Some h → alg ∈ algs → plain_claims claims →
  ∃ token, Sign claims alg secret = inr token ∧ TrimSpace token ≠ []
    ∧ parse token secret algs = inr claims.
Proof.
  intros Hh Halg Hc. unfold Sign. rewrite Hh. eexists. split; [done|].
  set (hb := hdr_marshal (mkHeader alg "JWT")). set (pb := claims_marshal claims).
  set (signing := b64_encode hb ++ [dot] ++ b64_encode pb).
  set (sg := hmac_sum h (bytes_of secret) signing).
  destruct (token_split hb pb sg) as [Ht Hs];
    [apply hdr_nonempty|apply claims_nonempty|apply mac_nonempty|].
  replace (signing ++ [dot] ++ b64_encode sg)
    with (b64_encode hb ++ [dot] ++ b64_encode pb ++ [dot] ++ b64_encode sg)
    by (unfold signing; by rewrite <- !app_assoc).
  destruct (encoded_part hb) as [_ Nh], (encoded_part pb) as [_ Np], (encoded_part sg) as [_ Ns].
  split.
  - rewrite Ht. destruct (b64_encode hb) eqn:E; [by destruct (Nh (hdr_nonempty _))|done].
  - unfold parse. rewrite Ht, Hs. rewrite bool_decide_eq_false_2.
    2: { intros [E|[E|E]]; revert E; [apply Nh, hdr_nonempty|apply Np, claims_nonempty|apply Ns, mac_nonempty]. }
    rewrite b64_decode_encode. unfold hb. rewrite hdr_roundtrip by eauto. cbn [hdr_Alg].
    rewrite bool_decide_eq_true_2 by done. cbn [negb]. rewrite Hh, b64_decode_encode.
    fold hb. fold signing. rewrite bool_decide_eq_true_2 by done. cbn [negb].
    rewrite b64_decode_encode. unfold pb. by rewrite claims_roundtrip.
Qed.

(** A token signed with the server's secret is accepted with exactly its claims.
    For every supported and allowed algorithm and printable claims that satisfy the
    validator's policy at the time, Sign succeeds and Validate of its result under
    the same secret returns the identity of the claims: subject, name, room,
    permissions, expiry and id. *)
Theorem sign_validate v claims alg now :
  is_Some (hmacHashes alg) → alg ∈ v_algs v → plain_claims claims →
  policy v claims now = None →
  ∃ token, Sign claims alg (v_secret v) = inr token
    ∧ Validate v token now = inr (identity_of claims).
Proof.
  intros [h Hh] Halg Hc Hp.
  destruct (parse_Sign claims alg (v_secret v) (v_algs v) h Hh Halg Hc) as (token & Hs & Hn & Hparse).
  exists token. split; [done|]. unfold Validate. rewrite bool_decide_eq_false_2 by done.
  by rewrite Hparse, Hp.
Qed.

End tokens.

(** ** A concrete instance

    Not JSON and not SHA: the simplest functions with the laws, so that the theorems
    can be applied to concrete tokens. *)

#[local] Instance toy_json : TokenJSON := {|
  hdr_marshal h := enc_str (bytes_of (hdr_Alg h)) ++ enc_str (bytes_of (hdr_Typ h)) ++ [];
  hdr_unmarshal l := '(a, l) ← dec_string l; '(t, l) ← dec_string l; Some (mkHeader a t);
  claims_marshal c :=
    enc_str (bytes_of (cl_Subject c)) ++ enc_str (bytes_of (cl_Name c)) ++ enc_str (bytes_of (cl_Room c))
    ++ enc_bool (Join (cl_Permissions c)) :: enc_bool (Publish (cl_Permissions c))
    :: enc_bool (Subscribe (cl_Permissions c)) :: enc_bool (Control (cl_Permissions c))
    :: enc_Z (cl_IssuedAt c) ++ enc_Z (cl_ExpiresAt c) ++ enc_str (bytes_of (cl_Issuer c))
    ++ enc_str (bytes_of (cl_Audience c)) ++ enc_str (bytes_of (cl_JTI c)) ++ [];
  claims_unmarshal l :=
    '(s, l) ← dec_string l; '(n, l) ← dec_string l; '(r, l) ← dec_string l;
    '(j, l) ← dec_bool l; '(p, l) ← dec_bool l; '(u, l) ← dec_bool l; '(k, l) ← dec_bool l;
    '(i, l) ← dec_Z l; '(e, l) ← dec_Z l;
    '(iss, l) ← dec_string l; '(aud, l) ← dec_string l; '(jti, l) ← dec_string l;
    Some (mkClaims s n r (mkPerms j p u k) i e iss aud jti)
|}.

#[local] Instance toy_json_laws : TokenJSONLaws toy_json.
Proof.
  split.
  - intros alg _. cbn [hdr_unmarshal hdr_marshal toy_json].
    rewrite dec_enc_string. cbn [mbind option_bind]. by rewrite dec_enc_string.
  - intros h. cbn. by destruct (bytes_of (hdr_Alg h)).
  - intros c _. cbn [claims_unmarshal claims_marshal toy_json].
    do 3 (rewrite dec_enc_string; cbn [mbind option_bind]). cbn [dec_bool mbind option_bind].
    do 2 (rewrite dec_enc_Z; cbn [mbind option_bind]).
    do 3 (rewrite dec_enc_string; cbn [mbind option_bind]).
    destruct c as [? ? ? [[] [] [] []] ? ? ? ? ?]; reflexivity.
  - intros c. cbn. by destruct (bytes_of (cl_Subject c)).
Qed.

#[local] Instance toy_mac : Mac := λ h k m, x00 :: k ++ m.

#[local] Instance toy_mac_laws : MacLaws toy_mac.
Proof. by intros h k m. Qed.

Definition demo_validator : Validator :=
  mkValidator "s3cret" "pulsertc" "pulsertc" {[AlgHS256]} (60 * second) (3600 * second).

Definition demo_claims : Claims :=
  mkClaims "alice" "Alice" "room-1" (mkPerms true true true false) 1700000000 1700003600 "pulsertc" "pulsertc" "".

Definition demo_now : Z := time_Unix 1700000100.

Lemma sign_validate_witness :
  ∃ token, Sign demo_claims AlgHS256 "s3cret" = inr token
    ∧ Validate demo_validator token demo_now = inr (identity_of demo_claims).
Proof.
  apply (sign_validate demo_validator demo_claims AlgHS256 demo_now).
  - exists SHA256. vm_compute. reflexivity.
  - unfold demo_validator. cbn [v_algs]. by apply elem_of_singleton.
  - split_and!; try (vm_compute; reflexivity); vm_compute; discriminate.
  - vm_compute. reflexivity.
Defined.


(** ** The rate limiter *)

(** src/internal/auth/ratelimit.go:21-24 [bucket] *)
Record bucket := mkBucket { tokens : float64; bucket_last : Z }.

(** src/internal/auth/ratelimit.go:8-19 [RateLimiter] *)
Record RateLimiter := mkLimiter { rate : float64; burst : float64; buckets : gmap string bucket }.

(** src/internal/auth/ratelimit.go:26-35 [NewRateLimiter] *)
Definition NewRateLimiter (perWindow window : Z) : RateLimiter :=
  if (0 <? perWindow) && (0 <? window)
  then mkLimiter (f_div (f_of_Z perWindow) (Seconds window)) (f_of_Z perWindow) ∅
  else mkLimiter (f_of_Z 0) (f_of_Z 0) ∅.

(** src/internal/auth/ratelimit.go:45-61 [Allow]  One bucket at [now]. *)
Definition refill (rl : RateLimiter) (b : bucket) (now : Z) : float64 :=
  let t := f_add (tokens b) (f_mul (Seconds (time_sub now (bucket_last b))) (rate rl)) in
  if f_lt (burst rl) t then burst rl else t.
Definition take_token (rl : RateLimiter) (b : bucket) (now : Z) : bool * bucket :=
  let t := refill rl b now in
  if f_lt t (f_of_Z 1) then (false, mkBucket t now)
  else (true, mkBucket (f_sub t (f_of_Z 1)) now).

(** src/internal/auth/ratelimit.go:37-61 [Allow] *)
Definition Allow (rl : RateLimiter) (key : string) (now : Z) : bool * RateLimiter :=
  if f_eq (rate rl) (f_of_Z 0) then (true, rl)
  else
    let b := default (mkBucket (burst rl) now) (buckets rl !! key) in
    let '(ok, b') := take_token rl b now in
    (ok, mkLimiter (rate rl) (burst rl) (<[key := b']> (buckets rl))).

(** src/internal/auth/ratelimit.go:63-74 [Sweep] *)
Definition Sweep (rl : RateLimiter) (maxIdle now : Z) : RateLimiter :=
  mkLimiter (rate rl) (burst rl) (filter (λ kb, negb (bucket_last kb.2 <? now - maxIdle)) (buckets rl)).

(** Several attempts for a key at the given times. *)
Fixpoint attempts (rl : RateLimiter) (key : string) (times : list Z) : list bool * RateLimiter :=
  match times with
  | [] => ([], rl)
  | t :: ts =>
      let '(ok, rl) := Allow rl key t in
      let '(oks, rl) := attempts rl key ts in (ok :: oks, rl)
  end.

(** With the default of 120 per minute, a flood at one instant gets exactly 120
    attempts through, and one more after each half second. *)
Example default_limiter_burst :
  (attempts (NewRateLimiter 120 (60 * second)) "10.0.0.1" (replicate 125 0)).1
    = replicate 120 true ++ replicate 5 false
  ∧ (attempts (NewRateLimiter 120 (60 * second)) "10.0.0.1" (replicate 121 0 ++ [second / 2; second / 2])).1
    = replicate 120 true ++ [false; true; false].
Proof. split; vm_compute; reflexivity. Qed.

Lemma refill_not_above rl b now :
  f_is_nan (burst rl) = false → f_lt (burst rl) (refill rl b now) = false.
Proof.
  intros Hn. unfold refill. destruct (f_lt (burst rl) (f_add _ _)) eqn:E; [apply f_lt_irrefl|exact E].
Qed.

(** ** Metrics *)

(** src/internal/auth/metrics.go:5-15 [Metrics] *)
Record Metrics := mkMetrics {
  m_success : Z;
  m_failed : Z;
  m_tokenExpired : Z;
  m_permissionDenied : Z;
  m_roomDenied : Z;
  m_rateLimited : Z
}.

(** src/internal/auth/metrics.go:27-28 [recordSuccess, recordRateLimit] *)
Definition recordSuccess (m : Metrics) : Metrics :=
  mkMetrics (m_success m + 1) (m_failed m) (m_tokenExpired m) (m_permissionDenied m) (m_roomDenied m) (m_rateLimited m).
Definition recordRateLimit (m : Metrics) : Metrics :=
  mkMetrics (m_success m) (m_failed m) (m_tokenExpired m) (m_permissionDenied m) (m_roomDenied m) (m_rateLimited m + 1).

(** src/internal/auth/metrics.go:30-41 [recordFailure] *)
Definition recordFailure (code : string) (m : Metrics) : Metrics :=
  let expired := bool_decide (code = CodeExpiredToken) in
  let room := bool_decide (code = CodeRoomAccessDenied) in
  let perm := bool_decide (code = CodeJoinDenied) || bool_decide (code = CodePublishDenied)
              || bool_decide (code = CodeSubscribeDenied) || bool_decide (code = CodeControlDenied) in
  mkMetrics (m_success m) (m_failed m + 1)
    (m_tokenExpired m + if expired then 1 else 0)
    (m_permissionDenied m + if perm then 1 else 0)
    (m_roomDenied m + if room then 1 else 0) (m_rateLimited m).

(** ** The gate *)

Section gate.
Context {MC : Mac} {J : TokenJSON}.

(** src/internal/auth/config.go:13-44 [Config]  The fields the gate reads; the
    algorithms are those of the validator. *)
Record AuthConfig := mkAuthConfig {
  cfg_Enabled : bool;
  cfg_ConnRatePerMin : Z;
  cfg_MetricsPublic : bool;
  cfg_validator : Validator
}.

(** src/internal/auth/middleware.go:29-37 [Authenticator] *)
Record Authenticator := mkAuthenticator {
  a_cfg : AuthConfig;
  a_connRL : RateLimiter;
  a_metrics : Metrics
}.

(** src/internal/auth/middleware.go:39-58 [Build]  [None] is the refusal to start. *)
Definition Build (cfg : AuthConfig) : option Authenticator :=
  if cfg_Enabled cfg && blank (v_secret (cfg_validator cfg)) then None
  else Some (mkAuthenticator cfg (NewRateLimiter (cfg_ConnRatePerMin cfg) (60 * second))
               (mkMetrics 0 0 0 0 0 0)).

(** The parts of a request the gate reads: the three places a token may be in, the
    forwarding header, and the host of the TCP peer ([None] when [SplitHostPort]
    fails) beside the raw address. *)
Record request := mkRequest {
  rq_Authorization : list byte;
  rq_WSProtocol : list byte;
  rq_access_token : list byte;
  rq_XFF : list byte;
  rq_RemoteAddr : string;
  rq_RemoteHost : option string
}.

Definition bearerPrefix : list byte := bytes_of "Bearer ".

Definition wsTokenPrefix : list byte := bytes_of "pulsertc.token.".

(** [strings.HasPrefix] with the rest of the string. *)
Definition strip_prefix (p l : list byte) : option (list byte) :=
  if decide (take (length p) l = p) then Some (drop (length p) l) else None.

(** src/internal/auth/middleware.go:90-99 [parseWSProtocols] *)
Definition parseWSProtocols (h : list byte) : list (list byte) :=
  if decide (h = []) then [] else TrimSpace <$> split_on x2c h.

(** src/internal/auth/middleware.go:75-88 [TokenFromRequest] *)
Fixpoint first_ws_token (protos : list (list byte)) : option (list byte) :=
  match protos with
  | [] => None
  | p :: ps => match strip_prefix wsTokenPrefix p with Some t => Some t | None => first_ws_token ps end
  end.
Definition TokenFromRequest (r : request) : list byte :=
  match strip_prefix bearerPrefix (rq_Authorization r) with
  | Some t => TrimSpace t
  | None =>
      match first_ws_token (parseWSProtocols (rq_WSProtocol r)) with
      | Some t => t
      | None => TrimSpace (rq_access_token r)
      end
  end.

(** src/internal/auth/middleware.go:101-115 [clientIP] *)
Definition clientIP (r : request) : string :=
  match rq_XFF r with
  | [] => default (rq_RemoteAddr r) (rq_RemoteHost r)
  | h => match split_on x2c h with
         | p :: _ => string_of (TrimSpace p)
         | [] => string_of (TrimSpace h)
         end
  end.

(** src/internal/auth/middleware.go:130-135 [AuthenticateRequest] *)
Definition anonymous (uuid : string) (now : Z) : Identity :=
  mkIdentity ("anonymous-" +:+ uuid) "anonymous" "" (mkPerms true true true true) ""
    ((now + 86400 * second) / second - 62135596800).

(** src/internal/auth/middleware.go:117-148 [AuthenticateRequest] *)
Definition AuthenticateRequest (a : Authenticator) (r : request) (now : Z) (uuid : string)
    : (AuthError + Identity) * Authenticator :=
  let '(ok, rl) := Allow (a_connRL a) (clientIP r) now in
  let a1 := mkAuthenticator (a_cfg a) rl (a_metrics a) in
  if negb ok
  then (inl (mkAuthError CodeRateLimited "too many connection attempts"),
        mkAuthenticator (a_cfg a) rl (recordRateLimit (a_metrics a)))
  else if negb (cfg_Enabled (a_cfg a)) then (inr (anonymous uuid now), a1)
  else match Validate (cfg_validator (a_cfg a)) (TokenFromRequest r) now with
       | inl e => (inl e, mkAuthenticator (a_cfg a) rl (recordFailure (ae_Code e) (a_metrics a)))
       | inr id => (inr id, mkAuthenticator (a_cfg a) rl (recordSuccess (a_metrics a)))
       end.

(** src/internal/auth/middleware.go:167-184 [ProtectHTTP]  Whether the wrapped
    handler runs. *)
Definition ProtectHTTP (a : Authenticator) (r : request) (now : Z) : bool * Authenticator :=
  if negb (cfg_Enabled (a_cfg a)) || cfg_MetricsPublic (a_cfg a) then (true, a)
  else match Validate (cfg_validator (a_cfg a)) (TokenFromRequest r) now with
       | inl e => (false, mkAuthenticator (a_cfg a) (a_connRL a) (recordFailure (ae_Code e) (a_metrics a)))
       | inr _ => (true, a)
       end.

(** src/internal/auth/middleware.go:154-165 [ParticipantID]  [suffix] is the random
    part. *)
Definition ParticipantID (id : option Identity) (suffix : string) : string :=
  match id with
  | None => "anon." +:+ suffix
  | Some id => if blank (id_Subject id) then "anon." +:+ suffix else id_Subject id +:+ "." +:+ suffix
  end.
End gate.

(** ** The node-to-node credential *)

(** src/internal/cluster/internalauth.go:19-20 [internalToken] *)
Definition internalToken (secret : string) : list byte := bearerPrefix ++ bytes_of secret.

(** src/internal/cluster/internalauth.go:22-33 [checkInternalAuth] *)
Definition checkInternalAuth (header : list byte) (secret : string) : bool :=
  if decide (secret = "") then false
  else match strip_prefix bearerPrefix header with
       | None => false
       | Some t => bool_decide (TrimSpace t = bytes_of secret)
       end.

(** src/internal/cluster/internalauth.go:35-48 [InternalAuthMiddleware]  Whether the
    handler runs; otherwise the answer is 401. *)
Definition InternalAuthMiddleware (header : list byte) (secret : string) : bool :=
  checkInternalAuth header secret.

Lemma strip_prefix_app p l : strip_prefix p (p ++ l) = Some l.
Proof. unfold strip_prefix. rewrite take_app_length, decide_True by done. by rewrite drop_app_length. Qed.

Lemma strip_prefix_Some p l r : strip_prefix p l = Some r → l = p ++ r.
Proof.
  unfold strip_prefix. case_decide as H; [|done]. intros [= <-]. rewrite <- H at 1. by rewrite take_drop.
Qed.

Lemma AuthenticateRequest_accepts {MC : Mac} {J : TokenJSON} a r now uuid id :
  (AuthenticateRequest a r now uuid).1 = inr id →
  (Allow (a_connRL a) (clientIP r) now).1 = true
  ∧ (cfg_Enabled (a_cfg a) = true → Validate (cfg_validator (a_cfg a)) (TokenFromRequest r) now = inr id).
Proof.
  unfold AuthenticateRequest. destruct (Allow (a_connRL a) (clientIP r) now) as [ok rl].
  destruct ok; [|done]. simpl. destruct (cfg_Enabled (a_cfg a)); [|done]. simpl.
  destruct (Validate _ _ _); [done|]. intros [= ->]. done.
Qed.

Lemma AuthenticateRequest_cfg {MC : Mac} {J : TokenJSON} a r now uuid :
  a_cfg (AuthenticateRequest a r now uuid).2 = a_cfg a.
Proof.
  unfold AuthenticateRequest. destruct (Allow _ _ _) as [ok rl]. by repeat case_match.
Qed.

(** The gate in front of the WebSocket lets through exactly what it should.  A
    server that enforces tokens starts only with a secret; an accepted request
    found a token in its address's bucket and, when tokens are enforced, carries one
    the validator accepts at that time, whose identity it gets; and the internal API
    accepts precisely a bearer header whose credential, blanks trimmed, is the
    non-empty cluster secret, in particular the one nodes send when the secret has
    no blanks at its ends. *)
Theorem gates_sound {MC : Mac} {J : TokenJSON} :
  (∀ cfg a, Build cfg = Some a → cfg_Enabled cfg = true → blank (v_secret (cfg_validator cfg)) = false)
  ∧ (∀ a r now uuid id, (AuthenticateRequest a r now uuid).1 = inr id →
       (Allow (a_connRL a) (clientIP r) now).1 = true
       ∧ (cfg_Enabled (a_cfg a) = true →
          Validate (cfg_validator (a_cfg a)) (TokenFromRequest r) now = inr id))
  ∧ (∀ a r now, cfg_Enabled (a_cfg a) = true → cfg_MetricsPublic (a_cfg a) = false →
       (ProtectHTTP a r now).1 = true →
       ∃ id, Validate (cfg_validator (a_cfg a)) (TokenFromRequest r) now = inr id)
  ∧ (∀ header secret, InternalAuthMiddleware header secret = true ↔
       secret ≠ "" ∧ ∃ t, header = bearerPrefix ++ t ∧ TrimSpace t = bytes_of secret)
  ∧ (∀ secret, secret ≠ "" → TrimSpace (bytes_of secret) = bytes_of secret →
       InternalAuthMiddleware (internalToken secret) secret = true).
Proof.
  assert (∀ header secret, InternalAuthMiddleware header secret = true ↔
       secret ≠ "" ∧ ∃ t, header = bearerPrefix ++ t ∧ TrimSpace t = bytes_of secret) as Hint.
  { intros header secret. unfold InternalAuthMiddleware, checkInternalAuth. case_decide as Hs; [naive_solver|].
    destruct (strip_prefix bearerPrefix header) as [t|] eqn:E.
    - rewrite bool_decide_eq_true. apply strip_prefix_Some in E as ->. split; [eauto|].
      intros [_ (t' & Et & Ht)]. apply app_inv_head in Et as ->. done.
    - split; [done|]. intros [_ (t & -> & _)]. by rewrite strip_prefix_app in E. }
  split_and!; [| | |exact Hint|].
  - intros cfg a. unfold Build. destruct (cfg_Enabled cfg); [|done]. simpl.
    by destruct (blank (v_secret (cfg_validator cfg))).
  - intros a r now uuid id. apply AuthenticateRequest_accepts.
  - intros a r now He Hm. unfold ProtectHTTP. rewrite He, Hm. simpl.
    destruct (Validate _ _ _) as [e|id]; [done|]. eauto.
  - intros secret Hs Ht. apply Hint. split; [done|]. by exists (bytes_of secret).
Qed.

(** Any client chooses the bucket it is counted in: the first entry of the
    forwarding header is what it sent, also behind a proxy that appends to it. *)
Example forwarded_header_evades_the_limiter :
  let rl := (attempts (NewRateLimiter 1 (60 * second)) "10.0.0.1" [0]).2 in
  (Allow rl (clientIP (mkRequest [] [] [] [] "10.0.0.1:999" (Some "10.0.0.1"))) 0).1 = false
  ∧ (Allow rl (clientIP (mkRequest [] [] [] (bytes_of "8.8.4.4, 10.0.0.1") "10.0.0.1:999" (Some "10.0.0.1"))) 0).1
    = true.
Proof. split; vm_compute; reflexivity. Qed.
