(* ===== verification/Signaling.v ===== *)
(** * The signaling server (internal/room, internal/signaling: ws_server, ws_client,
      session_handlers, session_snapshot, qoe_bridge, protocol)

    A browser's WebSocket is a [Client]; the server keeps the rooms its clients are
    in, an index of the clients by participant id, the logical sessions, the mirrors
    and the quality engine.  Client and room objects are shared by pointer and live
    in heaps; the channel of frames for the socket is a bounded list.  What the SFU,
    the cluster and the call history are asked is an output, what they answer is in
    the [env] of the handler; frames are kept as values (their JSON text is not). *)

From S2P Require Import Prelude Bytes GoFloat ClusterTypes QualityModel.
From S2P Require Import QualityEngine MediaBridge Mirrors Sessions Cluster Auth.

(** ** Frames *)

(** src/internal/signaling/protocol.go:237-248 [ErrorMessage] *)
Record ErrorMessage := mkErrorMessage {
  em_Code : string;
  em_Message : string;
  em_NodeID : string;
  em_RoomID : string
}.

(** src/internal/signaling/protocol.go:250-264 [newError, newSecError, newClusterError] *)
Definition newError (msg : string) : ErrorMessage := mkErrorMessage "" msg "" "".
Definition newSecError (e : AuthError) : ErrorMessage := mkErrorMessage (ae_Code e) (ae_Message e) "" "".
Definition newClusterError (e : Error) : ErrorMessage :=
  mkErrorMessage (Code e) (Message e) (err_NodeID e) (err_RoomID e).

(** src/internal/signaling/protocol.go:131-137 [ParticipantInfo] *)
Record ParticipantInfo := mkInfo { pi_ParticipantID : string; pi_Name : string }.

(** src/internal/signaling/protocol.go:159-166 [ParticipantQualityState] *)
Record ParticipantQualityState := mkPQS { pqs_ParticipantID : string; pqs_Status : Status; pqs_Reason : string }.

(** src/internal/signaling/protocol.go:183-189 [SnapshotTrack] *)
Record SnapshotTrack := mkTrack { st_PublicationID : string; st_Kind : string; st_Source : string; st_Muted : bool }.

(** src/internal/signaling/protocol.go:191-196 [SnapshotParticipant] *)
Record SnapshotParticipant := mkSnapP { sp_ParticipantID : string; sp_Name : string; sp_Tracks : list SnapshotTrack }.

(** src/internal/signaling/protocol.go:198-207 [RoomSnapshot] *)
Record RoomSnapshot := mkSnapshot {
  rs_RoomID : string;
  rs_RoomGeneration : Z;
  rs_Participants : list SnapshotParticipant
}.

(** src/internal/signaling/protocol.go:209-215 [SessionEvent] *)
Record SessionEvent := mkSessionEvent { sv_Type : string; sv_Reason : string; sv_RoomID : string; sv_SessionID : string }.

(** src/internal/signaling/protocol.go:139-157 [RoomJoined]  The recovery fields are
    present together; the reconnection hints are constants of the configuration. *)
Record RoomJoined := mkRoomJoined {
  rj_RoomID : string;
  rj_Participants : list ParticipantInfo;
  rj_Session : option (string * Z * string * bool * RoomSnapshot);
  rj_Quality : list ParticipantQualityState
}.

(** src/internal/signaling/protocol.go:217-235 [ParticipantEvent, ForwardedMessage]
    One constructor per shape of frame; [FRaw] is a frame that arrived ready made
    from another node. *)
Inductive frame :=
| FWelcome (participantID userID name : string)
| FError (e : ErrorMessage)
| FRoomJoined (rj : RoomJoined)
| FParticipantJoined (participantID name : string)
| FParticipantLeft (participantID name : string)
| FForwarded (typ from target : string) (payload : list byte)
| FSession (e : SessionEvent)
| FRoomSnapshot (s : RoomSnapshot)
| FQuality (ev : Event)
| FSubscriptionFailed (publicationID reason : string)
| FRoomClosed (room reason : string)
| FRaw (payload : list byte).

(** src/internal/signaling/protocol.go:114-129 [Inbound] *)
Record Inbound := mkInbound {
  in_Type : string;
  in_RoomID : string;
  in_Target : string;
  in_Payload : list byte;
  in_PublicationID : string;
  in_Muted : bool;
  in_Resume : option ResumeInfo;
  in_TrackID : string;
  in_Kind : string;
  in_Source : string;
  in_Enabled : option bool
}.

(** src/internal/signaling/protocol.go:70-90 [sfuTypes, forwardableTypes] *)
Definition sfuTypes : list string :=
  ["sfu_offer"; "sfu_answer"; "sfu_ice_candidate"; "subscribe"; "unsubscribe"; "unpublish"; "set_mute"; "publish"].
Definition forwardableTypes : list string :=
  ["signal"; "webrtc_offer"; "webrtc_answer"; "webrtc_ice_candidate"].

(** ** State *)

(** src/internal/signaling/ws_client.go:25-48 [Client]  [cl_send] is the buffered
    channel; [cl_peer] tells whether there is an SFU peer, [cl_expiry] whether the
    expiry timer is armed. *)
Record Client := mkClient {
  cl_id : string;
  cl_identity : Identity;
  cl_roomID : string;
  cl_closed : bool;
  cl_send : list frame;
  cl_peer : bool;
  cl_expiry : bool;
  cl_session : string * Z;
  cl_maxMessageSize : Z;
  cl_msgLimiter : RateLimiter
}.

(** src/internal/room/room.go:12-18 [Room] *)
Record Room := mkRoom { room_id : string; room_participants : gmap string nat }.

(** src/internal/signaling/session_snapshot.go:52-66 [sessionMetrics]  The counter
    of WebSocket reconnects is never touched. *)
Record sessionMetrics := mkSessionMx {
  mx_started : Z; mx_attempts : Z; mx_success : Z; mx_failed : Z; mx_timeout : Z;
  mx_replaced : Z; mx_stale : Z; mx_durSumMs : Z; mx_durCount : Z; mx_rtcReconn : Z
}.

(** The configuration a handler reads. *)
Record server_cfg := mkServerCfg {
  sc_recovery : bool;
  sc_cluster : bool;
  sc_media : bool;
  sc_node : string;
  sc_maxMessageSize : Z;
  sc_msgRate : Z
}.

(** src/internal/signaling/ws_server.go:23-59 [Server]  The room manager's map is
    [sv_rooms]; room and client objects, reached by pointer, are in the heaps. *)
Record Server := mkServer {
  sv_cfg : server_cfg;
  sv_auth : Authenticator;
  sv_objs : gmap nat Client;
  sv_clients : gmap string nat;
  sv_heap : gmap nat Room;
  sv_rooms : gmap string nat;
  sv_sessions : SessionRegistry;
  sv_mx : sessionMetrics;
  sv_mirrors : mirrors;
  sv_quality : Engine
}.

(** What the SFU peer of a participant is asked. *)
Inductive sfu_op :=
| SfuJoin (room : string) (publish subscribe : bool)
| SfuOffer (sdp : string)
| SfuAnswer (sdp : string)
| SfuCandidate
| SfuSubscribe (pub : string)
| SfuUnsubscribe (pub : string)
| SfuDeclareSource (track source : string)
| SfuUnpublish (pub : string)
| SfuSetMute (pub : string) (muted : bool)
| SfuSendExisting.

(** What the call history is told. *)
Inductive history_op :=
| HEnsureRoom (room : string)
| HParticipantJoined (room logical name : string) (reconnected : bool)
| HParticipantLeft (room logical : string)
| HRoomClosed (room : string)
| HMediaSample (room logical : string) (rtt jitter : option float64)
| HQualityEvent (room logical : string) (ev : Event).

(** Observable actions. *)
Inductive out :=
| Queued (k : nat) (f : frame)
| SlowClosed (k : nat)
| CloseSocket (k : nat)
| ClaimAsked (room : string)
| ReleaseAsked (room : string)
| RegisterParticipant (id room : string)
| ForgetParticipant (id : string)
| RemoteRoomEvent (room : string) (f : frame)
| RouteTo (target room : string) (f : frame)
| SfuCall (id : string) (op : sfu_op)
| SfuLeave (room id : string)
| History (h : history_op)
| Fired (evType room id : string)
| MirrorCall (e : mirror_event)
| Panicked.

Abbreviation SM := (M Server out).

Definition upd_objs (f : gmap nat Client → gmap nat Client) : SM unit :=
  modify (λ s, mkServer (sv_cfg s) (sv_auth s) (f (sv_objs s)) (sv_clients s) (sv_heap s) (sv_rooms s)
                 (sv_sessions s) (sv_mx s) (sv_mirrors s) (sv_quality s)).

Definition upd_index (f : gmap string nat → gmap string nat) : SM unit :=
  modify (λ s, mkServer (sv_cfg s) (sv_auth s) (sv_objs s) (f (sv_clients s)) (sv_heap s) (sv_rooms s)
                 (sv_sessions s) (sv_mx s) (sv_mirrors s) (sv_quality s)).

Definition upd_heap (f : gmap nat Room → gmap nat Room) : SM unit :=
  modify (λ s, mkServer (sv_cfg s) (sv_auth s) (sv_objs s) (sv_clients s) (f (sv_heap s)) (sv_rooms s)
                 (sv_sessions s) (sv_mx s) (sv_mirrors s) (sv_quality s)).

Definition upd_rooms (f : gmap string nat → gmap string nat) : SM unit :=
  modify (λ s, mkServer (sv_cfg s) (sv_auth s) (sv_objs s) (sv_clients s) (sv_heap s) (f (sv_rooms s))
                 (sv_sessions s) (sv_mx s) (sv_mirrors s) (sv_quality s)).

Definition upd_auth (f : Authenticator → Authenticator) : SM unit :=
  modify (λ s, mkServer (sv_cfg s) (f (sv_auth s)) (sv_objs s) (sv_clients s) (sv_heap s) (sv_rooms s)
                 (sv_sessions s) (sv_mx s) (sv_mirrors s) (sv_quality s)).

Definition upd_mx (f : sessionMetrics → sessionMetrics) : SM unit :=
  modify (λ s, mkServer (sv_cfg s) (sv_auth s) (sv_objs s) (sv_clients s) (sv_heap s) (sv_rooms s)
                 (sv_sessions s) (f (sv_mx s)) (sv_mirrors s) (sv_quality s)).

Definition upd_quality (f : Engine → Engine) : SM unit :=
  modify (λ s, mkServer (sv_cfg s) (sv_auth s) (sv_objs s) (sv_clients s) (sv_heap s) (sv_rooms s)
                 (sv_sessions s) (sv_mx s) (sv_mirrors s) (f (sv_quality s))).

(** src/internal/auth/middleware.go:150-152 [RecordAuthzFailure] *)
Definition RecordAuthzFailure (code : string) : SM unit :=
  upd_auth (λ a, mkAuthenticator (a_cfg a) (a_connRL a) (recordFailure code (a_metrics a))).

(** src/internal/signaling/session_snapshot.go:68-74 [observeDuration] *)
Definition observeDuration (ms : Z) (m : sessionMetrics) : sessionMetrics :=
  if ms <=? 0 then m
  else mkSessionMx (mx_started m) (mx_attempts m) (mx_success m) (mx_failed m) (mx_timeout m) (mx_replaced m)
         (mx_stale m) (mx_durSumMs m + ms) (mx_durCount m + 1) (mx_rtcReconn m).

(** src/internal/signaling/ws_server.go:150-161 [NewServerWithDeps: callbacks]  What
    the registry's callbacks count. *)
Definition count_session_event (m : sessionMetrics) (e : session_event) : sessionMetrics :=
  match e with
  | OnStarted =>
      mkSessionMx (mx_started m + 1) (mx_attempts m) (mx_success m) (mx_failed m) (mx_timeout m) (mx_replaced m)
        (mx_stale m) (mx_durSumMs m) (mx_durCount m) (mx_rtcReconn m)
  | OnReplaced =>
      mkSessionMx (mx_started m) (mx_attempts m) (mx_success m) (mx_failed m) (mx_timeout m) (mx_replaced m + 1)
        (mx_stale m) (mx_durSumMs m) (mx_durCount m) (mx_rtcReconn m)
  | OnTimeout =>
      mkSessionMx (mx_started m) (mx_attempts m) (mx_success m) (mx_failed m + 1) (mx_timeout m + 1) (mx_replaced m)
        (mx_stale m) (mx_durSumMs m) (mx_durCount m) (mx_rtcReconn m)
  | OnReconnect d =>
      observeDuration (d `quot` millisecond)
        (mkSessionMx (mx_started m) (mx_attempts m + 1) (mx_success m + 1) (mx_failed m) (mx_timeout m)
           (mx_replaced m) (mx_stale m) (mx_durSumMs m) (mx_durCount m) (mx_rtcReconn m))
  end.

(** A call into the session registry, and one into the mirrors. *)
Definition in_sessions {A} (m : M SessionRegistry session_event A) : SM A := λ s,
  let '(a, r, w) := m (sv_sessions s) in
  (a, mkServer (sv_cfg s) (sv_auth s) (sv_objs s) (sv_clients s) (sv_heap s) (sv_rooms s)
        r (foldl count_session_event (sv_mx s) w) (sv_mirrors s) (sv_quality s), []).

Definition in_mirrors {A} (m : M mirrors mirror_event A) : SM A := λ s,
  let '(a, r, w) := m (sv_mirrors s) in
  (a, mkServer (sv_cfg s) (sv_auth s) (sv_objs s) (sv_clients s) (sv_heap s) (sv_rooms s)
        (sv_sessions s) (sv_mx s) r (sv_quality s), MirrorCall <$> w).

(** ** Clients *)

Definition set_room_id (id : string) (c : Client) : Client :=
  mkClient (cl_id c) (cl_identity c) id (cl_closed c) (cl_send c) (cl_peer c) (cl_expiry c) (cl_session c)
    (cl_maxMessageSize c) (cl_msgLimiter c).

Definition set_queue (closed : bool) (q : list frame) (c : Client) : Client :=
  mkClient (cl_id c) (cl_identity c) (cl_roomID c) closed q (cl_peer c) (cl_expiry c) (cl_session c)
    (cl_maxMessageSize c) (cl_msgLimiter c).

Definition set_peer (c : Client) : Client :=
  mkClient (cl_id c) (cl_identity c) (cl_roomID c) (cl_closed c) (cl_send c) true (cl_expiry c) (cl_session c)
    (cl_maxMessageSize c) (cl_msgLimiter c).

Definition set_expiry (b : bool) (c : Client) : Client :=
  mkClient (cl_id c) (cl_identity c) (cl_roomID c) (cl_closed c) (cl_send c) (cl_peer c) b (cl_session c)
    (cl_maxMessageSize c) (cl_msgLimiter c).

Definition set_limiter (rl : RateLimiter) (c : Client) : Client :=
  mkClient (cl_id c) (cl_identity c) (cl_roomID c) (cl_closed c) (cl_send c) (cl_peer c) (cl_expiry c)
    (cl_session c) (cl_maxMessageSize c) rl.

(** src/internal/signaling/ws_client.go:50-55 [setSession] *)
Definition setSession (k : nat) (id : string) (gen : Z) : SM unit :=
  upd_objs (alter (λ c, mkClient (cl_id c) (cl_identity c) (cl_roomID c) (cl_closed c) (cl_send c) (cl_peer c)
                          (cl_expiry c) (id, gen) (cl_maxMessageSize c) (cl_msgLimiter c)) k).

(** src/internal/signaling/ws_client.go:119-141 [setSFUPeer, setRoom] *)
Definition setSFUPeer (k : nat) : SM unit := upd_objs (alter set_peer k).
Definition setRoom (k : nat) (id : string) : SM unit := upd_objs (alter (set_room_id id) k).

(** src/internal/signaling/ws_client.go:22-22 [sendBuffer] *)
Definition sendBuffer : Z := 32.

(** src/internal/signaling/ws_client.go:89-104 [Send] *)
Definition Send (k : nat) (f : frame) : SM unit :=
  s ← get;
  match sv_objs s !! k with
  | None => mret tt
  | Some c =>
      if cl_closed c then mret tt
      else if Z.of_nat (length (cl_send c)) <? sendBuffer
      then upd_objs (alter (λ c, set_queue (cl_closed c) (cl_send c ++ [f]) c) k);; emit (Queued k f)
      else upd_objs (alter (λ c, set_queue true (cl_send c) c) k);; emit (SlowClosed k)
  end.

(** src/internal/signaling/ws_client.go:106-117 [sendJSON, SendSFU] *)
Definition sendJSON (k : nat) (f : frame) : SM unit := Send k f.

Definition sendError (k : nat) (m : string) : SM unit := sendJSON k (FError (newError m)).

(** src/internal/signaling/ws_client.go:210-236 [writePump]  One turn: the frame
    written, [None] when there is nothing to write; a closed and drained channel, or
    a failed write, closes the socket and ends the pump ([inr]). *)
Definition writePump_turn (k : nat) (write_ok : bool) : SM (option frame + unit) :=
  s ← get;
  match sv_objs s !! k with
  | None => mret (inl None)
  | Some c =>
      match cl_send c with
      | f :: q =>
          upd_objs (alter (λ c, set_queue (cl_closed c) q c) k);;
          if write_ok then mret (inl (Some f)) else emit (CloseSocket k);; mret (inr tt)
      | [] => if cl_closed c then emit (CloseSocket k);; mret (inr tt) else mret (inl None)
      end
  end.

(** src/internal/signaling/ws_client.go:66-84 [newClient] *)
Definition newClient (s : Server) (id : string) (identity : Identity) : Client :=
  mkClient id identity "" false [] false false ("", 0)
    (if 0 <? sc_maxMessageSize (sv_cfg s) then sc_maxMessageSize (sv_cfg s) else 64 * 1024)
    (NewRateLimiter (sc_msgRate (sv_cfg s)) second).

(** ** Rooms *)

(** src/internal/room/room.go:20-25 [newRoom] *)
Definition newRoom (id : string) : Room := mkRoom id ∅.

(** src/internal/room/room.go:30-35 [Add] *)
Definition room_Add (r k : nat) : SM unit :=
  s ← get;
  match sv_objs s !! k with
  | None => mret tt
  | Some c => upd_heap (alter (λ o, mkRoom (room_id o) (<[cl_id c := k]> (room_participants o))) r)
  end.

(** src/internal/room/room.go:37-43 [Remove]  Whether the room is now empty. *)
Definition room_Remove (r : nat) (id : string) : SM bool :=
  upd_heap (alter (λ o, mkRoom (room_id o) (delete id (room_participants o))) r);;
  gets (λ s, match sv_heap s !! r with Some o => bool_decide (room_participants o = ∅) | None => true end).

(** src/internal/room/room.go:45-69 [Get, ParticipantIDs, Size] *)
Definition room_members (s : Server) (r : nat) : gmap string nat :=
  match sv_heap s !! r with Some o => room_participants o | None => ∅ end.
Definition room_Get (s : Server) (r : nat) (id : string) : option nat := room_members s r !! id.
Definition ParticipantIDs (s : Server) (r : nat) : list string := (map_to_list (room_members s r)).*1.
Definition Size (s : Server) (r : nat) : Z := Z.of_nat (base.size (room_members s r)).

(** src/internal/room/room.go:71-82 [Broadcast] *)
Definition Broadcast (r : nat) (f : frame) (exceptID : string) : SM unit :=
  s ← get;
  for_each (map_to_list (room_members s r)) (λ '(id, k), if decide (id = exceptID) then mret tt else Send k f).

(** src/internal/room/manager.go:16-26 [GetOrCreate]  The pointer [r] is the one the
    allocator returns when the room has to be made. *)
Definition GetOrCreate (id : string) (r : nat) : SM nat :=
  s ← get;
  match sv_rooms s !! id with
  | Some r0 => mret r0
  | None => upd_heap <[r := newRoom id]>;; upd_rooms <[id := r]>;; mret r
  end.

(** src/internal/room/manager.go:36-48 [RemoveParticipant] *)
Definition RemoveParticipant (roomID participantID : string) : SM unit :=
  s ← get;
  match sv_rooms s !! roomID with
  | None => mret tt
  | Some r =>
      empty ← room_Remove r participantID;
      when empty (upd_rooms (delete roomID))
  end.

(** src/internal/room/manager.go:50-55 [Count] *)
Definition rooms_Count (s : Server) : Z := Z.of_nat (base.size (sv_rooms s)).

(** ** The client index *)

(** src/internal/signaling/delivery_cluster.go:66-83 [trackClient, untrackClient, localClient] *)
Definition trackClient (k : nat) : SM unit :=
  s ← get;
  match sv_objs s !! k with
  | None => mret tt
  | Some c => upd_index <[cl_id c := k]>
  end.
Definition untrackClient (id : string) : SM unit := upd_index (delete id).
Definition localClient (s : Server) (id : string) : option nat := sv_clients s !! id.

(** src/internal/signaling/ws_server.go:67-79 [participantName] *)
Definition participantName (s : Server) (id : string) : string :=
  match sv_clients s !! id with
  | Some k => match sv_objs s !! k with Some c => id_Name (cl_identity c) | None => "" end
  | None => ""
  end.

(** src/internal/signaling/ws_server.go:89-100 [logicalID]  A client always has an
    identity. *)
Definition logicalID (c : Client) : string :=
  if decide (id_Subject (cl_identity c) = "") then cl_id c else id_Subject (cl_identity c).

(** src/internal/signaling/delivery_cluster.go:85-94 [broadcastRoomEventRemote] *)
Definition broadcastRoomEventRemote (roomID : string) (f : frame) : SM unit :=
  s ← get;
  when (sc_cluster (sv_cfg s)) (emit (RemoteRoomEvent roomID f)).

(** Runs [f] on the client object behind a pointer. *)
Definition with_client {A} (k : nat) (dflt : A) (f : Client → SM A) : SM A :=
  s ← get;
  match sv_objs s !! k with
  | None => mret dflt
  | Some c => f c
  end.

(** ** The answers a handler gets

    [e_now] is the clock, [e_sid] the session id minted by [Open], [e_room] the
    pointer of a room object that has to be allocated; [e_claim] is the answer of
    [Cluster.ClaimRoom] ([inl None] an error of another type), [e_sfu] the error of
    the SFU call, [e_stats] the participants of [sfu.Stats], [e_generation] the
    room's ownership generation; [e_sdp], [e_candidate] and [e_report] are the
    decoded payloads; [e_present] and [e_bridge] are what the SFU and the media bridge
    say of a remote publication; [e_located] and [e_routed] the answers of
    [LocateParticipant] and [RouteMessage]. *)

(** src/internal/signaling/qoe_bridge.go:15-38 [qualitySample] *)
Record qualitySample := mkQS {
  qs_PublicationID : string;
  qs_Kind : string;
  qs_Direction : string;
  qs_TMs : Z;
  qs_PacketsSent : option float64;
  qs_PacketsReceived : option float64;
  qs_PacketsLost : option float64;
  qs_BytesSent : option float64;
  qs_BytesReceived : option float64;
  qs_FramesDecoded : option float64;
  qs_FramesDropped : option float64;
  qs_JitterMs : option float64;
  qs_RTTMs : option float64;
  qs_FPS : option float64;
  qs_Width : option float64;
  qs_Height : option float64;
  qs_Enabled : option bool;
  qs_ConnState : string;
  qs_ICEState : string
}.

Record env := mkEnv {
  e_now : Z;
  e_sid : string;
  e_room : nat;
  e_claim : option Error + RoomResolution;
  e_sfu : option string;
  e_stats : list (string * list SnapshotTrack);
  e_generation : Z;
  e_sdp : option string;
  e_candidate : bool;
  e_present : bool;
  e_bridge : option Error;
  e_located : option ParticipantLocation;
  e_routed : option (option Error);
  e_report : option (list qualitySample)
}.

(** ** Snapshots *)

(** src/internal/signaling/session_snapshot.go:9-39 [buildRoomSnapshot] *)
Definition buildRoomSnapshot (s : Server) (e : env) (roomID : string) : RoomSnapshot :=
  mkSnapshot roomID (e_generation e)
    (filter (λ sp, sp_Tracks sp ≠ [])
       ((λ '(id, tracks), mkSnapP id (participantName s id) tracks) <$> e_stats e)).

(** src/internal/signaling/qoe_bridge.go:40-61 [roomQualityStates] *)
Definition roomQualityStates (s : Server) (ids : list string) : list ParticipantQualityState :=
  omap (λ id, let pq := Snapshot (sv_quality s) (map_to_list (streams (sv_quality s))) id in
              if decide (Overall pq = Unknown) then None else Some (mkPQS id (Overall pq) (PQReason pq))) ids.

(** ** Joining

    The handler runs in the client's reading goroutine; between its pieces other
    goroutines run. *)

(** src/internal/signaling/ws_server.go:349-377 [handleJoin]  The guards, up to the
    question to the cluster.  Whether it is asked. *)
Definition join_admit (k : nat) (inb : Inbound) : SM bool :=
  with_client k false (λ c,
    if decide (in_RoomID inb = "") then sendError k "join requires a non-empty roomId";; mret false
    else if decide (cl_roomID c ≠ "")
    then sendError k "already joined a room; open a new connection to join another";; mret false
    else match AuthorizeJoin (Some (cl_identity c)) (in_RoomID inb) with
         | Some e =>
             RecordAuthzFailure (ae_Code e);;
             sendJSON k (FError (newSecError e));;
             mret false
         | None => emit (ClaimAsked (in_RoomID inb));; mret true
         end).

(** src/internal/signaling/ws_server.go:378-390 [handleJoin]  The cluster's answer. *)
Definition join_claimed (k : nat) (claim : option Error + RoomResolution) : SM bool :=
  match claim with
  | inl (Some ce) => sendJSON k (FError (newClusterError ce));; mret false
  | inl None => sendError k "could not resolve room ownership";; mret false
  | inr _ => mret true
  end.

(** src/internal/signaling/session_handlers.go:5-23 [replaceSession]  The socket is
    closed a moment later. *)
Definition replaceSession (physicalID roomID : string) : SM unit :=
  s ← get;
  match sv_clients s !! physicalID with
  | None => mret tt
  | Some old =>
      sendJSON old (FSession (mkSessionEvent "session.replaced" CodeSessionReplaced roomID ""));;
      emit (CloseSocket old)
  end.

(** src/internal/signaling/ws_server.go:401-403 [handleJoin] *)
Definition count_stale (m : sessionMetrics) : sessionMetrics :=
  mkSessionMx (mx_started m) (mx_attempts m + 1) (mx_success m) (mx_failed m + 1) (mx_timeout m) (mx_replaced m)
    (mx_stale m + 1) (mx_durSumMs m) (mx_durCount m) (mx_rtcReconn m).

(** src/internal/signaling/ws_server.go:392-413 [handleJoin]  The session: [None]
    when the resume is refused, [Some None] when recovery is off. *)
Definition join_session (k : nat) (inb : Inbound) (e : env) : SM (option (option OpenResult)) :=
  with_client k None (λ c,
    s ← get;
    if negb (sc_recovery (sv_cfg s)) then mret (Some None)
    else
      o ← in_sessions (Open (id_Subject (cl_identity c)) (in_RoomID inb) (cl_id c) (sc_node (sv_cfg s))
                         (in_Resume inb) (e_sid e) (e_now e));
      match o with
      | inl serr =>
          upd_mx count_stale;;
          sendJSON k (FSession (mkSessionEvent "session.stale" (se_Code serr) (in_RoomID inb) ""));;
          mret None
      | inr o =>
          setSession k (SessionID (res_Session o)) (Generation (res_Session o));;
          when (negb (bool_decide (Kick o = ""))) (replaceSession (Kick o) (in_RoomID inb));;
          mret (Some (Some o))
      end).

(** src/internal/signaling/ws_server.go:417-431 [handleJoin]  Entering the room and
    the question to the SFU; the ids that were there before. *)
Definition join_enter (k : nat) (inb : Inbound) (r : nat) : SM (list string) :=
  existing ← gets (λ s, ParticipantIDs s r);
  room_Add r k;;
  setRoom k (in_RoomID inb);;
  trackClient k;;
  with_client k tt (λ c,
    emit (SfuCall (cl_id c) (SfuJoin (in_RoomID inb) (Auth.Publish (id_Permissions (cl_identity c)))
                               (Auth.Subscribe (id_Permissions (cl_identity c))))));;
  mret existing.

(** src/internal/signaling/ws_server.go:432-441 [handleJoin]  The SFU refused. *)
Definition join_failed (k : nat) (inb : Inbound) (r : nat) : SM unit :=
  with_client k tt (λ c,
    sendError k "could not attach to the media server";;
    room_Remove r (cl_id c);;
    setRoom k "";;
    s ← get;
    when (Size s r =? 0) (emit (ReleaseAsked (in_RoomID inb)))).

(** src/internal/signaling/ws_server.go:453-478 [handleJoin]  The frame that answers
    the join. *)
Definition room_joined_frame (s : Server) (e : env) (inb : Inbound) (o : option OpenResult) (existing : list string)
    : frame :=
  FRoomJoined (mkRoomJoined (in_RoomID inb)
    ((λ id, mkInfo id (participantName s id)) <$> existing)
    ((λ o, (SessionID (res_Session o), Generation (res_Session o), sc_node (sv_cfg s), Reconnected o,
            buildRoomSnapshot s e (in_RoomID inb))) <$> o)
    (roomQualityStates s existing)).

(** Whether a session was opened and resumed an older one. *)
Definition is_reconnect (o : option OpenResult) : bool :=
  match o with Some o => Reconnected o | None => false end.

(** src/internal/signaling/ws_server.go:487-487 [handleJoin] *)
Definition count_rtc (m : sessionMetrics) : sessionMetrics :=
  mkSessionMx (mx_started m) (mx_attempts m) (mx_success m) (mx_failed m) (mx_timeout m) (mx_replaced m)
    (mx_stale m) (mx_durSumMs m) (mx_durCount m) (mx_rtcReconn m + 1).

(** src/internal/signaling/ws_server.go:481-492 [handleJoin]  The notice of a resumed
    session. *)
Definition join_reconnected (k : nat) (inb : Inbound) (o : option OpenResult) (c : Client) : SM unit :=
  match o with
  | Some o =>
      when (Reconnected o)
        (upd_quality (λ q, SetRecovering q (cl_id c) false);;
         sendJSON k (FSession (mkSessionEvent "session.reconnected" "" (in_RoomID inb) (SessionID (res_Session o))));;
         upd_mx count_rtc)
  | None => mret tt
  end.

(** src/internal/signaling/ws_server.go:442-508 [handleJoin]  The rest, once the SFU
    peer exists. *)
Definition join_finish (k : nat) (inb : Inbound) (e : env) (r : nat) (o : option OpenResult) (existing : list string)
    : SM unit :=
  with_client k tt (λ c,
    setSFUPeer k;;
    emit (RegisterParticipant (cl_id c) (in_RoomID inb));;
    emit (History (HEnsureRoom (in_RoomID inb)));;
    emit (History (HParticipantJoined (in_RoomID inb) (logicalID c) (id_Name (cl_identity c)) (is_reconnect o)));;
    s ← get;
    sendJSON k (room_joined_frame s e inb o existing);;
    join_reconnected k inb o c;;
    let joined := FParticipantJoined (cl_id c) (id_Name (cl_identity c)) in
    Broadcast r joined (cl_id c);;
    broadcastRoomEventRemote (in_RoomID inb) joined;;
    emit (SfuCall (cl_id c) SfuSendExisting);;
    emit (Fired "participant.joined" (in_RoomID inb) (cl_id c))).

(** src/internal/signaling/ws_server.go:349-509 [handleJoin]  The whole handler, its
    pieces back to back. *)
Definition handleJoin (k : nat) (inb : Inbound) (e : env) : SM unit :=
  go ← join_admit k inb;
  if negb go then mret tt else
  go ← join_claimed k (e_claim e);
  if negb (go : bool) then mret tt else
  o ← join_session k inb e;
  match o with
  | None => mret tt
  | Some o =>
      r ← GetOrCreate (in_RoomID inb) (e_room e);
      existing ← join_enter k inb r;
      match e_sfu e with
      | Some _ => join_failed k inb r
      | None => join_finish k inb e r o existing
      end
  end.

(** ** Mirrors of remote publications *)

(** src/internal/signaling/delivery_media.go:132-174 [ensureRemoteMirror]  The error
    the client is told, if any. *)
Definition ensureRemoteMirror (e : env) (roomID pubID subscriberID : string) : SM (option Error) :=
  s ← get;
  node ← in_mirrors (ensureRemoteMirror_begin (sc_media (sv_cfg s)) (e_present e) roomID pubID subscriberID);
  match node with
  | None => mret None
  | Some _ => in_mirrors (ensureRemoteMirror_end roomID pubID subscriberID (e_bridge e))
  end.

(** src/internal/signaling/delivery_media.go:176-202 [releaseRemoteMirror] *)
Definition releaseRemoteMirror (roomID pubID subscriberID : string) : SM unit :=
  s ← get;
  node ← in_mirrors (releaseRemoteMirror_begin (sc_media (sv_cfg s)) roomID pubID subscriberID);
  match node with
  | None => mret tt
  | Some n => in_mirrors (releaseRemoteMirror_end n roomID pubID subscriberID)
  end.

(** ** The SFU messages *)

(** src/internal/signaling/session_handlers.go:25-33 [recordSubIntent] *)
Definition recordSubIntent (c : Client) (pub : string) (enabled : bool) : SM unit :=
  s ← get;
  if negb (sc_recovery (sv_cfg s)) || bool_decide (cl_roomID c = "") then mret tt
  else in_sessions (UpdateSubIntent (id_Subject (cl_identity c)) (cl_roomID c) (mkSubIntent pub enabled)).

(** The call of the SFU peer, and what the client is told when it fails. *)
Definition sfu_call (k : nat) (c : Client) (inb : Inbound) (e : env) (op : sfu_op) : SM bool :=
  emit (SfuCall (cl_id c) op);;
  match e_sfu e with
  | None => mret true
  | Some msg => sendError k (in_Type inb +:+ ": " +:+ msg);; mret false
  end.

(** src/internal/signaling/ws_server.go:519-555 [handleSFU]  Offers, answers and
    candidates. *)
Definition handleSFU_negotiate (k : nat) (c : Client) (inb : Inbound) (e : env) : SM unit :=
  if decide (in_Payload inb = []) then sendError k (in_Type inb +:+ " requires a payload")
  else if decide (in_Type inb = "sfu_ice_candidate") then
    if e_candidate e then sfu_call k c inb e SfuCandidate;; mret tt
    else sendError k "invalid sfu_ice_candidate payload"
  else
    match e_sdp e with
    | Some sdp =>
        if decide (sdp = "") then sendError k ("invalid " +:+ in_Type inb +:+ " payload")
        else sfu_call k c inb e (if decide (in_Type inb = "sfu_offer") then SfuOffer sdp else SfuAnswer sdp);; mret tt
    | None => sendError k ("invalid " +:+ in_Type inb +:+ " payload")
    end.

(** src/internal/signaling/ws_server.go:557-580 [handleSFU]  Subscribing. *)
Definition handleSFU_subscribe (k : nat) (c : Client) (inb : Inbound) (e : env) : SM unit :=
  if decide (in_PublicationID inb = "") then sendError k "subscribe requires a publicationId"
  else match AuthorizeSubscribe (Some (cl_identity c)) with
       | Some a => RecordAuthzFailure (ae_Code a);; sendJSON k (FError (newSecError a))
       | None =>
           merr ← ensureRemoteMirror e (cl_roomID c) (in_PublicationID inb) (cl_id c);
           match merr with
           | Some ce => sendJSON k (FError (mkErrorMessage (Code ce) (Message ce) "" (cl_roomID c)))
           | None =>
               ok ← sfu_call k c inb e (SfuSubscribe (in_PublicationID inb));
               when ok (recordSubIntent c (in_PublicationID inb) true)
           end
       end.

(** src/internal/signaling/ws_server.go:581-615 [handleSFU]  The other control
    messages. *)
Definition handleSFU_control (k : nat) (c : Client) (inb : Inbound) (e : env) : SM unit :=
  let pub := in_PublicationID inb in
  if decide (in_Type inb = "publish") then
    if decide (in_TrackID inb = "" ∨ in_Source inb = "") then sendError k "publish requires trackId and source"
    else emit (SfuCall (cl_id c) (SfuDeclareSource (in_TrackID inb) (in_Source inb)))
  else if decide (pub = "") then sendError k (in_Type inb +:+ " requires a publicationId")
  else if decide (in_Type inb = "unsubscribe") then
    emit (SfuCall (cl_id c) (SfuUnsubscribe pub));;
    releaseRemoteMirror (cl_roomID c) pub (cl_id c);;
    recordSubIntent c pub false
  else if decide (in_Type inb = "unpublish") then emit (SfuCall (cl_id c) (SfuUnpublish pub))
  else
    ok ← sfu_call k c inb e (SfuSetMute pub (in_Muted inb));
    s ← get;
    when (ok && sc_recovery (sv_cfg s) && negb (bool_decide (cl_roomID c = "")))
      (in_sessions (UpdatePublishIntent (id_Subject (cl_identity c)) (cl_roomID c)
                      (mkTrackIntent pub (in_Kind inb) (in_Muted inb)))).

(** src/internal/signaling/ws_server.go:511-620 [handleSFU] *)
Definition handleSFU (k : nat) (inb : Inbound) (e : env) : SM unit :=
  with_client k tt (λ c,
    if negb (cl_peer c) then sendError k ("join a room before sending " +:+ in_Type inb +:+ " messages")
    else if decide (in_Type inb ∈ ["sfu_offer"; "sfu_answer"; "sfu_ice_candidate"])
    then handleSFU_negotiate k c inb e
    else if decide (in_Type inb = "subscribe") then handleSFU_subscribe k c inb e
    else handleSFU_control k c inb e).

(** ** The other messages *)

(** src/internal/signaling/ws_server.go:622-641 [handleControl] *)
Definition handleControl (k : nat) : SM unit :=
  with_client k tt (λ c,
    if decide (cl_roomID c = "") then sendError k "join a room before sending control messages"
    else match AuthorizeControl (Some (cl_identity c)) with
         | Some a => RecordAuthzFailure (ae_Code a);; sendJSON k (FError (newSecError a))
         | None => sendError k "control commands are not implemented yet"
         end).

(** src/internal/signaling/ws_server.go:683-709 [handleForward]  The target is not in
    the local room. *)
Definition forward_remote (k : nat) (c : Client) (inb : Inbound) (e : env) (fwd : frame) : SM unit :=
  s ← get;
  if negb (sc_cluster (sv_cfg s)) then sendError k "target participant is not in your room"
  else match e_located e with
       | None => sendError k "target participant is not in your room"
       | Some loc =>
           if decide (loc_RoomID loc ≠ cl_roomID c) then sendError k "target participant is not in your room"
           else
             emit (RouteTo (in_Target inb) (cl_roomID c) fwd);;
             match e_routed e with
             | None => mret tt
             | Some (Some ce) => sendJSON k (FError (newClusterError ce))
             | Some None => sendError k "could not deliver message to the target participant"
             end
       end.

(** src/internal/signaling/ws_server.go:643-710 [handleForward] *)
Definition handleForward (k : nat) (inb : Inbound) (e : env) : SM unit :=
  with_client k tt (λ c,
    if decide (cl_roomID c = "") then sendError k ("join a room before sending " +:+ in_Type inb +:+ " messages")
    else if decide (in_Target inb = "") then sendError k (in_Type inb +:+ " requires a target participant id")
    else if decide (in_Target inb = cl_id c) then sendError k ("cannot send " +:+ in_Type inb +:+ " to yourself")
    else if decide (in_Payload inb = []) then sendError k (in_Type inb +:+ " requires a payload")
    else
      s ← get;
      match sv_rooms s !! cl_roomID c with
      | None => sendError k "your room no longer exists"
      | Some r =>
          let fwd := FForwarded (in_Type inb) (cl_id c) (in_Target inb) (in_Payload inb) in
          match room_Get s r (in_Target inb) with
          | Some t => Send t fwd
          | None => forward_remote k c inb e fwd
          end
      end).

(** src/internal/signaling/qoe_bridge.go:112-139 [handleQualityReport] *)
Definition report_sample (key : StreamKey) (q : qualitySample) : Sample :=
  mkSample key SourceBrowser (qs_TMs q) (qs_PacketsSent q) (qs_PacketsReceived q) (qs_PacketsLost q)
    (qs_BytesSent q) (qs_BytesReceived q) (qs_FramesDecoded q) (qs_FramesDropped q) (qs_JitterMs q)
    (qs_RTTMs q) (qs_FPS q) (qs_Width q) (qs_Height q) (qs_Enabled q) (qs_ConnState q) (qs_ICEState q).

(** src/internal/signaling/qoe_bridge.go:144-159 [handleQualityReport]  The fan-out
    of one transition. *)
Definition publish_quality (c : Client) (ev : Event) : SM unit :=
  emit (History (HQualityEvent (cl_roomID c) (logicalID c) ev));;
  s ← get;
  match sv_rooms s !! cl_roomID c with
  | Some r => Broadcast r (FQuality ev) ""
  | None => mret tt
  end;;
  broadcastRoomEventRemote (cl_roomID c) (FQuality ev).

(** src/internal/signaling/qoe_bridge.go:95-160 [handleQualityReport]  The body of
    the loop. *)
Definition report_one (c : Client) (now : Z) (q : qualitySample) : SM unit :=
  match sample_key (cl_id c) (qs_Kind q) (qs_Direction q) (qs_PublicationID q) with
  | None => mret tt
  | Some key =>
      emit (History (HMediaSample (cl_roomID c) (logicalID c) (qs_RTTMs q) (qs_JitterMs q)));;
      s ← get;
      match Ingest (sv_quality s) (report_sample key q) now now with
      | None => emit Panicked
      | Some (q', evs) => upd_quality (λ _, q');; for_each evs (publish_quality c)
      end
  end.

(** src/internal/signaling/qoe_bridge.go:74-161 [handleQualityReport] *)
Definition handleQualityReport (k : nat) (e : env) : SM unit :=
  with_client k tt (λ c,
    if decide (cl_roomID c = "") then sendError k "join a room before sending quality_report"
    else match e_report e with
         | None => sendError k "invalid quality_report: not valid JSON"
         | Some samples => for_each samples (report_one c (e_now e))
         end).

(** src/internal/signaling/session_handlers.go:67-67 [handleSessionResume] *)
Definition count_stale_only (m : sessionMetrics) : sessionMetrics :=
  mkSessionMx (mx_started m) (mx_attempts m) (mx_success m) (mx_failed m) (mx_timeout m) (mx_replaced m)
    (mx_stale m + 1) (mx_durSumMs m) (mx_durCount m) (mx_rtcReconn m).

(** src/internal/signaling/session_handlers.go:46-74 [handleSessionResume] *)
Definition handleSessionResume (k : nat) (inb : Inbound) (e : env) : SM unit :=
  with_client k tt (λ c,
    s ← get;
    if negb (sc_recovery (sv_cfg s))
    then sendJSON k (FSession (mkSessionEvent "session.recovery_failed" Sessions.CodeRecoveryDisabled "" ""))
    else if decide (cl_roomID c = "") then sendError k "join a room before sending session.resume"
    else match Sessions.Get (sv_sessions s) (id_Subject (cl_identity c)) (cl_roomID c) with
         | None => sendJSON k (FSession (mkSessionEvent "session.recovery_failed" "NO_SESSION" (cl_roomID c) ""))
         | Some sess =>
             let stale := match in_Resume inb with
                          | Some res => negb (resume_Generation res =? 0) && (resume_Generation res <? Generation sess)
                          | None => false
                          end in
             if stale
             then
               upd_mx count_stale_only;;
               sendJSON k (FSession (mkSessionEvent "session.stale" CodeStaleSession (cl_roomID c) ""))
             else
               sendJSON k (FRoomSnapshot (buildRoomSnapshot s e (cl_roomID c)));;
               sendJSON k (FSession (mkSessionEvent "session.reconnected" "" (cl_roomID c) (SessionID sess)))
         end).

(** src/internal/signaling/session_handlers.go:35-44 [SweepSessions] *)
Definition SweepSessions (order : list (string * Session) → list (string * Session)) (now : Z) : SM Z :=
  in_sessions (SweepExpired order now).

(** src/internal/signaling/ws_server.go:205-221 [onSubscriptionFailed] *)
Definition onSubscriptionFailed (subscriberID publicationID : string) : SM unit :=
  s ← get;
  match localClient s subscriberID with
  | None => mret tt
  | Some k => sendJSON k (FSubscriptionFailed publicationID "media_transport_failed")
  end.

(** src/internal/signaling/api_core.go:132-165 [CloseRoom]  How many were notified;
    the sockets are closed a moment later. *)
Definition CloseRoom (roomID reason : string) : SM Z :=
  s ← get;
  match sv_rooms s !! roomID with
  | None => mret 0
  | Some r =>
      let members := map_to_list (room_members s r) in
      for_each members (λ '(_, k), Send k (FRoomClosed roomID reason));;
      for_each members (λ '(id, _),
        s ← get;
        match localClient s id with Some k => emit (CloseSocket k) | None => mret tt end);;
      mret (Z.of_nat (length members))
  end.

(** ** Leaving *)

(** src/internal/signaling/ws_server.go:714-724 [disconnect]  The notice; the room the
    client was in. *)
Definition disconnect_notify (k : nat) : SM string :=
  upd_objs (alter (set_expiry false) k);;
  with_client k "" (λ c,
    s ← get;
    (if decide (cl_roomID c = "") then mret tt
     else match sv_rooms s !! cl_roomID c with
          | None => mret tt
          | Some r =>
              let left := FParticipantLeft (cl_id c) (id_Name (cl_identity c)) in
              Broadcast r left (cl_id c);;
              broadcastRoomEventRemote (cl_roomID c) left
          end);;
    mret (cl_roomID c)).

(** src/internal/signaling/ws_server.go:725-731 [disconnect]  Out of the SFU and of
    the room. *)
Definition disconnect_leave (k : nat) (roomID : string) : SM unit :=
  with_client k tt (λ c,
    emit (SfuLeave roomID (cl_id c));;
    RemoveParticipant roomID (cl_id c);;
    emit (History (HParticipantLeft roomID (logicalID c)));;
    emit (ForgetParticipant (cl_id c))).

(** src/internal/signaling/ws_server.go:732-732 [disconnect]  Whether the room is
    gone. *)
Definition disconnect_check (roomID : string) : SM bool :=
  gets (λ s, bool_decide (sv_rooms s !! roomID = None)).

(** src/internal/signaling/ws_server.go:733-740 [disconnect] *)
Definition disconnect_release (roomID : string) : SM unit :=
  emit (ReleaseAsked roomID);;
  in_mirrors (dropRoomMirrors roomID);;
  emit (History (HRoomClosed roomID)).

(** src/internal/signaling/ws_server.go:742-768 [disconnect]  Parking the session and
    releasing the connection. *)
Definition disconnect_finish (k : nat) (roomID : string) (now : Z) : SM unit :=
  with_client k tt (λ c,
    s ← get;
    (if sc_recovery (sv_cfg s) && negb (bool_decide (roomID = "")) then
       parked ← in_sessions (MarkRecovering (cl_id c) now);
       when parked (upd_quality (λ q, SetRecovering q (cl_id c) true))
     else mret tt);;
    when (negb (bool_decide (roomID = ""))) (emit (Fired "participant.left" roomID (cl_id c)));;
    untrackClient (cl_id c);;
    upd_quality (λ q, Forget q (cl_id c));;
    upd_objs (alter (λ c, set_queue true (cl_send c) c) k)).

(** src/internal/signaling/ws_server.go:712-768 [disconnect]  The whole of it, its
    pieces back to back. *)
Definition disconnect (k : nat) (now : Z) : SM unit :=
  room ← disconnect_notify k;
  (if decide (room = "") then mret tt
   else
     disconnect_leave k room;;
     gone ← disconnect_check room;
     when gone (disconnect_release room));;
  disconnect_finish k room now.

(** ** The connection *)

(** src/internal/signaling/ws_client.go:147-167 [scheduleTokenExpiry]  Whether the
    timer is armed. *)
Definition scheduleTokenExpiry (k : nat) (now : Z) : SM unit :=
  with_client k tt (λ c,
    s ← get;
    when (cfg_Enabled (a_cfg (sv_auth s)) && (0 <? time_sub (time_Unix (id_ExpiresAt (cl_identity c))) now))
      (upd_objs (alter (set_expiry true) k))).

(** src/internal/signaling/ws_client.go:155-163 [scheduleTokenExpiry]  What the timer
    does when it fires. *)
Definition token_expired (k : nat) : SM unit :=
  with_client k tt (λ c,
    when (cl_expiry c)
      (RecordAuthzFailure CodeExpiredToken;;
       sendJSON k (FError (newSecError (mkAuthError CodeExpiredToken "session token expired")));;
       emit (CloseSocket k))).

Section connection.
Context {MC : Mac} {J : TokenJSON}.

(** src/internal/signaling/ws_server.go:283-322 [HandleWS]  [k] is the pointer of the
    new client; without a client, the HTTP status of the refusal (an upgrade that
    fails has none). *)
Definition HandleWS (k : nat) (r : request) (now : Z) (uuid suffix : string) (upgraded : bool)
    : SM (option Z) :=
  s ← get;
  let '(res, a) := AuthenticateRequest (sv_auth s) r now uuid in
  upd_auth (λ _, a);;
  match res with
  | inl e => mret (Some (if decide (ae_Code e = CodeRateLimited) then 429 else 401))
  | inr identity =>
      if negb upgraded then mret None
      else
        let id := Auth.ParticipantID (Some identity) suffix in
        upd_objs <[k := newClient s id identity]>;;
        sendJSON k (FWelcome id (id_Subject identity) (id_Name identity));;
        scheduleTokenExpiry k now;;
        mret None
  end.
End connection.

(** src/internal/signaling/ws_server.go:324-347 [handleMessage]  [None] is a message
    that is not JSON. *)
Definition handleMessage (k : nat) (msg : option Inbound) (e : env) : SM unit :=
  match msg with
  | None => sendError k "invalid message: not valid JSON"
  | Some inb =>
      if decide (in_Type inb = "join") then handleJoin k inb e
      else if decide (in_Type inb = "session.resume") then handleSessionResume k inb e
      else if decide (in_Type inb = "quality_report") then handleQualityReport k e
      else if decide (in_Type inb = "control") then handleControl k
      else if decide (in_Type inb ∈ sfuTypes) then handleSFU k inb e
      else if decide (in_Type inb ∈ forwardableTypes) then handleForward k inb e
      else sendError k ("unknown message type: " +:+ in_Type inb)
  end.

(** src/internal/signaling/ws_client.go:196-203 [readPump]  The per-connection limit:
    whether the message is handled; otherwise the pump ends and disconnects. *)
Definition readPump_admit (k : nat) (now : Z) : SM bool :=
  with_client k false (λ c,
    let '(ok, rl) := Allow (cl_msgLimiter c) "msg" now in
    upd_objs (alter (set_limiter rl) k);;
    if ok then mret true
    else
      RecordAuthzFailure CodeRateLimited;;
      sendJSON k (FError (newSecError (mkAuthError CodeRateLimited "signaling rate limit exceeded")));;
      mret false).

(** src/internal/signaling/ws_client.go:187-207 [readPump]  One message. *)
Definition readPump_turn (k : nat) (msg : option Inbound) (e : env) : SM unit :=
  ok ← readPump_admit k (e_now e);
  if (ok : bool) then handleMessage k msg e else disconnect k (e_now e).

(** ** Messages from other nodes *)

(** src/internal/signaling/delivery_cluster.go:24-46 [DeliverToParticipant]  A client
    that has to be disconnected is the result; the goroutine that does it is
    started then. *)
Definition deliverToParticipant (id : string) (is_disconnect : bool) (payload : list byte)
    : SM (Error + option nat) :=
  s ← get;
  match localClient s id with
  | None => mret (inl (mkError CodeParticipantNotFound "participant is not on this node" "" "" id))
  | Some k =>
      if is_disconnect then mret (inr (Some k))
      else when (negb (bool_decide (payload = []))) (Send k (FRaw payload));; mret (inr None)
  end.

(** src/internal/signaling/delivery_cluster.go:48-62 [DeliverRoomEvent]  [ev] is the
    publication announcement the payload decodes to, if it does. *)
Definition deliverRoomEvent (e : env) (roomID : string) (payload : list byte) (ev : option crossNodePubEvent)
    : SM unit :=
  s ← get;
  consumed ← match ev with
             | Some ev =>
                 let occupied := match sv_rooms s !! ev_RoomID ev with
                                 | Some r => 0 <? Size s r
                                 | None => false
                                 end in
                 in_mirrors (handleRemotePublicationEvent (sc_media (sv_cfg s)) occupied (e_present e) (e_bridge e) ev)
             | None => mret false
             end;
  if (consumed : bool) then mret tt
  else match sv_rooms s !! roomID with
       | Some r => when (negb (bool_decide (payload = []))) (Broadcast r (FRaw payload) "")
       | None => mret tt
       end.
