(* ===== verification/SignalingSteps.v ===== *)
(** * The signaling server: interleavings and the invariant

    The pieces of [Signaling] interleaved: a client's reading goroutine is at most in
    one join, disconnections run in goroutines of their own, and everything else may
    happen between any two pieces.  The invariant of the reachable states ties rooms,
    clients and identities together, and every action speaks only to the right room. *)

From S2P Require Import Prelude Bytes GoFloat ClusterTypes QualityModel QualityEngine MediaBridge.
From S2P Require Import Mirrors Sessions RoomLocator RoomRouter Cluster Auth Signaling.

(** ** States and steps *)

(** Where the reading goroutine of a client is in [handleJoin]. *)
Inductive join_pc :=
| JAdmitted (inb : Inbound)
| JClaimed (inb : Inbound)
| JOpened (inb : Inbound) (o : option OpenResult)
| JRoom (inb : Inbound) (o : option OpenResult) (r : nat)
| JEntered (inb : Inbound) (o : option OpenResult) (r : nat) (existing : list string).

(** Where a goroutine is in [disconnect]. *)
Inductive leave_pc :=
| LNotified (room : string)
| LLeft (room : string)
| LGone (room : string)
| LLast (room : string).

Record conf := mkConf {
  cf_srv : Server;
  cf_joins : gmap nat join_pc;
  cf_leaves : gmap nat (nat * leave_pc)
}.

Definition at_join (k : nat) (pc : option join_pc) (cf : conf) (s : Server) : conf :=
  mkConf s (partial_alter (λ _, pc) k (cf_joins cf)) (cf_leaves cf).

Definition at_leave (g : nat) (pc : option (nat * leave_pc)) (cf : conf) (s : Server) : conf :=
  mkConf s (cf_joins cf) (partial_alter (λ _, pc) g (cf_leaves cf)).

(** The operations that neither join nor leave: one step each. *)
Inductive quiet_op :=
| QMessage (k : nat) (msg : option Inbound) (e : env)
| QRead (k : nat) (now : Z)
| QWrite (k : nat) (ok : bool)
| QExpired (k : nat)
| QSweep (order : list (string * Session) → list (string * Session)) (now : Z)
| QSubFailed (sub pub : string)
| QCloseRoom (room reason : string)
| QDeliver (id : string) (payload : list byte)
| QRoomEvent (e : env) (room : string) (payload : list byte) (ev : option crossNodePubEvent).

Definition perform_quiet (q : quiet_op) : SM unit :=
  match q with
  | QMessage k msg e => handleMessage k msg e
  | QRead k now => readPump_admit k now;; mret tt
  | QWrite k ok => writePump_turn k ok;; mret tt
  | QExpired k => token_expired k
  | QSweep order now => SweepSessions order now;; mret tt
  | QSubFailed sub pub => onSubscriptionFailed sub pub
  | QCloseRoom room reason => CloseRoom room reason;; mret tt
  | QDeliver id payload => deliverToParticipant id false payload;; mret tt
  | QRoomEvent e room payload ev => deliverRoomEvent e room payload ev
  end.

(** A message the reading goroutine handles in one step: any but a join, and only
    when it is not in one. *)
Definition quiet_ok (q : quiet_op) (cf : conf) : Prop :=
  match q with
  | QMessage k (Some inb) _ => in_Type inb ≠ "join" ∧ cf_joins cf !! k = None
  | QMessage k None _ => cf_joins cf !! k = None
  | _ => True
  end.

Section steps.
Context {MC : Mac} {J : TokenJSON}.

Inductive step (cf : conf) : list out → conf → Prop :=
| step_connect k r now uuid suffix up :
    sv_objs (cf_srv cf) !! k = None →
    let m := HandleWS k r now uuid suffix up in
    step cf (outputs m (cf_srv cf)) (mkConf (final m (cf_srv cf)) (cf_joins cf) (cf_leaves cf))
| step_quiet q :
    quiet_ok q cf →
    step cf (outputs (perform_quiet q) (cf_srv cf))
      (mkConf (final (perform_quiet q) (cf_srv cf)) (cf_joins cf) (cf_leaves cf))
| step_join_admit k inb :
    cf_joins cf !! k = None →
    let m := join_admit k inb in
    step cf (outputs m (cf_srv cf))
      (at_join k (if value m (cf_srv cf) then Some (JAdmitted inb) else None) cf (final m (cf_srv cf)))
| step_join_claimed k inb claim :
    cf_joins cf !! k = Some (JAdmitted inb) →
    let m := join_claimed k claim in
    step cf (outputs m (cf_srv cf))
      (at_join k (if value m (cf_srv cf) then Some (JClaimed inb) else None) cf (final m (cf_srv cf)))
| step_join_session k inb e :
    cf_joins cf !! k = Some (JClaimed inb) →
    let m := join_session k inb e in
    step cf (outputs m (cf_srv cf)) (at_join k (JOpened inb <$> value m (cf_srv cf)) cf (final m (cf_srv cf)))
| step_join_room k inb o r :
    cf_joins cf !! k = Some (JOpened inb o) →
    sv_heap (cf_srv cf) !! r = None →
    let m := GetOrCreate (in_RoomID inb) r in
    step cf (outputs m (cf_srv cf)) (at_join k (Some (JRoom inb o (value m (cf_srv cf)))) cf (final m (cf_srv cf)))
| step_join_enter k inb o r :
    cf_joins cf !! k = Some (JRoom inb o r) →
    let m := join_enter k inb r in
    step cf (outputs m (cf_srv cf))
      (at_join k (Some (JEntered inb o r (value m (cf_srv cf)))) cf (final m (cf_srv cf)))
| step_join_failed k inb o r existing :
    cf_joins cf !! k = Some (JEntered inb o r existing) →
    let m := join_failed k inb r in
    step cf (outputs m (cf_srv cf)) (at_join k None cf (final m (cf_srv cf)))
| step_join_finish k inb o r existing e :
    cf_joins cf !! k = Some (JEntered inb o r existing) →
    let m := join_finish k inb e r o existing in
    step cf (outputs m (cf_srv cf)) (at_join k None cf (final m (cf_srv cf)))
| step_leave g k :
    cf_leaves cf !! g = None →
    let m := disconnect_notify k in
    let room := value m (cf_srv cf) in
    step cf (outputs m (cf_srv cf))
      (at_leave g (Some (k, if decide (room = "") then LLast "" else LNotified room)) cf (final m (cf_srv cf)))
| step_leave_room g k room :
    cf_leaves cf !! g = Some (k, LNotified room) →
    let m := disconnect_leave k room in
    step cf (outputs m (cf_srv cf)) (at_leave g (Some (k, LLeft room)) cf (final m (cf_srv cf)))
| step_leave_check g k room :
    cf_leaves cf !! g = Some (k, LLeft room) →
    let m := disconnect_check room in
    step cf (outputs m (cf_srv cf))
      (at_leave g (Some (k, if value m (cf_srv cf) then LGone room else LLast room)) cf (final m (cf_srv cf)))
| step_leave_release g k room :
    cf_leaves cf !! g = Some (k, LGone room) →
    let m := disconnect_release room in
    step cf (outputs m (cf_srv cf)) (at_leave g (Some (k, LLast room)) cf (final m (cf_srv cf)))
| step_leave_finish g k room now :
    cf_leaves cf !! g = Some (k, LLast room) →
    let m := disconnect_finish k room now in
    step cf (outputs m (cf_srv cf)) (at_leave g None cf (final m (cf_srv cf))).

(** src/internal/signaling/ws_server.go:162-184 [NewServerWithDeps] *)
Definition newServer (cfg : server_cfg) (a : Authenticator) (timeout : Z) : Server :=
  mkServer cfg a ∅ ∅ ∅ ∅ (newSessionRegistry timeout) (mkSessionMx 0 0 0 0 0 0 0 0 0 0) (mkMirrors ∅ ∅)
    (New DefaultConfig).

Inductive srv_reachable (cfg : server_cfg) (a : Authenticator) (timeout : Z) : conf → Prop :=
| srv_start : srv_reachable cfg a timeout (mkConf (newServer cfg a timeout) ∅ ∅)
| srv_step cf evs cf' : srv_reachable cfg a timeout cf → step cf evs cf' → srv_reachable cfg a timeout cf'.

(** ** The invariant *)

(** The identity was accepted by the validator, when tokens are enforced. *)
Definition authenticated (a : Authenticator) (i : Identity) : Prop :=
  cfg_Enabled (a_cfg a) = true →
  ∃ token now, Validate (cfg_validator (a_cfg a)) token now = inr i.

Record srv_inv (s : Server) : Prop := {
  i_rooms id r : sv_rooms s !! id = Some r → ∃ o, sv_heap s !! r = Some o ∧ room_id o = id;
  i_named r o : sv_heap s !! r = Some o → room_id o ≠ "";
  i_members r o id k : sv_heap s !! r = Some o → room_participants o !! id = Some k →
    ∃ c, sv_objs s !! k = Some c ∧ cl_id c = id ∧ cl_roomID c = room_id o;
  i_joined k c : sv_objs s !! k = Some c → cl_roomID c ≠ "" →
    AuthorizeJoin (Some (cl_identity c)) (cl_roomID c) = None;
  i_authn k c : sv_objs s !! k = Some c → authenticated (sv_auth s) (cl_identity c);
  i_index id k : sv_clients s !! id = Some k → ∃ c, sv_objs s !! k = Some c ∧ cl_id c = id;
  i_queue k c : sv_objs s !! k = Some c → Z.of_nat (length (cl_send c)) ≤ sendBuffer;
  i_engine : engine_wf (sv_quality s)
}.

(** What a join in progress may rely on. *)
Definition join_inb (pc : join_pc) : Inbound :=
  match pc with
  | JAdmitted inb | JClaimed inb | JOpened inb _ | JRoom inb _ _ | JEntered inb _ _ _ => inb
  end.

Definition join_ok (s : Server) (k : nat) (pc : join_pc) : Prop :=
  let R := in_RoomID (join_inb pc) in
  R ≠ "" ∧
  (∃ c, sv_objs s !! k = Some c ∧ AuthorizeJoin (Some (cl_identity c)) R = None ∧
     cl_roomID c = match pc with JEntered _ _ _ _ => R | _ => "" end) ∧
  match pc with
  | JRoom _ _ r => ∃ o, sv_heap s !! r = Some o ∧ room_id o = R
  | JEntered _ _ r _ =>
      (∃ o, sv_heap s !! r = Some o ∧ room_id o = R) ∧
      ∀ r' o' id, sv_heap s !! r' = Some o' → room_participants o' !! id = Some k → r' = r
  | _ => True
  end.

Definition conf_inv (cf : conf) : Prop :=
  srv_inv (cf_srv cf) ∧ ∀ k pc, cf_joins cf !! k = Some pc → join_ok (cf_srv cf) k pc.

(** ** Extensions

    Most code leaves ids, identities and rooms of the clients as they are, removes
    members of room objects or makes empty ones. *)
Record ext (s s' : Server) : Prop := {
  x_cfg : sv_cfg s' = sv_cfg s;
  x_auth : a_cfg (sv_auth s') = a_cfg (sv_auth s);
  x_objs k c : sv_objs s !! k = Some c → ∃ c', sv_objs s' !! k = Some c' ∧
    cl_id c' = cl_id c ∧ cl_identity c' = cl_identity c ∧ cl_roomID c' = cl_roomID c;
  x_dom k : is_Some (sv_objs s' !! k) → is_Some (sv_objs s !! k);
  x_heap r o : sv_heap s !! r = Some o → ∃ o', sv_heap s' !! r = Some o' ∧ room_id o' = room_id o;
  x_heap' r o' : sv_heap s' !! r = Some o' → room_participants o' = ∅ ∧ room_id o' ≠ "" ∨
    ∃ o, sv_heap s !! r = Some o ∧ room_id o' = room_id o ∧ room_participants o' ⊆ room_participants o;
  x_rooms id r : sv_rooms s' !! id = Some r →
    sv_rooms s !! id = Some r ∨ ∃ o, sv_heap s' !! r = Some o ∧ room_id o = id;
  x_index id k : sv_clients s' !! id = Some k → sv_clients s !! id = Some k;
  x_queue : (∀ k c, sv_objs s !! k = Some c → Z.of_nat (length (cl_send c)) ≤ sendBuffer) →
    ∀ k c, sv_objs s' !! k = Some c → Z.of_nat (length (cl_send c)) ≤ sendBuffer;
  x_engine : engine_wf (sv_quality s) → engine_wf (sv_quality s')
}.

#[export] Instance ext_refl : Reflexive ext.
Proof. intros s. split; eauto 10. Qed.

#[export] Instance ext_trans : Transitive ext.
Proof.
  intros s1 s2 s3 A B. split.
  - rewrite (x_cfg _ _ B). apply A.
  - rewrite (x_auth _ _ B). apply A.
  - intros k c H. destruct (x_objs _ _ A k c H) as (c' & H' & ? & ? & ?).
    destruct (x_objs _ _ B k c' H') as (c'' & ? & ? & ? & ?). exists c''. split_and!; congruence.
  - intros k H. by apply (x_dom _ _ A), (x_dom _ _ B).
  - intros r o H. destruct (x_heap _ _ A r o H) as (o' & H' & ?).
    destruct (x_heap _ _ B r o' H') as (o'' & ? & ?). exists o''. split; congruence.
  - intros r o H. destruct (x_heap' _ _ B r o H) as [?|(o' & H' & E' & ?)]; [by left|].
    destruct (x_heap' _ _ A r o' H') as [[E ?]|(o'' & ? & ? & ?)].
    + left. split; [|congruence]. apply map_empty. intros id.
      destruct (room_participants o !! id) eqn:E2; [|done].
      eapply lookup_weaken in E2; [|done]. by rewrite E, lookup_empty in E2.
    + right. exists o''. split_and!; [done|congruence|by etrans].
  - intros id r H. destruct (x_rooms _ _ B id r H) as [H'|?]; [|by right].
    destruct (x_rooms _ _ A id r H') as [?|(o & Ho & E)]; [by left|right].
    destruct (x_heap _ _ B r o Ho) as (o' & ? & ?). exists o'. split; congruence.
  - intros id k H. by apply (x_index _ _ A), (x_index _ _ B).
  - intros H. by apply (x_queue _ _ B), (x_queue _ _ A).
  - intros H. by apply (x_engine _ _ B), (x_engine _ _ A).
Qed.

Lemma ext_obj_back s s' k c' : ext s s' → sv_objs s' !! k = Some c' →
  ∃ c, sv_objs s !! k = Some c ∧ cl_id c' = cl_id c ∧ cl_identity c' = cl_identity c ∧ cl_roomID c' = cl_roomID c.
Proof.
  intros X H. destruct (x_dom _ _ X k) as [c Hc]; [by eexists|].
  destruct (x_objs _ _ X k c Hc) as (c2 & H2 & ? & ? & ?). exists c. by simplify_eq.
Qed.

Lemma ext_inv s s' : ext s s' → srv_inv s → srv_inv s'.
Proof.
  intros X [I1 I2 I3 I4 I5 I6 I7 I8]. split.
  - intros id r H. destruct (x_rooms _ _ X id r H) as [H'|?]; [|done].
    destruct (I1 id r H') as (o & Ho & E). destruct (x_heap _ _ X r o Ho) as (o' & ? & ?). exists o'. split; congruence.
  - intros r o H. destruct (x_heap' _ _ X r o H) as [[_ ?]|(o' & Ho & -> & _)]; [done|by eapply I2].
  - intros r o id k H Hk. destruct (x_heap' _ _ X r o H) as [[E _]|(o' & Ho & E & Hs)]; [by rewrite E in Hk|].
    eapply lookup_weaken in Hk; [|done]. destruct (I3 r o' id k Ho Hk) as (c & Hc & ? & ?).
    destruct (x_objs _ _ X k c Hc) as (c' & ? & ? & ? & ?). exists c'. split_and!; congruence.
  - intros k c H. destruct (ext_obj_back s s' k c X H) as (c0 & Hc & _ & -> & ->). by eapply I4.
  - intros k c H. destruct (ext_obj_back s s' k c X H) as (c0 & Hc & _ & -> & _).
    unfold authenticated. rewrite (x_auth _ _ X). by eapply I5.
  - intros id k H. apply (x_index _ _ X) in H. destruct (I6 id k H) as (c & Hc & ?).
    destruct (x_objs _ _ X k c Hc) as (c' & ? & ? & ? & ?). exists c'. split; congruence.
  - by apply (x_queue _ _ X).
  - by apply (x_engine _ _ X).
Qed.

Lemma ext_join s s' k pc : ext s s' → join_ok s k pc → join_ok s' k pc.
Proof.
  intros X (HR & (c & Hc & HA & E) & Hp).
  destruct (x_objs _ _ X k c Hc) as (c' & Hc' & _ & Ei & Er). split_and!; [done|exists c'; split_and!; congruence|].
  assert (∀ r R, (∃ o, sv_heap s !! r = Some o ∧ room_id o = R) → ∃ o, sv_heap s' !! r = Some o ∧ room_id o = R) as Hr.
  { intros r R (o & Ho & <-). destruct (x_heap _ _ X r o Ho) as (o' & ? & ?). eauto. }
  destruct pc; try done; [by apply Hr|]. destruct Hp as [Hp1 Hp2]. split; [by apply Hr|].
  intros r' o' id Ho' Hk. destruct (x_heap' _ _ X r' o' Ho') as [[E2 _]|(o2 & Ho & _ & Hs)]; [by rewrite E2 in Hk|].
  eapply lookup_weaken in Hk; [|done]. eauto.
Qed.

(** ** What may be sent to whom *)

(** The participant a frame speaks about or comes from. *)
Definition about (f : frame) : option string :=
  match f with
  | FParticipantJoined id _ | FParticipantLeft id _ => Some id
  | FForwarded _ from _ _ => Some from
  | FQuality ev => Some (QualityEngine.ParticipantID ev)
  | _ => None
  end.

(** A client of that participant id is in the room. *)
Definition in_room (s : Server) (p R : string) : Prop :=
  R ≠ "" ∧ ∃ a c, sv_objs s !! a = Some c ∧ cl_id c = p ∧ cl_roomID c = R.

Definition out_ok (s : Server) (ev : out) : Prop :=
  match ev with
  | Queued k f =>
      match about f with
      | Some p => ∃ c, sv_objs s !! k = Some c ∧ in_room s p (cl_roomID c)
      | None => True
      end
  | RemoteRoomEvent R f | RouteTo _ R f => match about f with Some p => in_room s p R | None => True end
  | Panicked => False
  | _ => True
  end.

(** Running [m] from [s], an extension of [s0], extends [s0] and sends only what may
    be sent there. *)
Definition safe {A} (s0 : Server) (m : SM A) (s : Server) : Prop :=
  ext s0 s → ext s0 (final m s) ∧ Forall (out_ok s0) (outputs m s).

Section safe.
Context (s0 : Server).

Lemma safe_ret {A} (a : A) s : safe s0 (mret a) s.
Proof. intros X. split; [done|constructor]. Qed.

Lemma safe_gets {A} (f : Server → A) s : safe s0 (gets f) s.
Proof. intros X. split; [done|constructor]. Qed.

Lemma safe_bind {A B} (m : SM A) (f : A → SM B) s :
  safe s0 m s → (∀ s', ext s0 s' → safe s0 (f (value m s)) s') → safe s0 (m ≫= f) s.
Proof.
  intros Hm Hf X. destruct (Hm X) as [X1 H1]. destruct (Hf _ X1 X1) as [X2 H2].
  rewrite final_bind, outputs_bind. split; [done|]. apply Forall_app; by split.
Qed.

Lemma safe_get_bind {B} (f : Server → SM B) s : safe s0 (f s) s → safe s0 (get ≫= f) s.
Proof.
  intros H X. rewrite final_bind, outputs_bind, value_get, final_get, outputs_get.
  rewrite app_nil_l. by apply H.
Qed.

Lemma safe_emit ev s : out_ok s0 ev → safe s0 (emit ev) s.
Proof. intros H X. split; [done|]. constructor; [done|constructor]. Qed.

Lemma safe_when b m s : safe s0 m s → safe s0 (when b m) s.
Proof. destruct b; [done|]. intros _. apply safe_ret. Qed.

Lemma safe_for_each {A} (l : list A) (f : A → SM unit) s :
  (∀ a s', a ∈ l → ext s0 s' → safe s0 (f a) s') → safe s0 (for_each l f) s.
Proof.
  revert s. induction l as [|a l IH]; intros s H; simpl; [apply safe_ret|].
  intros X. apply safe_bind; [|intros s' X'|done].
  - apply H; [left|done].
  - apply IH. intros. apply H; [by right|done].
Qed.

Lemma safe_modify f s : (ext s0 s → ext s (f s)) → safe s0 (modify f) s.
Proof. intros H X. split; [|constructor]. etrans; [exact X|by apply H]. Qed.

Lemma safe_with_client {A} k (d : A) f s :
  (∀ c, sv_objs s !! k = Some c → safe s0 (f c) s) → safe s0 (with_client k d f) s.
Proof.
  intros H. apply safe_get_bind. destruct (sv_objs s !! k) eqn:E; [by apply H|apply safe_ret].
Qed.
End safe.

(** *** The updates *)

Lemma ext_same s s' :
  sv_cfg s' = sv_cfg s → a_cfg (sv_auth s') = a_cfg (sv_auth s) → sv_objs s' = sv_objs s →
  sv_clients s' = sv_clients s → sv_heap s' = sv_heap s → sv_rooms s' = sv_rooms s →
  (engine_wf (sv_quality s) → engine_wf (sv_quality s')) → ext s s'.
Proof.
  intros E1 E2 E3 E4 E5 E6 E7. split; rewrite ?E1, ?E2, ?E3, ?E4, ?E5, ?E6; try done; eauto 10.
Qed.

Lemma safe_upd_auth s0 f s :
  (∀ a, a_cfg (f a) = a_cfg a) → safe s0 (upd_auth f) s.
Proof. intros H. apply safe_modify. intros _. apply ext_same; try done. apply H. Qed.

Lemma safe_upd_mx s0 f s : safe s0 (upd_mx f) s.
Proof. apply safe_modify. intros _. by apply ext_same. Qed.

Lemma safe_upd_quality s0 f s :
  (∀ q, engine_wf q → engine_wf (f q)) → safe s0 (upd_quality f) s.
Proof. intros H. apply safe_modify. intros _. apply ext_same; try done. apply H. Qed.

Lemma safe_in_sessions {A} s0 (m : M SessionRegistry session_event A) s : safe s0 (in_sessions m) s.
Proof.
  intros X. unfold in_sessions, final, outputs. destruct (m (sv_sessions s)) as [[a r] w]; simpl.
  split; [|constructor]. etrans; [exact X|by apply ext_same].
Qed.

Lemma safe_in_mirrors {A} s0 (m : M mirrors mirror_event A) s : safe s0 (in_mirrors m) s.
Proof.
  intros X. unfold in_mirrors, final, outputs. destruct (m (sv_mirrors s)) as [[a r] w]; simpl.
  split; [etrans; [exact X|by apply ext_same]|]. apply Forall_fmap. by apply Forall_true.
Qed.

(** An update of a client object that keeps its id, identity and room, and the
    bound of its queue. *)
Lemma safe_upd_client s0 f k s :
  (∀ c, sv_objs s !! k = Some c → cl_id (f c) = cl_id c ∧ cl_identity (f c) = cl_identity c
     ∧ cl_roomID (f c) = cl_roomID c
     ∧ (Z.of_nat (length (cl_send c)) ≤ sendBuffer → Z.of_nat (length (cl_send (f c))) ≤ sendBuffer)) →
  safe s0 (upd_objs (alter f k)) s.
Proof.
  intros H. apply safe_modify. intros _. split; simpl; try done; [| |eauto|eauto 10|eauto|].
  - intros k' c Hc. destruct (decide (k' = k)) as [->|].
    + rewrite lookup_alter_eq, Hc. simpl. destruct (H c Hc) as (? & ? & ? & _). eauto.
    + rewrite lookup_alter_ne by done. eauto.
  - intros k'. by rewrite lookup_alter_is_Some.
  - intros Hq k' c Hc. destruct (decide (k' = k)) as [->|].
    + rewrite lookup_alter_eq in Hc. destruct (sv_objs s !! k) as [c0|] eqn:E; [|done]. simplify_eq/=.
      apply (H c0 eq_refl). by apply (Hq k).
    + rewrite lookup_alter_ne in Hc by done. by eapply Hq.
Qed.

Lemma safe_Send s0 k f s :
  (∀ c, sv_objs s !! k = Some c → out_ok s0 (Queued k f)) → safe s0 (Send k f) s.
Proof.
  intros H. apply safe_get_bind. destruct (sv_objs s !! k) as [c|] eqn:E; [|apply safe_ret].
  destruct (cl_closed c); [apply safe_ret|].
  destruct (Z.of_nat (length (cl_send c)) <? sendBuffer) eqn:Hb; zbool.
  - apply safe_bind; [|intros; apply safe_emit; by eapply H].
    apply safe_upd_client. intros c' Hc'. simplify_eq. split_and!; try done. simpl.
    rewrite length_app. simpl. lia.
  - apply safe_bind; [|intros; by apply safe_emit].
    apply safe_upd_client. intros c' Hc'. done.
Qed.

(** A frame that speaks about nobody goes to anyone. *)
Lemma safe_sendJSON s0 k f s : about f = None → safe s0 (sendJSON k f) s.
Proof. intros H. apply safe_Send. intros. simpl. by rewrite H. Qed.

Lemma safe_sendError s0 k m s : safe s0 (sendError k m) s.
Proof. by apply safe_sendJSON. Qed.

Lemma safe_authz s0 code s : safe s0 (RecordAuthzFailure code) s.
Proof. by apply safe_upd_auth. Qed.

(** *** Rooms *)

Lemma safe_room_Remove s0 r id s : safe s0 (room_Remove r id) s.
Proof.
  apply safe_bind; [|intros; apply safe_gets]. apply safe_modify. intros _.
  split; simpl; try done; [eauto| | |eauto].
  - intros r' o Ho. destruct (decide (r' = r)) as [->|].
    + rewrite lookup_alter_eq, Ho. simpl. eauto.
    + rewrite lookup_alter_ne by done. eauto.
  - intros r' o' Ho. right. destruct (decide (r' = r)) as [->|].
    + rewrite lookup_alter_eq in Ho. destruct (sv_heap s !! r) as [o|]; [|done]. simplify_eq/=.
      exists o. split_and!; [done..|]. apply delete_subseteq.
    + rewrite lookup_alter_ne in Ho by done. eauto.
Qed.

Lemma safe_RemoveParticipant s0 room id s : safe s0 (RemoveParticipant room id) s.
Proof.
  apply safe_get_bind. destruct (sv_rooms s !! room) as [r|]; [|apply safe_ret].
  apply safe_bind; [apply safe_room_Remove|]. intros s' _. apply safe_when, safe_modify. intros _.
  split; simpl; try done; [eauto..|].
  intros id' r'. rewrite lookup_delete_Some. naive_solver.
Qed.

Lemma safe_GetOrCreate s0 id r s : id ≠ "" → sv_heap s !! r = None → safe s0 (GetOrCreate id r) s.
Proof.
  intros Hid Hr. apply safe_get_bind. destruct (sv_rooms s !! id) as [r0|]; [apply safe_ret|].
  intros X. unfold upd_heap, upd_rooms. autorewrite with mrun. simpl. split; [|constructor].
  etrans; [exact X|]. split; simpl; try done; [eauto| | |].
  - intros r' o Ho. exists o. split; [|done]. rewrite lookup_insert_ne; [done|]. intros ->. by rewrite Hr in Ho.
  - intros r' o'. rewrite lookup_insert. case_decide as E; [|eauto]. intros [= <-]. by left.
  - intros id' r'. rewrite !lookup_insert. case_decide as E; [|eauto].
    intros [= <-]. subst id'. right. exists (newRoom id). rewrite decide_True by done. done.
Qed.

Lemma safe_untrack s0 id s : safe s0 (untrackClient id) s.
Proof.
  apply safe_modify. intros _. split; simpl; try done; [eauto..|].
  intros id' k. rewrite lookup_delete_Some. naive_solver.
Qed.

Lemma members_room s r id k : srv_inv s → room_members s r !! id = Some k →
  ∃ o c, sv_heap s !! r = Some o ∧ sv_objs s !! k = Some c ∧ cl_id c = id ∧ cl_roomID c = room_id o.
Proof.
  intros I. unfold room_members. destruct (sv_heap s !! r) as [o|] eqn:E; [|done].
  intros H. destruct (i_members _ I r o id k E H) as (c & ? & ? & ?). eauto 6.
Qed.

Definition speaks_in (s : Server) (f : frame) (R : string) : Prop :=
  match about f with Some p => in_room s p R | None => True end.

(** A frame may be queued to a member of a room the frame speaks in. *)
Lemma member_ok s0 s r o k id f :
  srv_inv s0 → ext s0 s → sv_heap s !! r = Some o → room_members s r !! id = Some k →
  speaks_in s0 f (room_id o) → out_ok s0 (Queued k f).
Proof.
  intros I X Ho Hm Hf. pose proof (ext_inv _ _ X I) as I'.
  destruct (members_room s r id k I' Hm) as (o' & c & Ho' & Hc & _ & HR). simplify_eq.
  destruct (ext_obj_back _ _ _ _ X Hc) as (c0 & Hc0 & _ & _ & E0).
  simpl. unfold speaks_in in Hf. destruct (about f); [|done]. exists c0. split; [done|]. by rewrite <- E0, HR.
Qed.

Lemma safe_Broadcast s0 r f ex s :
  srv_inv s0 → ext s0 s → (∀ o, sv_heap s !! r = Some o → speaks_in s0 f (room_id o)) →
  safe s0 (Broadcast r f ex) s.
Proof.
  intros I X H. apply safe_get_bind. apply safe_for_each. intros [id k] s' Hin X'.
  apply elem_of_map_to_list in Hin. case_decide; [apply safe_ret|]. apply safe_Send. intros c Hc.
  destruct (members_room s r id k (ext_inv _ _ X I) Hin) as (o & _ & Ho & _).
  apply (member_ok s0 s r o k id f); auto.
Qed.

Lemma safe_remote s0 R f s : speaks_in s0 f R → safe s0 (broadcastRoomEventRemote R f) s.
Proof. intros H. apply safe_get_bind, safe_when, safe_emit. done. Qed.

(** Walks through a handler down to its broadcasts. *)
Ltac safe_step :=
  lazymatch goal with
  | |- safe _ (mret _) _ => apply safe_ret
  | |- safe _ (gets _) _ => apply safe_gets
  | |- safe _ (sendError _ _) _ => apply safe_sendError
  | |- safe _ (sendJSON _ _) _ => apply safe_sendJSON; reflexivity
  | |- safe _ (RecordAuthzFailure _) _ => apply safe_authz
  | |- safe _ (upd_mx _) _ => apply safe_upd_mx
  | |- safe _ (in_sessions _) _ => apply safe_in_sessions
  | |- safe _ (in_mirrors _) _ => apply safe_in_mirrors
  | |- safe _ (untrackClient _) _ => apply safe_untrack
  | |- safe _ (RemoveParticipant _ _) _ => apply safe_RemoveParticipant
  | |- safe _ (room_Remove _ _) _ => apply safe_room_Remove
  | |- safe _ (upd_objs (alter _ _)) _ => apply safe_upd_client; intros; split_and!; done
  | |- safe _ (emit _) _ => apply safe_emit; exact Logic.I
  | |- safe _ (when _ _) _ => apply safe_when
  | |- safe _ (with_client _ _ _) _ => apply safe_with_client; intros ? ?
  | |- safe _ (get ≫= _) _ => apply safe_get_bind
  | |- safe _ (_ ≫= _) _ => apply safe_bind; [|intros ? ?]
  | |- safe _ (match _ with _ => _ end) _ => case_match
  end.

Ltac safe_walk := repeat safe_step.

(** ** The handlers *)

(** A client speaks in its own room. *)
Lemma speaks_self s0 s k c f :
  ext s0 s → sv_objs s !! k = Some c → about f = Some (cl_id c) → cl_roomID c ≠ "" → speaks_in s0 f (cl_roomID c).
Proof.
  intros X Hc Hf HR. unfold speaks_in. rewrite Hf. split; [done|].
  destruct (ext_obj_back _ _ _ _ X Hc) as (c0 & ? & ? & _ & ?). exists k, c0. by rewrite <- H0, <- H1.
Qed.

Lemma safe_admit s0 k inb s : safe s0 (join_admit k inb) s.
Proof. unfold join_admit. safe_walk. Qed.

Lemma safe_claimed s0 k claim s : safe s0 (join_claimed k claim) s.
Proof. unfold join_claimed. safe_walk. Qed.

Lemma safe_replace s0 id room s : safe s0 (replaceSession id room) s.
Proof. unfold replaceSession. safe_walk. Qed.

Lemma safe_setSession s0 k id gen s : safe s0 (setSession k id gen) s.
Proof. by apply safe_upd_client. Qed.

Lemma safe_session s0 k inb e s : safe s0 (join_session k inb e) s.
Proof.
  unfold join_session. safe_walk; [apply safe_setSession|apply safe_replace].
Qed.

Lemma safe_ensure s0 e room pub sub s : safe s0 (ensureRemoteMirror e room pub sub) s.
Proof. unfold ensureRemoteMirror. safe_walk. Qed.

Lemma safe_release_mirror s0 room pub sub s : safe s0 (releaseRemoteMirror room pub sub) s.
Proof. unfold releaseRemoteMirror. safe_walk. Qed.

Lemma safe_sub_intent s0 c pub b s : safe s0 (recordSubIntent c pub b) s.
Proof. unfold recordSubIntent. safe_walk. Qed.

Lemma safe_sfu_call s0 k c inb e op s : safe s0 (sfu_call k c inb e op) s.
Proof. unfold sfu_call. safe_walk. Qed.

Lemma safe_handleSFU s0 k inb e s : safe s0 (handleSFU k inb e) s.
Proof.
  unfold handleSFU, handleSFU_negotiate, handleSFU_subscribe, handleSFU_control.
  repeat lazymatch goal with
  | |- safe _ (sfu_call _ _ _ _ _) _ => apply safe_sfu_call
  | |- safe _ (ensureRemoteMirror _ _ _ _) _ => apply safe_ensure
  | |- safe _ (releaseRemoteMirror _ _ _) _ => apply safe_release_mirror
  | |- safe _ (recordSubIntent _ _ _) _ => apply safe_sub_intent
  | _ => safe_step
  end.
Qed.

Lemma safe_handleControl s0 k s : safe s0 (handleControl k) s.
Proof. unfold handleControl. safe_walk. Qed.

Lemma safe_handleSessionResume s0 k inb e s : safe s0 (handleSessionResume k inb e) s.
Proof. unfold handleSessionResume. safe_walk. Qed.

Lemma safe_handleForward s0 k inb e s :
  srv_inv s0 → ext s0 s → safe s0 (handleForward k inb e) s.
Proof.
  intros I X. apply safe_with_client. intros c Hc. unfold forward_remote.
  case_decide as HR; [safe_step|]. do 3 (case_decide; [safe_step|]).
  assert (∀ t p, speaks_in s0 (FForwarded t (cl_id c) p (in_Payload inb)) (cl_roomID c)) as Hs
    by (intros; by apply (speaks_self s0 s k)).
  apply safe_get_bind. destruct (sv_rooms s !! cl_roomID c) as [r|] eqn:Er; [|safe_step].
  destruct (room_Get s r (in_Target inb)) as [t|] eqn:Et; [|safe_walk; apply safe_emit, (Hs "" "")].
  destruct (i_rooms _ (ext_inv _ _ X I) _ _ Er) as (o & Ho & E).
  apply safe_Send. intros _ _. apply (member_ok s0 s r o t (in_Target inb)); [done..|]. rewrite E. apply Hs.
Qed.

Lemma safe_publish_quality s0 s1 k c ev s :
  srv_inv s0 → ext s0 s → ext s0 s1 → sv_objs s1 !! k = Some c → cl_roomID c ≠ "" →
  QualityEngine.ParticipantID ev = cl_id c → safe s0 (publish_quality c ev) s.
Proof.
  intros I X X1 Hc HR He. assert (speaks_in s0 (FQuality ev) (cl_roomID c)) as Hs.
  { apply (speaks_self s0 s1 k); [done..| |done]. simpl. by rewrite He. }
  unfold publish_quality. safe_walk; [apply safe_Broadcast; [done..|]|by apply safe_remote].
  intros o Ho. match goal with H : sv_rooms _ !! _ = Some _ |- _ =>
    apply (i_rooms _ (ext_inv _ _ ltac:(eassumption) I)) in H as (o' & ? & E) end.
  simplify_eq. by rewrite E.
Qed.

(** The identity of a report is the connection's. *)
Lemma sample_key_participant p kind dir pub key : sample_key p kind dir pub = Some key → Participant key = p.
Proof.
  unfold sample_key. intros H.
  repeat (case_match; simplify_eq/=; try done).
  all: repeat match goal with
       | H : mbind _ ?x = Some _ |- _ => destruct x eqn:?; simpl in H; [|done]
       | H : context [decide ?P] |- _ => destruct (decide P); simpl in H
       end; by simplify_eq.
Qed.

Lemma safe_handleQualityReport s0 k e s :
  srv_inv s0 → ext s0 s → safe s0 (handleQualityReport k e) s.
Proof.
  intros I X. apply safe_with_client. intros c Hc. case_decide as HR; [safe_step|].
  destruct (e_report e) as [samples|]; [|safe_step]. apply safe_for_each. intros q s1 _ X1.
  unfold report_one. destruct (sample_key _ _ _ _) as [key|] eqn:Ek; [|safe_step].
  apply safe_bind; [safe_step|]. intros s2 X2. apply safe_get_bind.
  pose proof (i_engine _ (ext_inv _ _ X2 I)) as Hw.
  destruct (Ingest_spec (sv_quality s2) (report_sample key q) (e_now e) (e_now e) Hw)
    as (st & evs & -> & Hst & Hev).
  apply safe_bind.
  - apply safe_upd_quality. intros _ _. by apply set_stream_wf.
  - intros s3 X3. apply safe_for_each. intros ev s4 Hin X4.
    apply (safe_publish_quality s0 s k); try done.
    destruct Hev as [[_ ->]|(_ & v & ->)]; [by apply not_elem_of_nil in Hin|].
    apply list_elem_of_singleton in Hin as ->. simpl. by eapply sample_key_participant.
Qed.

Lemma safe_CloseRoom s0 room reason s : srv_inv s0 → ext s0 s → safe s0 (CloseRoom room reason) s.
Proof.
  intros I X. unfold CloseRoom. apply safe_get_bind. case_match; [|safe_step].
  apply safe_bind; [|intros s1 X1; apply safe_bind; [|intros; safe_step]]; apply safe_for_each; intros [id k] s' _ X'.
  - apply safe_Send. intros. exact Logic.I.
  - safe_walk.
Qed.

Lemma safe_deliverRoomEvent s0 e room payload ev s :
  srv_inv s0 → ext s0 s → safe s0 (deliverRoomEvent e room payload ev) s.
Proof.
  intros I X. unfold deliverRoomEvent. apply safe_get_bind. apply safe_bind; [safe_walk|]. intros s1 X1.
  destruct (value _ s); [safe_step|]. destruct (sv_rooms s !! room); [|safe_step]. apply safe_when, safe_Broadcast; [done..|]. intros. exact Logic.I.
Qed.

Lemma Forget_wf q id : engine_wf q → engine_wf (Forget q id).
Proof. intros H. apply engine_wf_sub; [done|]. intros k st. rewrite map_lookup_filter_Some. naive_solver. Qed.

Lemma SetRecovering_wf q id b : engine_wf q → engine_wf (SetRecovering q id b).
Proof. intros H. by apply engine_wf_sub. Qed.

Lemma safe_notify s0 k s : srv_inv s0 → ext s0 s → safe s0 (disconnect_notify k) s.
Proof.
  intros I X. unfold disconnect_notify. apply safe_bind; [safe_step|]. intros s1 X1.
  apply safe_with_client. intros c Hc. apply safe_get_bind. apply safe_bind; [|intros; safe_step].
  case_decide as HR; [safe_step|]. destruct (sv_rooms s1 !! cl_roomID c) as [r|] eqn:Er; [|safe_step].
  assert (speaks_in s0 (FParticipantLeft (cl_id c) (id_Name (cl_identity c))) (cl_roomID c)) as Hs
    by by apply (speaks_self s0 s1 k).
  apply safe_bind; [|intros; by apply safe_remote]. apply safe_Broadcast; [done..|]. intros o Ho.
  destruct (i_rooms _ (ext_inv _ _ X1 I) _ _ Er) as (o' & Ho' & E). simplify_eq. by rewrite E.
Qed.

Lemma safe_leave s0 k room s : safe s0 (disconnect_leave k room) s.
Proof. unfold disconnect_leave. safe_walk. Qed.

Lemma safe_release s0 room s : safe s0 (disconnect_release room) s.
Proof. unfold disconnect_release. safe_walk. Qed.

Lemma safe_finish s0 k room now s : safe s0 (disconnect_finish k room now) s.
Proof.
  unfold disconnect_finish. safe_walk; apply safe_upd_quality; auto using SetRecovering_wf, Forget_wf.
Qed.

Lemma safe_token_expired s0 k s : safe s0 (token_expired k) s.
Proof. unfold token_expired. safe_walk. Qed.

Lemma safe_admit_read s0 k now s : safe s0 (readPump_admit k now) s.
Proof. unfold readPump_admit. safe_walk. Qed.

Lemma safe_writePump s0 k ok s : safe s0 (writePump_turn k ok) s.
Proof.
  unfold writePump_turn. safe_walk. apply safe_upd_client. intros c' Hc'. split_and!; try done. simpl.
  simplify_eq/=. intros Hl. rewrite H0 in Hl. simpl in Hl. lia.
Qed.

Lemma safe_quiet s0 q cf :
  srv_inv s0 → quiet_ok q cf → safe s0 (perform_quiet q) s0.
Proof.
  intros I Hq. destruct q; cbn [perform_quiet quiet_ok] in *.
  - destruct msg as [inb|]; cbn [handleMessage]; [|apply safe_sendError]. destruct Hq as [Hj _].
    rewrite decide_False by done.
    repeat case_decide; [apply safe_handleSessionResume|by apply safe_handleQualityReport
      |apply safe_handleControl|apply safe_handleSFU|by apply safe_handleForward|apply safe_sendError].
  - apply safe_bind; [apply safe_admit_read|intros; safe_step].
  - apply safe_bind; [apply safe_writePump|intros; safe_step].
  - apply safe_token_expired.
  - apply safe_bind; [apply safe_in_sessions|intros; safe_step].
  - unfold onSubscriptionFailed. safe_walk.
  - apply safe_bind; [by apply safe_CloseRoom|intros; safe_step].
  - unfold deliverToParticipant. safe_walk. apply safe_Send. done.
  - by apply safe_deliverRoomEvent.
Qed.

(** ** Entering and failing to enter *)

Definition st_room (k : nat) (R : string) (s : Server) : Server :=
  mkServer (sv_cfg s) (sv_auth s) (alter (set_room_id R) k (sv_objs s)) (sv_clients s) (sv_heap s) (sv_rooms s)
    (sv_sessions s) (sv_mx s) (sv_mirrors s) (sv_quality s).

Definition st_add (r : nat) (id : string) (k : nat) (s : Server) : Server :=
  mkServer (sv_cfg s) (sv_auth s) (sv_objs s) (sv_clients s)
    (alter (λ o, mkRoom (room_id o) (<[id := k]> (room_participants o))) r (sv_heap s)) (sv_rooms s)
    (sv_sessions s) (sv_mx s) (sv_mirrors s) (sv_quality s).

Definition st_track (id : string) (k : nat) (s : Server) : Server :=
  mkServer (sv_cfg s) (sv_auth s) (sv_objs s) (<[id := k]> (sv_clients s)) (sv_heap s) (sv_rooms s)
    (sv_sessions s) (sv_mx s) (sv_mirrors s) (sv_quality s).

Lemma st_room_objs k R s k' c' : sv_objs (st_room k R s) !! k' = Some c' →
  ∃ c, sv_objs s !! k' = Some c ∧ cl_id c' = cl_id c ∧ cl_identity c' = cl_identity c ∧ cl_send c' = cl_send c
    ∧ cl_roomID c' = if decide (k' = k) then R else cl_roomID c.
Proof.
  simpl. case_decide as E.
  - subst k'. rewrite lookup_alter_eq. destruct (sv_objs s !! k) as [c|]; [|done]. intros [= <-]. eauto 6.
  - rewrite lookup_alter_ne by done. eauto 6.
Qed.

Lemma st_room_fwd k R s k' c : sv_objs s !! k' = Some c →
  ∃ c', sv_objs (st_room k R s) !! k' = Some c' ∧ cl_id c' = cl_id c ∧ cl_identity c' = cl_identity c
    ∧ cl_roomID c' = if decide (k' = k) then R else cl_roomID c.
Proof.
  simpl. intros H. case_decide as E.
  - subst k'. rewrite lookup_alter_eq, H. simpl. eauto.
  - rewrite lookup_alter_ne by done. eauto.
Qed.

Lemma inv_st_room s k R :
  srv_inv s → (∀ r o id, sv_heap s !! r = Some o → room_participants o !! id = Some k → room_id o = R) →
  (∀ c, sv_objs s !! k = Some c → R ≠ "" → AuthorizeJoin (Some (cl_identity c)) R = None) →
  srv_inv (st_room k R s).
Proof.
  intros I Hm HA. split.
  - apply (i_rooms _ I).
  - apply (i_named _ I).
  - intros r o id k' Ho Hk. destruct (i_members _ I r o id k' Ho Hk) as (c & Hc & E1 & E2).
    destruct (st_room_fwd k R s k' c Hc) as (c' & Hc' & E3 & _ & E4). exists c'. split_and!; [done|congruence|].
    rewrite E4. case_decide; [|done]. subst k'. symmetry. by eapply Hm.
  - intros k' c' Hc'. destruct (st_room_objs _ _ _ _ _ Hc') as (c & Hc & _ & -> & _ & ->).
    case_decide; [subst k'; by apply HA|by eapply (i_joined _ I)].
  - intros k' c' Hc'. destruct (st_room_objs _ _ _ _ _ Hc') as (c & Hc & _ & -> & _). by eapply (i_authn _ I).
  - intros id k' H. destruct (i_index _ I id k' H) as (c & Hc & <-).
    destruct (st_room_fwd k R s k' c Hc) as (c' & ? & ? & _). eauto.
  - intros k' c' Hc'. destruct (st_room_objs _ _ _ _ _ Hc') as (c & Hc & _ & _ & -> & _). by eapply (i_queue _ I).
  - apply (i_engine _ I).
Qed.

Lemma st_add_heap r id k s r' o' : sv_heap (st_add r id k s) !! r' = Some o' →
  ∃ o, sv_heap s !! r' = Some o ∧ room_id o' = room_id o ∧
    ∀ id' k', room_participants o' !! id' = Some k' →
      room_participants o !! id' = Some k' ∨ (r' = r ∧ id' = id ∧ k' = k).
Proof.
  simpl. destruct (decide (r' = r)) as [->|].
  - rewrite lookup_alter_eq. destruct (sv_heap s !! r) as [o|]; [|done]. intros [= <-]. exists o. split_and!; [done..|].
    intros id' k'. simpl. rewrite lookup_insert_Some. naive_solver.
  - rewrite lookup_alter_ne by done. intros H. exists o'. eauto.
Qed.

Lemma st_add_fwd r id k s r' o : sv_heap s !! r' = Some o →
  ∃ o', sv_heap (st_add r id k s) !! r' = Some o' ∧ room_id o' = room_id o.
Proof.
  simpl. intros H. destruct (decide (r' = r)) as [->|].
  - rewrite lookup_alter_eq, H. simpl. eauto.
  - rewrite lookup_alter_ne by done. eauto.
Qed.

Lemma inv_st_add s r k c o :
  srv_inv s → sv_objs s !! k = Some c → sv_heap s !! r = Some o → cl_roomID c = room_id o →
  srv_inv (st_add r (cl_id c) k s).
Proof.
  intros I Hc Ho E. split.
  - intros id r' H. destruct (i_rooms _ I id r' H) as (o' & Ho' & <-). by apply st_add_fwd.
  - intros r' o' H. destruct (st_add_heap _ _ _ _ _ _ H) as (o2 & H2 & -> & _). by eapply (i_named _ I).
  - intros r' o' id k' H Hk. destruct (st_add_heap _ _ _ _ _ _ H) as (o2 & H2 & Ei & Hp).
    destruct (Hp id k' Hk) as [Hk'|(-> & -> & ->)].
    + destruct (i_members _ I r' o2 id k' H2 Hk') as (c' & ? & ? & ?). exists c'. split_and!; [done..|congruence].
    + exists c. split_and!; [done..|]. simplify_eq. congruence.
  - apply (i_joined _ I).
  - apply (i_authn _ I).
  - apply (i_index _ I).
  - apply (i_queue _ I).
  - apply (i_engine _ I).
Qed.

Lemma inv_st_track s k c : srv_inv s → sv_objs s !! k = Some c → srv_inv (st_track (cl_id c) k s).
Proof.
  intros I Hc. split; try apply I. intros id k'. simpl. rewrite lookup_insert_Some.
  intros [[<- <-]|[_ H]]; [eauto|by apply (i_index _ I)].
Qed.

(** Entering is the composition of the three. *)
Lemma join_enter_run s k inb r c : sv_objs s !! k = Some c →
  final (join_enter k inb r) s = st_track (cl_id c) k (st_add r (cl_id c) k (st_room k (in_RoomID inb) s))
  ∧ Forall (out_ok s) (outputs (join_enter k inb r) s).
Proof.
  intros Hc.
  unfold join_enter, room_Add, setRoom, trackClient, with_client, upd_heap, upd_objs, upd_index,
    final, outputs, mbind, M_bind, get, gets, modify, emit, mret, M_ret.
  cbn -[alter]. rewrite Hc. cbn -[alter]. rewrite lookup_alter_eq, Hc. cbn -[alter].
  rewrite lookup_alter_eq, Hc. cbn -[alter]. split; [done|by repeat constructor].
Qed.

(** Another client's join does not notice. *)
Lemma join_other_room s k k' R pc : k' ≠ k → join_ok s k' pc → join_ok (st_room k R s) k' pc.
Proof.
  intros Hne (HR & (c & Hc & HA & E) & Hp). split_and!; [done| |destruct pc; done].
  destruct (st_room_fwd k R s k' c Hc) as (c' & ? & _ & Ei & Er). rewrite decide_False in Er by done.
  exists c'. split_and!; congruence.
Qed.

Lemma join_other_add s r id k k' pc : k' ≠ k → join_ok s k' pc → join_ok (st_add r id k s) k' pc.
Proof.
  intros Hne (HR & Hc & Hp). split_and!; [done..|].
  assert (∀ r' R, (∃ o, sv_heap s !! r' = Some o ∧ room_id o = R) →
            ∃ o, sv_heap (st_add r id k s) !! r' = Some o ∧ room_id o = R) as Hr
    by (intros ? ? (ob & Hob & <-); by apply st_add_fwd).
  destruct pc; try done; [by apply Hr|]. destruct Hp as [Hp1 Hp2]. split; [by apply Hr|].
  intros r' o' id' Ho Hk. destruct (st_add_heap _ _ _ _ _ _ Ho) as (ob & Ho2 & _ & Hm).
  destruct (Hm id' k' Hk) as [?|(_ & _ & ?)]; [|done]. eauto.
Qed.

Definition conf_ok (s : Server) (js : gmap nat join_pc) : Prop :=
  srv_inv s ∧ ∀ k pc, js !! k = Some pc → join_ok s k pc.

(** The joins of the others stay as they were, [k]'s goes on at [pc]. *)
Lemma conf_ok_at s js k pc :
  srv_inv s → (∀ k' pc', k' ≠ k → js !! k' = Some pc' → join_ok s k' pc') →
  (∀ pc', pc = Some pc' → join_ok s k pc') →
  conf_ok s (partial_alter (λ _, pc) k js).
Proof.
  intros I Ho Hk. split; [done|]. intros k' pc'. destruct (decide (k' = k)) as [->|].
  - rewrite lookup_partial_alter_eq. apply Hk.
  - rewrite lookup_partial_alter_ne by done. by apply Ho.
Qed.

Lemma conf_ok_ext s s' js : ext s s' → conf_ok s js → conf_ok s' js.
Proof. intros X [I Hj]. split; [by eapply ext_inv|]. intros k pc H. eapply ext_join; eauto. Qed.

Lemma conf_ok_at_ext s s' js k pc :
  ext s s' → conf_ok s js → (∀ pc', pc = Some pc' → join_ok s' k pc') →
  conf_ok s' (partial_alter (λ _, pc) k js).
Proof.
  intros X H Hk. pose proof (conf_ok_ext _ _ _ X H) as [I Hj]. apply conf_ok_at; [done| |done].
  intros k' pc' _ E. by apply Hj.
Qed.

Lemma join_enter_ok s js k inb o r ex :
  conf_ok s js → js !! k = Some (JRoom inb o r) →
  conf_ok (final (join_enter k inb r) s) (partial_alter (λ _, Some (JEntered inb o r ex)) k js).
Proof.
  intros [I Hj] Ek. pose proof (Hj k _ Ek) as (HR & (c & Hc & HA & E0) & (ob & Hob & Eob)). simpl in *.
  destruct (join_enter_run s k inb r c Hc) as [-> _]. set (R := in_RoomID inb) in *.
  assert (∀ r o id, sv_heap s !! r = Some o → room_participants o !! id = Some k → False) as Hfree.
  { intros r' o' id Ho' Hk. destruct (i_members _ I r' o' id k Ho' Hk) as (c' & Hc' & _ & E'). simplify_eq.
    apply (i_named _ I r' o' Ho'). congruence. }
  assert (srv_inv (st_room k R s)) as I1.
  { apply inv_st_room; [done| |]; [intros r' o' id H1 H2; destruct (Hfree r' o' id H1 H2)|].
    intros c' Hc'. by simplify_eq. }
  destruct (st_room_fwd k R s k c Hc) as (c1 & Hc1 & Eid & Eidn & Er). rewrite decide_True in Er by done.
  rewrite <- Eid. assert (srv_inv (st_add r (cl_id c1) k (st_room k R s))) as I2
    by (apply (inv_st_add (st_room k R s) r k c1 ob); [done..|congruence]).
  apply conf_ok_at; [by apply inv_st_track| |].
  - intros k' pc' Hne E'. apply (join_other_add (st_room k R s) r (cl_id c1)); [done|].
    apply join_other_room; [done|]. by apply Hj.
  - intros pc' [= <-]. split; [done|split]; simpl.
    + exists c1. rewrite Eidn. done.
    + destruct (st_add_fwd r (cl_id c1) k (st_room k R s) r ob Hob) as (o2 & Ho2 & E2). split.
      * exists o2. split; [exact Ho2|]. by rewrite E2, Eob.
      * intros r' o' id Ho' Hk. destruct (st_add_heap r (cl_id c1) k (st_room k R s) r' o' Ho') as (o3 & Ho3 & _ & Hm).
        destruct (Hm id k Hk) as [Hk'|(? & _)]; [|done]. by destruct (Hfree r' o3 id Ho3 Hk').
Qed.

Lemma join_failed_ok s js k inb o r ex :
  conf_ok s js → js !! k = Some (JEntered inb o r ex) →
  conf_ok (final (join_failed k inb r) s) (partial_alter (λ _, None) k js)
  ∧ Forall (out_ok s) (outputs (join_failed k inb r) s).
Proof.
  intros [I Hj] Ek. pose proof (Hj k _ Ek) as (HR & (c & Hc & HA & E0) & _). simpl in *.
  unfold join_failed, with_client. rewrite !final_bind, !outputs_bind, value_get, final_get, outputs_get, Hc.
  rewrite app_nil_l.
  set (m1 := sendError k _). rewrite !final_bind, !outputs_bind.
  destruct (safe_sendError s k "could not attach to the media server" s) as [X1 O1]; [done|]. fold m1 in X1, O1.
  set (s1 := final m1 s) in *.
  destruct (safe_room_Remove s r (cl_id c) s1) as [X2 O2]; [done|]. set (s2 := final (room_Remove r (cl_id c)) s1) in *.
  unfold setRoom, upd_objs. rewrite final_modify, outputs_modify. change (mkServer _ _ _ _ _ _ _ _ _ _) with (st_room k "" s2).
  rewrite value_get, final_get, outputs_get, final_when.
  assert (∀ r' o' id, sv_heap s2 !! r' = Some o' → room_participants o' !! id = Some k → False) as Hfree.
  { destruct (ext_join _ _ _ _ X2 (Hj k _ Ek)) as (_ & _ & _ & Honly).
    intros r' o' id Ho' Hk. pose proof (Honly r' o' id Ho' Hk) as ->.
    destruct (i_members _ (ext_inv _ _ X2 I) r o' id k Ho' Hk) as (c' & Hc' & Eid & _).
    destruct (ext_obj_back _ _ _ _ X2 Hc') as (c0 & Hc0 & Eid0 & _). simplify_eq.
    unfold s2, room_Remove, upd_heap in Ho'. rewrite final_bind, final_modify, final_gets in Ho'. simpl in Ho'.
    rewrite lookup_alter_eq in Ho'. destruct (sv_heap s1 !! r); [|done]. simplify_eq/=.
    rewrite Eid0 in Hk. by rewrite lookup_delete_eq in Hk. }
  split.
  - assert (conf_ok (st_room k "" s2) (partial_alter (λ _, None) k js)) as Hfin.
    { apply conf_ok_at; [| |done].
      - apply inv_st_room; [by eapply ext_inv| |done]. intros r' o' id H1 H2. by destruct (Hfree r' o' id H1 H2).
      - intros k' pc' Hne E'. apply join_other_room; [done|]. eapply ext_join; [done|]. by apply Hj. }
    destruct (_ =? 0); [rewrite final_emit|]; exact Hfin.
  - repeat apply Forall_app_2; try done. by destruct (_ =? 0); repeat constructor.
Qed.

Lemma safe_reconnected s0 k inb o c s : safe s0 (join_reconnected k inb o c) s.
Proof. unfold join_reconnected. safe_walk. apply safe_upd_quality; auto using SetRecovering_wf. Qed.

Lemma join_finish_safe s js k inb o r ex e :
  conf_ok s js → js !! k = Some (JEntered inb o r ex) → safe s (join_finish k inb e r o ex) s.
Proof.
  intros [I Hj] Ek. pose proof (Hj k _ Ek) as (HR & (c & Hc & _ & E0) & (ob & Hob & Eob) & _).
  cbn [join_inb] in *. unfold join_finish, setSFUPeer. apply safe_with_client. intros c' Hc'. simplify_eq.
  assert (speaks_in s (FParticipantJoined (cl_id c) (id_Name (cl_identity c))) (cl_roomID c)) as Hs
    by (apply (speaks_self s s k); [done..|by rewrite E0]).
  rewrite E0 in Hs. safe_walk; [apply safe_reconnected|apply safe_Broadcast; [done..|]|by apply safe_remote].
  intros o' Ho'.
  match goal with X : ext s ?s', H : sv_heap ?s' !! r = Some o' |- _ =>
    destruct (x_heap _ _ X r ob Hob) as (o2 & ? & E2) end. simplify_eq.
  by rewrite E2, Eob.
Qed.

(** ** Connecting *)

Lemma conf_ok_connect s js k c :
  conf_ok s js → sv_objs s !! k = None → cl_roomID c = "" → cl_send c = [] →
  authenticated (sv_auth s) (cl_identity c) →
  conf_ok (final (upd_objs <[k := c]>) s) js.
Proof.
  intros [I Hj] Hk ER Eq HA.
  assert (∀ k' c', sv_objs s !! k' = Some c' → <[k := c]> (sv_objs s) !! k' = Some c') as Hold
    by (intros k' c' H; rewrite lookup_insert_ne; [done|congruence]).
  split; [|].
  - split; simpl; try apply I.
    + intros r o id k' Ho Hm. destruct (i_members _ I r o id k' Ho Hm) as (c' & ? & ?). eauto.
    + intros k' c'. rewrite lookup_insert_Some. intros [[<- <-]|[_ H]] HR; [done|by eapply (i_joined _ I)].
    + intros k' c'. rewrite lookup_insert_Some. intros [[<- <-]|[_ H]]; [done|by eapply (i_authn _ I)].
    + intros id k' H. destruct (i_index _ I id k' H) as (c' & ? & ?). eauto.
    + intros k' c'. rewrite lookup_insert_Some. intros [[<- <-]|[_ H]]; [by rewrite Eq|by eapply (i_queue _ I)].
  - intros k' pc H. destruct (Hj k' pc H) as (HR & (c' & Hc & ? & ?) & Hp). split_and!; [done| |by destruct pc].
    exists c'. split_and!; [by apply Hold|done..].
Qed.

Lemma safe_schedule s0 k now s : safe s0 (scheduleTokenExpiry k now) s.
Proof. unfold scheduleTokenExpiry. safe_walk. Qed.

(** Actions that speak about nobody are harmless in any state. *)
Definition silent (ev : out) : Prop :=
  match ev with
  | Queued _ f | RemoteRoomEvent _ f | RouteTo _ _ f => about f = None
  | Panicked => False
  | _ => True
  end.

Lemma silent_ok s ev : silent ev → out_ok s ev.
Proof. destruct ev; simpl; try done; intros H; by rewrite H. Qed.

Lemma silent_HandleWS k r now uuid suffix up : emits_only silent (HandleWS k r now uuid suffix up).
Proof.
  unfold HandleWS, sendJSON, Send, scheduleTokenExpiry, with_client, upd_auth, upd_objs. emits_only.
Qed.

Lemma connect_ok s js k r now uuid suffix up :
  conf_ok s js → sv_objs s !! k = None →
  conf_ok (final (HandleWS k r now uuid suffix up) s) js.
Proof.
  intros H Hk. unfold HandleWS. rewrite final_bind, value_get, final_get.
  pose proof (AuthenticateRequest_accepts (sv_auth s) r now uuid) as HA.
  pose proof (AuthenticateRequest_cfg (sv_auth s) r now uuid) as HC.
  destruct (AuthenticateRequest (sv_auth s) r now uuid) as [res a]. simpl in HA, HC.
  rewrite final_bind. set (s1 := final (upd_auth (λ _, a)) s).
  assert (ext s s1) as X1 by by apply ext_same.
  pose proof (conf_ok_ext _ _ _ X1 H) as H1. destruct res as [e|identity]; [by rewrite final_ret|].
  destruct up; cbn [negb]; [|by rewrite final_ret]. rewrite final_bind.
  set (c := newClient s (Auth.ParticipantID (Some identity) suffix) identity).
  assert (conf_ok (final (upd_objs <[k := c]>) s1) js) as H2.
  { apply conf_ok_connect; try done. intros He. destruct (HA identity eq_refl) as [_ HV].
    simpl in He |- *. rewrite HC in He |- *. eauto. }
  set (s2 := final (upd_objs <[k := c]>) s1) in *.
  assert (safe s2 (sendJSON k (FWelcome (cl_id c) (id_Subject identity) (id_Name identity));;
                   scheduleTokenExpiry k now;; mret (@None Z)) s2) as Hs.
  { safe_walk. apply safe_schedule. }
  destruct (Hs (reflexivity s2)) as [X3 _]. by apply (conf_ok_ext s2).
Qed.

(** ** Every step *)

Lemma step_ok cf evs cf' :
  conf_ok (cf_srv cf) (cf_joins cf) → step cf evs cf' →
  conf_ok (cf_srv cf') (cf_joins cf') ∧ Forall (out_ok (cf_srv cf)) evs.
Proof.
  intros H Hstep. pose proof H as [I Hj]. pose proof (reflexivity (R := ext) (cf_srv cf)) as X0.
  destruct Hstep as [k r now uuid suffix up Hk m|q Hq|k inb Ek m|k inb claim Ek m|k inb e Ek m|k inb o r Ek Hr m
    |k inb o r Ek m|k inb o r ex Ek m|k inb o r ex e Ek m|g k Eg m room|g k room Eg m|g k room Eg m|g k room Eg m
    |g k room now Eg m]; simpl.
  - split; [by apply connect_ok|]. eapply Forall_impl; [apply silent_HandleWS|apply silent_ok].
  - destruct (safe_quiet _ q cf I Hq X0) as [X O]. split; [by eapply conf_ok_ext|done].
  - destruct (safe_admit _ k inb _ X0) as [X O]. split; [|done]. eapply conf_ok_at_ext; [done..|].
    intros pc' Epc. fold m in X. destruct (value m (cf_srv cf)) eqn:Ev; [|done]. simplify_eq.
    eapply ext_join; [exact X|]. unfold m, join_admit, with_client in Ev.
    rewrite value_bind, value_get, final_get in Ev. destruct (sv_objs _ !! k) as [c|] eqn:Ec; [|done].
    repeat (case_decide; [rewrite value_bind in Ev; done|]). destruct (AuthorizeJoin _ _) eqn:Ea.
    { rewrite !value_bind in Ev. done. }
    split_and!; [done|exists c; split_and!; [done..|by destruct (decide (cl_roomID c = ""))]|done].
  - destruct (safe_claimed _ k claim _ X0) as [X O]. split; [|done]. eapply conf_ok_at_ext; [done..|].
    intros pc' Epc. fold m in X. destruct (value m (cf_srv cf)); [|done]. simplify_eq.
    eapply ext_join; [exact X|]. exact (Hj k _ Ek).
  - destruct (safe_session _ k inb e _ X0) as [X O]. split; [|done]. eapply conf_ok_at_ext; [done..|].
    intros pc' Epc. fold m in X. destruct (value m (cf_srv cf)) as [o|]; [|done]. simplify_eq/=.
    eapply ext_join; [exact X|]. exact (Hj k _ Ek).
  - pose proof (Hj k _ Ek) as (HR & Hc & _). simpl in HR.
    destruct (safe_GetOrCreate _ (in_RoomID inb) r (cf_srv cf) HR Hr X0) as [X O]. split; [|done].
    eapply conf_ok_at_ext; [done..|]. intros pc' [= <-].
    destruct (ext_join _ _ k _ X (Hj k _ Ek)) as (_ & Hc' & _). split_and!; [done..|]. simpl.
    unfold m, GetOrCreate. rewrite value_bind, final_bind, value_get, final_get.
    destruct (sv_rooms (cf_srv cf) !! in_RoomID inb) as [r0|] eqn:E0.
    + by apply (i_rooms _ I).
    + unfold upd_heap, upd_rooms. autorewrite with mrun. simpl. exists (newRoom (in_RoomID inb)).
      by rewrite lookup_insert_eq.
  - pose proof (Hj k _ Ek) as (_ & (c & Hc & _) & _). split; [by eapply join_enter_ok|].
    by apply (join_enter_run (cf_srv cf) k inb r c).
  - by eapply join_failed_ok.
  - destruct (join_finish_safe _ _ k inb o r ex e H Ek X0) as [X O]. split; [|done].
    by eapply conf_ok_at_ext; [done..|].
  - destruct (safe_notify _ k _ I X0 X0) as [X O]. split; [by eapply conf_ok_ext|done].
  - destruct (safe_leave _ k room _ X0) as [X O]. split; [by eapply conf_ok_ext|done].
  - split; [done|constructor].
  - destruct (safe_release _ room _ X0) as [X O]. split; [by eapply conf_ok_ext|done].
  - destruct (safe_finish _ k room now _ X0) as [X O]. split; [by eapply conf_ok_ext|done].
Qed.

Lemma reachable_ok cfg a timeout cf :
  srv_reachable cfg a timeout cf → conf_ok (cf_srv cf) (cf_joins cf).
Proof.
  induction 1 as [|cf evs cf' _ IH Hs]; [|by eapply step_ok].
  split; [|done]. by split.
Qed.

(** *** Schedules *)

Inductive action :=
| AConnect (k : nat) (r : request) (now : Z) (uuid suffix : string)
| AQuiet (q : quiet_op)
| AJoin (k : nat) (inb : Inbound)
| AClaimed (k : nat) (claim : option Error + RoomResolution)
| ASession (k : nat) (e : env)
| ARoom (k r : nat)
| AEnter (k : nat)
| AFailed (k : nat)
| AFinish (k : nat) (e : env)
| ALeave (g k : nat)
| ALeaveRoom (g : nat)
| ALeaveCheck (g : nat)
| ALeaveRelease (g : nat)
| ALeaveFinish (g : nat) (now : Z).

Definition idle {A} (o : option A) : bool := match o with None => true | Some _ => false end.

Definition quiet_okb (q : quiet_op) (cf : conf) : bool :=
  match q with
  | QMessage k (Some inb) _ => negb (bool_decide (in_Type inb = "join")) && idle (cf_joins cf !! k)
  | QMessage k None _ => idle (cf_joins cf !! k)
  | _ => true
  end.

(** What an action does to a configuration; [None] when it is not enabled. *)
Definition exec (x : action) (cf : conf) : option (list out * conf) :=
  let s := cf_srv cf in
  match x with
  | AConnect k r now uuid suffix =>
      let m := HandleWS k r now uuid suffix true in
      if idle (sv_objs s !! k) then Some (outputs m s, mkConf (final m s) (cf_joins cf) (cf_leaves cf)) else None
  | AQuiet q =>
      let m := perform_quiet q in
      if quiet_okb q cf then Some (outputs m s, mkConf (final m s) (cf_joins cf) (cf_leaves cf)) else None
  | AJoin k inb =>
      let m := join_admit k inb in
      if idle (cf_joins cf !! k)
      then Some (outputs m s, at_join k (if value m s then Some (JAdmitted inb) else None) cf (final m s)) else None
  | AClaimed k claim =>
      let m := join_claimed k claim in
      match cf_joins cf !! k with
      | Some (JAdmitted inb) =>
          Some (outputs m s, at_join k (if value m s then Some (JClaimed inb) else None) cf (final m s))
      | _ => None
      end
  | ASession k e =>
      match cf_joins cf !! k with
      | Some (JClaimed inb) =>
          let m := join_session k inb e in Some (outputs m s, at_join k (JOpened inb <$> value m s) cf (final m s))
      | _ => None
      end
  | ARoom k r =>
      match cf_joins cf !! k, sv_heap s !! r with
      | Some (JOpened inb o), None =>
          let m := GetOrCreate (in_RoomID inb) r in
          Some (outputs m s, at_join k (Some (JRoom inb o (value m s))) cf (final m s))
      | _, _ => None
      end
  | AEnter k =>
      match cf_joins cf !! k with
      | Some (JRoom inb o r) =>
          let m := join_enter k inb r in
          Some (outputs m s, at_join k (Some (JEntered inb o r (value m s))) cf (final m s))
      | _ => None
      end
  | AFailed k =>
      match cf_joins cf !! k with
      | Some (JEntered inb o r ex) =>
          let m := join_failed k inb r in Some (outputs m s, at_join k None cf (final m s))
      | _ => None
      end
  | AFinish k e =>
      match cf_joins cf !! k with
      | Some (JEntered inb o r ex) =>
          let m := join_finish k inb e r o ex in Some (outputs m s, at_join k None cf (final m s))
      | _ => None
      end
  | ALeave g k =>
      let m := disconnect_notify k in
      let room := value m s in
      if idle (cf_leaves cf !! g)
      then Some (outputs m s, at_leave g (Some (k, if decide (room = "") then LLast "" else LNotified room)) cf (final m s))
      else None
  | ALeaveRoom g =>
      match cf_leaves cf !! g with
      | Some (k, LNotified room) =>
          let m := disconnect_leave k room in Some (outputs m s, at_leave g (Some (k, LLeft room)) cf (final m s))
      | _ => None
      end
  | ALeaveCheck g =>
      match cf_leaves cf !! g with
      | Some (k, LLeft room) =>
          let m := disconnect_check room in
          Some (outputs m s, at_leave g (Some (k, if value m s then LGone room else LLast room)) cf (final m s))
      | _ => None
      end
  | ALeaveRelease g =>
      match cf_leaves cf !! g with
      | Some (k, LGone room) =>
          let m := disconnect_release room in Some (outputs m s, at_leave g (Some (k, LLast room)) cf (final m s))
      | _ => None
      end
  | ALeaveFinish g now =>
      match cf_leaves cf !! g with
      | Some (k, LLast room) =>
          let m := disconnect_finish k room now in Some (outputs m s, at_leave g None cf (final m s))
      | _ => None
      end
  end.

Lemma idle_None {A} (o : option A) : idle o = true → o = None.
Proof. by destruct o. Qed.

Lemma exec_step x cf evs cf' : exec x cf = Some (evs, cf') → step cf evs cf'.
Proof.
  destruct x; cbn [exec]; intros H;
    repeat match type of H with
    | (if ?b then _ else _) = _ => destruct b eqn:?; [|done]
    | match ?o with _ => _ end = _ => destruct o eqn:?; try done
    end; simplify_eq; repeat match goal with E : idle _ = true |- _ => apply idle_None in E end;
    try (by econstructor).
  apply step_quiet. destruct q as [k [inb|] e| | | | | | | |]; simpl in *; try done.
  - apply andb_true_iff in Heqb as [E1 E2]. apply negb_true_iff, bool_decide_eq_false in E1. by apply idle_None in E2.
  - by apply idle_None.
Qed.

(** The outputs of each action of a schedule, and where it ends. *)
Fixpoint schedule (l : list action) (cf : conf) : option (list (list out) * conf) :=
  match l with
  | [] => Some ([], cf)
  | x :: l =>
      match exec x cf with
      | None => None
      | Some (evs, cf1) =>
          match schedule l cf1 with
          | None => None
          | Some (evss, cf2) => Some (evs :: evss, cf2)
          end
      end
  end.

Lemma schedule_reachable cfg a timeout l cf evss cf' :
  srv_reachable cfg a timeout cf → schedule l cf = Some (evss, cf') → srv_reachable cfg a timeout cf'.
Proof.
  revert cf evss. induction l as [|x l IH]; intros cf evss Hr; simpl; [by intros [= _ <-]|].
  destruct (exec x cf) as [[evs cf1]|] eqn:E; [|done].
  destruct (schedule l cf1) as [[evss' cf2]|] eqn:E2; [|done]. intros [= _ <-].
  eapply IH; [|done]. econstructor; [done|by eapply exec_step].
Qed.
End steps.
