(* ===== verification/SignalingSafety.v ===== *)
(** * The signaling server: isolation, authorization and leaving

    What the invariant of [SignalingSteps] gives for every reachable state of the
    signaling server, what single handlers guarantee, and schedules in which several
    components together do what none of them intends. *)

From S2P Require Import Prelude Bytes GoFloat ClusterTypes QualityModel QualityEngine MediaBridge Mirrors.
From S2P Require Import Sessions Registry RoomLocator LoadStore RoomRouter Cluster Auth Signaling SignalingSteps.

(** ** A deployment to try things on *)

#[local] Existing Instance toy_mac.
#[local] Existing Instance toy_json.

Definition demo_auth : Authenticator :=
  mkAuthenticator (mkAuthConfig true 100 false demo_validator) (NewRateLimiter 100 (60 * second))
    (mkMetrics 0 0 0 0 0 0).

Definition demo_srv_cfg : server_cfg := mkServerCfg true true false "a" 0 100.

Definition demo_srv_start : conf := mkConf (newServer demo_srv_cfg demo_auth (30 * second)) ∅ ∅.

(** A request with the demo token, or without one. *)
Definition demo_request : request :=
  mkRequest (bearerPrefix ++ match Sign demo_claims AlgHS256 (v_secret demo_validator) with inr t => t | inl _ => [] end)
    [] [] [] "10.0.0.1:999" (Some "10.0.0.1").

Definition demo_join (room : string) : Inbound := mkInbound "join" room "" [] "" false None "" "" "" None.

Definition demo_env : env :=
  mkEnv demo_now "s-1" 0 (inr (mkResolution "room-1" "a" true)) None [] 0 None false true None None None None.

(** A whole join of client [k], whose room object would be [r]. *)
Definition join_actions (k : nat) (room : string) (r : nat) : list action :=
  [AJoin k (demo_join room); AClaimed k (inr (mkResolution room "a" true)); ASession k demo_env; ARoom k r;
   AEnter k; AFinish k demo_env].

Definition connect_action (k : nat) (suffix : string) : action := AConnect k demo_request demo_now "uuid" suffix.

(** ** Membership and isolation *)

Section claims.
Context {MC : Mac} {J : TokenJSON}.

(** C8: Nobody is in a room unauthorised.  In every reachable state, whatever joins,
    disconnections, deliveries and reports interleave, a participant of a room object
    is a client under its own id whose connection is in that very room, whose
    identity has the join permission and a room claim that allows the room, and came
    from a token the validator accepted when tokens are enforced; rooms are
    registered under their own non-empty ids; no client has more than 32 frames
    waiting. *)
Theorem room_membership cfg a timeout cf :
  srv_reachable cfg a timeout cf →
  (∀ r o id k, sv_heap (cf_srv cf) !! r = Some o → room_participants o !! id = Some k →
     room_id o ≠ "" ∧ ∃ c, sv_objs (cf_srv cf) !! k = Some c ∧ cl_id c = id ∧ cl_roomID c = room_id o
       ∧ Join (id_Permissions (cl_identity c)) = true ∧ RoomAllowed (cl_identity c) (room_id o) = true
       ∧ authenticated (sv_auth (cf_srv cf)) (cl_identity c))
  ∧ (∀ id r, sv_rooms (cf_srv cf) !! id = Some r → ∃ o, sv_heap (cf_srv cf) !! r = Some o ∧ room_id o = id)
  ∧ (∀ k c, sv_objs (cf_srv cf) !! k = Some c → Z.of_nat (length (cl_send c)) ≤ 32).
Proof.
  intros Hr. destruct (reachable_ok _ _ _ _ Hr) as [I _]. split_and!; [|apply (i_rooms _ I)|apply (i_queue _ I)].
  intros r o id k Ho Hk. pose proof (i_named _ I r o Ho) as HR. split; [done|].
  destruct (i_members _ I r o id k Ho Hk) as (c & Hc & Ei & Er).
  pose proof (i_joined _ I k c Hc) as HA. rewrite Er in HA. specialize (HA HR).
  unfold AuthorizeJoin in HA. destruct (Join _) eqn:E1; [|done]. destruct (RoomAllowed _ _) eqn:E2; [|done].
  exists c. split_and!; try done. by eapply (i_authn _ I).
Qed.

End claims.

(** Two connections of one user in a room; the second sends the first a signal. *)
Definition two_in_a_room : option (list (list out) * conf) :=
  schedule ([connect_action 0 "x1"] ++ join_actions 0 "room-1" 0 ++ [connect_action 1 "x2"] ++ join_actions 1 "room-1" 1)
    demo_srv_start.

Definition two_conf : conf := match two_in_a_room with Some (_, cf) => cf | None => demo_srv_start end.

#[global] Strategy 100 [two_conf two_in_a_room].

Lemma two_reachable : srv_reachable demo_srv_cfg demo_auth (30 * second) two_conf.
Proof.
  assert (∃ evss, two_in_a_room = Some (evss, two_conf)) as [evss E].
  { unfold two_conf. destruct two_in_a_room as [[evss cf]|] eqn:E; [eauto|].
    assert (match two_in_a_room with Some _ => true | None => false end = true) as E2 by (vm_compute; reflexivity).
    by rewrite E in E2. }
  eapply schedule_reachable; [apply srv_start|exact E].
Qed.

Lemma room_membership_witness :
  ∃ c, sv_objs (cf_srv two_conf) !! 1%nat = Some c ∧ cl_id c = "alice.x2" ∧ RoomAllowed (cl_identity c) "room-1" = true.
Proof.
  destruct (room_membership demo_srv_cfg demo_auth (30 * second) two_conf two_reachable) as (H & _ & _).
  assert (sv_heap (cf_srv two_conf) !! 0%nat
    = Some (mkRoom "room-1" {[ "alice.x1" := 0%nat; "alice.x2" := 1%nat ]})) as Ho by (vm_compute; reflexivity).
  destruct (H 0%nat _ "alice.x2" 1%nat Ho) as (_ & c & Hc & Ei & _ & _ & HA & _); [vm_compute; reflexivity|].
  exists c. split; [exact Hc|]. split; [exact Ei|exact HA].
Defined.

Definition demo_signal : Inbound := mkInbound "signal" "" "alice.x1" (bytes_of "hi") "" false None "" "" "" None.


(** ** Refused joins *)

(** The parts of the server a refused join must leave alone. *)
Definition untouched (s s' : Server) : Prop :=
  sv_rooms s' = sv_rooms s ∧ sv_heap s' = sv_heap s ∧ sv_sessions s' = sv_sessions s
  ∧ sv_clients s' = sv_clients s ∧ sv_mirrors s' = sv_mirrors s ∧ sv_quality s' = sv_quality s.

#[export] Instance untouched_refl : Reflexive untouched.
Proof. done. Qed.

Lemma untouched_objs s0 f : preserves (untouched s0) (upd_objs f).
Proof. apply preserves_modify. by intros s. Qed.

Lemma untouched_authz s0 code : preserves (untouched s0) (RecordAuthzFailure code).
Proof. apply preserves_modify. by intros s. Qed.

Lemma untouched_Send s0 k f : preserves (untouched s0) (Send k f).
Proof.
  apply preserves_bind; [apply preserves_get|]. intros s. repeat case_match; try apply preserves_ret;
    (apply preserves_bind; [apply untouched_objs|intros; apply preserves_emit]).
Qed.

Lemma untouched_Broadcast s0 r f ex : preserves (untouched s0) (Broadcast r f ex).
Proof.
  apply preserves_bind; [apply preserves_get|]. intros s. apply preserves_for_each. intros [id k] _.
  case_decide; [apply preserves_ret|apply untouched_Send].
Qed.

Lemma untouched_admit s0 k inb : preserves (untouched s0) (join_admit k inb).
Proof.
  unfold join_admit, with_client, sendError, sendJSON.
  repeat first [apply preserves_ret|apply preserves_emit|apply preserves_get|apply untouched_authz|apply untouched_Send
    |apply preserves_bind; [|intros ?]|case_match].
Qed.

Lemma untouched_claimed s0 k claim : preserves (untouched s0) (join_claimed k claim).
Proof.
  unfold join_claimed, sendError, sendJSON.
  repeat first [apply preserves_ret|apply untouched_Send|apply preserves_bind; [|intros ?]|case_match].
Qed.

(** What a refused join may do: tell the client, and have asked the cluster. *)
Definition refusal (k : nat) (room : string) (ev : out) : Prop :=
  match ev with
  | Queued k' f => k' = k ∧ ∃ e, f = FError e
  | SlowClosed k' => k' = k
  | ClaimAsked r => r = room
  | _ => False
  end.

Lemma refusal_Send k room f : (∃ e, f = FError e) → emits_only (refusal k room) (Send k f).
Proof. intros Hf. unfold Send, upd_objs. emits_only. Qed.

Lemma refusal_admit k inb : emits_only (refusal k (in_RoomID inb)) (join_admit k inb).
Proof.
  unfold join_admit, with_client, sendError, sendJSON, RecordAuthzFailure, upd_auth.
  repeat (intros; first [apply refusal_Send; by eexists|apply emits_only_bind|apply emits_only_ret|apply emits_only_get
    |apply emits_only_modify|apply emits_only_emit; done|case_match]).
Qed.

Lemma refusal_claimed k room claim : emits_only (refusal k room) (join_claimed k claim).
Proof.
  unfold join_claimed, sendError, sendJSON.
  repeat (intros; first [apply refusal_Send; by eexists|apply emits_only_bind|apply emits_only_ret|case_match]).
Qed.

Lemma claimed_value k e s : value (join_claimed k (inl e)) s = false.
Proof. unfold join_claimed. destruct e; by rewrite value_bind. Qed.

Lemma admit_value k inb c s :
  sv_objs s !! k = Some c →
  value (join_admit k inb) s = true →
  in_RoomID inb ≠ "" ∧ cl_roomID c = "" ∧ AuthorizeJoin (Some (cl_identity c)) (in_RoomID inb) = None.
Proof.
  intros Hc. unfold join_admit, with_client. rewrite value_bind, value_get, final_get, Hc.
  case_decide; [by rewrite value_bind|]. case_decide as E; [by rewrite value_bind|].
  destruct (AuthorizeJoin _ _); [by rewrite !value_bind|]. intros _. split_and!; [done| |done].
  by destruct (decide (cl_roomID c = "")).
Qed.

(** C23: A refused join leaves nothing behind.  When the room id is empty, the client
    is already in a room, its identity may not join that room, or the cluster does
    not grant the room, the handler changes no room, session, index, mirror or
    verdict, and does nothing but tell this client the error (after at most the
    question to the cluster): in particular the SFU is not asked for a peer. *)
Theorem join_refused k inb e c s :
  sv_objs s !! k = Some c →
  in_RoomID inb = "" ∨ cl_roomID c ≠ "" ∨ AuthorizeJoin (Some (cl_identity c)) (in_RoomID inb) ≠ None
    ∨ (∃ err, e_claim e = inl err) →
  untouched s (final (handleJoin k inb e) s) ∧ Forall (refusal k (in_RoomID inb)) (outputs (handleJoin k inb e) s).
Proof.
  intros Hc Hwhy. unfold handleJoin. rewrite final_bind, outputs_bind.
  pose proof (untouched_admit s k inb s (reflexivity s)) as U1. pose proof (refusal_admit k inb s) as O1.
  destruct (value (join_admit k inb) s) eqn:Ev; cbn [negb].
  - destruct (admit_value k inb c s Hc Ev) as (H1 & H2 & H3).
    destruct Hwhy as [?|[?|[?|[err Ee]]]]; [done..|]. rewrite Ee, final_bind, outputs_bind, claimed_value.
    cbn [negb]. rewrite final_ret, outputs_ret, app_nil_r. split; [by apply untouched_claimed|].
    apply Forall_app. split; [done|apply refusal_claimed].
  - rewrite final_ret, outputs_ret, app_nil_r. done.
Qed.

Lemma join_refused_witness :
  untouched (cf_srv two_conf) (final (handleJoin 0 (demo_join "room-2") demo_env) (cf_srv two_conf)).
Proof.
  destruct (sv_objs (cf_srv two_conf) !! 0%nat) as [c|] eqn:Hc; [|vm_compute in Hc; discriminate].
  apply (join_refused 0 (demo_join "room-2") demo_env c (cf_srv two_conf) Hc). right. left.
  assert (cl_roomID <$> sv_objs (cf_srv two_conf) !! 0%nat = Some "room-1") as E by (vm_compute; reflexivity).
  rewrite Hc in E. injection E as ->. discriminate.
Defined.

(** ** Leaving *)

Lemma Send_other k k' f s : k' ≠ k → sv_objs (final (Send k f) s) !! k' = sv_objs s !! k'.
Proof.
  intros Hne. unfold Send, upd_objs. rewrite final_bind, value_get, final_get.
  repeat case_match; try done; rewrite final_bind, final_modify, final_emit; simpl; by rewrite lookup_alter_ne.
Qed.

Definition can_take (s : Server) (k : nat) : Prop :=
  ∃ c, sv_objs s !! k = Some c ∧ cl_closed c = false ∧ Z.of_nat (length (cl_send c)) < sendBuffer.

(** Everybody else with a free place in the channel gets a broadcast. *)
Lemma Broadcast_reaches {MC : Mac} {J : TokenJSON} s r f ex id k :
  srv_inv s → room_members s r !! id = Some k → id ≠ ex → can_take s k →
  Queued k f ∈ outputs (Broadcast r f ex) s.
Proof.
  intros I Hm Hne Hk. unfold Broadcast. rewrite outputs_bind, value_get, final_get, outputs_get, app_nil_l.
  assert (∀ id' k', (id', k') ∈ map_to_list (room_members s r) → k' = k → id' = id) as Huniq.
  { intros id' k' Hin ->. apply elem_of_map_to_list in Hin.
    destruct (members_room s r id' k I Hin) as (o & c & _ & Hc & E & _).
    destruct (members_room s r id k I Hm) as (o2 & c2 & _ & Hc2 & E2 & _). simplify_eq. done. }
  assert ((id, k) ∈ map_to_list (room_members s r)) as Hin by by apply elem_of_map_to_list.
  pose proof (NoDup_fst_map_to_list (room_members s r)) as Hnd.
  revert Hk Hin Hnd Huniq. generalize (map_to_list (room_members s r)) as l. clear Hm I. intros l. revert s.
  induction l as [|[id1 k1] l IH]; intros s Hk Hin Hnd Huniq; [by apply not_elem_of_nil in Hin|].
  simpl. rewrite outputs_bind, elem_of_app. destruct (decide (id1 = id)) as [->|Hd].
  - left. assert (k1 = k) as ->.
    { apply elem_of_cons in Hin as [[= ->]|Hin]; [done|]. apply NoDup_cons in Hnd as [Hn _].
      destruct Hn. apply list_elem_of_fmap. by exists (id, k). }
    rewrite decide_False by done. destruct Hk as (c & Hc & Hcl & Hlen).
    unfold Send. rewrite outputs_bind, value_get, final_get, outputs_get, app_nil_l, Hc, Hcl.
    apply Z.ltb_lt in Hlen as ->. rewrite outputs_bind, elem_of_app. right. left.
  - right. apply elem_of_cons in Hin as [[= ? ?]|Hin]; [done|].
    assert (k ≠ k1) as Hkk by (intros <-; destruct Hd; apply (Huniq id1 k); [left|done]).
    apply IH; [|done|by apply NoDup_cons in Hnd as [_ ?]|intros id' k' H; apply Huniq; by right].
    destruct Hk as (c & Hc & ? & ?). exists c. split; [|done]. case_decide; [done|]. by rewrite Send_other.
Qed.

Lemma untouched_notify s k : untouched s (final (disconnect_notify k) s).
Proof.
  unfold disconnect_notify. eapply (preserves_bind (untouched s)); [apply untouched_objs| |done]. intros _.
  unfold with_client, broadcastRoomEventRemote.
  repeat first [apply preserves_ret|apply preserves_get|apply untouched_Broadcast|apply preserves_when
    |apply preserves_emit|apply preserves_bind; [|intros ?]|case_match].
Qed.

(** The pieces of a disconnection that ask for nothing to be released. *)
Definition keeps (ev : out) : Prop := match ev with ReleaseAsked _ => False | _ => True end.

Lemma keeps_Send k f : emits_only keeps (Send k f).
Proof. unfold Send, upd_objs. emits_only. Qed.

Lemma keeps_notify k : emits_only keeps (disconnect_notify k).
Proof.
  unfold disconnect_notify, with_client, Broadcast, broadcastRoomEventRemote, upd_objs.
  repeat (intros; first [apply keeps_Send|apply emits_only_bind|apply emits_only_when|apply emits_only_ret
    |apply emits_only_get|apply emits_only_modify|apply emits_only_emit; done|apply emits_only_for_each|case_match]).
Qed.

Lemma keeps_leave k room : emits_only keeps (disconnect_leave k room).
Proof.
  unfold disconnect_leave, with_client, RemoveParticipant, room_Remove, upd_heap, upd_rooms. emits_only.
Qed.

Lemma keeps_finish k room now : emits_only keeps (disconnect_finish k room now).
Proof.
  unfold disconnect_finish, with_client, untrackClient, upd_index, upd_quality, upd_objs.
  repeat (intros; first [apply emits_only_bind|apply emits_only_when|apply emits_only_ret|apply emits_only_get
    |apply emits_only_modify|apply emits_only_emit; done|case_match]).
  intros s. unfold in_sessions, outputs. by destruct (MarkRecovering _ _ _) as [[? ?] ?].
Qed.

(** The room manager's part. *)
Lemma RemoveParticipant_run s R id r o :
  sv_rooms s !! R = Some r → sv_heap s !! r = Some o →
  let s' := final (RemoveParticipant R id) s in
  room_members s' r = delete id (room_participants o)
  ∧ sv_rooms s' !! R = (if decide (delete id (room_participants o) = ∅) then None else Some r)
  ∧ sv_objs s' = sv_objs s.
Proof.
  intros Hr Ho. unfold RemoveParticipant, room_Remove, upd_heap, upd_rooms, room_members.
  rewrite !final_bind, value_get, final_get, Hr. rewrite !final_bind, !value_bind. autorewrite with mrun. simpl.
  rewrite lookup_alter_eq, Ho. simpl. case_decide as E; [rewrite bool_decide_eq_true_2 by done|
    rewrite bool_decide_eq_false_2 by done]; simpl; autorewrite with mrun; simpl;
    rewrite lookup_alter_eq, Ho; simpl; [by rewrite lookup_delete_eq|done].
Qed.

Definition same_rooms (s0 s : Server) : Prop := sv_rooms s = sv_rooms s0 ∧ sv_heap s = sv_heap s0.

Lemma same_rooms_in_sessions {A} s0 (m : M SessionRegistry session_event A) : preserves (same_rooms s0) (in_sessions m).
Proof. intros s H. unfold in_sessions, final. by destruct (m (sv_sessions s)) as [[? ?] ?]. Qed.

Lemma same_rooms_release s0 room : preserves (same_rooms s0) (disconnect_release room).
Proof.
  intros s H. unfold disconnect_release. autorewrite with mrun. unfold in_mirrors, final.
  by destruct (dropRoomMirrors room (sv_mirrors s)) as [[? ?] ?].
Qed.

Lemma same_rooms_finish s0 k room now : preserves (same_rooms s0) (disconnect_finish k room now).
Proof.
  unfold disconnect_finish, with_client, untrackClient, upd_index, upd_quality, upd_objs.
  repeat first [apply preserves_ret|apply preserves_get|apply preserves_emit|apply preserves_when
    |apply same_rooms_in_sessions|apply preserves_modify; done|apply preserves_bind; [|intros ?]|case_match].
Qed.

(** Whatever the session says, the connection ends closed, unindexed and forgotten
    by the quality engine. *)
Lemma finish_run s k room now c : sv_objs s !! k = Some c →
  let s' := final (disconnect_finish k room now) s in
  sv_clients s' !! cl_id c = None ∧ (cl_id c ∉ recovering (sv_quality s'))
  ∧ ∃ c', sv_objs s' !! k = Some c' ∧ cl_closed c' = true.
Proof.
  intros Hc. unfold disconnect_finish, with_client. rewrite final_bind, value_get, final_get, Hc.
  rewrite final_bind, value_get, final_get, final_bind.
  match goal with |- context [final (if ?b then ?m else mret tt) s] => set (s1 := final (if b then m else mret tt) s)
  end.
  assert (sv_objs s1 = sv_objs s) as E1.
  { unfold s1. case_match; [|done]. rewrite final_bind, final_when. unfold in_sessions, final, value, upd_quality, modify.
    destruct (MarkRecovering _ _ _) as [[? ?] ?]. simpl. by case_match. }
  clearbody s1. rewrite final_bind, final_when, final_emit. replace (if negb _ then s1 else s1) with s1 by by destruct (negb _).
  unfold untrackClient, upd_index, upd_quality, upd_objs. rewrite !final_bind, !final_modify. simpl. rewrite E1.
  split; [by rewrite lookup_delete_eq|]. split; [set_solver|]. rewrite lookup_alter_eq, Hc. simpl. eauto.
Qed.

Lemma notify_value s k c : sv_objs s !! k = Some c → value (disconnect_notify k) s = cl_roomID c.
Proof.
  intros Hc. unfold disconnect_notify, with_client, upd_objs.
  rewrite value_bind, final_modify, value_bind, value_get, final_get.
  cbn [sv_objs]. rewrite lookup_alter_eq, Hc. cbn [fmap option_fmap option_map].
  rewrite value_bind, value_get, final_get, value_bind. done.
Qed.

Lemma leave_run s k c R r o :
  sv_objs s !! k = Some c → sv_rooms s !! R = Some r → sv_heap s !! r = Some o →
  let s' := final (disconnect_leave k R) s in
  let rest := delete (cl_id c) (room_participants o) in
  room_members s' r = rest ∧ sv_rooms s' !! R = (if decide (rest = ∅) then None else Some r)
  ∧ sv_objs s' = sv_objs s
  ∧ SfuLeave R (cl_id c) ∈ outputs (disconnect_leave k R) s ∧ ForgetParticipant (cl_id c) ∈ outputs (disconnect_leave k R) s.
Proof.
  intros Hc Hr Ho. unfold disconnect_leave, with_client.
  rewrite final_bind, outputs_bind, value_get, final_get, outputs_get, Hc, app_nil_l.
  rewrite !final_bind, !outputs_bind, !final_emit, !outputs_emit.
  destruct (RemoveParticipant_run s R (cl_id c) r o Hr Ho) as (H1 & H2 & H3).
  split_and!; [done..| |]; rewrite !elem_of_app, !list_elem_of_singleton; auto.
Qed.

(** The handler as the sequence of its pieces, for a client in a room. *)
Lemma disconnect_split s k now R :
  value (disconnect_notify k) s = R → R ≠ "" →
  let s1 := final (disconnect_notify k) s in
  let s2 := final (disconnect_leave k R) s1 in
  let gone := bool_decide (sv_rooms s2 !! R = None) in
  let s3 := final (when gone (disconnect_release R)) s2 in
  final (disconnect k now) s = final (disconnect_finish k R now) s3
  ∧ outputs (disconnect k now) s
    = outputs (disconnect_notify k) s ++ outputs (disconnect_leave k R) s1
      ++ outputs (when gone (disconnect_release R)) s2 ++ outputs (disconnect_finish k R now) s3.
Proof.
  intros Ev HR s1 s2 gone s3. unfold disconnect. rewrite final_bind, outputs_bind, Ev. fold s1.
  rewrite final_bind, outputs_bind, decide_False by done.
  rewrite !final_bind, !outputs_bind. fold s2. unfold disconnect_check. rewrite value_gets, final_gets, outputs_gets.
  fold gone s3. split; [done|]. by rewrite app_nil_l, <- !app_assoc.
Qed.

Lemma release_outputs R s : ReleaseAsked R ∈ outputs (disconnect_release R) s
  ∧ History (HRoomClosed R) ∈ outputs (disconnect_release R) s.
Proof.
  unfold disconnect_release. rewrite !outputs_bind, !outputs_emit, !elem_of_app, !list_elem_of_singleton. auto.
Qed.

Lemma release_objs R s : sv_objs (final (disconnect_release R) s) = sv_objs s.
Proof.
  unfold disconnect_release. autorewrite with mrun. unfold in_mirrors, final.
  by destruct (dropRoomMirrors R (sv_mirrors s)) as [[? ?] ?].
Qed.

Lemma notify_reaches {MC : Mac} {J : TokenJSON} s k c r id k' :
  srv_inv s → sv_objs s !! k = Some c → cl_roomID c ≠ "" → sv_rooms s !! cl_roomID c = Some r →
  room_members s r !! id = Some k' → id ≠ cl_id c → can_take s k' →
  Queued k' (FParticipantLeft (cl_id c) (id_Name (cl_identity c))) ∈ outputs (disconnect_notify k) s.
Proof.
  intros I Hc HR Hr Hm Hid Hk. unfold disconnect_notify, with_client.
  set (s0 := final (upd_objs (alter (set_expiry false) k)) s).
  assert (ext s s0) as X0.
  { assert (safe s (upd_objs (alter (set_expiry false) k)) s) as Hs by by apply safe_upd_client.
    by apply Hs. }
  rewrite outputs_bind, elem_of_app. right. fold s0. rewrite outputs_bind, value_get, final_get, outputs_get, app_nil_l.
  replace (sv_objs s0 !! k) with (Some (set_expiry false c)) by (simpl; by rewrite lookup_alter_eq, Hc).
  rewrite outputs_bind, value_get, final_get, outputs_get, app_nil_l, outputs_bind, elem_of_app. left.
  cbn [set_expiry cl_roomID cl_id cl_identity]. rewrite decide_False by done.
  change (sv_rooms s0) with (sv_rooms s). rewrite Hr, outputs_bind, elem_of_app. left.
  apply (Broadcast_reaches s0 r _ _ id k'); [by eapply ext_inv|done..|].
  destruct Hk as (c' & Hc' & ? & ?). destruct (decide (k' = k)) as [->|Hne].
  - exists (set_expiry false c'). simpl. rewrite lookup_alter_eq, Hc'. done.
  - exists c'. simpl. by rewrite lookup_alter_ne.
Qed.

Section leaving.
Context {MC : Mac} {J : TokenJSON}.

(** C24: A client that disconnects leaves its room, and the last one closes it.  From
    every reachable state, when the handler runs without another in between: the
    leaver and nobody else is removed from the room; every other member with a free
    place in its channel is told; the SFU and the cluster are told that the
    participant is gone; if the room is now empty it is deregistered, its ownership is
    given back and its history closed, and otherwise it stays registered and no room
    is released; the client is closed and no longer found by its id; and the quality
    engine keeps no recovery mark for it, although the handler sets one. *)
Theorem disconnect_leaves cfg a timeout cf k c r now :
  srv_reachable cfg a timeout cf →
  sv_objs (cf_srv cf) !! k = Some c → cl_roomID c ≠ "" → sv_rooms (cf_srv cf) !! cl_roomID c = Some r →
  let s := cf_srv cf in
  let s' := final (disconnect k now) s in
  let evs := outputs (disconnect k now) s in
  let rest := delete (cl_id c) (room_members s r) in
  room_members s' r = rest
  ∧ (∀ id k', rest !! id = Some k' → can_take s k' →
       Queued k' (FParticipantLeft (cl_id c) (id_Name (cl_identity c))) ∈ evs)
  ∧ SfuLeave (cl_roomID c) (cl_id c) ∈ evs ∧ ForgetParticipant (cl_id c) ∈ evs
  ∧ (rest = ∅ → sv_rooms s' !! cl_roomID c = None ∧ ReleaseAsked (cl_roomID c) ∈ evs
       ∧ History (HRoomClosed (cl_roomID c)) ∈ evs)
  ∧ (rest ≠ ∅ → sv_rooms s' !! cl_roomID c = Some r ∧ ∀ R, ReleaseAsked R ∉ evs)
  ∧ sv_clients s' !! cl_id c = None
  ∧ (∃ c', sv_objs s' !! k = Some c' ∧ cl_closed c' = true)
  ∧ cl_id c ∉ recovering (sv_quality s').
Proof.
  intros Hr Hc HR Hrm s s' evs rest. destruct (reachable_ok _ _ _ _ Hr) as [I _]. fold s in I, Hc, Hrm.
  destruct (i_rooms _ I _ _ Hrm) as (o & Ho & Eo).
  destruct (safe_notify s k s I (reflexivity s) (reflexivity s)) as [X1 _].
  destruct (untouched_notify s k) as (U1 & U2 & _). destruct (x_objs _ _ X1 k c Hc) as (c1 & Hc1 & Ei1 & _ & _).
  destruct (disconnect_split s k now _ (notify_value s k c Hc) HR) as [Es' Ee]. fold s' in Es'. fold evs in Ee.
  set (s1 := final (disconnect_notify k) s) in *.
  destruct (leave_run s1 k c1 (cl_roomID c) r o) as (M2 & R2 & O2 & L1 & L2); [done|congruence..|].
  set (s2 := final (disconnect_leave k (cl_roomID c)) s1) in *. rewrite Ei1 in M2, R2, L1, L2.
  replace (room_participants o) with (room_members s r) in M2, R2 by (unfold room_members; by rewrite Ho).
  fold rest in M2, R2. rewrite R2 in Es', Ee.
  set (s3 := final _ s2) in Es', Ee.
  assert (same_rooms s2 s3) as S3.
  { unfold s3. destruct (bool_decide _); [by apply same_rooms_release|done]. }
  assert (sv_objs s3 !! k = Some c1) as Hc3.
  { unfold s3, when. destruct (bool_decide _); [rewrite release_objs|rewrite final_ret]; by rewrite O2. }
  destruct (finish_run s3 k (cl_roomID c) now c1 Hc3) as (F1 & F2 & F3). rewrite <- Es', Ei1 in F1, F2. rewrite <- Es' in F3.
  destruct (same_rooms_finish s2 k (cl_roomID c) now s3 S3) as [E1 E2]. rewrite <- Es' in E1, E2.
  assert (room_members s' r = rest) as Em by (unfold room_members in M2 |- *; by rewrite E2).
  split_and!; [done| | | | | |done..]; rewrite ?Ee, ?E1, ?R2.
  - intros id k' Hid Hk'. apply lookup_delete_Some in Hid as [Hne Hid]. apply elem_of_app. left.
    apply not_eq_sym in Hne. exact (notify_reaches s k c r id k' I Hc HR Hrm Hid Hne Hk').
  - rewrite !elem_of_app. auto.
  - rewrite !elem_of_app. auto.
  - intros E. rewrite !decide_True, bool_decide_eq_true_2 by done. split; [done|]. rewrite !elem_of_app.
    destruct (release_outputs (cl_roomID c) s2). auto.
  - intros E. rewrite !decide_False, bool_decide_eq_false_2 by done. split; [done|]. intros R. rewrite !elem_of_app.
    intros [H|[H|[H|H]]]; [..|by apply not_elem_of_nil in H|]; eapply emits_only_not_in in H;
      try done; first [apply keeps_notify|apply keeps_leave|apply keeps_finish|by intros []].
Qed.
End leaving.

Lemma disconnect_leaves_witness :
  ∃ c, sv_objs (cf_srv two_conf) !! 0%nat = Some c
    ∧ sv_clients (final (disconnect 0 demo_now) (cf_srv two_conf)) !! cl_id c = None.
Proof.
  destruct (sv_objs (cf_srv two_conf) !! 0%nat) as [c|] eqn:Hc; [|vm_compute in Hc; discriminate].
  assert ((λ c, (cl_roomID c, cl_id c)) <$> sv_objs (cf_srv two_conf) !! 0%nat = Some ("room-1", "alice.x1")) as E
    by (vm_compute; reflexivity).
  rewrite Hc in E. injection E as E1 E2. exists c. split; [done|].
  assert (sv_rooms (cf_srv two_conf) !! "room-1" = Some 0%nat) as Hr by (vm_compute; reflexivity).
  rewrite <- E1 in Hr.
  destruct (disconnect_leaves demo_srv_cfg demo_auth (30 * second) two_conf 0 c 0 demo_now two_reachable Hc)
    as (_ & _ & _ & _ & _ & _ & H & _); [by rewrite E1|exact Hr|exact H].
Defined.

(** ** What several components do together *)

(** The ownership questions of a schedule, in order. *)
Definition ownership_calls (evs : list out) : list out :=
  omap (λ ev, match ev with ClaimAsked _ | ReleaseAsked _ => Some ev | _ => None end) evs.

(** The shared ownership store as node [n] sees it, which knows of itself only. *)
Definition world_of (n : string) (l : InMemoryRoomLocator) : world InMemoryRoomLocator :=
  mkWorld l
    (registry_run (NewInMemoryNodeRegistry (15 * second)) [OpRegister 1 (with_state NodeReady (node_id_only n))])
    NewInMemoryLoadStore (newRoomRouter (mkPolicy defaultLoadWeights (f_of_Z 4) "") demo_cap 0) [].

(** A claim or a release of node [n], on the shared ownership store. *)
Definition answer (n : string) (ev : out) (w : world InMemoryRoomLocator)
    : option (Error + RoomResolution) * world InMemoryRoomLocator :=
  match ev with
  | ClaimAsked R =>
      let m := ClaimRoom (demo_cluster_node n) (λ _, Lost) 2 R in (Some (value m w), final m w)
  | ReleaseAsked R => (None, final (ReleaseRoom (demo_cluster_node n) R) w)
  | _ => (None, w)
  end.

Fixpoint answers (n : string) (evs : list out) (w : world InMemoryRoomLocator)
    : list (option (Error + RoomResolution)) * world InMemoryRoomLocator :=
  match evs with
  | [] => ([], w)
  | ev :: evs => let '(x, w1) := answer n ev w in let '(xs, w2) := answers n evs w1 in (x :: xs, w2)
  end.

(** The first client leaves while the second one is between its claim and its entry. *)
Definition crossing_schedule : list action :=
  [connect_action 0 "x1"] ++ join_actions 0 "room-1" 0 ++ [connect_action 1 "x2"]
  ++ [AJoin 1 (demo_join "room-1"); AClaimed 1 (inr (mkResolution "room-1" "a" true))]
  ++ [ALeave 0 0; ALeaveRoom 0; ALeaveCheck 0; ALeaveRelease 0; ALeaveFinish 0 demo_now]
  ++ [ASession 1 demo_env; ARoom 1 1; AEnter 1; AFinish 1 demo_env].

(** One room can end up served by two nodes.  The ownership of a room is given
    back by the last leaver while a joiner whose claim was already granted has not
    entered yet.  On the schedule where the first client of "room-1" disconnects
    between the second one's claim and its entry, the store answers the node's three
    questions with granted, granted and released; the node then hosts the room with
    the second client in it, and the store grants the room to another node. *)
Theorem leaver_releases_a_granted_room :
  let evs := match schedule crossing_schedule demo_srv_start with Some (evss, _) => concat evss | None => [] end in
  let w := (answers "a" (ownership_calls evs) (world_of "a" NewInMemoryRoomLocator)).2 in
  ownership_calls evs = [ClaimAsked "room-1"; ClaimAsked "room-1"; ReleaseAsked "room-1"]
  ∧ (answers "a" (ownership_calls evs) (world_of "a" NewInMemoryRoomLocator)).1
    = [Some (inr (mkResolution "room-1" "a" true)); Some (inr (mkResolution "room-1" "a" true)); None]
  ∧ (match schedule crossing_schedule demo_srv_start with
     | Some (_, cf) => match sv_rooms (cf_srv cf) !! "room-1" with
                       | Some r => Some (map_to_list (room_members (cf_srv cf) r))
                       | None => None
                       end
     | None => None
     end) = Some [("alice.x2", 1%nat)]
  ∧ value (ClaimRoom (demo_cluster_node "b") (λ _, Lost) 3 "room-1") (world_of "b" (Cluster.rooms w))
    = inr (mkResolution "room-1" "b" true).
Proof. vm_compute. split_and!; reflexivity. Qed.

(** The SFU refuses the join: the room stays registered without anybody, the client
    stays in the index, and its session stays connected, so that no sweep ever
    removes it. *)
Example failed_join_leaks :
  match schedule ([connect_action 0 "x1"; AJoin 0 (demo_join "room-1"); AClaimed 0 (inr (mkResolution "room-1" "a" true));
                   ASession 0 demo_env; ARoom 0 0; AEnter 0; AFailed 0; ALeave 0 0; ALeaveFinish 0 demo_now;
                   AQuiet (QSweep id (demo_now + 3600 * second))]) demo_srv_start with
  | Some (_, cf) =>
      (sv_rooms (cf_srv cf) !! "room-1", room_members (cf_srv cf) 0,
       State <$> Sessions.Get (sv_sessions (cf_srv cf)) "alice" "room-1")
      = (Some 0%nat, ∅, Some SessionConnected)
  | None => False
  end.
Proof. vm_compute. reflexivity. Qed.

(** A stale resume is refused after the room was claimed, and the claim is kept: no
    participant, no room, but the node owns it. *)
Example refused_resume_keeps_the_claim :
  let join := mkInbound "join" "room-1" "" [] "" false (Some (mkResume "lost" 3)) "" "" "" None in
  match schedule ([connect_action 0 "x1"; AJoin 0 join; AClaimed 0 (inr (mkResolution "room-1" "a" true));
                   ASession 0 demo_env; ALeave 0 0; ALeaveFinish 0 demo_now]) demo_srv_start with
  | Some (evss, cf) =>
      ownership_calls (concat evss) = [ClaimAsked "room-1"] ∧ sv_rooms (cf_srv cf) = ∅
  | None => False
  end.
Proof. vm_compute. split; reflexivity. Qed.

(** A disconnection ordered by another node runs the handler, whose closing of the
    channel ends the socket, whose reading goroutine runs the handler again: the
    others are told twice. *)
Example ordered_disconnect_runs_twice :
  let left := Queued 1 (FParticipantLeft "alice.x1" "Alice") in
  let s1 := final (disconnect 0 demo_now) (cf_srv two_conf) in
  value (deliverToParticipant "alice.x1" true []) (cf_srv two_conf) = inr (Some 0%nat)
  ∧ left ∈ outputs (disconnect 0 demo_now) (cf_srv two_conf)
  ∧ value (writePump_turn 0 true) (final (writePump_turn 0 true) (final (writePump_turn 0 true)
      (final (writePump_turn 0 true) s1))) = inr tt
  ∧ left ∈ outputs (disconnect 0 demo_now) s1.
Proof.
  split; [vm_compute; reflexivity|]. split; [|split; [vm_compute; reflexivity|]].
  all: apply list_elem_of_lookup_2 with (i := 0%nat); vm_compute; reflexivity.
Qed.
