(* ===== verification/RedisState.v ===== *)
(** * The Redis backend (internal/cluster: state_redis, state_redis_client)

    The shared store behind a cluster of several nodes.  The Redis server is a
    parameter: a type of server states with the commands the client sends, whose laws
    are the documented behaviour of those commands on the live keys and their
    remaining lifetimes ([pass d]: time passes).  The client, the two server-side
    scripts and the four locators are translated; a broken connection makes every
    command fail without effect.  The JSON text of a record is a codec. *)

From S2P Require Import Prelude Bytes GoStrings GoFloat ClusterTypes Registry RoomLocator LoadStore.

(** ** The server *)

Class RedisServer (R : Type) := {
  GET : string → R → option string;
  SET : string → string → Z → R → R;
  SETNX : string → string → Z → R → bool * R;
  DEL : string → R → R;
  EXPIRE : string → Z → R → R;
  SCAN : string → R → list string;
  pass : Z → R → R
}.

(** A lifetime of zero is none. *)
Definition lifetime (ttl : Z) : option Z := if ttl <=? 0 then None else Some ttl.

(** What is left of an entry after [d]. *)
Definition aged (d : Z) (e : string * option Z) : option (string * option Z) :=
  match e.2 with
  | None => Some e
  | Some t => if d <? t then Some (e.1, Some (t - d)) else None
  end.

(** [SCAN p] lists the keys that match the pattern [p*]; an element may be listed
    more than once. *)
Class RedisLaws (R : Type) `{RedisServer R} := {
  live : R → gmap string (string * option Z);
  law_GET k s : GET k s = fst <$> live s !! k;
  law_SET k v ttl s : live (SET k v ttl s) = <[k := (v, lifetime ttl)]> (live s);
  law_SETNX k v ttl s b s' : SETNX k v ttl s = (b, s') →
    if b then live s !! k = None ∧ live s' = <[k := (v, lifetime ttl)]> (live s)
    else is_Some (live s !! k) ∧ live s' = live s;
  law_DEL k s : live (DEL k s) = delete k (live s);
  law_EXPIRE k ttl s : live (EXPIRE k ttl s) = alter (λ e, (e.1, lifetime ttl)) k (live s);
  law_SCAN p s k : k ∈ SCAN p s ↔ String.prefix p k = true ∧ is_Some (live s !! k);
  law_pass d s : 0 ≤ d → live (pass d s) = omap (aged d) (live s)
}.

Class Codec (A : Type) := { to_json : A → string; of_json : string → option A }.

Class CodecLaws (A : Type) `{Codec A} := codec_roundtrip (a : A) : of_json (to_json a) = Some a.

(** src/internal/cluster/state_redis.go:44-58 [newRedisClusterStateWith] *)
Definition with_default_ttls (rc : RedisConfig) : RedisConfig :=
  mkRedis (redis_Enabled rc) (redis_Required rc) (redis_Timeout rc)
    (if redis_NodeTTL rc <=? 0 then 15 * second else redis_NodeTTL rc)
    (if redis_ParticipTTL rc <=? 0 then 60 * second else redis_ParticipTTL rc) (redis_RoomTTL rc).

Section redis.
Context {R : Type} `{RedisServer R}.
Variables (prefix : string) (rc : RedisConfig).

(** src/internal/cluster/state_redis.go:25-34 [RedisClusterState]  The connection:
    the server and whether it can be reached. *)
Record redisState := mkRedisState { rs_srv : R; rs_up : bool }.

Definition set_srv (s : R) (st : redisState) : redisState := mkRedisState s (rs_up st).

(** ** The client *)

(** src/internal/cluster/state_redis_client.go:87-93 [key] *)
Definition key (kind id : string) : string := prefix +:+ ":" +:+ kind +:+ ":" +:+ id.

(** src/internal/cluster/state_redis_client.go:95-128 [Ping, Get, Set, SetNX, Del, Expire]
    [None] is a failed command. *)
Definition c_Ping (st : redisState) : bool := rs_up st.
Definition c_Get (k : string) (st : redisState) : option (option string) :=
  if rs_up st then Some (GET k (rs_srv st)) else None.
Definition c_Set (k v : string) (ttl : Z) (st : redisState) : bool * redisState :=
  if rs_up st then (true, set_srv (SET k v ttl (rs_srv st)) st) else (false, st).
Definition c_SetNX (k v : string) (ttl : Z) (st : redisState) : option bool * redisState :=
  if rs_up st then let '(b, s) := SETNX k v ttl (rs_srv st) in (Some b, set_srv s st) else (None, st).
Definition c_Del (k : string) (st : redisState) : bool * redisState :=
  if rs_up st then (true, set_srv (DEL k (rs_srv st)) st) else (false, st).
Definition c_Expire (k : string) (ttl : Z) (st : redisState) : bool * redisState :=
  if rs_up st then (true, set_srv (EXPIRE k ttl (rs_srv st)) st) else (false, st).

(** src/internal/cluster/state_redis_client.go:22-30 [compareDeleteScript] *)
Definition compareDeleteScript (k want : string) (s : R) : Z * R :=
  if decide (GET k s = Some want) then (1, DEL k s) else (0, s).

(** src/internal/cluster/state_redis_client.go:130-137 [CompareDelete] *)
Definition c_CompareDelete (k want : string) (st : redisState) : option bool * redisState :=
  if rs_up st
  then let '(n, s) := compareDeleteScript k want (rs_srv st) in (Some (n =? 1), set_srv s st)
  else (None, st).

(** src/internal/cluster/state_redis_client.go:32-51 [recoverOwnerScript]  [None] when
    the stored generation is not a number. *)
Definition recoverOwnerScript (roomKey genKey oldOwner newOwner : string) (s : R) : option (Z * Z) * R :=
  match GET roomKey s with
  | None => (Some (0, 0), s)
  | Some cur =>
      match parse_int (default "0" (GET genKey s)) with
      | None => (None, s)
      | Some gen =>
          if decide (cur = newOwner) then (Some (2, gen), s)
          else if decide (cur ≠ oldOwner) then (Some (3, gen), s)
          else (Some (1, gen + 1), SET genKey (fmt_int (gen + 1)) 0 (SET roomKey newOwner 0 s))
      end
  end.

(** src/internal/cluster/state_redis_client.go:139-156 [RecoverOwner] *)
Definition c_RecoverOwner (roomKey genKey oldOwner newOwner : string) (st : redisState)
    : option (Z * Z) * redisState :=
  if rs_up st
  then let '(r, s) := recoverOwnerScript roomKey genKey oldOwner newOwner (rs_srv st) in (r, set_srv s st)
  else (None, st).

(** src/internal/cluster/state_redis_client.go:158-175 [ScanKeys, MGet] *)
Definition c_ScanKeys (p : string) (st : redisState) : option (list string) :=
  if rs_up st then Some (SCAN p (rs_srv st)) else None.
Definition c_MGet (keys : list string) (st : redisState) : option (list (option string)) :=
  if rs_up st then Some ((λ k, GET k (rs_srv st)) <$> keys) else None.

(** The values of the keys of one kind, as every listing reads them. *)
Definition values_of (kind : string) (st : redisState) : option (list string) :=
  match c_ScanKeys (key kind "") st with
  | None => None
  | Some keys => match c_MGet keys st with None => None | Some vals => Some (omap id vals) end
  end.

(** ** Room ownership *)

(** src/internal/cluster/state_redis.go:239-247 [GetOwner] *)
Definition redis_GetOwner (roomID : string) (st : redisState) : option string :=
  match c_Get (key "rooms" roomID) st with Some v => v | None => None end.

(** src/internal/cluster/state_redis.go:201-216 [Ownership] *)
Definition redis_Ownership (roomID : string) (st : redisState) : option (string * Z) :=
  match redis_GetOwner roomID st with
  | None => None
  | Some owner =>
      Some (owner, match c_Get (key "roomgen" roomID) st with
                   | Some (Some v) => default 0 (parse_int (string_of (TrimSpace (bytes_of v))))
                   | _ => 0
                   end)
  end.

(** src/internal/cluster/state_redis.go:218-237 [RecoverOwner] *)
Definition redis_RecoverOwner (roomID oldOwner newOwner : string) (st : redisState)
    : RecoverResult * redisState :=
  let '(r, st1) := c_RecoverOwner (key "rooms" roomID) (key "roomgen" roomID) oldOwner newOwner st in
  (match r with
   | None => mkRecover RecoverFailed "" 0
   | Some (code, gen) =>
       if code =? 1 then mkRecover RecoverOK newOwner gen
       else if code =? 2 then mkRecover RecoverAlready newOwner gen
       else if code =? 3 then mkRecover RecoverConflict (default "" (redis_GetOwner roomID st1)) gen
       else mkRecover RecoverFailed "" 0
   end, st1).

(** src/internal/cluster/state_redis.go:249-274 [ClaimOwner]  [e1] and [e2] are what
    happens between its commands: other nodes' commands, expiries, a broken
    connection. *)
Definition redis_ClaimOwner_between (e1 e2 : redisState → redisState) (roomID nodeID : string) (st : redisState)
    : string * bool * redisState :=
  let k := key "rooms" roomID in
  match c_SetNX k nodeID (redis_RoomTTL rc) st with
  | (None, st1) => ("", false, st1)
  | (Some true, st1) => (nodeID, true, st1)
  | (Some false, st1) =>
      let st2 := e1 st1 in
      match c_Get k st2 with
      | None => ("", false, st2)
      | Some (Some cur) => (cur, false, st2)
      | Some None =>
          match c_SetNX k nodeID (redis_RoomTTL rc) (e2 st2) with
          | (Some true, st3) => (nodeID, true, st3)
          | (_, st3) => ("", false, st3)
          end
      end
  end.
Definition redis_ClaimOwner := redis_ClaimOwner_between id id.

(** src/internal/cluster/state_redis.go:276-293 [SetOwner, RemoveOwner, ReleaseOwner] *)
Definition redis_SetOwner (roomID nodeID : string) (st : redisState) : redisState :=
  (c_Set (key "rooms" roomID) nodeID (redis_RoomTTL rc) st).2.
Definition redis_RemoveOwner (roomID : string) (st : redisState) : redisState :=
  (c_Del (key "rooms" roomID) st).2.
Definition redis_ReleaseOwner (roomID nodeID : string) (st : redisState) : bool * redisState :=
  let '(r, st1) := c_CompareDelete (key "rooms" roomID) nodeID st in (default false r, st1).

(** [strings.TrimPrefix] of a key of the kind. *)
Definition id_of (kind k : string) : string :=
  let n := String.length (key kind "") in String.substring n (String.length k - n) k.

(** src/internal/cluster/state_redis.go:305-327 [All] *)
Definition redis_All (st : redisState) : gmap string string :=
  match c_ScanKeys (key "rooms" "") st with
  | None => ∅
  | Some keys =>
      match c_MGet keys st with
      | None => ∅
      | Some vals =>
          list_to_map (omap (λ '(k, v), v ← v; Some (id_of "rooms" k, v)) (zip keys vals))
      end
  end.

(** src/internal/cluster/state_redis.go:295-303 [OwnedBy] *)
Definition redis_OwnedBy (nodeID : string) (st : redisState) : list string :=
  fst <$> filter (λ p, p.2 = nodeID) (map_to_list (redis_All st)).

#[local] Instance Redis_RoomLocator : RoomLocator redisState := {
  GetOwner := redis_GetOwner;
  ClaimOwner := redis_ClaimOwner;
  SetOwner := redis_SetOwner;
  RemoveOwner := redis_RemoveOwner;
  ReleaseOwner := redis_ReleaseOwner;
  OwnedBy := redis_OwnedBy;
  All := redis_All;
  Ownership := redis_Ownership;
  RecoverOwner := redis_RecoverOwner
}.

(** ** Participant locations *)

Context `{Codec ParticipantLocation}.

(** src/internal/cluster/state_redis.go:337-348 [Register, Remove] *)
Definition redis_Register_loc (loc : ParticipantLocation) (st : redisState) : redisState :=
  (c_Set (key "participants" (loc_ParticipantID loc)) (to_json loc) (redis_ParticipTTL rc) st).2.
Definition redis_Remove_loc (participantID : string) (st : redisState) : redisState :=
  (c_Del (key "participants" participantID) st).2.

(** src/internal/cluster/state_redis.go:350-362 [Lookup] *)
Definition redis_Lookup (participantID : string) (st : redisState) : option ParticipantLocation :=
  match c_Get (key "participants" participantID) st with
  | Some (Some v) => of_json v
  | _ => None
  end.

(** src/internal/cluster/state_redis.go:364-385 [all] *)
Definition redis_all_locs (st : redisState) : list ParticipantLocation :=
  omap of_json (default [] (values_of "participants" st)).

(** src/internal/cluster/state_redis.go:387-405 [InRoom, CountByNode] *)
Definition redis_InRoom (roomID : string) (st : redisState) : list ParticipantLocation :=
  filter (λ loc, loc_RoomID loc = roomID) (redis_all_locs st).
Definition redis_CountByNode (nodeID : string) (st : redisState) : Z :=
  Z.of_nat (length (filter (λ loc, loc_NodeID loc = nodeID) (redis_all_locs st))).

(** ** The node registry *)

Context `{Codec NodeInfo}.

(** src/internal/cluster/state_redis.go:123-135 [get] *)
Definition redis_get_node (nodeID : string) (st : redisState) : option NodeInfo :=
  match c_Get (key "nodes" nodeID) st with
  | Some (Some v) => of_json v
  | _ => None
  end.

(** src/internal/cluster/state_redis.go:90-104 [Register]  The error, if any. *)
Definition redis_Register (now : Z) (node : NodeInfo) (st : redisState) : option Error * redisState :=
  if is_blank (ID node) then (Some (error CodeBadRequest "node id is required"), st)
  else
    let node := with_seen now node in
    let node := if StartedAt node =? 0
                then match redis_get_node (ID node) st with
                     | Some cur => with_started (StartedAt cur) node
                     | None => node
                     end
                else node in
    let '(ok, st1) := c_Set (key "nodes" (ID node)) (to_json node) (redis_NodeTTL rc) st in
    (if ok then None else Some (error CodeClusterStateUnavailable "redis"), st1).

(** src/internal/cluster/state_redis.go:106-121 [Unregister, Heartbeat] *)
Definition redis_Unregister (nodeID : string) (st : redisState) : redisState :=
  (c_Del (key "nodes" nodeID) st).2.
Definition redis_Heartbeat (nodeID : string) (st : redisState) : bool * redisState :=
  let '(ok, st1) := c_Expire (key "nodes" nodeID) (redis_NodeTTL rc) st in
  (ok && bool_decide (redis_get_node nodeID st1 ≠ None), st1).

(** src/internal/cluster/state_redis.go:139-163 [List]  [sortNodes] is an insertion sort by
    id. *)
Definition redis_List (st : redisState) : list NodeInfo :=
  sort_by node_less (omap of_json (default [] (values_of "nodes" st))).

(** src/internal/cluster/state_redis.go:165-182 [IsStale, Counts] *)
Definition redis_IsStale (now : Z) (node : NodeInfo) : bool :=
  if redis_NodeTTL rc <=? 0 then false else time_sub now (LastSeen node) >? redis_NodeTTL rc.
Definition redis_Counts (now : Z) (st : redisState) : Z * Z * Z :=
  foldl (λ '(total, active, stale) n,
           if redis_IsStale now n then (total + 1, active, stale + 1)
           else if AcceptsSessions (State n) then (total + 1, active + 1, stale)
           else (total + 1, active, stale))
        (0, 0, 0) (redis_List st).

(** ** Loads and assignments *)

Context `{Codec NodeLoad}.

(** src/internal/cluster/state_redis.go:415-420 [PublishLoad] *)
Definition redis_PublishLoad (load : NodeLoad) (ttl : Z) (st : redisState) : bool * redisState :=
  c_Set (key "load" (load_NodeID load)) (to_json load) ttl st.

(** src/internal/cluster/state_redis.go:422-446 [LoadSnapshot]  [None] on an error. *)
Definition redis_LoadSnapshot (st : redisState) : option (list NodeLoad) :=
  match values_of "load" st with Some vs => Some (omap of_json vs) | None => None end.

(** src/internal/cluster/state_redis.go:448-471 [DeleteLoad, PutRoomAssignment, RoomAssignment] *)
Definition redis_DeleteLoad (nodeID : string) (st : redisState) : bool * redisState :=
  c_Del (key "load" nodeID) st.
Definition redis_PutRoomAssignment (roomID nodeID : string) (ttl : Z) (st : redisState) : bool * redisState :=
  c_Set (key "assign" roomID) nodeID (if ttl <=? 0 then 10 * second else ttl) st.
Definition redis_RoomAssignment (roomID : string) (st : redisState) : option string :=
  match c_Get (key "assign" roomID) st with Some v => v | None => None end.
End redis.

(** ** Keys *)

Lemma key_split prefix kind id : key prefix kind id = key prefix kind "" +:+ id.
Proof. unfold key. by rewrite !append_assoc_str. Qed.

Lemma key_inj prefix kind a b : key prefix kind a = key prefix kind b → a = b.
Proof. rewrite (key_split _ _ a), (key_split _ _ b). apply (inj (String.append _)). Qed.

Lemma rooms_not_gens prefix a b : key prefix "rooms" a ≠ key prefix "roomgen" b.
Proof. unfold key. intros E. apply (inj (String.append prefix)) in E. by simplify_eq. Qed.

Lemma id_of_key prefix kind id : id_of prefix kind (key prefix kind id) = id.
Proof. unfold id_of. rewrite (key_split _ _ id). apply substring_app. Qed.

Lemma scan_key prefix kind k : String.prefix (key prefix kind "") k = true ↔ ∃ id, k = key prefix kind id.
Proof. rewrite prefix_app. split; intros [id ->]; exists id; by rewrite <- key_split. Qed.

Lemma zip_fmap {A B} (f : A → B) l : zip l (f <$> l) = (λ a, (a, f a)) <$> l.
Proof. induction l as [|a l IH]; [done|]. csimpl. by rewrite IH. Qed.

(** ** The locator *)

Section laws.
Context {R : Type} `{RedisLaws R}.
Variables (prefix : string) (rc : RedisConfig).
Abbreviation K := (key prefix "rooms").
Abbreviation G := (key prefix "roomgen").
#[local] Existing Instance Redis_RoomLocator.
#[local] Instance redis_locator : RoomLocator (redisState (R := R)) := Redis_RoomLocator prefix rc.

(** The owners the live keys record. *)
Definition redis_owners (st : redisState (R := R)) : gmap string string :=
  list_to_map (omap (λ '(k, (v, _)), if String.prefix (K "") k then Some (id_of prefix "rooms" k, v) else None)
                 (map_to_list (live (rs_srv st)))).

Lemma redis_owners_lookup st r : redis_owners st !! r = fst <$> live (rs_srv st) !! K r.
Proof.
  unfold redis_owners. set (l := omap _ _).
  assert (∀ r' v, (r', v) ∈ l ↔ ∃ t, live (rs_srv st) !! K r' = Some (v, t)) as Hl.
  { intros r' v. unfold l. rewrite list_elem_of_omap. split.
    - intros ([k [v' t]] & Hin & E). apply elem_of_map_to_list in Hin.
      destruct (String.prefix (K "") k) eqn:Hp; [|done]. apply scan_key in Hp as [id ->].
      rewrite id_of_key in E. simplify_eq. eauto.
    - intros [t E]. exists (K r', (v, t)). split; [by apply elem_of_map_to_list|].
      rewrite (proj2 (scan_key prefix "rooms" (K r'))) by eauto. by rewrite id_of_key. }
  destruct (live (rs_srv st) !! K r) as [[v t]|] eqn:E; simpl.
  - apply elem_of_list_to_map_1'; [|apply Hl; eauto]. intros v' Hv. apply Hl in Hv as [t' E']. congruence.
  - apply not_elem_of_list_to_map_1. intros Hin. apply list_elem_of_fmap in Hin as ([r' v] & -> & Hin).
    apply Hl in Hin as [t E']. simpl in E. congruence.
Qed.

Lemma redis_owners_insert st s' r n : live s' = <[K r := n]> (live (rs_srv st)) →
  redis_owners (set_srv s' st) = <[r := n.1]> (redis_owners st).
Proof.
  intros E. apply map_eq. intros r'. rewrite redis_owners_lookup. simpl. rewrite E, !lookup_insert, redis_owners_lookup.
  destruct (decide (r = r')) as [->|Hne]; [by rewrite decide_True|].
  rewrite decide_False; [done|]. by intros ?%key_inj.
Qed.

Lemma redis_owners_delete st s' r : live s' = delete (K r) (live (rs_srv st)) →
  redis_owners (set_srv s' st) = delete r (redis_owners st).
Proof.
  intros E. apply map_eq. intros r'. rewrite redis_owners_lookup. simpl. rewrite E, !lookup_delete, redis_owners_lookup.
  destruct (decide (r = r')) as [->|Hne]; [by rewrite decide_True|].
  rewrite decide_False; [done|]. by intros ?%key_inj.
Qed.

Lemma redis_owners_same st s' : live s' = live (rs_srv st) → redis_owners (set_srv s' st) = redis_owners st.
Proof. intros E. apply map_eq. intros r. rewrite !redis_owners_lookup. simpl. by rewrite E. Qed.

Lemma redis_All_lookup st r :
  redis_All prefix st !! r = if rs_up st then redis_owners st !! r else None.
Proof.
  unfold redis_All, c_ScanKeys, c_MGet. destruct (rs_up st); [|done]. rewrite redis_owners_lookup.
  set (ks := SCAN _ _). set (l := omap _ _).
  assert (∀ r' v, (r', v) ∈ l ↔ ∃ t, live (rs_srv st) !! K r' = Some (v, t)) as Hl.
  { intros r' v. unfold l. rewrite list_elem_of_omap.
    rewrite zip_fmap. split.
    - intros ([k o] & Hin & E). apply list_elem_of_fmap in Hin as (k' & [= -> ->] & Hin).
      apply law_SCAN in Hin as [Hp _]. apply scan_key in Hp as [id ->]. rewrite id_of_key, law_GET in E.
      destruct (live (rs_srv st) !! key prefix "rooms" id) as [[v' t]|] eqn:E2; simplify_eq/=. eauto.
    - intros [t E]. exists (K r', Some v). split; [|simpl; by rewrite id_of_key].
      apply list_elem_of_fmap. exists (K r'). split; [by rewrite law_GET, E|].
      apply law_SCAN. split; [apply scan_key; eauto|by rewrite E]. }
  destruct (live (rs_srv st) !! K r) as [[v t]|] eqn:E; simpl.
  - apply elem_of_list_to_map_1'; [|apply Hl; eauto]. intros v' Hv. apply Hl in Hv as [t' E']. congruence.
  - apply not_elem_of_list_to_map_1. intros Hin. apply list_elem_of_fmap in Hin as ([r' v] & -> & Hin).
    apply Hl in Hin as [t E']. simpl in E. congruence.
Qed.

Lemma redis_GetOwner_spec st r : redis_GetOwner prefix r st = if rs_up st then redis_owners st !! r else None.
Proof.
  unfold redis_GetOwner, c_Get. destruct (rs_up st); [|done]. by rewrite redis_owners_lookup, law_GET.
Qed.

(** One claim, from a reachable or an unreachable server. *)
Lemma redis_ClaimOwner_spec st r n :
  redis_ClaimOwner prefix rc r n st =
    if rs_up st then
      match redis_owners st !! r with
      | Some cur => (cur, false, set_srv (SETNX (K r) n (redis_RoomTTL rc) (rs_srv st)).2 st)
      | None => (n, true, set_srv (SETNX (K r) n (redis_RoomTTL rc) (rs_srv st)).2 st)
      end
    else ("", false, st).
Proof.
  unfold redis_ClaimOwner, redis_ClaimOwner_between, c_SetNX. destruct (rs_up st) eqn:Eu; [|done].
  rewrite redis_owners_lookup. destruct (SETNX _ _ _ _) as [b s'] eqn:E. pose proof (law_SETNX _ _ _ _ _ _ E) as HS.
  simpl. destruct b.
  - destruct HS as [-> _]. done.
  - destruct HS as [[[v t] Hl] HS]. rewrite Hl. simpl. unfold c_Get, id. simpl. rewrite Eu.
    rewrite law_GET, HS, Hl. done.
Qed.

Lemma redis_SETNX_owners st r n :
  redis_owners (set_srv (SETNX (K r) n (redis_RoomTTL rc) (rs_srv st)).2 st)
  = match redis_owners st !! r with Some _ => redis_owners st | None => <[r := n]> (redis_owners st) end.
Proof.
  destruct (SETNX _ _ _ _) as [b s'] eqn:E. pose proof (law_SETNX _ _ _ _ _ _ E) as HS. rewrite redis_owners_lookup. simpl.
  destruct b.
  - destruct HS as [-> HS]. by rewrite (redis_owners_insert _ _ _ _ HS).
  - destruct HS as [[[v t] ->] HS]. by rewrite (redis_owners_same _ _ HS).
Qed.

Lemma redis_ReleaseOwner_spec st r n b st' :
  redis_ReleaseOwner prefix r n st = (b, st') →
  rs_up st' = rs_up st ∧
  if b then redis_owners st !! r = Some n ∧ redis_owners st' = delete r (redis_owners st)
  else redis_owners st' = redis_owners st ∧ (rs_up st = true → redis_owners st !! r ≠ Some n).
Proof.
  unfold redis_ReleaseOwner, c_CompareDelete, compareDeleteScript. destruct (rs_up st) eqn:Eu; [|by intros [= <- <-]].
  rewrite redis_owners_lookup, law_GET. case_decide as E; intros [= <- <-]; simpl; (split; [done|]).
  - split; [done|]. apply redis_owners_delete, law_DEL.
  - by rewrite (redis_owners_same st (rs_srv st)).
Qed.

Lemma redis_RecoverOwner_spec st r old new res st' :
  redis_RecoverOwner prefix r old new st = (res, st') →
  rs_up st' = rs_up st ∧
  match Outcome res with
  | RecoverOK => redis_owners st !! r = Some old ∧ redis_owners st' = <[r := new]> (redis_owners st)
  | RecoverAlready => redis_owners st !! r = Some new ∧ redis_owners st' = redis_owners st
  | _ => redis_owners st' = redis_owners st
  end.
Proof.
  unfold redis_RecoverOwner, c_RecoverOwner, recoverOwnerScript. destruct (rs_up st) eqn:Eu; [|by intros [= <- <-]].
  rewrite redis_owners_lookup, law_GET. destruct (live (rs_srv st) !! K r) as [[cur t]|] eqn:E; simpl;
    [|intros [= <- <-]; by rewrite (redis_owners_same st (rs_srv st))].
  destruct (parse_int _) as [gen|]; [|intros [= <- <-]; by rewrite (redis_owners_same st (rs_srv st))].
  destruct (decide (cur = new)) as [->|Hn];
    [intros [= <- <-]; simpl; split; [done|]; by rewrite (redis_owners_same st (rs_srv st))|].
  case_decide as Ho; intros [= <- <-]; simpl; (split; [done|]); [by rewrite (redis_owners_same st (rs_srv st))|].
  split; [f_equal; by destruct (decide (cur = old))|].
  change (<[r := new]> (redis_owners st)) with (<[r := (new, lifetime 0).1]> (redis_owners st)).
  rewrite <- (redis_owners_insert st (SET (K r) new 0 (rs_srv st)) r (new, lifetime 0)) by apply law_SET.
  apply map_eq. intros r'. rewrite !redis_owners_lookup. simpl. rewrite law_SET, lookup_insert_ne; [done|].
  intros E'. by apply (rooms_not_gens prefix r' r).
Qed.

(** The Redis locator keeps what the cluster is proved against. *)
#[local] Instance Redis_RoomLocatorLaws : RoomLocatorLaws (redisState (R := R)).
Proof.
  refine {| owners_of := redis_owners |}; simpl.
  - intros l r o. rewrite redis_GetOwner_spec. by destruct (rs_up l).
  - intros l r o. rewrite redis_All_lookup. by destruct (rs_up l).
  - intros l r o g. unfold redis_Ownership. rewrite redis_GetOwner_spec. destruct (rs_up l); [|done].
    destruct (redis_owners l !! r); [|done]. by intros [= <- _].
  - intros l r n o l'. rewrite redis_ClaimOwner_spec. destruct (rs_up l); [|done].
    destruct (redis_owners l !! r) eqn:E; [done|]. intros [= <- <-]. rewrite redis_SETNX_owners, E. done.
  - intros l r n o l'. rewrite redis_ClaimOwner_spec. destruct (rs_up l); [|by intros [= <- <-]].
    destruct (redis_owners l !! r) eqn:E; [|done]. intros [= <- <-]. rewrite redis_SETNX_owners, E. done.
  - intros l r n b l' E. apply redis_ReleaseOwner_spec in E as [_ E]. by destruct b; [|destruct E].
  - intros l r old new res l' E. apply redis_RecoverOwner_spec in E as [_ E]. by destruct (Outcome res).
Defined.

(** *** Against the in-memory locator *)

(** The in-memory locator forgets a room's generation with its owner, Redis keeps it:
    answers are compared up to generations. *)
Definition forget_gen (res : locator_res) : locator_res :=
  match res with
  | Recovered res => Recovered (mkRecover (Outcome res) (Owner res) 0)
  | _ => res
  end.

Definition gens_ok (n : Z) (st : redisState (R := R)) : Prop :=
  ∀ r v t, live (rs_srv st) !! G r = Some (v, t) → ∃ g, v = fmt_int g ∧ 0 ≤ g ≤ n.

Definition redis_rel (n : Z) (st : redisState (R := R)) (l : InMemoryRoomLocator) : Prop :=
  rs_up st = true ∧ redis_owners st = owners l ∧ gens_ok n st.

Lemma gens_ok_mono n n' st st' :
  n ≤ n' → (∀ r, live (rs_srv st') !! G r = live (rs_srv st) !! G r) → gens_ok n st → gens_ok n' st'.
Proof. intros Hn E Hg r v t L. rewrite E in L. destruct (Hg r v t L) as (g & -> & ?). exists g. split; [done|lia]. Qed.

Lemma claim_rel n st l r nd : redis_rel n st l →
  (redis_ClaimOwner prefix rc r nd st).1 = (mem_ClaimOwner r nd l).1
  ∧ redis_rel (n + 1) (redis_ClaimOwner prefix rc r nd st).2 (mem_ClaimOwner r nd l).2.
Proof.
  intros (Hu & Ho & Hg). rewrite redis_ClaimOwner_spec, Hu. unfold mem_ClaimOwner. rewrite <- Ho.
  assert (gens_ok (n + 1) (set_srv (SETNX (K r) nd (redis_RoomTTL rc) (rs_srv st)).2 st)) as Hg'.
  { eapply (gens_ok_mono n); [lia| |exact Hg]. intros r'. simpl.
    destruct (SETNX _ _ _ _) as [b s'] eqn:E. pose proof (law_SETNX _ _ _ _ _ _ E) as HS. simpl.
    destruct b; destruct HS as [_ ->]; [|done]. by rewrite lookup_insert_ne by apply rooms_not_gens. }
  pose proof (redis_SETNX_owners st r nd) as HO.
  destruct (redis_owners st !! r) as [cur|] eqn:E; simpl; (split; [done|]); split_and!; try done.
  rewrite HO, Ho. by case_bool_decide.
Qed.

Lemma release_rel n st l r nd : redis_rel n st l →
  (redis_ReleaseOwner prefix r nd st).1 = (mem_ReleaseOwner r nd l).1
  ∧ redis_rel (n + 1) (redis_ReleaseOwner prefix r nd st).2 (mem_ReleaseOwner r nd l).2.
Proof.
  intros (Hu & Ho & Hg). unfold redis_ReleaseOwner, c_CompareDelete, compareDeleteScript, mem_ReleaseOwner.
  rewrite Hu, law_GET, <- Ho, redis_owners_lookup.
  assert (redis_rel (n + 1) (set_srv (rs_srv st) st) l) as Hsame.
  { split_and!; [done|by rewrite (redis_owners_same st (rs_srv st))|]. by eapply (gens_ok_mono n); [lia| |exact Hg]. }
  destruct (live (rs_srv st) !! K r) as [[cur t]|] eqn:E; [|by rewrite decide_False].
  cbn [fmap option_fmap option_map fst]. destruct (decide (cur = nd)) as [->|Hne].
  - rewrite decide_True, bool_decide_eq_true_2 by done. simpl. split; [done|]. split_and!; [done| |].
    + unfold mem_RemoveOwner. simpl. rewrite <- ?Ho. apply redis_owners_delete, law_DEL.
    + eapply (gens_ok_mono n); [lia| |exact Hg]. intros r'. simpl. rewrite law_DEL.
      by rewrite lookup_delete_ne by apply rooms_not_gens.
  - rewrite decide_False, bool_decide_eq_false_2 by congruence. done.
Qed.

Lemma recover_rel n st l r old new : redis_rel n st l → 0 ≤ n < 2 ^ 63 - 1 →
  forget_gen (Recovered (redis_RecoverOwner prefix r old new st).1)
    = forget_gen (Recovered (mem_RecoverOwner r old new l).1)
  ∧ redis_rel (n + 1) (redis_RecoverOwner prefix r old new st).2 (mem_RecoverOwner r old new l).2.
Proof.
  intros (Hu & Ho & Hg) Hn.
  assert (∃ g, parse_int (default "0" (GET (G r) (rs_srv st))) = Some g ∧ 0 ≤ g ≤ n) as (g & Eg & Bg).
  { rewrite law_GET. destruct (live (rs_srv st) !! G r) as [[v t]|] eqn:E; [|exists 0; split; [vm_compute; reflexivity|lia]].
    destruct (Hg r v t E) as (g & -> & ?). exists g. simpl. split; [apply parse_fmt; lia|lia]. }
  assert (redis_rel (n + 1) (set_srv (rs_srv st) st) l) as Hsame.
  { split_and!; [done|by rewrite (redis_owners_same st (rs_srv st))|]. by eapply (gens_ok_mono n); [lia| |exact Hg]. }
  unfold redis_RecoverOwner, c_RecoverOwner, recoverOwnerScript, mem_RecoverOwner.
  rewrite Hu, Eg, <- Ho, redis_owners_lookup, law_GET.
  destruct (live (rs_srv st) !! K r) as [[cur t]|] eqn:E; simpl; [|done].
  destruct (decide (cur = new)) as [->|Hne]; [by rewrite bool_decide_eq_true_2|].
  rewrite bool_decide_eq_false_2 by done.
  destruct (decide (cur = old)) as [->|Hold].
  2:{ rewrite decide_True, (bool_decide_eq_true_2 (cur ≠ old)) by done. simpl. rewrite redis_GetOwner_spec. simpl.
      by rewrite Hu, (redis_owners_same st (rs_srv st)), redis_owners_lookup, E. }
  rewrite decide_False, (bool_decide_eq_false_2 (old ≠ old)) by (intros Hc; by apply Hc). simpl.
  split; [done|]. split_and!; simpl; [done| |].
  - destruct (redis_RecoverOwner_spec st r old new (mkRecover RecoverOK new (g + 1))
        (set_srv (SET (G r) (fmt_int (g + 1)) 0 (SET (K r) new 0 (rs_srv st))) st)) as (_ & _ & ->); [|by rewrite Ho].
    unfold redis_RecoverOwner, c_RecoverOwner, recoverOwnerScript. rewrite Hu, Eg, law_GET, E. simpl.
    rewrite decide_False by done. by rewrite decide_False by (intros Hc; by apply Hc).
  - intros r' v t'. cbn [rs_srv set_srv]. rewrite !law_SET. destruct (decide (r' = r)) as [->|Hr].
    + rewrite lookup_insert_eq. intros [= <- _]. exists (g + 1). split; [done|lia].
    + rewrite lookup_insert_ne by (by intros ?%key_inj). rewrite lookup_insert_ne by apply rooms_not_gens.
        intros L. destruct (Hg r' v t' L) as (g' & -> & ?). exists g'. split; [done|lia].
Qed.

Lemma run_rel ops : ∀ n st l, redis_rel n st l → 0 ≤ n → n + Z.of_nat (length ops) < 2 ^ 63 →
  forget_gen <$> (locator_run st ops).1 = forget_gen <$> (locator_run l ops).1
  ∧ redis_rel (n + Z.of_nat (length ops)) (locator_run st ops).2 (locator_run l ops).2.
Proof.
  induction ops as [|o ops IH]; intros n st l Hrel Hn Hlen; simpl; [by rewrite Z.add_0_r|].
  simpl in Hlen.
  assert (forget_gen (locator_step st o).1 = forget_gen (locator_step l o).1
    ∧ redis_rel (n + 1) (locator_step st o).2 (locator_step l o).2) as [H1 H2].
  { destruct o as [r nd|r nd|r old new]; simpl.
    - destruct (claim_rel n st l r nd Hrel) as [E1 E2].
      destruct (redis_ClaimOwner _ _ _ _ _) as [[o1 b1] s1], (mem_ClaimOwner _ _ _) as [[o2 b2] l2]. simpl in *.
      by simplify_eq.
    - destruct (release_rel n st l r nd Hrel) as [E1 E2].
      destruct (redis_ReleaseOwner _ _ _ _) as [b1 s1], (mem_ReleaseOwner _ _ _) as [b2 l2]. simpl in *. by simplify_eq.
    - destruct (recover_rel n st l r old new Hrel) as [E1 E2]; [lia|].
      by destruct (redis_RecoverOwner _ _ _ _ _) as [x1 s1], (mem_RecoverOwner _ _ _ _) as [x2 l2]. }
  destruct (locator_step st o) as [x1 s1], (locator_step l o) as [x2 l2]. simpl in H1, H2.
  destruct (IH (n + 1) s1 l2 H2) as [H3 H4]; [lia..|].
  destruct (locator_run s1 ops) as [xs1 s2], (locator_run l2 ops) as [xs2 l3]. simpl in *.
  split; [by f_equal|]. replace (n + 1 + Z.of_nat (length ops)) with (n + Z.of_nat (length (o :: ops))) in H4
    by (cbn [length]; lia). exact H4.
Qed.
End laws.

(** ** The theorems *)

Section theorems.
Context {R : Type} `{RedisLaws R}.
Variables (prefix : string) (rc : RedisConfig).

(** C15: The Redis locator answers like the in-memory one.  For every sequence of
    claims, releases and recoveries by any nodes, on an empty reachable server whose
    commands keep their documented laws, each call returns what the in-memory locator
    returns (winner, current owner, outcome; the ownership generation apart), and at
    the end both know the same owners. *)
Theorem redis_refines_memory ops (s : R) :
  live s = ∅ → Z.of_nat (length ops) < 2 ^ 63 →
  let redis := locator_run (H := Redis_RoomLocator prefix rc) (mkRedisState s true) ops in
  let memory := locator_run NewInMemoryRoomLocator ops in
  forget_gen <$> redis.1 = forget_gen <$> memory.1
  ∧ (∀ r, redis_GetOwner prefix r redis.2 = mem_GetOwner r memory.2)
  ∧ redis_All prefix redis.2 = mem_All memory.2.
Proof.
  intros Hs Hlen redis memory.
  destruct (run_rel prefix rc ops 0 (mkRedisState s true) NewInMemoryRoomLocator) as [H1 (Hu & Ho & _)]; [|lia..|].
  { split_and!; [done| |].
    - apply map_eq. intros r. rewrite redis_owners_lookup. simpl. by rewrite Hs.
    - intros r v t. simpl. by rewrite Hs. }
  unfold redis_locator in H1, Hu, Ho. split_and!; [exact H1| |].
  - intros r. rewrite redis_GetOwner_spec. unfold redis. rewrite Hu. unfold mem_GetOwner, memory. by rewrite <- Ho.
  - apply map_eq. intros r. rewrite redis_All_lookup. unfold redis. rewrite Hu. unfold mem_All, memory. by rewrite <- Ho.
Qed.

(** A claim on Redis is atomic, whatever happens between its commands.  Other
    nodes' commands, expiries and connection failures may come between the SETNX and
    the GET, and between the GET and the second SETNX: a claim that reports success
    took a key that was absent at that moment, under the claimer's name; a claim that
    reports another owner read that owner; and it reports neither when the server
    does not answer. *)
Theorem redis_claim_atomic e1 e2 room node st o won st' :
  redis_ClaimOwner_between prefix rc e1 e2 room node st = (o, won, st') →
  let k := key prefix "rooms" room in
  if won then
    o = node ∧ ∃ before, (before = st ∨ before = e2 (e1 (c_SetNX k node (redis_RoomTTL rc) st).2))
      ∧ rs_up before = true ∧ live (rs_srv before) !! k = None
      ∧ live (rs_srv st') = <[k := (node, lifetime (redis_RoomTTL rc))]> (live (rs_srv before))
  else
    o = "" ∨ (rs_up st' = true ∧ fst <$> live (rs_srv st') !! k = Some o).
Proof.
  intros E k. unfold redis_ClaimOwner_between in E. fold k in E.
  assert (∀ st0 b st1, c_SetNX k node (redis_RoomTTL rc) st0 = (Some b, st1) → rs_up st0 = true ∧
    if b then live (rs_srv st0) !! k = None
              ∧ live (rs_srv st1) = <[k := (node, lifetime (redis_RoomTTL rc))]> (live (rs_srv st0))
    else True) as HX.
  { intros st0 b st1. unfold c_SetNX. destruct (rs_up st0); [|done]. destruct (SETNX _ _ _ _) as [b' s'] eqn:ES.
    intros [= <- <-]. split; [done|]. apply law_SETNX in ES. by destruct b'. }
  destruct (c_SetNX k node _ st) as [[[|]|] st1] eqn:E1; [| |by simplify_eq; left].
  { simplify_eq. destruct (HX _ _ _ E1) as (? & ? & ?). split; [done|]. exists st. auto. }
  unfold c_Get in E. destruct (rs_up (e1 st1)) eqn:Eu; [|by simplify_eq; left].
  rewrite law_GET in E. destruct (live (rs_srv (e1 st1)) !! k) as [[cur t]|] eqn:El; simpl in E.
  - simplify_eq. right. by rewrite El.
  - destruct (c_SetNX k node _ (e2 (e1 st1))) as [[[|]|] st3] eqn:E3; simplify_eq; [|by left..].
    destruct (HX _ _ _ E3) as (? & ? & ?). split; [done|]. eexists. split; [by right|]. done.
Qed.

(** What Redis remembers, and for how long.  A location, a node record or a room
    assignment written once is read back until its time to live has passed and never
    after, if nobody writes it again; a room's owner stays for ever when no room
    lifetime is configured.  Nothing in the program writes a participant's location
    after its join, so with this backend a participant becomes unreachable for the
    other nodes once the configured lifetime (a minute, by default) has passed,
    however long it stays in the call. *)
Theorem redis_lifetimes `{CodecLaws ParticipantLocation} `{CodecLaws NodeInfo} (st : redisState (R := R)) loc node now
    room n d :
  rs_up st = true → 0 < redis_ParticipTTL rc → 0 < redis_NodeTTL rc → redis_RoomTTL rc = 0 → 0 ≤ d →
  is_blank (ID node) = false → StartedAt node ≠ 0 → live (rs_srv st) !! key prefix "rooms" room = None →
  let after st := set_srv (pass d (rs_srv st)) st in
  redis_Lookup prefix (loc_ParticipantID loc) (after (redis_Register_loc prefix rc loc st))
    = (if d <? redis_ParticipTTL rc then Some loc else None)
  ∧ redis_get_node prefix (ID node) (after (redis_Register prefix rc now node st).2)
    = (if d <? redis_NodeTTL rc then Some (with_seen now node) else None)
  ∧ redis_GetOwner prefix room (after (redis_ClaimOwner prefix rc room n st).2) = Some n.
Proof.
  intros Hu Hp Hn Hr Hd Hid Hst Hroom after. split_and!.
  - unfold redis_Lookup, redis_Register_loc, c_Set, c_Get, after. rewrite Hu. simpl. rewrite Hu.
    rewrite law_GET, law_pass, law_SET, lookup_omap, lookup_insert_eq by done. simpl. unfold aged, lifetime. simpl.
    rewrite (proj2 (Z.leb_gt _ _)) by lia. destruct (d <? redis_ParticipTTL rc); simpl; [apply codec_roundtrip|done].
  - unfold redis_Register, redis_get_node, c_Set, c_Get, after. rewrite Hid.
    assert ((StartedAt (with_seen now node) =? 0) = false) as -> by (apply Z.eqb_neq; by destruct node).
    rewrite Hu. simpl. rewrite Hu. rewrite law_GET, law_pass, law_SET, lookup_omap by done.
    replace (ID (with_seen now node)) with (ID node) by by destruct node.
    rewrite lookup_insert_eq. simpl. unfold aged, lifetime. simpl.
    rewrite (proj2 (Z.leb_gt _ _)) by lia. destruct (d <? redis_NodeTTL rc); simpl; [apply codec_roundtrip|done].
  - assert ((redis_ClaimOwner prefix rc room n st).2
      = set_srv (SETNX (key prefix "rooms" room) n (redis_RoomTTL rc) (rs_srv st)).2 st) as ->.
    { rewrite redis_ClaimOwner_spec, Hu. by destruct (redis_owners _ _ !! room). }
    unfold after, redis_GetOwner, c_Get. simpl. rewrite Hu, law_GET, law_pass, lookup_omap by done.
    destruct (SETNX _ _ _ _) as [b s'] eqn:ES. apply law_SETNX in ES. simpl. destruct b.
    + destruct ES as [_ ->]. rewrite lookup_insert_eq. simpl. unfold aged, lifetime. by rewrite Hr.
    + destruct ES as [[x Hx] _]. congruence.
Qed.
End theorems.

(** ** A server to try things on *)

(** Live keys with their remaining lifetimes; its SCAN lists every key twice, as the
    command may. *)
Definition toy_redis : Type := gmap string (string * option Z).

#[local] Instance toy_server : RedisServer toy_redis := {
  GET k s := fst <$> (s : gmap string (string * option Z)) !! k;
  SET k v ttl s := <[k := (v, lifetime ttl)]> (s : gmap string (string * option Z));
  SETNX k v ttl s := match (s : gmap string (string * option Z)) !! k with
                     | Some _ => (false, s)
                     | None => (true, <[k := (v, lifetime ttl)]> (s : gmap string (string * option Z)))
                     end;
  DEL k s := delete k (s : gmap string (string * option Z));
  EXPIRE k ttl s := alter (λ e, (e.1, lifetime ttl)) k (s : gmap string (string * option Z));
  SCAN p s := let l := filter (λ k, String.prefix p k = true) (map_to_list (s : gmap string (string * option Z))).*1 in l ++ l;
  pass d s := omap (aged d) (s : gmap string (string * option Z))
}.

#[local] Instance toy_server_laws : RedisLaws toy_redis.
Proof.
  refine {| live := λ s : toy_redis, (s : gmap string (string * option Z)) |}; try done.
  - intros k v ttl s b s'. simpl. unfold toy_redis in *. destruct (s !! k) eqn:E; intros [= <- <-]; [by split|done].
  - intros p s k. cbn [SCAN toy_server]. rewrite elem_of_app, list_elem_of_filter, list_elem_of_fmap. split.
    + intros [[Hp ([k' x] & -> & Hin)]|[Hp ([k' x] & -> & Hin)]]; apply elem_of_map_to_list in Hin; simpl; eauto.
    + intros [Hp [x Hx]]. left. split; [done|]. exists (k, x). split; [done|]. by apply elem_of_map_to_list.
Defined.

Definition demo_redis_config : RedisConfig := with_default_ttls (mkRedis true true 0 0 0 0).

Definition empty_redis : redisState (R := toy_redis) := mkRedisState ∅ true.

Definition demo_locator_ops : list locator_op :=
  [OpClaim "r" "a"; OpClaim "r" "b"; OpRecover "r" "a" "b"; OpRelease "r" "a"; OpRelease "r" "b"; OpClaim "r" "c"].

Lemma redis_refines_memory_witness :
  redis_GetOwner "p" "r"
    (locator_run (H := Redis_RoomLocator "p" demo_redis_config) empty_redis demo_locator_ops).2
  = mem_GetOwner "r" (locator_run NewInMemoryRoomLocator demo_locator_ops).2.
Proof.
  apply (redis_refines_memory (R := toy_redis) "p" demo_redis_config demo_locator_ops ∅).
  - reflexivity.
  - vm_compute. reflexivity.
Defined.

(** The key expires between the first SETNX and the GET, and the retry wins. *)
Lemma redis_claim_atomic_witness :
  let st := mkRedisState (R := toy_redis) {[ key "p" "rooms" "r" := ("a", Some 5) ]} true in
  let expire s := set_srv (pass 5 (rs_srv s)) s in
  redis_ClaimOwner_between "p" demo_redis_config expire id "r" "b" st
    = ("b", true, mkRedisState (R := toy_redis) {[ key "p" "rooms" "r" := ("b", None) ]} true)
  ∧ "b" = "b".
Proof.
  intros st expire.
  assert (redis_ClaimOwner_between "p" demo_redis_config expire id "r" "b" st
    = ("b", true, mkRedisState (R := toy_redis) {[ key "p" "rooms" "r" := ("b", None) ]} true)) as E
    by (vm_compute; reflexivity).
  split; [exact E|].
  destruct (redis_claim_atomic (R := toy_redis) "p" demo_redis_config expire id "r" "b" st _ _ _ E) as [H _]. exact H.
Defined.


#[local] Instance toy_loc_codec : Codec ParticipantLocation := {
  to_json l := string_of (enc_str (bytes_of (loc_ParticipantID l)) ++ enc_str (bytes_of (loc_RoomID l))
                          ++ enc_str (bytes_of (loc_NodeID l)) ++ []);
  of_json s := '(p, l) ← dec_string (bytes_of s); '(r, l) ← dec_string l; '(n, l) ← dec_string l; Some (mkLoc p r n)
}.

#[local] Instance toy_loc_codec_laws : CodecLaws ParticipantLocation.
Proof.
  intros l. cbn [of_json to_json toy_loc_codec]. rewrite bytes_of_string_of.
  do 3 (rewrite dec_enc_string; cbn [mbind option_bind]). by destruct l.
Qed.

Definition state_code (st : NodeState) : Z :=
  match st with NodeStarting => 0 | NodeReady => 1 | NodeActive => 2 | NodeShuttingDown => 3 | NodeOffline => 4 end.

Definition code_state (z : Z) : NodeState :=
  if z =? 0 then NodeStarting else if z =? 1 then NodeReady else if z =? 2 then NodeActive
  else if z =? 3 then NodeShuttingDown else NodeOffline.

#[local] Instance toy_node_codec : Codec NodeInfo := {
  to_json n := string_of (enc_str (bytes_of (ID n)) ++ enc_str (bytes_of (Host n)) ++ enc_Z (Port n)
                 ++ enc_str (bytes_of (Version n)) ++ enc_Z (state_code (State n)) ++ enc_Z (StartedAt n)
                 ++ enc_Z (LastSeen n) ++ enc_str (bytes_of (MediaAddr n)) ++ []);
  of_json s := '(i, l) ← dec_string (bytes_of s); '(h, l) ← dec_string l; '(p, l) ← dec_Z l; '(v, l) ← dec_string l;
    '(c, l) ← dec_Z l; '(t, l) ← dec_Z l; '(n, l) ← dec_Z l; '(m, l) ← dec_string l;
    Some (mkNodeInfo i h p v (code_state c) t n m)
}.

#[local] Instance toy_node_codec_laws : CodecLaws NodeInfo.
Proof.
  intros n. cbn [of_json to_json toy_node_codec]. rewrite bytes_of_string_of.
  do 2 (rewrite dec_enc_string; cbn [mbind option_bind]). rewrite dec_enc_Z; cbn [mbind option_bind].
  rewrite dec_enc_string; cbn [mbind option_bind]. do 3 (rewrite dec_enc_Z; cbn [mbind option_bind]).
  rewrite dec_enc_string; cbn [mbind option_bind]. by destruct n as [? ? ? ? [] ? ? ?].
Qed.

Definition demo_loc : ParticipantLocation := mkLoc "alice.x1" "r" "a".

(** A minute after its join, a participant who is still there cannot be found. *)
Lemma redis_lifetimes_witness :
  redis_Lookup "p" "alice.x1"
    (let st := redis_Register_loc "p" demo_redis_config demo_loc empty_redis in
     set_srv (pass (60 * second) (rs_srv st)) st) = None.
Proof.
  unshelve epose proof (redis_lifetimes (R := toy_redis) "p" demo_redis_config empty_redis demo_loc
    (with_started 7 (node_id_only "a")) 9 "r" "a" (60 * second) _ _ _ _ _ _ _ _) as (HL & _ & _).
  1-8: first [vm_compute; reflexivity|vm_compute; discriminate].
  etrans; [exact HL|vm_compute; reflexivity].
Defined.

(** SCAN may list a key twice, and nothing removes the duplicates: one participant
    counts as two. *)
Example scanned_twice_counted_twice :
  redis_CountByNode "p" "a" (redis_Register_loc "p" demo_redis_config demo_loc empty_redis) = 2.
Proof. vm_compute. reflexivity. Qed.

(** A takeover writes the owner without a lifetime, so a configured one is lost. *)
Example recovered_room_never_expires :
  let rc := with_default_ttls (mkRedis true true 0 0 0 (10 * second)) in
  let claimed := (redis_ClaimOwner "p" rc "r" "a" empty_redis).2 in
  let recovered := (redis_RecoverOwner "p" "r" "a" "b" claimed).2 in
  let after st := set_srv (pass (3600 * second) (rs_srv st)) st in
  redis_GetOwner "p" "r" (after claimed) = None ∧ redis_GetOwner "p" "r" (after recovered) = Some "b".
Proof. vm_compute. split; reflexivity. Qed.

(** The generation of a room outlives its owner here, and not in memory. *)
Example generation_survives_release :
  let ops := [OpClaim "r" "a"; OpRecover "r" "a" "b"; OpRelease "r" "b"; OpClaim "r" "c"] in
  redis_Ownership "p" "r" (locator_run (H := Redis_RoomLocator "p" demo_redis_config) empty_redis ops).2 = Some ("c", 1)
  ∧ mem_Ownership "r" (locator_run NewInMemoryRoomLocator ops).2 = Some ("c", 0).
Proof. vm_compute. split; reflexivity. Qed.
