(* ===== verification/History.v ===== *)
(** * Call history (internal/history)

    The recorder keeps one summary per open room and one record per logical
    participant, across its connections, and logs them when the room closes.  The
    summaries are reached only through the recorder's map until [RoomClosed] takes
    the summary out of it, so they are values here.  Every method holds the lock
    from its first access to its last, and is one step; the clock is read before the
    lock in some of them, so the readings are arguments in no particular order.

    The theorems: the counts of a summary count what happened, the process-wide
    counters are the sums of the summaries, logged and open
    ([history_accounting]); and the time attributed to each quality status is
    exactly the time the participant spent connected in it ([history_time_exact]). *)

From S2P Require Import Prelude Bytes GoStrings GoFloat.

(** src/internal/history/recorder.go:24-28 [statusGood] *)
Definition statusGood : string := "GOOD".
Definition statusWarning : string := "WARNING".
Definition statusPoor : string := "POOR".

(** ** Records *)

(** src/internal/history/summary.go:60-69 [ParticipantSummary]  The running
    aggregate of one measure (rttSum, rttN, rttMax, rttSeen; and the same for the
    jitter). *)
Record media_agg := mkAgg { agg_sum : float64; agg_n : Z; agg_max : float64; agg_seen : bool }.

(** src/internal/history/summary.go:41-48 [ParticipantSummary]  The quality fields,
    with the bookkeeping of the interval in progress. *)
Record qoe := mkQoE {
  QualityGoodDur : Z; QualityWarningDur : Z; QualityPoorDur : Z;
  DegradationCount : Z; Degradations : gmap string Z; Recoveries : Z; LastStatus : string;
  qualityStatus : string; qualitySince : Z
}.

(** src/internal/history/summary.go:35-70 [ParticipantSummary]  RTTMsAvg and RTTMsMax
    are set together or not at all, and so are the two of the jitter: they are the
    pairs [RTTMs] and [JitterMs]. *)
Record ParticipantSummary := mkParticipant {
  p_ParticipantID : string; p_Name : string; FirstJoinedAt : Z; LastLeftAt : Z; p_Reconnects : Z;
  connected : bool; p_qoe : qoe; RTTMs : option (float64 * float64); JitterMs : option (float64 * float64);
  p_rtt : media_agg; p_jitter : media_agg
}.

(** src/internal/history/summary.go:8-22 [RoomSummary] *)
Record RoomSummary := mkSummary {
  rs_RoomID : string; rs_StartedAt : Z; rs_EndedAt : Z; ParticipantsPeak : Z; rs_Reconnects : Z;
  NegotiationsTotal : Z; NegotiationFailures : Z; Participants : gmap string ParticipantSummary;
  activeCount : Z; negBaseStart : Z; negBaseFail : Z
}.

(** src/internal/history/summary.go:24-30 [Duration] *)
Definition room_Duration (rs : RoomSummary) : Z :=
  if rs_EndedAt rs =? 0 then 0 else time_sub (rs_EndedAt rs) (rs_StartedAt rs).

(** src/internal/history/summary.go:72-79 [Duration] *)
Definition participant_Duration (p : ParticipantSummary) : Z :=
  if LastLeftAt p =? 0 then 0 else time_sub (LastLeftAt p) (FirstJoinedAt p).

(** src/internal/history/recorder.go:37-42 [counters] *)
Record counters := mkCounters { summaries : Z; reconnects : Z; qualityDegraded : Z; qualityRecovered : Z }.

(** src/internal/history/recorder.go:55-68 [Recorder]  The probe's answers are
    arguments of the two methods that ask it. *)
Record Recorder := mkRecorder { rooms : gmap string RoomSummary; metrics : counters }.

(** src/internal/history/recorder.go:72-85 [NewRecorder] *)
Definition NewRecorder : Recorder := mkRecorder ∅ (mkCounters 0 0 0 0).

(** src/internal/history/recorder.go:325-360 [emit]  The two kinds of log records.
    Time stamps are kept as such; the log prints them. *)
Inductive log_record :=
| RoomLogged (roomId : string) (startedAt endedAt durationSeconds participantsPeak participants reconnects
    negotiations negotiationFailures : Z)
| ParticipantLogged (roomId participantId : string) (durationSeconds reconnects goodSeconds warningSeconds
    poorSeconds degradationCount : Z) (degradations : string) (recoveries : Z) (lastStatus : string)
    (rttMs jitterMs : option (float64 * float64)).

Abbreviation HM := (M Recorder log_record).

(** ** Helpers *)

(** [strings.ToUpper], as far as an ASCII result is concerned: apart from the ASCII
    letters, the only runes whose upper case is an ASCII letter are the dotless i
    (U+0131) and the long s (U+017F); the others are left as they are. *)
Fixpoint ToUpper (l : list byte) : list byte :=
  match l with
  | xc4 :: xb1 :: l => x49 :: ToUpper l
  | xc5 :: xbf :: l => x53 :: ToUpper l
  | c :: l => (if (97 <=? Z_of_byte c) && (Z_of_byte c <=? 122) then byte_of_Z (Z_of_byte c - 32) else c) :: ToUpper l
  | [] => []
  end.

(** src/internal/history/recorder.go:377-388 [normStatus] *)
Definition normStatus (s : string) : string :=
  let u := string_of (ToUpper (TrimSpace (bytes_of s))) in
  if decide (u = statusGood) then statusGood
  else if decide (u = statusWarning) then statusWarning
  else if decide (u = statusPoor) then statusPoor
  else "".

(** src/internal/history/recorder.go:406-413 [sortedKeys] *)
Definition sortedKeys {A} (m : gmap string A) : list string := sort_by str_lt (map_to_list m).*1.

(** src/internal/history/recorder.go:390-404 [degradationsString] *)
Definition degradationsString (m : gmap string Z) : string :=
  if decide (m = ∅) then ""
  else string_of (join_on x2c ((λ k, bytes_of (k +:+ "=" +:+ fmt_int (default 0 (m !! k)))) <$> sortedKeys m)).

(** src/internal/history/recorder.go:415-420 [nonNeg] *)
Definition nonNeg (v : Z) : Z := if v <? 0 then 0 else v.

(** src/internal/history/recorder.go:422-422 [round1] *)
Definition round1 (v : float64) : float64 :=
  f_div (f_of_Z (f_to_int (f_add (f_mul v (f_of_Z 10)) (f_scale 1 (-1))))) (f_of_Z 10).

(** The updates of a participant record. *)
Definition with_qoe (f : qoe → qoe) (p : ParticipantSummary) : ParticipantSummary :=
  mkParticipant (p_ParticipantID p) (p_Name p) (FirstJoinedAt p) (LastLeftAt p) (p_Reconnects p) (connected p)
    (f (p_qoe p)) (RTTMs p) (JitterMs p) (p_rtt p) (p_jitter p).

Definition with_presence (name : string) (left reconn : Z) (conn : bool) (p : ParticipantSummary)
    : ParticipantSummary :=
  mkParticipant (p_ParticipantID p) name (FirstJoinedAt p) left reconn conn
    (p_qoe p) (RTTMs p) (JitterMs p) (p_rtt p) (p_jitter p).

Definition with_buckets (good warning poor since : Z) (q : qoe) : qoe :=
  mkQoE good warning poor (DegradationCount q) (Degradations q) (Recoveries q) (LastStatus q) (qualityStatus q) since.

Definition with_status (s : string) (q : qoe) : qoe :=
  mkQoE (QualityGoodDur q) (QualityWarningDur q) (QualityPoorDur q) (DegradationCount q) (Degradations q)
    (Recoveries q) s s (qualitySince q).

Definition with_counts (n : Z) (reasons : gmap string Z) (rec : Z) (q : qoe) : qoe :=
  mkQoE (QualityGoodDur q) (QualityWarningDur q) (QualityPoorDur q) n reasons rec (LastStatus q) (qualityStatus q)
    (qualitySince q).

(** The updates of a room summary and of the recorder. *)
Definition with_participants (ps : gmap string ParticipantSummary) (peak reconn active : Z) (rs : RoomSummary)
    : RoomSummary :=
  mkSummary (rs_RoomID rs) (rs_StartedAt rs) (rs_EndedAt rs) peak reconn (NegotiationsTotal rs)
    (NegotiationFailures rs) ps active (negBaseStart rs) (negBaseFail rs).

Definition put_participant (l : string) (p : ParticipantSummary) (rs : RoomSummary) : RoomSummary :=
  with_participants (<[l := p]> (Participants rs)) (ParticipantsPeak rs) (rs_Reconnects rs) (activeCount rs) rs.

Definition set_room (room : string) (rs : RoomSummary) : HM unit :=
  modify (λ r, mkRecorder (<[room := rs]> (rooms r)) (metrics r)).

Definition count (f : counters → counters) : HM unit := modify (λ r, mkRecorder (rooms r) (f (metrics r))).

Definition add_reconnect (c : counters) : counters :=
  mkCounters (summaries c) (reconnects c + 1) (qualityDegraded c) (qualityRecovered c).

(** Run [f] on the open summary of [room]. *)
Definition with_room (room : string) (f : RoomSummary → HM unit) : HM unit :=
  if decide (room = "") then mret tt
  else
    rs ← gets (λ r, rooms r !! room);
    match rs with None => mret tt | Some rs => f rs end.

(** ... and on its record of [logical]. *)
Definition with_participant (room logical : string) (f : RoomSummary → ParticipantSummary → HM unit) : HM unit :=
  if decide (logical = "") then mret tt
  else with_room room (λ rs, match Participants rs !! logical with None => mret tt | Some p => f rs p end).

(** ** Operations *)

(** src/internal/history/recorder.go:88-105 [EnsureRoom] *)
Definition EnsureRoom (room : string) (now started failed : Z) : HM unit :=
  if decide (room = "") then mret tt
  else
    r ← get;
    match rooms r !! room with
    | Some _ => mret tt
    | None => set_room room (mkSummary room now 0 0 0 0 0 ∅ 0 started failed)
    end.

(** src/internal/history/recorder.go:290-310 [accrueQuality] *)
Definition accrueQuality (at_ : Z) (q : qoe) : qoe :=
  if qualitySince q =? 0
  then with_buckets (QualityGoodDur q) (QualityWarningDur q) (QualityPoorDur q) at_ q
  else
    let d := Z.max 0 (time_sub at_ (qualitySince q)) in
    if decide (qualityStatus q = statusWarning)
    then with_buckets (QualityGoodDur q) (wrap64 (QualityWarningDur q + d)) (QualityPoorDur q) at_ q
    else if decide (qualityStatus q = statusPoor)
    then with_buckets (QualityGoodDur q) (QualityWarningDur q) (wrap64 (QualityPoorDur q + d)) at_ q
    else with_buckets (wrap64 (QualityGoodDur q + d)) (QualityWarningDur q) (QualityPoorDur q) at_ q.

(** src/internal/history/recorder.go:125-133 [ParticipantJoined]  The record of a
    participant seen for the first time. *)
Definition no_media : media_agg := mkAgg (f_of_Z 0) 0 (f_of_Z 0) false.
Definition new_participant (logical name : string) (now : Z) : ParticipantSummary :=
  mkParticipant logical name now 0 0 false (mkQoE 0 0 0 0 ∅ 0 statusGood statusGood now) None None no_media no_media.

(** src/internal/history/recorder.go:134-146 [ParticipantJoined]  A participant the
    room knows comes (back): its record, and whether that is a reconnect. *)
Definition rejoined (name : string) (reconnect : bool) (now : Z) (p : ParticipantSummary)
    : ParticipantSummary * bool :=
  let again := reconnect || negb (connected p) in
  let name' := if decide (name ≠ "" ∧ p_Name p = "") then name else p_Name p in
  (with_qoe (λ q, with_buckets (QualityGoodDur q) (QualityWarningDur q) (QualityPoorDur q) now q)
     (with_presence name' 0 (if again then p_Reconnects p + 1 else p_Reconnects p) (connected p) p), again).

(** src/internal/history/recorder.go:107-153 [ParticipantJoined] *)
Definition ParticipantJoined (room logical name : string) (reconnect : bool) (now : Z) : HM unit :=
  if decide (logical = "") then mret tt
  else with_room room (λ rs,
    let wasConnected := match Participants rs !! logical with Some p => connected p | None => false end in
    let '(p, again) :=
      match Participants rs !! logical with
      | None => (new_participant logical name now, false)
      | Some p => rejoined name reconnect now p
      end in
    let active := if wasConnected then activeCount rs else activeCount rs + 1 in
    let peak := if negb wasConnected && (ParticipantsPeak rs <? active) then active else ParticipantsPeak rs in
    when again (count add_reconnect);;
    set_room room
      (with_participants
         (<[logical := with_presence (p_Name p) (LastLeftAt p) (p_Reconnects p) true p]> (Participants rs))
         peak (if again then rs_Reconnects rs + 1 else rs_Reconnects rs) active rs)).

(** src/internal/history/recorder.go:155-176 [ParticipantLeft] *)
Definition ParticipantLeft (room logical : string) (now : Z) : HM unit :=
  with_participant room logical (λ rs p,
    if negb (connected p) then mret tt
    else
      let p := with_qoe (accrueQuality now) p in
      set_room room
        (with_participants
           (<[logical := with_presence (p_Name p) now (p_Reconnects p) false p]> (Participants rs))
           (ParticipantsPeak rs) (rs_Reconnects rs) (activeCount rs - 1) rs)).

(** src/internal/history/recorder.go:197-214 [RecordQualityEvent]  The record after
    the event, and what it adds to the process counters. *)
Definition quality_event (evType reason status : string) (now : Z) (p : ParticipantSummary) : ParticipantSummary :=
  let p := if connected p then with_qoe (accrueQuality now) p else p in
  let s := normStatus status in
  let p := if decide (s ≠ "") then with_qoe (with_status s) p else p in
  let q := p_qoe p in
  if decide (evType = "quality_degraded")
  then
    let why := if decide (reason = "") then "UNKNOWN" else reason in
    with_qoe (with_counts (DegradationCount q + 1)
                (<[why := default 0 (Degradations q !! why) + 1]> (Degradations q)) (Recoveries q)) p
  else if decide (evType = "quality_recovered")
  then with_qoe (with_counts (DegradationCount q) (Degradations q) (Recoveries q + 1)) p
  else p.
Definition count_event (evType : string) (c : counters) : counters :=
  if decide (evType = "quality_degraded")
  then mkCounters (summaries c) (reconnects c) (qualityDegraded c + 1) (qualityRecovered c)
  else if decide (evType = "quality_recovered")
  then mkCounters (summaries c) (reconnects c) (qualityDegraded c) (qualityRecovered c + 1)
  else c.

(** src/internal/history/recorder.go:178-215 [RecordQualityEvent] *)
Definition RecordQualityEvent (room logical evType reason status : string) (now : Z) : HM unit :=
  with_participant room logical (λ rs p,
    set_room room (put_participant logical (quality_event evType reason status now p) rs);;
    count (count_event evType)).

(** src/internal/history/recorder.go:232-248 [RecordMediaSample]  One optional value
    into one aggregate. *)
Definition add_sample (v : option float64) (a : media_agg) : media_agg :=
  match v with
  | None => a
  | Some x =>
      mkAgg (f_add (agg_sum a) x) (agg_n a + 1)
        (if negb (agg_seen a) || f_lt (agg_max a) x then x else agg_max a) true
  end.

(** src/internal/history/recorder.go:217-249 [RecordMediaSample] *)
Definition RecordMediaSample (room logical : string) (rttMs jitterMs : option float64) : HM unit :=
  match rttMs, jitterMs with
  | None, None => mret tt
  | _, _ =>
      with_participant room logical (λ rs p,
        set_room room (put_participant logical
          (mkParticipant (p_ParticipantID p) (p_Name p) (FirstJoinedAt p) (LastLeftAt p) (p_Reconnects p) (connected p)
             (p_qoe p) (RTTMs p) (JitterMs p) (add_sample rttMs (p_rtt p)) (add_sample jitterMs (p_jitter p))) rs))
  end.

(** src/internal/history/recorder.go:362-375 [finalizeMedia]  One measure: average
    and maximum, when there were samples. *)
Definition finalize_agg (a : media_agg) (old : option (float64 * float64)) : option (float64 * float64) :=
  if 0 <? agg_n a then Some (f_div (agg_sum a) (f_of_Z (agg_n a)), agg_max a) else old.
Definition finalizeMedia (p : ParticipantSummary) : ParticipantSummary :=
  mkParticipant (p_ParticipantID p) (p_Name p) (FirstJoinedAt p) (LastLeftAt p) (p_Reconnects p) (connected p)
    (p_qoe p) (finalize_agg (p_rtt p) (RTTMs p)) (finalize_agg (p_jitter p) (JitterMs p)) (p_rtt p) (p_jitter p).

(** src/internal/history/recorder.go:270-279 [RoomClosed]  The loop's body; the
    records are independent, so the order of the walk does not matter. *)
Definition finalize_participant (end_ : Z) (p : ParticipantSummary) : ParticipantSummary :=
  let p := if connected p
           then let p := with_qoe (accrueQuality end_) p in
                with_presence (p_Name p) (LastLeftAt p) (p_Reconnects p) false p
           else p in
  let p := if LastLeftAt p =? 0 then with_presence (p_Name p) end_ (p_Reconnects p) (connected p) p else p in
  finalizeMedia p.

(** src/internal/history/recorder.go:265-279 [RoomClosed]  The finalized summary. *)
Definition finalize_room (end_ started failed : Z) (rs : RoomSummary) : RoomSummary :=
  mkSummary (rs_RoomID rs) (rs_StartedAt rs) end_ (ParticipantsPeak rs) (rs_Reconnects rs)
    (nonNeg (wrap64 (started - negBaseStart rs))) (nonNeg (wrap64 (failed - negBaseFail rs)))
    (finalize_participant end_ <$> Participants rs) (activeCount rs) (negBaseStart rs) (negBaseFail rs).

(** src/internal/history/recorder.go:325-360 [emit] *)
Definition seconds_of (d : Z) : Z := f_to_int (Seconds d).
Definition round_pair (v : option (float64 * float64)) : option (float64 * float64) :=
  (λ '(a, m), (round1 a, round1 m)) <$> v.
Definition participant_record (room : string) (p : ParticipantSummary) : log_record :=
  let q := p_qoe p in
  ParticipantLogged room (p_ParticipantID p) (seconds_of (participant_Duration p)) (p_Reconnects p)
    (seconds_of (QualityGoodDur q)) (seconds_of (QualityWarningDur q)) (seconds_of (QualityPoorDur q))
    (DegradationCount q) (degradationsString (Degradations q)) (Recoveries q) (LastStatus q)
    (round_pair (RTTMs p)) (round_pair (JitterMs p)).
Definition log_participant (room : string) (ps : gmap string ParticipantSummary) (id : string) : HM unit :=
  match ps !! id with
  | Some p => emit (participant_record room p)
  | None => mret tt
  end.
Definition room_record (rs : RoomSummary) : log_record :=
  RoomLogged (rs_RoomID rs) (rs_StartedAt rs) (rs_EndedAt rs) (seconds_of (room_Duration rs))
    (ParticipantsPeak rs) (Z.of_nat (size (Participants rs))) (rs_Reconnects rs)
    (NegotiationsTotal rs) (NegotiationFailures rs).
Definition emit_summary (rs : RoomSummary) : HM unit :=
  emit (room_record rs);;
  for_each (sortedKeys (Participants rs)) (log_participant (rs_RoomID rs) (Participants rs)).

(** src/internal/history/recorder.go:251-288 [RoomClosed] *)
Definition count_summary (c : counters) : counters :=
  mkCounters (summaries c + 1) (reconnects c) (qualityDegraded c) (qualityRecovered c).
Definition RoomClosed (room : string) (now started failed : Z) : HM unit :=
  with_room room (λ rs,
    modify (λ r, mkRecorder (delete room (rooms r)) (count_summary (metrics r)));;
    emit_summary (finalize_room now started failed rs)).

(** src/internal/history/recorder.go:313-323 [MetricsSnapshot] *)
Definition MetricsSnapshot (r : Recorder) : counters := metrics r.

(** ** Runs of the recorder *)

Inductive recorder_op :=
| REnsure (room : string) (started failed : Z)
| RJoined (room logical name : string) (reconnect : bool)
| RLeft (room logical : string)
| RQuality (room logical evType reason status : string)
| RSample (room logical : string) (rttMs jitterMs : option float64)
| RClosed (room : string) (started failed : Z).

Definition perform (o : Z * recorder_op) : HM unit :=
  let now := o.1 in
  match o.2 with
  | REnsure room a b => EnsureRoom room now a b
  | RJoined room l name rc => ParticipantJoined room l name rc now
  | RLeft room l => ParticipantLeft room l now
  | RQuality room l ev reason st => RecordQualityEvent room l ev reason st now
  | RSample room l a b => RecordMediaSample room l a b
  | RClosed room a b => RoomClosed room now a b
  end.

Definition run (tr : list (Z * recorder_op)) : HM unit := for_each tr perform.

(** The record of a participant in an open room. *)
Definition look (room l : string) (r : Recorder) : option ParticipantSummary :=
  rooms r !! room ≫= λ rs, Participants rs !! l.

(** An operation leaves the recorder alone when its room has no open summary (or
    does not know the participant), and otherwise works on that summary. *)
Lemma with_room_ind (Q : Recorder → list log_record → Prop) room f s :
  (room = "" ∨ rooms s !! room = None → Q s []) →
  (∀ rs, room ≠ "" → rooms s !! room = Some rs → Q (final (f rs) s) (outputs (f rs) s)) →
  Q (final (with_room room f) s) (outputs (with_room room f) s).
Proof.
  intros Hn Hf. unfold with_room. destruct (decide (room = "")) as [|Hr]; [by apply Hn; left|].
  autorewrite with mrun. destruct (rooms s !! room) as [rs|] eqn:E; [|by apply Hn; right].
  rewrite app_nil_l. by apply Hf.
Qed.

Lemma with_participant_ind (Q : Recorder → list log_record → Prop) room l f s :
  (room = "" ∨ l = "" ∨ look room l s = None → Q s []) →
  (∀ rs p, room ≠ "" → l ≠ "" → rooms s !! room = Some rs → Participants rs !! l = Some p →
     Q (final (f rs p) s) (outputs (f rs p) s)) →
  Q (final (with_participant room l f) s) (outputs (with_participant room l f) s).
Proof.
  intros Hn Hf. unfold with_participant. destruct (decide (l = "")); [apply Hn; auto|].
  apply with_room_ind.
  - intros [?|E]; apply Hn; [by left|]. right; right. unfold look. by rewrite E.
  - intros rs ? E. destruct (Participants rs !! l) eqn:El; [by apply Hf|].
    apply Hn. right; right. unfold look. by rewrite E.
Qed.

(** ** The books of a summary *)

Definition b2z (b : bool) : Z := if b then 1 else 0.

(** What holds of every record of an open summary, filed under [l]. *)
Definition part_ok (l : string) (p : ParticipantSummary) : Prop :=
  p_ParticipantID p = l
  ∧ DegradationCount (p_qoe p) = msum id (Degradations (p_qoe p))
  ∧ agg_seen (p_rtt p) = (0 <? agg_n (p_rtt p)) ∧ 0 ≤ agg_n (p_rtt p)
  ∧ agg_seen (p_jitter p) = (0 <? agg_n (p_jitter p)) ∧ 0 ≤ agg_n (p_jitter p).

Definition room_ok (room : string) (rs : RoomSummary) : Prop :=
  rs_RoomID rs = room
  ∧ activeCount rs = msum (λ p, b2z (connected p)) (Participants rs)
  ∧ activeCount rs ≤ ParticipantsPeak rs ≤ Z.of_nat (size (Participants rs))
  ∧ rs_Reconnects rs = msum p_Reconnects (Participants rs)
  ∧ map_Forall part_ok (Participants rs).

Definition recorder_ok (r : Recorder) : Prop := map_Forall room_ok (rooms r).

(** One more entry in a table of counts. *)
Lemma msum_incr (m : gmap string Z) k : msum id (<[k := default 0 (m !! k) + 1]> m) = msum id m + 1.
Proof.
  destruct (m !! k) as [n|] eqn:E; simpl.
  - rewrite (msum_update id m k n) by done. unfold id. lia.
  - rewrite msum_insert by done. unfold id. lia.
Qed.

Lemma msum_b2z_le {A} (f : A → bool) (m : gmap string A) : msum (λ a, b2z (f a)) m ≤ Z.of_nat (size m).
Proof.
  induction m as [|k a m E IH] using map_ind; [done|].
  rewrite msum_insert, map_size_insert_None by done. unfold b2z at 1. destruct (f a); lia.
Qed.

Lemma msum_b2z_size {A} (f : A → bool) (m : gmap string A) :
  msum (λ a, b2z (f a)) m = Z.of_nat (size (filter (λ '(_, a), f a = true) m)).
Proof.
  induction m as [|k a m E IH] using map_ind; [done|]. rewrite msum_insert by done. destruct (f a) eqn:Ef; simpl.
  - rewrite map_filter_insert_True, map_size_insert_None; [lia| |done]. apply map_lookup_filter_None. by left.
  - rewrite map_filter_insert_False by (simpl; congruence). rewrite delete_id by done. lia.
Qed.

Lemma add_sample_ok v a :
  agg_seen a = (0 <? agg_n a) → 0 ≤ agg_n a →
  agg_seen (add_sample v a) = (0 <? agg_n (add_sample v a)) ∧ 0 ≤ agg_n (add_sample v a).
Proof. destruct v; simpl; [|done]. intros _ H. split; [|lia]. symmetry. by apply Z.ltb_lt; lia. Qed.

Lemma accrueQuality_counts t q :
  DegradationCount (accrueQuality t q) = DegradationCount q
  ∧ Degradations (accrueQuality t q) = Degradations q ∧ Recoveries (accrueQuality t q) = Recoveries q.
Proof. unfold accrueQuality. repeat case_match; done. Qed.

(** What a quality event adds to the counts of the record. *)
Lemma quality_event_counts ev reason st now p l :
  part_ok l p →
  part_ok l (quality_event ev reason st now p)
  ∧ connected (quality_event ev reason st now p) = connected p
  ∧ p_Reconnects (quality_event ev reason st now p) = p_Reconnects p
  ∧ DegradationCount (p_qoe (quality_event ev reason st now p))
    = DegradationCount (p_qoe p) + b2z (bool_decide (ev = "quality_degraded"))
  ∧ Recoveries (p_qoe (quality_event ev reason st now p))
    = Recoveries (p_qoe p) + b2z (bool_decide (ev = "quality_recovered")).
Proof.
  intros (E & Ed & Ea). unfold quality_event.
  set (p1 := if connected p then with_qoe (accrueQuality now) p else p).
  assert (part_ok l p1 ∧ connected p1 = connected p ∧ p_Reconnects p1 = p_Reconnects p
          ∧ DegradationCount (p_qoe p1) = DegradationCount (p_qoe p) ∧ Recoveries (p_qoe p1) = Recoveries (p_qoe p))
    as (H1 & <- & <- & <- & <-).
  { unfold p1. destruct (connected p) eqn:Ec; [|rewrite Ec; by unfold part_ok].
    destruct (accrueQuality_counts now (p_qoe p)) as (C1 & C2 & C3).
    unfold part_ok. simpl. rewrite C1, C2, C3, Ec. done. }
  clearbody p1. clear E Ed Ea p.
  set (p2 := if decide (normStatus st ≠ "") then with_qoe (with_status (normStatus st)) p1 else p1).
  assert (part_ok l p2 ∧ connected p2 = connected p1 ∧ p_Reconnects p2 = p_Reconnects p1
          ∧ DegradationCount (p_qoe p2) = DegradationCount (p_qoe p1) ∧ Recoveries (p_qoe p2) = Recoveries (p_qoe p1))
    as (H2 & <- & <- & <- & <-) by (unfold p2; by destruct (decide _)).
  clearbody p2. clear H1 p1. destruct H2 as (E & Ed & ? & ? & ? & ?).
  repeat case_decide; simplify_eq/=; unfold part_ok; simpl; rewrite ?msum_incr, ?Z.add_0_r;
    repeat case_bool_decide; try done; split_and!; first [done | simpl; lia].
Qed.

(** A record of the room changes: its books stay in order when the totals follow. *)
Lemma room_ok_update room rs l p p' peak reconn active :
  room_ok room rs → Participants rs !! l = Some p → part_ok l p' →
  reconn = rs_Reconnects rs + (p_Reconnects p' - p_Reconnects p) →
  active = activeCount rs + (b2z (connected p') - b2z (connected p)) →
  active ≤ peak → peak = ParticipantsPeak rs ∨ peak = active →
  room_ok room (with_participants (<[l := p']> (Participants rs)) peak reconn active rs).
Proof.
  intros (E & Ea & Hp & Er & Hps) El Hp' -> -> Hle Hpk. unfold room_ok. simpl.
  rewrite !(msum_update _ (Participants rs) l p) by done.
  rewrite map_size_insert_Some by (by rewrite El). split_and!; [done|lia| | |lia|].
  - lia.
  - pose proof (msum_b2z_le connected (<[l := p']> (Participants rs))) as Hb.
    rewrite (msum_update _ _ l p), map_size_insert_Some in Hb by (by rewrite ?El). lia.
  - by apply map_Forall_insert_2.
Qed.

(** A participant the room did not know joins. *)
Lemma room_ok_insert room rs l p peak :
  room_ok room rs → Participants rs !! l = None → part_ok l p → connected p = true → p_Reconnects p = 0 →
  activeCount rs + 1 ≤ peak → peak = ParticipantsPeak rs ∨ peak = activeCount rs + 1 →
  room_ok room (with_participants (<[l := p]> (Participants rs)) peak (rs_Reconnects rs) (activeCount rs + 1) rs).
Proof.
  intros (E & Ea & Hp & Er & Hps) El Hp' Ec E0 Hle Hpk. unfold room_ok. simpl.
  rewrite !msum_insert, map_size_insert_None, Ec, E0 by done.
  pose proof (msum_b2z_le connected (Participants rs)). simpl. split_and!; [done|lia|lia|lia|lia|].
  by apply map_Forall_insert_2.
Qed.

(** A process counter, what a summary contributes to it, and what of it is logged. *)
Record measure := mkMeasure { m_count : counters → Z; m_room : RoomSummary → Z; m_log : log_record → Z }.

Definition of_summaries : measure :=
  mkMeasure summaries (λ _, 0) (λ e, match e with RoomLogged _ _ _ _ _ _ _ _ _ => 1 | _ => 0 end).

Definition of_reconnects : measure :=
  mkMeasure reconnects rs_Reconnects (λ e, match e with RoomLogged _ _ _ _ _ _ n _ _ => n | _ => 0 end).

Definition of_degradations : measure :=
  mkMeasure qualityDegraded (λ rs, msum (λ p, DegradationCount (p_qoe p)) (Participants rs))
    (λ e, match e with ParticipantLogged _ _ _ _ _ _ _ n _ _ _ _ _ => n | _ => 0 end).

Definition of_recoveries : measure :=
  mkMeasure qualityRecovered (λ rs, msum (λ p, Recoveries (p_qoe p)) (Participants rs))
    (λ e, match e with ParticipantLogged _ _ _ _ _ _ _ _ _ n _ _ _ => n | _ => 0 end).

Definition measures : list measure := [of_summaries; of_reconnects; of_degradations; of_recoveries].

Definition logged (m : measure) (w : list log_record) : Z := foldr (λ e z, m_log m e + z) 0 w.

(** What the counter holds beyond the open summaries. *)
Definition due (m : measure) (r : Recorder) : Z := m_count m (metrics r) - msum (m_room m) (rooms r).

Lemma logged_app m w1 w2 : logged m (w1 ++ w2) = logged m w1 + logged m w2.
Proof. unfold logged. induction w1 as [|e w1 IH]; simpl; [done|]. rewrite IH. lia. Qed.

Lemma sortedKeys_perm {A} (m : gmap string A) : sortedKeys m ≡ₚ (map_to_list m).*1.
Proof. apply sort_by_perm. Qed.

(** Logging every participant, in the order of their names, logs each once. *)
Lemma logged_participants m f room ps s :
  (∀ p, m_log m (participant_record room p) = f p) →
  logged m (outputs (for_each (sortedKeys ps) (log_participant room ps)) s) = msum f ps.
Proof.
  intros Hf.
  assert (∀ ids, logged m (outputs (for_each ids (log_participant room ps)) s)
    = foldr (λ id z, (if ps !! id is Some p then f p else 0) + z) 0 ids) as ->.
  { intros ids. induction ids as [|id ids IH]; [done|]. simpl. rewrite outputs_bind, logged_app.
    unfold log_participant at 1 3. destruct (ps !! id); autorewrite with mrun; rewrite IH; [|done].
    unfold logged. simpl. by rewrite Hf, Z.add_0_r. }
  rewrite (foldr_permutation eq (λ id z, (if ps !! id is Some p then f p else 0) + z) 0
             (sortedKeys ps) (map_to_list ps).*1); [|intros; lia|apply sortedKeys_perm].
  clear. unfold msum. rewrite map_fold_foldr.
  assert (∀ k p, (k, p) ∈ map_to_list ps → ps !! k = Some p) as H by (intros k p; by rewrite elem_of_map_to_list).
  induction (map_to_list ps) as [|[k p] l IH]; [done|]. csimpl. rewrite IH by set_solver.
  by rewrite (H k p) by set_solver.
Qed.

(** [ledger s s' w]: a step from [s] to [s'] that logs [w] keeps the books. *)
Definition ledger (s s' : Recorder) (w : list log_record) : Prop :=
  recorder_ok s → recorder_ok s' ∧ Forall (λ m, due m s' = due m s + logged m w) measures.

Lemma ledger_same s : ledger s s [].
Proof. intros H. split; [done|]. repeat constructor; unfold logged; simpl; lia. Qed.

(** The summary of an open room changes with the counters. *)
Lemma ledger_update s room rs rs' c :
  rooms s !! room = Some rs →
  (recorder_ok s → room_ok room rs → room_ok room rs') →
  (room_ok room rs → Forall (λ m, m_count m c - m_count m (metrics s) = m_room m rs' - m_room m rs) measures) →
  ledger s (mkRecorder (<[room := rs']> (rooms s)) c) [].
Proof.
  intros Er Hok Hb Hs. pose proof (Hs room rs Er) as Hrs. split; [by apply map_Forall_insert_2; auto|].
  eapply Forall_impl; [apply (Hb Hrs)|]. intros m Hm. unfold due, logged. simpl in *.
  rewrite (msum_update _ (rooms s) room rs) by done. lia.
Qed.

Lemma EnsureRoom_ledger room now a b s :
  ledger s (final (EnsureRoom room now a b) s) (outputs (EnsureRoom room now a b) s).
Proof.
  unfold EnsureRoom. case_decide; [apply ledger_same|]. autorewrite with mrun.
  destruct (rooms s !! room) eqn:E; [apply ledger_same|]. intros Hs. split.
  - apply map_Forall_insert_2; [|done]. unfold room_ok. simpl. by rewrite map_size_empty, !msum_empty.
  - repeat constructor; unfold due; simpl; rewrite msum_insert by done; unfold logged; simpl;
      rewrite ?msum_empty; lia.
Qed.

(** Four equations, one per counter, of sums over the participants in which one
    record changed or appeared. *)
Ltac balance :=
  repeat constructor; simpl; rewrite ?msum_insert by done;
  repeat match goal with H : ?ps !! ?l = Some ?p |- context [msum ?f (<[?l := _]> ?ps)] =>
    rewrite (msum_update f ps l p) by done
  end; simpl; try lia.

Lemma ParticipantJoined_ledger room l name rc now s :
  ledger s (final (ParticipantJoined room l name rc now) s) (outputs (ParticipantJoined room l name rc now) s).
Proof.
  unfold ParticipantJoined. case_decide; [apply ledger_same|].
  apply with_room_ind; [intros _; apply ledger_same|]. intros rs Hr Er. cbv zeta.
  destruct (Participants rs !! l) as [p|] eqn:El.
  - unfold rejoined. set (again := rc || negb (connected p)).
    set (peak := if negb (connected p) && _ then _ else _).
    assert (ParticipantsPeak rs ≤ peak ∧ (if connected p then activeCount rs else activeCount rs + 1) ≤ Z.max peak (activeCount rs)
      ∧ (peak = ParticipantsPeak rs ∨ peak = if connected p then activeCount rs else activeCount rs + 1)) as (? & ? & ?).
    { unfold peak. destruct (connected p); simpl; [lia|]. case_match; zbool; lia. }
    clearbody peak again.
    assert (room_ok room rs → part_ok l p) as Hp by (intros (_ & _ & _ & _ & Hps); by apply Hps).
    destruct again; unfold count, set_room, when; autorewrite with mrun; (apply (ledger_update s _ rs); [done| |]).
    + intros _ Hrs. pose proof Hrs as (_ & Ea & [Hk _] & _ & Hps). apply (room_ok_update _ rs l p); simpl; auto.
      * lia.
      * destruct (connected p); simpl; lia.
      * lia.
    + intros Hrs. balance.
    + intros _ Hrs. pose proof Hrs as (_ & Ea & [Hk _] & _ & Hps). apply (room_ok_update _ rs l p); simpl; auto.
      * lia.
      * destruct (connected p); simpl; lia.
      * lia.
    + intros Hrs. balance.
  - unfold count, set_room, when. autorewrite with mrun. apply (ledger_update s _ rs); [done| |].
    + intros _ Hrs. pose proof Hrs as (_ & Ea & [Hk _] & _ & Hps). simpl.
      apply (room_ok_insert _ rs l); simpl; auto; try (case_match; zbool; auto; lia).
      unfold part_ok. simpl. by rewrite msum_empty.
    + intros Hrs. balance.
Qed.

Lemma ParticipantLeft_ledger room l now s :
  ledger s (final (ParticipantLeft room l now) s) (outputs (ParticipantLeft room l now) s).
Proof.
  unfold ParticipantLeft.
  apply with_participant_ind; [intros _; apply ledger_same|]. intros rs p _ _ Er El. cbv zeta.
  destruct (connected p) eqn:Ec; simpl negb; [|apply ledger_same].
  destruct (accrueQuality_counts now (p_qoe p)) as (C1 & C2 & C3).
  unfold set_room. autorewrite with mrun. apply (ledger_update s _ rs); [done| |].
  - intros _ Hrs. pose proof Hrs as (_ & _ & [Hk _] & _ & Hps). apply (room_ok_update _ rs l p); simpl; auto.
    + destruct (Hps l p El) as (? & ? & ?). unfold part_ok. simpl. by rewrite C1, C2.
    + lia.
    + rewrite Ec. simpl. lia.
    + lia.
  - intros _. balance. all: rewrite ?C1, ?C3; lia.
Qed.

Lemma count_event_counts ev c :
  summaries (count_event ev c) = summaries c ∧ reconnects (count_event ev c) = reconnects c
  ∧ qualityDegraded (count_event ev c) = qualityDegraded c + b2z (bool_decide (ev = "quality_degraded"))
  ∧ qualityRecovered (count_event ev c) = qualityRecovered c + b2z (bool_decide (ev = "quality_recovered")).
Proof.
  unfold count_event. destruct (decide (ev = "quality_degraded")) as [->|H1]; [by simpl; split_and!; try lia|].
  rewrite (bool_decide_eq_false_2 _ H1).
  destruct (decide (ev = "quality_recovered")) as [->|H2]; [by simpl; split_and!; try lia|].
  rewrite (bool_decide_eq_false_2 _ H2). simpl. split_and!; lia.
Qed.

Lemma RecordQualityEvent_ledger room l ev reason st now s :
  ledger s (final (RecordQualityEvent room l ev reason st now) s)
    (outputs (RecordQualityEvent room l ev reason st now) s).
Proof.
  unfold RecordQualityEvent.
  apply with_participant_ind; [intros _; apply ledger_same|]. intros rs p _ _ Er El.
  unfold set_room, count. autorewrite with mrun. apply (ledger_update s _ rs); [done| |].
  - intros _ Hrs. pose proof Hrs as (_ & _ & [Hk _] & _ & Hps).
    destruct (quality_event_counts ev reason st now p l (Hps l p El)) as (H & Ec & En & _).
    unfold put_participant. apply (room_ok_update _ rs l p); rewrite ?Ec, ?En; auto; lia.
  - intros (_ & _ & _ & _ & Hps). destruct (quality_event_counts ev reason st now p l (Hps l p El)) as (_ & _ & En & Ed & Ev).
    destruct (count_event_counts ev (metrics s)) as (E1 & E2 & E3 & E4). balance.
    all: rewrite ?E1, ?E2, ?E3, ?E4, ?Ed, ?Ev; lia.
Qed.

Lemma RecordMediaSample_ledger room l a b s :
  ledger s (final (RecordMediaSample room l a b) s) (outputs (RecordMediaSample room l a b) s).
Proof.
  unfold RecordMediaSample.
  assert (∀ (x : HM unit), ledger s (final x s) (outputs x s) →
    ledger s (final (match a, b with None, None => mret tt | _, _ => x end) s)
      (outputs (match a, b with None, None => mret tt | _, _ => x end) s)) as H.
  { intros x Hx. destruct a, b; try done. apply ledger_same. }
  apply H. clear H.
  apply with_participant_ind; [intros _; apply ledger_same|]. intros rs p _ _ Er El.
  unfold set_room. autorewrite with mrun. apply (ledger_update s _ rs); [done| |].
  - intros _ Hrs. pose proof Hrs as (_ & _ & [Hk _] & _ & Hps). apply (room_ok_update _ rs l p); simpl; auto; try lia.
    destruct (Hps l p El) as (? & ? & R1 & R2 & J1 & J2).
    destruct (add_sample_ok a _ R1 R2), (add_sample_ok b _ J1 J2). by unfold part_ok.
  - intros _. balance.
Qed.

Lemma finalize_counts end_ p :
  DegradationCount (p_qoe (finalize_participant end_ p)) = DegradationCount (p_qoe p)
  ∧ Recoveries (p_qoe (finalize_participant end_ p)) = Recoveries (p_qoe p).
Proof.
  unfold finalize_participant. destruct (accrueQuality_counts end_ (p_qoe p)) as (C1 & C2 & C3).
  repeat case_match; simplify_eq/=; by rewrite ?C1, ?C3.
Qed.

Lemma emit_summary_final rs s : final (emit_summary rs) s = s.
Proof.
  unfold emit_summary. rewrite final_bind, final_emit.
  apply (preserves_for_each (λ s', s' = s)); [|done]. intros id _ s' ->. unfold log_participant. by case_match.
Qed.

Lemma emit_summary_logged m f rs s :
  (∀ p r, m_log m (participant_record r p) = f p) →
  logged m (outputs (emit_summary rs) s) = m_log m (room_record rs) + msum f (Participants rs).
Proof.
  intros Hf. unfold emit_summary. rewrite outputs_bind, logged_app, outputs_emit, final_emit.
  rewrite (logged_participants m f) by done. unfold logged. simpl. lia.
Qed.

Lemma msum_zero {A} (ps : gmap string A) : msum (λ _, 0) ps = 0.
Proof. induction ps as [|k a ps E IH] using map_ind; [apply msum_empty|]. by rewrite msum_insert, IH. Qed.

(** Closing a room moves its share of a counter from the open summaries to the log. *)
Lemma close_due m f room rs now a b s s' :
  rooms s !! room = Some rs → (∀ p r, m_log m (participant_record r p) = f p) →
  (∀ p, f (finalize_participant now p) = f p) →
  m_log m (room_record (finalize_room now a b rs)) + msum f (Participants rs)
    = m_room m rs + (m_count m (count_summary (metrics s)) - m_count m (metrics s)) →
  due m (mkRecorder (delete room (rooms s)) (count_summary (metrics s)))
  = due m s + logged m (outputs (emit_summary (finalize_room now a b rs)) s').
Proof.
  intros Er Hl Hf He. rewrite (emit_summary_logged m f) by done. unfold due. simpl rooms. simpl metrics.
  rewrite (msum_delete _ (rooms s) room rs) by done. unfold finalize_room at 2. simpl Participants.
  rewrite msum_fmap, (msum_ext (f ∘ finalize_participant now) f) by done. lia.
Qed.

Lemma RoomClosed_ledger room now a b s :
  ledger s (final (RoomClosed room now a b) s) (outputs (RoomClosed room now a b) s).
Proof.
  unfold RoomClosed. apply with_room_ind; [intros _; apply ledger_same|]. intros rs _ Er Hs.
  autorewrite with mrun. rewrite app_nil_l, emit_summary_final. split; [by apply map_Forall_delete|].
  repeat constructor.
  - apply (close_due _ (λ _, 0)); [done..|]. simpl. rewrite msum_zero. lia.
  - apply (close_due _ (λ _, 0)); [done..|]. simpl. rewrite msum_zero. lia.
  - apply (close_due _ (λ p, DegradationCount (p_qoe p))); [done|done|apply finalize_counts|]. simpl. lia.
  - apply (close_due _ (λ p, Recoveries (p_qoe p))); [done|done|apply finalize_counts|]. simpl. lia.
Qed.

Lemma perform_ledger o s : ledger s (final (perform o) s) (outputs (perform o) s).
Proof.
  destruct o as [now []]; simpl.
  - apply EnsureRoom_ledger.
  - apply ParticipantJoined_ledger.
  - apply ParticipantLeft_ledger.
  - apply RecordQualityEvent_ledger.
  - apply RecordMediaSample_ledger.
  - apply RoomClosed_ledger.
Qed.

Lemma run_ledger tr s : ledger s (final (run tr) s) (outputs (run tr) s).
Proof.
  revert s. induction tr as [|o tr IH]; intros s; [apply ledger_same|]. unfold run. simpl.
  rewrite final_bind, outputs_bind. intros Hs. destruct (perform_ledger o s Hs) as [H1 D1].
  destruct (IH _ H1) as [H2 D2]. split; [done|].
  rewrite list.Forall_forall in D1, D2 |- *. intros m Hm. rewrite logged_app. unfold run in D2.
  rewrite (D2 m Hm), (D1 m Hm). lia.
Qed.

(** The summaries count what happened, and nothing is lost.  After any sequence
    of calls, at whatever clock readings: the active count of an open room is the
    number of its connected participants, it never exceeds the peak and the peak
    never the number of participants; the room's reconnects are its participants'
    together, a participant's degradations are those of its reasons together, and
    an aggregate has a maximum exactly when it has samples.  Each process-wide
    counter is what was logged with the closed rooms plus what the open summaries
    hold. *)
Theorem history_accounting tr :
  let r := final (run tr) NewRecorder in
  let log := outputs (run tr) NewRecorder in
  (∀ room rs, rooms r !! room = Some rs →
     rs_RoomID rs = room
     ∧ activeCount rs = Z.of_nat (size (filter (λ '(_, p), connected p = true) (Participants rs)))
     ∧ activeCount rs ≤ ParticipantsPeak rs ≤ Z.of_nat (size (Participants rs))
     ∧ rs_Reconnects rs = msum p_Reconnects (Participants rs)
     ∧ map_Forall part_ok (Participants rs))
  ∧ Forall (λ m, m_count m (metrics r) = logged m log + msum (m_room m) (rooms r)) measures.
Proof.
  cbv zeta. destruct (run_ledger tr NewRecorder) as [Hr Hd]; [apply map_Forall_empty|]. split.
  - intros room rs Er. destruct (Hr room rs Er) as (H1 & -> & H3 & H4 & H5). split_and!; try done; try lia.
    apply msum_b2z_size.
  - assert (Forall (λ m, m_count m (metrics NewRecorder) = 0) measures) as H0 by by repeat constructor.
    rewrite list.Forall_forall in Hd, H0 |- *. intros m Hm. specialize (Hd m Hm). specialize (H0 m Hm).
    unfold due in Hd. simpl rooms in Hd. rewrite msum_empty in Hd. lia.
Qed.

(** ** The time attributed to each status *)

(** The reference: whether a participant of an open room is connected, and the
    status in force, from the calls alone. *)
Definition presence_step (room l : string) (o : recorder_op) (x : option (bool * string))
    : option (bool * string) :=
  match o with
  | RJoined room' l' _ _ =>
      if decide (room' = room ∧ l' = l) then Some (true, default statusGood (snd <$> x)) else x
  | RLeft room' l' => if decide (room' = room ∧ l' = l) then (λ y, (false, y.2)) <$> x else x
  | RQuality room' l' _ _ st =>
      if decide (room' = room ∧ l' = l)
      then (λ y, (y.1, if decide (normStatus st ≠ "") then normStatus st else y.2)) <$> x else x
  | _ => x
  end.

Definition presence (room l : string) (tr : list (Z * recorder_op)) : option (bool * string) :=
  foldl (λ x o, presence_step room l o.2 x) None tr.

(** The time between the calls of the trace during which the participant satisfied
    [P]. *)
Fixpoint time_where (room l : string) (P : bool * string → bool) (t : Z) (x : option (bool * string))
    (tr : list (Z * recorder_op)) : Z :=
  match tr with
  | [] => 0
  | (t', o) :: tr =>
      (if x is Some y then if P y then t' - t else 0 else 0)
      + time_where room l P t' (presence_step room l o x) tr
  end.

Definition here (st : string) (y : bool * string) : bool := y.1 && bool_decide (y.2 = st).

(** The clock does not go back, the room stays open, and the participant has one
    connection at a time. *)
Fixpoint orderly (room l : string) (t : Z) (x : option (bool * string)) (tr : list (Z * recorder_op)) (end_ : Z)
    : bool :=
  match tr with
  | [] => t <=? end_
  | (t', o) :: tr =>
      (t <=? t')
      && match o with
         | RClosed room' _ _ => negb (bool_decide (room' = room))
         | RJoined room' l' _ _ =>
             negb (bool_decide (room' = room ∧ l' = l) && (if x is Some (b, _) then b else false))
         | _ => true
         end
      && orderly room l t' (presence_step room l o x) tr end_
  end.

Definition is_status (st : string) : Prop := st = statusGood ∨ st = statusWarning ∨ st = statusPoor.

Definition bucket (st : string) (q : qoe) : Z :=
  if decide (st = statusWarning) then QualityWarningDur q
  else if decide (st = statusPoor) then QualityPoorDur q else QualityGoodDur q.

(** At time [t], the record of a participant that is [x] has accounted for [A], up to
    the interval in progress. *)
Definition accounts (t : Z) (x : option (bool * string)) (A : string → Z) (op : option ParticipantSummary) : Prop :=
  match x, op with
  | None, None => ∀ st, A st = 0
  | Some (b, st), Some p =>
      connected p = b ∧ qualityStatus (p_qoe p) = st ∧ is_status st
      ∧ (b = true → 0 < qualitySince (p_qoe p) ≤ t)
      ∧ ∀ st', is_status st' → 0 ≤ bucket st' (p_qoe p)
          ∧ bucket st' (p_qoe p) + (if b && bool_decide (st' = st) then t - qualitySince (p_qoe p) else 0) = A st'
  | _, _ => False
  end.

Lemma normStatus_status st : normStatus st ≠ "" → is_status (normStatus st).
Proof. unfold normStatus, is_status. repeat case_decide; auto. by intros []. Qed.

(** Closing the interval in progress brings the record up to date. *)
Lemma accrue_accounts t st A p :
  accounts t (Some (true, st)) A (Some p) → (∀ st', is_status st' → A st' ≤ max_duration) →
  let q := accrueQuality t (p_qoe p) in
  qualitySince q = t ∧ qualityStatus q = st ∧ ∀ st', is_status st' → 0 ≤ bucket st' q ∧ bucket st' q = A st'.
Proof.
  intros (Ec & Es & Hs & Ht & HA) Hb. specialize (Ht eq_refl). cbv zeta.
  assert (time_sub t (qualitySince (p_qoe p)) = t - qualitySince (p_qoe p)
          ∧ wrap64 (bucket st (p_qoe p) + (t - qualitySince (p_qoe p))) = A st) as [Et Ew].
  { destruct (HA st Hs) as [H0 H1]. rewrite bool_decide_eq_true_2 in H1 by done. simpl in H1.
    pose proof (Hb st Hs) as Hm. unfold max_duration in Hm. unfold time_sub, min_duration, max_duration.
    split; [lia|]. rewrite wrap64_id; lia. }
  unfold accrueQuality. rewrite (proj2 (Z.eqb_neq _ _)) by lia. rewrite Et, Z.max_r, Es by lia.
  assert (∀ st', is_status st' → st' ≠ st → 0 ≤ bucket st' (p_qoe p) ∧ bucket st' (p_qoe p) = A st') as Hother.
  { intros st' H' Hne. destruct (HA st' H') as [? E]. rewrite bool_decide_eq_false_2 in E by done. simpl in E. lia. }
  assert (0 ≤ A st) as H0.
  { destruct (HA st Hs) as [? E]. rewrite bool_decide_eq_true_2 in E by done. simpl in E. lia. }
  pose proof (Hother statusGood (or_introl eq_refl)) as Hg.
  pose proof (Hother statusWarning (or_intror (or_introl eq_refl))) as Hw.
  pose proof (Hother statusPoor (or_intror (or_intror eq_refl))) as Hp.
  destruct Hs as [-> | [-> | ->]]; simpl; (split; [done|]; split; [done|]; intros st' [-> | [-> | ->]]);
    unfold bucket in *; simpl in *; rewrite ?Ew; auto; lia.
Qed.

(** A quality event closes the interval and opens one under the new status. *)
Lemma accounts_event t b st0 A p ev reason st :
  (∀ st', is_status st' → A st' ≤ max_duration) → accounts t (Some (b, st0)) A (Some p) →
  accounts t (Some (b, if decide (normStatus st ≠ "") then normStatus st else st0)) A
    (Some (quality_event ev reason st t p)).
Proof.
  intros HA Hx. pose proof Hx as (Ec & Es & Hs & Ht & Hb).
  set (st1 := if decide (normStatus st ≠ "") then _ else _).
  assert (is_status st1) as Hs1 by (unfold st1; case_decide; [by apply normStatus_status|done]).
  assert (connected (quality_event ev reason st t p) = b
    ∧ qualityStatus (p_qoe (quality_event ev reason st t p)) = st1
    ∧ let q := if b then accrueQuality t (p_qoe p) else p_qoe p in
      qualitySince (p_qoe (quality_event ev reason st t p)) = qualitySince q
      ∧ ∀ st', bucket st' (p_qoe (quality_event ev reason st t p)) = bucket st' q) as (E1 & E2 & E3 & E4).
  { unfold quality_event. rewrite Ec.
    assert (qualityStatus (if b then accrueQuality t (p_qoe p) else p_qoe p) = st0) as E.
    { destruct b; [|done]. by apply (accrue_accounts t st0 A p). }
    unfold st1. destruct b; repeat case_decide; done. }
  cbv zeta in E3, E4. split; [done|]. split; [done|]. split; [done|]. rewrite E3. destruct b.
  - destruct (accrue_accounts t st0 A p Hx HA) as (Q1 & Q2 & Q3). rewrite Q1. split; [destruct (Ht eq_refl); lia|].
    intros st' Hst'. rewrite E4, Z.sub_diag. destruct (Q3 st' Hst') as [? ?]. split; [done|]. case_match; lia.
  - split; [done|]. intros st' Hst'. rewrite E4. by apply Hb.
Qed.

(** What a call does to the record of one participant. *)
Lemma look_update room l s room' l' rs p' peak reconn active c :
  rooms s !! room' = Some rs →
  look room l (mkRecorder (<[room' := with_participants (<[l' := p']> (Participants rs)) peak reconn active rs]> (rooms s)) c)
  = if decide (room' = room ∧ l' = l) then Some p' else look room l s.
Proof.
  intros Er. unfold look. simpl. destruct (decide (room' = room)) as [->|Hr].
  - rewrite lookup_insert_eq, Er. simpl. destruct (decide (l' = l)) as [->|Hl].
    + by rewrite lookup_insert_eq, decide_True.
    + rewrite lookup_insert_ne, decide_False by naive_solver. done.
  - rewrite lookup_insert_ne, decide_False by naive_solver. done.
Qed.

Section one_participant.
Context (room l : string) (t : Z) (x : option (bool * string)) (A : string → Z) (s : Recorder).
Hypothesis Hroom : room ≠ "".
Hypothesis Hl : l ≠ "".
Hypothesis Hopen : is_Some (rooms s !! room).
Hypothesis Ht : 0 < t.
Hypothesis HA : ∀ st, is_status st → A st ≤ max_duration.
Hypothesis Hacc : accounts t x A (look room l s).

(** The room stays open and the record goes on accounting for [A] under [y]. *)
Definition goes_on (y : option (bool * string)) (s' : Recorder) : Prop :=
  is_Some (rooms s' !! room) ∧ accounts t y A (look room l s').

Lemma goes_on_update y room' l' rs p' peak reconn active c :
  rooms s !! room' = Some rs →
  accounts t y A (if decide (room' = room ∧ l' = l) then Some p' else look room l s) →
  goes_on y (mkRecorder (<[room' := with_participants (<[l' := p']> (Participants rs)) peak reconn active rs]> (rooms s)) c).
Proof.
  intros Er Hy. split; [simpl; by apply lookup_insert_is_Some'; right|]. by rewrite look_update.
Qed.

Lemma goes_on_joined room' l' name rc :
  (room' = room → l' = l → ∀ st, x ≠ Some (true, st)) →
  goes_on (presence_step room l (RJoined room' l' name rc) x) (final (ParticipantJoined room' l' name rc t) s).
Proof.
  intros Hone. unfold ParticipantJoined. case_decide as El.
  { subst. simpl. rewrite decide_False by naive_solver. by split. }
  apply (with_room_ind (λ s' _, goes_on _ s')).
  { intros Hn. simpl. rewrite decide_False; [by split|]. intros [-> ->].
    destruct Hn as [|Hn]; [done|]. rewrite Hn in Hopen. by destruct Hopen. }
  intros rs _ Er. cbv zeta.
  set (pa := match Participants rs !! l' with None => _ | Some p => _ end). destruct pa as [p again] eqn:Epa.
  subst pa. unfold when, set_room, count.
  assert (accounts t (presence_step room l (RJoined room' l' name rc) x) A
    (if decide (room' = room ∧ l' = l) then Some (with_presence (p_Name p) (LastLeftAt p) (p_Reconnects p) true p)
     else look room l s)) as Hnew.
  { simpl. destruct (decide (room' = room ∧ l' = l)) as [[-> ->]|]; [|done].
    pose proof Hacc as Hx. unfold look in Hx. rewrite Er in Hx. simpl in Hx.
    unfold rejoined in Epa.
    destruct (Participants rs !! l) as [p0|], x as [[b st]|]; try done; injection Epa as <- _; simpl in Hx.
    - destruct b; [by destruct (Hone eq_refl eq_refl st)|]. destruct Hx as (_ & Es & Hs & _ & Hb).
      split_and!; [done|done|done|simpl; lia|]. intros st' Hst'. specialize (Hb st' Hst'). simpl in *.
      rewrite Z.sub_diag. destruct (bool_decide _); exact Hb.
    - split_and!; [done|done|by left|simpl; lia|]. intros st' Hst'. simpl. rewrite Z.sub_diag, Hx.
      unfold bucket. simpl. repeat case_match; lia. }
  destruct again; autorewrite with mrun; by apply goes_on_update.
Qed.

Lemma goes_on_left room' l' :
  goes_on (presence_step room l (RLeft room' l') x) (final (ParticipantLeft room' l' t) s).
Proof.
  apply (with_participant_ind (λ s' _, goes_on _ s')).
  { intros Hn. split; [done|]. simpl. case_decide as E; [|done]. destruct E as [-> ->].
    destruct Hn as [|[|Hn]]; [done..|]. pose proof Hacc as Hx. rewrite Hn in Hx |- *. by destruct x as [[]|]. }
  intros rs p _ _ Er Ep. cbv zeta.
  assert (∀ p', (if connected p then True else p' = p) →
    (connected p = true → connected p' = false ∧ p_qoe p' = accrueQuality t (p_qoe p)) →
    accounts t (presence_step room l (RLeft room' l') x) A
      (if decide (room' = room ∧ l' = l) then Some p' else look room l s)) as Hnew.
  { intros p' H1 H2. simpl. case_decide as E; [|done]. destruct E as [-> ->].
    pose proof Hacc as Hx. unfold look in Hx. rewrite Er in Hx. simpl in Hx. rewrite Ep in Hx.
    destruct x as [[b st]|]; [|done]. pose proof Hx as (Ec & Es & Hs & _ & Hb). simpl. rewrite Ec in H1, H2.
    destruct b; [|by subst].
    destruct (H2 eq_refl) as [E1 E2]. destruct (accrue_accounts t st A p Hx HA) as (Q1 & Q2 & Q3).
    split_and!; [done|by rewrite E2|done|done|]. intros st' Hst'. rewrite E2. simpl. rewrite Z.add_0_r. by apply Q3. }
  destruct (connected p) eqn:Ec; simpl negb.
  - unfold set_room. autorewrite with mrun. apply goes_on_update; [done|]. by apply Hnew.
  - split; [done|]. change (final (mret tt) s) with s.
    assert (look room l s = if decide (room' = room ∧ l' = l) then Some p else look room l s) as ->.
    { case_decide as E; [|done]. destruct E as [-> ->]. unfold look. by rewrite Er. }
    by apply Hnew; rewrite ?Ec.
Qed.

(** An event changes the interval in progress and the status; a sample neither. *)
Lemma goes_on_quality room' l' ev reason st :
  goes_on (presence_step room l (RQuality room' l' ev reason st) x)
    (final (RecordQualityEvent room' l' ev reason st t) s).
Proof.
  apply (with_participant_ind (λ s' _, goes_on _ s')).
  { intros Hn. split; [done|]. simpl. case_decide as E; [|done]. destruct E as [-> ->].
    destruct Hn as [|[|Hn]]; [done..|]. pose proof Hacc as Hx. rewrite Hn in Hx |- *. by destruct x as [[]|]. }
  intros rs p _ _ Er Ep. unfold set_room, count. autorewrite with mrun. apply goes_on_update; [done|].
  simpl. case_decide as E; [|done]. destruct E as [-> ->].
  pose proof Hacc as Hx. unfold look in Hx. rewrite Er in Hx. simpl in Hx. rewrite Ep in Hx.
  destruct x as [[b st0]|]; [|done]. simpl.
  apply accounts_event; [by intros; apply HA|done].
Qed.

Lemma goes_on_sample room' l' a b :
  goes_on (presence_step room l (RSample room' l' a b) x) (final (RecordMediaSample room' l' a b) s).
Proof.
  unfold RecordMediaSample.
  assert (∀ m : HM unit, goes_on x (final m s) →
    goes_on x (final (match a, b with None, None => mret tt | _, _ => m end) s)) as H.
  { intros m Hm. destruct a, b; try done; by split. }
  apply H. clear H. apply (with_participant_ind (λ s' _, goes_on _ s')); [by split|].
  intros rs p _ _ Er Ep. unfold set_room. autorewrite with mrun. apply goes_on_update; [done|].
  case_decide as E; [|done]. destruct E as [-> ->].
  pose proof Hacc as Hx. unfold look in Hx. rewrite Er in Hx. simpl in Hx. rewrite Ep in Hx. exact Hx.
Qed.

Lemma goes_on_other o :
  (∀ a b, o ≠ RClosed room a b) → (∀ r a b, o = REnsure r a b ∨ o = RClosed r a b → goes_on x (final (perform (t, o)) s)).
Proof.
  intros Hc r a b [-> | ->]; unfold perform; cbn [fst snd].
  - unfold EnsureRoom. case_decide; [by split|]. autorewrite with mrun.
    destruct (rooms s !! r) eqn:E; [by split|]. unfold set_room. autorewrite with mrun.
    assert (r ≠ room) by (intros ->; rewrite E in Hopen; by destruct Hopen).
    split; unfold look; simpl; by rewrite lookup_insert_ne.
  - apply (with_room_ind (λ s' _, goes_on _ s')); [by split|]. intros rs _ Er.
    assert (r ≠ room) by (intros ->; by destruct (Hc a b)).
    autorewrite with mrun. rewrite emit_summary_final. split; unfold look; simpl; by rewrite lookup_delete_ne.
Qed.
End one_participant.

Lemma accounts_ext t x A B op : (∀ st, A st = B st) → accounts t x A op → accounts t x B op.
Proof.
  intros E. unfold accounts. destruct x as [[b st]|], op as [p|]; try done.
  - intros (? & ? & ? & ? & H). split_and!; [done..|]. intros st' Hst'. rewrite <- E. by apply H.
  - intros H st. rewrite <- E. apply H.
Qed.

(** Time passes. *)
Lemma accounts_elapse t t' x A op :
  t ≤ t' → accounts t x A op →
  accounts t' x (λ st, A st + (if x is Some y then if here st y then t' - t else 0 else 0)) op.
Proof.
  intros Ht. destruct x as [[b st]|], op as [p|]; simpl; try done.
  - intros (? & ? & ? & Hs & H). split_and!; [done..|intros Hb; specialize (Hs Hb); lia|].
    intros st' Hst'. destruct (H st' Hst') as [? E]. split; [done|]. unfold here. simpl.
    rewrite <- E. destruct b; simpl; [|lia].
    rewrite (bool_decide_ext (st = st') (st' = st)) by naive_solver. destruct (bool_decide (st' = st)); lia.
  - intros H st. rewrite H. lia.
Qed.

(** One call of an orderly run. *)
Lemma perform_accounts room l t x A s o tr end_ :
  room ≠ "" → l ≠ "" → is_Some (rooms s !! room) → 0 < t → (∀ st, is_status st → A st ≤ max_duration) →
  accounts t x A (look room l s) → orderly room l t x ((t, o) :: tr) end_ = true →
  goes_on room l t A (presence_step room l o x) (final (perform (t, o)) s).
Proof.
  intros Hr Hl Ho Ht HA Hx Hord. simpl in Hord. apply andb_prop in Hord as [Hord _]. apply andb_prop in Hord as [_ Hord].
  destruct o as [r a b|r l' n rc|r l'|r l' ev why st|r l' a b|r a b].
  - by eapply (goes_on_other room l t x A s Ho Hx (REnsure r a b)); [|left].
  - apply goes_on_joined; try done. intros -> -> st ->. rewrite bool_decide_eq_true_2 in Hord by done. done.
  - by apply goes_on_left.
  - by apply goes_on_quality.
  - by apply goes_on_sample.
  - eapply (goes_on_other room l t x A s Ho Hx (RClosed r a b)); [|by right].
    intros a' b' [= -> -> ->]. by rewrite bool_decide_eq_true_2 in Hord.
Qed.

Lemma orderly_le room l t x tr end_ : orderly room l t x tr end_ = true → t ≤ end_.
Proof.
  revert t x. induction tr as [|[t' o] tr IH]; intros t x H; simpl in H; [by apply Z.leb_le|].
  apply andb_prop in H as [H H2]. apply andb_prop in H as [H1 _]. apply Z.leb_le in H1.
  etransitivity; [done|]. by eapply IH.
Qed.

Lemma run_accounts room l t0 t x A s tr t1 c :
  room ≠ "" → l ≠ "" → is_Some (rooms s !! room) → 0 < t → t1 - t0 ≤ max_duration →
  (∀ st, A st ≤ t - t0) → accounts t x A (look room l s) → orderly room l t x tr t1 = true →
  accounts t1 (foldl (λ x o, presence_step room l o.2 x) x tr)
    (λ st, A st + time_where room l (here st) t x (tr ++ [(t1, c)])) (look room l (final (run tr) s))
  ∧ ∀ st, A st + time_where room l (here st) t x (tr ++ [(t1, c)]) ≤ t1 - t0.
Proof.
  intros Hr Hl Ho Ht Hmax HA Hx Hord. revert t x A s Ho Ht HA Hx Hord.
  induction tr as [|[t' o] tr IH]; intros t x A s Ho Ht HA Hx Hord; simpl in Hord.
  - apply Z.leb_le in Hord. simpl. change (final (run []) s) with s. split.
    + eapply accounts_ext, (accounts_elapse t t1); [|done..]. intros st. simpl. lia.
    + intros st. specialize (HA st). repeat case_match; lia.
  - pose proof Hord as Hord'. apply andb_prop in Hord as [Hord Hrest]. apply andb_prop in Hord as [Hle _].
    apply Z.leb_le in Hle.
    apply (accounts_elapse t t') in Hx; [|done].
    assert (∀ st, A st + (if x is Some y then if here st y then t' - t else 0 else 0) ≤ t' - t0) as HA'.
    { intros st. specialize (HA st). repeat case_match; lia. }
    pose proof (orderly_le _ _ _ _ _ _ Hrest) as Hle1.
    edestruct (perform_accounts room l t' x) as [Ho2 Hx2]; [done|done|done|lia| |exact Hx| |].
    { intros st _. specialize (HA' st). simpl. lia. }
    { simpl. rewrite Hrest. rewrite Z.leb_refl. simpl in Hord'. apply andb_prop in Hord' as [H _].
      apply andb_prop in H as [_ H]. by rewrite H. }
    unfold run. simpl. rewrite final_bind.
    destruct (IH t' (presence_step room l o x) _ _ Ho2 ltac:(lia) HA' Hx2 Hrest) as [Hx3 HA3].
    split; [eapply accounts_ext, Hx3|]; intros st; [|specialize (HA3 st)]; simpl; lia.
Qed.

(** The three statuses share out the time connected. *)
Lemma time_where_total room l t x tr :
  (∀ b st, x = Some (b, st) → is_status st) →
  time_where room l fst t x tr
  = time_where room l (here statusGood) t x tr + time_where room l (here statusWarning) t x tr
    + time_where room l (here statusPoor) t x tr.
Proof.
  revert t x. induction tr as [|[t' o] tr IH]; intros t x Hx; simpl; [done|]. rewrite IH.
  - destruct x as [[b st]|]; [|lia]. unfold here. simpl.
    destruct b; simpl; [|lia]. destruct (Hx true st eq_refl) as [-> | [-> | ->]]; simpl; lia.
  - intros b st. destruct o; simpl; try apply Hx; case_decide; try apply Hx; destruct x as [[b0 st0]|]; simpl; try done.
    + intros [= <- <-]. by apply (Hx b0 st0).
    + intros [= <- <-]. by left.
    + intros [= <- <-]. by apply (Hx b0 st0).
    + intros [= <- <-]. case_decide; [by apply normStatus_status|by apply (Hx b0 st0)].
Qed.

Lemma log_participant_in room ps ids id p s :
  id ∈ ids → ps !! id = Some p → participant_record room p ∈ outputs (for_each ids (log_participant room ps)) s.
Proof.
  intros Hin Ep. revert s. induction ids as [|i ids IH]; [set_solver|]. intros s. simpl. rewrite outputs_bind, elem_of_app.
  apply elem_of_cons in Hin as [<-|Hin]; [left|right; by apply IH].
  unfold log_participant. rewrite Ep, outputs_emit. set_solver.
Qed.

(** Closing the room logs the finalized record of each of its participants. *)
Lemma RoomClosed_logs room l t a b s p :
  recorder_ok s → room ≠ "" → look room l s = Some p →
  participant_record room (finalize_participant t p) ∈ outputs (RoomClosed room t a b) s.
Proof.
  intros Hok Hr Hl. unfold look in Hl. destruct (rooms s !! room) as [rs|] eqn:Er; [|done]. simpl in Hl.
  unfold RoomClosed, with_room. rewrite decide_False by done. autorewrite with mrun. rewrite Er. autorewrite with mrun.
  rewrite !app_nil_l. unfold emit_summary. rewrite outputs_bind, final_emit. apply elem_of_app. right.
  destruct (Hok room rs Er) as [Eid _]. simpl. rewrite Eid.
  apply (log_participant_in _ _ _ l); [|by rewrite lookup_fmap, Hl].
  rewrite sortedKeys_perm, list_elem_of_fmap. exists (l, finalize_participant t p). split; [done|].
  by rewrite elem_of_map_to_list, lookup_fmap, Hl.
Qed.

Lemma accounts_final t b st A p :
  accounts t (Some (b, st)) A (Some p) → (∀ st', is_status st' → A st' ≤ max_duration) →
  ∀ st', is_status st' → bucket st' (p_qoe (finalize_participant t p)) = A st'.
Proof.
  intros Hx HA st' Hst'. pose proof Hx as (Ec & _ & _ & _ & Hb).
  assert (p_qoe (finalize_participant t p) = if b then accrueQuality t (p_qoe p) else p_qoe p) as ->.
  { unfold finalize_participant. rewrite Ec. destruct b; by case_match. }
  destruct b; [by apply (accrue_accounts t st A p)|]. destruct (Hb st' Hst') as [_ <-]. simpl. lia.
Qed.

(** The time in each quality status is the time spent in it.  Take any recorder
    reached by calls, a room that is opened, and any calls until the room closes in
    which the clock does not go back and a participant has one connection at a time.
    If the participant was ever in the room, its record is logged at the close, and
    its three durations are exactly the time it was connected while the status in
    force was GOOD, WARNING and POOR; together, the time it was connected. *)
Theorem history_time_exact tr0 room l t0 a b tr t1 a' b' :
  let s := final (run tr0) NewRecorder in
  let s' := final (run ((t0, REnsure room a b) :: tr)) s in
  let closing := (t1, RClosed room a' b') in
  let spent P := time_where room l P t0 None (tr ++ [closing]) in
  room ≠ "" → l ≠ "" → rooms s !! room = None → 0 < t0 → t1 - t0 ≤ max_duration →
  orderly room l t0 None tr t1 = true → is_Some (presence room l tr) →
  ∃ p, look room l s' = Some p
    ∧ participant_record room (finalize_participant t1 p) ∈ outputs (perform closing) s'
    ∧ let q := p_qoe (finalize_participant t1 p) in
      QualityGoodDur q = spent (here statusGood)
      ∧ QualityWarningDur q = spent (here statusWarning)
      ∧ QualityPoorDur q = spent (here statusPoor)
      ∧ QualityGoodDur q + QualityWarningDur q + QualityPoorDur q = spent fst.
Proof.
  cbv zeta. intros Hr Hl Hn Ht Hmax Hord [[bc st] Hpres].
  set (s := final (run tr0) NewRecorder) in *.
  unfold run at 1 2. simpl. rewrite final_bind. fold (run tr).
  set (s1 := final (perform (t0, REnsure room a b)) s).
  assert (rooms s1 !! room = Some (mkSummary room t0 0 0 0 0 0 ∅ 0 a b)) as E1.
  { unfold s1, perform. simpl. unfold EnsureRoom. rewrite decide_False by done. autorewrite with mrun. rewrite Hn.
    unfold set_room. autorewrite with mrun. apply lookup_insert_eq. }
  assert (recorder_ok (final (run tr) s1)) as Hok.
  { apply run_ledger. unfold s1. apply perform_ledger, run_ledger, map_Forall_empty. }
  destruct (run_accounts room l t0 t0 None (λ _, 0) s1 tr t1 (RClosed room a' b')) as [Hacc HA];
    [done|done|by eexists|lia|lia|intros; lia| |done|].
  { unfold look. rewrite E1. simpl. by rewrite lookup_empty. }
  unfold presence in Hpres. rewrite Hpres in Hacc.
  destruct (look room l (final (run tr) s1)) as [p|] eqn:El; [|done]. exists p. split; [done|].
  split; [by apply (RoomClosed_logs room l)|].
  pose proof (accounts_final t1 bc st _ p Hacc) as Hf. rewrite time_where_total by done.
  assert (∀ st', is_status st' → bucket st' (p_qoe (finalize_participant t1 p))
    = time_where room l (here st') t0 None (tr ++ [(t1, RClosed room a' b')])) as Hb.
  { intros st' Hst'. rewrite Hf; [done|intros st'' _; specialize (HA st''); simpl in HA |- *; lia|done]. }
  rewrite <- (Hb statusGood), <- (Hb statusWarning), <- (Hb statusPoor) by (unfold is_status; auto). done.
Qed.

(** Alice degrades, leaves, comes back and recovers; she is connected for 70 seconds. *)
Definition demo_trace : list (Z * recorder_op) :=
  [(10 * second, RJoined "r" "alice" "Alice" false);
   (30 * second, RQuality "r" "alice" "quality_degraded" "HIGH_RTT" "poor");
   (50 * second, RLeft "r" "alice");
   (80 * second, RJoined "r" "alice" "Alice" true);
   (90 * second, RQuality "r" "alice" "quality_recovered" "" "GOOD")].

Lemma history_time_exact_witness :
  ∃ p, look "r" "alice" (final (run ((5 * second, REnsure "r" 0 0) :: demo_trace)) NewRecorder) = Some p
    ∧ QualityGoodDur (p_qoe (finalize_participant (110 * second) p)) = 40 * second
    ∧ QualityWarningDur (p_qoe (finalize_participant (110 * second) p)) = 0
    ∧ QualityPoorDur (p_qoe (finalize_participant (110 * second) p)) = 30 * second.
Proof.
  destruct (history_time_exact [] "r" "alice" (5 * second) 0 0 demo_trace (110 * second) 0 0)
    as (p & Hp & _ & Hg & Hw & Hpo & _).
  - done.
  - done.
  - reflexivity.
  - reflexivity.
  - vm_compute. done.
  - vm_compute. reflexivity.
  - vm_compute. by eexists.
  - exists p. split; [exact Hp|]. rewrite Hg, Hw, Hpo. vm_compute. auto.
Defined.

(** Two connections of one identity: the first one to leave takes the participant
    out of the count although the other is still there, and the join of the second
    discards the time since the first. *)
Example overlapping_connections_miscount :
  let s := final (run [(second, REnsure "r" 0 0);
                       (10 * second, RJoined "r" "alice" "Alice" false);
                       (40 * second, RJoined "r" "alice" "Alice" false);
                       (50 * second, RLeft "r" "alice")]) NewRecorder in
  activeCount <$> rooms s !! "r" = Some 0
  ∧ (QualityGoodDur ∘ p_qoe) <$> look "r" "alice" s = Some (10 * second).
Proof. vm_compute. split; reflexivity. Qed.
