(* ===== verification/Api.v ===== *)
(** * The management API (internal/api)

    The REST surface under /v1: API keys and their scopes, the middleware in front
    of every route, the registry of room metadata with its idempotency cache, the
    minting of participant tokens and the service behind the routes.

    What the service asks of the core (the signaling layer) is an argument of each
    operation, one answer per call, in the form the Go interface returns it: a value
    and possibly an error; ApiCore computes these answers from the server's state.
    SHA-256 and encoding/json are parameters, clock readings and random ids are
    arguments, and the webhook dispatcher receives events as observable actions.
    Each method of the registry holds its lock throughout and is one step; an
    operation of the service is a sequence of such steps. *)

From S2P Require Import Prelude Bytes GoStrings GoFloat Auth.

(** ** Errors *)

(** src/internal/api/errors.go:10-25 [error codes] *)
Definition CodeUnauthorized : string := "UNAUTHORIZED".
Definition CodeForbidden : string := "FORBIDDEN".
Definition CodeInvalidRequest : string := "INVALID_REQUEST".
Definition CodeRoomNotFound : string := "ROOM_NOT_FOUND".
Definition CodeParticipantNotFound : string := "PARTICIPANT_NOT_FOUND".
Definition CodeSessionNotFound : string := "SESSION_NOT_FOUND".
Definition CodeRoomClosed : string := "ROOM_CLOSED".
Definition CodeRoomOnOtherNode : string := "ROOM_ON_OTHER_NODE".
Definition CodeIdempotencyConflict : string := "IDEMPOTENCY_CONFLICT".
Definition CodeRateLimited : string := "RATE_LIMITED".
Definition CodeNodeUnavailable : string := "NODE_UNAVAILABLE".
Definition CodeClusterStateUnavailable : string := "CLUSTER_STATE_UNAVAILABLE".
Definition CodeNotConfigured : string := "NOT_CONFIGURED".
Definition CodeInternalError : string := "INTERNAL_ERROR".

(** src/internal/api/errors.go:27-50 [statusFor] *)
Definition codeStatus : gmap string Z := list_to_map
  [(CodeUnauthorized, 401); (CodeForbidden, 403); (CodeInvalidRequest, 400); (CodeRoomNotFound, 404);
   (CodeParticipantNotFound, 404); (CodeSessionNotFound, 404); (CodeRoomClosed, 409); (CodeRoomOnOtherNode, 409);
   (CodeIdempotencyConflict, 409); (CodeRateLimited, 429); (CodeNodeUnavailable, 503);
   (CodeClusterStateUnavailable, 503); (CodeNotConfigured, 503); (CodeInternalError, 500)].
Definition statusFor (code : string) : Z := default 500 (codeStatus !! code).

(** src/internal/api/errors.go:54-62 [APIError]  The only extra field the package
    sets is ownerNodeId. *)
Record APIError := mkAPIError { e_Code : string; e_Message : string; e_ownerNodeId : option string }.
Definition apiErr (code msg : string) : APIError := mkAPIError code msg None.

#[export] Instance APIError_eq_dec : EqDecision APIError.
Proof. solve_decision. Defined.

(** ** Keys and scopes *)

(** src/internal/api/config.go:14-29 [Scope] *)
Inductive Scope := RoomsCreate | RoomsRead | RoomsClose | TokensCreate | ParticipantsRead | QualityRead.
Definition scope_string (s : Scope) : string :=
  match s with
  | RoomsCreate => "rooms:create" | RoomsRead => "rooms:read" | RoomsClose => "rooms:close"
  | TokensCreate => "tokens:create" | ParticipantsRead => "participants:read" | QualityRead => "quality:read"
  end.
Definition AllScopes : list Scope :=
  [RoomsCreate; RoomsRead; RoomsClose; TokensCreate; ParticipantsRead; QualityRead].

#[export] Instance Scope_eq_dec : EqDecision Scope.
Proof. solve_decision. Defined.

(** src/internal/api/config.go:31-37 [knownScopes] *)
Definition knownScope (s : string) : option Scope :=
  list_find (λ sc, scope_string sc = s) AllScopes ≫= λ p, Some p.2.

(** src/internal/api/config.go:40-46 [APIKey]  The scopes set to true. *)
Record APIKey := mkKey { k_Key : string; k_Scopes : list Scope }.
Definition Has (k : APIKey) (s : Scope) : bool := bool_decide (s ∈ k_Scopes k).

(** src/internal/api/config.go:50-67 [Config] *)
Record Config := mkApiConfig {
  Enabled : bool; Keys : list APIKey; RateLimitPerMin : Z; PublicWSURL : string;
  TokenTTL : Z; TokenTTLMax : Z; AllowControlTokens : bool; RoomRetention : Z; WebhookURL : string;
  WebhookSecret : string
}.

(** [strings.FieldsFunc]: the maximal runs without a separator. *)
Fixpoint fields_func (sep : byte → bool) (l : list byte) : list (list byte) :=
  match l with
  | [] => []
  | c :: l =>
      let fs := fields_func sep l in
      if sep c then fs
      else match l, fs with
           | d :: _, f :: fs' => if sep d then [c] :: fs else (c :: f) :: fs'
           | _, _ => [c] :: fs
           end
  end.

(** The first [':'] splits an entry. *)
Fixpoint cut_colon (l : list byte) : list byte * option (list byte) :=
  match l with
  | [] => ([], None)
  | c :: l =>
      if decide (c = x3a) then ([], Some l)
      else let '(k, r) := cut_colon l in (c :: k, r)
  end.

(** src/internal/api/config.go:124-133 [ParseAPIKeys]  What one token of the scope
    list adds. *)
Definition scope_token (s : list byte) : list Scope :=
  let s := string_of (TrimSpace s) in
  if decide (s = "") then []
  else if decide (s = "*") then AllScopes
  else match knownScope s with Some sc => [sc] | None => [] end.

(** src/internal/api/config.go:109-136 [ParseAPIKeys]  One entry. *)
Definition parse_entry (entry : list byte) : option APIKey :=
  let entry := TrimSpace entry in
  if decide (entry = []) then None
  else
    let '(key, scopeStr) :=
      match cut_colon entry with
      | (k, Some rest) => (TrimSpace k, rest)
      | (k, None) => (entry, [])
      end in
    if decide (key = []) then None
    else Some (mkKey (string_of key) (split_on x2c scopeStr ≫= scope_token)).

(** src/internal/api/config.go:102-138 [ParseAPIKeys] *)
Definition ParseAPIKeys (raw : string) : list APIKey :=
  let raw := TrimSpace (bytes_of raw) in
  if decide (raw = []) then []
  else omap parse_entry (fields_func (λ c, bool_decide (c = x3b ∨ c = x0a)) raw).

(** ** The middleware *)

(** The two headers it reads. *)
Record api_request := mkApiRequest { h_APIKey : list byte; h_Authorization : list byte }.

(** src/internal/api/middleware.go:43-48 [middleware] *)
Record middleware := mkMiddleware { mw_enabled : bool; mw_keys : gmap string APIKey; mw_limiter : RateLimiter }.

(** src/internal/api/middleware.go:50-65 [newMiddleware] *)
Definition newMiddleware (cfg : Config) : middleware :=
  mkMiddleware (Enabled cfg) (foldl (λ m k, <[k_Key k := k]> m) ∅ (Keys cfg))
    (NewRateLimiter (RateLimitPerMin cfg) (60 * second)).

(** src/internal/api/middleware.go:111-128 [authenticate] *)
Definition presented (r : api_request) : list byte :=
  let p := TrimSpace (h_APIKey r) in
  if decide (p = [])
  then match strip_prefix (bytes_of "Bearer ") (h_Authorization r) with
       | Some rest => TrimSpace rest
       | None => []
       end
  else p.
Definition authenticate (m : middleware) (r : api_request) : option APIKey :=
  let p := presented r in
  if decide (p = []) then None
  else foldl (λ found '(stored, k), if decide (bytes_of stored = p) then Some k else found) None
         (map_to_list (mw_keys m)).

(** src/internal/api/middleware.go:68-106 [wrap]  Whether the handler runs, and as
    which key. *)
Definition wrap (m : middleware) (scope : Scope) (r : api_request) (now : Z)
    : (APIError + option APIKey) * middleware :=
  if negb (mw_enabled m) then (inr None, m)
  else match authenticate m r with
       | None => (inl (apiErr CodeUnauthorized "missing or invalid API key"), m)
       | Some key =>
           if negb (Has key scope)
           then (inl (apiErr CodeForbidden ("API key lacks required scope: " +:+ scope_string scope)), m)
           else
             let '(ok, rl) := Allow (mw_limiter m) (k_Key key) now in
             let m := mkMiddleware (mw_enabled m) (mw_keys m) rl in
             if ok then (inr (Some key), m)
             else (inl (apiErr CodeRateLimited "rate limit exceeded"), m)
       end.

(** ** The room registry *)

(** [strings.ToLower], as far as an ASCII result is concerned: besides the ASCII
    letters, the Kelvin sign (U+212A) and the dotted capital I (U+0130) have an ASCII
    lower case. *)
Fixpoint ToLower (l : list byte) : list byte :=
  match l with
  | xe2 :: x84 :: xaa :: l => x6b :: ToLower l
  | xc4 :: xb0 :: l => x69 :: ToLower l
  | c :: l => (if (65 <=? Z_of_byte c) && (Z_of_byte c <=? 90) then byte_of_Z (Z_of_byte c + 32) else c) :: ToLower l
  | [] => []
  end.

(** src/internal/api/rooms.go:16-24 [reservedMetadataKeys] *)
Definition reservedMetadataKeys : list string :=
  ["token"; "secret"; "jwt"; "password"; "apikey"; "api_key"; "authorization"].
Definition maxMetadataBytes : Z := 4 * 1024.
Definition maxRoomIDLen : Z := 128.

(** src/internal/api/rooms.go:29-36 [RoomRecord]  A nil map and an empty one are the
    same to every reader. *)
Record RoomRecord := mkRecord {
  rr_RoomID : string; Metadata : gmap string string; CreatedAt : Z; Closed : bool; closedAt : Z; lastSeen : Z
}.

(** src/internal/api/rooms.go:39-44 [idemEntry] *)
Record idemEntry := mkIdem { bodyHash : string; response : list byte; status : Z; stored_at : Z }.

(** src/internal/api/rooms.go:49-57 [RoomRegistry] *)
Record RoomRegistry := mkRegistry {
  retention : Z; rooms : gmap string RoomRecord; idem : gmap string idemEntry; idemTTL : Z
}.

(** src/internal/api/rooms.go:60-71 [NewRoomRegistry] *)
Definition defaultRoomRetention : Z := 300 * second.
Definition NewRoomRegistry (retention : Z) : RoomRegistry :=
  mkRegistry (if retention <=? 0 then defaultRoomRetention else retention) ∅ ∅ (600 * second).

(** src/internal/api/rooms.go:81-96 [ValidateRoomID]  A rune outside ASCII has no
    byte in the admitted set. *)
Definition room_char (c : byte) : bool :=
  let n := Z_of_byte c in
  bool_decide (c = x2d ∨ c = x5f ∨ c = x2e ∨ c = x3a)
  || (97 <=? n) && (n <=? 122) || (65 <=? n) && (n <=? 90) || (48 <=? n) && (n <=? 57).
Definition ValidateRoomID (id : string) : option APIError :=
  if decide (id = "") then Some (apiErr CodeInvalidRequest "roomId is required")
  else if maxRoomIDLen <? blen (bytes_of id) then Some (apiErr CodeInvalidRequest "roomId is too long")
  else if forallb room_char (bytes_of id) then None
  else Some (apiErr CodeInvalidRequest "roomId contains an unsupported character").

(** src/internal/api/rooms.go:99-114 [ValidateMetadata]  The entries in the order the
    map is walked, which decides only the key the error names. *)
Definition reserved (k : string) : bool :=
  bool_decide (string_of (ToLower (TrimSpace (bytes_of k))) ∈ reservedMetadataKeys).
Definition ValidateMetadata (entries : list (string * string)) : option APIError :=
  match filter (λ kv, reserved kv.1 = true) entries with
  | (k, _) :: _ => Some (apiErr CodeInvalidRequest ("metadata key '" +:+ k +:+ "' is reserved"))
  | [] =>
      if maxMetadataBytes <? foldr (λ kv z, blen (bytes_of kv.1) + blen (bytes_of kv.2) + z) 0 entries
      then Some (apiErr CodeInvalidRequest "metadata exceeds 4KB") else None
  end.

(** Observable actions: an event for the webhooks, a call into the core, a warning. *)
Inductive hook_data := MetadataData (md : gmap string string) | NotifiedData (n : Z).

Inductive api_event :=
| Hook (type room : string) (data : hook_data)
| CloseAsked (room reason : string)
| Warned (what : string).

Abbreviation AM := (M RoomRegistry api_event).

Definition upd_rooms (f : gmap string RoomRecord → gmap string RoomRecord) : AM unit :=
  modify (λ r, mkRegistry (retention r) (f (rooms r)) (idem r) (idemTTL r)).

Definition upd_idem (f : gmap string idemEntry → gmap string idemEntry) : AM unit :=
  modify (λ r, mkRegistry (retention r) (rooms r) (f (idem r)) (idemTTL r)).

Definition seen_at (now : Z) (rec : RoomRecord) : RoomRecord :=
  mkRecord (rr_RoomID rec) (Metadata rec) (CreatedAt rec) (Closed rec) (closedAt rec) now.

(** src/internal/api/rooms.go:118-134 [GetOrCreate] *)
Definition GetOrCreate (roomID : string) (metadata : gmap string string) (now : Z) : AM (RoomRecord * bool) :=
  r ← get;
  match rooms r !! roomID with
  | Some rec =>
      upd_rooms <[roomID := seen_at now rec]>;;
      mret (seen_at now rec, false)
  | None =>
      let rec := mkRecord roomID metadata now false 0 now in
      upd_rooms <[roomID := rec]>;;
      mret (rec, true)
  end.

(** src/internal/api/rooms.go:138-145 [EnsureExists] *)
Definition EnsureExists (roomID : string) (now : Z) : AM unit :=
  r ← get;
  match rooms r !! roomID with
  | Some _ => mret tt
  | None => upd_rooms <[roomID := mkRecord roomID ∅ now false 0 now]>
  end.

(** src/internal/api/rooms.go:148-157 [Get] *)
Definition Get (roomID : string) (now : Z) : AM (option RoomRecord) :=
  r ← get;
  match rooms r !! roomID with
  | None => mret None
  | Some rec =>
      upd_rooms <[roomID := seen_at now rec]>;;
      mret (Some (seen_at now rec))
  end.

(** src/internal/api/rooms.go:160-171 [MarkClosed] *)
Definition MarkClosed (roomID : string) (now : Z) : AM bool :=
  r ← get;
  match rooms r !! roomID with
  | None => mret false
  | Some rec =>
      upd_rooms <[roomID := mkRecord (rr_RoomID rec) (Metadata rec) (CreatedAt rec) true now now]>;;
      mret true
  end.

(** src/internal/api/rooms.go:175-193 [Sweep] *)
Definition overdue (retention now : Z) (rec : RoomRecord) : bool :=
  if Closed rec then retention <? time_sub now (closedAt rec) else retention <? time_sub now (lastSeen rec).
Definition Sweep (now : Z) : AM unit :=
  r ← get;
  upd_rooms (filter (λ kv, overdue (retention r) now kv.2 = false));;
  upd_idem (filter (λ kv, (idemTTL r <? time_sub now (stored_at kv.2)) = false)).

Section idempotency.
Context (sha256 : list byte → list byte).

(** src/internal/api/rooms.go:224-227 [hashBody] *)
Definition hashBody (b : list byte) : string := hex_encode (sha256 b).

(** src/internal/api/rooms.go:197-212 [idempotencyLookup] *)
Inductive idem_answer := IdemMiss | IdemHit (response : list byte) (status : Z) | IdemConflict.
Definition idempotencyLookup (key : string) (body : list byte) : AM idem_answer :=
  if decide (key = "") then mret IdemMiss
  else
    r ← get;
    match idem r !! key with
    | None => mret IdemMiss
    | Some e =>
        if decide (bodyHash e = hashBody body) then mret (IdemHit (response e) (status e)) else mret IdemConflict
    end.

(** src/internal/api/rooms.go:215-222 [idempotencyStore] *)
Definition idempotencyStore (key : string) (body resp : list byte) (st : Z) (now : Z) : AM unit :=
  if decide (key = "") then mret tt
  else upd_idem <[key := mkIdem (hashBody body) resp st now]>.
End idempotency.

(** ** The view of the core *)

(** src/internal/api/core.go:30-93 [Core]  What its methods return. *)
Inductive RoomStatus := RoomActive | RoomEmpty | RoomRecovering | RoomIsClosed.
Record CoreRoom := mkCoreRoom {
  cr_Exists : bool; cr_Generation : Z; cr_Participants : Z; cr_OwnerNodeID : string; cr_Recovering : bool
}.
Record CoreTrack := mkCoreTrack { ct_PublicationID : string; ct_Kind : string; ct_Muted : bool }.
Record CoreParticipant := mkCoreParticipant {
  cp_Identity : string; cp_Subject : string; cp_Name : string; cp_State : string; cp_Role : string;
  cp_Tracks : list CoreTrack
}.
Record CoreSession := mkCoreSession {
  cs_Exists : bool; cs_SessionID : string; cs_State : string; cs_Generation : Z; cs_Recoverable : bool
}.
Record CoreQualityLeg := mkLeg { leg_Status : string; leg_Reason : string }.
Record CoreQuality := mkCoreQuality {
  cq_Identity : string; cq_Status : string; cq_Score : Z; cq_Reason : string;
  cq_Audio : option CoreQualityLeg; cq_Video : option CoreQualityLeg; cq_Connection : option CoreQualityLeg
}.
Inductive core_err := ErrRoomRemote (ownerNodeID : string) | ErrClusterStateUnavailable.

(** A Go result: a value, and an error or nil. *)
Abbreviation answer A := (A * option core_err)%type.

(** The zero values, returned beside an error. *)
Definition no_room : CoreRoom := mkCoreRoom false 0 0 "" false.
Definition no_session : CoreSession := mkCoreSession false "" "" 0 false.

(** src/internal/api/service.go:376-382 [isRemote] *)
Definition isRemote (err : option core_err) : bool :=
  match err with Some (ErrRoomRemote _) => true | _ => false end.

(** src/internal/api/service.go:384-394 [remoteErr] *)
Definition remoteErr (err : option core_err) : APIError :=
  match err with
  | Some (ErrRoomRemote owner) => mkAPIError CodeRoomOnOtherNode "room is owned by another node" (Some owner)
  | _ => apiErr CodeInternalError "internal error"
  end.

(** ** Requests and responses *)

(** src/internal/api/dto.go:7-10 [createRoomRequest] *)
Record createRoomRequest := mkCreateRoom { req_RoomID : string; req_Metadata : gmap string string }.

(** src/internal/api/dto.go:12-25 [createTokenRequest] *)
Record permissionsRequest := mkPermsReq {
  req_Join : option bool; req_Publish : option bool; req_Subscribe : option bool; req_Control : option bool
}.
Record createTokenRequest := mkCreateToken {
  req_Identity : string; req_Name : string; req_Permissions : option permissionsRequest; req_TTLSeconds : Z;
  req_TokenMetadata : gmap string string
}.

(** src/internal/api/dto.go:29-49 [roomResponse] *)
Record connectionInfo := mkConnection { ServerURL : string; conn_RoomID : string }.
Record roomResponse := mkRoomResponse {
  resp_RoomID : string; resp_Status : RoomStatus; resp_Generation : Z; resp_Participants : Z;
  resp_Metadata : gmap string string; resp_CreatedAt : Z; resp_OwnerNodeID : string;
  resp_Connection : option connectionInfo
}.
Record closeRoomResponse := mkCloseResponse { close_RoomID : string; close_Status : RoomStatus; ParticipantsNotified : Z }.

(** src/internal/api/dto.go:51-105 [tokenResponse] *)
Record tokenResponse := mkTokenResponse {
  tok_Token : list byte; tok_Identity : string; tok_RoomID : string; tok_ExpiresAt : Z
}.
Record participantSummary := mkPartSummary {
  sum_Identity : string; sum_Name : string; sum_State : string; sum_Role : string; sum_Tracks : Z
}.
Record participantDetailResponse := mkPartDetail {
  det_Identity : string; det_Name : string; det_State : string; det_Role : string; det_Tracks : list CoreTrack;
  det_Ambiguous : bool
}.
Record sessionResponse := mkSessionResponse {
  sess_State : string; sess_Generation : Z; sess_Recoverable : bool; sess_SessionID : string
}.
Record roomQualityEntry := mkQualityEntry {
  qe_Identity : string; qe_Status : string; qe_Score : Z; qe_Reason : string
}.

(** ** Minting tokens *)

(** src/internal/api/token.go:14-21 [TokenIssuer] *)
Record TokenIssuer := mkIssuer {
  ti_secret : string; ti_issuer : string; ti_audience : string; ti_ttl : Z; ti_ttlMax : Z
}.

(** src/internal/api/token.go:23-36 [NewTokenIssuer] *)
Definition NewTokenIssuer (v : Validator) (cfg : Config) : TokenIssuer :=
  mkIssuer (v_secret v) (v_issuer v) (v_audience v) (TokenTTL cfg) (TokenTTLMax cfg).

(** src/internal/api/token.go:38-54 [TokenParams] *)
Record TokenParams := mkParams {
  tp_RoomID : string; tp_Identity : string; tp_Name : string; tp_Permissions : Permissions; tp_TTL : Z
}.

(** [Time.Unix]: whole seconds since 1970. *)
Definition to_Unix (t : Z) : Z := t / second - 62135596800.

(** src/internal/api/token.go:64-73 [Mint]  The clamp. *)
Definition clamp_ttl (ti : TokenIssuer) (ttl : Z) : Z :=
  let ttl := if ttl <=? 0 then ti_ttl ti else ttl in
  let ttl := if ti_ttlMax ti <? ttl then ti_ttlMax ti else ttl in
  if ttl <? second then second else ttl.

(** src/internal/api/token.go:56-96 [Mint]  [inl true]: there is no signing secret. *)
Definition minted_claims (ti : TokenIssuer) (p : TokenParams) (now : Z) : Claims :=
  mkClaims (tp_Identity p) (tp_Name p) (tp_RoomID p) (tp_Permissions p) (to_Unix now)
    (to_Unix (now + clamp_ttl ti (tp_TTL p))) (ti_issuer ti) (ti_audience ti) "".
Definition Mint {MC : Mac} {J : TokenJSON} (ti : TokenIssuer) (p : TokenParams) (now : Z) : bool + tokenResponse :=
  if blank (ti_secret ti) then inl true
  else match Sign (minted_claims ti p now) AlgHS256 (ti_secret ti) with
       | inl _ => inl false
       | inr tok => inr (mkTokenResponse tok (tp_Identity p) (tp_RoomID p) (now + clamp_ttl ti (tp_TTL p)))
       end.

(** ** The service *)

(** src/internal/api/service.go:318-329 [roomStatus] *)
Definition roomStatus (rec : RoomRecord) (cr : CoreRoom) : RoomStatus :=
  if Closed rec then RoomIsClosed
  else if cr_Recovering cr then RoomRecovering
  else if 0 <? cr_Participants cr then RoomActive
  else RoomEmpty.

(** src/internal/api/service.go:331-360 [resolveParticipant]  The participant, and
    whether the choice was ambiguous. *)
Definition subject_match (identity : string) (p : CoreParticipant) : bool :=
  bool_decide (cp_Subject p = identity) || String.prefix (identity +:+ ".") (cp_Identity p).
Definition resolveParticipant (l : list CoreParticipant) (identity : string) : option (CoreParticipant * bool) :=
  let identity := string_of (TrimSpace (bytes_of identity)) in
  match filter (λ p, cp_Identity p = identity) l with
  | p :: _ => Some (p, false)
  | [] =>
      match filter (λ p, subject_match identity p = true) l with
      | [] => None
      | [p] => Some (p, false)
      | p :: ms =>
          Some (foldl (λ best m, if str_lt (cp_Identity m) (cp_Identity best) then m else best) p ms, true)
      end
  end.

(** src/internal/api/service.go:369-374 [boolOr] *)
Definition boolOr (p : option bool) (def : bool) : bool := default def p.

Section service.
Context {MC : Mac} {J : TokenJSON} (cfg : Config) (issuer : TokenIssuer).

(** src/internal/api/service.go:311-316 [emit]  Without a webhook URL there is no
    dispatcher. *)
Definition emit_hook (type room : string) (data : hook_data) : AM unit :=
  when (negb (bool_decide (WebhookURL cfg = ""))) (emit (Hook type room data)).

(** src/internal/api/service.go:295-309 [roomResponse] *)
Definition room_response (rec : RoomRecord) (cr : CoreRoom) (withConnection : bool) : roomResponse :=
  mkRoomResponse (rr_RoomID rec) (roomStatus rec cr) (cr_Generation cr) (cr_Participants cr) (Metadata rec)
    (CreatedAt rec) (cr_OwnerNodeID cr)
    (if withConnection && negb (bool_decide (PublicWSURL cfg = ""))
     then Some (mkConnection (PublicWSURL cfg) (rr_RoomID rec)) else None).

(** src/internal/api/service.go:47-69 [createRoom]  [fresh] is the generated id,
    [core] the answer of Room. *)
Definition createRoom (req : createRoomRequest) (fresh : string) (core : string → answer CoreRoom) (now : Z)
    : AM (APIError + roomResponse * bool) :=
  let given := string_of (TrimSpace (bytes_of (req_RoomID req))) in
  let roomID := if decide (given = "") then fresh else given in
  match (if decide (given = "") then None else ValidateRoomID roomID) with
  | Some e => mret (inl e)
  | None =>
      match ValidateMetadata (map_to_list (req_Metadata req)) with
      | Some e => mret (inl e)
      | None =>
          rc ← GetOrCreate roomID (req_Metadata req) now;
          let '(rec, created) := rc in
          let '(cr, cerr) := core roomID in
          if isRemote cerr then mret (inl (remoteErr cerr))
          else
            when created (emit_hook "room.created" roomID (MetadataData (Metadata rec)));;
            mret (inr (room_response rec cr true, created))
      end
  end.

(** src/internal/api/service.go:71-87 [getRoom] *)
Definition getRoom (roomID : string) (core : answer CoreRoom) (now : Z) : AM (APIError + roomResponse) :=
  let '(cr, cerr) := core in
  match cerr with
  | Some (ErrRoomRemote _) => mret (inl (remoteErr cerr))
  | Some ErrClusterStateUnavailable => mret (inl (apiErr CodeClusterStateUnavailable "cluster state unavailable"))
  | None =>
      rec ← Get roomID now;
      match rec with
      | None =>
          if negb (cr_Exists cr) then mret (inl (apiErr CodeRoomNotFound "room not found"))
          else mret (inr (room_response (mkRecord roomID ∅ now false 0 0) cr false))
      | Some rec => mret (inr (room_response rec cr false))
      end
  end.

(** src/internal/api/service.go:89-110 [closeRoom]  [closing] is the answer of
    CloseRoom; the registry reads the clock three times. *)
Definition closeRoom (roomID : string) (core : answer CoreRoom) (closing : answer Z) (t1 t2 t3 : Z)
    : AM (APIError + closeRoomResponse) :=
  rec ← Get roomID t1;
  let '(cr, cerr) := core in
  if isRemote cerr then mret (inl (remoteErr cerr))
  else if bool_decide (rec = None) && negb (cr_Exists cr)
  then mret (inl (apiErr CodeRoomNotFound "room not found"))
  else if match rec with Some r => Closed r | None => false end
  then mret (inr (mkCloseResponse roomID RoomIsClosed 0))
  else
    emit (CloseAsked roomID "closed_by_api");;
    let '(n, err) := closing in
    when (bool_decide (err ≠ None) && negb (isRemote err)) (emit (Warned "api_close_room"));;
    EnsureExists roomID t2;;
    MarkClosed roomID t3;;
    emit_hook "room.closed" roomID (NotifiedData n);;
    mret (inr (mkCloseResponse roomID RoomIsClosed n)).
(** src/internal/api/service.go:128-139 [mintToken]  The permissions granted. *)
Definition requested_perms (req : createTokenRequest) : Permissions :=
  match req_Permissions req with
  | None => mkPerms true true true false
  | Some p => mkPerms (boolOr (req_Join p) true) (boolOr (req_Publish p) true) (boolOr (req_Subscribe p) true)
                (boolOr (req_Control p) false)
  end.

(** src/internal/api/service.go:114-165 [mintToken] *)
Definition mintToken (roomID : string) (req : createTokenRequest) (now t2 : Z) : AM (APIError + tokenResponse) :=
  match ValidateRoomID roomID with
  | Some e => mret (inl e)
  | None =>
      let identity := string_of (TrimSpace (bytes_of (req_Identity req))) in
      if decide (identity = "") then mret (inl (apiErr CodeInvalidRequest "identity is required"))
      else if 256 <? blen (bytes_of identity) then mret (inl (apiErr CodeInvalidRequest "identity is too long"))
      else match ValidateMetadata (map_to_list (req_TokenMetadata req)) with
      | Some e => mret (inl e)
      | None =>
          let perms := requested_perms req in
          if Control perms && negb (AllowControlTokens cfg)
          then mret (inl (apiErr CodeForbidden
                 "control tokens are disabled (set PULSERTC_API_ALLOW_CONTROL_TOKENS=true)"))
          else
            let ttl := if 0 <? req_TTLSeconds req then wrap64 (req_TTLSeconds req * second) else 0 in
            let name := string_of (TrimSpace (bytes_of (req_Name req))) in
            match Mint issuer (mkParams roomID identity name perms ttl) now with
            | inl true => mret (inl (apiErr CodeNotConfigured "token signing is not configured"))
            | inl false => mret (inl (apiErr CodeInternalError "could not mint token"))
            | inr tok =>
                EnsureExists roomID t2;;
                mret (inr tok)
            end
      end
  end.

(** src/internal/api/service.go:169-174 [connection] *)
Definition connection (roomID : string) : AM (APIError + connectionInfo) :=
  if decide (PublicWSURL cfg = "") then mret (inl (apiErr CodeNotConfigured "PULSERTC_PUBLIC_WS_URL is not set"))
  else mret (inr (mkConnection (PublicWSURL cfg) roomID)).

(** src/internal/api/service.go:278-293 [assertRoomKnown] *)
Definition assertRoomKnown (roomID : string) (hasLive : bool) (core : answer CoreRoom) (now : Z)
    : AM (option APIError) :=
  if hasLive then mret None
  else
    rec ← Get roomID now;
    match rec with
    | Some _ => mret None
    | None =>
        let '(cr, err) := core in
        if isRemote err then mret (Some (remoteErr err))
        else if negb (cr_Exists cr) then mret (Some (apiErr CodeRoomNotFound "room not found"))
        else mret None
    end.

(** src/internal/api/service.go:178-193 [participants] *)
Definition participants (roomID : string) (list_ : answer (list CoreParticipant)) (core : answer CoreRoom) (now : Z)
    : AM (APIError + list participantSummary) :=
  let '(l, err) := list_ in
  if isRemote err then mret (inl (remoteErr err))
  else
    e ← assertRoomKnown roomID (0 <? Z.of_nat (length l)) core now;
    match e with
    | Some e => mret (inl e)
    | None =>
        mret (inr ((λ p, mkPartSummary (cp_Identity p) (cp_Name p) (cp_State p) (cp_Role p)
                           (Z.of_nat (length (cp_Tracks p)))) <$> l))
    end.

(** src/internal/api/service.go:195-208 [participant] *)
Definition participant (identity : string) (list_ : answer (list CoreParticipant))
    : APIError + participantDetailResponse :=
  let '(l, err) := list_ in
  if isRemote err then inl (remoteErr err)
  else match resolveParticipant l identity with
       | None => inl (apiErr CodeParticipantNotFound "participant not found")
       | Some (p, ambiguous) =>
           inr (mkPartDetail (cp_Identity p) (cp_Name p) (cp_State p) (cp_Role p) (cp_Tracks p) ambiguous)
       end.

(** src/internal/api/service.go:210-230 [session] *)
Definition session (identity : string) (list_ : answer (list CoreParticipant)) (sess : string → answer CoreSession)
    : APIError + sessionResponse :=
  let '(l, err) := list_ in
  if isRemote err then inl (remoteErr err)
  else
    let subject := match resolveParticipant l identity with Some (p, _) => cp_Subject p | None => identity end in
    let '(cs, serr) := sess subject in
    if isRemote serr then inl (remoteErr serr)
    else if negb (cs_Exists cs) then inl (apiErr CodeSessionNotFound "no session for this participant")
    else inr (mkSessionResponse (cs_State cs) (cs_Generation cs) (cs_Recoverable cs) (cs_SessionID cs)).

(** src/internal/api/service.go:234-249 [roomQuality] *)
Definition roomQuality (roomID : string) (qs_ : answer (list CoreQuality)) (core : answer CoreRoom) (now : Z)
    : AM (APIError + list roomQualityEntry) :=
  let '(qs, err) := qs_ in
  if isRemote err then mret (inl (remoteErr err))
  else
    e ← assertRoomKnown roomID (0 <? Z.of_nat (length qs)) core now;
    match e with
    | Some e => mret (inl e)
    | None => mret (inr ((λ q, mkQualityEntry (cq_Identity q) (cq_Status q) (cq_Score q) (cq_Reason q)) <$> qs))
    end.

(** src/internal/api/service.go:251-274 [participantQuality] *)
Definition participantQuality (identity : string) (list_ : answer (list CoreParticipant))
    (qs_ : answer (list CoreQuality)) : APIError + CoreQuality :=
  let '(l, perr) := list_ in
  if isRemote perr then inl (remoteErr perr)
  else
    let target := match resolveParticipant l identity with Some (p, _) => cp_Identity p | None => identity end in
    let '(qs, err) := qs_ in
    if isRemote err then inl (remoteErr err)
    else match filter (λ q, cq_Identity q = target) qs with
         | q :: _ => inr q
         | [] => inl (apiErr CodeParticipantNotFound "participant not found")
         end.
End service.

(** ** Creating a room over HTTP *)

Section handlers.
Context (sha256 : list byte → list byte) (decode : list byte → string + createRoomRequest)
  (marshal : roomResponse → list byte).
Context (cfg : Config).

(** src/internal/api/handlers.go:30-69 [handleCreateRoom]  The body as far as it was
    read, the Idempotency-Key header, and what the handler writes: a status with a
    body, or an error. *)
Definition handleCreateRoom (raw : list byte) (idemHeader : list byte) (fresh : string)
    (core : string → answer CoreRoom) (now t2 : Z) : AM (APIError + Z * list byte) :=
  match (if decide (raw = []) then inr (mkCreateRoom "" ∅) else decode raw) with
  | inl why => mret (inl (apiErr CodeInvalidRequest ("invalid JSON: " +:+ why)))
  | inr req =>
      let idemKey := string_of (TrimSpace idemHeader) in
      cached ← idempotencyLookup sha256 idemKey raw;
      match cached with
      | IdemConflict =>
          mret (inl (apiErr CodeIdempotencyConflict "Idempotency-Key reused with a different body"))
      | IdemHit body st => mret (inr (st, body))
      | IdemMiss =>
          res ← createRoom cfg req fresh core now;
          match res with
          | inl e => mret (inl e)
          | inr (resp, created) =>
              let body := marshal resp in
              let st := if created : bool then 201 else 200 in
              idempotencyStore sha256 idemKey raw body st t2;;
              mret (inr (st, body))
          end
      end
  end.
End handlers.

(** ** A minted token and the door it opens *)

Lemma room_char_visible c : room_char c = true → visible c = true.
Proof. by destruct c. Qed.

Lemma last_is_Some {A} (l : list A) : l ≠ [] → ∃ d, last l = Some d.
Proof. intros H. destruct (last l) as [d|] eqn:E; [by exists d|]. by apply last_None in E. Qed.

Lemma valid_room_not_blank room :
  ValidateRoomID room = None →
  blank room = false ∧ plain room = true ∧ TrimSpace (bytes_of room) = bytes_of room ∧ room ≠ "".
Proof.
  unfold ValidateRoomID, blank, plain. destruct (decide (room = "")) as [|Hn]; [done|]. case_match; [done|].
  destruct (forallb room_char (bytes_of room)) eqn:Hf; [|done]. intros _. rewrite forallb_forall in Hf.
  assert (bytes_of room ≠ []) as Hb.
  { intros E. apply Hn. by rewrite <- (string_of_bytes_of room), E. }
  assert (TrimSpace (bytes_of room) = bytes_of room) as Ht.
  { destruct (last_is_Some _ Hb) as [d Hd]. destruct (bytes_of room) as [|c l] eqn:E; [done|].
    apply (TrimSpace_id (c :: l) c d); [done|done|apply room_char_visible, Hf; by left|].
    apply room_char_visible, Hf, list_elem_of_In. apply last_Some in Hd as [k ->]. set_solver. }
  split; [apply bool_decide_eq_false; by rewrite Ht|]. split; [|done].
  apply forallb_forall. intros x Hx. specialize (Hf x Hx). apply room_char_visible in Hf. unfold visible in Hf.
  zbool. apply andb_true_iff. split; apply Z.leb_le; lia.
Qed.

(** A trimmed, printable, non-empty string is still there after trimming again. *)
Lemma trimmed_not_blank s :
  let t := string_of (TrimSpace (bytes_of s)) in t ≠ "" → plain t = true → blank t = false.
Proof.
  cbv zeta. unfold plain, blank. rewrite bytes_of_string_of. intros Hn Hp. rewrite forallb_forall in Hp.
  assert (TrimSpace (bytes_of s) ≠ []) as Hb by (intros E; apply Hn; by rewrite E).
  assert (∀ c, In c (TrimSpace (bytes_of s)) → ascii_space c = false → visible c = true) as Hv.
  { intros c Hc Hs. specialize (Hp c Hc). by destruct c. }
  destruct (last_is_Some _ Hb) as [d Hd]. destruct (TrimSpace (bytes_of s)) as [|c l] eqn:E; [done|].
  apply bool_decide_eq_false. rewrite (TrimSpace_id (c :: l) c d); try done.
  - apply Hv; [by left|]. apply (TrimSpace_ends (bytes_of s)). left. by rewrite E.
  - apply Hv; [|apply (TrimSpace_ends (bytes_of s)); right; by rewrite E].
    apply list_elem_of_In. apply last_Some in Hd as [k ->]. set_solver.
Qed.

Lemma clamp_ttl_range ti ttl : second ≤ clamp_ttl ti ttl ≤ Z.max second (ti_ttlMax ti).
Proof. unfold clamp_ttl. repeat case_match; zbool; lia. Qed.

(** Whole seconds survive the round trip through Unix time. *)
Lemma Unix_roundtrip t : 0 ≤ t < 2 ^ 62 * second → time_Unix (to_Unix t) = t / second * second.
Proof.
  intros Ht. unfold time_Unix, to_Unix. rewrite wrap64_id; [f_equal; lia|].
  assert (0 ≤ t / second < 2 ^ 62); [|lia]. split; [apply Z.div_pos; unfold second in *; lia|].
  apply Z.div_lt_upper_bound; unfold second in *; lia.
Qed.

(** Midnight of 1 January 1970. *)
Definition unix_epoch : Z := 62135596800 * second.

Section minted.
Context {MC : Mac} {J : TokenJSON} {ML : MacLaws MC} {JL : TokenJSONLaws J}.

Lemma mintToken_ok cfg ti room req now t2 r tok :
  value (mintToken cfg ti room req now t2) r = inr tok →
  let identity := string_of (TrimSpace (bytes_of (req_Identity req))) in
  let name := string_of (TrimSpace (bytes_of (req_Name req))) in
  ∃ ttl, ValidateRoomID room = None ∧ identity ≠ ""
    ∧ (Control (requested_perms req) = true → AllowControlTokens cfg = true)
    ∧ Mint ti (mkParams room identity name (requested_perms req) ttl) now = inr tok.
Proof.
  unfold mintToken. destruct (ValidateRoomID room); [done|]. cbv zeta.
  destruct (decide (_ = "")); [done|]. destruct (256 <? _); [done|].
  destruct (ValidateMetadata _); [done|]. destruct (Control _ && _) eqn:Ec; [done|].
  destruct (Mint _ _ _) as [[]|tok'] eqn:Em; try done. rewrite value_bind. intros [= ->].
  eexists. split; [done|]. split; [done|]. split; [|exact Em]. intros E. rewrite E in Ec. simpl in Ec.
  by apply negb_false_iff.
Qed.

(** The policy check of a minted token, from its minting on. *)
Lemma minted_policy v cfg p now t :
  unix_epoch + second ≤ now → now ≤ t → t < 2 ^ 60 * second → TokenTTLMax cfg ≤ max_duration →
  0 ≤ v_leeway v → blank (tp_Identity p) = false →
  (0 < v_maxTokenAge v → t - now + second ≤ v_maxTokenAge v + v_leeway v ≤ max_duration) →
  policy v (minted_claims (NewTokenIssuer v cfg) p now) t
  = if (now + clamp_ttl (NewTokenIssuer v cfg) (tp_TTL p)) / second * second + v_leeway v <? t
    then Some errExpired else None.
Proof.
  intros Hnow Ht Hbig Hmax Hlee Hsub Hage. unfold policy, minted_claims. cbn [cl_ExpiresAt cl_IssuedAt cl_Subject
    cl_Issuer cl_Audience].
  pose proof (clamp_ttl_range (NewTokenIssuer v cfg) (tp_TTL p)) as Hc. simpl in Hc.
  set (ttl := clamp_ttl (NewTokenIssuer v cfg) (tp_TTL p)) in *.
  assert (0 < second) by done. unfold unix_epoch in Hnow.
  assert (62135596801 ≤ now / second) as Hq by (apply Z.div_le_lower_bound; lia).
  assert (now / second ≤ (now + ttl) / second) by (apply Z.div_le_mono; lia).
  rewrite (proj2 (Z.eqb_neq (to_Unix (now + ttl)) 0)) by (unfold to_Unix; lia).
  rewrite (proj2 (Z.eqb_neq (to_Unix now) 0)) by (unfold to_Unix; lia).
  rewrite !Unix_roundtrip by (unfold max_duration, second in *; lia).
  destruct (_ <? t); [done|].
  pose proof (Z.mul_div_le now second ltac:(done)). pose proof (Z.mod_pos_bound now second ltac:(done)).
  pose proof (Z.div_mod now second ltac:(done)).
  rewrite (proj2 (Z.ltb_ge _ _)) by lia.
  assert (((0 <? v_maxTokenAge v) && (wrap64 (v_maxTokenAge v + v_leeway v) <? time_sub t (now / second * second))) = false)
    as ->.
  { destruct (0 <? v_maxTokenAge v) eqn:E; [|done]. zbool. specialize (Hage E). simpl. apply Z.ltb_ge.
    rewrite wrap64_id by (unfold max_duration in *; lia). unfold time_sub, min_duration, max_duration in *. lia. }
  rewrite Hsub. simpl. rewrite (bool_decide_eq_true_2 (v_issuer v = v_issuer v)) by done.
  rewrite (bool_decide_eq_true_2 (v_audience v = v_audience v)) by done. by rewrite !andb_false_r.
Qed.

End minted.

(** ** The gate *)

(** The walk over all keys finds the one presented, whatever its order. *)
Lemma scan_keys p (l : list (string * APIKey)) acc :
  NoDup l.*1 →
  foldl (λ found '(stored, k), if decide (bytes_of stored = p) then Some k else found) acc l
  = match list_to_map (M := gmap string APIKey) l !! string_of p with Some k => Some k | None => acc end.
Proof.
  revert acc. induction l as [|[s k] l IH]; intros acc Hn; [done|]. csimpl in *.
  apply NoDup_cons in Hn as [Hs Hn]. rewrite IH by done.
  destruct (decide (bytes_of s = p)) as [<-|Hne].
  - rewrite string_of_bytes_of, lookup_insert_eq. rewrite not_elem_of_list_to_map_1 by done. done.
  - rewrite lookup_insert_ne; [done|]. intros ->. by rewrite bytes_of_string_of in Hne.
Qed.

Lemma authenticate_lookup m r :
  authenticate m r = if decide (presented r = []) then None else mw_keys m !! string_of (presented r).
Proof.
  unfold authenticate. case_decide; [done|]. rewrite scan_keys by apply NoDup_fst_map_to_list.
  rewrite list_to_map_to_list. by destruct (mw_keys m !! _).
Qed.

(** Of several entries for one key, the last one counts. *)
Lemma newMiddleware_lookup cfg s :
  mw_keys (newMiddleware cfg) !! s = last (filter (λ k, k_Key k = s) (Keys cfg)).
Proof.
  simpl. induction (Keys cfg) as [|k ks IH] using rev_ind; [done|].
  rewrite foldl_snoc, filter_app, last_app. simpl. rewrite filter_cons. case_decide as E.
  - subst s. rewrite filter_nil. simpl. by rewrite lookup_insert_eq.
  - rewrite filter_nil. simpl. by rewrite lookup_insert_ne.
Qed.

(** The middleware after a sequence of requests. *)
Definition serve (m : middleware) (reqs : list (Scope * api_request * Z)) : middleware :=
  foldl (λ m '(sc, r, now), (wrap m sc r now).2) m reqs.

Lemma wrap_config m sc r now :
  mw_enabled (wrap m sc r now).2 = mw_enabled m ∧ mw_keys (wrap m sc r now).2 = mw_keys m.
Proof.
  unfold wrap. destruct (mw_enabled m) eqn:E; simpl; [|done]. destruct (authenticate m r) as [k|]; simpl; [|done].
  destruct (Has k sc); simpl; [|done]. destruct (Allow _ _ _) as [[] rl]; simpl; done.
Qed.

Lemma serve_config m reqs : mw_enabled (serve m reqs) = mw_enabled m ∧ mw_keys (serve m reqs) = mw_keys m.
Proof.
  revert m. induction reqs as [|[[sc r] now] reqs IH]; intros m; [done|].
  destruct (IH (wrap m sc r now).2) as [E1 E2]. destruct (wrap_config m sc r now) as [W1 W2].
  unfold serve in *. simpl. by rewrite E1, E2.
Qed.

(** The API serves exactly the keys configured, within their scopes.  After any
    sequence of requests to an API that is not disabled, a handler runs if and only
    if the request presents, in either header and blanks aside, a non-empty
    credential equal to a configured key, the last entry for that key grants the
    scope of the route, and the key's bucket has a token at that time.  A request
    without such a key is answered 401, one outside the scopes 403, one over the
    limit 429, and only a request that passed the first two draws on the limiter. *)
Theorem api_gate_exact cfg reqs scope r now :
  let m := serve (newMiddleware cfg) reqs in
  let key := if decide (presented r = []) then None
             else last (filter (λ k, k_Key k = string_of (presented r)) (Keys cfg)) in
  Enabled cfg = true →
  match key with
  | None => wrap m scope r now = (inl (apiErr CodeUnauthorized "missing or invalid API key"), m)
  | Some k =>
      if decide (scope ∈ k_Scopes k)
      then (wrap m scope r now).1
           = (if (Allow (mw_limiter m) (k_Key k) now).1 then inr (Some k)
              else inl (apiErr CodeRateLimited "rate limit exceeded"))
           ∧ mw_limiter (wrap m scope r now).2 = (Allow (mw_limiter m) (k_Key k) now).2
      else wrap m scope r now
           = (inl (apiErr CodeForbidden ("API key lacks required scope: " +:+ scope_string scope)), m)
  end
  ∧ statusFor CodeUnauthorized = 401 ∧ statusFor CodeForbidden = 403 ∧ statusFor CodeRateLimited = 429.
Proof.
  cbv zeta. intros He. split; [|by vm_compute].
  destruct (serve_config (newMiddleware cfg) reqs) as [E1 E2]. set (m := serve _ reqs) in *.
  unfold wrap. rewrite E1. simpl mw_enabled. rewrite He. simpl negb.
  assert (authenticate m r = if decide (presented r = []) then None
            else last (filter (λ k, k_Key k = string_of (presented r)) (Keys cfg))) as Ea.
  { rewrite authenticate_lookup, E2. by rewrite newMiddleware_lookup. }
  rewrite Ea. destruct (if decide (presented r = []) then _ else _) as [k|]; [|done].
  unfold Has. destruct (decide (scope ∈ k_Scopes k)) as [Hs|Hs].
  - rewrite bool_decide_eq_true_2 by done. simpl. by destruct (Allow _ _ _) as [[] rl].
  - by rewrite bool_decide_eq_false_2.
Qed.

(** ** Idempotent creation *)

(** The steps other requests and the maintenance loop take on the registry. *)
Inductive registry_op :=
| OGetOrCreate (room : string) (md : gmap string string) (now : Z)
| OEnsureExists (room : string) (now : Z)
| OGet (room : string) (now : Z)
| OMarkClosed (room : string) (now : Z)
| OSweep (now : Z)
| OStore (key : string) (body resp : list byte) (st now : Z).

Section idempotent.
Context (sha256 : list byte → list byte) (decode : list byte → string + createRoomRequest)
  (marshal : roomResponse → list byte) (cfg : Config).

Definition perform (o : registry_op) : AM unit :=
  match o with
  | OGetOrCreate room md now => GetOrCreate room md now;; mret tt
  | OEnsureExists room now => EnsureExists room now
  | OGet room now => Get room now;; mret tt
  | OMarkClosed room now => MarkClosed room now;; mret tt
  | OSweep now => Sweep now
  | OStore key body resp st now => idempotencyStore sha256 key body resp st now
  end.

(** The step leaves the entry of [key], stored at [t], alone: it stores under another
    key, and does not sweep later than the entry's lifetime. *)
Definition spares (key : string) (t ttl : Z) (o : registry_op) : Prop :=
  match o with
  | OStore key' _ _ _ _ => key' ≠ key
  | OSweep now => time_sub now t ≤ ttl
  | _ => True
  end.

(** The entry is there. *)
Definition holds (key : string) (e : idemEntry) (ttl : Z) (r : RoomRegistry) : Prop :=
  idem r !! key = Some e ∧ idemTTL r = ttl.

Lemma holds_rooms key e ttl f : preserves (holds key e ttl) (upd_rooms f).
Proof. by intros r [H1 H2]. Qed.

Lemma holds_perform key e ttl o : spares key (stored_at e) ttl o → preserves (holds key e ttl) (perform o).
Proof.
  intros Ho. destruct o; simpl in Ho |- *;
    unfold GetOrCreate, EnsureExists, Get, MarkClosed, Sweep, idempotencyStore;
    intros r [H1 H2]; repeat (autorewrite with mrun; try case_match; try case_decide); try done.
  - split; [|done]. simpl. apply map_lookup_filter_Some. split; [done|]. simpl. rewrite H2. by apply Z.ltb_ge.
  - split; [|done]. simpl. by rewrite lookup_insert_ne.
Qed.

Lemma createRoom_idem req fresh core now s :
  idem (final (createRoom cfg req fresh core now) s) = idem s
  ∧ idemTTL (final (createRoom cfg req fresh core now) s) = idemTTL s.
Proof.
  set (same := λ r, idem r = idem s ∧ idemTTL r = idemTTL s).
  assert (∀ f, preserves same (upd_rooms f)) as Hu by by intros f r [].
  assert (∀ room md t, preserves same (GetOrCreate room md t)) as Hg.
  { intros room md t. unfold GetOrCreate. apply preserves_bind; [apply preserves_get|]. intros r.
    case_match; (apply preserves_bind; [apply Hu|intros _; apply preserves_ret]). }
  assert (preserves same (createRoom cfg req fresh core now)) as H; [|by apply H].
  unfold createRoom. destruct (if decide _ then None else _); [apply preserves_ret|].
  destruct (ValidateMetadata _); [apply preserves_ret|]. apply preserves_bind; [apply Hg|].
  intros [rec created]. destruct (core _) as [cr cerr]. destruct (isRemote cerr); [apply preserves_ret|].
  apply preserves_bind; [|intros _; apply preserves_ret]. apply preserves_when. unfold emit_hook.
  apply preserves_when, preserves_emit.
Qed.

(** C30: Creating a room is idempotent under an idempotency key.  When a request with
    a key that is not in the cache succeeds, then after any other requests, and
    sweeps within the entry's lifetime, that do not store under this key: the same
    request is answered with the same status and body, creating nothing, emitting
    nothing and changing nothing; and a request with the same key and a body of
    another hash is refused as a conflict, and changes nothing either. *)
Theorem create_idempotent raw hdr fresh core now t2 s st body ops :
  let key := string_of (TrimSpace hdr) in
  let handle := handleCreateRoom sha256 decode marshal cfg in
  let s1 := final (handle raw hdr fresh core now t2) s in
  let s2 := final (for_each ops perform) s1 in
  key ≠ "" → idem s !! key = None → value (handle raw hdr fresh core now t2) s = inr (st, body) →
  Forall (spares key t2 (idemTTL s)) ops →
  (∀ fresh' core' now' t2',
     handle raw hdr fresh' core' now' t2' s2 = (inr (st, body), s2, []))
  ∧ (∀ raw' req' fresh' core' now' t2',
     raw' ≠ [] → decode raw' = inr req' → sha256 raw' ≠ sha256 raw →
     handle raw' hdr fresh' core' now' t2' s2
     = (inl (apiErr CodeIdempotencyConflict "Idempotency-Key reused with a different body"), s2, [])).
Proof.
  cbv zeta. intros Hk Hmiss Hv Hops.
  set (key := string_of (TrimSpace hdr)) in *.
  set (req := if decide (raw = []) then inr (mkCreateRoom "" ∅) else decode raw).
  assert (∃ r, req = inr r
    ∧ holds key (mkIdem (hashBody sha256 raw) body st t2) (idemTTL s)
        (final (handleCreateRoom sha256 decode marshal cfg raw hdr fresh core now t2) s)) as (r & Er & Hh).
  { unfold handleCreateRoom in Hv |- *. fold req in Hv |- *. destruct req as [why|r]; [done|]. exists r. split; [done|].
    unfold idempotencyLookup in Hv |- *. fold key in Hv |- *. rewrite decide_False in Hv |- * by done.
    autorewrite with mrun in Hv |- *. rewrite Hmiss in Hv |- *. autorewrite with mrun in Hv |- *.
    destruct (createRoom_idem r fresh core now s) as [E1 E2].
    destruct (value (createRoom cfg r fresh core now) s) as [e|[resp created]]; [done|].
    unfold idempotencyStore in *. rewrite decide_False in Hv |- * by done.
    autorewrite with mrun in Hv |- *. injection Hv as <- <-.
    split; [apply lookup_insert_eq|done]. }
  assert (holds key (mkIdem (hashBody sha256 raw) body st t2) (idemTTL s)
    (final (for_each ops perform) (final (handleCreateRoom sha256 decode marshal cfg raw hdr fresh core now t2) s)))
    as [H2 _].
  { apply (preserves_for_each (holds key (mkIdem (hashBody sha256 raw) body st t2) (idemTTL s))); [|done].
    intros o Ho. apply holds_perform. rewrite list.Forall_forall in Hops. by apply Hops. }
  set (s2 := final (for_each ops perform) _) in *. split.
  - intros fresh' core' now' t2'. unfold handleCreateRoom. fold req. rewrite Er. fold key.
    unfold idempotencyLookup. rewrite decide_False by done. unfold mbind, M_bind, get. rewrite H2. simpl.
    by rewrite decide_True.
  - intros raw' req' fresh' core' now' t2' Hn Hd Hne. unfold handleCreateRoom. rewrite decide_False, Hd by done.
    fold key. unfold idempotencyLookup. rewrite decide_False by done. unfold mbind, M_bind, get. rewrite H2. simpl.
    rewrite decide_False; [done|]. unfold hashBody. intros E. by apply hex_encode_inj in E.
Qed.
End idempotent.

(** ** Closing *)

(** The step leaves the record of a room closed at [t] alone. *)
Definition spares_closed (room : string) (t ret : Z) (o : registry_op) : Prop :=
  match o with
  | OMarkClosed room' _ => room' ≠ room
  | OSweep now => time_sub now t ≤ ret
  | _ => True
  end.

Definition closed_since (room : string) (t ret : Z) (r : RoomRegistry) : Prop :=
  retention r = ret ∧ ∃ rec, rooms r !! room = Some rec ∧ Closed rec = true ∧ closedAt rec = t.

Lemma closed_perform sha256 room t ret o :
  spares_closed room t ret o → preserves (closed_since room t ret) (perform sha256 o).
Proof.
  intros Ho r (Hr & rec & E & Hc & Ht).
  assert (∀ room' rec', (room' = room → Closed rec' = true ∧ closedAt rec' = t) →
    closed_since room t ret (final (upd_rooms <[room' := rec']>) r)) as Hins.
  { intros room' rec' H. split; [done|]. destruct (decide (room' = room)) as [->|Hne].
    - exists rec'. split; [apply lookup_insert_eq|by apply H].
    - exists rec. split; [simpl; by rewrite lookup_insert_ne|done]. }
  assert (closed_since room t ret r) as Hsame by (split; [done|by exists rec]).
  destruct o as [room' md now|room' now|room' now|room' now|now|key body resp st now]; simpl in Ho |- *.
  - unfold GetOrCreate. rewrite !final_bind. autorewrite with mrun.
    destruct (rooms r !! room') eqn:E'; autorewrite with mrun; apply Hins; intros ->; simplify_eq/=; auto.
  - unfold EnsureExists. autorewrite with mrun. destruct (rooms r !! room') eqn:E'; [done|]. apply Hins. intros ->. congruence.
  - unfold Get. autorewrite with mrun. destruct (rooms r !! room') eqn:E'; autorewrite with mrun; [|done].
    apply Hins. intros ->. simplify_eq/=; auto.
  - unfold MarkClosed. autorewrite with mrun. destruct (rooms r !! room') eqn:E'; autorewrite with mrun; [|done]. by apply Hins.
  - unfold Sweep. autorewrite with mrun. split; [done|]. exists rec. split; [|done]. simpl.
    apply map_lookup_filter_Some. split; [done|]. simpl. unfold overdue. rewrite Hc, Ht, Hr. by apply Z.ltb_ge.
  - unfold idempotencyStore. by case_decide.
Qed.

Lemma EnsureThenMark room t2 t3 r :
  closed_since room t3 (retention r) (final (EnsureExists room t2;; MarkClosed room t3;; mret tt) r).
Proof.
  unfold EnsureExists, MarkClosed. rewrite !final_bind. autorewrite with mrun.
  destruct (rooms r !! room) as [rec|] eqn:E; autorewrite with mrun.
  - rewrite E. autorewrite with mrun. split; [done|]. simpl. rewrite lookup_insert_eq. by eexists.
  - simpl. rewrite lookup_insert_eq. autorewrite with mrun. split; [done|]. simpl. rewrite lookup_insert_eq. by eexists.
Qed.

(** A successful close of an open room marks it closed. *)
Lemma closeRoom_closes cfg room core closing t1 t2 t3 s resp :
  value (closeRoom cfg room core closing t1 t2 t3) s = inr resp →
  (∀ rec, rooms s !! room = Some rec → Closed rec = false) →
  closed_since room t3 (retention s) (final (closeRoom cfg room core closing t1 t2 t3) s)
  ∧ close_Status resp = RoomIsClosed.
Proof.
  intros Hv Hopen. unfold closeRoom in *. rewrite value_bind in Hv. rewrite final_bind.
  assert (retention (final (Get room t1) s) = retention s ∧ match value (Get room t1) s with Some r => Closed r | None => false end = false)
    as [Hret Hrec].
  { unfold Get. autorewrite with mrun. destruct (rooms s !! room) as [rec|] eqn:E; autorewrite with mrun; [|done].
    split; [done|]. simpl. by apply Hopen. }
  destruct core as [cr cerr]. destruct (isRemote cerr); [done|]. destruct (_ && _); [done|].
  rewrite Hrec in Hv |- *. set (s1 := final (Get room t1) s) in *. destruct closing as [n err].
  pose proof (EnsureThenMark room t2 t3 s1) as Hm. rewrite Hret in Hm.
  rewrite !final_bind in Hm. rewrite !final_bind. rewrite final_emit. rewrite !value_bind in Hv.
  assert (∀ b m r, final (when b (emit m) : AM unit) r = r) as Hw by by intros [].
  unfold emit_hook in *. rewrite !Hw. split; [exact Hm|]. by injection Hv as <-.
Qed.

(** A closed room stays closed for its retention, and no longer.  When closing a
    room that was not closed succeeds, then after any requests that do not close it
    again, and sweeps within the retention: reading the room reports CLOSED whatever
    the core says of it, creating it again reports CLOSED too, makes no record and
    emits no event; and the first sweep after the retention forgets it. *)
Theorem closed_until_swept sha256 cfg room core closing t1 t2 t3 s resp ops :
  value (closeRoom cfg room core closing t1 t2 t3) s = inr resp →
  (∀ rec, rooms s !! room = Some rec → Closed rec = false) →
  Forall (spares_closed room t3 (retention s)) ops →
  let s2 := final (for_each ops (perform sha256)) (final (closeRoom cfg room core closing t1 t2 t3) s) in
  close_Status resp = RoomIsClosed
  ∧ (∀ cr now, resp_Status <$> (match value (getRoom cfg room (cr, None) now) s2 with inr x => Some x | inl _ => None end)
       = Some RoomIsClosed)
  ∧ (∀ md fresh cr now, ValidateRoomID room = None → ValidateMetadata (map_to_list md) = None →
       (∃ resp', value (createRoom cfg (mkCreateRoom room md) fresh (λ _, (cr, None)) now) s2 = inr (resp', false)
          ∧ resp_Status resp' = RoomIsClosed)
       ∧ outputs (createRoom cfg (mkCreateRoom room md) fresh (λ _, (cr, None)) now) s2 = [])
  ∧ (∀ now, retention s < time_sub now t3 → rooms (final (Sweep now) s2) !! room = None).
Proof.
  intros Hv Hopen Hops s2.
  assert (closed_since room t3 (retention s) (final (closeRoom cfg room core closing t1 t2 t3) s)
          ∧ close_Status resp = RoomIsClosed) as [Hc Hst] by by apply closeRoom_closes.
  assert (closed_since room t3 (retention s) s2) as (Hr & rec & E & Hcl & Hat).
  { apply (preserves_for_each (closed_since room t3 (retention s))); [|done].
    intros o Ho. apply closed_perform. rewrite list.Forall_forall in Hops. by apply Hops. }
  clearbody s2. split; [done|]. split; [|split].
  - intros cr now. unfold getRoom, Get. autorewrite with mrun. rewrite E. autorewrite with mrun. simpl.
    unfold roomStatus. simpl. by rewrite Hcl.
  - intros md fresh cr now Hroom Hmd. destruct (valid_room_not_blank room Hroom) as (_ & _ & Ht & Hne).
    unfold createRoom. cbn [req_RoomID req_Metadata]. rewrite Ht, string_of_bytes_of, !(decide_False (P := room = "")) by done.
    rewrite Hroom, Hmd. unfold GetOrCreate. autorewrite with mrun. rewrite E. autorewrite with mrun. simpl.
    split; [|done]. eexists. split; [done|]. simpl. unfold roomStatus. simpl. by rewrite Hcl.
  - intros now Hnow. unfold Sweep. autorewrite with mrun. simpl. apply map_lookup_filter_None. right.
    intros rec' E'. simplify_eq/=. unfold overdue. rewrite Hcl, Hr. by rewrite (proj2 (Z.ltb_lt _ _)).
Qed.

(** ** API keys as text *)

Definition print_key (k : APIKey) : list byte :=
  bytes_of (k_Key k) ++ x3a :: join_on x2c ((bytes_of ∘ scope_string) <$> k_Scopes k).

Definition print_keys (ks : list APIKey) : list byte := join_on x3b (print_key <$> ks).

(** A key the format can carry: visible characters other than [;] and [:]. *)
Definition key_char (c : byte) : bool := visible c && negb (bool_decide (c = x3b ∨ c = x3a)).

Definition clean_key (k : APIKey) : Prop := k_Key k ≠ "" ∧ forallb key_char (bytes_of (k_Key k)) = true.

Definition entry_sep (c : byte) : bool := bool_decide (c = x3b ∨ c = x0a).

Lemma fields_one p :
  p ≠ [] → Forall (λ c, entry_sep c = false) p → fields_func entry_sep p = [p].
Proof.
  induction p as [|c p IH]; [done|]. intros _ Hf. apply Forall_cons_1 in Hf as [Hc Hp]. simpl. rewrite Hc.
  destruct p as [|d p]; [done|]. rewrite IH by done. apply Forall_cons_1 in Hp as [Hd _]. by rewrite Hd.
Qed.

Lemma fields_cons p l :
  p ≠ [] → Forall (λ c, entry_sep c = false) p →
  fields_func entry_sep (p ++ x3b :: l) = p :: fields_func entry_sep l.
Proof.
  induction p as [|c p IH]; [done|]. intros _ Hf. apply Forall_cons_1 in Hf as [Hc Hp].
  rewrite <- app_comm_cons. cbn [fields_func]. rewrite Hc. destruct p as [|d p].
  - simpl. by destruct (fields_func entry_sep l).
  - rewrite IH by done. apply Forall_cons_1 in Hp as [Hd _]. simpl. by rewrite Hd.
Qed.

Lemma fields_join ps :
  Forall (λ p, p ≠ [] ∧ Forall (λ c, entry_sep c = false) p) ps → fields_func entry_sep (join_on x3b ps) = ps.
Proof.
  induction ps as [|p ps IH]; [done|]. intros Hf. apply Forall_cons_1 in Hf as [[Hn Hp] Hps].
  destruct ps as [|q ps]; [by apply fields_one|].
  change (join_on x3b (p :: q :: ps)) with (p ++ x3b :: join_on x3b (q :: ps)).
  rewrite fields_cons by done. by rewrite IH.
Qed.

Lemma split_join sep ps :
  ps ≠ [] → Forall (λ p, sep ∉ p) ps → split_on sep (join_on sep ps) = ps.
Proof.
  induction ps as [|p ps IH]; [done|]. intros _ Hf. apply Forall_cons_1 in Hf as [Hp Hps].
  destruct ps as [|q ps]; [by apply split_on_last|].
  change (join_on sep (p :: q :: ps)) with (p ++ sep :: join_on sep (q :: ps)).
  rewrite split_on_cons by done. by rewrite IH.
Qed.

Lemma scope_token_string sc : scope_token (bytes_of (scope_string sc)) = [sc].
Proof. by destruct sc. Qed.

Lemma scopes_roundtrip scs :
  split_on x2c (join_on x2c ((bytes_of ∘ scope_string) <$> scs)) ≫= scope_token = scs.
Proof.
  destruct scs as [|sc scs]; [done|]. rewrite split_join; [|done|].
  - induction (sc :: scs) as [|s l IH]; [done|]. csimpl. rewrite IH. by rewrite scope_token_string.
  - apply Forall_fmap, Forall_true. intros s. simpl. apply (bool_decide_unpack _). by destruct s.
Qed.

Lemma cut_colon_app k l : x3a ∉ k → cut_colon (k ++ x3a :: l) = (k, Some l).
Proof.
  induction k as [|c k IH]; intros Hn; [done|]. simpl. rewrite decide_False by set_solver.
  rewrite IH by set_solver. done.
Qed.

Lemma print_key_visible k c : clean_key k → c ∈ print_key k → visible c = true ∧ entry_sep c = false.
Proof.
  intros [_ Hk] Hc. unfold print_key in Hc. apply elem_of_app in Hc as [Hc|Hc].
  - rewrite forallb_forall in Hk. apply list_elem_of_In, Hk in Hc. unfold key_char in Hc.
    apply andb_prop in Hc as [Hv Hs]. split; [done|]. by destruct c.
  - apply elem_of_cons in Hc as [-> |Hc]; [done|].
    assert (∀ ps, (∀ p, p ∈ ps → ∀ x, x ∈ p → visible x = true ∧ entry_sep x = false) →
      ∀ x, x ∈ join_on x2c ps → visible x = true ∧ entry_sep x = false) as H.
    { intros ps. induction ps as [|p ps IH]; intros Hps x Hx; [by apply elem_of_nil in Hx|].
      destruct ps as [|q ps]; [by apply (Hps p ltac:(set_solver))|].
      change (join_on x2c (p :: q :: ps)) with (p ++ x2c :: join_on x2c (q :: ps)) in Hx.
      apply elem_of_app in Hx as [Hx|Hx]; [by apply (Hps p ltac:(set_solver))|].
      apply elem_of_cons in Hx as [-> |Hx]; [done|]. apply IH; [|done]. intros p' Hp'. apply Hps. set_solver. }
    apply (H _) in Hc; [done|]. intros p Hp x Hx. apply list_elem_of_fmap in Hp as (sc & -> & _). simpl in Hx.
    revert x Hx. apply list.Forall_forall. by destruct sc; repeat constructor.
Qed.

(** Text whose characters are all visible is not changed by trimming. *)
Lemma TrimSpace_visible l : (∀ c, c ∈ l → visible c = true) → TrimSpace l = l.
Proof.
  intros Hv. destruct l as [|c l]; [done|]. destruct (last_is_Some (c :: l)) as [d Hd]; [done|].
  apply (TrimSpace_id (c :: l) c d); [done|done|apply Hv; set_solver|]. apply Hv.
  apply last_Some in Hd as [k ->]. set_solver.
Qed.

Lemma parse_print_key k : clean_key k → parse_entry (print_key k) = Some k.
Proof.
  intros Hk. unfold parse_entry. rewrite TrimSpace_visible by (intros c Hc; by apply (print_key_visible k c)).
  pose proof Hk as [Hn Hf]. rewrite forallb_forall in Hf. cbv zeta.
  rewrite decide_False by (unfold print_key; by destruct (bytes_of (k_Key k))).
  unfold print_key at 1. rewrite cut_colon_app.
  2: { intros Hc. apply list_elem_of_In, Hf in Hc. done. }
  rewrite (TrimSpace_visible (bytes_of (k_Key k))).
  2: { intros c Hc. apply list_elem_of_In, Hf in Hc. unfold key_char in Hc. by apply andb_prop in Hc as [? _]. }
  rewrite decide_False by (intros E; apply Hn; by rewrite <- (string_of_bytes_of (k_Key k)), E).
  rewrite scopes_roundtrip, string_of_bytes_of. by destruct k.
Qed.

(** The key list is read as it is written.  For keys of visible characters other
    than the separators, each with any list of scopes, the environment variable that
    lists them parses to exactly these keys with exactly these scopes. *)
Theorem api_keys_roundtrip ks :
  Forall clean_key ks → ParseAPIKeys (string_of (print_keys ks)) = ks.
Proof.
  intros Hks. unfold ParseAPIKeys. rewrite bytes_of_string_of.
  assert (TrimSpace (print_keys ks) = print_keys ks) as ->.
  { apply TrimSpace_visible. unfold print_keys. intros c Hc.
    induction Hks as [|k ks Hk Hks IH]; [by apply elem_of_nil in Hc|]. destruct ks as [|k' ks]; csimpl in Hc.
    - by apply (print_key_visible k c).
    - apply elem_of_app in Hc as [Hc|Hc]; [by apply (print_key_visible k c)|].
      apply elem_of_cons in Hc as [-> |Hc]; [done|]. by apply IH. }
  assert (omap parse_entry (fields_func entry_sep (print_keys ks)) = ks) as E.
  { unfold print_keys. rewrite fields_join.
    - induction Hks as [|k ks Hk Hks IH]; [done|]. csimpl. by rewrite parse_print_key, IH.
    - apply Forall_fmap. eapply Forall_impl; [exact Hks|]. intros k Hk. simpl. split.
      + unfold print_key. by destruct (bytes_of (k_Key k)).
      + apply list.Forall_forall. intros c Hc. by apply (print_key_visible k c). }
  cbv zeta. destruct (decide (print_keys ks = [])) as [E0|]; [|exact E].
  rewrite E0 in E. simpl in E. by rewrite <- E.
Qed.

(** ** Concrete runs *)

Definition demo_keys : list APIKey :=
  [mkKey "backend-1" [RoomsCreate; TokensCreate]; mkKey "dash" [RoomsRead; QualityRead]; mkKey "none" []].

Definition demo_config : Config :=
  mkApiConfig true demo_keys 600 "wss://rtc.example/ws" (3600 * second) (43200 * second) false 0
    "https://app.example/hooks" "".

Definition demo_token_req : createTokenRequest :=
  mkCreateToken " alice " "Alice" (Some (mkPermsReq None (Some false) None None)) 600 ∅.

Definition demo_token : APIError + tokenResponse :=
  value (mintToken (MC := toy_mac) (J := toy_json) demo_config (NewTokenIssuer demo_validator demo_config)
           "room-1" demo_token_req demo_now 0) (NewRoomRegistry 0).


Lemma api_gate_exact_witness :
  let m := newMiddleware demo_config in
  (wrap m RoomsCreate (mkApiRequest (bytes_of " backend-1") []) 0).1 = inr (Some (mkKey "backend-1" [RoomsCreate; TokensCreate]))
  ∧ (wrap m RoomsClose (mkApiRequest [] (bytes_of "Bearer dash")) 0).1
    = inl (apiErr CodeForbidden "API key lacks required scope: rooms:close").
Proof.
  destruct (api_gate_exact demo_config [] RoomsCreate (mkApiRequest (bytes_of " backend-1") []) 0 eq_refl) as [[H1 _] _].
  destruct (api_gate_exact demo_config [] RoomsClose (mkApiRequest [] (bytes_of "Bearer dash")) 0 eq_refl) as [H2 _].
  split.
  - etransitivity; [exact H1|]. vm_compute. reflexivity.
  - etransitivity; [exact (f_equal fst H2)|]. vm_compute. reflexivity.
Defined.

Lemma api_keys_roundtrip_witness :
  Forall clean_key demo_keys ∧ ParseAPIKeys (string_of (print_keys demo_keys)) = demo_keys.
Proof.
  assert (Forall clean_key demo_keys) as H by (repeat constructor; discriminate).
  split; [exact H|exact (api_keys_roundtrip demo_keys H)].
Defined.

(** Everything decodes to a request for one room; a body is its own digest. *)
Definition demo_decode (raw : list byte) : string + createRoomRequest := inr (mkCreateRoom "lobby" ∅).

Definition demo_handle := handleCreateRoom id demo_decode (λ r, bytes_of (resp_RoomID r)) demo_config.

Definition local_room : CoreRoom := mkCoreRoom true 0 2 "" false.

Lemma create_idempotent_witness :
  let s := NewRoomRegistry 0 in
  let s1 := final (demo_handle [x7b] (bytes_of "k-1") "" (λ _, (no_room, None)) second second) s in
  let s2 := final (for_each [OMarkClosed "lobby" (2 * second); OSweep (400 * second)] (perform id)) s1 in
  demo_handle [x7b] (bytes_of "k-1") "" (λ _, (no_room, None)) (401 * second) (401 * second) s2
  = (inr (201, bytes_of "lobby"), s2, []).
Proof.
  destruct (create_idempotent id demo_decode (λ r, bytes_of (resp_RoomID r)) demo_config [x7b] (bytes_of "k-1") ""
    (λ _, (no_room, None)) second second (NewRoomRegistry 0) 201 (bytes_of "lobby")
    [OMarkClosed "lobby" (2 * second); OSweep (400 * second)]) as [H _].
  - vm_compute. discriminate.
  - vm_compute. reflexivity.
  - vm_compute. reflexivity.
  - constructor; [exact I|]. constructor; [vm_compute; discriminate|constructor].
  - exact (H "" (λ _, (no_room, None)) (401 * second) (401 * second)).
Defined.

Lemma closed_until_swept_witness :
  let s1 := final (closeRoom demo_config "lobby" (local_room, None) (2, None) second second second) (NewRoomRegistry 0) in
  let s2 := final (for_each [OSweep (200 * second)] (perform id)) s1 in
  (∃ resp', value (createRoom demo_config (mkCreateRoom "lobby" ∅) "" (λ _, (local_room, None)) (210 * second)) s2
            = inr (resp', false) ∧ resp_Status resp' = RoomIsClosed)
  ∧ rooms (final (Sweep (302 * second)) s2) !! "lobby" = None.
Proof.
  destruct (closed_until_swept id demo_config "lobby" (local_room, None) (2, None) second second second
    (NewRoomRegistry 0) (mkCloseResponse "lobby" RoomIsClosed 2) [OSweep (200 * second)]) as (_ & _ & H3 & H4).
  - vm_compute. reflexivity.
  - intros rec H. vm_compute in H. discriminate H.
  - constructor; [vm_compute; discriminate|constructor].
  - split.
    + apply (H3 ∅ "" local_room (210 * second)); vm_compute; reflexivity.
    + apply (H4 (302 * second)). vm_compute. reflexivity.
Defined.

(** A room owned by another node: the refusal leaves a local record behind, and when
    the room later belongs here its creation is not announced. *)
Example refused_create_leaves_a_record :
  let create core := createRoom demo_config (mkCreateRoom "lobby" ∅) "" (λ _, core) second in
  let s := final (create (no_room, Some (ErrRoomRemote "node-b"))) (NewRoomRegistry 0) in
  (value (create (no_room, Some (ErrRoomRemote "node-b"))) (NewRoomRegistry 0) = inl (remoteErr (Some (ErrRoomRemote "node-b"))))
  ∧ is_Some (rooms s !! "lobby")
  ∧ outputs (create (no_room, None)) s = []
  ∧ outputs (create (no_room, None)) (NewRoomRegistry 0) = [Hook "room.created" "lobby" (MetadataData ∅)].
Proof. vm_compute. split_and!; try reflexivity. by eexists. Qed.

(** The sweep looks at when the API was last asked about a room, not at whether
    anybody is in it: the metadata of a live room is forgotten. *)
Example live_room_metadata_swept :
  let s := final (createRoom demo_config (mkCreateRoom "lobby" {[ "topic" := "x" ]}) "" (λ _, (local_room, None)) second;;
                  Sweep (400 * second)) (NewRoomRegistry 0) in
  (λ r, match r with inr x => Some (resp_Status x, resp_Metadata x) | inl _ => None end)
    (value (getRoom demo_config "lobby" (local_room, None) (401 * second)) s) = Some (RoomActive, ∅).
Proof. vm_compute. reflexivity. Qed.

(** When the ownership of the room cannot be resolved, reading answers 503 but
    closing answers that the room does not exist. *)
Example close_hides_unavailable_state :
  let answer := (no_room, Some ErrClusterStateUnavailable) in
  value (getRoom demo_config "lobby" answer second) (NewRoomRegistry 0)
    = inl (apiErr CodeClusterStateUnavailable "cluster state unavailable")
  ∧ value (closeRoom demo_config "lobby" answer (0, None) second second second) (NewRoomRegistry 0)
    = inl (apiErr CodeRoomNotFound "room not found").
Proof. vm_compute. split; reflexivity. Qed.
