(* ===== verification/ApiRoutes.v ===== *)
(** * The management API over HTTP (internal/api: router, handlers, errors, middleware)

    The route table, the wrapper in front of every route, the ten handlers over the
    operations of Api, and the responses they write.  A request is what the handlers
    read of it; a response is its status, its request id and its body before JSON.  What
    the core answers during a request is an argument, as in Api; decoding JSON is a
    parameter that reads the first value of the body and refuses unknown fields. *)

From S2P Require Import Prelude Bytes GoStrings GoFloat Auth GoMux Api.

(** ** Generated ids *)

(** The bits of a byte, high bit first. *)
Definition byte_bits (b : byte) : list bool := (λ i, Z.testbit (Z_of_byte b) i) <$> [7; 6; 5; 4; 3; 2; 1; 0].

(** The standard base32 alphabet. *)
Definition b32_char (b4 b3 b2 b1 b0 : bool) : byte :=
  let v := 16 * Z.b2z b4 + 8 * Z.b2z b3 + 4 * Z.b2z b2 + 2 * Z.b2z b1 + Z.b2z b0 in
  byte_of_Z (if v <? 26 then 65 + v else 24 + v).

(** base32 without padding: five bits a character, the last group filled with zeros. *)
Fixpoint b32_groups (l : list bool) : list byte :=
  match l with
  | a :: b :: c :: d :: e :: l => b32_char a b c d e :: b32_groups l
  | [] => []
  | [a] => [b32_char a false false false false]
  | [a; b] => [b32_char a b false false false]
  | [a; b; c] => [b32_char a b c false false]
  | [a; b; c; d] => [b32_char a b c d false]
  end.
Definition b32_encode (l : list byte) : list byte := b32_groups (l ≫= byte_bits).

(** src/internal/api/rooms.go:73-78 [GenerateRoomID]  [random]: the eight bytes read. *)
Definition GenerateRoomID (random : list byte) : string :=
  "room_" +:+ string_of (ToLower (b32_encode random)).

(** src/internal/api/middleware.go:34-38 [newRequestID]  [random]: the ten bytes read. *)
Definition newRequestID (random : list byte) : string := "req_" +:+ hex_encode random.

(** ** Requests and responses *)

(** What the API reads of a request: method, escaped path, credentials, the two other
    headers, the body as it arrives and whether reading it fails after that. *)
Record http_request := mkHttp {
  h_Method : string; h_EscapedPath : list byte; h_creds : api_request; h_RequestID : list byte;
  h_IdempotencyKey : list byte; h_Body : list byte; h_broken : bool
}.

(** The bodies of the responses, before they are marshalled. *)
Inductive payload :=
| PError (code message requestId : string) (ownerNodeId : option string)
| PRaw (b : list byte)
| PRoom (r : roomResponse)
| PClose (r : closeRoomResponse)
| PToken (r : tokenResponse)
| PConnection (r : connectionInfo)
| PParticipants (r : list participantSummary)
| PParticipant (r : participantDetailResponse)
| PSession (r : sessionResponse)
| PRoomQuality (r : list roomQualityEntry)
| PQuality (r : CoreQuality).

(** A response of the API; the X-Request-Id header is set before anything is written. *)
Record api_response := mkResponse { rs_status : Z; rs_requestId : string; rs_body : payload }.

(** src/internal/api/errors.go:74-96 [writeError]  [None]: an error of another type. *)
Definition writeError (requestID : string) (err : option APIError) : api_response :=
  let ae := default (apiErr CodeInternalError "internal error") err in
  mkResponse (statusFor (e_Code ae)) requestID (PError (e_Code ae) (e_Message ae) requestID (e_ownerNodeId ae)).

(** src/internal/api/errors.go:98-103 [writeJSON] *)
Definition writeJSON (requestID : string) (status : Z) (v : payload) : api_response := mkResponse status requestID v.

(** The end of every handler: the error, or the value with its status. *)
Definition reply_with {A} (requestID : string) (status : Z) (body : A → payload) (res : APIError + A) : api_response :=
  match res with
  | inl e => writeError requestID (Some e)
  | inr a => writeJSON requestID status (body a)
  end.

(** ** Handlers *)

(** src/internal/api/handlers.go:10 [maxBodyBytes] *)
Definition maxBodyBytes : nat := 64 * 1024.

(** [http.MaxBytesReader] read to the end: the bytes within the limit, and whether an
    error ended the reading. *)
Definition read_body (r : http_request) : list byte * bool :=
  (take maxBodyBytes (h_Body r), (maxBodyBytes <? length (h_Body r))%nat || h_broken r).

(** What the core answers while a request is served. *)
Record Core := mkCore {
  c_Room : string → answer CoreRoom;
  c_Participants : string → answer (list CoreParticipant);
  c_Session : string → string → answer CoreSession;
  c_CloseRoom : string → answer Z;
  c_Quality : string → answer (list CoreQuality)
}.

(** The clock readings of the registry, in order, and the random bytes drawn. *)
Record ambient := mkAmbient { t1 : Z; t2 : Z; t3 : Z; room_random : list byte; req_random : list byte }.

(** src/internal/api/router.go:30-39 [RegisterRoutes]  The handlers. *)
Inductive api_handler :=
| HCreateRoom | HGetRoom | HCloseRoom | HConnection | HCreateToken | HListParticipants | HGetParticipant | HGetSession
| HRoomQuality | HParticipantQuality.

#[export] Instance api_handler_eq_dec : EqDecision api_handler.
Proof. solve_decision. Defined.

(** src/internal/api/service.go:12-37 [Service] *)
Record Service := mkService { s_cfg : Config; s_issuer : TokenIssuer; s_registry : RoomRegistry; s_hooks : bool }.
Definition NewService (cfg : Config) (issuer : TokenIssuer) (hooks : bool) : Service :=
  mkService cfg issuer (NewRoomRegistry (RoomRetention cfg)) hooks.

Section handlers.
Context {MC : Mac} {J : TokenJSON} (sha256 : list byte → list byte).
Context (decode_room : list byte → string + createRoomRequest) (decode_token : list byte → string + createTokenRequest).
Context (marshal : roomResponse → list byte) (cfg : Config) (issuer : TokenIssuer).

(** src/internal/api/handlers.go:12-28 [decodeJSON]  Into a value [zero]. *)
Definition decodeJSON {A} (decode : list byte → string + A) (zero : A) (r : http_request) : APIError + A :=
  let '(data, err) := read_body r in
  if err then inl (apiErr CodeInvalidRequest "request body too large or unreadable")
  else if decide (data = []) then inr zero
  else match decode data with
       | inl why => inl (apiErr CodeInvalidRequest ("invalid JSON: " +:+ why))
       | inr v => inr v
       end.

Section one_request.
Context (core : Core) (a : ambient) (r : http_request) (reqID : string).

(** src/internal/api/handlers.go:30-69 [handleCreateRoom]  Here an error of the reading
    is ignored: what was read is used. *)
Definition serveCreateRoom : AM api_response :=
  res ← handleCreateRoom sha256 decode_room marshal cfg (read_body r).1 (h_IdempotencyKey r)
          (GenerateRoomID (room_random a)) (c_Room core) (t1 a) (t2 a);
  mret (match res with
        | inl e => writeError reqID (Some e)
        | inr (status, body) => mkResponse status reqID (PRaw body)
        end).

(** src/internal/api/handlers.go:71-79 [handleGetRoom] *)
Definition handleGetRoom (roomId : string) : AM api_response :=
  res ← getRoom cfg roomId (c_Room core roomId) (t1 a);
  mret (reply_with reqID 200 PRoom res).

(** src/internal/api/handlers.go:81-89 [handleCloseRoom] *)
Definition handleCloseRoom (roomId : string) : AM api_response :=
  res ← closeRoom cfg roomId (c_Room core roomId) (c_CloseRoom core roomId) (t1 a) (t2 a) (t3 a);
  mret (reply_with reqID 200 PClose res).

(** src/internal/api/handlers.go:91-104 [handleCreateToken] *)
Definition handleCreateToken (roomId : string) : AM api_response :=
  match decodeJSON decode_token (mkCreateToken "" "" None 0 ∅) r with
  | inl e => mret (writeError reqID (Some e))
  | inr req =>
      res ← mintToken cfg issuer roomId req (t1 a) (t2 a);
      mret (reply_with reqID 201 PToken res)
  end.

(** src/internal/api/handlers.go:106-114 [handleConnection] *)
Definition handleConnection (roomId : string) : AM api_response :=
  res ← connection cfg roomId;
  mret (reply_with reqID 200 PConnection res).

(** src/internal/api/handlers.go:116-124 [handleListParticipants] *)
Definition handleListParticipants (roomId : string) : AM api_response :=
  res ← participants roomId (c_Participants core roomId) (c_Room core roomId) (t1 a);
  mret (reply_with reqID 200 PParticipants res).

(** src/internal/api/handlers.go:126-134 [handleGetParticipant] *)
Definition handleGetParticipant (roomId identity : string) : AM api_response :=
  mret (reply_with reqID 200 PParticipant (participant identity (c_Participants core roomId))).

(** src/internal/api/handlers.go:136-144 [handleGetSession] *)
Definition handleGetSession (roomId identity : string) : AM api_response :=
  mret (reply_with reqID 200 PSession (session identity (c_Participants core roomId) (c_Session core roomId))).

(** src/internal/api/handlers.go:146-154 [handleRoomQuality] *)
Definition handleRoomQuality (roomId : string) : AM api_response :=
  res ← roomQuality roomId (c_Quality core roomId) (c_Room core roomId) (t1 a);
  mret (reply_with reqID 200 PRoomQuality res).

(** src/internal/api/handlers.go:156-164 [handleParticipantQuality] *)
Definition handleParticipantQuality (roomId identity : string) : AM api_response :=
  mret (reply_with reqID 200 PQuality (participantQuality identity (c_Participants core roomId) (c_Quality core roomId))).

(** src/internal/api/router.go:30-39 [RegisterRoutes]  The handler of a route, on the
    path values of the request. *)
Definition run_handler (h : api_handler) (pv : string → string) : AM api_response :=
  let room := pv "roomId" in
  let identity := pv "identity" in
  match h with
  | HCreateRoom => serveCreateRoom
  | HGetRoom => handleGetRoom room
  | HCloseRoom => handleCloseRoom room
  | HConnection => handleConnection room
  | HCreateToken => handleCreateToken room
  | HListParticipants => handleListParticipants room
  | HGetParticipant => handleGetParticipant room identity
  | HGetSession => handleGetSession room identity
  | HRoomQuality => handleRoomQuality room
  | HParticipantQuality => handleParticipantQuality room identity
  end.
End one_request.

(** ** The wrapper and the table *)

(** The API's state: the middleware with its rate limits, and the registry. *)
Record api_state := mkApi { st_mw : middleware; st_reg : RoomRegistry }.

(** An operation of the registry within the API. *)
Definition on_registry {A} (m : AM A) : M api_state api_event A := λ s,
  let '(x, reg, w) := m (st_reg s) in (x, mkApi (st_mw s) reg, w).

(** src/internal/api/middleware.go:68-106 [wrap]  The whole closure: the request id, the
    gate, and the handler, which sees the request id. *)
Definition request_id (a : ambient) (r : http_request) : string :=
  let given := string_of (TrimSpace (h_RequestID r)) in
  if decide (given = "") then newRequestID (req_random a) else given.
Definition wrapped (scope : Scope) (h : string → AM api_response) (a : ambient) (r : http_request) (now : Z)
    : M api_state api_event api_response :=
  let reqID := request_id a r in
  s ← get;
  let '(gate, mw) := wrap (st_mw s) scope (h_creds r) now in
  modify (λ s, mkApi mw (st_reg s));;
  match gate with
  | inl e => mret (writeError reqID (Some e))
  | inr _ => on_registry (h reqID)
  end.

(** src/internal/api/router.go:24-43 [RegisterRoutes] *)
Definition api_routes : list (pattern * (Scope * api_handler)) :=
  [(parsePattern "POST /v1/rooms", (RoomsCreate, HCreateRoom));
   (parsePattern "GET /v1/rooms/{roomId}", (RoomsRead, HGetRoom));
   (parsePattern "DELETE /v1/rooms/{roomId}", (RoomsClose, HCloseRoom));
   (parsePattern "GET /v1/rooms/{roomId}/connection", (RoomsRead, HConnection));
   (parsePattern "POST /v1/rooms/{roomId}/tokens", (TokensCreate, HCreateToken));
   (parsePattern "GET /v1/rooms/{roomId}/participants", (ParticipantsRead, HListParticipants));
   (parsePattern "GET /v1/rooms/{roomId}/participants/{identity}", (ParticipantsRead, HGetParticipant));
   (parsePattern "GET /v1/rooms/{roomId}/participants/{identity}/session", (ParticipantsRead, HGetSession));
   (parsePattern "GET /v1/rooms/{roomId}/quality", (QualityRead, HRoomQuality));
   (parsePattern "GET /v1/rooms/{roomId}/participants/{identity}/quality", (QualityRead, HParticipantQuality))].

(** A request that the mux hands to a route. *)
Definition serve_route (core : Core) (a : ambient) (r : http_request) (now : Z) (rt : pattern * (Scope * api_handler))
    (vals : list string) : M api_state api_event api_response :=
  wrapped rt.2.1 (λ reqID, run_handler core a r reqID rt.2.2 (PathValue rt.1 vals)) a r now.
End handlers.

(** ** Generated ids are admissible and distinct *)

(** Lower case of an ASCII character. *)
Definition lower (c : byte) : byte :=
  if (65 <=? Z_of_byte c) && (Z_of_byte c <=? 90) then byte_of_Z (Z_of_byte c + 32) else c.

Lemma ToLower_ascii l : forallb (λ c, Z_of_byte c <? 128) l = true → ToLower l = lower <$> l.
Proof.
  induction l as [|c l IH]; [done|]. cbn [forallb]. intros [Hc Hl]%andb_prop. rewrite fmap_cons, <- IH by done.
  by destruct c.
Qed.

Lemma b32_char_props a b c d e :
  room_char (lower (b32_char a b c d e)) = true ∧ (Z_of_byte (b32_char a b c d e) <? 128) = true.
Proof. by destruct a, b, c, d, e; vm_compute. Qed.

(** Induction by groups of five. *)
Lemma quintet_ind (P : list bool → Prop) :
  P [] → (∀ a, P [a]) → (∀ a b, P [a; b]) → (∀ a b c, P [a; b; c]) → (∀ a b c d, P [a; b; c; d]) →
  (∀ a b c d e l, P l → P (a :: b :: c :: d :: e :: l)) → ∀ l, P l.
Proof. intros H0 H1 H2 H3 H4 H5. fix IH 1. intros [|a [|b [|c [|d [|e l]]]]]; [exact H0|apply H1|apply H2|apply H3|apply H4|apply H5, IH]. Qed.

Lemma b32_groups_chars l : Forall (λ x, ∃ a b c d e, x = b32_char a b c d e) (b32_groups l).
Proof. induction l using quintet_ind; simpl; repeat constructor; eauto 10. Qed.

Lemma lower_b32_inj a b c d e a' b' c' d' e' :
  lower (b32_char a b c d e) = lower (b32_char a' b' c' d' e') → (a, b, c, d, e) = (a', b', c', d', e').
Proof.
  assert (∀ a b c d e, (λ z, (Z.testbit z 4, Z.testbit z 3, Z.testbit z 2, Z.testbit z 1, Z.testbit z 0))
    ((λ v, if v <? 97 then v - 24 else v - 97) (Z_of_byte (lower (b32_char a b c d e)))) = (a, b, c, d, e)) as H.
  { clear. intros a b c d e. by destruct a, b, c, d, e; vm_compute. }
  intros E. by rewrite <- (H a b c d e), <- (H a' b' c' d' e'), E.
Qed.

Lemma b32_groups_inj l1 l2 :
  length l1 = length l2 → lower <$> b32_groups l1 = lower <$> b32_groups l2 → l1 = l2.
Proof.
  revert l2. induction l1 as [|a|a b|a b c|a b c d|a b c d e l IH] using quintet_ind; intros l2 Hl E;
    [by destruct l2|repeat (destruct l2 as [|? l2]; try discriminate Hl)..|].
  1-4: cbn in E; injection E as E; apply lower_b32_inj in E; by simplify_eq.
  do 5 (destruct l2 as [|? l2]; [discriminate Hl|]). cbn [b32_groups] in E. rewrite !fmap_cons in E.
  injection E as E1 E2. apply lower_b32_inj in E1. simplify_eq. by rewrite (IH l2).
Qed.

Lemma byte_bits_inj b1 b2 : byte_bits b1 = byte_bits b2 → b1 = b2.
Proof.
  assert (∀ b, byte_of_Z (foldl (λ z x, 2 * z + Z.b2z x) 0 (byte_bits b)) = b) as H by (intros []; reflexivity).
  intros E. by rewrite <- (H b1), <- (H b2), E.
Qed.

Lemma bits_length l : length (l ≫= byte_bits) = (8 * length l)%nat.
Proof. induction l as [|b l IH]; [done|]. csimpl. rewrite IH. lia. Qed.

Lemma bits_inj l1 l2 : length l1 = length l2 → l1 ≫= byte_bits = l2 ≫= byte_bits → l1 = l2.
Proof.
  revert l2. induction l1 as [|b1 l1 IH]; intros [|b2 l2] Hl E; [done..|]. rewrite !bind_cons in E.
  apply app_inj_1 in E as [E1 E2]; [|done]. apply byte_bits_inj in E1 as ->. f_equal. apply IH; [|done]. by injection Hl.
Qed.

Lemma generated_suffix random : ToLower (b32_encode random) = lower <$> b32_encode random.
Proof.
  apply ToLower_ascii. apply forallb_forall. intros x Hx. apply list_elem_of_In in Hx.
  pose proof (b32_groups_chars (random ≫= byte_bits)) as Hf. rewrite list.Forall_forall in Hf.
  destruct (Hf x Hx) as (a & b & c & d & e & ->). apply b32_char_props.
Qed.

(** Every generated id passes the check that given ids must pass, and different random
    bytes give different ids. *)
Theorem generated_ids random random' :
  length random = 8%nat → length random' = 8%nat →
  ValidateRoomID (GenerateRoomID random) = None
  ∧ (GenerateRoomID random = GenerateRoomID random' → random = random').
Proof.
  intros Hl Hl'. split.
  - unfold ValidateRoomID. rewrite decide_False by done.
    unfold GenerateRoomID. rewrite bytes_of_app, bytes_of_string_of, generated_suffix.
    pose proof (b32_groups_chars (random ≫= byte_bits)) as Hf. fold (b32_encode random) in Hf.
    assert (length (b32_encode random) = 13%nat) as Hlen.
    { do 9 (destruct random as [|? random]; try discriminate Hl). reflexivity. }
    assert (blen (bytes_of "room_" ++ (lower <$> b32_encode random)) = 18) as ->.
    { unfold blen. rewrite length_app, length_fmap, Hlen. reflexivity. }
    cbn [Z.ltb]. change (maxRoomIDLen <? 18) with false. cbv iota. rewrite forallb_app.
    change (forallb room_char (bytes_of "room_")) with true. cbn [andb].
    enough (forallb room_char (lower <$> b32_encode random) = true) as -> by done.
    apply forallb_forall. intros x Hx. apply list_elem_of_In, list_elem_of_fmap in Hx as (y & -> & Hy).
    rewrite list.Forall_forall in Hf. destruct (Hf y Hy) as (a & b & c & d & e & ->). apply b32_char_props.
  - intros E. apply (f_equal bytes_of) in E. unfold GenerateRoomID in E.
    rewrite !bytes_of_app, !bytes_of_string_of, !generated_suffix in E. apply app_inv_head in E.
    apply b32_groups_inj in E; [|by rewrite !bits_length, Hl, Hl']. by apply bits_inj; [congruence|].
Qed.

(** ** The shape of every response *)

(** The codes of the API, each with a status of its own. *)
Definition known_codes : list string :=
  [CodeUnauthorized; CodeForbidden; CodeInvalidRequest; CodeRoomNotFound; CodeParticipantNotFound; CodeSessionNotFound;
   CodeRoomClosed; CodeRoomOnOtherNode; CodeIdempotencyConflict; CodeRateLimited; CodeNodeUnavailable;
   CodeClusterStateUnavailable; CodeNotConfigured; CodeInternalError].

Definition is_error (p : payload) : bool := match p with PError _ _ _ _ => true | _ => false end.

(** An error the API may answer with: only a room owned elsewhere names its owner. *)
Definition good_err (e : APIError) : Prop :=
  e_Code e ∈ known_codes ∧ (is_Some (e_ownerNodeId e) ↔ e_Code e = CodeRoomOnOtherNode).

Definition good_res {A} (res : APIError + A) : Prop := match res with inl e => good_err e | inr _ => True end.

(** A success with its value, or an error under its code's status and the request id. *)
Definition good_response (reqID : string) (resp : api_response) : Prop :=
  rs_requestId resp = reqID
  ∧ ((rs_status resp ∈ [200; 201] ∧ is_error (rs_body resp) = false)
     ∨ ∃ e, good_err e ∧ rs_status resp = statusFor (e_Code e)
            ∧ rs_body resp = PError (e_Code e) (e_Message e) reqID (e_ownerNodeId e)).

(** What is replayed for an idempotency key is a success. *)
Definition replay_ok (r : RoomRegistry) : Prop := ∀ k e, idem r !! k = Some e → status e ∈ [200; 201].

(** A code other than that of a remote room, in an error that names no owner. *)
Definition plain_code (code : string) : bool := bool_decide (code ∈ known_codes) && negb (bool_decide (code = CodeRoomOnOtherNode)).

Lemma good_apiErr code msg : plain_code code = true → good_err (apiErr code msg).
Proof.
  unfold plain_code. intros [H1%bool_decide_eq_true H2]%andb_prop. split; [done|]. simpl.
  apply negb_true_iff, bool_decide_eq_false in H2. split; [by intros [? ?]|done].
Qed.

Lemma good_remoteErr err : good_err (remoteErr err).
Proof.
  destruct err as [[owner|]|]; [|by apply good_apiErr..]. split; [|done]. by apply (bool_decide_unpack _).
Qed.

Lemma good_ValidateRoomID id e : ValidateRoomID id = Some e → good_err e.
Proof. unfold ValidateRoomID. intros H. repeat case_match; simplify_eq; by apply good_apiErr. Qed.

Lemma good_ValidateMetadata md e : ValidateMetadata md = Some e → good_err e.
Proof. unfold ValidateMetadata. intros H. repeat case_match; simplify_eq; by apply good_apiErr. Qed.

Lemma known_status code : code ∈ known_codes → 400 ≤ statusFor code ≤ 503.
Proof. revert code. apply list.Forall_forall, (bool_decide_unpack _). vm_compute. exact I. Qed.

(** The gate's refusals. *)
Lemma good_wrap m sc r now : good_res (wrap m sc r now).1.
Proof.
  unfold wrap. destruct (negb (mw_enabled m)); [done|]. destruct (authenticate m r) as [k|]; [|by apply good_apiErr].
  destruct (negb (Has k sc)); [by apply good_apiErr|]. destruct (Allow _ _ _) as [[] ?]; [done|by apply good_apiErr].
Qed.

Create HintDb api.

#[local] Hint Resolve good_apiErr good_remoteErr good_ValidateRoomID good_ValidateMetadata : api.

(** Operations that leave the replies kept for idempotency keys alone. *)
Definition keeps_idem {A} (m : AM A) : Prop := ∀ s, idem (final m s) = idem s.

Lemma keeps_bind {A B} (m : AM A) (f : A → AM B) : keeps_idem m → (∀ a, keeps_idem (f a)) → keeps_idem (m ≫= f).
Proof. intros Hm Hf s. rewrite final_bind, Hf. apply Hm. Qed.

Lemma keeps_ret {A} (a : A) : keeps_idem (mret a).
Proof. done. Qed.

Lemma keeps_get : keeps_idem get.
Proof. done. Qed.

Lemma keeps_upd_rooms f : keeps_idem (upd_rooms f).
Proof. done. Qed.

Lemma keeps_emit ev : keeps_idem (emit ev).
Proof. done. Qed.

Lemma keeps_when b (m : AM unit) : keeps_idem m → keeps_idem (when b m).
Proof. by destruct b. Qed.

Ltac keeps :=
  repeat first
    [ apply keeps_bind; [|intros ?] | apply keeps_ret | apply keeps_get | apply keeps_upd_rooms | apply keeps_emit
    | apply keeps_when | case_match ].

Lemma keeps_Get roomID now : keeps_idem (Get roomID now).
Proof. unfold Get. keeps. Qed.

Lemma keeps_EnsureExists roomID now : keeps_idem (EnsureExists roomID now).
Proof. unfold EnsureExists. keeps. Qed.

Lemma keeps_MarkClosed roomID now : keeps_idem (MarkClosed roomID now).
Proof. unfold MarkClosed. keeps. Qed.

Lemma keeps_GetOrCreate roomID md now : keeps_idem (GetOrCreate roomID md now).
Proof. unfold GetOrCreate. keeps. Qed.

(** Operations whose result always has a property. *)
Definition yields {A} (P : A → Prop) (m : AM A) : Prop := ∀ s, P (value m s).

Lemma yields_ret {A} (P : A → Prop) a : P a → yields P (mret a).
Proof. by intros H s. Qed.

Lemma yields_bind {A B} (P : B → Prop) (m : AM A) (f : A → AM B) : (∀ a, yields P (f a)) → yields P (m ≫= f).
Proof. intros H s. rewrite value_bind. apply H. Qed.

Lemma yields_bind_val {A B} (Q : A → Prop) (P : B → Prop) (m : AM A) (f : A → AM B) :
  yields Q m → (∀ a, Q a → yields P (f a)) → yields P (m ≫= f).
Proof. intros Hm Hf s. rewrite value_bind. apply Hf, Hm. Qed.

Ltac yields :=
  repeat first [ apply yields_bind; intros ? | apply yields_ret | case_match ];
  simplify_eq; cbn [good_res]; try done; eauto with api.

Section responses.
Context {MC : Mac} {J : TokenJSON} (sha256 : list byte → list byte).
Context (decode_room : list byte → string + createRoomRequest) (decode_token : list byte → string + createTokenRequest).
Context (marshal : roomResponse → list byte) (cfg : Config) (issuer : TokenIssuer).

Lemma createRoom_good req fresh core now :
  yields good_res (createRoom cfg req fresh core now) ∧ keeps_idem (createRoom cfg req fresh core now).
Proof.
  unfold createRoom, emit_hook. cbv zeta. split; [yields|].
  destruct (if decide _ then None else _); [apply keeps_ret|]. destruct (ValidateMetadata _); [apply keeps_ret|].
  apply keeps_bind; [apply keeps_GetOrCreate|]. intros [rec created]. keeps.
Qed.

Lemma getRoom_good id core now : yields good_res (getRoom cfg id core now) ∧ keeps_idem (getRoom cfg id core now).
Proof.
  unfold getRoom. destruct core as [cr [[]|]]; (split; [yields|]); try apply keeps_ret.
  apply keeps_bind; [apply keeps_Get|]. intros ?. keeps.
Qed.

Lemma closeRoom_good id core closing a b c :
  yields good_res (closeRoom cfg id core closing a b c) ∧ keeps_idem (closeRoom cfg id core closing a b c).
Proof.
  unfold closeRoom, emit_hook. destruct core as [cr cerr], closing as [n err]. split; [yields|].
  apply keeps_bind; [apply keeps_Get|]. intros rec. destruct (isRemote cerr); [apply keeps_ret|].
  case_match; [apply keeps_ret|]. destruct (match rec with Some r => Closed r | None => false end); [apply keeps_ret|].
  keeps; first [apply keeps_EnsureExists|apply keeps_MarkClosed].
Qed.

Lemma mintToken_good id req now t : yields good_res (mintToken cfg issuer id req now t) ∧ keeps_idem (mintToken cfg issuer id req now t).
Proof. unfold mintToken. cbv zeta. split; [yields|]. keeps; apply keeps_EnsureExists. Qed.

Lemma assertRoomKnown_good id live core now :
  yields (λ e, match e with Some e => good_err e | None => True end) (assertRoomKnown id live core now)
  ∧ keeps_idem (assertRoomKnown id live core now).
Proof. unfold assertRoomKnown. split; [yields|]. keeps; apply keeps_Get. Qed.

Lemma participants_good id l core now :
  yields good_res (participants id l core now) ∧ keeps_idem (participants id l core now).
Proof.
  unfold participants. destruct l as [l err]. destruct (isRemote err); [split; [yields|apply keeps_ret]|].
  destruct (assertRoomKnown_good id (0 <? Z.of_nat (length l)) core now) as [Hy Hk]. split.
  - eapply yields_bind_val; [exact Hy|]. intros e He. yields.
  - apply keeps_bind; [exact Hk|]. intros ?. keeps.
Qed.

Lemma roomQuality_good id l core now :
  yields good_res (roomQuality id l core now) ∧ keeps_idem (roomQuality id l core now).
Proof.
  unfold roomQuality. destruct l as [l err]. destruct (isRemote err); [split; [yields|apply keeps_ret]|].
  destruct (assertRoomKnown_good id (0 <? Z.of_nat (length l)) core now) as [Hy Hk]. split.
  - eapply yields_bind_val; [exact Hy|]. intros e He. yields.
  - apply keeps_bind; [exact Hk|]. intros ?. keeps.
Qed.

Lemma reads_good id l (sess : string → answer CoreSession) qs :
  good_res (participant id l) ∧ good_res (session id l sess) ∧ good_res (participantQuality id l qs).
Proof. unfold participant, session, participantQuality. split_and!; repeat case_match; simplify_eq; cbn [good_res]; eauto with api. Qed.

Lemma good_writeError reqID e : good_err e → good_response reqID (writeError reqID (Some e)).
Proof. intros H. split; [done|]. right. by exists e. Qed.

Lemma good_reply {A} reqID st (body : A → payload) res :
  good_res res → st ∈ [200; 201] → (∀ x, is_error (body x) = false) → good_response reqID (reply_with reqID st body res).
Proof. intros H Hst Hb. destruct res as [e|x]; [by apply good_writeError|]. split; [done|]. left. split; [done|apply Hb]. Qed.

(** A handler that answers with the result of one operation. *)
Lemma handler_good {A} reqID st (body : A → payload) (m : AM (APIError + A)) :
  yields good_res m ∧ keeps_idem m → st ∈ [200; 201] → (∀ x, is_error (body x) = false) → ∀ s, replay_ok s →
  wp (res ← m; mret (reply_with reqID st body res)) (λ resp s', good_response reqID resp ∧ replay_ok s') s.
Proof.
  intros [Hy Hk] Hst Hb s Hs. apply wp_bind. unfold wp. split.
  - rewrite value_ret. by apply good_reply.
  - rewrite final_ret. unfold replay_ok. by rewrite Hk.
Qed.

Lemma serveCreateRoom_good core a r reqID s :
  replay_ok s →
  wp (serveCreateRoom sha256 decode_room marshal cfg core a r reqID) (λ resp s', good_response reqID resp ∧ replay_ok s') s.
Proof.
  intros Hs. unfold serveCreateRoom. apply wp_bind.
  enough (wp (handleCreateRoom sha256 decode_room marshal cfg (read_body r).1 (h_IdempotencyKey r)
    (GenerateRoomID (room_random a)) (c_Room core) (t1 a) (t2 a))
    (λ res s', match res with inl e => good_err e | inr (st, _) => st ∈ [200; 201] end ∧ replay_ok s') s) as H.
  { eapply wp_mono; [|exact H]. intros [e|[st body]] s' [H1 H2]; apply wp_ret; (split; [|done]).
    - by apply good_writeError.
    - split; [done|]. by left. }
  unfold handleCreateRoom. destruct (if decide _ then _ else _) as [why|req]; [apply wp_ret; eauto with api|].
  cbv zeta. set (key := string_of _). apply wp_bind.
  assert (wp (idempotencyLookup sha256 key (read_body r).1)
    (λ an s', s' = s ∧ match an with IdemHit _ st => st ∈ [200; 201] | _ => True end) s) as Hl.
  { unfold idempotencyLookup. case_decide; [by apply wp_ret|]. apply wp_bind, wp_get.
    destruct (idem s !! key) as [e|] eqn:E; [|by apply wp_ret]. case_decide; apply wp_ret; [|done]. split; [done|]. by apply (Hs _ _ E). }
  eapply wp_mono; [|exact Hl]. intros an s' [-> Han]. destruct an as [|body st|]; [|by apply wp_ret|apply wp_ret; eauto with api].
  apply wp_bind. destruct (createRoom_good req (GenerateRoomID (room_random a)) (c_Room core) (t1 a)) as [Hy Hk].
  specialize (Hy s). specialize (Hk s). unfold wp at 1.
  destruct (value (createRoom _ _ _ _ _) s) as [e|[resp created]]; [apply wp_ret; split; [done|]; unfold replay_ok; by rewrite Hk|].
  assert (replay_ok (final (createRoom cfg req (GenerateRoomID (room_random a)) (c_Room core) (t1 a)) s)) as Hs'
    by (unfold replay_ok; by rewrite Hk).
  apply wp_bind. unfold wp at 1. apply wp_ret. split; [destruct created; set_solver|].
  unfold idempotencyStore. case_decide; [done|]. intros k e. simpl. rewrite lookup_insert. case_decide; [|by apply Hs'].
  intros [= <-]. simpl. destruct created; set_solver.
Qed.

Lemma run_handler_good core a r reqID h pv s :
  replay_ok s →
  wp (run_handler sha256 decode_room decode_token marshal cfg issuer core a r reqID h pv)
     (λ resp s', good_response reqID resp ∧ replay_ok s') s.
Proof.
  intros Hs. destruct h; unfold run_handler; cbv zeta.
  - by apply serveCreateRoom_good.
  - apply handler_good; [apply getRoom_good|by set_solver|done|done].
  - apply handler_good; [apply closeRoom_good|by set_solver|done|done].
  - apply handler_good; [|by set_solver|done|done]. unfold connection. case_decide; (split; [yields|apply keeps_ret]).
  - unfold handleCreateToken. destruct (decodeJSON _ _ _) as [e|req] eqn:E.
    + apply wp_ret. split; [|done]. apply good_writeError. unfold decodeJSON in E. destruct (read_body r) as [d er].
      repeat case_match; simplify_eq; eauto with api.
    + apply handler_good; [apply mintToken_good|by set_solver|done|done].
  - apply handler_good; [apply participants_good|by set_solver|done|done].
  - apply wp_ret. split; [|done]. apply good_reply; [|by set_solver|done]. apply (reads_good _ _ (c_Session core "") ([], None)).
  - apply wp_ret. split; [|done]. apply good_reply; [|by set_solver|done]. apply (reads_good _ _ _ ([], None)).
  - apply handler_good; [apply roomQuality_good|by set_solver|done|done].
  - apply wp_ret. split; [|done]. apply good_reply; [|by set_solver|done]. apply (reads_good _ _ (c_Session core "")).
Qed.

Lemma serve_route_good core a r now rt vals s :
  replay_ok (st_reg s) →
  wp (serve_route sha256 decode_room decode_token marshal cfg issuer core a r now rt vals)
     (λ resp s', good_response (request_id a r) resp ∧ replay_ok (st_reg s')) s.
Proof.
  intros Hs. unfold serve_route, wrapped. cbv zeta. apply wp_bind, wp_get.
  pose proof (good_wrap (st_mw s) rt.2.1 (h_creds r) now) as Hg.
  destruct (wrap (st_mw s) rt.2.1 (h_creds r) now) as [[e|k] mw]; simpl in Hg; apply wp_bind, wp_modify.
  - apply wp_ret. split; [by apply good_writeError|done].
  - pose proof (run_handler_good core a r (request_id a r) rt.2.2 (PathValue rt.1 vals) (st_reg s) Hs) as H.
    unfold wp, on_registry, value, final in *. simpl.
    by destruct (run_handler _ _ _ _ _ _ _ _ _ _ _ _ (st_reg s)) as [[resp reg] w].
Qed.

(** The run of a route: the gate, then the handler on the registry. *)
Lemma serve_route_run core a r now rt vals s :
  serve_route sha256 decode_room decode_token marshal cfg issuer core a r now rt vals s
  = match wrap (st_mw s) rt.2.1 (h_creds r) now with
    | (inl e, mw) => (writeError (request_id a r) (Some e), mkApi mw (st_reg s), [])
    | (inr _, mw) =>
        let '(resp, reg, w) := run_handler sha256 decode_room decode_token marshal cfg issuer core a r (request_id a r) rt.2.2
                                 (PathValue rt.1 vals) (st_reg s) in
        (resp, mkApi mw reg, w)
    end.
Proof.
  unfold serve_route, wrapped, mbind, M_bind, get, modify, on_registry. cbn.
  destruct (wrap (st_mw s) rt.2.1 (h_creds r) now) as [[e|k] mw]; [done|]. cbn.
  by destruct (run_handler _ _ _ _ _ _ _ _ _ _ _ _ _) as [[resp reg] w].
Qed.

(** A request as it reaches a route. *)
Record visit := mkVisit {
  v_core : Core; v_ambient : ambient; v_request : http_request; v_now : Z; v_route : pattern * (Scope * api_handler);
  v_vals : list string
}.

Definition serve_visit (v : visit) : M api_state api_event api_response :=
  serve_route sha256 decode_room decode_token marshal cfg issuer (v_core v) (v_ambient v) (v_request v) (v_now v)
    (v_route v) (v_vals v).

(** The API as it is started, after a history of requests and sweeps. *)
Definition fresh_api : api_state := mkApi (newMiddleware cfg) (s_registry (NewService cfg issuer true)).
Definition event_of (e : visit + Z) : M api_state api_event unit :=
  match e with
  | inl v => serve_visit v;; mret tt
  | inr now => on_registry (Sweep now)
  end.
Definition after (history : list (visit + Z)) : api_state := final (for_each history event_of) fresh_api.

Lemma event_of_ok e s : replay_ok (st_reg s) → replay_ok (st_reg (final (event_of e) s)).
Proof.
  intros Hs. destruct e as [v|now]; simpl.
  - rewrite final_bind, final_ret. by apply serve_route_good.
  - intros k e E. apply (Hs k e). unfold on_registry, Sweep, final in E. simpl in E. by apply map_lookup_filter_Some in E as [E _].
Qed.

Lemma replays_ok history : replay_ok (st_reg (after history)).
Proof.
  unfold after. assert (∀ s, replay_ok (st_reg s) → replay_ok (st_reg (final (for_each history event_of) s))) as H.
  { induction history as [|e l IH]; intros s Hs; [done|]. cbn [for_each]. rewrite final_bind. by apply IH, event_of_ok. }
  apply H. intros k e E. change (idem (st_reg fresh_api)) with (∅ : gmap string idemEntry) in E. by rewrite lookup_empty in E.
Qed.

(** C27: Every answer of the API has the documented form.  Whatever requests came before,
    and whatever the core answers, a response carries the request id that the caller
    gave, blanks aside, or else a generated one; it is either a success, 200 or 201,
    whose body is not an error, also when it is replayed for an idempotency key; or an
    error whose body has one of the fourteen codes with this request id, under the status
    of that code, between 400 and 503, and which names an owner exactly when the room is
    on another node. *)
Theorem api_responses_exact history v :
  let resp := value (serve_visit v) (after history) in
  let id := request_id (v_ambient v) (v_request v) in
  rs_requestId resp = id ∧ id ≠ ""
  ∧ (rs_status resp ∈ [200; 201] ∧ is_error (rs_body resp) = false
     ∨ ∃ code msg owner,
         rs_body resp = PError code msg id owner ∧ code ∈ known_codes
         ∧ rs_status resp = statusFor code ∧ 400 ≤ statusFor code ≤ 503
         ∧ (is_Some owner ↔ code = CodeRoomOnOtherNode)).
Proof.
  cbv zeta. destruct (serve_route_good (v_core v) (v_ambient v) (v_request v) (v_now v) (v_route v) (v_vals v) _
    (replays_ok history)) as [[H1 H2] _].
  split; [exact H1|]. split.
  { unfold request_id, newRequestID. by case_decide. }
  destruct H2 as [H2|(e & [Hk Ho] & Hst & Hb)]; [by left|]. right.
  exists (e_Code e), (e_Message e), (e_ownerNodeId e). split_and!; [exact Hb|exact Hk|exact Hst| | |exact Ho..].
  all: by apply known_status.
Qed.
End responses.
