(* ===== verification/Webhook.v ===== *)
(** * Outbound webhooks (internal/api/webhook.go)

    The dispatcher: a buffered channel of 256 envelopes, the goroutine that takes one
    at a time and posts it up to three times with pauses between the attempts, and
    Close, which asks it to stop.  The goroutine's turns, the sends of the handlers
    and Close interleave freely: each is an operation of [perform], which does
    nothing when the goroutine is not at that point.  An Emit counts its event after
    the send, in a step of its own, since the goroutine may run in between.  The
    payload type, encoding/json, HMAC-SHA256 and the receiver's answers are
    parameters. *)

From S2P Require Import Prelude Bytes GoStrings.

Section webhook.
Context {D : Type}.

(** src/internal/api/webhook.go:20-33 [Event] *)
Record Event := mkEvent { ev_Type : string; ev_RoomID : string; ev_Data : D }.
Record eventEnvelope := mkEnvelope {
  env_ID : string; env_Type : string; env_Version : Z; env_Timestamp : Z; env_RoomID : string; env_Data : D
}.

(** src/internal/api/webhook.go:36-42 [WebhookMetrics] *)
Record WebhookMetrics := mkWebhookMetrics { sent : Z; delivered : Z; failed : Z; dropped : Z }.

(** src/internal/api/webhook.go:130-162 [run]  Where the goroutine is: at the select
    of the loop, about to make attempt [k] (from 0), waiting before attempt [k], or
    returned, possibly with an event in its hands. *)
Inductive worker :=
| Selecting
| Trying (env : eventEnvelope) (k : nat)
| Waiting (env : eventEnvelope) (k : nat)
| Returned (left : option (eventEnvelope * nat)).

(** src/internal/api/webhook.go:47-60 [WebhookDispatcher]  [uncounted]: Emits between
    their send and their count. *)
Record WebhookDispatcher := mkDispatcher {
  d_ch : list eventEnvelope; d_closed : bool; d_worker : worker; d_metrics : WebhookMetrics; uncounted : Z
}.

(** Observable: an event accepted, a request made, a log record. *)
Inductive hook_out :=
| Accepted (env : eventEnvelope)
| Posted (env : eventEnvelope) (body : list byte) (signature : string)
| LogAttemptFailed (type : string) (attempt : nat)
| LogDropped (reason type : string).

Abbreviation WM := (M WebhookDispatcher hook_out).

Definition set_ch (ch : list eventEnvelope) : WM unit :=
  modify (λ d, mkDispatcher ch (d_closed d) (d_worker d) (d_metrics d) (uncounted d)).

Definition goto (w : worker) : WM unit :=
  modify (λ d, mkDispatcher (d_ch d) (d_closed d) w (d_metrics d) (uncounted d)).

Definition count (f : WebhookMetrics → WebhookMetrics) : WM unit :=
  modify (λ d, mkDispatcher (d_ch d) (d_closed d) (d_worker d) (f (d_metrics d)) (uncounted d)).

Definition set_uncounted (n : Z) : WM unit :=
  modify (λ d, mkDispatcher (d_ch d) (d_closed d) (d_worker d) (d_metrics d) n).

(** src/internal/api/webhook.go:64-83 [NewWebhookDispatcher]  [None]: no URL, no
    dispatcher. *)
Definition buffer : Z := 256.
Definition new_dispatcher : WebhookDispatcher :=
  mkDispatcher [] false Selecting (mkWebhookMetrics 0 0 0 0) 0.
Definition NewWebhookDispatcher (url : string) : option WebhookDispatcher :=
  if decide (url = "") then None else Some new_dispatcher.

(** src/internal/api/webhook.go:86-105 [Emit]  The envelope and the send. *)
Definition envelope (ev : Event) (rand : list byte) (now : Z) : eventEnvelope :=
  mkEnvelope ("evt_" +:+ hex_encode rand) (ev_Type ev) 1 now (ev_RoomID ev) (ev_Data ev).
Definition Emit_send (ev : Event) (rand : list byte) (now : Z) : WM unit :=
  d ← get;
  if Z.of_nat (length (d_ch d)) <? buffer
  then
    set_ch (d_ch d ++ [envelope ev rand now]);;
    set_uncounted (uncounted d + 1);;
    emit (Accepted (envelope ev rand now))
  else
    count (λ m, mkWebhookMetrics (sent m) (delivered m) (failed m) (dropped m + 1));;
    emit (LogDropped "buffer full" (ev_Type ev)).

(** src/internal/api/webhook.go:99-100 [Emit]  The count of an accepted event. *)
Definition Emit_count : WM unit :=
  d ← get;
  when (0 <? uncounted d)
    (count (λ m, mkWebhookMetrics (sent m + 1) (delivered m) (failed m) (dropped m));;
     set_uncounted (uncounted d - 1)).

(** src/internal/api/webhook.go:108-114 [Close] *)
Definition Close : WM unit :=
  modify (λ d, mkDispatcher (d_ch d) true (d_worker d) (d_metrics d) (uncounted d)).

(** src/internal/api/webhook.go:117-128 [Metrics] *)
Definition Metrics (d : option WebhookDispatcher) : bool * WebhookMetrics :=
  match d with None => (false, mkWebhookMetrics 0 0 0 0) | Some d => (true, d_metrics d) end.

(** [url_ok]: net/http can build a request for the configured URL. *)
Context (marshal : eventEnvelope → list byte) (hmac : list byte → list byte → list byte) (secret : string) (url_ok : bool).

(** src/internal/api/webhook.go:185-192 [signPayload] *)
Definition sign_input (ts : Z) (body : list byte) : list byte := bytes_of (fmt_int ts) ++ x2e :: body.
Definition signPayload (ts : Z) (body : list byte) : string :=
  "t=" +:+ fmt_int ts +:+ ",v1=" +:+ hex_encode (hmac (bytes_of secret) (sign_input ts body)).

(** src/internal/api/webhook.go:132-132 [run]  The pauses before the attempts. *)
Definition backoff : list Z := [0; second; 4 * second].

(** src/internal/api/webhook.go:134-144 [run]  The select: a closed dispatcher may
    still take an event, a select with both cases ready picks either. *)
Definition run_take : WM unit :=
  d ← get;
  match d_worker d, d_ch d with
  | Selecting, env :: ch => set_ch ch;; goto (Trying env 0)
  | _, _ => mret tt
  end.
Definition run_stop : WM unit :=
  d ← get;
  match d_worker d with
  | Selecting => when (d_closed d) (goto (Returned None))
  | Waiting env k => when (d_closed d) (goto (Returned (Some (env, k))))
  | _ => mret tt
  end.

(** src/internal/api/webhook.go:141-147 [run]  The pause is over. *)
Definition run_waited : WM unit :=
  d ← get;
  match d_worker d with
  | Waiting env k => goto (Trying env k)
  | _ => mret tt
  end.

(** src/internal/api/webhook.go:164-182 [deliver]  [answer]: the status of the
    response, or that there was none. *)
Definition deliver (env : eventEnvelope) (ts : Z) (answer : option Z) : WM bool :=
  if url_ok
  then
    emit (Posted env (marshal env) (signPayload ts (marshal env)));;
    mret match answer with Some st => (200 <=? st) && (st <? 300) | None => false end
  else mret false.

(** src/internal/api/webhook.go:148-159 [run]  One attempt and what follows it. *)
Definition run_attempt (ts : Z) (answer : option Z) : WM unit :=
  d ← get;
  match d_worker d with
  | Trying env k =>
      ok ← deliver env ts answer;
      if ok : bool
      then
        count (λ m, mkWebhookMetrics (sent m) (delivered m + 1) (failed m) (dropped m));;
        goto Selecting
      else
        emit (LogAttemptFailed (env_Type env) (S k));;
        if decide (S k < length backoff)%nat then goto (Waiting env (S k))
        else
          count (λ m, mkWebhookMetrics (sent m) (delivered m) (failed m + 1) (dropped m + 1));;
          emit (LogDropped "retries exhausted" (env_Type env));;
          goto Selecting
  | _ => mret tt
  end.

(** ** Runs *)

Inductive hook_op :=
| DEmit (ev : Event) (rand : list byte) (now : Z)
| DCount
| DClose
| DTake
| DStop
| DWaited
| DAttempt (ts : Z) (answer : option Z).

Definition perform (o : hook_op) : WM unit :=
  match o with
  | DEmit ev rand now => Emit_send ev rand now
  | DCount => Emit_count
  | DClose => Close
  | DTake => run_take
  | DStop => run_stop
  | DWaited => run_waited
  | DAttempt ts answer => run_attempt ts answer
  end.

Definition run (ops : list hook_op) : WM unit := for_each ops perform.
(** ** Accounting *)

Definition accepted (w : list hook_out) : list eventEnvelope :=
  omap (λ o, match o with Accepted e => Some e | _ => None end) w.

Definition posts (w : list hook_out) : list eventEnvelope :=
  omap (λ o, match o with Posted e _ _ => Some e | _ => None end) w.

(** The types of the events refused by a full buffer. *)
Definition rejected (w : list hook_out) : list string :=
  omap (λ o, match o with
    | LogDropped r type => if decide (r = "buffer full") then Some type else None | _ => None end) w.

(** The event in the goroutine's hands, with the number of attempts made. *)
Definition in_hand (w : worker) : list (eventEnvelope * nat) :=
  match w with
  | Trying e k | Waiting e k | Returned (Some (e, k)) => [(e, k)]
  | _ => []
  end.

Definition attempts (l : list (eventEnvelope * nat)) : list eventEnvelope :=
  l ≫= λ '(e, n), replicate n e.

(** [done]: the events the goroutine is finished with, and how often it posted each. *)
Record books (d : WebhookDispatcher) (w : list hook_out) (done : list (eventEnvelope * nat)) : Prop := mkBooks {
  bk_order : accepted w = done.*1 ++ (in_hand (d_worker d)).*1 ++ d_ch d;
  bk_posts : posts w = if url_ok then attempts (done ++ in_hand (d_worker d)) else [];
  bk_tries : Forall (λ p, 1 ≤ p.2 ≤ 3)%nat done;
  bk_hand : Forall (λ p, p.2 < 3)%nat (in_hand (d_worker d));
  bk_done : delivered (d_metrics d) + failed (d_metrics d) = Z.of_nat (length done);
  bk_sent : sent (d_metrics d) + uncounted d = Z.of_nat (length (accepted w));
  bk_dropped : dropped (d_metrics d) = Z.of_nat (length (rejected w)) + failed (d_metrics d);
  bk_uncounted : 0 ≤ uncounted d;
  bk_buffer : Z.of_nat (length (d_ch d)) ≤ buffer;
  bk_closed : d_closed d = false → ∀ x, d_worker d ≠ Returned x;
  bk_signed : Forall (λ o, match o with
    | Posted e body sig => body = marshal e ∧ ∃ ts, sig = signPayload ts body | _ => True end) w
}.

Lemma accepted_app w1 w2 : accepted (w1 ++ w2) = accepted w1 ++ accepted w2.
Proof. apply omap_app. Qed.

Lemma posts_app w1 w2 : posts (w1 ++ w2) = posts w1 ++ posts w2.
Proof. apply omap_app. Qed.

Lemma rejected_app w1 w2 : rejected (w1 ++ w2) = rejected w1 ++ rejected w2.
Proof. apply omap_app. Qed.

Lemma attempts_app l1 l2 : attempts (l1 ++ l2) = attempts l1 ++ attempts l2.
Proof. apply bind_app. Qed.

(** One more attempt for the event in hand. *)
Lemma attempts_snoc l e k : attempts (l ++ [(e, k)]) ++ [e] = attempts (l ++ [(e, S k)]).
Proof.
  rewrite !attempts_app. unfold attempts. simpl. rewrite !app_nil_r, <- app_assoc. f_equal.
  by rewrite <- replicate_cons_app.
Qed.

(** What a step leaves to prove of the books, its outputs being explicit. *)
Ltac settle :=
  first
    [ by rewrite app_nil_r; constructor
    | split; simpl; rewrite ?accepted_app, ?posts_app, ?rejected_app; simpl;
      rewrite ?length_app, ?fmap_app, ?app_nil_r, ?Forall_app, <- ?app_assoc; simpl; unfold buffer in *; simpl in *;
      try done; try lia; try (by repeat constructor) ].

Lemma books_emit ev rand now d w done :
  books d w done → books (final (Emit_send ev rand now) d) (w ++ outputs (Emit_send ev rand now) d) done.
Proof.
  intros [B1 B2 B3 B4 B5 B6 B7 B8 B9 B10 B11]. unfold Emit_send. autorewrite with mrun.
  destruct (_ <? buffer) eqn:E; zbool; unfold set_ch, set_uncounted, count; autorewrite with mrun; simpl; settle.
  rewrite B1. by rewrite <- !app_assoc.
Qed.

Lemma books_count d w done :
  books d w done → books (final Emit_count d) (w ++ outputs Emit_count d) done.
Proof.
  intros [B1 B2 B3 B4 B5 B6 B7 B8 B9 B10 B11]. unfold Emit_count. autorewrite with mrun.
  unfold when, set_uncounted, count. destruct (0 <? uncounted d) eqn:E; zbool; autorewrite with mrun; settle.
Qed.

Lemma books_close d w done : books d w done → books (final Close d) (w ++ outputs Close d) done.
Proof. intros []. unfold Close. autorewrite with mrun. settle. Qed.

Lemma books_take d w done : books d w done → books (final run_take d) (w ++ outputs run_take d) done.
Proof.
  intros [B1 B2 B3 B4 B5 B6 B7 B8 B9 B10 B11]. unfold run_take, set_ch, goto. autorewrite with mrun.
  destruct d as [ch c wk m u]; simpl in *. destruct wk, ch; autorewrite with mrun; settle.
  rewrite B2. destruct url_ok; [|done]. by rewrite !attempts_app.
Qed.

Lemma books_stop d w done : books d w done → books (final run_stop d) (w ++ outputs run_stop d) done.
Proof.
  intros [B1 B2 B3 B4 B5 B6 B7 B8 B9 B10 B11]. unfold run_stop, when, goto. autorewrite with mrun.
  destruct d as [ch [] wk m u]; simpl in *; destruct wk; autorewrite with mrun; settle.
Qed.

Lemma books_waited d w done : books d w done → books (final run_waited d) (w ++ outputs run_waited d) done.
Proof.
  intros [B1 B2 B3 B4 B5 B6 B7 B8 B9 B10 B11]. unfold run_waited, goto. autorewrite with mrun.
  destruct d as [ch c wk m u]; simpl in *; destruct wk; autorewrite with mrun; settle.
Qed.

(** A failed or a successful attempt: the event is done, or has one attempt more. *)
Lemma books_attempt ts answer d w done :
  books d w done →
  ∃ done', books (final (run_attempt ts answer) d) (w ++ outputs (run_attempt ts answer) d) done'.
Proof.
  intros [B1 B2 B3 B4 B5 B6 B7 B8 B9 B10 B11]. unfold run_attempt, deliver, goto, count. autorewrite with mrun.
  destruct d as [ch c wk m u]; simpl in *.
  destruct wk as [|e k|e k|x]; try (exists done; rewrite ?outputs_ret, ?final_ret; by settle).
  change (in_hand (Trying e k)) with [(e, k)] in *. apply Forall_cons_1 in B4 as [B4 _]; simpl in B4.
  assert (Hp : (if url_ok then attempts (done ++ [(e, S k)]) else []) = posts w ++ if url_ok then [e] else []).
  { rewrite B2. destruct url_ok; [|done]. symmetry. apply attempts_snoc. }
  assert (Hs : Forall (λ p : eventEnvelope * nat, (1 <= p.2 <= 3)%nat) (done ++ [(e, S k)])).
  { apply Forall_app; split; [done|]. apply Forall_singleton. simpl. lia. }
  assert (Ha : accepted w = (done ++ [(e, S k)]).*1 ++ ch) by (rewrite fmap_app, <- app_assoc; exact B1).
  assert (Hl : length (done ++ [(e, S k)]) = S (length done)) by (rewrite length_app; simpl; lia).
  destruct url_ok eqn:Eu; autorewrite with mrun; simpl.
  1: set (ok := match answer with Some _ => _ | None => _ end); destruct ok; autorewrite with mrun; simpl.
  1: exists (done ++ [(e, S k)]).
  2, 3: case_decide as Hk; autorewrite with mrun; simpl; [exists done | exists (done ++ [(e, S k)])].
  all: settle; rewrite ?Eu, ?Forall_cons, ?Forall_nil; simpl; split_and?; eauto with lia.
Qed.

Lemma books_perform o d w done :
  books d w done → ∃ done', books (final (perform o) d) (w ++ outputs (perform o) d) done'.
Proof.
  intros B. destruct o; simpl;
    eauto using books_emit, books_count, books_close, books_take, books_stop, books_waited, books_attempt.
Qed.

Lemma books_run ops d w done :
  books d w done → ∃ done', books (final (run ops) d) (w ++ outputs (run ops) d) done'.
Proof.
  revert d w done. induction ops as [|o ops IH]; intros d w done B; unfold run; simpl.
  - exists done. by rewrite outputs_ret, final_ret, app_nil_r.
  - autorewrite with mrun. destruct (books_perform o d w done B) as [done' B'].
    destruct (IH _ _ _ B') as [done'' B'']. exists done''. unfold run in B''. by rewrite app_assoc.
Qed.

Lemma books_new : books new_dispatcher [] [].
Proof. split; try done; try constructor. by destruct url_ok. Qed.

(** The webhook dispatcher loses nothing silently while it runs and repeats
    nothing it has settled: whatever the interleaving of emits, closes, worker turns
    and receiver answers, the accepted events split, in the order they were accepted,
    into settled ones, the one in the worker's hands and the buffered ones (at most
    256); each settled event was posted one to three times, the posts of different
    events never mixing; [delivered] and [failed] together count the settled events,
    [sent] the accepted ones, [dropped] the refused ones and the failed ones; every
    post carries the signature of its own body. *)
Theorem webhook_accounting ops :
  ∃ done, books (final (run ops) new_dispatcher) (outputs (run ops) new_dispatcher) done.
Proof. destruct (books_run ops _ _ _ books_new) as [done B]. by exists done. Qed.

(** ** Draining *)

(** One turn of the goroutine, whatever it is at. *)
Definition turn (a : Z * option Z) : list hook_op := [DTake; DWaited; DAttempt a.1 a.2].
Definition turns (l : list (Z * option Z)) : list hook_op := mjoin (turn <$> l).

(** How many attempts may be left. *)
Definition work (d : WebhookDispatcher) : nat :=
  3 * length (d_ch d) + match d_worker d with Trying _ k | Waiting _ k => 3 - k | _ => 0 end.

Definition active (d : WebhookDispatcher) : Prop :=
  match d_worker d with Returned _ => False | Trying _ k | Waiting _ k => (k < 3)%nat | Selecting => True end.

Lemma run_app l1 l2 d : final (run (l1 ++ l2)) d = final (run l2) (final (run l1) d).
Proof.
  unfold run. revert d. induction l1 as [|o l1 IH]; intros d; simpl; [by rewrite final_ret|].
  autorewrite with mrun. apply IH.
Qed.

(** An attempt uses up one. *)
Lemma attempt_works ts ans ch c e k m u :
  (k < 3)%nat →
  let d' := final (run_attempt ts ans) (mkDispatcher ch c (Trying e k) m u) in
  active d' ∧ (work d' ≤ 3 * length ch + (3 - k) - 1)%nat.
Proof.
  intros Hk. unfold run_attempt, deliver, goto, count. autorewrite with mrun. simpl.
  destruct url_ok; autorewrite with mrun; [destruct (match ans with Some _ => _ | None => _ end)|];
    autorewrite with mrun; try (case_decide as E; autorewrite with mrun); unfold active, work; simpl in *; lia.
Qed.

(** A turn of an active goroutine uses up an attempt, unless there is nothing to do. *)
Lemma turn_works a d :
  active d → active (final (run (turn a)) d) ∧ (work (final (run (turn a)) d) ≤ work d - 1)%nat.
Proof.
  destruct d as [ch c wk m u], a as [ts ans]. intros H.
  assert (Hr : final (run (turn (ts, ans))) (mkDispatcher ch c wk m u) =
    final (run_attempt ts ans) (final run_waited (final run_take (mkDispatcher ch c wk m u)))).
  { unfold run, turn. simpl. by autorewrite with mrun. }
  rewrite Hr. clear Hr. unfold run_take, run_waited, set_ch, goto. autorewrite with mrun.
  destruct wk as [|e k|e k|x]; [destruct ch as [|e ch]| | |done]; autorewrite with mrun; simpl.
  - unfold run_attempt. autorewrite with mrun. unfold active, work. simpl. lia.
  - destruct (attempt_works ts ans ch c e 0 m u) as [Ha Hw]; [lia|]. split; [done|]. etrans; [exact Hw|]. unfold work. simpl. lia.
  - destruct (attempt_works ts ans ch c e k m u) as [Ha Hw]; [done|]. split; [done|]. etrans; [exact Hw|]. unfold work. simpl. lia.
  - destruct (attempt_works ts ans ch c e k m u) as [Ha Hw]; [done|]. split; [done|]. etrans; [exact Hw|]. unfold work. simpl. lia.
Qed.

Lemma turns_work l d :
  active d → active (final (run (turns l)) d) ∧ (work (final (run (turns l)) d) ≤ work d - length l)%nat.
Proof.
  revert d. induction l as [|a l IH]; intros d H; simpl.
  - unfold run, turns. simpl. rewrite final_ret. split; [done|lia].
  - change (turns (a :: l)) with (turn a ++ turns l). rewrite run_app.
    destruct (turn_works a d H) as [H1 H2]. destruct (IH _ H1). split; [done|lia].
Qed.

Lemma closed_stays_open ops d :
  DClose ∉ ops → d_closed d = false → d_closed (final (run ops) d) = false.
Proof.
  intros Hn. apply (preserves_for_each (λ d, d_closed d = false)). intros o Ho.
  destruct o; simpl; try done;
    unfold Emit_send, Emit_count, run_take, run_stop, run_waited, run_attempt, deliver, set_ch, set_uncounted, goto, count, when;
    repeat first
      [ done | apply preserves_ret | apply preserves_get | apply preserves_emit
      | by apply preserves_modify | apply preserves_bind; [|intros ?] | case_match ].
Qed.

(** C38: The dispatcher makes progress: while it is not closed, 771 turns of its
    goroutine (three attempts for each of 256 buffered events and the one in hand)
    settle every event accepted so far, whatever the receiver answers: the buffer is
    empty, the goroutine is back at its select, and every accepted event is counted
    as delivered or as failed. *)
Theorem webhook_drains ops answers :
  DClose ∉ ops →
  (771 ≤ length answers)%nat →
  let d := final (run (ops ++ turns answers)) new_dispatcher in
  d_ch d = [] ∧ d_worker d = Selecting ∧
  sent (d_metrics d) + uncounted d = delivered (d_metrics d) + failed (d_metrics d).
Proof.
  intros Hn Hl d. unfold d. rewrite run_app. set (d0 := final (run ops) new_dispatcher).
  destruct (books_run ops _ _ _ books_new) as [done0 B0]. fold d0 in B0.
  assert (Hc : d_closed d0 = false) by by apply closed_stays_open.
  assert (Ha : active d0).
  { pose proof (bk_hand _ _ _ B0) as Hh. pose proof (bk_closed _ _ _ B0 Hc) as Hw. unfold active.
    destruct (d_worker d0); simpl in *; [done|by apply Forall_cons_1 in Hh as [? _]..|by edestruct Hw]. }
  destruct (turns_work answers d0 Ha) as [Ha' Hw].
  assert (Hw0 : (work d0 ≤ 771)%nat).
  { pose proof (bk_buffer _ _ _ B0) as Hb. unfold buffer in Hb. unfold work.
    destruct (d_worker d0); lia. }
  destruct (books_run (turns answers) _ _ _ B0) as [done1 B1].
  set (d1 := final (run (turns answers)) d0) in *.
  assert (Hs : d_ch d1 = [] ∧ d_worker d1 = Selecting).
  { assert (H0 : work d1 = 0%nat) by lia. unfold active, work in Ha', H0.
    destruct (d_ch d1), (d_worker d1); simpl in *; try done; lia. }
  destruct Hs as [Hs1 Hs2]. split_and!; [done..|].
  rewrite (bk_sent _ _ _ B1), (bk_done _ _ _ B1), (bk_order _ _ _ B1), Hs1, Hs2. simpl.
  by rewrite !app_nil_r, length_fmap.
Qed.

(** The signed bytes determine the timestamp and the body. *)
Lemma sign_input_inj ts ts' body body' :
  sign_input ts body = sign_input ts' body' → ts = ts' ∧ body = body'.
Proof.
  unfold sign_input. intros H.
  assert (Hp : ∀ (a b l r : list byte), x2e ∉ a → x2e ∉ b → a ++ x2e :: l = b ++ x2e :: r → a = b ∧ l = r).
  { induction a as [|x a IH]; intros [|y b] l r Ha Hb E; simplify_eq/=; try set_solver.
    destruct (IH b l r) as [-> ->]; [set_solver..|done|done]. }
  destruct (Hp _ _ _ _ (fmt_int_no_dot ts) (fmt_int_no_dot ts') H) as [E ->]. split; [|done].
  by apply fmt_int_inj, (inj bytes_of).
Qed.
End webhook.

(** ** Concrete runs *)

Definition toy_marshal (e : eventEnvelope (D := unit)) : list byte := bytes_of (env_ID e).
Definition toy_hmac (key msg : list byte) : list byte := key ++ msg.
Definition toy_run : list hook_op → M _ _ unit := run toy_marshal toy_hmac "k" true.

Definition room_created : Event := mkEvent "room.created" "r1" tt.

Lemma webhook_drains_witness :
  d_ch (final (toy_run ([DEmit room_created [x01] 5; DCount; DTake; DAttempt 6 (Some 500)] ++
    turns (replicate 771 (7, None)))) new_dispatcher) = [].
Proof.
  apply (webhook_drains toy_marshal toy_hmac "k" true
    [DEmit room_created [x01] 5; DCount; DTake; DAttempt 6 (Some 500)] (replicate 771 (7, None))).
  - intros H. repeat (apply elem_of_cons in H as [H|H]; [discriminate|]). by apply elem_of_nil in H.
  - rewrite length_replicate. lia.
Defined.

(** Close while the first event waits for its second attempt: it is abandoned after
    one post, the second one never leaves the buffer, and neither is counted as
    failed or dropped.  An Emit after Close is still accepted and counted. *)
Example close_abandons_events :
  let d := final (toy_run [DEmit room_created [x01] 5; DCount; DEmit room_created [x02] 5; DCount;
    DTake; DAttempt 6 None; DClose; DStop; DEmit room_created [x03] 7; DCount]) new_dispatcher in
  d_worker d = Returned (Some (envelope room_created [x01] 5, 1%nat)) ∧
  length (d_ch d) = 2%nat ∧
  d_metrics d = mkWebhookMetrics 3 0 0 0.
Proof. vm_compute. done. Qed.

(** A delivery on the third attempt, its pauses and its log. *)
Example third_time_lucky :
  outputs (toy_run [DEmit room_created [x01] 5; DTake; DAttempt 6 None; DWaited; DAttempt 7 (Some 503);
    DWaited; DAttempt 8 (Some 204)]) new_dispatcher =
  let e := envelope room_created [x01] 5 in
  [Accepted e; Posted e (toy_marshal e) (signPayload toy_hmac "k" 6 (toy_marshal e));
   LogAttemptFailed "room.created" 1; Posted e (toy_marshal e) (signPayload toy_hmac "k" 7 (toy_marshal e));
   LogAttemptFailed "room.created" 2; Posted e (toy_marshal e) (signPayload toy_hmac "k" 8 (toy_marshal e))].
Proof. vm_compute. done. Qed.
