(* ===== verification/SfuStats.v ===== *)
(** * Statistics of the SFU (internal/sfu: stats.go, stats_metrics.go, histogram.go)

    What the dashboard, the metrics endpoints and the management API read: the walk
    over rooms and participants, the aggregate with its counters, and the duration
    histogram of the negotiations.  The statistics of a peer connection come from the
    WebRTC library and are arguments.  A walk takes one lock after the other; here it
    reads one state.  The negotiation counters and the histogram belong to the
    negotiation component and are arguments of [Metrics]. *)

From S2P Require Import Prelude GoFloat SendQueue Sfu SfuInvariant SfuSteps SfuSafety.

(** [uint64] arithmetic. *)
Definition u64 (z : Z) : Z := z mod 2 ^ 64.

Lemma u64_small z : 0 ≤ z < 2 ^ 64 → u64 z = z.
Proof. apply Z.mod_small. Qed.

Lemma u64_add z n : u64 (u64 z + n) = u64 (z + n).
Proof. apply Zplus_mod_idemp_l. Qed.

(** ** The duration histogram *)

(** src/internal/sfu/histogram.go:9-14 [durationHistogram] *)
Record durationHistogram := mkHistogram {
  bounds : list float64; counts : list Z; sumMicros : Z; total : Z
}.

(** src/internal/sfu/histogram.go:16-18 [newDurationHistogram] *)
Definition newDurationHistogram (b : list float64) : durationHistogram :=
  mkHistogram b (replicate (length b) 0) 0 0.

(** src/internal/sfu/core_sfu.go:224-224 [New: negotiationDur] *)
Definition negotiation_bounds : list float64 :=
  [f_div (f_of_Z 5) (f_of_Z 1000); f_div (f_of_Z 10) (f_of_Z 1000); f_div (f_of_Z 25) (f_of_Z 1000);
   f_div (f_of_Z 50) (f_of_Z 1000); f_div (f_of_Z 100) (f_of_Z 1000); f_div (f_of_Z 250) (f_of_Z 1000);
   f_div (f_of_Z 500) (f_of_Z 1000); f_of_Z 1; f_div (f_of_Z 2500) (f_of_Z 1000)].

(** src/internal/sfu/histogram.go:22-27 [Observe: bucket]  The first bound that is not
    exceeded. *)
Definition bucket_of (b : list float64) (d : Z) : option nat :=
  fst <$> list_find (λ x, f_le (Seconds d) x = true) b.

(** src/internal/sfu/histogram.go:20-30 [Observe] *)
Definition Observe (h : durationHistogram) (d : Z) : durationHistogram :=
  mkHistogram (bounds h)
    (match bucket_of (bounds h) d with
     | Some i => alter (λ c, u64 (c + 1)) i (counts h)
     | None => counts h
     end)
    (u64 (sumMicros h + Z.quot d 1000)) (u64 (total h + 1)).

(** src/internal/sfu/stats_metrics.go:24-30 [HistogramSnapshot] *)
Record HistogramSnapshot := mkHSnap {
  Bounds : list float64; Counts : list Z; SumSeconds : float64; Count : Z
}.

(** src/internal/sfu/histogram.go:32-39 [Snapshot] *)
Definition Snapshot (h : durationHistogram) : HistogramSnapshot :=
  mkHSnap (bounds h) (counts h) (f_div (f_of_Z (sumMicros h)) (f_of_Z 1000000)) (total h).

(** ** Room statistics *)

(** src/internal/sfu/stats.go:28-34 [PublicationStat] *)
Record PublicationStat := mkPubStat {
  ps_ID : string; ps_Kind : string; ps_Source : string; ps_SSRC : Z; ps_Muted : bool
}.

(** src/internal/sfu/stats.go:38-50 [RTPStats] *)
Record RTPStats := mkRTP {
  rtp_Kind : string; rtp_SSRC : Z; PacketsReceived : Z; PacketsSent : Z; PacketsLost : Z;
  BytesReceived : Z; BytesSent : Z; Jitter : float64; NACKCount : Z; PLICount : Z; RoundTripTime : float64
}.

(** src/internal/sfu/stats.go:16-25 [ParticipantStats] *)
Record ParticipantStats := mkPStats {
  st_ID : string; st_Role : string; ConnectionState : string; ICEState : string;
  st_Publications : list PublicationStat; st_Subscriptions : list string;
  Inbound : list RTPStats; Outbound : list RTPStats
}.

(** src/internal/sfu/stats.go:10-13 [RoomStats] *)
Record RoomStats := mkRStats { st_Room : string; st_Participants : list ParticipantStats }.

(** What the code reads of a [webrtc.StatsReport]. *)
Inductive report_entry :=
| InboundRTPStreamStats (kind : string) (ssrc received lost bytes : Z) (jitter : float64) (nacks plis : Z)
| OutboundRTPStreamStats (kind : string) (ssrc sent bytes nacks plis : Z)
| ICECandidatePairStats (Nominated : bool) (CurrentRoundTripTime : float64)
| OtherStats.

(** What a peer connection answers. *)
Record pc_view := mkView {
  pc_ConnectionState : string; pc_ICEConnectionState : string; GetStats : gmap string report_entry
}.

Definition zero : float64 := f_of_Z 0.

Section stats.
(** The map orders of the walk, and of the walk of [roundTripTime]. *)
Context (env env' : Env) (view : nat → pc_view).

(** src/internal/sfu/core_participant.go:664-672 [subscriptionIDs] *)
Definition subscriptionIDs (s : sfu) (p : nat) : list string := (range env _ (subscriptions (part_at s p))).*1.

(** src/internal/sfu/stats.go:129-136 [roundTripTime] *)
Definition roundTripTime (report : gmap string report_entry) : float64 :=
  default zero (head (omap (λ e, match e.2 with
    | ICECandidatePairStats true rtt => Some rtt | _ => None end) (range env' _ report))).

(** src/internal/sfu/stats.go:70-78 [stats: role] *)
Definition role (pubs : list nat) (subs : list string) : string :=
  if decide (pubs ≠ [] ∧ subs ≠ []) then "publisher+subscriber"
  else if decide (pubs ≠ []) then "publisher"
  else if decide (subs ≠ []) then "subscriber"
  else "idle".

(** src/internal/sfu/stats.go:103-113 [stats: inbound] *)
Definition inbound_of (e : report_entry) : option RTPStats :=
  match e with
  | InboundRTPStreamStats k n received lost bytes j nacks plis =>
      Some (mkRTP k n received 0 lost bytes 0 j nacks plis zero)
  | _ => None
  end.

(** src/internal/sfu/stats.go:114-123 [stats: outbound] *)
Definition outbound_of (rtt : float64) (e : report_entry) : option RTPStats :=
  match e with
  | OutboundRTPStreamStats k n sent bytes nacks plis => Some (mkRTP k n 0 sent 0 0 bytes zero nacks plis rtt)
  | _ => None
  end.

(** src/internal/sfu/stats.go:66-127 [stats] *)
Definition stats (s : sfu) (p : nat) : ParticipantStats :=
  let pubs := listPublications env s p in
  let subIDs := subscriptionIDs s p in
  let report := GetStats (view p) in
  let rtt := roundTripTime report in
  mkPStats (part_id (part_at s p)) (role pubs subIDs) (pc_ConnectionState (view p)) (pc_ICEConnectionState (view p))
    ((λ x, let b := pub_at s x in mkPubStat (pub_id b) (kind_String (pub_kind b)) (source b) (ssrc b) (muted b)) <$> pubs)
    subIDs
    (omap inbound_of (range env _ report).*2)
    (omap (outbound_of rtt) (range env _ report).*2).

(** src/internal/sfu/stats.go:54-64 [Stats] *)
Definition Stats (s : sfu) (roomID : string) : RoomStats :=
  match GetRoom s roomID with
  | None => mkRStats roomID []
  | Some r => mkRStats roomID (stats s <$> snapshot env s r)
  end.

(** ** Aggregate metrics *)

(** src/internal/sfu/stats_metrics.go:48-53 [EntityMetrics] *)
Record EntityMetrics := mkEntity { Active : nat; Created : Z; Closed : Z; Removed : Z }.

(** src/internal/sfu/stats_metrics.go:55-61 [RTPAggregate] *)
Record RTPAggregate := mkAggregate { a_received : Z; a_sent : Z; a_lost : Z; a_bytesIn : Z; a_bytesOut : Z }.

(** src/internal/sfu/stats_metrics.go:33-46 [SubQueueMetrics, NegotiationMetrics] *)
Record SubQueueMetrics := mkSubQueue {
  DroppedAudioPackets : Z; DroppedVideoPackets : Z; KeyframeResyncs : Z; q_Failed : Z
}.
Record NegotiationMetrics := mkNeg { Started : Z; Completed : Z; Coalesced : Z; n_Failed : Z }.

(** src/internal/sfu/stats_metrics.go:6-21 [MetricsSnapshot] *)
Record MetricsSnapshot := mkMetrics {
  Rooms : EntityMetrics; PeerConns : EntityMetrics; Tracks : EntityMetrics; Publications : EntityMetrics;
  Subscriptions : EntityMetrics; Negotiations : NegotiationMetrics; RTP : RTPAggregate; SubQueue : SubQueueMetrics;
  ScreenPublicationsTotal : Z; NegotiationDuration : HistogramSnapshot
}.

(** src/internal/sfu/stats_metrics.go:112-129 [Metrics: totals]  The sums of the walk;
    tracks are counted as publications are. *)
Record totals := mkTotals { t_peers : nat; t_pubs : nat; t_subs : nat; t_rtp : RTPAggregate }.

Definition add_inbound (a : RTPAggregate) (r : RTPStats) : RTPAggregate :=
  mkAggregate (u64 (a_received a + PacketsReceived r)) (a_sent a) (wrap64 (a_lost a + PacketsLost r))
    (u64 (a_bytesIn a + BytesReceived r)) (a_bytesOut a).
Definition add_outbound (a : RTPAggregate) (r : RTPStats) : RTPAggregate :=
  mkAggregate (a_received a) (u64 (a_sent a + PacketsSent r)) (a_lost a) (a_bytesIn a)
    (u64 (a_bytesOut a + BytesSent r)).
Definition add_participant (t : totals) (p : ParticipantStats) : totals :=
  mkTotals (t_peers t) (t_pubs t + length (st_Publications p)) (t_subs t + length (st_Subscriptions p))
    (foldl add_outbound (foldl add_inbound (t_rtp t) (Inbound p)) (Outbound p)).
Definition add_room (t : totals) (st : RoomStats) : totals :=
  foldl add_participant
    (mkTotals (t_peers t + length (st_Participants st)) (t_pubs t) (t_subs t) (t_rtp t)) (st_Participants st).

(** src/internal/sfu/stats_metrics.go:65-131 [Metrics] *)
Definition Metrics (s : sfu) (started completed failed : Z) (h : durationHistogram) : MetricsSnapshot :=
  let roomIDs := (range env _ (rooms s)).*1 in
  let t := foldl add_room (mkTotals 0 0 0 (mkAggregate 0 0 0 0 0)) (Stats s <$> roomIDs) in
  let c := counters s in
  mkMetrics
    (mkEntity (length roomIDs) (c roomsCreated) (c roomsClosed) 0)
    (mkEntity (t_peers t) (c peerConnectionsMade) (c peerConnectionsClose) 0)
    (mkEntity (t_pubs t) (c publicationsMade) 0 (c publicationsRemoved))
    (mkEntity (t_pubs t) (c publicationsMade) 0 (c publicationsRemoved))
    (mkEntity (t_subs t) (c subscriptionsMade) 0 (c subscriptionsRemoved))
    (mkNeg started completed (c negotiationsCoalesced) failed)
    (t_rtp t)
    (mkSubQueue (c subQueueDroppedAudio) (c subQueueDroppedVideo) (c subQueueResyncs) (c subscriptionsFailed))
    (c screenPublicationsMade)
    (Snapshot h).

(** ** The gauges count the objects *)

Hypothesis Henv : env_ok env.

Lemma range_length {A} (m : gmap string A) : length (range env _ m) = size m.
Proof. by rewrite (Henv _ m), length_map_to_list. Qed.

Lemma range_elem {A} (m : gmap string A) k a : (k, a) ∈ range env _ m ↔ m !! k = Some a.
Proof. by rewrite (Henv _ m), elem_of_map_to_list. Qed.

Lemma stats_sizes s p :
  length (st_Publications (stats s p)) = size (publications (part_at s p)) ∧
  length (st_Subscriptions (stats s p)) = size (subscriptions (part_at s p)).
Proof.
  unfold stats, listPublications, subscriptionIDs. cbn [st_Publications st_Subscriptions].
  by rewrite !length_fmap, !range_length.
Qed.

Lemma add_participants s t l :
  let t' := foldl add_participant t (stats s <$> l) in
  t_peers t' = t_peers t ∧
  t_pubs t' = (t_pubs t + sum_list (size ∘ publications ∘ part_at s <$> l))%nat ∧
  t_subs t' = (t_subs t + sum_list (size ∘ subscriptions ∘ part_at s <$> l))%nat.
Proof.
  revert t. induction l as [|p l IH]; intros t; csimpl; [lia|].
  destruct (IH (add_participant t (stats s p))) as (E1 & E2 & E3). rewrite E1, E2, E3.
  destruct (stats_sizes s p) as [S1 S2]. unfold add_participant; cbn [t_peers t_pubs t_subs]. rewrite S1, S2. lia.
Qed.

Lemma add_rooms s t l :
  (∀ id r, (id, r) ∈ l → rooms s !! id = Some r) →
  let t' := foldl add_room t (Stats s <$> l.*1) in
  let ps := l.*2 ≫= snapshot env s in
  t_peers t' = (t_peers t + length ps)%nat ∧
  t_pubs t' = (t_pubs t + sum_list (size ∘ publications ∘ part_at s <$> ps))%nat ∧
  t_subs t' = (t_subs t + sum_list (size ∘ subscriptions ∘ part_at s <$> ps))%nat.
Proof.
  revert t. induction l as [|[id r] l IH]; intros t Hl; csimpl; [lia|].
  assert (Hr : Stats s id = mkRStats id (stats s <$> snapshot env s r)).
  { unfold Stats, GetRoom. by rewrite (Hl id r) by (apply elem_of_cons; by left). }
  destruct (IH (add_room t (Stats s id))) as (E1 & E2 & E3).
  { intros id' r' H. apply Hl, elem_of_cons. by right. }
  rewrite E1, E2, E3, Hr. unfold add_room. cbn [st_Participants].
  edestruct (add_participants s) as (F1 & F2 & F3). rewrite F1, F2, F3. cbn [t_peers t_pubs t_subs].
  rewrite !fmap_app, !sum_list_with_app. rewrite length_app, length_fmap. lia.
Qed.

(** The participants of the registered rooms. *)
Definition members (s : sfu) : list nat := (range env _ (rooms s)).*2 ≫= snapshot env s.

Lemma Metrics_totals s a b c h :
  let m := Metrics s a b c h in
  Active (Rooms m) = size (rooms s) ∧
  Active (PeerConns m) = length (members s) ∧
  Active (Publications m) = sum_list (size ∘ publications ∘ part_at s <$> members s) ∧
  Active (Subscriptions m) = sum_list (size ∘ subscriptions ∘ part_at s <$> members s).
Proof.
  cbv zeta. unfold Metrics. cbn [Active Rooms PeerConns Publications Subscriptions].
  destruct (add_rooms s (mkTotals 0 0 0 (mkAggregate 0 0 0 0 0)) (range env _ (rooms s))) as (E1 & E2 & E3).
  { intros id r. by rewrite range_elem. }
  rewrite length_fmap, range_length. unfold members. rewrite E1, E2, E3. done.
Qed.

Lemma elem_of_members s p :
  p ∈ members s ↔ ∃ id r k, rooms s !! id = Some r ∧ participants (room_at s r) !! k = Some p.
Proof.
  unfold members, snapshot. rewrite list_elem_of_bind. split.
  - intros (r & Hp & Hr). apply list_elem_of_fmap in Hr as ([id r'] & -> & Hr).
    apply list_elem_of_fmap in Hp as ([k p'] & -> & Hp). rewrite range_elem in Hr, Hp. by exists id, r', k.
  - intros (id & r & k & Hr & Hp). exists r. split; apply list_elem_of_fmap.
    + exists (k, p). by rewrite range_elem.
    + exists (id, r). by rewrite range_elem.
Qed.

Lemma range_NoDup {A} (m : gmap string A) : NoDup (range env _ m).
Proof. rewrite (Henv _ m). apply NoDup_map_to_list. Qed.

(** Nobody is in two rooms, or in one under two names. *)
Lemma members_NoDup s : good s → NoDup (members s).
Proof.
  intros HI. pose proof (in_stat _ _ _ _ HI) as [Hm _ _ Hr]. unfold core_of in Hm, Hr; simpl in Hm, Hr.
  assert (Hone : ∀ id r k p, rooms s !! id = Some r → participants (room_at s r) !! k = Some p →
    room_id (room_at s r) = id ∧ ∃ P, part_heap s !! p = Some P ∧ part_id P = k ∧ part_room P = r).
  { intros id r k p Hid Hk. destruct (Hr id r Hid) as (R & HR & Eid).
    assert (room_at s r = R) as E by (unfold room_at; by rewrite HR). rewrite E in *. split; [done|].
    destruct (Hm r R k p HR Hk) as (P & HP & E1 & E2 & _). rewrite lookup_fmap in HP.
    apply fmap_Some in HP as (P' & HP' & ->). by exists P'. }
  unfold members, snapshot. apply NoDup_bind.
  - intros r r' p Hr1 Hr2 Hp Hp'.
    apply list_elem_of_fmap in Hr1 as ([id1 ?] & -> & Hr1), Hr2 as ([id2 ?] & -> & Hr2).
    apply list_elem_of_fmap in Hp as ([k ?] & -> & Hp), Hp' as ([k' ?] & E & Hp').
    rewrite range_elem in Hr1, Hr2, Hp, Hp'. simpl in *. subst.
    destruct (Hone _ _ _ _ Hr1 Hp) as (_ & P & HP & _ & <-).
    destruct (Hone _ _ _ _ Hr2 Hp') as (_ & P' & HP' & _ & <-). congruence.
  - intros r Hr1. apply list_elem_of_fmap in Hr1 as ([id ?] & -> & Hr1). rewrite range_elem in Hr1.
    apply NoDup_fmap_2_strong; [|apply range_NoDup].
    intros [k p] [k' p'] H1 H2 E. rewrite range_elem in H1, H2. simpl in *. subst p'.
    destruct (Hone _ _ _ _ Hr1 H1) as (_ & P & HP & <- & _).
    destruct (Hone _ _ _ _ Hr1 H2) as (_ & P' & HP' & <- & _). congruence.
  - apply NoDup_fmap_2_strong; [|apply range_NoDup].
    intros [id r] [id' r'] H1 H2 E. rewrite range_elem in H1, H2. simpl in *. subst r'.
    destruct (Hr _ _ H1) as (R & HR & <-), (Hr _ _ H2) as (R' & HR' & <-). congruence.
Qed.

(** A sum over some objects of a heap is at most the sum over all. *)
Lemma sum_part_heap (f : Participant → nat) (h : gmap nat Participant) l :
  NoDup l → (∀ p, p ∈ l → is_Some (h !! p)) →
  Z.of_nat (sum_list (f ∘ (λ p, default null_part (h !! p)) <$> l)) ≤ msum (λ P, Z.of_nat (f P)) h.
Proof.
  revert h. induction l as [|p l IH]; intros h Hn Hl; csimpl.
  - apply (msum_nonneg (λ P, Z.of_nat (f P))). lia.
  - apply NoDup_cons in Hn as [Hp Hn]. destruct (Hl p) as [P HP]; [apply elem_of_cons; by left|].
    rewrite (msum_delete _ h p P HP), HP. simpl.
    assert (E : f ∘ (λ p, default null_part (h !! p)) <$> l = f ∘ (λ q, default null_part (delete p h !! q)) <$> l).
    { apply list_fmap_ext. intros i q Hq. simpl. rewrite lookup_delete_ne; [done|].
      intros <-. by apply Hp, list_elem_of_lookup_2 with i. }
    rewrite E. lapply (IH (delete p h) Hn); [lia|].
    intros q Hq. rewrite lookup_delete_ne; [|by intros <-]. apply Hl, elem_of_cons. by right.
Qed.

(** Every member is an open participant object. *)
Lemma member_open s p : good s → p ∈ members s → ∃ P, part_heap s !! p = Some P ∧ part_closed P = false.
Proof.
  intros HI Hp. apply elem_of_members in Hp as (id & r & k & Hr & Hk).
  pose proof (in_stat _ _ _ _ HI) as [Hm _ _ Hrs]. unfold core_of in Hm, Hrs; simpl in Hm, Hrs.
  destruct (Hrs id r Hr) as (R & HR & _).
  assert (room_at s r = R) as E by (unfold room_at; by rewrite HR). rewrite E in Hk.
  destruct (Hm r R k p HR Hk) as (P & HP & _ & _ & Hc). rewrite lookup_fmap in HP.
  apply fmap_Some in HP as (P' & HP' & ->). by exists P'.
Qed.

End stats.

(** ** The histogram counts every observation once *)

Lemma foldr_add_acc l z : foldr Z.add z l = foldr Z.add 0 l + z.
Proof. induction l as [|x l IH]; simpl; lia. Qed.

(** The observations of [ds] that fall into bucket [i]. *)
Definition in_bucket (b : list float64) (ds : list Z) (i : nat) : Z :=
  Z.of_nat (length (filter (λ d, bucket_of b d = Some i) ds)).

Definition observed (b : list float64) (ds : list Z) : durationHistogram :=
  foldl Observe (newDurationHistogram b) ds.

Lemma bucket_of_lookup b d i : bucket_of b d = Some i → (i < length b)%nat.
Proof.
  unfold bucket_of. intros H. apply fmap_Some in H as ([j x] & H & ->).
  apply list_find_Some in H as (H & _ & _). by apply lookup_lt_Some in H.
Qed.

Lemma observed_snoc b ds d : observed b (ds ++ [d]) = Observe (observed b ds) d.
Proof. unfold observed. by rewrite foldl_snoc. Qed.

Lemma in_bucket_snoc b ds d j :
  in_bucket b (ds ++ [d]) j = in_bucket b ds j + if decide (bucket_of b d = Some j) then 1 else 0.
Proof.
  unfold in_bucket. rewrite filter_app, length_app. destruct (decide (bucket_of b d = Some j)) as [E|E].
  - rewrite filter_cons_True by done. simpl. lia.
  - rewrite filter_cons_False by done. simpl. lia.
Qed.

Lemma in_bucket_range b ds j : 0 ≤ in_bucket b ds j ≤ Z.of_nat (length ds).
Proof. unfold in_bucket. split; [lia|]. apply Nat2Z.inj_le, length_filter. Qed.

(** Counts stay exact while fewer than 2^64 durations were observed; the sum is exact
    modulo 2^64 microseconds. *)
Lemma observed_exact b ds :
  Z.of_nat (length ds) < 2 ^ 64 →
  bounds (observed b ds) = b ∧
  counts (observed b ds) = in_bucket b ds <$> seq 0 (length b) ∧
  sumMicros (observed b ds) = u64 (foldr Z.add 0 ((λ d, Z.quot d 1000) <$> ds)) ∧
  total (observed b ds) = Z.of_nat (length ds).
Proof.
  induction ds as [|d ds IH] using rev_ind; intros Hl.
  - split_and!; [done| |done|done]. unfold observed; simpl. change (replicate (length b) 0 = in_bucket b [] <$> seq 0 (length b)).
    generalize 0%nat. induction (length b) as [|n IHn]; intros k; csimpl; [done|]. by rewrite (IHn (S k)).
  - rewrite length_app in Hl. simpl in Hl. destruct IH as (E1 & E2 & E3 & E4); [lia|].
    rewrite observed_snoc. unfold Observe. cbn [bounds counts sumMicros total]. rewrite E1, E2, E3, E4.
    split_and!; [done| | |rewrite length_app; simpl; rewrite u64_small; lia].
    + apply list_eq. intros j. rewrite list_lookup_fmap.
      assert (Hj : (match bucket_of b d with
        | Some i => alter (λ c : Z, u64 (c + 1)) i (in_bucket b ds <$> seq 0 (length b))
        | None => in_bucket b ds <$> seq 0 (length b) end) !! j =
        (λ k, if decide (bucket_of b d = Some k) then u64 (in_bucket b ds k + 1) else in_bucket b ds k) <$>
        seq 0 (length b) !! j).
      { destruct (bucket_of b d) as [i|].
        - destruct (decide (i = j)) as [->|Hij].
          + rewrite list_lookup_alter_eq, list_lookup_fmap.
            destruct (seq 0 (length b) !! j) as [k|] eqn:Ek; simpl; [|done].
            apply lookup_seq in Ek as [-> _]. by rewrite decide_True.
          + rewrite list_lookup_alter_ne, list_lookup_fmap by done.
            destruct (seq 0 (length b) !! j) as [k|] eqn:Ek; simpl; [|done].
            apply lookup_seq in Ek as [-> _]. simpl. by rewrite decide_False by congruence.
        - rewrite list_lookup_fmap. by destruct (seq 0 (length b) !! j). }
      rewrite Hj. destruct (seq 0 (length b) !! j) as [k|]; simpl; [|done].
      rewrite in_bucket_snoc. pose proof (in_bucket_range b ds k).
      case_decide; f_equal; [rewrite u64_small|]; lia.
    + rewrite u64_add, fmap_app, foldr_app. cbn [foldr fmap list_fmap]. rewrite (foldr_add_acc _ (Z.quot d 1000 + 0)). f_equal. lia.
Qed.

(** The bounds ascend. *)
Definition ascending (b : list float64) : Prop :=
  ∀ i j x y, (i < j)%nat → b !! i = Some x → b !! j = Some y → f_lt x y = true.

Lemma f_le_lt_trans x y z : f_le x y = true → f_lt y z = true → f_le x z = true.
Proof.
  rewrite !f_le_lt_eq. intros [H|H]%orb_true_iff Hz; apply orb_true_iff; left;
    [by apply f_lt_trans with y | by apply f_eq_lt_trans with y].
Qed.

Lemma bucket_le b d i x :
  ascending b → b !! i = Some x → f_le (Seconds d) x = true ↔ ∃ j, bucket_of b d = Some j ∧ (j ≤ i)%nat.
Proof.
  intros Hb Hi. unfold bucket_of. split.
  - intros Hle. destruct (list_find (λ y, f_le (Seconds d) y = true) b) as [[j y]|] eqn:Ef.
    + exists j. split; [done|]. apply list_find_Some in Ef as (_ & _ & Hmin).
      destruct (decide (j ≤ i)%nat) as [|Hji]; [done|]. exfalso. apply (Hmin i x); [done|lia|done].
    + apply list_find_None in Ef. rewrite list.Forall_forall in Ef.
      exfalso. apply (Ef x); [by apply list_elem_of_lookup_2 with i|done].
  - intros (j & Hj & Hji). apply fmap_Some in Hj as ([j' y] & Hf & ->). simpl in Hji.
    apply list_find_Some in Hf as (Hy & Hle & _).
    destruct (decide (j' = i)) as [->|]; [congruence|].
    apply f_le_lt_trans with y; [done|]. apply (Hb j' i); [lia|done|done].
Qed.

(** A sum in which one summand is one larger. *)
Lemma sum_bump (f : nat → Z) (o : option nat) k n :
  foldr Z.add 0 ((λ j, f j + if decide (o = Some j) then 1 else 0) <$> seq k n) =
  foldr Z.add 0 (f <$> seq k n) +
  match o with Some j => if decide (k ≤ j < k + n)%nat then 1 else 0 | None => 0 end.
Proof.
  revert k. induction n as [|n IH]; intros k; csimpl.
  - destruct o; [rewrite decide_False by lia|]; lia.
  - rewrite IH. destruct o as [j|]; [|rewrite decide_False by done; lia].
    destruct (decide (j = k)) as [->|Hjk].
    + rewrite decide_True by done. rewrite decide_False, decide_True by lia. lia.
    + rewrite (decide_False (P := Some j = Some k)) by congruence.
      destruct (decide (S k ≤ j < S k + n)%nat); [rewrite decide_True by lia|rewrite decide_False by lia]; lia.
Qed.

(** The running sums of the buckets count the observations up to each bound. *)
Lemma cumulative_exact b ds i x :
  ascending b → b !! i = Some x →
  foldr Z.add 0 (in_bucket b ds <$> seq 0 (S i)) =
  Z.of_nat (length (filter (λ d, f_le (Seconds d) x = true) ds)).
Proof.
  intros Hb Hi. induction ds as [|d ds IH] using rev_ind.
  - induction (seq 0 (S i)) as [|k l IHl]; csimpl; [done|]. rewrite IHl. done.
  - rewrite filter_app, length_app, Nat2Z.inj_add, <- IH.
    rewrite (list_fmap_ext _ (λ j, in_bucket b ds j + (if decide (bucket_of b d = Some j) then 1 else 0)))
      by (intros; apply in_bucket_snoc).
    rewrite sum_bump. f_equal. pose proof (bucket_le b d i x Hb Hi) as Hd.
    destruct (decide (f_le (Seconds d) x = true)) as [E|E].
    + rewrite filter_cons_True by done. apply Hd in E as (j & -> & Hj). by rewrite decide_True by lia.
    + rewrite filter_cons_False by done. destruct (bucket_of b d) as [j|]; [|done].
      rewrite decide_False; [done|]. intros Hj. apply E, Hd. exists j. split; [done|lia].
Qed.


(** ** Concrete runs *)

Definition idle_view (p : nat) : pc_view := mkView "connected" "connected" ∅.


(** The bounds of the negotiation histogram ascend. *)
Lemma negotiation_bounds_ascend : ascending negotiation_bounds.
Proof.
  assert (H : forallb (λ i, forallb (λ j, negb (i <? j)%nat ||
    match negotiation_bounds !! i, negotiation_bounds !! j with Some x, Some y => f_lt x y | _, _ => true end)
    (seq 0 9)) (seq 0 9) = true) by (vm_compute; reflexivity).
  rewrite forallb_forall in H. intros i j x y Hij Hi Hj.
  assert (Hb : ∀ k z, negotiation_bounds !! k = Some z → In k (seq 0 9)).
  { intros k z Hk. apply lookup_lt_Some in Hk. apply in_seq. simpl in Hk. lia. }
  specialize (H i (Hb i x Hi)). rewrite forallb_forall in H. specialize (H j (Hb j y Hj)).
  rewrite Hi, Hj in H. apply orb_true_iff in H as [H|H]; [|done].
  apply negb_true_iff, Nat.ltb_ge in H. lia.
Qed.
