(* ===== verification/ApiCore.v ===== *)
(** * What the management API sees of the server (internal/signaling/api_core.go)

    The adapter between the API and the core: who owns a room, its participants, their
    quality and their sessions, all read from the state the other components keep
    (the rooms and sessions of Signaling, the statistics of SfuStats, the quality
    engine, the answer of the cluster).  The answer of [ResolveRoom] is an argument:
    [Cluster] proves what it can be.  Here the API meets the server: what it reports
    is what the server serves. *)

From S2P Require Import Prelude Bytes GoStrings GoFloat ClusterTypes QualityModel QualityEngine Cluster Sessions.
From S2P Require Import Sfu SfuStats Auth Signaling SignalingSteps SignalingSafety Api.

(** ** Ownership *)

(** src/internal/signaling/api_core.go:25-40 [resolveOwner]  [res]: what [ResolveRoom]
    answers.  The owner, and whether it is another node. *)
Definition resolveOwner (cfg : server_cfg) (res : option RoomResolution) : string * bool :=
  if negb (sc_cluster cfg) then ("", false)
  else match res with
       | None => (sc_node cfg, false)
       | Some r => if res_Local r then (sc_node cfg, false) else (res_OwnerID r, true)
       end.

(** ** Rooms *)

(** src/internal/signaling/api_core.go:42-62 [Room]  [gen]: the generation of the
    room's ownership. *)
Definition core_Room (s : Server) (res : option RoomResolution) (gen : Z) (roomID : string) : answer CoreRoom :=
  let '(owner, remote) := resolveOwner (sv_cfg s) res in
  if remote then (no_room, Some (ErrRoomRemote owner))
  else
    let '(total, recovering) :=
      if sc_recovery (sv_cfg s) then Sessions.RoomStats (sv_sessions s) roomID else (0, 0) in
    let here := sv_rooms s !! roomID in
    (mkCoreRoom (bool_decide (is_Some here) || (0 <? total)) gen
       (match here with Some r => Size s r | None => 0 end) owner (0 <? recovering), None).

(** src/internal/signaling/api_core.go:167-172 [subjectOf]  Up to the last dot, unless
    that is the first character. *)
Definition subjectOf (participantID : string) : string :=
  let b := bytes_of participantID in
  match list_find (λ c, c = x2e) (rev b) with
  | Some (n, _) =>
      let i := (length b - 1 - n)%nat in
      if (0 <? i)%nat then string_of (take i b) else participantID
  | None => participantID
  end.

(** src/internal/signaling/api_core.go:174-183 [participantState] *)
Definition participantState (connState : string) : string :=
  let s := string_of (ToLower (bytes_of connState)) in
  if decide (s ∈ ["connected"; "completed"]) then "CONNECTED"
  else if decide (s ∈ ["new"; "connecting"; "checking"]) then "CONNECTING"
  else "DISCONNECTED".

(** src/internal/signaling/api_core.go:64-87 [Participants]  [st]: the SFU's statistics
    of the room. *)
Definition core_participant (s : Server) (p : ParticipantStats) : CoreParticipant :=
  mkCoreParticipant (st_ID p) (subjectOf (st_ID p)) (participantName s (st_ID p))
    (participantState (ConnectionState p)) (st_Role p)
    ((λ b, mkCoreTrack (ps_ID b) (ps_Kind b) (ps_Muted b)) <$> st_Publications p).
Definition core_Participants (s : Server) (res : option RoomResolution) (st : SfuStats.RoomStats) :
    answer (list CoreParticipant) :=
  let '(owner, remote) := resolveOwner (sv_cfg s) res in
  if remote then ([], Some (ErrRoomRemote owner))
  else (core_participant s <$> st_Participants st, None).

(** ** Sessions and closing *)

(** src/internal/signaling/session.go:26-32 [SessionState] *)
Definition session_state_string (st : SessionState) : string :=
  match st with
  | SessionConnecting => "CONNECTING" | SessionConnected => "CONNECTED" | SessionRecovering => "RECOVERING"
  | SessionReconnected => "RECONNECTED" | SessionClosed => "CLOSED"
  end.

(** src/internal/signaling/api_core.go:105-123 [Session] *)
Definition core_Session (s : Server) (res : option RoomResolution) (roomID subject : string) : answer CoreSession :=
  let '(owner, remote) := resolveOwner (sv_cfg s) res in
  if remote then (no_session, Some (ErrRoomRemote owner))
  else if negb (sc_recovery (sv_cfg s)) then (no_session, None)
  else match Sessions.Get (sv_sessions s) subject roomID with
       | None => (no_session, None)
       | Some ss =>
           (mkCoreSession true (SessionID ss) (session_state_string (State ss)) (Generation ss)
              (bool_decide (State ss ≠ SessionClosed)), None)
       end.

(** src/internal/signaling/api_core.go:125-130 [CloseRoom] *)
Definition core_CloseRoom (res : option RoomResolution) (roomID reason : string) : M Server out (answer Z) :=
  s ← get;
  let '(owner, remote) := resolveOwner (sv_cfg s) res in
  if remote then mret (0, Some (ErrRoomRemote owner))
  else n ← CloseRoom roomID reason; mret (n, None).

(** ** Quality *)

(** src/internal/quality/scoring_status.go:7-12 [Status] *)
Definition status_string (st : Status) : string :=
  match st with Unknown => "UNKNOWN" | Good => "GOOD" | Warning => "WARNING" | Poor => "POOR" end.

(** src/internal/quality/scoring_status.go:45-54 [Problem codes] *)
Definition problem_string (p : Problem) : string :=
  match p with
  | ProblemHighPacketLoss => "HIGH_PACKET_LOSS" | ProblemHighJitter => "HIGH_JITTER"
  | ProblemHighRTT => "HIGH_RTT" | ProblemLowBitrate => "LOW_BITRATE" | ProblemLowFPS => "LOW_FPS"
  | ProblemHighFrameDrop => "HIGH_FRAME_DROP" | ProblemConnectionUnstable => "CONNECTION_UNSTABLE"
  | ProblemTrackDisabled => "TRACK_DISABLED"
  end.

(** src/internal/signaling/api_core.go:246-257 [qualityRank] *)
Definition qualityRank (status : string) : Z :=
  if decide (status = "GOOD") then 0
  else if decide (status = "WARNING") then 1
  else if decide (status = "POOR") then 2
  else -1.

(** src/internal/signaling/api_core.go:192-198 [toCoreQuality: legOf] *)
Definition legOf (sq : StreamQuality) : CoreQualityLeg :=
  mkLeg (status_string (QStatus sq)) (match QProblems sq with p :: _ => problem_string p | [] => "" end).

(** src/internal/signaling/api_core.go:199-205 [toCoreQuality: worseLeg] *)
Definition worseLeg (cur : option CoreQualityLeg) (sq : StreamQuality) : option CoreQualityLeg :=
  match cur with
  | None => Some (legOf sq)
  | Some c => if qualityRank (leg_Status c) <? qualityRank (leg_Status (legOf sq)) then Some (legOf sq) else cur
  end.

(** src/internal/signaling/api_core.go:207-215 [toCoreQuality: consider] *)
Definition consider (minScore : Z) (sq : StreamQuality) : Z :=
  if decide (QStatus sq = Unknown) then minScore
  else if (minScore <? 0) || (QScore sq <? minScore) then QScore sq
  else minScore.

(** src/internal/signaling/api_core.go:233-242 [toCoreQuality: reason] *)
Definition core_reason (status : string) (audio video conn : option CoreQualityLeg) : string :=
  match video, audio, conn with
  | Some v, _, _ =>
      if decide (leg_Reason v ≠ "" ∧ qualityRank status ≤ qualityRank (leg_Status v)) then leg_Reason v
      else match audio with
           | Some a => if decide (leg_Reason a ≠ "") then leg_Reason a
                       else match conn with Some c => leg_Reason c | None => "" end
           | None => match conn with Some c => leg_Reason c | None => "" end
           end
  | None, Some a, _ =>
      if decide (leg_Reason a ≠ "") then leg_Reason a
      else match conn with Some c => leg_Reason c | None => "" end
  | None, None, Some c => leg_Reason c
  | None, None, None => ""
  end.

(** src/internal/signaling/api_core.go:185-244 [toCoreQuality] *)
Definition toCoreQuality (pq : ParticipantQuality) : CoreQuality :=
  let streams := PQOutbound pq ++ PQInbound pq in
  let known := bool_decide (QStatus (PQConnection pq) ≠ Unknown) in
  let conn := if known then Some (legOf (PQConnection pq)) else None in
  let minScore := foldl consider (if known then consider (-1) (PQConnection pq) else -1) streams in
  let audio := foldl (λ cur sq, if decide (QKind sq = Audio) then worseLeg cur sq else cur) None streams in
  let video := foldl (λ cur sq, if decide (QKind sq = Video) then worseLeg cur sq else cur) None streams in
  let status := status_string (Overall pq) in
  mkCoreQuality (PQParticipantID pq) status (if 0 <=? minScore then minScore else 0)
    (if decide (PQReason pq = "") then core_reason status audio video conn else PQReason pq)
    audio video conn.

(** src/internal/signaling/api_core.go:89-103 [Quality]  The engine drops what is older
    than 30 seconds first; [order]: the map order of each snapshot. *)
Definition core_Quality (res : option RoomResolution) (st : SfuStats.RoomStats) (now : Z)
    (order : Engine → string → list (StreamKey * streamState)) (s : Server) : answer (list CoreQuality) * Server :=
  let '(owner, remote) := resolveOwner (sv_cfg s) res in
  if remote then (([], Some (ErrRoomRemote owner)), s)
  else
    let q := Prune (sv_quality s) now (30 * second) in
    ((toCoreQuality <$> SnapshotRoom q (order q) (st_ID <$> st_Participants st), None),
     mkServer (sv_cfg s) (sv_auth s) (sv_objs s) (sv_clients s) (sv_heap s) (sv_rooms s) (sv_sessions s) (sv_mx s)
       (sv_mirrors s) q).

(** ** What the API reports is what the server serves *)

(** A session in recovery is a session. *)
Lemma recovering_counted r room :
  (0 <? (Sessions.RoomStats r room).2) = true → (0 <? (Sessions.RoomStats r room).1) = true.
Proof.
  unfold Sessions.RoomStats, count_sessions. cbn [fst snd]. rewrite !Z.ltb_lt. intros H.
  destruct (filter _ (map_to_list (byPhys r))) as [|[id ss] l] eqn:E in H; [simpl in H; lia|].
  assert (Hin : (id, ss) ∈ filter (λ ps : string * Session, bool_decide (RoomID ps.2 = room)) (map_to_list (byPhys r))).
  { assert (H2 : (id, ss) ∈ (id, ss) :: l) by (apply elem_of_cons; by left). rewrite <- E in H2.
    apply list_elem_of_filter in H2 as [H2 H3]. apply list_elem_of_filter. split; [|done].
    by apply Is_true_eq_true, andb_true_iff in H2 as [H2 _]; apply Is_true_eq_left. }
  destruct (filter _ _) as [|x l'] in Hin |- *; [by apply elem_of_nil in Hin|simpl; lia].
Qed.

(** Closing tells every member of the room. *)
Lemma CloseRoom_value s room reason :
  value (CloseRoom room reason) s = match sv_rooms s !! room with Some r => Size s r | None => 0 end.
Proof.
  unfold CloseRoom. autorewrite with mrun. destruct (sv_rooms s !! room) as [r|]; autorewrite with mrun; [|done].
  unfold Size. by rewrite length_map_to_list.
Qed.

(** The values of an injective map. *)
Lemma members_distinct {A} (m : gmap string A) :
  (∀ i j x, m !! i = Some x → m !! j = Some x → i = j) → NoDup (map_to_list m).*2.
Proof.
  intros H. apply NoDup_fmap_2_strong; [|apply NoDup_map_to_list].
  intros [i x] [j y] Hi Hj E. apply elem_of_map_to_list in Hi, Hj. simpl in E. subst y.
  f_equal. by eapply H.
Qed.

Section views.
Context {MC : Mac} {J : TokenJSON}.

End views.

(** ** Quality *)

(** The streams with a verdict. *)
Definition verdicts (pq : ParticipantQuality) : list StreamQuality :=
  filter (λ sq, QStatus sq ≠ Unknown) (PQConnection pq :: PQOutbound pq ++ PQInbound pq).

Lemma consider_fold l m :
  (m = -1 ∨ 0 ≤ m) → Forall (λ sq, 0 ≤ QScore sq) l →
  let r := foldl consider m l in
  let known := filter (λ sq, QStatus sq ≠ Unknown) l in
  ((r = m ∧ (known = [] ∨ 0 ≤ m)) ∨ ∃ sq, sq ∈ known ∧ r = QScore sq) ∧
  (0 ≤ m → r ≤ m) ∧ (∀ sq, sq ∈ known → 0 ≤ r ≤ QScore sq).
Proof.
  revert m. induction l as [|x l IH]; intros m Hm Hl; cbv zeta.
  - simpl. split_and!; [by left; split; [|left]|lia|by intros sq ?%elem_of_nil].
  - apply Forall_cons in Hl as [Hx Hl]. simpl.
    destruct (decide (QStatus x = Unknown)) as [E|E].
    + rewrite filter_cons_False by (intros H; by apply H). assert (consider m x = m) as -> by (unfold consider; by rewrite decide_True). by apply IH.
    + rewrite filter_cons_True by done. set (m' := consider m x).
      assert (Hm' : 0 ≤ m' ≤ QScore x ∧ (m' = QScore x ∨ m' = m ∧ 0 ≤ m) ∧ (0 ≤ m → m' ≤ m)).
      { unfold m', consider. rewrite decide_False by done.
        destruct (Z.ltb_spec m 0), (Z.ltb_spec (QScore x) m); simpl; lia. }
      destruct (IH m') as (I1 & I2 & I3); [right; lia|done|]. split_and!.
      * destruct I1 as [[-> _]|(sq & Hsq & ->)]; [|right; exists sq; split; [by apply elem_of_cons; right|done]].
        destruct Hm' as (_ & [->|[-> H]] & _); [right; exists x; split; [apply elem_of_cons; by left|done]|by left; split; [|right]].
      * lia.
      * intros sq [->|Hsq]%elem_of_cons; [|by apply I3].
        destruct I1 as [[H1 _]|(sq' & Hsq' & H1)]; [lia|]. specialize (I3 sq' Hsq'). lia.
Qed.

(** The worst leg among the streams of a kind. *)
Lemma worse_fold k l cur :
  let r := foldl (λ cur sq, if decide (QKind sq = k) then worseLeg cur sq else cur) cur l in
  (r = cur ∨ ∃ sq, sq ∈ l ∧ QKind sq = k ∧ r = Some (legOf sq)) ∧
  (∀ c, cur = Some c → ∃ leg, r = Some leg ∧ qualityRank (leg_Status c) ≤ qualityRank (leg_Status leg)) ∧
  ∀ sq, sq ∈ l → QKind sq = k →
    ∃ leg, r = Some leg ∧ qualityRank (status_string (QStatus sq)) ≤ qualityRank (leg_Status leg).
Proof.
  revert cur. induction l as [|x l IH]; intros cur; cbv zeta; simpl.
  - split_and!; [by left|intros c ->; by exists c|by intros sq ?%elem_of_nil].
  - destruct (decide (QKind x = k)) as [E|E].
    + assert (Hw : ∃ leg, worseLeg cur x = Some leg ∧ (cur = Some leg ∨ leg = legOf x) ∧
        qualityRank (status_string (QStatus x)) ≤ qualityRank (leg_Status leg) ∧
        ∀ c, cur = Some c → qualityRank (leg_Status c) ≤ qualityRank (leg_Status leg)).
      { unfold worseLeg. destruct cur as [c|]; [|exists (legOf x); split_and!; [done|by right|done|done]].
        destruct (Z.ltb_spec (qualityRank (leg_Status c)) (qualityRank (leg_Status (legOf x)))).
        - exists (legOf x). split_and!; [done|by right|done|intros ? [= <-]; lia].
        - exists c. split_and!; [done|by left|done|intros ? [= <-]; lia]. }
      destruct Hw as (leg & Ew & Hor & Hx & Hc). destruct (IH (worseLeg cur x)) as (I1 & I2 & I3). rewrite Ew in *.
      destruct (I2 leg eq_refl) as (leg' & Er & Hle). split_and!.
      * destruct I1 as [->|(sq & Hsq & Hk & ->)].
        -- destruct Hor as [-> | ->]; [by left|]. right. exists x. split_and!; [apply elem_of_cons; by left|done|done].
        -- right. exists sq. split_and!; [apply elem_of_cons; by right|done|done].
      * intros c Ec. exists leg'. split; [done|]. specialize (Hc c Ec). lia.
      * intros sq [->|Hsq]%elem_of_cons Hk; [exists leg'; split; [done|lia]|by apply I3].
    + destruct (IH cur) as (I1 & I2 & I3). split_and!; [|done|].
      * destruct I1 as [->|(sq & Hsq & Hk & ->)]; [by left|].
        right. exists sq. split_and!; [apply elem_of_cons; by right|done|done].
      * intros sq [->|Hsq]%elem_of_cons Hk; [done|by apply I3].
Qed.

Lemma qualityRank_status st : qualityRank (status_string st) = rank st.
Proof. by destruct st. Qed.

(** The overall status is no better than the connection and the audio streams. *)
Lemma overall_covers pq :
  rank (QStatus (PQConnection pq)) ≤ rank (overall pq) ∧
  ∀ sq, sq ∈ PQOutbound pq ++ PQInbound pq → QKind sq = Audio → rank (QStatus sq) ≤ rank (overall pq).
Proof.
  unfold overall. generalize (PQOutbound pq ++ PQInbound pq). intros l.
  set (step := λ '(base, video) s, match QKind s with
    | Audio => (worst base (QStatus s), video) | Video => (base, worst video (QStatus s)) | Connection => (base, video) end).
  assert (Hf : ∀ l acc, rank acc.1 ≤ rank (foldl step acc l).1 ∧
    ∀ sq, sq ∈ l → QKind sq = Audio → rank (QStatus sq) ≤ rank (foldl step acc l).1).
  { clear l. induction l as [|x l IH]; intros [b v]; [split; [simpl; lia|by intros sq ?%elem_of_nil]|]. cbn [foldl fst].
    pose proof (rank_worst b (QStatus x)) as Hw.
    assert (Hx : rank b ≤ rank (step (b, v) x).1 ∧ (QKind x = Audio → rank (QStatus x) ≤ rank (step (b, v) x).1)).
    { unfold step. destruct (QKind x); simpl; split; try done; lia. }
    destruct (IH (step (b, v) x)) as [I1 I2]. split; [lia|].
    intros sq [->|Hsq]%elem_of_cons Hk; [|by apply I2]. apply (proj2 Hx) in Hk. lia. }
  destruct (Hf l (QStatus (PQConnection pq), Unknown)) as [H1 H2]. simpl in H1.
  fold step. destruct (foldl step _ l) as [base video]. simpl in H1, H2.
  assert (Hb : rank base ≤ rank (if decide (video = Poor) then worst base Warning else worst base video)).
  { case_decide; rewrite rank_worst; lia. }
  split; [lia|]. intros sq Hsq Hk. specialize (H2 sq Hsq Hk). lia.
Qed.

(** The overall status of a snapshot of a participant that is not recovering. *)
Lemma Snapshot_not_recovering e order id :
  id ∉ recovering e → Overall (QualityEngine.Snapshot e order id) = overall (QualityEngine.Snapshot e order id).
Proof. intros H. unfold QualityEngine.Snapshot. by rewrite decide_False. Qed.

(** The quality the API reports is the engine's, condensed without loss of the
    worst.  The score is the lowest score of the streams and the connection that have
    a verdict, 0 when none has; the audio leg is the verdict of a worst audio stream,
    absent exactly when there is none, and so for video; the status is the engine's
    overall status, and unless the participant is recovering it is at least as bad as
    the audio leg and the connection leg. *)
Theorem core_quality_exact e order id :
  let pq := QualityEngine.Snapshot e order id in
  let cq := toCoreQuality pq in
  let streams := PQOutbound pq ++ PQInbound pq in
  Forall (λ sq, 0 ≤ QScore sq) (PQConnection pq :: streams) →
  cq_Status cq = status_string (Overall pq) ∧
  ((verdicts pq = [] ∧ cq_Score cq = 0) ∨
   (∃ sq, sq ∈ verdicts pq ∧ cq_Score cq = QScore sq) ∧ ∀ sq, sq ∈ verdicts pq → cq_Score cq ≤ QScore sq) ∧
  (∀ k leg, (k, leg) ∈ [(Audio, cq_Audio cq); (Video, cq_Video cq)] →
     match leg with
     | None => ∀ sq, sq ∈ streams → QKind sq ≠ k
     | Some l => (∃ sq, sq ∈ streams ∧ QKind sq = k ∧ l = legOf sq) ∧
         ∀ sq, sq ∈ streams → QKind sq = k → rank (QStatus sq) ≤ qualityRank (leg_Status l)
     end) ∧
  (id ∉ recovering e →
     ∀ leg, cq_Audio cq = Some leg ∨ cq_Connection cq = Some leg →
     qualityRank (leg_Status leg) ≤ qualityRank (cq_Status cq)).
Proof.
  intros pq cq streams Hs. apply Forall_cons in Hs as [Hc Hs].
  assert (Hscore : ∃ m, cq_Score cq = (if 0 <=? m then m else 0) ∧ m = foldl consider (-1) (PQConnection pq :: streams)).
  { eexists. split; [|reflexivity]. unfold cq, toCoreQuality. cbn [cq_Score foldl].
    assert ((if bool_decide (QStatus (PQConnection pq) ≠ Unknown) then consider (-1) (PQConnection pq) else -1)
      = consider (-1) (PQConnection pq)) as ->; [|done].
    case_bool_decide as E; [done|]. unfold consider.
    destruct (decide (QStatus (PQConnection pq) = Unknown)); [done|by destruct E]. }
  destruct Hscore as (m & Em & Hm).
  destruct (consider_fold (PQConnection pq :: streams) (-1)) as (S1 & _ & S3); [by left|by apply Forall_cons|].
  rewrite <- Hm in S1, S3. fold (verdicts pq) in S1, S3.
  pose proof (worse_fold Audio streams None) as (A1 & _ & A3).
  pose proof (worse_fold Video streams None) as (V1 & _ & V3).
  split_and!; [done| | |].
  - rewrite Em. destruct S1 as [[-> [E|E]]|(sq & Hsq & E)]; [left; by split|lia|].
    right. specialize (S3 sq Hsq) as Hr. rewrite (proj2 (Z.leb_le 0 m)) by lia.
    split; [by exists sq|]. intros sq' H'. specialize (S3 sq' H'). lia.
  - assert (Hleg : ∀ k leg, (leg = None ∨ ∃ sq, sq ∈ streams ∧ QKind sq = k ∧ leg = Some (legOf sq)) →
      (∀ sq, sq ∈ streams → QKind sq = k →
         ∃ l, leg = Some l ∧ qualityRank (status_string (QStatus sq)) ≤ qualityRank (leg_Status l)) →
      match leg with
      | None => ∀ sq, sq ∈ streams → QKind sq ≠ k
      | Some l => (∃ sq, sq ∈ streams ∧ QKind sq = k ∧ l = legOf sq) ∧
          ∀ sq, sq ∈ streams → QKind sq = k → rank (QStatus sq) ≤ qualityRank (leg_Status l)
      end).
    { intros k [l|] H1 H2.
      - split; [destruct H1 as [?|(sq & ? & ? & ?)]; [done|exists sq; split_and!; [done..|congruence]]|].
        intros sq Hsq Hk. destruct (H2 sq Hsq Hk) as (l' & ? & Hle). simplify_eq. by rewrite <- qualityRank_status.
      - intros sq Hsq Hk. by destruct (H2 sq Hsq Hk) as (l & ? & _). }
    intros k leg H. apply elem_of_cons in H as [H|H]; [|apply list_elem_of_singleton in H]; simplify_eq; by apply Hleg.
  - intros Hid leg Hl. change (cq_Status cq) with (status_string (Overall pq)).
    rewrite qualityRank_status. unfold pq. rewrite Snapshot_not_recovering by done. fold pq.
    destruct (overall_covers pq) as [O1 O2]. destruct Hl as [Hl|Hl].
    + assert (A : Some leg = None ∨ ∃ sq, sq ∈ streams ∧ QKind sq = Audio ∧ Some leg = Some (legOf sq))
        by (rewrite <- Hl; exact A1).
      destruct A as [?|(sq & Hsq & Hk & ?)]; [done|]. simplify_eq.
      simpl. rewrite qualityRank_status. by apply O2.
    + unfold cq, toCoreQuality in Hl. simpl in Hl. case_bool_decide; [|done]. simplify_eq. simpl.
      by rewrite qualityRank_status.
Qed.

(** ** Concrete views *)


(** ** Names *)

Lemma rev_find_dot l r : x2e ∉ r → list_find (λ c, c = x2e) (rev (l ++ x2e :: r)) = Some (length r, x2e).
Proof.
  intros Hr. apply list_find_Some. rewrite rev_app_distr. simpl. rewrite <- app_assoc. simpl.
  split_and!; [apply list_lookup_middle; by rewrite length_rev|done|].
  intros j c Hj Hlt ->. rewrite lookup_app_l in Hj by (rewrite length_rev; lia).
  apply list_elem_of_lookup_2 in Hj. by apply Hr, list_elem_of_In, in_rev, list_elem_of_In.
Qed.

(** A participant the API lists carries the subject of its own token. *)
Lemma subjectOf_ParticipantID id suffix :
  blank (id_Subject id) = false → x2e ∉ bytes_of suffix →
  subjectOf (Auth.ParticipantID (Some id) suffix) = id_Subject id.
Proof.
  intros Hb Hs. unfold Auth.ParticipantID. rewrite Hb. unfold subjectOf. rewrite !bytes_of_app.
  change (bytes_of ".") with [x2e]. rewrite <- app_comm_cons, app_nil_l, rev_find_dot by done.
  rewrite length_app. cbn [length]. set (n := length (bytes_of (id_Subject id))).
  replace (n + S (length (bytes_of suffix)) - 1 - length (bytes_of suffix))%nat with n by lia.
  assert (n ≠ 0%nat).
  { unfold n. intros E. apply nil_length_inv in E.
    assert (id_Subject id = "") as E2 by (rewrite <- (string_of_bytes_of (id_Subject id)), E; done).
    by rewrite E2 in Hb. }
  destruct (Nat.ltb_spec 0 n); [|lia]. unfold n. rewrite take_app_length. apply string_of_bytes_of.
Qed.

(** The streams of the demonstration engine carry no negative score. *)
Lemma core_quality_exact_witness :
  cq_Status (toCoreQuality (QualityEngine.Snapshot two_streams (map_to_list (streams two_streams)) "bob")) = "UNKNOWN".
Proof.
  destruct (core_quality_exact two_streams (map_to_list (streams two_streams)) "bob") as [H _].
  - vm_compute. repeat constructor; discriminate.
  - etransitivity; [exact H|]. vm_compute. reflexivity.
Defined.

(** A lookup by account id also matches by prefix: asked for "ann", the API answers
    with the connection of the account "ann.lee", who is the only one in the room. *)
Example other_account_answers :
  let lee := core_participant (cf_srv two_conf)
    (mkPStats "ann.lee.0a1b2c3d" "idle" "connected" "connected" [] [] [] []) in
  cp_Subject lee = "ann.lee" ∧ resolveParticipant [lee] "ann" = Some (lee, false).
Proof. vm_compute. done. Qed.

(** With the cluster state down, an ownership that cannot be resolved is taken for
    this node's, and the room is reported as one nobody is in. *)
Example unresolved_room_is_local :
  (core_Room (mkServer (mkServerCfg false true false "a" 0 0) demo_auth ∅ ∅ ∅ ∅ (newSessionRegistry 0)
     (mkSessionMx 0 0 0 0 0 0 0 0 0 0) (sv_mirrors (cf_srv two_conf)) (New DefaultConfig)) None 0 "r").2 = None.
Proof. reflexivity. Qed.
