(* ===== verification/Config.v ===== *)
(** * Configuration from the environment

    How every package reads its settings (internal/cluster/node.go,
    internal/auth/config.go, internal/api/config.go, internal/sfu/config.go, the
    recovery settings of internal/signaling/session.go, cmd/server/config.go) and what
    the constructors make of them.  The environment is a function from names to
    values, the empty string for a variable that is not set, as [os.Getenv] has it;
    [strconv.ParseFloat] is an argument, as is whether a directory can be read. *)

From S2P Require Import Prelude Bytes GoStrings GoFloat GoParse Auth Api ClusterTypes.

(** ** Reading a variable *)

Definition trim (s : string) : string := string_of (TrimSpace (bytes_of s)).

Section env.
Context (env : string → string) (ParseFloat : string → option float64).

(** src/internal/auth/config.go:74-79 [envString] *)
Definition envString (key fallback : string) : string :=
  let v := trim (env key) in if decide (v = "") then fallback else v.

(** src/internal/cluster/node.go:314-321 [envBool] *)
Definition envBool (key : string) (fallback : bool) : bool :=
  let v := trim (env key) in
  if decide (v = "") then fallback else default fallback (ParseBool v).

(** src/internal/cluster/node.go:283-290 [envInt] *)
Definition envInt (key : string) (fallback : Z) : Z :=
  let v := trim (env key) in
  if decide (v = "") then fallback
  else match Atoi (bytes_of v) with (n, None) => n | (_, Some _) => fallback end.

(** src/internal/cluster/node.go:323-330 [envDuration] *)
Definition envDuration (key : string) (fallback : Z) : Z :=
  let v := trim (env key) in
  if decide (v = "") then fallback else default fallback (ParseDuration (bytes_of v)).

(** src/internal/cluster/node.go:260-267 [envFloat] *)
Definition envFloat (key : string) (fallback : float64) : float64 :=
  let v := trim (env key) in
  if decide (v = "") then fallback else default fallback (ParseFloat v).

(** src/internal/sfu/config.go:75-84 [splitCSV]  The trimmed, non-empty parts. *)
Definition splitCSV (v : string) : list string :=
  filter (λ p, p ≠ "") ((λ p, string_of (TrimSpace p)) <$> split_on x2c (bytes_of v)).

(** src/internal/auth/config.go:108-123 [envList] *)
Definition envList (key : string) (fallback : list string) : list string :=
  let v := trim (env key) in
  if decide (v = "") then fallback
  else match splitCSV v with [] => fallback | out => out end.

(** ** The cluster *)

(** src/internal/cluster/node.go:199-207 [FromEnv: port]  The error of the first
    conversion is ignored, so a value out of range is the largest integer. *)
Definition port_from_env : Z :=
  let p1 := (Atoi (bytes_of (trim (env "PULSERTC_NODE_PORT")))).1 in
  let p2 :=
    if p1 =? 0
    then match Atoi (bytes_of (trim (env "PORT"))) with (p, None) => p | _ => p1 end
    else p1 in
  if p2 =? 0 then 8090 else p2.

(** src/internal/cluster/node.go:214-219 [FromEnv: peers] *)
Definition peers_from_env : list string :=
  (λ p, string_of (TrimRight x2f (bytes_of p))) <$> splitCSV (env "PULSERTC_CLUSTER_PEERS").

(** src/internal/cluster/node.go:269-281 [mediaFromEnv] *)
Definition mediaFromEnv : MediaConfig :=
  mkMediaConfig (envBool "PULSERTC_MEDIA_ENABLED" false) (trim (env "PULSERTC_MEDIA_BIND_ADDR"))
    (envInt "PULSERTC_MEDIA_PORT" 10000) (trim (env "PULSERTC_MEDIA_ADVERTISE_HOST"))
    (envDuration "PULSERTC_MEDIA_REQUEST_TIMEOUT" (2 * second)) (envInt "PULSERTC_MEDIA_MAX_PACKET_SIZE" 1500)
    (envDuration "PULSERTC_MEDIA_SESSION_TIMEOUT" (10 * second))
    (envDuration "PULSERTC_MEDIA_HEARTBEAT_INTERVAL" (2 * second)) (envInt "PULSERTC_MEDIA_SEND_QUEUE" 1024).

(** src/internal/cluster/node.go:292-312 [redisFromEnv]  The settings the stores read;
    the others go to the client library: address, password, database, prefix and
    pool size. *)
Definition redisFromEnv : RedisConfig * (string * string * Z * string * Z) :=
  let addr := trim (env "PULSERTC_REDIS_ADDR") in
  (mkRedis (envBool "PULSERTC_REDIS_ENABLED" false) (envBool "PULSERTC_REDIS_REQUIRED" true)
     (envDuration "PULSERTC_REDIS_TIMEOUT" (3 * second)) (envDuration "PULSERTC_REDIS_NODE_TTL" (15 * second))
     (envDuration "PULSERTC_REDIS_PARTICIPANT_TTL" (60 * second)) (envDuration "PULSERTC_REDIS_ROOM_TTL" 0),
   (if decide (addr = "") then "redis:6379" else addr, env "PULSERTC_REDIS_PASSWORD",
    (Atoi (bytes_of (trim (env "PULSERTC_REDIS_DB")))).1, trim (env "PULSERTC_REDIS_PREFIX"),
    (Atoi (bytes_of (trim (env "PULSERTC_REDIS_POOL_SIZE")))).1)).

(** src/internal/cluster/node.go:168-173 [prefix] *)
Definition redis_prefix (p : string) : string :=
  if decide (trim p = "") then "pulsertc" else string_of (TrimRight x3a (TrimSpace (bytes_of p))).

(** src/internal/cluster/node.go:161-166 [bindAddr] *)
Definition bindAddr (m : MediaConfig) : string := if decide (trim (BindAddr m) = "") then "0.0.0.0" else BindAddr m.

(** src/internal/cluster/node.go:198-258 [FromEnv]  [fresh]: the id minted when none is
    configured. *)
Definition cluster_FromEnv (fresh : string) : Config * MediaConfig :=
  let nodeID := trim (env "PULSERTC_NODE_ID") in
  let version := trim (env "PULSERTC_VERSION") in
  (mkConfig (envBool "PULSERTC_CLUSTER_ENABLED" false)
     (if decide (nodeID = "") then "node-" +:+ fresh else nodeID)
     (trim (env "PULSERTC_NODE_HOST")) port_from_env (if decide (version = "") then "dev" else version)
     (trim (env "PULSERTC_CLUSTER_SECRET")) peers_from_env
     (envDuration "PULSERTC_CLUSTER_HEARTBEAT" (5 * second))
     (envDuration "PULSERTC_CLUSTER_STALE_AFTER" (envDuration "PULSERTC_NODE_TTL" (15 * second)))
     (envDuration "PULSERTC_CLUSTER_REQUEST_TIMEOUT" (2 * second))
     (envInt "PULSERTC_CLUSTER_MAX_MESSAGE_SIZE" 65536)
     (envDuration "PULSERTC_CLUSTER_MESSAGE_MAX_AGE" (30 * second))
     (envInt "PULSERTC_CLUSTER_MAX_RETRIES" 2)
     (envDuration "PULSERTC_LOAD_REPORT_INTERVAL" (2 * second))
     (mkCapacity (envInt "PULSERTC_NODE_MAX_ROOMS" 0) (envInt "PULSERTC_NODE_MAX_PARTICIPANTS" 0)
        (envInt "PULSERTC_NODE_MAX_PUBLICATIONS" 0)
        (envFloat "PULSERTC_NODE_SOFT_LIMIT" (f_div (f_of_Z 8) (f_of_Z 10)))
        (envFloat "PULSERTC_NODE_HARD_LIMIT" (f_of_Z 1)))
     (envDuration "PULSERTC_FAILURE_CHECK_INTERVAL" (5 * second))
     (envDuration "PULSERTC_FAILURE_GRACE_PERIOD" (5 * second))
     (envInt "PULSERTC_RECOVERY_CONCURRENCY" 4)
     (negb (envBool "PULSERTC_RECOVERY_ENABLED" true))
     redisFromEnv.1,
   mediaFromEnv).

(** src/internal/cluster/cluster.go:114-137 [NewWithState: defaults]  [None]: refused,
    an enabled cluster without a secret. *)
Definition with_defaults (c : Config) (fresh : string) : option Config :=
  if Enabled c && bool_decide (Secret c = "") then None
  else Some
    (mkConfig (Enabled c) (if decide (trim (cfg_NodeID c) = "") then "node-" +:+ fresh else cfg_NodeID c) (cfg_Host c)
       (cfg_Port c) (cfg_Version c) (Secret c) (Peers c)
       (if HeartbeatInterval c =? 0 then 5 * second else HeartbeatInterval c)
       (if StaleAfter c =? 0 then 15 * second else StaleAfter c)
       (if RequestTimeout c <=? 0 then 2 * second else RequestTimeout c)
       (if MaxMessageSize c <=? 0 then 65536 else MaxMessageSize c)
       (if MessageMaxAge c <=? 0 then 30 * second else MessageMaxAge c)
       (MaxRetries c) (LoadReportInterval c) (Capacity c) (FailureCheckInterval c) (FailureGracePeriod c)
       (RecoveryConcurrency c) (RecoveryDisabled c) (Redis c)).

(** src/internal/cluster/cluster.go:198-204 [NewWithState: capacity] *)
Definition router_capacity (c : CapacityConfig) : CapacityConfig :=
  mkCapacity (MaxRooms c) (MaxParticipants c) (MaxPublications c)
    (if f_le (SoftLimitFraction c) (f_of_Z 0) then f_div (f_of_Z 8) (f_of_Z 10) else SoftLimitFraction c)
    (if f_le (HardLimitFraction c) (f_of_Z 0) then f_of_Z 1 else HardLimitFraction c).

(** src/internal/cluster/cluster.go:65-71 [staleFor]  The age from which a load report
    is ignored. *)
Definition staleFor (c : Config) : Z :=
  wrap64 ((if LoadReportInterval c <=? 0 then 2 * second else LoadReportInterval c) * 5).

(** src/internal/cluster/cluster.go:92-110 [New]  [redis_ok]: the Redis client could be
    built. *)
Definition cluster_New (c : Config) (fresh : string) (redis_ok : bool) : option Config :=
  if decide (Validate c ≠ []) then None
  else if redis_Enabled (Redis c) && negb redis_ok then None
  else with_defaults c fresh.

(** ** Authentication *)

(** src/internal/auth/config.go:57-72 [FromEnv]  With the frame limit and the message
    rate, which the connections use. *)
Definition auth_FromEnv : AuthConfig * (Z * Z) :=
  (mkAuthConfig (envBool "PULSERTC_AUTH_ENABLED" true) (envInt "PULSERTC_RATE_LIMIT" 120)
     (envBool "PULSERTC_METRICS_PUBLIC" false)
     (mkValidator (trim (env "PULSERTC_JWT_SECRET")) (envString "PULSERTC_JWT_ISSUER" "pulsertc")
        (envString "PULSERTC_JWT_AUDIENCE" "pulsertc") (list_to_set (envList "PULSERTC_JWT_ALGS" ["HS256"]))
        (60 * second) (envDuration "PULSERTC_TOKEN_MAX_AGE" (3600 * second))),
   (envInt "PULSERTC_MAX_MESSAGE_SIZE" 65536, envInt "PULSERTC_MSG_RATE" 100)).

(** ** The management API *)

(** src/internal/api/config.go:79-96 [FromEnv] *)
Definition api_FromEnv : Api.Config :=
  let ttl := envDuration "PULSERTC_API_TOKEN_TTL" (3600 * second) in
  let ttlMax := envDuration "PULSERTC_API_TOKEN_TTL_MAX" (43200 * second) in
  mkApiConfig (envBool "PULSERTC_API_ENABLED" true) (ParseAPIKeys (env "PULSERTC_API_KEYS"))
    (envInt "PULSERTC_API_RATE_LIMIT" 600) (trim (env "PULSERTC_PUBLIC_WS_URL")) ttl (Z.max ttlMax ttl)
    (envBool "PULSERTC_API_ALLOW_CONTROL_TOKENS" false) (envDuration "PULSERTC_API_ROOM_TTL" (300 * second))
    (trim (env "PULSERTC_WEBHOOK_URL")) (trim (env "PULSERTC_WEBHOOK_SECRET")).

(** ** Session recovery *)

(** src/internal/signaling/session.go:95-107 [SessionRecoveryConfig, ReconnectHints] *)
Record ReconnectHints := mkHints { InitialDelay : Z; MaxDelay : Z; JitterFrac : float64 }.
Record SessionRecoveryConfig := mkRecovery { rc_Enabled : bool; rc_Timeout : Z; rc_Hints : ReconnectHints }.

(** src/internal/signaling/session.go:140-155 [envPercent]  "20%" or "0.2". *)
Definition envPercent (key : string) (def : float64) : float64 :=
  let v := trim (env key) in
  if decide (v = "") then def
  else if decide (last (bytes_of v) = Some x25)
  then match ParseFloat (string_of (removelast (bytes_of v))) with
       | Some f => f_div f (f_of_Z 100) | None => def end
  else default def (ParseFloat v).

(** src/internal/signaling/session.go:109-119 [sessionRecoveryConfigFromEnv] *)
Definition sessionRecoveryConfigFromEnv : SessionRecoveryConfig :=
  mkRecovery (envBool "PULSERTC_SESSION_RECOVERY_ENABLED" true)
    (envDuration "PULSERTC_SESSION_RECOVERY_TIMEOUT" (30 * second))
    (mkHints (envDuration "PULSERTC_RECONNECT_INITIAL_DELAY" (500 * millisecond))
       (envDuration "PULSERTC_RECONNECT_MAX_DELAY" (10 * second))
       (envPercent "PULSERTC_RECONNECT_JITTER" (f_div (f_of_Z 2) (f_of_Z 10)))).

(** ** The HTTP server *)

(** src/cmd/server/config.go:17-37 [loadServerConfig]  Port, address, web and SDK
    directories, and the complaints: a bad port, an unreadable directory. *)
Definition envOr (key def : string) : string := if decide (env key = "") then def else env key.
Definition loadServerConfig (is_dir : string → bool) : Z * string * string * string * list string :=
  let web := envOr "WEB_DIR" "web" in
  let '(port, e1) :=
    if decide (env "PORT" = "") then (8090, [])
    else match Atoi (bytes_of (env "PORT")) with
         | (p, None) => if (p <? 1) || (65535 <? p) then (8090, ["PORT"]) else (p, [])
         | (_, Some _) => (8090, ["PORT"])
         end in
  (port, env "ADDR", web, envOr "SDK_DIST_DIR" "sdk/dist", e1 ++ if is_dir web then [] else ["WEB_DIR"]).

(** ** The SFU *)

(** src/internal/sfu/config.go:144-155 [envPositiveInt] *)
Definition envPositiveInt (key : string) (def : Z) : Z :=
  let v := trim (env key) in
  if decide (v = "") then def
  else match Atoi (bytes_of v) with
       | (n, None) => if n <? 1 then def else n
       | (_, Some _) => def
       end.

(** src/internal/sfu/config.go:43-51 [negotiationConcurrencyFromEnv] *)
Definition negotiationConcurrencyFromEnv (gomaxprocs : Z) : Z :=
  envPositiveInt "SFU_NEGOTIATION_CONCURRENCY" (if gomaxprocs <? 2 then 2 else gomaxprocs).

(** src/internal/sfu/config.go:165-169 [subQueueCaps] *)
Definition subQueueCaps : Z * Z :=
  (envPositiveInt "SFU_SUBSCRIBER_QUEUE_AUDIO" 64, envPositiveInt "SFU_SUBSCRIBER_QUEUE_VIDEO" 512).

(** src/internal/sfu/config.go:173-177 [validNackBufferSizes] *)
Definition validNackBufferSizes : list Z :=
  [1; 2; 4; 8; 16; 32; 64; 128; 256; 512; 1024; 2048; 4096; 8192; 16384; 32768].

(** src/internal/sfu/config.go:189-201 [nackResponderSize]  The conversion to [uint16]
    wraps. *)
Definition defaultNackBufferSize : Z := 256.
Definition nackResponderSize : Z :=
  let v := trim (env "SFU_NACK_BUFFER_SIZE") in
  (if decide (v = "") then defaultNackBufferSize
   else match Atoi (bytes_of v) with
        | (n, None) => if decide (n ∈ validNackBufferSizes) then n else defaultNackBufferSize
        | (_, Some _) => defaultNackBufferSize
        end) mod 2 ^ 16.

(** src/internal/sfu/config.go:95-121 [iceServersFromEnv]  URLs, user name, credential. *)
Record ICEServer := mkICE { URLs : list string; Username : string; Credential : option string }.
Definition iceServersFromEnv : list ICEServer :=
  let stun := splitCSV (env "PULSERTC_STUN_URLS") in
  let turn := splitCSV (env "PULSERTC_TURN_URLS") in
  let user := trim (env "PULSERTC_TURN_USERNAME") in
  let pass := trim (env "PULSERTC_TURN_PASSWORD") in
  mkICE (if decide (stun = []) then ["stun:stun.l.google.com:19302"] else stun) "" None ::
  (if decide (turn = [] ∨ user = "" ∨ pass = "") then [] else [mkICE turn user (Some pass)]).

(** src/internal/sfu/config.go:132-142 [ICEServers]  What a browser is told: the same
    servers, the credential as text. *)
Definition ICEServers (l : list ICEServer) : list (list string * string * string) :=
  (λ s, (URLs s, Username s, default "" (Credential s))) <$> l.

(** src/internal/sfu/config.go:17-25 [Config] *)
Record SfuConfig := mkSfuConfig {
  sc_ICEServers : list ICEServer; NackBufferSize : Z; NegotiationConcurrency : Z; SubQueueAudio : Z;
  SubQueueVideo : Z; UDPPort : Z; NAT1To1IPs : list string
}.

(** src/internal/sfu/config.go:27-38 [configFromEnv] *)
Definition configFromEnv (gomaxprocs : Z) : SfuConfig :=
  mkSfuConfig iceServersFromEnv nackResponderSize (negotiationConcurrencyFromEnv gomaxprocs)
    subQueueCaps.1 subQueueCaps.2 (envPositiveInt "SFU_UDP_PORT" 0) (splitCSV (env "SFU_NAT_1TO1_IP")).

(** src/internal/sfu/config.go:53-68 [Validate]  The complaints. *)
Definition sfu_Validate (c : SfuConfig) : list string :=
  (if NegotiationConcurrency c <? 1 then ["NegotiationConcurrency"] else []) ++
  (if SubQueueAudio c <? 1 then ["SubQueueAudio"] else []) ++
  (if SubQueueVideo c <? 1 then ["SubQueueVideo"] else []) ++
  (if decide (NackBufferSize c ∈ validNackBufferSizes) then [] else ["NackBufferSize"]).

(** src/internal/sfu/config.go:211-232 [configureNetwork]  The addresses to advertise and
    the port to bind, or the error of a port that is not a number; [listen]: whether
    the port could be bound. *)
Definition configureNetwork (listen : Z → bool) : option (list string * option Z) :=
  let ips := trim (env "SFU_NAT_1TO1_IP") in
  let p := trim (env "SFU_UDP_PORT") in
  if decide (p = "") then Some (splitCSV ips, None)
  else match Atoi (bytes_of p) with
       | (port, None) => if listen port then Some (splitCSV ips, Some port) else None
       | (_, Some _) => None
       end.
End env.

(** ** Reconnection *)

(** src/internal/signaling/session_reconnect.go:16-39 [nextReconnectDelay]  [rnd]: the
    random number in [0,1), or none for the lower bound. *)
Definition nextReconnectDelay (n : Z) (h : ReconnectHints) (rnd : option float64) : Z :=
  let initial := if InitialDelay h <=? 0 then 500 * millisecond else InitialDelay h in
  let maxd := if MaxDelay h <=? 0 then 10 * second else MaxDelay h in
  let n := if n <? 0 then 0 else n in
  let base := f_mul (f_of_Z initial) (f_scale 1 n) in
  let base := if f_lt (f_of_Z maxd) base then f_of_Z maxd else base in
  f_to_int
    match rnd with
    | Some r => if f_lt (f_of_Z 0) (JitterFrac h) then f_add base (f_mul (f_mul r base) (JitterFrac h)) else base
    | None => base
    end.

(** The delays double up to the maximum; jitter adds at most its fraction. *)
Example reconnect_delays :
  let h := mkHints (500 * millisecond) (10 * second) (f_div (f_of_Z 2) (f_of_Z 10)) in
  ((λ n, nextReconnectDelay n h None) <$> [-1; 0; 1; 2; 3; 4; 5; 2000]) =
    [500 * millisecond; 500 * millisecond; second; 2 * second; 4 * second; 8 * second; 10 * second; 10 * second] ∧
  nextReconnectDelay 5 h (Some (f_div (f_of_Z 1) (f_of_Z 2))) = 11 * second ∧
  nextReconnectDelay 0 (mkHints 0 0 (f_of_Z 0)) None = 500 * millisecond.
Proof. vm_compute. done. Qed.

(** ** What a variable can do *)

Lemma trim_idem s : trim (trim s) = trim s.
Proof. unfold trim. by rewrite bytes_of_string_of, TrimSpace_idem. Qed.

Lemma blank_trim s : blank (trim s) = bool_decide (trim s = "").
Proof.
  unfold blank. apply bool_decide_ext. unfold trim. rewrite bytes_of_string_of, TrimSpace_idem. split.
  - by intros ->.
  - intros H. rewrite <- (bytes_of_string_of (TrimSpace _)), H. done.
Qed.

(** Membership in a concrete list, by evaluation. *)
Ltac no_member H := apply (bool_decide_pack _ (dec := _)) in H; vm_compute in H; done.

Lemma words_disjoint v : v ∈ true_words → v ∉ false_words.
Proof.
  unfold true_words. intros Ht Hf.
  repeat (apply elem_of_cons in Ht as [->|Ht]; [no_member Hf|]). by apply elem_of_nil in Ht.
Qed.

(** A switch that is on by default is off exactly when its variable says so. *)
Lemma envBool_off env key : envBool env key true = false ↔ trim (env key) ∈ false_words.
Proof.
  unfold envBool, ParseBool. set (v := trim (env key)). clearbody v.
  destruct (decide (v = "")) as [->|Hv]; [split; [done|]; intros H; no_member H|].
  destruct (decide (v ∈ true_words)) as [Ht|Ht]; simpl.
  - split; [done|]. intros Hf. by apply words_disjoint in Ht.
  - destruct (decide (v ∈ false_words)) as [Hf|Hf]; simpl; [done|]. by split; [|intros ?].
Qed.

Lemma envBool_on env key : envBool env key false = true ↔ trim (env key) ∈ true_words.
Proof.
  unfold envBool, ParseBool. set (v := trim (env key)). clearbody v.
  destruct (decide (v = "")) as [->|Hv]; [split; [done|]; intros H; no_member H|].
  destruct (decide (v ∈ true_words)) as [Ht|Ht]; simpl; [done|].
  destruct (decide (v ∈ false_words)) as [Hf|Hf]; simpl; by split; [|intros ?].
Qed.

Lemma envPositiveInt_range env key def : 1 ≤ def < 2 ^ 63 → 1 ≤ envPositiveInt env key def < 2 ^ 63.
Proof.
  intros Hd. unfold envPositiveInt. case_decide; [done|].
  pose proof (Atoi_range (bytes_of (trim (env key)))) as Hr.
  destruct (Atoi _) as [n [e|]]; [done|]. simpl in Hr. destruct (Z.ltb_spec n 1); [done|lia].
Qed.

Lemma splitCSV_nonempty v p : p ∈ splitCSV v → p ≠ "".
Proof. unfold splitCSV. intros [H _]%list_elem_of_filter. done. Qed.

Lemma nack_sizes n : n ∈ validNackBufferSizes → ∃ k, 0 ≤ k ≤ 15 ∧ n = 2 ^ k.
Proof.
  change validNackBufferSizes with ((λ k, 2 ^ Z.of_nat k) <$> seq 0 16). intros H.
  apply list_elem_of_fmap in H as (k & -> & H). apply elem_of_seq in H. exists (Z.of_nat k). split; [lia|done].
Qed.

(** C40: The SFU always starts from a well-formed configuration.  Whatever the
    environment holds, the configuration read from it passes its own validation: the
    negotiation width and both queue depths are positive machine integers, the
    retransmission buffer is a power of two up to 32768, at least one ICE server is
    configured, none has an empty address, and a server with a user name has a
    credential. *)
Theorem sfu_config_typed env gomaxprocs :
  gomaxprocs < 2 ^ 63 →
  let c := configFromEnv env gomaxprocs in
  sfu_Validate c = [] ∧
  1 ≤ NegotiationConcurrency c < 2 ^ 63 ∧ 1 ≤ SubQueueAudio c < 2 ^ 63 ∧ 1 ≤ SubQueueVideo c < 2 ^ 63 ∧
  (∃ k, 0 ≤ k ≤ 15 ∧ NackBufferSize c = 2 ^ k) ∧
  sc_ICEServers c ≠ [] ∧
  Forall (λ s, URLs s ≠ [] ∧ "" ∉ URLs s ∧ (Username s ≠ "" ↔ is_Some (Credential s)) ∧ Credential s ≠ Some "")
    (sc_ICEServers c).
Proof.
  intros Hg. cbv zeta.
  assert (H1 : 1 ≤ NegotiationConcurrency (configFromEnv env gomaxprocs) < 2 ^ 63).
  { apply envPositiveInt_range. destruct (Z.ltb_spec gomaxprocs 2); lia. }
  assert (H2 : 1 ≤ SubQueueAudio (configFromEnv env gomaxprocs) < 2 ^ 63) by (apply envPositiveInt_range; lia).
  assert (H3 : 1 ≤ SubQueueVideo (configFromEnv env gomaxprocs) < 2 ^ 63) by (apply envPositiveInt_range; lia).
  assert (H4 : NackBufferSize (configFromEnv env gomaxprocs) ∈ validNackBufferSizes).
  { cbn [configFromEnv NackBufferSize]. unfold nackResponderSize. set (n := if decide (trim _ = "") then _ else _).
    assert (Hn : n ∈ validNackBufferSizes).
    { assert (Hd : defaultNackBufferSize ∈ validNackBufferSizes) by (refine (bool_decide_unpack _ _); vm_compute; done).
      unfold n. case_decide; [done|]. destruct (Atoi _) as [m [e|]]; [done|]. by case_decide. }
    destruct (nack_sizes n Hn) as (k & Hk & E). rewrite Z.mod_small; [done|]. rewrite E.
    split; [apply Z.pow_nonneg; lia|]. apply Z.pow_lt_mono_r; lia. }
  split_and!; [|lia..| |done|].
  - unfold sfu_Validate. destruct (Z.ltb_spec (NegotiationConcurrency (configFromEnv env gomaxprocs)) 1); [lia|].
    destruct (Z.ltb_spec (SubQueueAudio (configFromEnv env gomaxprocs)) 1); [lia|].
    destruct (Z.ltb_spec (SubQueueVideo (configFromEnv env gomaxprocs)) 1); [lia|].
    by rewrite decide_True.
  - by apply nack_sizes.
  - cbn [configFromEnv sc_ICEServers]. unfold iceServersFromEnv. constructor.
    + cbn [URLs Username Credential]. split_and!; [|  |split; [done|by intros [? ?]]|done].
      * by case_decide.
      * case_decide; intros Hin; [no_member Hin|]. by apply splitCSV_nonempty in Hin.
    + case_decide as Hd; [constructor|].
      assert (Ht : splitCSV (env "PULSERTC_TURN_URLS") ≠ []) by tauto.
      assert (Hu : trim (env "PULSERTC_TURN_USERNAME") ≠ "") by tauto.
      assert (Hp : trim (env "PULSERTC_TURN_PASSWORD") ≠ "") by tauto.
      apply Forall_singleton. cbn [URLs Username Credential].
      split_and!; [done|intros H; by apply splitCSV_nonempty in H|by split|by intros [= H]].
Qed.


(** What the other components rely on: a cluster that starts has a secret, a heartbeat
    shorter than the age at which its peers give it up, and positive limits. *)
Theorem cluster_starts_sound c fresh redis_ok c' :
  cluster_New c fresh redis_ok = Some c' →
  (Enabled c' = true → Secret c' ≠ "" ∧ 0 < HeartbeatInterval c' < StaleAfter c') ∧
  0 < RequestTimeout c' ∧ 0 < MaxMessageSize c' ∧ 0 < MessageMaxAge c' ∧
  (trim (cfg_NodeID c') ≠ "" ∨ cfg_NodeID c' = "node-" +:+ fresh).
Proof.
  unfold cluster_New, with_defaults. case_decide as Hv; [done|].
  destruct (redis_Enabled (Redis c) && negb redis_ok); [done|].
  destruct (Enabled c) eqn:He; simpl.
  - destruct (Validate_ok c He Hv) as [Hs Hh]. case_bool_decide as Hsec; [done|]. intros [= <-].
    cbn [Enabled Secret HeartbeatInterval StaleAfter RequestTimeout MaxMessageSize MessageMaxAge cfg_NodeID].
    rewrite (proj2 (Z.eqb_neq (HeartbeatInterval c) 0)), (proj2 (Z.eqb_neq (StaleAfter c) 0)) by lia.
    split_and!; [done| | | |case_decide; [by right|by left]];
      match goal with |- 0 < if ?a <=? 0 then _ else _ => destruct (Z.leb_spec a 0); unfold second; lia end.
  - intros [= <-].
    cbn [Enabled Secret HeartbeatInterval StaleAfter RequestTimeout MaxMessageSize MessageMaxAge cfg_NodeID].
    split_and!; [done| | | |case_decide; [by right|by left]];
      match goal with |- 0 < if ?a <=? 0 then _ else _ => destruct (Z.leb_spec a 0); unfold second; lia end.
Qed.

(** ** Concrete environments *)

(** The variables that are set. *)
Definition env_of (l : list (string * string)) (key : string) : string :=
  default "" ((list_to_map l : gmap string string) !! key).

Lemma sfu_config_typed_witness : sfu_Validate (configFromEnv (env_of [("SFU_NACK_BUFFER_SIZE", "300")]) 8) = [].
Proof. apply (sfu_config_typed (env_of [("SFU_NACK_BUFFER_SIZE", "300")]) 8). lia. Defined.

Lemma cluster_starts_sound_witness :
  ∃ c', cluster_New (cluster_FromEnv (env_of [("PULSERTC_CLUSTER_ENABLED", "true"); ("PULSERTC_CLUSTER_SECRET", "s3");
    ("PULSERTC_CLUSTER_HEARTBEAT", "2s")]) (λ _, None) "ab12").1 "cd34" true = Some c' ∧
    ((Enabled c' = true → Secret c' ≠ "" ∧ 0 < HeartbeatInterval c' < StaleAfter c') ∧
     0 < RequestTimeout c' ∧ 0 < MaxMessageSize c' ∧ 0 < MessageMaxAge c' ∧
     (trim (cfg_NodeID c') ≠ "" ∨ cfg_NodeID c' = "node-" +:+ "cd34")).
Proof.
  eexists. split; [vm_compute; reflexivity|].
  apply (cluster_starts_sound (cluster_FromEnv (env_of [("PULSERTC_CLUSTER_ENABLED", "true");
    ("PULSERTC_CLUSTER_SECRET", "s3"); ("PULSERTC_CLUSTER_HEARTBEAT", "2s")]) (λ _, None) "ab12").1 "cd34" true).
  vm_compute. reflexivity.
Defined.

(** The port of the SFU is read twice, by two rules: a value that is not a number is
    replaced by the default in the configuration and refused by [configureNetwork],
    and one beyond the range of ports is accepted by the configuration. *)
Example udp_port_read_twice :
  UDPPort (configFromEnv (env_of [("SFU_UDP_PORT", "abc")]) 4) = 0 ∧
  configureNetwork (env_of [("SFU_UDP_PORT", "abc")]) (λ _, true) = None ∧
  UDPPort (configFromEnv (env_of [("SFU_UDP_PORT", "70000")]) 4) = 70000.
Proof. vm_compute. done. Qed.

(** A node port that overflows is taken as the largest integer instead of falling
    back. *)
Example node_port_overflows :
  port_from_env (env_of [("PULSERTC_NODE_PORT", "99999999999999999999"); ("PORT", "8080")]) = 2 ^ 63 - 1 ∧
  port_from_env (env_of [("PULSERTC_NODE_PORT", "http"); ("PORT", "8080")]) = 8080.
Proof. vm_compute. done. Qed.
