(* ===== verification/ClusterFacade.v ===== *)
(** * The rest of the cluster façade (internal/cluster: cluster, metrics, noderpc_http,
      noderpc_transport)

    Where participants are, which nodes hear of a room event, what a node learns of its
    peers, and the counters with their snapshot.  The answers of the peers are arguments;
    the order in which a map is walked is any permutation. *)

From S2P Require Import Prelude GoFloat ClusterTypes Registry LoadStore Cluster.

(** ** Counters *)

(** src/internal/cluster/metrics.go:10-85 [Metrics: fields] *)
Inductive counter :=
| ownershipClaimed | ownershipConflict | internalRequests | internalFailed | roomRedirects | redisErrors
| redisReconnects | redisUnavail | roomClaimFail | roomRelease | participantReg | participantRem | msgSentC
| msgReceivedC | msgFailedC | msgRetriedC | msgDuplicatedC | msgRejectedC | msgInvalidC | msgTimeoutC
| transportErrC | routeLocalC | routeRemoteC | routeNotFoundC | transportLatNs | transportLatN
| mediaSessCreated | mediaSessClosed | mediaSessFailed | mediaSessActive | mediaRTPSentC | mediaRTPRecvC
| mediaRTPDropC | mediaRTPInvalidC | mediaRTCPSentC | mediaRTCPRecvC | mediaRTCPDropC | mediaOversizedC
| mediaAuthFailedC | mediaRemoteTracks | roomSelections | roomSelectionFails | roomClaimsRouted
| roomClaimRetries | selLocal | selLeastLoaded | selCapacity | selFallback | loadReports | loadStaleC
| nodesDetectedStale | nodesRecovered | nodesRecoveryFailed | recoveryStarted | recoveryCompleted
| recoveryFailedC | recoveryRoomsC | recoveryRoomsRecov | recoveryRoomsSkip | recoveryConflictsC
| routingStaleNodeC | routingUnavailNodeC.

(** The methods that count. *)
Inductive call :=
| nodeDetectedStale | nodeRecovered | nodeRecoveryFailed | recoveryBegan | recoveryDone | recoveryFailed
| recoveryRoom | recoveryRoomRecov | recoveryRoomSkipped | recoveryConflict | routingStaleNode
| routingUnavailNode | claimed | conflict | internalReq | internalReqFail | redirect | redisError
| redisReconnect | redisUnavailable | roomClaimFailed | roomReleased | participantRegistered
| participantRemoved | msgSent | msgReceived | msgFailed | msgRetried | msgDuplicated | msgRejected
| msgInvalid | msgTimeout | transportError | routeLocal | routeRemote | routeNotFound | mediaSessionCreated
| mediaSessionClosed | mediaSessionFailed | mediaRTPSent | mediaRTPReceived | mediaRTPDropped
| mediaRTPInvalid | mediaRTCPSent | mediaRTCPReceived | mediaRTCPDropped | mediaOversized | mediaAuthFailed
| mediaRemoteTrackAdd | roomSelectionFailed | roomClaimRouted | roomClaimRetry | loadReported | loadStale
| roomSelected (reason : string) | observeTransportLatency (d : Z) | mediaRemoteTrackDel.

#[export] Instance counter_eq_dec : EqDecision counter.
Proof. solve_decision. Defined.

(** src/internal/cluster/metrics.go:8-10 [Metrics] *)
Definition Metrics : Type := counter → Z.

(** src/internal/cluster/metrics.go:163-172 [roomSelected: switch] *)
Definition selected_counter (reason : string) : counter :=
  if decide (reason = "local") then selLocal
  else if decide (reason = "assigned") then selLocal
  else if decide (reason = "least_loaded") then selLeastLoaded
  else if decide (reason = "capacity") then selCapacity
  else selFallback.

(** src/internal/cluster/metrics.go:87-178 [methods of Metrics]  The atomic additions of a
    call, in order. *)
Definition adds (c : call) : list (counter * Z) :=
  match c with
  | nodeDetectedStale => [(nodesDetectedStale, 1)]
  | nodeRecovered => [(nodesRecovered, 1)]
  | nodeRecoveryFailed => [(nodesRecoveryFailed, 1)]
  | recoveryBegan => [(recoveryStarted, 1)]
  | recoveryDone => [(recoveryCompleted, 1)]
  | recoveryFailed => [(recoveryFailedC, 1)]
  | recoveryRoom => [(recoveryRoomsC, 1)]
  | recoveryRoomRecov => [(recoveryRoomsRecov, 1)]
  | recoveryRoomSkipped => [(recoveryRoomsSkip, 1)]
  | recoveryConflict => [(recoveryConflictsC, 1)]
  | routingStaleNode => [(routingStaleNodeC, 1)]
  | routingUnavailNode => [(routingUnavailNodeC, 1)]
  | claimed => [(ownershipClaimed, 1)]
  | conflict => [(ownershipConflict, 1)]
  | internalReq => [(internalRequests, 1)]
  | internalReqFail => [(internalFailed, 1)]
  | redirect => [(roomRedirects, 1)]
  | redisError => [(redisErrors, 1)]
  | redisReconnect => [(redisReconnects, 1)]
  | redisUnavailable => [(redisUnavail, 1)]
  | roomClaimFailed => [(roomClaimFail, 1)]
  | roomReleased => [(roomRelease, 1)]
  | participantRegistered => [(participantReg, 1)]
  | participantRemoved => [(participantRem, 1)]
  | msgSent => [(msgSentC, 1)]
  | msgReceived => [(msgReceivedC, 1)]
  | msgFailed => [(msgFailedC, 1)]
  | msgRetried => [(msgRetriedC, 1)]
  | msgDuplicated => [(msgDuplicatedC, 1)]
  | msgRejected => [(msgRejectedC, 1)]
  | msgInvalid => [(msgInvalidC, 1)]
  | msgTimeout => [(msgTimeoutC, 1)]
  | transportError => [(transportErrC, 1)]
  | routeLocal => [(routeLocalC, 1)]
  | routeRemote => [(routeRemoteC, 1)]
  | routeNotFound => [(routeNotFoundC, 1)]
  | mediaSessionCreated => [(mediaSessCreated, 1); (mediaSessActive, 1)]
  | mediaSessionClosed => [(mediaSessClosed, 1); (mediaSessActive, -1)]
  | mediaSessionFailed => [(mediaSessFailed, 1)]
  | mediaRTPSent => [(mediaRTPSentC, 1)]
  | mediaRTPReceived => [(mediaRTPRecvC, 1)]
  | mediaRTPDropped => [(mediaRTPDropC, 1)]
  | mediaRTPInvalid => [(mediaRTPInvalidC, 1)]
  | mediaRTCPSent => [(mediaRTCPSentC, 1)]
  | mediaRTCPReceived => [(mediaRTCPRecvC, 1)]
  | mediaRTCPDropped => [(mediaRTCPDropC, 1)]
  | mediaOversized => [(mediaOversizedC, 1)]
  | mediaAuthFailed => [(mediaAuthFailedC, 1)]
  | mediaRemoteTrackAdd => [(mediaRemoteTracks, 1)]
  | roomSelectionFailed => [(roomSelectionFails, 1)]
  | roomClaimRouted => [(roomClaimsRouted, 1)]
  | roomClaimRetry => [(roomClaimRetries, 1)]
  | loadReported => [(loadReports, 1)]
  | loadStale => [(loadStaleC, 1)]
  | roomSelected reason => (roomSelections, 1) :: [(selected_counter reason, 1)]
  | observeTransportLatency d => [(transportLatNs, d); (transportLatN, 1)]
  | mediaRemoteTrackDel => [(mediaRemoteTracks, -1)]
  end.

(** src/internal/cluster/metrics.go:127-132 [addIf]  An atomic [Add] of an int64. *)
Definition add (m : Metrics) (a : counter * Z) : Metrics :=
  λ c, if decide (c = a.1) then wrap64 (m c + a.2) else m c.

(** Additions, one after the other. *)
Definition run_adds (m : Metrics) (l : list (counter * Z)) : Metrics := foldl add m l.

(** src/internal/cluster/metrics.go:127-159 [methods of Metrics: nil]  A call on a pointer
    that may be nil; [None]: it panics.  The address of a field of nil is a fault, taken
    before [addIf] can test its receiver; two methods test it first. *)
Definition exec (m : option Metrics) (c : call) : option (option Metrics) :=
  match m with
  | Some m => Some (Some (run_adds m (adds c)))
  | None => match c with observeTransportLatency _ | mediaRemoteTrackDel => Some None | _ => None end
  end.

(** src/internal/cluster/metrics.go:180-186 [transportLatencyAvgMs] *)
Definition transportLatencyAvgMs (m : Metrics) : float64 :=
  let n := m transportLatN in
  if n =? 0 then f_of_Z 0 else f_div (f_div (f_of_Z (m transportLatNs)) (f_of_Z n)) (f_of_Z 1000000).

(** ** Participants *)

(** src/internal/cluster/cluster.go:666-673 [RegisterParticipant] *)
Definition RegisterParticipant (cfg : Config) (participantID roomID : string) (s : ParticipantLocator * Metrics) :
    ParticipantLocator * Metrics :=
  (RegisterLoc (mkLoc participantID roomID (cfg_NodeID cfg)) s.1, run_adds s.2 (adds participantRegistered)).

(** src/internal/cluster/cluster.go:675-680 [ForgetParticipant] *)
Definition ForgetParticipant (participantID : string) (s : ParticipantLocator * Metrics) : ParticipantLocator * Metrics :=
  (RemoveLoc participantID s.1, run_adds s.2 (adds participantRemoved)).

(** The answer of an endpoint that returns a record. *)
Record reply (A : Type) := mkAnswer { r_status : Z; r_body : option A }.
Arguments mkAnswer {A} _ _.
Arguments r_status {A} _.
Arguments r_body {A} _.

(** src/internal/cluster/noderpc_http.go:173-185 [handleInternalParticipant] *)
Definition handleInternalParticipant (id : string) (p : ParticipantLocator) : reply ParticipantLocation :=
  if bool_decide (id = "") then mkAnswer 400 None
  else match Lookup id p with
       | None => mkAnswer 404 None
       | Some loc => mkAnswer 200 (Some loc)
       end.

(** src/internal/cluster/noderpc_http.go:22-30 [RegisterRoutes: guard] *)
Definition guarded {A} (d : delivery) (r : reply A) : option (reply A) :=
  match d with
  | Lost => None
  | Arrives enabled authorized =>
      Some (if negb enabled then mkAnswer 404 None else if negb authorized then mkAnswer 401 None else r)
  end.

(** src/internal/cluster/noderpc_transport.go:42-72 [get]  [None]: an error; a 404 is not
    one, and leaves the record zero. *)
Definition get_record {A} (r : option (reply A)) : option (reply A) :=
  match r with
  | None => None
  | Some r => if r_status r =? 404 then Some (mkAnswer 404 None) else if 400 <=? r_status r then None else Some r
  end.

(** src/internal/cluster/noderpc_transport.go:89-99 [Participant] *)
Definition Participant (d : delivery) (participantID : string) (p : ParticipantLocator) : option (option ParticipantLocation) :=
  match get_record (guarded d (handleInternalParticipant participantID p)) with
  | None => None
  | Some r =>
      match r_body r with
      | Some loc => if (r_status r =? 404) || bool_decide (loc_ParticipantID loc = "") then Some None else Some (Some loc)
      | None => Some None
      end
  end.

(** src/internal/cluster/cluster.go:690-694 [LocateParticipant: peers] *)
Fixpoint ask_each (participantID : string) (peers : list (delivery * ParticipantLocator)) : option ParticipantLocation :=
  match peers with
  | [] => None
  | (d, p) :: peers =>
      match Participant d participantID p with
      | Some (Some loc) => Some loc
      | _ => ask_each participantID peers
      end
  end.

(** src/internal/cluster/cluster.go:682-696 [LocateParticipant]  [peers]: for each
    configured peer, what becomes of the request and the store it answers from. *)
Definition LocateParticipant (cfg : Config) (participantID : string) (p : ParticipantLocator)
    (peers : list (delivery * ParticipantLocator)) : option ParticipantLocation :=
  match Lookup participantID p with
  | Some loc => Some loc
  | None => if negb (Enabled cfg) then None else ask_each participantID peers
  end.

(** ** Room events *)

(** src/internal/cluster/cluster.go:365-375 [BroadcastRoomEvent: loop] *)
Fixpoint fan_out (seen : gset string) (locs : list ParticipantLocation) : list string :=
  match locs with
  | [] => []
  | loc :: locs =>
      if decide (loc_NodeID loc ∈ seen) then fan_out seen locs
      else loc_NodeID loc :: fan_out ({[loc_NodeID loc]} ∪ seen) locs
  end.

(** src/internal/cluster/cluster.go:361-376 [BroadcastRoomEvent]  The nodes that are sent
    the event, in order; [locs]: the participants of the room as the store lists them. *)
Definition BroadcastRoomEvent (cfg : Config) (transport : bool) (locs : list ParticipantLocation) : list string :=
  if negb (Enabled cfg) || negb transport then [] else fan_out {[cfg_NodeID cfg]} locs.

(** ** Peers *)

(** src/internal/cluster/cluster.go:457-462 [pingTimeout] *)
Definition pingTimeout (cfg : Config) : Z := if 0 <? redis_Timeout (Redis cfg) then redis_Timeout (Redis cfg) else 3 * second.

(** src/internal/cluster/noderpc_transport.go:101-107 [NodeInfo]  The zero record when the
    peer answers 404. *)
Definition peer_info (d : delivery) (self : NodeInfo) : option NodeInfo :=
  r ← get_record (guarded d (mkAnswer 200 (Some self)));
  Some (default (mkNodeInfo "" "" 0 "" NodeStarting 0 0 "") (r_body r)).

(** src/internal/cluster/cluster.go:522-533 [reconcilePeers]  For each peer: what becomes
    of the request, what it says of itself, and the clock when it is filed. *)
Definition reconcilePeers (peers : list (delivery * NodeInfo * Z)) (r : Registry) : Registry :=
  foldl (λ r '(d, self, now), match peer_info d self with Some info => (Register now info r).2 | None => r end) r peers.

(** ** The snapshot *)

(** src/internal/cluster/metrics.go:234-248 [RecoveryMetrics] *)
Record RecoveryMetrics := mkRecoveryMetrics {
  rec_NodesDetectedStale : Z; rec_NodesRecovered : Z; rec_NodesRecoveryFailed : Z; rec_Started : Z;
  rec_Completed : Z; rec_Failed : Z; rec_Rooms : Z; rec_RoomsRecovered : Z; rec_RoomsSkipped : Z;
  rec_Conflicts : Z; rec_RoutingStaleNode : Z; rec_RoutingUnavailNode : Z
}.

(** src/internal/cluster/metrics.go:250-260 [RoutingSchedMetrics] *)
Record RoutingSchedMetrics := mkRoutingSchedMetrics {
  sch_RoomSelections : Z; sch_RoomSelectionFailures : Z; sch_RoomClaimsRouted : Z; sch_RoomClaimRetries : Z;
  sch_SelectLocal : Z; sch_SelectLeastLoaded : Z; sch_SelectCapacity : Z; sch_SelectFallback : Z
}.

(** src/internal/cluster/metrics.go:262-266 [LoadMetrics] *)
Record LoadMetrics := mkLoadMetrics {
  lm_Reports : Z; lm_Stale : Z
}.

(** src/internal/cluster/metrics.go:268-286 [MediaMetrics] *)
Record MediaMetrics := mkMediaMetrics {
  med_Enabled : bool; med_LocalAddr : string; med_SessionsActive : Z; med_SessionsCreated : Z;
  med_SessionsClosed : Z; med_SessionsFailed : Z; med_RemoteTracks : Z; med_RTPSent : Z; med_RTPReceived : Z;
  med_RTPDropped : Z; med_RTPInvalid : Z; med_RTCPSent : Z; med_RTCPReceived : Z; med_RTCPDropped : Z;
  med_OversizedPackets : Z; med_AuthFailures : Z
}.

(** src/internal/cluster/metrics.go:288-298 [MessageMetrics] *)
Record MessageMetrics := mkMessageMetrics {
  msg_Sent : Z; msg_Received : Z; msg_Failed : Z; msg_Retried : Z; msg_Duplicated : Z; msg_Rejected : Z;
  msg_Invalid : Z; msg_Timeout : Z
}.

(** src/internal/cluster/metrics.go:300-305 [RoutingMetrics] *)
Record RoutingMetrics := mkRoutingMetrics {
  rt_Local : Z; rt_Remote : Z; rt_NotFound : Z
}.

(** src/internal/cluster/metrics.go:188-232 [Snapshot] *)
Record Snapshot := mkSnapshot {
  cs_Enabled : bool; cs_NodeID : string; cs_State : NodeState; cs_Backend : string; cs_Nodes : Z;
  cs_NodesActive : Z; cs_NodesStale : Z; cs_Rooms : Z; cs_RoomsLocal : Z; cs_RoomsRemote : Z;
  cs_OwnershipClaimed : Z; cs_OwnershipConflict : Z; cs_RoomRedirects : Z; cs_InternalRequests : Z;
  cs_InternalRequestsFailed : Z; cs_Participants : Z; cs_RedisConnected : bool; cs_RedisErrors : Z;
  cs_RedisReconnects : Z; cs_RedisUnavailable : Z; cs_RoomClaimFailed : Z; cs_RoomReleased : Z;
  cs_ParticipantRegs : Z; cs_ParticipantRemoves : Z; cs_Messages : MessageMetrics;
  cs_Routing : RoutingMetrics; cs_TransportErrs : Z; cs_TransportLatMs : float64; cs_Media : MediaMetrics;
  cs_Scheduler : RoutingSchedMetrics; cs_Load : LoadMetrics; cs_Recovery : RecoveryMetrics
}.

(** src/internal/cluster/cluster.go:758-766 [MetricsSnapshot: rooms] *)
Definition rooms_of (self : string) (rooms : gmap string string) : Z :=
  Z.of_nat (length (filter (λ o, o = self) (snd <$> map_to_list rooms))).
Definition rooms_elsewhere (self : string) (rooms : gmap string string) : Z :=
  Z.of_nat (length (filter (λ o, o ≠ self) (snd <$> map_to_list rooms))).

(** src/internal/cluster/cluster.go:755-860 [MetricsSnapshot]  [counts], [rooms] and
    [located] are the answers of the stores. *)
Definition MetricsSnapshot (cfg : Config) (media : MediaConfig) (state : NodeState) (kind : string) (healthy : bool) (mediaAddr : string)
    (counts : Z * Z * Z) (rooms : gmap string string) (located : Z) (m : Metrics) : Snapshot :=
  let '(total, active, stale) := counts in
  let local := rooms_of (cfg_NodeID cfg) rooms in
  let remote := rooms_elsewhere (cfg_NodeID cfg) rooms in
   {| cs_Enabled := Enabled cfg; cs_NodeID := cfg_NodeID cfg; cs_State := state; cs_Backend := kind;
     cs_Nodes := total; cs_NodesActive := active; cs_NodesStale := stale; cs_Rooms := Z.of_nat (size rooms);
     cs_RoomsLocal := local; cs_RoomsRemote := remote; cs_OwnershipClaimed := m ownershipClaimed;
     cs_OwnershipConflict := m ownershipConflict; cs_RoomRedirects := m roomRedirects;
     cs_InternalRequests := m internalRequests; cs_InternalRequestsFailed := m internalFailed;
     cs_Participants := located; cs_RedisConnected := (Enabled cfg && redis_Enabled (Redis cfg) && healthy);
     cs_RedisErrors := m redisErrors; cs_RedisReconnects := m redisReconnects;
     cs_RedisUnavailable := m redisUnavail; cs_RoomClaimFailed := m roomClaimFail;
     cs_RoomReleased := m roomRelease; cs_ParticipantRegs := m participantReg;
     cs_ParticipantRemoves := m participantRem; cs_Messages := {| msg_Sent := m msgSentC;
     msg_Received := m msgReceivedC; msg_Failed := m msgFailedC; msg_Retried := m msgRetriedC;
     msg_Duplicated := m msgDuplicatedC; msg_Rejected := m msgRejectedC; msg_Invalid := m msgInvalidC;
     msg_Timeout := m msgTimeoutC |}; cs_Routing := {| rt_Local := m routeLocalC;
     rt_Remote := m routeRemoteC; rt_NotFound := m routeNotFoundC |}; cs_TransportErrs := m transportErrC;
     cs_TransportLatMs := (transportLatencyAvgMs m); cs_Media := {| med_Enabled := (media_Enabled media);
     med_LocalAddr := mediaAddr; med_SessionsActive := m mediaSessActive;
     med_SessionsCreated := m mediaSessCreated; med_SessionsClosed := m mediaSessClosed;
     med_SessionsFailed := m mediaSessFailed; med_RemoteTracks := m mediaRemoteTracks;
     med_RTPSent := m mediaRTPSentC; med_RTPReceived := m mediaRTPRecvC; med_RTPDropped := m mediaRTPDropC;
     med_RTPInvalid := m mediaRTPInvalidC; med_RTCPSent := m mediaRTCPSentC;
     med_RTCPReceived := m mediaRTCPRecvC; med_RTCPDropped := m mediaRTCPDropC;
     med_OversizedPackets := m mediaOversizedC; med_AuthFailures := m mediaAuthFailedC |};
     cs_Scheduler := {| sch_RoomSelections := m roomSelections;
     sch_RoomSelectionFailures := m roomSelectionFails; sch_RoomClaimsRouted := m roomClaimsRouted;
     sch_RoomClaimRetries := m roomClaimRetries; sch_SelectLocal := m selLocal;
     sch_SelectLeastLoaded := m selLeastLoaded; sch_SelectCapacity := m selCapacity;
     sch_SelectFallback := m selFallback |}; cs_Load := {| lm_Reports := m loadReports;
     lm_Stale := m loadStaleC |}; cs_Recovery := {| rec_NodesDetectedStale := m nodesDetectedStale;
     rec_NodesRecovered := m nodesRecovered; rec_NodesRecoveryFailed := m nodesRecoveryFailed;
     rec_Started := m recoveryStarted; rec_Completed := m recoveryCompleted; rec_Failed := m recoveryFailedC;
     rec_Rooms := m recoveryRoomsC; rec_RoomsRecovered := m recoveryRoomsRecov;
     rec_RoomsSkipped := m recoveryRoomsSkip; rec_Conflicts := m recoveryConflictsC;
     rec_RoutingStaleNode := m routingStaleNodeC; rec_RoutingUnavailNode := m routingUnavailNodeC |} |}.

(** ** Participants are found where they are *)

Lemma Participant_found d id p loc :
  Participant d id p = Some (Some loc) → d = Arrives true true ∧ Lookup id p = Some loc.
Proof.
  unfold Participant, handleInternalParticipant. destruct d as [|[] []]; simpl; try done.
  case_bool_decide; simpl; [done|]. destruct (Lookup id p) as [l|]; simpl; [|done].
  case_bool_decide; [done|]. intros [= ->]. done.
Qed.

Lemma Participant_missing id p :
  id ≠ "" → (∀ loc, Lookup id p = Some loc → loc_ParticipantID loc = id) →
  Participant (Arrives true true) id p = Some (Lookup id p).
Proof.
  intros Hid Hp. unfold Participant, handleInternalParticipant. simpl. rewrite bool_decide_false by done.
  destruct (Lookup id p) as [l|]; simpl; [|done]. rewrite bool_decide_false; [done|]. by rewrite (Hp l).
Qed.

(** Records are filed under the participant they describe. *)
Definition filed (p : ParticipantLocator) : Prop := ∀ id loc, p !! id = Some loc → loc_ParticipantID loc = id.

Lemma RegisterParticipant_filed cfg id room s : filed s.1 → filed (RegisterParticipant cfg id room s).1.
Proof.
  intros H id' loc L. unfold RegisterParticipant, RegisterLoc in L. simpl in L.
  destruct (decide (id' = id)) as [->|]; simplify_map_eq; [done|]. by apply H.
Qed.

Lemma ForgetParticipant_filed id s : filed s.1 → filed (ForgetParticipant id s).1.
Proof. intros H id' loc L. unfold ForgetParticipant, RemoveLoc in L. simpl in L. apply lookup_delete_Some in L as [_ L]. by apply H. Qed.

Lemma ask_each_found id peers loc :
  ask_each id peers = Some loc → ∃ q, (Arrives true true, q) ∈ peers ∧ q !! id = Some loc.
Proof.
  induction peers as [|[d q] peers IH]; simpl; [done|].
  assert (Hr : ask_each id peers = Some loc → ∃ q', (Arrives true true, q') ∈ (d, q) :: peers ∧ q' !! id = Some loc).
  { intros H. destruct (IH H) as (q' & Hin & L). exists q'. split; [by apply list_elem_of_further|done]. }
  destruct (Participant d id q) as [[l|]|] eqn:E; [|done..]. intros [= <-].
  apply Participant_found in E as [-> E]. exists q. split; [apply list_elem_of_here|done].
Qed.

Lemma ask_each_missing id peers q :
  id ≠ "" → filed q → (Arrives true true, q) ∈ peers → ask_each id peers = None → q !! id = None.
Proof.
  intros Hid Hq. induction peers as [|[d q'] peers IH]; simpl; intros Hin H; [by apply not_elem_of_nil in Hin|].
  apply elem_of_cons in Hin as [[= <- <-]|Hin].
  - rewrite Participant_missing in H; [|done|intros loc L; by apply (Hq id)]. unfold Lookup in H. by destruct (q !! id).
  - apply IH; [done|]. by destruct (Participant d id q') as [[]|].
Qed.

(** a participant is located exactly where some node has it on file: the answer is this
    node's own record when it has one; else the record of a peer that was reached, with
    the cluster on and the secret right; and there is no answer only when no such peer
    has one. *)
Theorem locate_exact cfg id p peers :
  Enabled cfg = true → id ≠ "" → Forall (λ '(_, q), filed q) peers →
  match LocateParticipant cfg id p peers with
  | Some loc => p !! id = Some loc ∨ (p !! id = None ∧ ∃ q, (Arrives true true, q) ∈ peers ∧ q !! id = Some loc)
  | None => p !! id = None ∧ ∀ q, (Arrives true true, q) ∈ peers → q !! id = None
  end.
Proof.
  intros He Hid Hf. unfold LocateParticipant, Lookup. rewrite He. destruct (p !! id) as [loc|] eqn:Hp; [by left|]. simpl.
  destruct (ask_each id peers) as [loc|] eqn:E.
  - right. split; [done|]. by apply ask_each_found.
  - split; [done|]. intros q Hin. rewrite list.Forall_forall in Hf. by apply (ask_each_missing id peers q Hid (Hf _ Hin)).
Qed.

(** ** A room event reaches each other node of the room once *)

Lemma fan_out_spec seen locs :
  NoDup (fan_out seen locs) ∧ ∀ n, n ∈ fan_out seen locs ↔ n ∉ seen ∧ n ∈ loc_NodeID <$> locs.
Proof.
  revert seen. induction locs as [|loc locs IH]; intros seen; csimpl.
  - split; [constructor|]. intros n. rewrite elem_of_nil. tauto.
  - destruct (decide (loc_NodeID loc ∈ seen)) as [Hs|Hs].
    + destruct (IH seen) as [H1 H2]. split; [done|]. intros n. rewrite H2, elem_of_cons. split; [tauto|].
      intros [Hn [->|Hin]]; done.
    + destruct (IH ({[loc_NodeID loc]} ∪ seen)) as [H1 H2]. split.
      * constructor; [|done]. rewrite H2. set_solver.
      * intros n. rewrite !elem_of_cons, H2. rewrite not_elem_of_union, not_elem_of_singleton.
        destruct (decide (n = loc_NodeID loc)) as [->|]; [|tauto]. split; [|tauto]. intros _. split; [done|by left].
Qed.

(** a room event goes to every other node that has a participant of the room on file,
    to each once, whatever order the store lists them in, and never to this node. *)
Theorem broadcast_exact cfg room p locs :
  Enabled cfg = true → locs ≡ₚ InRoom room p →
  let sent := BroadcastRoomEvent cfg true locs in
  NoDup sent ∧
  ∀ n, n ∈ sent ↔ n ≠ cfg_NodeID cfg ∧ ∃ id loc, p !! id = Some loc ∧ loc_RoomID loc = room ∧ loc_NodeID loc = n.
Proof.
  intros He Hp sent. unfold sent, BroadcastRoomEvent. rewrite He. simpl. destruct (fan_out_spec {[cfg_NodeID cfg]} locs) as [H1 H2].
  split; [done|]. intros n. rewrite H2, not_elem_of_singleton, Hp. apply and_iff_compat_l. unfold InRoom.
  rewrite list_elem_of_fmap. split.
  - intros (loc & -> & Hin). apply list_elem_of_filter in Hin as [Hr Hin].
    apply list_elem_of_fmap in Hin as ([id l] & -> & Hin). apply elem_of_map_to_list in Hin. by exists id, l.
  - intros (id & loc & L & Hr & <-). exists loc. split; [done|]. apply list_elem_of_filter. split; [done|].
    apply list_elem_of_fmap. exists (id, loc). split; [done|]. by apply elem_of_map_to_list.
Qed.

(** ** Peers that answer are on file *)

#[export] Instance delivery_eq_dec : EqDecision delivery.
Proof. solve_decision. Defined.

Lemma Register_lookup now n r id :
  nodes (Register now n r).2 !! id =
  if decide (ID n = "") then nodes r !! id
  else if decide (ID n = id)
  then Some (with_seen now (match nodes r !! ID n with
                            | Some e => if StartedAt n =? 0 then with_started (StartedAt e) n else n
                            | None => n end))
  else nodes r !! id.
Proof.
  unfold Register. case_bool_decide as E; [by rewrite decide_True|]. rewrite decide_False by done. simpl.
  assert (Hid : ID (match nodes r !! ID n with
                    | Some e => if StartedAt n =? 0 then with_started (StartedAt e) n else n
                    | None => n end) = ID n) by (by destruct (nodes r !! ID n); [destruct (StartedAt n =? 0)|]).
  rewrite Hid. destruct (decide (ID n = id)) as [->|Hn]; by simplify_map_eq.
Qed.

Lemma peer_info_reached d self n : peer_info d self = Some n → ID n ≠ "" → d = Arrives true true ∧ n = self.
Proof. destruct d as [|[] []]; simpl; try done; intros [= <-] H; done. Qed.

(** after a round of peer queries, what the registry holds for a node is the last
    answer a reached peer of that id gave, seen when it was filed, and what it held before
    when none answered under that id. *)
Theorem reconcile_exact peers r id :
  id ≠ "" →
  match last (filter (λ x, x.1.1 = Arrives true true ∧ ID x.1.2 = id) peers) with
  | Some (_, self, now) => ∃ n, nodes (reconcilePeers peers r) !! id = Some n ∧
      LastSeen n = now ∧ State n = State self ∧ Host n = Host self ∧ Port n = Port self
  | None => nodes (reconcilePeers peers r) !! id = nodes r !! id
  end.
Proof.
  intros Hid. induction peers as [|[[d self] now] peers IH] using rev_ind; [done|].
  unfold reconcilePeers in *. rewrite foldl_snoc, filter_app. fold (reconcilePeers peers r) in *.
  destruct (decide (d = Arrives true true ∧ ID self = id)) as [[-> Hs]|Hn].
  - rewrite filter_cons_True by done. rewrite filter_nil, last_snoc. simpl.
    rewrite Register_lookup, decide_False, decide_True by congruence. eexists. split; [done|].
    by destruct (nodes _ !! ID self); [destruct (StartedAt self =? 0)|].
  - rewrite filter_cons_False by done. rewrite filter_nil, app_nil_r.
    assert (nodes (match peer_info d self with
                   | Some info => (Register now info (reconcilePeers peers r)).2
                   | None => reconcilePeers peers r end) !! id = nodes (reconcilePeers peers r) !! id) as ->; [|done].
    destruct (peer_info d self) as [n|] eqn:E; [|done]. rewrite Register_lookup. destruct (decide (ID n = "")); [done|].
    apply peer_info_reached in E as [-> ->]; [|done]. rewrite decide_False; [done|]. intros He. by apply Hn.
Qed.

(** ** The counters count *)

Definition zero_metrics : Metrics := λ _, 0.

(** What a list of additions contributes to a counter. *)
Definition contribution (c : counter) (l : list (counter * Z)) : Z :=
  foldr Z.add 0 ((λ a, if decide (c = a.1) then a.2 else 0) <$> l).

Lemma contribution_app c l l' : contribution c (l ++ l') = contribution c l + contribution c l'.
Proof. unfold contribution. rewrite fmap_app, foldr_app. induction (_ <$> l); simpl; lia. Qed.

Lemma contribution_perm c l l' : l ≡ₚ l' → contribution c l = contribution c l'.
Proof. unfold contribution. induction 1; csimpl; lia. Qed.

Lemma wrap64_sum a b c d : wrap64 (a + b + c + d) = wrap64 (wrap64 a + wrap64 b + wrap64 c + wrap64 d).
Proof.
  destruct (wrap64_eq a) as [i ->], (wrap64_eq b) as [j ->], (wrap64_eq c) as [k ->], (wrap64_eq d) as [h ->].
  rewrite <- (wrap64_shift _ (i + j + k + h)). f_equal. lia.
Qed.

Lemma wrap64_diff a b : wrap64 (a - b) = wrap64 (wrap64 a - wrap64 b).
Proof.
  destruct (wrap64_eq a) as [i ->], (wrap64_eq b) as [j ->]. rewrite <- (wrap64_shift _ (i - j)). f_equal. lia.
Qed.

Lemma run_adds_exact l c : run_adds zero_metrics l c = wrap64 (contribution c l).
Proof.
  induction l as [|[c' d] l IH] using rev_ind; [done|]. unfold run_adds in *. rewrite foldl_snoc, contribution_app.
  assert (contribution c [(c', d)] = if decide (c = c') then d else 0) as -> by (unfold contribution; simpl; lia).
  unfold add at 1. rewrite IH. simpl. destruct (decide (c = c')); [apply wrap64_add|by rewrite Z.add_0_r].
Qed.

(** What finished calls contribute. *)
Definition calls_adds (calls : list call) : list (counter * Z) := calls ≫= adds.

Lemma contribution_calls c calls : contribution c (calls_adds calls) = foldr Z.add 0 ((λ k, contribution c (adds k)) <$> calls).
Proof.
  unfold calls_adds. induction calls as [|k calls IH]; [done|]. csimpl. by rewrite contribution_app, IH.
Qed.

(** Two combinations of counters that every call leaves balanced. *)
Lemma selections_balance calls :
  contribution roomSelections (calls_adds calls) =
  contribution selLocal (calls_adds calls) + contribution selLeastLoaded (calls_adds calls) +
  contribution selCapacity (calls_adds calls) + contribution selFallback (calls_adds calls).
Proof.
  assert (H : ∀ k, contribution roomSelections (adds k) = contribution selLocal (adds k) +
    contribution selLeastLoaded (adds k) + contribution selCapacity (adds k) + contribution selFallback (adds k)).
  { intros k. destruct k; try reflexivity. unfold contribution. simpl. unfold selected_counter. by repeat case_decide. }
  rewrite !contribution_calls. induction calls as [|k calls IH]; csimpl; [done|]. rewrite H. lia.
Qed.

Lemma sessions_balance calls :
  contribution mediaSessActive (calls_adds calls) =
  contribution mediaSessCreated (calls_adds calls) - contribution mediaSessClosed (calls_adds calls).
Proof.
  assert (H : ∀ k, contribution mediaSessActive (adds k) = contribution mediaSessCreated (adds k) - contribution mediaSessClosed (adds k)).
  { intros k. destruct k; try reflexivity. unfold contribution. simpl. unfold selected_counter. by repeat case_decide. }
  rewrite !contribution_calls. induction calls as [|k calls IH]; csimpl; [done|]. rewrite H. lia.
Qed.

Lemma rooms_split self rooms : rooms_of self rooms + rooms_elsewhere self rooms = Z.of_nat (size rooms).
Proof.
  unfold rooms_of, rooms_elsewhere. rewrite <- length_map_to_list, <- (length_fmap snd). rewrite <- Nat2Z.inj_add. f_equal.
  induction (snd <$> map_to_list rooms) as [|o l IH]; [done|]. destruct (decide (o = self)).
  - rewrite filter_cons_True, filter_cons_False by (done || tauto). simpl. lia.
  - rewrite filter_cons_False, filter_cons_True by done. simpl. lia.
Qed.

Definition Z3 (c : nat * nat * nat) : Z * Z * Z := (Z.of_nat c.1.1, Z.of_nat c.1.2, Z.of_nat c.2).

(** whatever calls were made and however their atomic additions interleaved, a snapshot
    taken once they are done adds up: the selections are the selections by reason, the
    active media sessions are those created and not closed (both as 64-bit integers), the
    rooms split into local and remote ones, and no node is both active and stale. *)
Theorem cluster_snapshot_adds_up cfg media state kind healthy mediaAddr now r rooms located calls l :
  l ≡ₚ calls_adds calls →
  let m := run_adds zero_metrics l in
  let s := MetricsSnapshot cfg media state kind healthy mediaAddr (Z3 (Counts now r)) rooms located m in
  (∀ c, m c = wrap64 (foldr Z.add 0 ((λ k, contribution c (adds k)) <$> calls))) ∧
  sch_RoomSelections (cs_Scheduler s) =
    wrap64 (sch_SelectLocal (cs_Scheduler s) + sch_SelectLeastLoaded (cs_Scheduler s) +
            sch_SelectCapacity (cs_Scheduler s) + sch_SelectFallback (cs_Scheduler s)) ∧
  med_SessionsActive (cs_Media s) = wrap64 (med_SessionsCreated (cs_Media s) - med_SessionsClosed (cs_Media s)) ∧
  cs_RoomsLocal s + cs_RoomsRemote s = cs_Rooms s ∧
  cs_NodesActive s + cs_NodesStale s ≤ cs_Nodes s.
Proof.
  intros Hl m s.
  assert (Hm : ∀ c, m c = wrap64 (contribution c (calls_adds calls))).
  { intros c. unfold m. by rewrite run_adds_exact, (contribution_perm c _ _ Hl). }
  destruct (Counts_sum now r) as [Ht Hc]. split_and!.
  - intros c. by rewrite Hm, contribution_calls.
  - simpl. rewrite !Hm, selections_balance. apply wrap64_sum.
  - simpl. rewrite !Hm, sessions_balance. apply wrap64_diff.
  - apply rooms_split.
  - simpl. lia.
Qed.

(** The receiver test of [addIf] never helps: on a nil pointer exactly the two methods that
    test it themselves return; every other call panics. *)
Lemma nil_metrics_panics c :
  exec None c = None ↔ (∀ d, c ≠ observeTransportLatency d) ∧ c ≠ mediaRemoteTrackDel.
Proof.
  split.
  - intros H. split; [intros d|]; by intros ->.
  - intros [H1 H2]. destruct c; try done; by destruct (H1 d).
Qed.

(** Forgetting twice leaves the store as forgetting once, but counts twice. *)
Lemma forget_counts_again id p :
  (ForgetParticipant id (ForgetParticipant id (p, zero_metrics))).1 = (ForgetParticipant id (p, zero_metrics)).1 ∧
  (ForgetParticipant id (ForgetParticipant id (p, zero_metrics))).2 participantRem = 2.
Proof. split; [apply delete_delete_eq|reflexivity]. Qed.

(** ** Concrete runs *)

Definition demo_cfg : Config :=
  mkConfig true "a" "h" 1 "v" "s" ["b"; "c"] 1 5 1 0 0 0 0 (mkCapacity 0 0 0 (f_of_Z 0) (f_of_Z 0)) 1 1 1 false
    (mkRedis false false 0 0 0 0).

Definition demo_peer : ParticipantLocator := {["p" := mkLoc "p" "room" "c"]}.

Lemma locate_exact_witness :
  LocateParticipant demo_cfg "p" ∅ [(Lost, demo_peer); (Arrives true false, demo_peer); (Arrives true true, demo_peer)]
    = Some (mkLoc "p" "room" "c") ∧
  ∃ q : ParticipantLocator, q !! "p" = Some (mkLoc "p" "room" "c").
Proof.
  assert (Hf : filed demo_peer).
  { intros id loc L. unfold demo_peer in L. apply lookup_singleton_Some in L as [<- <-]. done. }
  pose proof (locate_exact demo_cfg "p" ∅ [(Lost, demo_peer); (Arrives true false, demo_peer); (Arrives true true, demo_peer)]
    eq_refl ltac:(done) ltac:(repeat constructor; exact Hf)) as H.
  split; [vm_compute; reflexivity|].
  destruct (LocateParticipant demo_cfg "p" ∅ _) as [loc|] eqn:E in H; [|destruct H as [_ H]; exfalso].
  - assert (loc = mkLoc "p" "room" "c") as -> by (vm_compute in E; congruence).
    destruct H as [H|(_ & q & _ & H)]; [by rewrite lookup_empty in H|by exists q].
  - vm_compute in E. done.
Defined.

Lemma broadcast_exact_witness :
  let p : ParticipantLocator := <["p" := mkLoc "p" "room" "c"]> (<["q" := mkLoc "q" "room" "c"]> {["r" := mkLoc "r" "room" "a"]}) in
  BroadcastRoomEvent demo_cfg true (InRoom "room" p) = ["c"] ∧ NoDup (BroadcastRoomEvent demo_cfg true (InRoom "room" p)).
Proof.
  intros p. split; [vm_compute; reflexivity|].
  apply (broadcast_exact demo_cfg "room" p (InRoom "room" p) eq_refl). reflexivity.
Defined.

Lemma cluster_snapshot_witness :
  let calls := [mediaSessionCreated; roomSelected "assigned"; mediaSessionCreated; roomSelected "none"; mediaSessionClosed] in
  let s := MetricsSnapshot demo_cfg (mkMediaConfig true "" 0 "" 0 0 0 0 0) NodeActive "memory" true ""
             (Z3 (Counts 0 (NewInMemoryNodeRegistry 1))) {["room" := "c"]} 0 (run_adds zero_metrics (reverse (calls_adds calls))) in
  med_SessionsActive (cs_Media s) = 1 ∧ sch_RoomSelections (cs_Scheduler s) = 2 ∧ cs_RoomsLocal s + cs_RoomsRemote s = cs_Rooms s.
Proof.
  intros calls s. split; [vm_compute; reflexivity|]. split; [vm_compute; reflexivity|].
  eapply (cluster_snapshot_adds_up demo_cfg (mkMediaConfig true "" 0 "" 0 0 0 0 0) NodeActive "memory" true "" 0
    (NewInMemoryNodeRegistry 1) {["room" := "c"]} 0 calls (reverse (calls_adds calls))). apply reverse_Permutation.
Defined.

Lemma reconcile_exact_witness :
  let n := mkNodeInfo "b" "h" 7 "v" NodeReady 3 0 "" in
  ∃ m, nodes (reconcilePeers [(Arrives true true, n, 9); (Lost, n, 10)] (NewInMemoryNodeRegistry 5)) !! "b" = Some m ∧
    LastSeen m = 9 ∧ State m = NodeReady.
Proof.
  intros n. pose proof (reconcile_exact [(Arrives true true, n, 9); (Lost, n, 10)] (NewInMemoryNodeRegistry 5) "b") as H.
  simpl in H. destruct H as (m & H1 & H2 & H3 & _); [done|].
  by exists m.
Defined.
