(* ===== verification/ClusterHttp.v ===== *)
(** * The cluster's HTTP surface (internal/cluster: noderpc_http, internalauth)

    Readiness, which is public, and the /internal endpoints between nodes behind the
    cluster credential.  What an endpoint answers is read from the state the other
    components keep, gathered here in one record; the receiving end of a message is the
    handler of Messaging, given as a function from the message to its error. *)

From S2P Require Import Prelude Bytes GoStrings GoFloat ClusterTypes Registry RoomLocator LoadStore RoomRouter Cluster.
From S2P Require Import Lifecycle Messaging Recovery Auth ClusterFacade.

(** src/internal/cluster/cluster.go:19-59 [Cluster]  What the endpoints read.  The load
    store is [None] when its backend fails; a node without a recovery manager has no
    count of rooms in recovery. *)
Record node_view := mkView {
  nv_cfg : Config; nv_media : MediaConfig; nv_kind : string; nv_mediaAddr : string; nv_life : life;
  nv_rooms : InMemoryRoomLocator; nv_participants : ParticipantLocator; nv_loads : option LoadStore;
  nv_detector : option failureDetector; nv_recovery : option Z; nv_metrics : Metrics
}.

(** The same with other counters. *)
Definition set_metrics (m : Metrics) (v : node_view) : node_view :=
  mkView (nv_cfg v) (nv_media v) (nv_kind v) (nv_mediaAddr v) (nv_life v) (nv_rooms v) (nv_participants v) (nv_loads v)
    (nv_detector v) (nv_recovery v) m.

(** The bodies of the answers. *)
Inductive internal_body :=
| BError (code : string)
| BNode (n : NodeInfo)
| BNodes (l : list NodeInfo)
| BRoom (r : http_reply)
| BParticipant (loc : option ParticipantLocation)
| BLoad (nodeId : string) (l : list NodeLoad)
| BFailures (nodeId : string) (known : bool) (l : list NodeFailure)
| BRecovery (active : bool) (inProgress : Z) (m : RecoveryMetrics)
| BReady (ready : bool) (nodeId : string) (state : NodeState)
| BNothing.

Record internal_answer := mkIA { ia_status : Z; ia_body : internal_body }.

(** ** Handlers *)

(** src/internal/cluster/cluster.go:384-391 [Self] *)
Definition Self (v : node_view) : NodeInfo := currentSelf (nv_life v).

(** src/internal/cluster/noderpc_http.go:44-56 [handleInternalFailures] *)
Definition handleInternalFailures (v : node_view) : internal_answer :=
  mkIA 200 (BFailures (cfg_NodeID (nv_cfg v))
              (match nv_detector v with Some d => backendKnwn d | None => true end)
              (match nv_detector v with Some d => Failures d | None => [] end)).

(** src/internal/cluster/cluster.go:755-860 [MetricsSnapshot]  Its inputs read from the
    stores. *)
Definition snapshot_of (now : Z) (v : node_view) : Snapshot :=
  let '(total, active, stale) := Counts now (l_reg (nv_life v)) in
  MetricsSnapshot (nv_cfg v) (nv_media v) (l_state (nv_life v)) (nv_kind v) (l_healthy (nv_life v)) (nv_mediaAddr v)
    (Z.of_nat total, Z.of_nat active, Z.of_nat stale) (mem_All (nv_rooms v))
    (Z.of_nat (CountByNode (cfg_NodeID (nv_cfg v)) (nv_participants v))) (nv_metrics v).

(** src/internal/cluster/noderpc_http.go:58-75 [handleInternalRecovery] *)
Definition handleInternalRecovery (now : Z) (v : node_view) : internal_answer :=
  mkIA 200 (BRecovery (negb (RecoveryDisabled (nv_cfg v)) && bool_decide (is_Some (nv_recovery v)))
              (default 0 (nv_recovery v)) (cs_Recovery (snapshot_of now v))).

(** src/internal/cluster/noderpc_http.go:77-84 [handleInternalLoad] *)
Definition handleInternalLoad (now : Z) (v : node_view) : internal_answer :=
  match nv_loads v with
  | None => mkIA 503 (BError CodeClusterStateUnavailable)
  | Some s => mkIA 200 (BLoad (cfg_NodeID (nv_cfg v)) (LoadSnapshot now s))
  end.

(** The body of a message post: over the limit, not a message, or one. *)
Inductive posted := TooLarge | Malformed | Decoded (m : ClusterMessage).

(** src/internal/cluster/noderpc_http.go:90-137 [handleClusterMessage]  [handle]: the
    error of the message handler. *)
Definition handleMessagePost (v : node_view) (method : string) (body : posted) (handle : ClusterMessage → option Error)
    : internal_answer * node_view :=
  let count c := set_metrics (run_adds (nv_metrics v) (adds c)) v in
  if negb (bool_decide (method = "POST")) then (mkIA 405 (BError CodeBadRequest), v)
  else match body with
  | TooLarge => (mkIA 413 (BError CodeClusterMessageTooLarge), count msgRejected)
  | Malformed => (mkIA 400 (BError CodeClusterMessageInvalid), count msgInvalid)
  | Decoded msg =>
      if bool_decide (TargetNodeID msg ≠ "" ∧ TargetNodeID msg ≠ cfg_NodeID (nv_cfg v))
      then (mkIA 409 (BError CodeClusterTargetMismatch), count msgRejected)
      else match handle (with_target (cfg_NodeID (nv_cfg v)) msg) with
           | None => (mkIA 204 BNothing, v)
           | Some e => (mkIA (HTTPStatus e) (BError (Code e)), v)
           end
  end.

(** src/internal/cluster/noderpc_http.go:139-149 [handleReady] *)
Definition handleReady (v : node_view) : internal_answer :=
  let ready := Ready (nv_cfg v) (nv_life v) in
  mkIA (if ready then 200 else 503) (BReady ready (cfg_NodeID (nv_cfg v)) (l_state (nv_life v))).

(** src/internal/cluster/noderpc_http.go:151-157 [handleInternalNode, handleInternalNodes] *)
Definition handleInternalNode (v : node_view) : internal_answer := mkIA 200 (BNode (Self v)).
Definition handleInternalNodes (v : node_view) : internal_answer := mkIA 200 (BNodes (List (l_reg (nv_life v)))).

(** ** The guard *)

(** src/internal/cluster/noderpc_http.go:31-41 [RegisterRoutes]  The endpoints behind
    the guard. *)
Inductive endpoint := ENode | ENodes | ERoom | EParticipant | EMessages | ELoad | EFailures | ERecovery.

(** What an endpoint reads of a request: method, URL path, Authorization header, and
    the body of a message. *)
Record internal_request := mkIR {
  ir_method : string; ir_path : list byte; ir_Authorization : list byte; ir_body : posted
}.

(** [strings.TrimPrefix] *)
Definition trim_prefix (p : string) (l : list byte) : string := string_of (default l (strip_prefix (bytes_of p) l)).

(** The handler of an endpoint. *)
Definition run_endpoint (now : Z) (handle : ClusterMessage → option Error) (e : endpoint) (r : internal_request) (v : node_view)
    : internal_answer * node_view :=
  match e with
  | ENode => (handleInternalNode v, v)
  | ENodes => (handleInternalNodes v, v)
  | ERoom =>
      let reply := handleInternalRoom (trim_prefix "/internal/rooms/" (ir_path r)) (nv_rooms v) in
      (mkIA (Cluster.status reply) (BRoom reply), v)
  | EParticipant =>
      let reply := handleInternalParticipant (trim_prefix "/internal/participants/" (ir_path r)) (nv_participants v) in
      (mkIA (r_status reply) (BParticipant (r_body reply)), v)
  | EMessages => handleMessagePost v (ir_method r) (ir_body r) handle
  | ELoad => (handleInternalLoad now v, v)
  | EFailures => (handleInternalFailures v, v)
  | ERecovery => (handleInternalRecovery now v, v)
  end.

(** src/internal/cluster/noderpc_http.go:22-42 [RegisterRoutes]  An endpoint behind the
    guard. *)
Definition serve_internal (now : Z) (handle : ClusterMessage → option Error) (e : endpoint) (r : internal_request)
    (v : node_view) : internal_answer * node_view :=
  if negb (Enabled (nv_cfg v)) then (mkIA 404 (BError "cluster disabled"), v)
  else if negb (InternalAuthMiddleware (ir_Authorization r) (Secret (nv_cfg v)))
  then (mkIA 401 (BError CodeClusterUnauthorized), v)
  else run_endpoint now handle e r v.

(** ** What the surface gives away *)

(** A caller without the cluster secret. *)
Definition outsider (r : internal_request) (cfg : Config) : bool :=
  negb (Enabled cfg && InternalAuthMiddleware (ir_Authorization r) (Secret cfg)).

(** To a caller without the secret the internal endpoints are opaque and inert: the
    answer depends on nothing but the configuration, and nothing changes. *)
Lemma internal_opaque now handle e r v :
  outsider r (nv_cfg v) = true →
  serve_internal now handle e r v
  = (if Enabled (nv_cfg v) then mkIA 401 (BError CodeClusterUnauthorized) else mkIA 404 (BError "cluster disabled"), v).
Proof.
  unfold outsider, serve_internal. destruct (Enabled (nv_cfg v)); [|done]. simpl.
  by destruct (InternalAuthMiddleware _ _).
Qed.

(** The endpoints that only report change nothing at all. *)
Lemma reports_inert now handle e r v : e ≠ EMessages → (serve_internal now handle e r v).2 = v.
Proof. intros He. unfold serve_internal. repeat case_match; try done. by destruct e. Qed.

(** What a peer that has the secret learns about a room is what its own query of the
    node returns: the endpoint and the client of Cluster agree. *)
Lemma room_endpoint_agrees now handle roomID r v :
  outsider r (nv_cfg v) = false → roomID ≠ "" → ir_path r = bytes_of ("/internal/rooms/" +:+ roomID) →
  ∃ reply, serve_internal now handle ERoom r v = (mkIA (Cluster.status reply) (BRoom reply), v)
    ∧ RoomOwner (Arrives true true) roomID (nv_rooms v)
      = Some (match GetOwner roomID (nv_rooms v) with
              | Some o => if bool_decide (o = "") then None else Some o
              | None => None
              end)
    ∧ reply = handleInternalRoom roomID (nv_rooms v).
Proof.
  intros Ho Hne Hp. unfold outsider in Ho. apply negb_false_iff, andb_prop in Ho as [He Ha].
  exists (handleInternalRoom roomID (nv_rooms v)). unfold serve_internal. rewrite He, Ha. simpl.
  unfold trim_prefix. rewrite Hp, bytes_of_app, strip_prefix_app. simpl. rewrite string_of_bytes_of. split; [done|].
  split; [|done]. unfold RoomOwner, http_get, guard, handleInternalRoom. simpl. rewrite bool_decide_false by done.
  destruct (mem_GetOwner roomID (nv_rooms v)) as [o|]; [|reflexivity]. cbn. by case_bool_decide.
Qed.
