(* ===== verification/Prometheus.v ===== *)
(** * The Prometheus exposition (internal/metrics/prometheus.go,
      internal/signaling/metrics_prom.go)

    The text a scraper reads: names, labels, values, histograms, and the walk that
    turns the snapshots of the components into gauges.  Text is a list of bytes; what
    the encoder writes is its output.  The shortest decimal that reads back as a given
    float, which [strconv.FormatFloat] prints, is computed exactly. *)

From S2P Require Import Prelude Bytes GoStrings GoFloat GoParse Sfu SfuInvariant SfuSteps SfuSafety SfuStats.

(** ** strconv.FormatFloat with format 'g' and the shortest precision *)

Definition digits10 (n : Z) : Z := Z.of_nat (String.length (fmt_int n)).

(** The float nearest to [d * 10^k]. *)
Definition dec_float (d k : Z) : float64 :=
  if 0 <=? k then f_of_Z (d * 10 ^ k)
  else f_div (S754_finite false (Z.to_pos d) 0) (S754_finite false (Z.to_pos (10 ^ (- k))) 0).

(** The decimal with digits down to [10^k] that reads back as [x = num / den], the
    nearer one when there are two. *)
Definition decimal_at (x : float64) (num den k : Z) : option Z :=
  let '(n, d) := if 0 <=? k then (num, den * 10 ^ k) else (num * 10 ^ (- k), den) in
  let lo := n / d in
  let r := n mod d in
  let ok c := (0 <? c) && f_eq (dec_float c k) x in
  if ok lo then
    if negb (r =? 0) && ok (lo + 1) && ((d <? 2 * r) || ((2 * r =? d) && Z.odd lo)) then Some (lo + 1) else Some lo
  else if negb (r =? 0) && ok (lo + 1) then Some (lo + 1)
  else None.

(** The fewest digits, from [n] up. *)
Fixpoint shortest_from (fuel : nat) (x : float64) (num den dp n : Z) : Z * Z :=
  match fuel with
  | O => (num / den, 0)
  | S fuel =>
      match decimal_at x num den (dp - n) with
      | Some d => (d, dp - n)
      | None => shortest_from fuel x num den dp (n + 1)
      end
  end.

(** [num / den] in [[10^(dp-1), 10^dp)]. *)
Definition decimal_point (num den : Z) : Z :=
  let k := digits10 num - digits10 den in
  if (if 0 <=? k then den * 10 ^ k <=? num else den <=? num * 10 ^ (- k)) then k + 1 else k.

(** Digits and decimal point of a positive finite float; seventeen digits are always
    enough. *)
Definition shortest (m : positive) (e : Z) : list byte * Z :=
  let '(num, den) := if 0 <=? e then (Z.pos m * 2 ^ e, 1) else (Z.pos m, 2 ^ (- e)) in
  let '(d, k) := shortest_from 17 (S754_finite false m e) num den (decimal_point num den) 1 in
  let ds := bytes_of (fmt_int d) in
  (TrimRight x30 ds, Z.of_nat (length ds) + k).

Definition fmtE (ds : list byte) (dp : Z) : list byte :=
  let ex := dp - 1 in
  let a := bytes_of (fmt_int (Z.abs ex)) in
  match ds with
  | [] => [x30]
  | d :: rest => d :: (match rest with [] => [] | _ => x2e :: rest end)
                 ++ [x65; if ex <? 0 then x2d else x2b] ++ (if Z.abs ex <? 10 then x30 :: a else a)
  end.

Definition fmtF (ds : list byte) (dp : Z) : list byte :=
  let n := Z.of_nat (length ds) in
  (if 0 <? dp then take (Z.to_nat dp) ds ++ replicate (Z.to_nat (dp - n)) x30 else [x30])
  ++ (if 0 <? n - dp
      then x2e :: replicate (Z.to_nat (- dp)) x30 ++ drop (Z.to_nat dp) ds
      else []).

Definition FormatFloat (x : float64) : list byte :=
  match x with
  | S754_nan => bytes_of "NaN"
  | S754_infinity false => bytes_of "+Inf"
  | S754_infinity true => bytes_of "-Inf"
  | S754_zero false => [x30]
  | S754_zero true => [x2d; x30]
  | S754_finite s m e =>
      let '(ds, dp) := shortest m e in
      (if s then [x2d] else []) ++ (if (dp - 1 <? -4) || (6 <=? dp - 1) then fmtE ds dp else fmtF ds dp)
  end.

Example formatted :
  (string_of ∘ FormatFloat <$>
    [f_of_Z 0; f_of_Z 1; f_of_Z (-3); f_of_Z 123456; f_of_Z 1234567; f_of_Z 1000000; f_div (f_of_Z 5) (f_of_Z 1000);
     f_div (f_of_Z 1) (f_of_Z 3); f_div (f_of_Z 1) (f_of_Z 100000); f_div (f_of_Z 25) (f_of_Z 10);
     f_scale 1 1023; f_scale 1 (-1074); f_of_Z (2 ^ 53 + 2); f_scale 9007199254740991 971]) =
  ["0"; "1"; "-3"; "123456"; "1.234567e+06"; "1e+06"; "0.005"; "0.3333333333333333"; "1e-05"; "2.5";
   "8.98846567431158e+307"; "5e-324"; "9.007199254740994e+15"; "1.7976931348623157e+308"].
Proof. vm_compute. reflexivity. Qed.

(** ** Runes of a string *)

(** A rune of a [range] over a string: its valid encoding, or U+FFFD for a byte that
    starts none. *)
Inductive rune := Rune (enc : list byte) | RuneError.

Definition between (lo hi : Z) (c : byte) : bool := (lo <=? Z_of_byte c) && (Z_of_byte c <=? hi).
Definition cont : byte → bool := between 128 191.

Definition valid2 (a b : byte) : bool := between 194 223 a && cont b.
Definition valid3 (a b c : byte) : bool :=
  ((between 224 224 a && between 160 191 b) || (between 225 236 a && cont b)
   || (between 237 237 a && between 128 159 b) || (between 238 239 a && cont b)) && cont c.
Definition valid4 (a b c d : byte) : bool :=
  ((between 240 240 a && between 144 191 b) || (between 241 243 a && cont b)
   || (between 244 244 a && between 128 143 b)) && cont c && cont d.

Fixpoint runes (l : list byte) : list rune :=
  match l with
  | [] => []
  | a :: l1 =>
      if Z_of_byte a <? 128 then Rune [a] :: runes l1
      else match l1 with
           | [] => [RuneError]
           | b :: l2 =>
               if valid2 a b then Rune [a; b] :: runes l2
               else match l2 with
                    | [] => RuneError :: runes l1
                    | c :: l3 =>
                        if valid3 a b c then Rune [a; b; c] :: runes l3
                        else match l3 with
                             | [] => RuneError :: runes l1
                             | d :: l4 =>
                                 if valid4 a b c d then Rune [a; b; c; d] :: runes l4 else RuneError :: runes l1
                             end
                    end
           end
  end.

(** [Builder.WriteRune] *)
Definition WriteRune (r : rune) : list byte := match r with Rune enc => enc | RuneError => [xef; xbf; xbd] end.

(** ** Names and labels *)

Definition name_start (c : byte) : bool :=
  between 97 122 c || between 65 90 c || bool_decide (c = x5f) || bool_decide (c = x3a).

(** src/internal/metrics/prometheus.go:29-41 [sanitizeName: loop] *)
Definition sanitize_rune (first : bool) (r : rune) : list byte :=
  match r with
  | Rune [c] =>
      if name_start c then [c]
      else if is_digit c then (if first then [x5f; c] else [c])
      else [x5f]
  | _ => [x5f]
  end.

(** src/internal/metrics/prometheus.go:23-43 [sanitizeName] *)
Definition sanitizeName (s : list byte) : list byte :=
  match runes s with
  | [] => [x5f]
  | r :: rs => sanitize_rune true r ++ (rs ≫= sanitize_rune false)
  end.

(** src/internal/metrics/prometheus.go:96-98 [escape]  The replacer works byte by byte,
    in one pass. *)
Definition escape_byte (c : byte) : list byte :=
  if decide (c = x5c) then [x5c; x5c]
  else if decide (c = x22) then [x5c; x22]
  else if decide (c = x0a) then [x5c; x6e]
  else [c].
Definition escape (s : list byte) : list byte := s ≫= escape_byte.

(** ** The encoder *)

(** What a call writes: the two header lines of a name, or a sample line. *)
Inductive line :=
| HeaderLines (name help typ : list byte)
| SampleLine (name : list byte) (labels : list (list byte * list byte)) (value : float64).

(** src/internal/metrics/prometheus.go:12-17 [Encoder]  The names whose header was
    written; what is written is the output. *)
Abbreviation EM := (M (@gset (list byte) list_eq_dec list_countable) line).

(** src/internal/metrics/prometheus.go:45-52 [header] *)
Definition header (name help typ : list byte) : EM unit :=
  seen ← get;
  let name := sanitizeName name in
  if decide (name ∈ seen) then mret tt
  else
    modify (λ s, {[name]} ∪ s);;
    emit (HeaderLines name help typ).

(** src/internal/metrics/prometheus.go:56-65 [sample: labels]  The labels come in pairs;
    an odd last one is ignored. *)
Fixpoint label_pairs (l : list (list byte)) : list (list byte * list byte) :=
  match l with n :: v :: r => (n, v) :: label_pairs r | _ => [] end.
Definition label_text (p : list byte * list byte) : list byte := p.1 ++ x3d :: x22 :: escape p.2 ++ [x22].
Definition labels_text (ps : list (list byte * list byte)) : list byte :=
  match ps with [] => [] | _ => x7b :: join_on x2c (label_text <$> ps) ++ [x7d] end.

(** src/internal/metrics/prometheus.go:45-67 [header, sample]  The text. *)
Definition render (l : line) : list byte :=
  match l with
  | HeaderLines name help typ =>
      bytes_of "# HELP " ++ name ++ x20 :: help ++ x0a :: bytes_of "# TYPE " ++ name ++ x20 :: typ ++ [x0a]
  | SampleLine name labels value => name ++ labels_text labels ++ x20 :: FormatFloat value ++ [x0a]
  end.

(** src/internal/metrics/prometheus.go:54-67 [sample] *)
Definition sample (name : list byte) (value : float64) (labels : list (list byte)) : EM unit :=
  emit (SampleLine (sanitizeName name) (label_pairs labels) value).

(** src/internal/metrics/prometheus.go:69-72 [Gauge] *)
Definition Gauge (name help : list byte) (value : float64) (labels : list (list byte)) : EM unit :=
  header name help (bytes_of "gauge");;
  sample name value labels.

(** src/internal/metrics/prometheus.go:74-77 [Counter] *)
Definition Counter (name help : list byte) (value : float64) (labels : list (list byte)) : EM unit :=
  header name help (bytes_of "counter");;
  sample name value labels.

(** src/internal/metrics/prometheus.go:85-89 [Histogram: buckets] *)
Fixpoint bucket_samples (name : list byte) (labels : list (list byte)) (cumulative : Z) (l : list (float64 * Z)) : EM unit :=
  match l with
  | [] => mret tt
  | (b, c) :: l =>
      let cumulative := u64 (cumulative + c) in
      sample (name ++ bytes_of "_bucket") (f_of_Z cumulative) (labels ++ [bytes_of "le"; FormatFloat b]);;
      bucket_samples name labels cumulative l
  end.

(** src/internal/metrics/prometheus.go:79-94 [Histogram] *)
Definition Histogram (name help : list byte) (buckets : list float64) (cs : list Z) (sum : float64) (count : Z)
    (labels : list (list byte)) : EM unit :=
  header name help (bytes_of "histogram");;
  let name := sanitizeName name in
  when (length cs =? length buckets)%nat
    (bucket_samples name labels 0 (zip buckets cs);;
     sample (name ++ bytes_of "_bucket") (f_of_Z count) (labels ++ [bytes_of "le"; bytes_of "+Inf"]));;
  sample (name ++ bytes_of "_sum") sum labels;;
  sample (name ++ bytes_of "_count") (f_of_Z count) labels.

(** ** The scrape *)

(** src/internal/signaling/metrics_prom.go:95-108 [snake] *)
Definition snake (s : list byte) : list byte :=
  match runes s with
  | [] => []
  | rs => mjoin (imap (λ i r,
      match r with
      | Rune [c] => if between 65 90 c then (if (0 <? i)%nat then [x5f] else []) ++ [byte_of_Z (Z_of_byte c + 32)] else [c]
      | _ => WriteRune r
      end) rs)
  end.

(** A snapshot as [encoding/json] hands it back: the members of an object come in any
    order. *)
Inductive json :=
| JNum (x : float64)
| JBool (b : bool)
| JObj (members : list (list byte * json))
| JOther.

(** src/internal/signaling/metrics_prom.go:72-92 [walkSnapshot] *)
Fixpoint walkSnapshot (prefix : list byte) (j : json) : EM unit :=
  match j with
  | JObj members =>
      (fix go (l : list (list byte * json)) : EM unit :=
         match l with
         | [] => mret tt
         | (key, val) :: l =>
             let name := prefix ++ x5f :: snake key in
             match val with
             | JNum x => Gauge name key x []
             | JBool b => Gauge name key (if b then f_of_Z 1 else f_of_Z 0) []
             | JObj _ => walkSnapshot name val
             | JOther => mret tt
             end;;
             go l
         end) members
  | _ => mret tt
  end.

(** src/internal/signaling/metrics_prom.go:60-70 [writeGenericSnapshot]  [None]: the value
    does not survive the round trip through JSON. *)
Definition writeGenericSnapshot (prefix : string) (v : option json) : EM unit :=
  match v with Some j => walkSnapshot (bytes_of prefix) j | None => mret tt end.

(** src/internal/signaling/metrics.go:31-40 [runtimeMetrics]  The values the scrape
    prints. *)
Record runtimeMetrics := mkRuntime {
  Goroutines : Z; HeapAllocBytes : Z; HeapSysBytes : Z; NumGC : Z; GoCPUSeconds : float64
}.

(** src/internal/signaling/metrics_prom.go:13-55 [writePrometheus]  [uptime]: since the
    start; the snapshots of the other components come as JSON. *)
Definition writePrometheus (go goos goarch : string) (uptime : Z) (rt : runtimeMetrics) (m : MetricsSnapshot)
    (auth cluster session history : option json) : EM unit :=
  let gauge n h v := Gauge (bytes_of n) (bytes_of h) v [] in
  let counter n h v := Counter (bytes_of n) (bytes_of h) v [] in
  Gauge (bytes_of "pulsertc_build_info") (bytes_of "Build/runtime info; always 1.") (f_of_Z 1)
    (bytes_of <$> ["go"; go; "goos"; goos; "goarch"; goarch]);;
  gauge "pulsertc_process_uptime_seconds" "Seconds since start." (Seconds uptime);;
  gauge "pulsertc_process_goroutines" "Live goroutines." (f_of_Z (Goroutines rt));;
  gauge "pulsertc_go_heap_alloc_bytes" "Heap bytes in use." (f_of_Z (HeapAllocBytes rt));;
  gauge "pulsertc_go_heap_sys_bytes" "Heap bytes from the OS." (f_of_Z (HeapSysBytes rt));;
  counter "pulsertc_go_gc_total" "Completed GC cycles." (f_of_Z (NumGC rt));;
  counter "pulsertc_go_cpu_seconds_total" "Go-attributed CPU seconds." (GoCPUSeconds rt);;
  gauge "pulsertc_sfu_rooms" "Active SFU rooms." (f_of_Z (Z.of_nat (Active (Rooms m))));;
  counter "pulsertc_sfu_rooms_created_total" "Rooms created." (f_of_Z (Created (Rooms m)));;
  gauge "pulsertc_sfu_peer_connections" "Active PeerConnections." (f_of_Z (Z.of_nat (Active (PeerConns m))));;
  gauge "pulsertc_sfu_publications" "Active publications." (f_of_Z (Z.of_nat (Active (Publications m))));;
  gauge "pulsertc_sfu_subscriptions" "Active subscriptions." (f_of_Z (Z.of_nat (Active (Subscriptions m))));;
  counter "pulsertc_sfu_subscriptions_removed_total" "Subscriptions removed." (f_of_Z (Removed (Subscriptions m)));;
  counter "pulsertc_sfu_rtp_packets_received_total" "RTP packets received from publishers." (f_of_Z (a_received (RTP m)));;
  counter "pulsertc_sfu_rtp_packets_sent_total" "RTP packets sent to subscribers." (f_of_Z (a_sent (RTP m)));;
  counter "pulsertc_sfu_rtp_bytes_received_total" "RTP bytes received." (f_of_Z (a_bytesIn (RTP m)));;
  counter "pulsertc_sfu_rtp_bytes_sent_total" "RTP bytes sent." (f_of_Z (a_bytesOut (RTP m)));;
  counter "pulsertc_sfu_screen_publications_total" "Screen-share publications created (source=screen)."
    (f_of_Z (ScreenPublicationsTotal m));;
  counter "pulsertc_sfu_negotiations_total" "Negotiations started." (f_of_Z (Started (Negotiations m)));;
  counter "pulsertc_sfu_negotiations_failed_total" "Negotiations failed." (f_of_Z (n_Failed (Negotiations m)));;
  counter "pulsertc_sfu_negotiations_coalesced_total" "Negotiations coalesced by debounce."
    (f_of_Z (Coalesced (Negotiations m)));;
  counter "pulsertc_sfu_subscriber_queue_dropped_audio_total" "Audio packets dropped by a full subscriber queue."
    (f_of_Z (DroppedAudioPackets (SubQueue m)));;
  counter "pulsertc_sfu_subscriber_queue_dropped_video_total" "Video backlog packets dropped by a full subscriber queue."
    (f_of_Z (DroppedVideoPackets (SubQueue m)));;
  counter "pulsertc_sfu_keyframe_resyncs_total" "Keyframe requests triggered by a video queue overflow."
    (f_of_Z (KeyframeResyncs (SubQueue m)));;
  counter "pulsertc_sfu_subscriptions_failed_total" "Subscriptions torn down after a persistent media-transport failure."
    (f_of_Z (q_Failed (SubQueue m)));;
  let h := NegotiationDuration m in
  Histogram (bytes_of "pulsertc_sfu_negotiation_seconds") (bytes_of "SFU-side renegotiation duration.")
    (Bounds h) (Counts h) (SumSeconds h) (Count h) [];;
  writeGenericSnapshot "pulsertc_auth" auth;;
  writeGenericSnapshot "pulsertc_cluster" cluster;;
  writeGenericSnapshot "pulsertc_session" session;;
  writeGenericSnapshot "pulsertc_history" history.

(** ** Names are valid *)

Definition name_char (c : byte) : bool := name_start c || is_digit c.

Definition valid_name (n : list byte) : Prop :=
  match n with c :: r => name_start c = true ∧ Forall (λ c, name_char c = true) r | [] => False end.

Lemma sanitize_rune_chars b r : Forall (λ c, name_char c = true) (sanitize_rune b r).
Proof.
  destruct r as [[|c [|]]|]; simpl; repeat constructor.
  destruct (name_start c) eqn:E1; [repeat constructor; unfold name_char; by rewrite E1|].
  destruct (is_digit c) eqn:E2; [|by repeat constructor].
  assert (name_char c = true) by (unfold name_char; by rewrite E2, orb_true_r).
  destruct b; repeat constructor; done.
Qed.

Lemma sanitizeName_valid s : valid_name (sanitizeName s).
Proof.
  unfold sanitizeName. destruct (runes s) as [|r rs]; [by repeat constructor|].
  assert (Hrs : Forall (λ c, name_char c = true) (rs ≫= sanitize_rune false)).
  { apply Forall_bind, list.Forall_forall. intros x _. apply sanitize_rune_chars. }
  destruct r as [[|c [|]]|]; simpl; try (by split).
  destruct (name_start c) eqn:E1; [by split|]. destruct (is_digit c) eqn:E2; simpl; [|by split].
  split; [done|]. constructor; [unfold name_char; by rewrite E2, orb_true_r|done].
Qed.

Lemma name_char_ascii c : name_char c = true → (Z_of_byte c <? 128) = true.
Proof. by destruct c. Qed.

Lemma runes_name n : Forall (λ c, name_char c = true) n → runes n = (λ c, Rune [c]) <$> n.
Proof.
  induction 1 as [|c n Hc _ IH]; [done|]. cbn [runes]. rewrite (name_char_ascii c Hc), IH. done.
Qed.

(** A valid name is left alone, so sanitizing twice is sanitizing once. *)
Lemma sanitizeName_id n : valid_name n → sanitizeName n = n.
Proof.
  destruct n as [|c n]; [done|]. intros [Hc Hn]. unfold sanitizeName.
  rewrite runes_name by (constructor; [unfold name_char; by rewrite Hc|done]). csimpl. rewrite Hc. simpl. f_equal.
  induction Hn as [|d n Hd _ IH]; csimpl; [done|]. rewrite IH.
  unfold name_char in Hd. destruct (name_start d); [done|]. simpl in Hd. by rewrite Hd.
Qed.

(** ** A scraper reads back what was written *)

Fixpoint take_name (l : list byte) : list byte * list byte :=
  match l with
  | c :: r => if name_char c then let '(n, r') := take_name r in (c :: n, r') else ([], l)
  | [] => ([], [])
  end.

(** Up to the first [sep], which is dropped. *)
Fixpoint until (sep : byte) (l : list byte) : option (list byte * list byte) :=
  match l with
  | c :: r => if decide (c = sep) then Some ([], r) else '(n, r') ← until sep r; Some (c :: n, r')
  | [] => None
  end.

(** A label value, up to its closing quote. *)
Fixpoint unescape (l : list byte) : option (list byte * list byte) :=
  match l with
  | [] => None
  | c :: r =>
      if decide (c = x22) then Some ([], r)
      else if decide (c = x5c) then
        match r with
        | d :: r' =>
            '(v, r'') ← unescape r';
            if decide (d = x6e) then Some (x0a :: v, r'') else Some (d :: v, r'')
        | [] => None
        end
      else '(v, r') ← unescape r; Some (c :: v, r')
  end.

Fixpoint parse_labels (fuel : nat) (l : list byte) : option (list (list byte * list byte) * list byte) :=
  match fuel with
  | O => None
  | S fuel =>
      '(n, l1) ← until x3d l;
      match l1 with
      | q :: l2 =>
          if decide (q = x22) then
            '(v, l3) ← unescape l2;
            match l3 with
            | d :: l4 =>
                if decide (d = x7d) then Some ([(n, v)], l4)
                else '(ps, r) ← parse_labels fuel l4; Some ((n, v) :: ps, r)
            | [] => None
            end
          else None
      | [] => None
      end
  end.

(** A sample: its name, labels and the text of its value. *)
Definition parse_sample (l : list byte) : option (list byte * list (list byte * list byte) * list byte * list byte) :=
  let '(n, l1) := take_name l in
  match l1 with
  | c :: l2 =>
      '(ps, l3) ← (if decide (c = x7b) then parse_labels (length l2) l2 else Some ([], l1));
      match l3 with
      | d :: l4 => if decide (d = x20) then '(v, r) ← until x0a l4; Some (n, ps, v, r) else None
      | [] => None
      end
  | [] => None
  end.

(** The samples of a text; comment lines are skipped. *)
Fixpoint parse_doc (fuel : nat) (l : list byte) : option (list (list byte * list (list byte * list byte) * list byte)) :=
  match l, fuel with
  | [], _ => Some []
  | _, O => None
  | c :: _, S fuel =>
      if decide (c = x23) then '(_, r) ← until x0a l; parse_doc fuel r
      else '(n, ps, v, r) ← parse_sample l; rest ← parse_doc fuel r; Some ((n, ps, v) :: rest)
  end.

Lemma take_name_app n c r :
  Forall (λ c, name_char c = true) n → name_char c = false → take_name (n ++ c :: r) = (n, c :: r).
Proof.
  intros Hn Hc. induction Hn as [|d n Hd _ IH]; simpl; [by rewrite Hc|]. by rewrite Hd, IH.
Qed.

Lemma until_app sep n r : sep ∉ n → until sep (n ++ sep :: r) = Some (n, r).
Proof.
  induction n as [|c n IH]; intros Hn; simpl; [by rewrite decide_True|].
  apply not_elem_of_cons in Hn as [Hc Hn]. rewrite decide_False by congruence. by rewrite IH.
Qed.

Lemma unescape_escape v r : unescape (escape v ++ x22 :: r) = Some (v, r).
Proof.
  induction v as [|c v IH]; [done|]. unfold escape. csimpl. rewrite <- app_assoc. fold (escape v).
  unfold escape_byte. destruct (decide (c = x5c)) as [->|H1].
  { cbn [app unescape]. rewrite decide_False, decide_True by done. rewrite IH. simpl. done. }
  destruct (decide (c = x22)) as [->|H2].
  { cbn [app unescape]. rewrite decide_False, decide_True by done. rewrite IH. simpl. done. }
  destruct (decide (c = x0a)) as [->|H3].
  { cbn [app unescape]. rewrite decide_False, decide_True by done. rewrite IH. simpl. done. }
  cbn [app unescape]. rewrite !decide_False by done. by rewrite IH.
Qed.

Lemma parse_labels_text ps fuel r :
  ps ≠ [] → Forall (λ p, x3d ∉ p.1) ps → (length ps ≤ fuel)%nat →
  parse_labels fuel (join_on x2c (label_text <$> ps) ++ x7d :: r) = Some (ps, r).
Proof.
  revert fuel. induction ps as [|[n v] ps IH]; intros fuel Hne Hps Hf; [done|].
  apply Forall_cons in Hps as [Hn Hps]. simpl in Hn. destruct fuel as [|fuel]; [simpl in Hf; lia|].
  assert (Hhead : ∀ d l, d ≠ x22 → parse_labels (S fuel) (label_text (n, v) ++ d :: l) =
    if decide (d = x7d) then Some ([(n, v)], l) else '(ps, r) ← parse_labels fuel l; Some ((n, v) :: ps, r)).
  { intros d l Hd. cbn [parse_labels]. unfold label_text. cbn [fst snd]. rewrite <- app_assoc. simpl.
    rewrite until_app by done. simpl. rewrite <- app_assoc. simpl. by rewrite unescape_escape. }
  destruct ps as [|p ps].
  - cbn [fmap list_fmap join_on]. by rewrite Hhead.
  - change (join_on x2c (label_text <$> (n, v) :: p :: ps)) with
      (label_text (n, v) ++ x2c :: join_on x2c (label_text <$> p :: ps)).
    rewrite <- app_assoc. simpl app. rewrite Hhead by done. rewrite decide_False by done.
    rewrite IH; [done|done|done|simpl in Hf |- *; lia].
Qed.


(** ** The whole document *)

(** A line that survives: names are valid, help texts have no line break, label names no
    equals sign. *)
Definition line_ok (l : line) : Prop :=
  match l with
  | HeaderLines n h t => valid_name n ∧ (x0a ∉ h) ∧ (x0a ∉ t)
  | SampleLine n ps _ => valid_name n ∧ Forall (λ p, x3d ∉ p.1) ps
  end.

(** What a scraper should see. *)
Definition samples (ls : list line) : list (list byte * list (list byte * list byte) * list byte) :=
  omap (λ l, match l with SampleLine n ps v => Some (n, ps, FormatFloat v) | HeaderLines _ _ _ => None end) ls.

Definition text (ls : list line) : list byte := mjoin (render <$> ls).

Lemma fmt_int_line n : x0a ∉ bytes_of (fmt_int n).
Proof. apply fmt_int_chars. refine (bool_decide_unpack _ _). exact I. Qed.

Lemma drop_while_subseteq c l : drop_while c l ⊆ l.
Proof.
  induction l as [|d l IH]; simpl; [done|]. destruct (decide (d = c)); [|done]. intros x Hx.
  apply list_elem_of_further, IH, Hx.
Qed.

Lemma TrimRight_line c l : x0a ∉ l → x0a ∉ TrimRight c l.
Proof.
  unfold TrimRight. intros Hl Hin. apply Hl. rewrite list_elem_of_In, <- in_rev, <- list_elem_of_In in Hin.
  apply drop_while_subseteq in Hin. by rewrite list_elem_of_In, <- in_rev, <- list_elem_of_In in Hin.
Qed.

Ltac no_break := repeat first
  [ done | apply not_elem_of_nil | apply not_elem_of_cons; split | apply not_elem_of_app; split
  | apply fmt_int_line | apply TrimRight_line | case_match ].

Lemma fmtE_line ds dp : x0a ∉ ds → x0a ∉ fmtE ds dp.
Proof.
  unfold fmtE. destruct ds as [|d rest]; intros H; [no_break|]. apply not_elem_of_cons in H as [Hd Hr]. no_break.
Qed.

Lemma replicate_line n c : c ≠ x0a → x0a ∉ replicate n c.
Proof. intros Hc Hin. apply elem_of_replicate in Hin as [E _]. congruence. Qed.

Lemma fmtF_line ds dp : x0a ∉ ds → x0a ∉ fmtF ds dp.
Proof.
  intros H. assert (∀ k, x0a ∉ take k ds ∧ x0a ∉ drop k ds) as Hk.
  { intros k. rewrite <- (take_drop k ds) in H. by apply not_elem_of_app in H. }
  unfold fmtF. repeat first [by apply Hk | by apply replicate_line | progress no_break].
Qed.

Lemma FormatFloat_line x : x0a ∉ FormatFloat x.
Proof.
  destruct x as [[]|[]| |s m e]; [refine (bool_decide_unpack _ _); vm_compute; exact I..|]. unfold FormatFloat.
  destruct (shortest m e) as [ds dp] eqn:E. assert (x0a ∉ ds) as Hds.
  { revert E. unfold shortest. destruct (0 <=? e); destruct (shortest_from _ _ _ _ _ _) as [d k];
    injection 1 as <- _; apply TrimRight_line, fmt_int_line. }
  apply not_elem_of_app. split; [by destruct s; no_break|]. case_match; [by apply fmtE_line|by apply fmtF_line].
Qed.

Lemma name_chars n : valid_name n → Forall (λ c, name_char c = true) n.
Proof.
  destruct n as [|c n]; [done|]. intros [Hc Hn]. constructor; [unfold name_char; by rewrite Hc|done].
Qed.

Lemma name_line n : valid_name n → x0a ∉ n.
Proof. intros Hn Hin. apply name_chars in Hn. rewrite list.Forall_forall in Hn. by apply Hn in Hin. Qed.

Lemma join_length (ls : list (list byte)) : Forall (λ l, l ≠ []) ls → (length ls ≤ length (join_on x2c ls))%nat.
Proof.
  induction 1 as [|l ls Hl _ IH]; [done|]. destruct ls as [|l' ls].
  - destruct l; [done|simpl; lia].
  - change (join_on x2c (l :: l' :: ls)) with (l ++ x2c :: join_on x2c (l' :: ls)). rewrite length_app. simpl length in *. lia.
Qed.

Lemma parse_sample_render n ps v r :
  line_ok (SampleLine n ps v) →
  parse_sample (render (SampleLine n ps v) ++ r) = Some (n, ps, FormatFloat v, r).
Proof.
  intros [Hn Hps]. apply name_chars in Hn. cbn [render].
  assert (Hv : ∀ q, match (x20 :: FormatFloat v ++ [x0a]) ++ r with
    | d :: l4 => if decide (d = x20) then '(v, r) ← until x0a l4; Some (n, q : list (list byte * list byte), v, r) else None
    | [] => None end = Some (n, q, FormatFloat v, r)).
  { intros q. simpl. rewrite <- app_assoc. simpl. by rewrite until_app by apply FormatFloat_line. }
  rewrite <- !app_assoc. unfold parse_sample. destruct ps as [|p ps].
  - cbn [labels_text app]. rewrite take_name_app by done. rewrite decide_False by done. apply Hv.
  - unfold labels_text. cbn [app]. rewrite take_name_app by done. rewrite decide_True by done.
    rewrite <- app_assoc. cbn [app]. rewrite parse_labels_text; [apply Hv|done|done|].
    rewrite length_app. etrans; [|apply Nat.le_add_r]. etrans; [|apply join_length].
    + by rewrite length_fmap.
    + apply Forall_fmap, list.Forall_forall. intros [a b] _ H. by destruct a.
Qed.

Lemma parse_header fuel n h t r :
  line_ok (HeaderLines n h t) →
  parse_doc (S (S fuel)) (render (HeaderLines n h t) ++ r) = parse_doc fuel r.
Proof.
  intros (Hn & Hh & Ht). apply name_line in Hn. set (a := bytes_of "# HELP " ++ n ++ x20 :: h).
  set (b := bytes_of "# TYPE " ++ n ++ x20 :: t).
  assert (render (HeaderLines n h t) ++ r = a ++ x0a :: b ++ x0a :: r) as ->.
  { unfold render, a, b. repeat (rewrite <- app_assoc; simpl app). done. }
  assert (Hstep : ∀ l p f q, l = x23 :: p → x0a ∉ l → parse_doc (S f) (l ++ x0a :: q) = parse_doc f q).
  { intros l p f q -> Hl. assert (Hu := until_app x0a _ q Hl). cbn [app] in *. cbn [parse_doc]. by rewrite Hu. }
  assert (Ha : x0a ∉ a) by (unfold a; repeat (apply not_elem_of_app; split); [refine (bool_decide_unpack _ _); vm_compute; exact I|done|by apply not_elem_of_cons]).
  assert (Hb : x0a ∉ b) by (unfold b; repeat (apply not_elem_of_app; split); [refine (bool_decide_unpack _ _); vm_compute; exact I|done|by apply not_elem_of_cons]).
  erewrite Hstep; [|reflexivity|done]. by erewrite Hstep; [|reflexivity|done].
Qed.

(** Whatever lines are written, a scraper reads back exactly their samples. *)
Lemma parse_text ls fuel :
  Forall line_ok ls → (length (text ls) ≤ fuel)%nat → parse_doc fuel (text ls) = Some (samples ls).
Proof.
  intros Hls. revert fuel. induction Hls as [|l ls Hl Hls IH]; intros fuel Hf; [by destruct fuel|].
  unfold text in *. csimpl in *. rewrite length_app in Hf. destruct l as [n h t|n ps v].
  - assert (2 ≤ length (render (HeaderLines n h t)))%nat by (simpl; lia).
    destruct fuel as [|[|fuel]]; [lia|lia|]. rewrite parse_header by done. apply IH. lia.
  - pose proof (parse_sample_render n ps v (mjoin (render <$> ls)) Hl) as Hp. destruct Hl as [Hn Hps].
    destruct n as [|c n]; [done|]. assert (c ≠ x23) by (destruct Hn as [Hc _]; intros ->; done).
    assert (1 ≤ length (render (SampleLine (c :: n) ps v)))%nat by (simpl; lia).
    destruct fuel as [|fuel]; [lia|]. cbn [render app] in Hp |- *. cbn [parse_doc]. rewrite decide_False by done.
    rewrite Hp. cbn [mbind option_bind]. rewrite IH by lia. done.
Qed.

(** ** What the encoder's calls write *)

Lemma emits_header name help typ : x0a ∉ help → x0a ∉ typ → emits_only line_ok (header name help typ).
Proof.
  intros Hh Ht. unfold header. apply emits_only_bind; [apply emits_only_get|intros seen].
  case_match; [apply emits_only_ret|]. apply emits_only_bind; [apply emits_only_modify|intros _].
  apply emits_only_emit. split_and!; [apply sanitizeName_valid|done|done].
Qed.

Lemma emits_sample name v labels :
  Forall (λ p, x3d ∉ p.1) (label_pairs labels) → emits_only line_ok (sample name v labels).
Proof. intros H. apply emits_only_emit. split; [apply sanitizeName_valid|done]. Qed.

Lemma emits_Gauge name help v labels :
  x0a ∉ help → Forall (λ p, x3d ∉ p.1) (label_pairs labels) → emits_only line_ok (Gauge name help v labels).
Proof.
  intros Hh Hl. apply emits_only_bind; [apply emits_header; [done|]|intros _; by apply emits_sample].
  refine (bool_decide_unpack _ _); vm_compute; exact I.
Qed.

Lemma emits_Counter name help v labels :
  x0a ∉ help → Forall (λ p, x3d ∉ p.1) (label_pairs labels) → emits_only line_ok (Counter name help v labels).
Proof.
  intros Hh Hl. apply emits_only_bind; [apply emits_header; [done|]|intros _; by apply emits_sample].
  refine (bool_decide_unpack _ _); vm_compute; exact I.
Qed.

Lemma label_pairs_app l l' : Nat.Even (length l) → label_pairs (l ++ l') = label_pairs l ++ label_pairs l'.
Proof.
  assert (H : ∀ k (l : list (list byte)), length l = (2 * k)%nat → label_pairs (l ++ l') = label_pairs l ++ label_pairs l').
  { induction k as [|k IH]; intros [|a [|b r]] E; simpl in E; try lia; [done|]. simpl. rewrite IH by lia. done. }
  intros [k E]. by apply (H k).
Qed.

Lemma emits_Histogram name help bs cs sum count labels :
  x0a ∉ help → Forall (λ p, x3d ∉ p.1) (label_pairs labels) → Nat.Even (length labels) →
  emits_only line_ok (Histogram name help bs cs sum count labels).
Proof.
  intros Hh Hl He. unfold Histogram. apply emits_only_bind; [apply emits_header; [done|]|intros _].
  { refine (bool_decide_unpack _ _); vm_compute; exact I. }
  assert (Hle : ∀ v, Forall (λ p, x3d ∉ p.1) (label_pairs (labels ++ [bytes_of "le"; v]))).
  { intros v. rewrite label_pairs_app by done. apply Forall_app. split; [done|]. repeat constructor.
    refine (bool_decide_unpack _ _); vm_compute; exact I. }
  apply emits_only_bind; [apply emits_only_when, emits_only_bind|intros _].
  - generalize 0. induction (zip bs cs) as [|[b c] l IH]; intros acc; simpl; [apply emits_only_ret|].
    apply emits_only_bind; [by apply emits_sample|intros _; apply IH].
  - intros _. by apply emits_sample.
  - apply emits_only_bind; [by apply emits_sample|intros _; by apply emits_sample].
Qed.

(** No key of the snapshot holds a line break. *)
Fixpoint keys_ok (j : json) : bool :=
  match j with
  | JObj members => forallb (λ '(k, v), negb (bool_decide (x0a ∈ k)) && keys_ok v) members
  | _ => true
  end.

Lemma emits_walk : ∀ j prefix, keys_ok j = true → emits_only line_ok (walkSnapshot prefix j).
Proof.
  fix IH 1. intros [x|b|members|] prefix Hk; [apply emits_only_ret..| |apply emits_only_ret]. simpl in Hk |- *.
  induction members as [|[key val] members IHm]; simpl in Hk |- *; [apply emits_only_ret|].
  apply andb_true_iff in Hk as [Hk Hrest]. apply andb_true_iff in Hk as [Hk Hv].
  apply negb_true_iff, bool_decide_eq_false in Hk.
  apply emits_only_bind; [|intros _; by apply IHm]. specialize (λ p, IH val p Hv) as Hval. clear IH.
  destruct val as [x|b|l|]; [by apply emits_Gauge|by apply emits_Gauge|by apply Hval|apply emits_only_ret].
Qed.

(** ** Each family has one header *)

Definition heads (ls : list line) : list (list byte) :=
  omap (λ l, match l with HeaderLines n _ _ => Some n | SampleLine _ _ _ => None end) ls.

(** The headers a program writes are new, distinct and remembered. *)
Definition heads_once {A : Type} (m : EM A) : Prop := ∀ s,
  NoDup (heads (outputs m s)) ∧ Forall (λ n, n ∉ s) (heads (outputs m s)) ∧
  final m s = list_to_set (heads (outputs m s)) ∪ s.

Lemma heads_once_bind {A B : Type} (m : EM A) (f : A → EM B) :
  heads_once m → (∀ a, heads_once (f a)) → heads_once (m ≫= f).
Proof.
  intros Hm Hf s. rewrite outputs_bind, final_bind. destruct (Hm s) as (H1 & H2 & H3).
  destruct (Hf (value m s) (final m s)) as (H4 & H5 & H6). unfold heads in *. rewrite omap_app.
  rewrite list.Forall_forall in H5. split_and!.
  - apply NoDup_app. split_and!; [done| |done]. intros n Hn Hn'. apply H5 in Hn'. rewrite H3 in Hn'. set_solver.
  - apply Forall_app. split; [done|]. apply list.Forall_forall. intros n Hn. apply H5 in Hn. rewrite H3 in Hn. set_solver.
  - rewrite H6, H3, list_to_set_app_L. set_solver.
Qed.

Lemma heads_once_ret {A : Type} (a : A) : heads_once (mret a).
Proof. intros s. split_and!; [constructor|constructor|]. unfold heads; simpl. set_solver. Qed.

Lemma heads_once_header n h t : heads_once (header n h t).
Proof.
  intros s. unfold header. run_M. destruct (decide (sanitizeName n ∈ s)); simpl; unfold heads; simpl.
  - split_and!; [constructor|constructor|set_solver].
  - split_and!; [repeat constructor; apply not_elem_of_nil|by repeat constructor|set_solver].
Qed.

Lemma heads_once_sample n v l : heads_once (sample n v l).
Proof. intros s. split_and!; [constructor|constructor|]. unfold heads; simpl. set_solver. Qed.

Lemma heads_once_when b (m : EM unit) : heads_once m → heads_once (when b m).
Proof. intros H. destruct b; [done|apply heads_once_ret]. Qed.

Create HintDb heads.
#[local] Hint Resolve heads_once_bind heads_once_ret heads_once_header heads_once_sample heads_once_when : heads.

Lemma heads_once_Gauge n h v l : heads_once (Gauge n h v l).
Proof. unfold Gauge. auto with heads. Qed.

Lemma heads_once_Counter n h v l : heads_once (Counter n h v l).
Proof. unfold Counter. auto with heads. Qed.

Lemma heads_once_Histogram n h bs cs sum count l : heads_once (Histogram n h bs cs sum count l).
Proof.
  unfold Histogram. apply heads_once_bind; [auto with heads|intros _]. apply heads_once_bind; [|auto with heads].
  apply heads_once_when, heads_once_bind; [|auto with heads]. generalize 0.
  induction (zip bs cs) as [|[b c] r IH]; intros acc; simpl; auto with heads.
Qed.

Lemma heads_once_walk : ∀ j prefix, heads_once (walkSnapshot prefix j).
Proof.
  fix IH 1. intros [x|b|members|] prefix; [apply heads_once_ret..| |apply heads_once_ret]. simpl.
  induction members as [|[key val] members IHm]; simpl; [apply heads_once_ret|].
  apply heads_once_bind; [|intros _; by apply IHm]. specialize (IH val) as Hval. clear IH.
  destruct val as [x|b|l|]; [apply heads_once_Gauge|apply heads_once_Gauge|apply Hval|apply heads_once_ret].
Qed.

(** ** The buckets of a histogram *)

Lemma bucket_samples_lookup name labels acc l s i :
  outputs (bucket_samples name labels acc l) s !! i =
  (λ '(b, _), SampleLine (sanitizeName (name ++ bytes_of "_bucket"))
                (label_pairs (labels ++ [bytes_of "le"; FormatFloat b]))
                (f_of_Z (u64 (acc + foldr Z.add 0 (snd <$> take (S i) l))))) <$> l !! i.
Proof.
  revert acc s i. induction l as [|[b c] l IH]; intros acc s i; [by destruct i|]. cbn [bucket_samples].
  rewrite outputs_bind. unfold sample at 1. rewrite outputs_emit. destruct i as [|i]; cbn [app lookup list_lookup].
  - csimpl. by rewrite Z.add_0_r.
  - change (list_lookup i ?x) with (x !! i). rewrite IH. change (list_lookup i l) with (l !! i).
    destruct (l !! i) as [[b' c']|]; [|done]. do 3 f_equal. rewrite (firstn_cons (S i)), fmap_cons. cbn [foldr snd].
    unfold u64. rewrite Zplus_mod_idemp_l. by rewrite Z.add_assoc.
Qed.

Lemma outputs_elem_l {S E A B : Type} (m : M S E A) (f : A → M S E B) s e : e ∈ outputs m s → e ∈ outputs (m ≫= f) s.
Proof. intros H. rewrite outputs_bind. apply elem_of_app. by left. Qed.

Lemma outputs_elem_r {S E A B : Type} (m : M S E A) (f : A → M S E B) s e :
  (∀ a s, e ∈ outputs (f a) s) → e ∈ outputs (m ≫= f) s.
Proof. intros H. rewrite outputs_bind. apply elem_of_app. right. apply H. Qed.

(** Bucket [i] of the histogram of [ds] counts the durations up to its bound. *)
Lemma Histogram_bucket name help b ds i x labels sum count s :
  ascending b → Z.of_nat (length ds) < 2 ^ 64 → b !! i = Some x →
  SampleLine (sanitizeName (sanitizeName name ++ bytes_of "_bucket"))
    (label_pairs (labels ++ [bytes_of "le"; FormatFloat x]))
    (f_of_Z (Z.of_nat (length (filter (λ d, f_le (Seconds d) x = true) ds))))
  ∈ outputs (Histogram name help b (counts (observed b ds)) sum count labels) s.
Proof.
  intros Hb Hds Hi. destruct (observed_exact b ds Hds) as (_ & Hc & _). unfold Histogram. rewrite Hc.
  apply outputs_elem_r. intros _ s1. cbn zeta. rewrite length_fmap, length_seq, Nat.eqb_refl.
  apply outputs_elem_l. cbn [when]. apply outputs_elem_l, list_elem_of_lookup. exists i.
  rewrite bucket_samples_lookup.
  assert (zip b (in_bucket b ds <$> seq 0 (length b)) !! i = Some (x, in_bucket b ds i)) as ->.
  { apply lookup_zip_with_Some. exists x, (in_bucket b ds i). split_and!; [done|done|].
    rewrite list_lookup_fmap, lookup_seq_lt by (by eapply lookup_lt_Some). done. }
  cbn [fmap option_fmap option_map]. do 3 f_equal. rewrite fmap_take, Z.add_0_l.
  assert (snd <$> zip b (in_bucket b ds <$> seq 0 (length b)) = in_bucket b ds <$> seq 0 (length b)) as ->.
  { apply snd_zip. by rewrite length_fmap, length_seq. }
  rewrite <- fmap_take, take_seq, Nat.min_l by (apply lookup_lt_Some in Hi; lia). rewrite (cumulative_exact b ds i x) by done.
  unfold u64. apply Z.mod_small. split; [lia|]. eapply Z.le_lt_trans; [|exact Hds]. apply Nat2Z.inj_le, length_filter.
Qed.

(** ** The scrape *)

Definition snapshot_ok (v : option json) : bool := from_option keys_ok true v.

Lemma emits_snapshot prefix v : snapshot_ok v = true → emits_only line_ok (writeGenericSnapshot prefix v).
Proof. destruct v as [j|]; intros H; [by apply emits_walk|apply emits_only_ret]. Qed.

Lemma heads_once_snapshot prefix v : heads_once (writeGenericSnapshot prefix v).
Proof. destruct v as [j|]; [apply heads_once_walk|apply heads_once_ret]. Qed.

Ltac by_reading := refine (bool_decide_unpack _ _); vm_compute; exact I.

Lemma emits_scrape go goos goarch uptime rt m auth cluster session history :
  snapshot_ok auth && snapshot_ok cluster && snapshot_ok session && snapshot_ok history = true →
  emits_only line_ok (writePrometheus go goos goarch uptime rt m auth cluster session history).
Proof.
  intros H. rewrite !andb_true_iff in H. destruct H as (((H1 & H2) & H3) & H4). unfold writePrometheus. cbn zeta.
  repeat (apply emits_only_bind; [first
    [ apply emits_Gauge; [by_reading|repeat constructor; by_reading]
    | apply emits_Counter; [by_reading|constructor]
    | apply emits_Histogram; [by_reading|constructor|by exists 0%nat]
    | by apply emits_snapshot ]|intros _]).
  by apply emits_snapshot.
Qed.

Lemma heads_once_scrape go goos goarch uptime rt m auth cluster session history :
  heads_once (writePrometheus go goos goarch uptime rt m auth cluster session history).
Proof.
  unfold writePrometheus. cbn zeta.
  repeat (apply heads_once_bind; [first
    [ apply heads_once_Gauge | apply heads_once_Counter | apply heads_once_Histogram | apply heads_once_snapshot ]|intros _]).
  apply heads_once_snapshot.
Qed.

(** C26: a scraper that reads the text of a scrape gets back exactly the samples that were
    written, labels unescaped, whatever the versions, counters and snapshots hold (no
    snapshot key with a line break); no metric family is announced twice; and bucket [i]
    of the negotiation histogram reads as the number of observed durations up to its
    bound. *)
Theorem scrape_reads_back go goos goarch uptime rt m auth cluster session history ds :
  snapshot_ok auth && snapshot_ok cluster && snapshot_ok session && snapshot_ok history = true →
  NegotiationDuration m = Snapshot (observed negotiation_bounds ds) → Z.of_nat (length ds) < 2 ^ 64 →
  let out := outputs (writePrometheus go goos goarch uptime rt m auth cluster session history) ∅ in
  parse_doc (length (text out)) (text out) = Some (samples out) ∧
  NoDup (heads out) ∧
  ∀ i x, negotiation_bounds !! i = Some x →
    (bytes_of "pulsertc_sfu_negotiation_seconds_bucket", [(bytes_of "le", FormatFloat x)],
     FormatFloat (f_of_Z (Z.of_nat (length (filter (λ d, f_le (Seconds d) x = true) ds))))) ∈ samples out.
Proof.
  intros Hok Hm Hds out. split_and!.
  - apply parse_text; [|done]. by apply emits_scrape.
  - apply heads_once_scrape.
  - intros i x Hi. unfold samples. apply list_elem_of_omap.
    eexists (SampleLine _ _ _). split; [|reflexivity].
    assert (HB : Bounds (NegotiationDuration m) = negotiation_bounds) by (rewrite Hm; by apply observed_exact).
    assert (HC : Counts (NegotiationDuration m) = counts (observed negotiation_bounds ds)) by (by rewrite Hm).
    assert (Hb := λ h sum count s, Histogram_bucket (bytes_of "pulsertc_sfu_negotiation_seconds") h negotiation_bounds
      ds i x [] sum count s negotiation_bounds_ascend Hds Hi).
    assert (Hn : sanitizeName (sanitizeName (bytes_of "pulsertc_sfu_negotiation_seconds") ++ bytes_of "_bucket")
      = bytes_of "pulsertc_sfu_negotiation_seconds_bucket") by (vm_compute; reflexivity).
    rewrite Hn in Hb. unfold out, writePrometheus. cbn zeta. rewrite HB, HC.
    repeat lazymatch goal with
    | |- _ ∈ outputs (Histogram _ _ _ _ _ _ _ ≫= _) _ => apply outputs_elem_l, Hb
    | |- _ => apply outputs_elem_r; intros _ ?
    end.
Qed.

Definition demo_auth : json :=
  JObj [(bytes_of "enabled", JBool true); (bytes_of "tokens", JObj [(bytes_of "rejectedTotal", JNum (f_of_Z 3))]);
        (bytes_of "mode", JOther)].

(** A meeting with three negotiations: the whole text, read back, ends with the members of
    the snapshot; two negotiations took at most 25 ms. *)
Lemma scrape_reads_back_witness :
  let ds := [4000000; 20000000; 3000000000] in
  let m := Metrics plain_env plain_env idle_view (state_after meeting) 3 3 0 (observed negotiation_bounds ds) in
  let out := outputs (writePrometheus "go1.24" "linux" (string_of [x61; x22; x0a; x5c]) 1500000000 (mkRuntime 9 1 2 3 (f_of_Z 1))
    m (Some demo_auth) None None None) ∅ in
  parse_doc (length (text out)) (text out) = Some (samples out) ∧
  (bytes_of "pulsertc_sfu_negotiation_seconds_bucket", [(bytes_of "le", bytes_of "0.025")], bytes_of "2") ∈ samples out ∧
  (string_of ∘ render <$> drop (length out - 4) out) =
    ["# HELP pulsertc_auth_enabled enabled
# TYPE pulsertc_auth_enabled gauge
"; "pulsertc_auth_enabled 1
"; "# HELP pulsertc_auth_tokens_rejected_total rejectedTotal
# TYPE pulsertc_auth_tokens_rejected_total gauge
"; "pulsertc_auth_tokens_rejected_total 3
"].
Proof.
  intros ds m out.
  destruct (scrape_reads_back "go1.24" "linux" (string_of [x61; x22; x0a; x5c]) 1500000000 (mkRuntime 9 1 2 3 (f_of_Z 1)) m
    (Some demo_auth) None None None ds) as (H1 & _ & H3); [vm_compute; reflexivity|reflexivity|vm_compute; reflexivity|].
  split; [exact H1|]. split; [|vm_compute; reflexivity].
  assert (Hi : negotiation_bounds !! 2%nat = Some (f_div (f_of_Z 25) (f_of_Z 1000))) by reflexivity.
  specialize (H3 2%nat _ Hi).
  assert (E : FormatFloat (f_div (f_of_Z 25) (f_of_Z 1000)) = bytes_of "0.025") by (vm_compute; reflexivity).
  assert (E2 : FormatFloat (f_of_Z (Z.of_nat (length (filter (λ d, f_le (Seconds d) (f_div (f_of_Z 25) (f_of_Z 1000)) = true) ds))))
    = bytes_of "2") by (vm_compute; reflexivity).
  rewrite E, E2 in H3. exact H3.
Defined.
