(* ===== verification/ClusterScrape.v ===== *)
(** * The cluster block of a scrape (internal/cluster/metrics.go and
      internal/signaling/metrics_prom.go)

    The snapshot of the cluster counters, as the scrape sees it after its round trip
    through JSON, and the gauges it becomes. *)

From S2P Require Import Prelude Bytes GoStrings GoFloat GoParse Prometheus ClusterTypes ClusterFacade.

(** A JSON number that was an integer. *)
Definition num (z : Z) : json := JNum (f_of_Z z).

(** src/internal/cluster/metrics.go:188-305 [Snapshot: json tags]  Strings have no gauge; the
    members come in the order of the fields. *)
Definition cluster_json (s : Snapshot) : json :=
    JObj [(bytes_of "enabled", JBool (cs_Enabled s)); (bytes_of "nodeId", JOther);
    (bytes_of "state", JOther); (bytes_of "backend", JOther); (bytes_of "nodes", num (cs_Nodes s));
    (bytes_of "nodesActive", num (cs_NodesActive s)); (bytes_of "nodesStale", num (cs_NodesStale s));
    (bytes_of "rooms", num (cs_Rooms s)); (bytes_of "roomsLocal", num (cs_RoomsLocal s));
    (bytes_of "roomsRemote", num (cs_RoomsRemote s));
    (bytes_of "ownershipClaimed", num (cs_OwnershipClaimed s));
    (bytes_of "ownershipConflict", num (cs_OwnershipConflict s));
    (bytes_of "roomRedirects", num (cs_RoomRedirects s));
    (bytes_of "internalRequests", num (cs_InternalRequests s));
    (bytes_of "internalRequestsFailed", num (cs_InternalRequestsFailed s));
    (bytes_of "participantsLocated", num (cs_Participants s));
    (bytes_of "redisConnected", JBool (cs_RedisConnected s));
    (bytes_of "redisErrors", num (cs_RedisErrors s));
    (bytes_of "redisReconnects", num (cs_RedisReconnects s));
    (bytes_of "redisUnavailable", num (cs_RedisUnavailable s));
    (bytes_of "roomClaimFailed", num (cs_RoomClaimFailed s));
    (bytes_of "roomReleased", num (cs_RoomReleased s));
    (bytes_of "participantRegistrations", num (cs_ParticipantRegs s));
    (bytes_of "participantRemovals", num (cs_ParticipantRemoves s));
    (bytes_of "messages", JObj [(bytes_of "sent", num (msg_Sent (cs_Messages s)));
    (bytes_of "received", num (msg_Received (cs_Messages s)));
    (bytes_of "failed", num (msg_Failed (cs_Messages s)));
    (bytes_of "retried", num (msg_Retried (cs_Messages s)));
    (bytes_of "duplicated", num (msg_Duplicated (cs_Messages s)));
    (bytes_of "rejected", num (msg_Rejected (cs_Messages s)));
    (bytes_of "invalid", num (msg_Invalid (cs_Messages s)));
    (bytes_of "timeout", num (msg_Timeout (cs_Messages s)))]);
    (bytes_of "routing", JObj [(bytes_of "local", num (rt_Local (cs_Routing s)));
    (bytes_of "remote", num (rt_Remote (cs_Routing s)));
    (bytes_of "notFound", num (rt_NotFound (cs_Routing s)))]);
    (bytes_of "transportErrors", num (cs_TransportErrs s));
    (bytes_of "transportLatencyMsAvg", JNum (cs_TransportLatMs s));
    (bytes_of "media", JObj [(bytes_of "enabled", JBool (med_Enabled (cs_Media s)));
    (bytes_of "localAddr", JOther); (bytes_of "sessionsActive", num (med_SessionsActive (cs_Media s)));
    (bytes_of "sessionsCreated", num (med_SessionsCreated (cs_Media s)));
    (bytes_of "sessionsClosed", num (med_SessionsClosed (cs_Media s)));
    (bytes_of "sessionsFailed", num (med_SessionsFailed (cs_Media s)));
    (bytes_of "remoteTracks", num (med_RemoteTracks (cs_Media s)));
    (bytes_of "rtpSent", num (med_RTPSent (cs_Media s)));
    (bytes_of "rtpReceived", num (med_RTPReceived (cs_Media s)));
    (bytes_of "rtpDropped", num (med_RTPDropped (cs_Media s)));
    (bytes_of "rtpInvalid", num (med_RTPInvalid (cs_Media s)));
    (bytes_of "rtcpSent", num (med_RTCPSent (cs_Media s)));
    (bytes_of "rtcpReceived", num (med_RTCPReceived (cs_Media s)));
    (bytes_of "rtcpDropped", num (med_RTCPDropped (cs_Media s)));
    (bytes_of "oversizedPackets", num (med_OversizedPackets (cs_Media s)));
    (bytes_of "authFailures", num (med_AuthFailures (cs_Media s)))]);
    (bytes_of "scheduler", JObj [(bytes_of "roomSelections", num (sch_RoomSelections (cs_Scheduler s)));
    (bytes_of "roomSelectionFailures", num (sch_RoomSelectionFailures (cs_Scheduler s)));
    (bytes_of "roomClaims", num (sch_RoomClaimsRouted (cs_Scheduler s)));
    (bytes_of "roomClaimRetries", num (sch_RoomClaimRetries (cs_Scheduler s)));
    (bytes_of "selectLocal", num (sch_SelectLocal (cs_Scheduler s)));
    (bytes_of "selectLeastLoaded", num (sch_SelectLeastLoaded (cs_Scheduler s)));
    (bytes_of "selectCapacity", num (sch_SelectCapacity (cs_Scheduler s)));
    (bytes_of "selectFallback", num (sch_SelectFallback (cs_Scheduler s)))]);
    (bytes_of "load", JObj [(bytes_of "reports", num (lm_Reports (cs_Load s)));
    (bytes_of "stale", num (lm_Stale (cs_Load s)))]);
    (bytes_of "recovery", JObj [(bytes_of "nodesDetectedStale", num (rec_NodesDetectedStale (cs_Recovery s)));
    (bytes_of "nodesRecovered", num (rec_NodesRecovered (cs_Recovery s)));
    (bytes_of "nodesRecoveryFailed", num (rec_NodesRecoveryFailed (cs_Recovery s)));
    (bytes_of "started", num (rec_Started (cs_Recovery s)));
    (bytes_of "completed", num (rec_Completed (cs_Recovery s)));
    (bytes_of "failed", num (rec_Failed (cs_Recovery s)));
    (bytes_of "rooms", num (rec_Rooms (cs_Recovery s)));
    (bytes_of "roomsRecovered", num (rec_RoomsRecovered (cs_Recovery s)));
    (bytes_of "roomsSkipped", num (rec_RoomsSkipped (cs_Recovery s)));
    (bytes_of "conflicts", num (rec_Conflicts (cs_Recovery s)));
    (bytes_of "routingStaleNode", num (rec_RoutingStaleNode (cs_Recovery s)));
    (bytes_of "routingUnavailableNode", num (rec_RoutingUnavailNode (cs_Recovery s)))])].

(** ** One gauge for each number *)

(** The gauges of a snapshot. *)
Fixpoint leaves (prefix : list byte) (j : json) : list (list byte * float64) :=
  match j with
  | JObj members =>
      members ≫= λ '(key, val),
        let name := prefix ++ x5f :: snake key in
        match val with
        | JNum x => [(sanitizeName name, x)]
        | JBool b => [(sanitizeName name, if b then f_of_Z 1 else f_of_Z 0)]
        | JObj _ => leaves name val
        | JOther => []
        end
  | _ => []
  end.

(** The samples among lines, as far as they have no labels. *)
Definition gauges (ls : list line) : list (list byte * float64) :=
  omap (λ l, match l with SampleLine n [] v => Some (n, v) | _ => None end) ls.

Lemma Gauge_gauges name help v s : gauges (outputs (Gauge name help v []) s) = [(sanitizeName name, v)].
Proof.
  unfold Gauge. rewrite outputs_bind. unfold gauges. rewrite omap_app. unfold header. run_M.
  by destruct (decide (sanitizeName name ∈ s)).
Qed.

Lemma walk_gauges : ∀ j prefix s, gauges (outputs (walkSnapshot prefix j) s) = leaves prefix j.
Proof.
  fix IH 1. intros [x|b|members|] prefix s; [done..| |done]. simpl. revert s.
  induction members as [|[key val] members IHm]; intros s; [done|]. specialize (IH val) as Hval. clear IH. simpl.
  rewrite outputs_bind. unfold gauges. rewrite omap_app. f_equal; [|apply IHm].
  destruct val as [x|b|l|]; [apply Gauge_gauges|apply Gauge_gauges|apply Hval|done].
Qed.

(** The same value with the members of its objects in other orders. *)
Inductive reorder : json → json → Prop :=
| reorder_refl j : reorder j j
| reorder_obj l l' l'' : Forall2 (λ a b, a.1 = b.1 ∧ reorder a.2 b.2) l l' → l' ≡ₚ l'' → reorder (JObj l) (JObj l'').

Lemma leaves_reorder : ∀ j j', reorder j j' → ∀ prefix, leaves prefix j ≡ₚ leaves prefix j'.
Proof.
  fix IH 3. intros j j' H prefix. destruct H as [j|l l' l'' Hl Hp]; [done|]. cbn [leaves]. rewrite <- Hp. clear Hp.
  induction Hl as [|[k v] [k' v'] l l' [Hk Hv] Hl IHl]; [done|]. cbn [fst snd] in Hk, Hv. subst k'. csimpl.
  apply Permutation_app; [|exact IHl]. specialize (IH v v' Hv) as Hleaf. clear IH IHl.
  destruct Hv as [v|m m' m'' Hm Hp]; [by destruct v|]. apply Hleaf.
Qed.

(** the cluster block of a scrape has exactly one gauge for each number and each switch
    of the snapshot, under its own name, whatever order the members are visited in; in
    particular no two counters of the snapshot collide in a name. *)
Theorem cluster_gauges s j seen :
  reorder (cluster_json s) j →
  let out := gauges (outputs (writeGenericSnapshot "pulsertc_cluster" (Some j)) seen) in
  out ≡ₚ leaves (bytes_of "pulsertc_cluster") (cluster_json s) ∧
  NoDup (fst <$> out) ∧ length out = 71%nat ∧
  (bytes_of "pulsertc_cluster_rooms_local", f_of_Z (cs_RoomsLocal s)) ∈ out ∧
  (bytes_of "pulsertc_cluster_media_sessions_active", f_of_Z (med_SessionsActive (cs_Media s))) ∈ out ∧
  (bytes_of "pulsertc_cluster_enabled", if cs_Enabled s then f_of_Z 1 else f_of_Z 0) ∈ out.
Proof.
  intros Hj out. assert (Hp : out ≡ₚ leaves (bytes_of "pulsertc_cluster") (cluster_json s)).
  { unfold out. cbn [writeGenericSnapshot]. rewrite walk_gauges. symmetry. by apply leaves_reorder. }
  split; [done|]. rewrite Hp. split_and!.
  - let l := eval lazy in ((leaves (bytes_of "pulsertc_cluster") (cluster_json s)).*1) in change (NoDup l).
    refine (bool_decide_unpack _ _). vm_compute. exact I.
  - reflexivity.
  - apply (list_elem_of_lookup_2 _ 5%nat). reflexivity.
  - apply (list_elem_of_lookup_2 _ 35%nat). reflexivity.
  - apply (list_elem_of_lookup_2 _ 0%nat). reflexivity.
Qed.

Lemma reorder_perm l l' : l ≡ₚ l' → reorder (JObj l) (JObj l').
Proof.
  intros H. refine (reorder_obj l l l' _ H). clear H. induction l as [|a l IH]; [constructor|].
  constructor; [split; [done|apply reorder_refl]|exact IH].
Qed.

Definition members (j : json) : list (list byte * json) := match j with JObj l => l | _ => [] end.

(** The block of a node that served one session, visited backwards. *)
Lemma cluster_gauges_witness :
  let s := MetricsSnapshot demo_cfg (mkMediaConfig true "" 0 "" 0 0 0 0 0) NodeActive "memory" true ""
             (1, 1, 0) {["room" := "a"]} 1 (run_adds zero_metrics (calls_adds [mediaSessionCreated])) in
  med_SessionsActive (cs_Media s) = 1 ∧
  (bytes_of "pulsertc_cluster_media_sessions_active", f_of_Z (med_SessionsActive (cs_Media s)))
    ∈ gauges (outputs (writeGenericSnapshot "pulsertc_cluster" (Some (JObj (reverse (members (cluster_json s)))))) ∅).
Proof.
  intros s. split; [vm_compute; reflexivity|]. clearbody s.
  destruct (cluster_gauges s (JObj (reverse (members (cluster_json s)))) ∅) as (_ & _ & _ & _ & H & _); [|exact H].
  apply (reorder_perm (members (cluster_json s))). symmetry. apply reverse_Permutation.
Defined.
