(* ===== verification/LoadTest.v ===== *)
(** * The load-test tool: configuration, tokens, summaries and the regression gate
      (internal/loadtest: config, scenario, auth, metrics; cmd/benchcheck)

    What a run is configured to do, the token each participant gets, the statistics of a
    run and their comparison with a baseline.  Floats are binary64; an index out of range
    is [None]. *)

From S2P Require Import Prelude Bytes GoStrings GoFloat GoFloatInt GoParse Auth Config.

(** ** Configuration *)

(** src/internal/loadtest/auth.go:10-20 [AuthOptions] *)
Record AuthOptions := mkAuthOptions {
  a_Enabled : bool; a_Secret : string; a_Issuer : string; a_Audience : string; a_InvalidRatio : float64; a_AdminToken : string
}.

(** src/internal/loadtest/config.go:12-33 [Config] *)
Record Config := mkLoadConfig {
  ServerURL : string; ServerURLs : list string; RoomID : string; Participants : Z; Publishers : Z;
  PublishAudio : bool; PublishVideo : bool; SubscribeAll : bool; Duration : Z; RampUp : Z; RampDown : Z;
  Scenario : string; OutputDir : string; SamplePeriod : Z; JoinLeaveLoop : bool; lt_Auth : AuthOptions
}.

(** [time.Minute] *)
Definition minute : Z := 60 * second.

(** src/internal/loadtest/config.go:109-117 [splitList] *)
Definition splitList (s : string) : list string :=
  filter (λ p, p ≠ "") ((λ p, string_of (TrimRight x2f (TrimSpace p))) <$> split_on x2c (bytes_of s)).

(** src/internal/loadtest/config.go:35-60 [DefaultConfig]  [env]: the environment,
    [ParseFloat]: strconv.ParseFloat. *)
Definition DefaultConfig (env : string → string) (ParseFloat : string → option float64) : Config :=
  mkLoadConfig
    (envString env "SERVER_URL" "http://localhost:8090")
    (splitList (env "SERVER_URLS"))
    (envString env "ROOM_ID" "load-test")
    (envInt env "PARTICIPANTS" 2)
    (envInt env "PUBLISHERS" (-1))
    (envBool env "PUBLISH_AUDIO" true)
    (envBool env "PUBLISH_VIDEO" true)
    (envBool env "SUBSCRIBE_ALL" true)
    (envDuration env "DURATION" (5 * minute))
    (envDuration env "RAMP_UP" 0)
    (envDuration env "RAMP_DOWN" 0)
    (envString env "SCENARIO" "custom")
    (envString env "OUTPUT_DIR" "benchmarks")
    (envDuration env "SAMPLE_PERIOD" second)
    false
    (mkAuthOptions (envBool env "AUTH_ENABLED" false) (envString env "JWT_SECRET" "") (envString env "JWT_ISSUER" "pulsertc")
       (envString env "JWT_AUDIENCE" "pulsertc") (envFloat env ParseFloat "AUTH_INVALID_RATIO" (f_of_Z 0))
       (envString env "ADMIN_TOKEN" "")).

(** src/internal/loadtest/config.go:119-125 [NodeURLs] *)
Definition NodeURLs (c : Config) : list string := match ServerURLs c with [] => [ServerURL c] | us => us end.

(** src/internal/loadtest/config.go:127-134 [NodeURL]  [None]: an index out of range. *)
Definition NodeURL (c : Config) (i : Z) : option string :=
  let urls := NodeURLs c in
  if i <? 0 then urls !! 0%nat else urls !! Z.to_nat (Z.rem i (Z.of_nat (length urls))).

(** src/internal/loadtest/config.go:136-146 [scenarioArg] *)
Fixpoint scenarioArg (args : list string) : string :=
  match args with
  | [] => ""
  | arg :: rest =>
      match rest with
      | next :: _ => if decide (arg = "--scenario") then next
                     else if String.prefix "--scenario=" arg then String.substring 11 (String.length arg - 11) arg
                     else scenarioArg rest
      | [] => if String.prefix "--scenario=" arg then String.substring 11 (String.length arg - 11) arg else ""
      end
  end.

(** src/internal/loadtest/config.go:148-171 [Normalize]  An error message, or the
    configuration with its publishers filled in. *)
Definition Normalize (c : Config) : string + Config :=
  if decide (ServerURL c = "") then inl "server URL is required"
  else if decide (RoomID c = "") then inl "room id is required"
  else if Participants c <=? 0 then inl "participants must be > 0"
  else
    let publishers := if Publishers c <? 0 then Participants c else Publishers c in
    if Participants c <? publishers then inl "publishers cannot exceed participants"
    else if Duration c <=? 0 then inl "duration must be > 0"
    else if SamplePeriod c <=? 0 then inl "sample period must be > 0"
    else inr (mkLoadConfig (ServerURL c) (ServerURLs c) (RoomID c) (Participants c) publishers (PublishAudio c)
                (PublishVideo c) (SubscribeAll c) (Duration c) (RampUp c) (RampDown c) (Scenario c) (OutputDir c)
                (SamplePeriod c) (JoinLeaveLoop c) (lt_Auth c)).

(** src/internal/loadtest/config.go:173-178 [PublisherCount] *)
Definition PublisherCount (c : Config) : Z := if Publishers c <? 0 then Participants c else Publishers c.

(** src/internal/loadtest/scenario.go:5-15 [scenarioPreset] *)
Record scenarioPreset := mkPreset {
  participants : Z; publishers : Z; publishAudio : bool; publishVideo : bool; subscribeAll : bool;
  duration : Z; rampUp : Z; rampDown : Z; joinLeaveLoop : bool
}.

(** src/internal/loadtest/scenario.go:17-62 [ScenarioPreset] *)
Definition scenarios : gmap string scenarioPreset := list_to_map [
  ("baseline", mkPreset 2 1 true true true (5 * minute) 0 0 false);
  ("1pub-5sub", mkPreset 6 1 true true true (5 * minute) 0 0 false);
  ("1pub-10sub", mkPreset 11 1 true true true (5 * minute) 0 0 false);
  ("1pub-20sub", mkPreset 21 1 true true true (5 * minute) 0 0 false);
  ("5pub-5sub", mkPreset 10 5 true true true (5 * minute) 0 0 false);
  ("10pub-10sub", mkPreset 20 10 true true true (10 * minute) 0 0 false);
  ("20-participants", mkPreset 20 20 true true true (10 * minute) 0 0 false);
  ("ramp-up", mkPreset 20 20 true true true (10 * minute) (2 * minute) 0 false);
  ("ramp-down", mkPreset 20 20 true true true (10 * minute) minute minute false);
  ("join-leave", mkPreset 10 10 true true true (10 * minute) 0 0 true)].
Definition ScenarioPreset (name : string) : option scenarioPreset := scenarios !! name.

(** src/internal/loadtest/scenario.go:64-74 [apply] *)
Definition apply (p : scenarioPreset) (c : Config) : Config :=
  mkLoadConfig (ServerURL c) (ServerURLs c) (RoomID c) (participants p) (publishers p) (publishAudio p) (publishVideo p)
    (subscribeAll p) (duration p) (rampUp p) (rampDown p) (Scenario c) (OutputDir c) (SamplePeriod c) (joinLeaveLoop p)
    (lt_Auth c).

(** ** Tokens *)

Section tokens.
Context {MC : Mac} {J : TokenJSON}.

(** src/internal/loadtest/auth.go:29-37 [tokenForClient: invalid]  Go's [%] truncates. *)
Definition tampered (o : AuthOptions) (index : Z) : bool :=
  f_lt (f_of_Z 0) (a_InvalidRatio o)
  && (let every := f_to_int (f_div (f_of_Z 1) (a_InvalidRatio o)) in (0 <? every) && (Z.rem index every =? 0)).

(** src/internal/loadtest/auth.go:22-54 [tokenForClient]  [now]: the clock, in seconds. *)
Definition tokenForClient (o : AuthOptions) (now index : Z) (room : string) (publishing : bool) : list byte * bool :=
  if negb (a_Enabled o) then ([], true)
  else
    let bad := tampered o index in
    let secret := if bad then (a_Secret o +:+ "-tampered")%string else a_Secret o in
    match Sign (mkClaims ("loadtest-" +:+ fmt_int index) "" room (mkPerms true publishing true false) now (now + 3600)
                  (a_Issuer o) (a_Audience o) "") AlgHS256 secret with
    | inl _ => ([], false)
    | inr tok => (tok, negb bad)
    end.
End tokens.

(** ** Statistics *)

(** src/internal/loadtest/metrics.go:84-91 [SummaryStats] *)
Record SummaryStats := mkStats {
  Average : float64; Min : float64; Max : float64; P50 : float64; P95 : float64; P99 : float64
}.

(** The zero value. *)
Definition no_stats : SummaryStats := let z := f_of_Z 0 in mkStats z z z z z z.

(** Indexing a slice; [None]: out of range. *)
Definition at_index {A} (l : list A) (i : Z) : option A := if i <? 0 then None else l !! Z.to_nat i.

(** src/internal/loadtest/metrics.go:247-262 [percentile] *)
Definition percentile (sorted : list float64) (p : float64) : option float64 :=
  match sorted with
  | [] => Some (f_of_Z 0)
  | [x] => Some x
  | _ =>
      let pos := f_mul (f_div p (f_of_Z 100)) (f_of_Z (Z.of_nat (length sorted) - 1)) in
      let lo := f_to_int (f_floor pos) in
      let hi := f_to_int (f_ceil pos) in
      if lo =? hi then at_index sorted lo
      else
        let frac := f_sub pos (f_of_Z lo) in
        a ← at_index sorted lo;
        b ← at_index sorted hi;
        Some (f_add (f_mul a (f_sub (f_of_Z 1) frac)) (f_mul b frac))
  end.

(** The order of [sort.Float64s]: NaN first. *)
Definition float_less (x y : float64) : bool := f_lt x y || (f_is_nan x && negb (f_is_nan y)).

(** src/internal/loadtest/metrics.go:228-245 [summarize] *)
Definition summarize (values : list float64) : option SummaryStats :=
  match values with
  | [] => Some no_stats
  | _ =>
      let sorted := sort_by float_less values in
      lo ← at_index sorted 0;
      hi ← at_index sorted (Z.of_nat (length sorted) - 1);
      p50 ← percentile sorted (f_of_Z 50);
      p95 ← percentile sorted (f_of_Z 95);
      p99 ← percentile sorted (f_of_Z 99);
      Some (mkStats (f_div (foldl f_add (f_of_Z 0) sorted) (f_of_Z (Z.of_nat (length sorted)))) lo hi p50 p95 p99)
  end.

(** [math.IsInf(v, 0)] *)
Definition f_is_inf (x : float64) : bool := match x with S754_infinity _ => true | _ => false end.

(** src/internal/loadtest/metrics.go:264-269 [appendPositive] *)
Definition appendPositive (values : list float64) (v : float64) : list float64 :=
  if f_lt (f_of_Z 0) v && negb (f_is_nan v) && negb (f_is_inf v)
  then values ++ [v] else values.

(** src/internal/loadtest/metrics.go:271-271 [bytesToMB] *)
Definition bytesToMB (v : Z) : float64 := f_div (f_div (f_of_Z v) (f_of_Z 1024)) (f_of_Z 1024).

(** src/internal/loadtest/metrics.go:51-56 [EntityMetrics] *)
Record EntityMetrics := mkLtEntity { e_Active : Z; e_Created : Z; e_Closed : Z; e_Removed : Z }.

(** src/internal/loadtest/metrics.go:44-49 [NegotiationMetrics] *)
Record NegotiationMetrics := mkLtNeg { g_Started : Z; g_Completed : Z; g_Coalesced : Z; g_Failed : Z }.

(** src/internal/loadtest/metrics.go:13-42 [ServerMetrics]  What the summary reads. *)
Record ServerMetrics := mkServer {
  UptimeSec : float64; sm_Goroutines : Z; sm_HeapAllocBytes : Z; sm_GoCPUSeconds : float64;
  sm_PeerConns : EntityMetrics; sm_Tracks : EntityMetrics; sm_Publications : EntityMetrics; sm_Subscriptions : EntityMetrics;
  sm_Negotiations : NegotiationMetrics; sm_BytesReceived : Z; sm_BytesSent : Z
}.

(** src/internal/loadtest/metrics.go:66-82 [ClientSample]  What the summary reads. *)
Record ClientSample := mkSample {
  cs_PacketsSent : Z; cs_PacketsReceived : Z; cs_PacketsLost : Z; RTTMs : float64; JitterMs : float64;
  BitrateOutBps : float64; BitrateInBps : float64; ConnectionTimeMs : float64; MediaStartMs : float64
}.

(** src/internal/loadtest/metrics.go:281-293 [summarizeCPU: loop] *)
Fixpoint cpu_values (acc : list float64) (samples : list ServerMetrics) : list float64 :=
  match samples with
  | prev :: (cur :: _) as rest =>
      let dt := f_sub (UptimeSec cur) (UptimeSec prev) in
      if f_le dt (f_of_Z 0) then cpu_values acc rest
      else
        let dcpu := f_sub (sm_GoCPUSeconds cur) (sm_GoCPUSeconds prev) in
        cpu_values (appendPositive acc (f_mul (f_div dcpu dt) (f_of_Z 100))) rest
  | _ => acc
  end.

(** src/internal/loadtest/metrics.go:281-293 [summarizeCPU] *)
Definition summarizeCPU (samples : list ServerMetrics) : option SummaryStats := summarize (cpu_values [] samples).

(** src/internal/loadtest/metrics.go:303-308 [summarizeNetwork: rate]  The difference is
    taken on unsigned integers, only when it is not negative. *)
Definition network_rate (acc : list float64) (prev cur : Z) (dt : float64) : list float64 :=
  if prev <=? cur
  then appendPositive acc (f_div (f_div (f_mul (f_of_Z (cur - prev)) (f_of_Z 8)) dt) (f_of_Z 1000000))
  else acc.

(** src/internal/loadtest/metrics.go:295-311 [summarizeNetwork: loop] *)
Fixpoint network_values (rin rout : list float64) (samples : list ServerMetrics) : list float64 * list float64 :=
  match samples with
  | prev :: (cur :: _) as rest =>
      let dt := f_sub (UptimeSec cur) (UptimeSec prev) in
      if f_le dt (f_of_Z 0) then network_values rin rout rest
      else network_values (network_rate rin (sm_BytesReceived prev) (sm_BytesReceived cur) dt)
             (network_rate rout (sm_BytesSent prev) (sm_BytesSent cur) dt) rest
  | _ => (rin, rout)
  end.

(** src/internal/loadtest/metrics.go:295-311 [summarizeNetwork] *)
Definition summarizeNetwork (samples : list ServerMetrics) : option (SummaryStats * SummaryStats) :=
  let '(rin, rout) := network_values [] [] samples in
  i ← summarize rin; o ← summarize rout; Some (i, o).

(** src/internal/loadtest/metrics.go:313-322 [inferQuality] *)
Definition inferQuality (lossPct jitterP95 rttP95 : float64) : string :=
  let ge x n := f_le (f_of_Z n) x in
  if ge lossPct 5 || ge jitterP95 80 || ge rttP95 500 then "POOR"
  else if ge lossPct 1 || ge jitterP95 40 || ge rttP95 250 then "WARNING"
  else "GOOD".

(** src/internal/loadtest/metrics.go:326-333 [worstQuality: loop] *)
Fixpoint worst_from (out : string) (values : list string) : string :=
  match values with
  | [] => out
  | v :: values =>
      if decide (v = "POOR") then "POOR" else worst_from (if decide (v = "WARNING") then "WARNING" else out) values
  end.
(** src/internal/loadtest/metrics.go:324-335 [worstQuality] *)
Definition worstQuality (values : list string) : string := worst_from "GOOD" values.

(** src/internal/loadtest/metrics.go:117-149 [ResultSummary]  The counts the runner adds
    afterwards are not part of it. *)
Record ResultSummary := mkSummary {
  rs_Participants : Z; rs_PeerConnections : EntityMetrics; rs_Tracks : EntityMetrics; rs_Publications : EntityMetrics;
  rs_Subscriptions : EntityMetrics; rs_Negotiations : NegotiationMetrics; rs_Goroutines : SummaryStats;
  rs_HeapAllocMB : SummaryStats; rs_CPUPercent : SummaryStats; rs_NetworkInMbps : SummaryStats;
  rs_NetworkOutMbps : SummaryStats; rs_PacketsSent : Z; rs_PacketsReceived : Z; rs_PacketsLost : Z;
  rs_PacketLossPct : float64; rs_RTTMs : SummaryStats; rs_JitterMs : SummaryStats; rs_BitrateInMbps : SummaryStats;
  rs_BitrateOutMbps : SummaryStats; rs_ConnectionTimeMs : SummaryStats; rs_MediaStartTimeMs : SummaryStats;
  rs_AudioQuality : string; rs_VideoQuality : string; rs_ConnectionQuality : string; rs_OverallQuality : string;
  rs_LikelyBottleneck : string
}.

(** src/internal/loadtest/metrics.go:337-348 [inferBottleneck] *)
Definition inferBottleneck (cpu netOut heap : SummaryStats) (lossPct : float64) : string :=
  if f_le (f_of_Z 80) (P95 cpu) then "CPU"
  else if f_lt (f_of_Z 0) (P95 netOut) && f_le (f_of_Z 1) lossPct then "network"
  else if f_lt (f_mul (Min heap) (f_div (f_of_Z 3) (f_of_Z 2))) (Max heap) && f_lt (f_of_Z 128) (f_sub (Max heap) (Min heap))
  then "memory"
  else "not identified".

(** src/internal/loadtest/metrics.go:179-194 [Summarize: packets]  uint64 and int64 sums
    over all samples. *)
Definition add_packets (acc : Z * Z * Z) (s : ClientSample) : Z * Z * Z :=
  let '(sent, received, lost) := acc in
  ((sent + cs_PacketsSent s) mod 2 ^ 64, (received + cs_PacketsReceived s) mod 2 ^ 64, wrap64 (lost + cs_PacketsLost s)).
Definition packetLossPct (received lost : Z) : float64 :=
  let total := f_add (f_of_Z received) (f_of_Z lost) in
  if f_lt (f_of_Z 0) total then f_mul (f_div (f_of_Z lost) total) (f_of_Z 100) else f_of_Z 0.

(** src/internal/loadtest/metrics.go:151-207 [Summarize]  The summary of the result. *)
Definition Summarize (cfg : Config) (server : list ServerMetrics) (clients : list ClientSample) : option ResultSummary :=
  let z := mkLtEntity 0 0 0 0 in
  let end_of {A} (f : ServerMetrics → A) (d : A) := from_option f d (last server) in
  let positive f := foldl appendPositive [] (f <$> clients) in
  let '(sent, received, lost) := foldl add_packets (0, 0, 0) clients in
  let loss := packetLossPct received lost in
  goroutines ← summarize ((λ m, f_of_Z (sm_Goroutines m)) <$> server);
  heap ← summarize ((λ m, bytesToMB (sm_HeapAllocBytes m)) <$> server);
  cpu ← summarizeCPU server;
  '(netIn, netOut) ← summarizeNetwork server;
  rtt ← summarize (positive RTTMs);
  jitter ← summarize (positive JitterMs);
  brIn ← summarize (positive (λ s, f_div (BitrateInBps s) (f_of_Z 1000000)));
  brOut ← summarize (positive (λ s, f_div (BitrateOutBps s) (f_of_Z 1000000)));
  conn ← summarize (positive ConnectionTimeMs);
  media ← summarize (positive MediaStartMs);
  let audio := inferQuality loss (P95 jitter) (P95 rtt) in
  let video := inferQuality loss (P95 jitter) (P95 rtt) in
  let connection := inferQuality loss (f_of_Z 0) (P95 rtt) in
  Some (mkSummary (Participants cfg) (end_of sm_PeerConns z) (end_of sm_Tracks z) (end_of sm_Publications z)
          (end_of sm_Subscriptions z) (end_of sm_Negotiations (mkLtNeg 0 0 0 0)) goroutines heap cpu netIn netOut sent received
          lost loss rtt jitter brIn brOut conn media audio video connection (worstQuality [audio; video; connection])
          (inferBottleneck cpu netOut heap loss)).

(** ** The regression gate *)

(** src/cmd/benchcheck/main.go:22-24 [regressed] *)
Definition regressed (base cur tol : float64) : bool :=
  f_lt (f_of_Z 0) base && f_lt (f_mul base (f_add (f_of_Z 1) tol)) cur.

(** src/cmd/benchcheck/main.go:62-71 [metrics] *)
Definition tracked : list (ResultSummary → float64) :=
  [λ s, P95 (rs_MediaStartTimeMs s); λ s, P95 (rs_CPUPercent s); λ s, P95 (rs_HeapAllocMB s)].

(** src/cmd/benchcheck/main.go:28-28 [tsSuffix]  Whether a text ends in a dash, eight
    digits, a T, six digits and a Z. *)
Definition stamp_at_end (l : list byte) : bool :=
  let t := drop (length l - 17) l in
  (17 <=? Z.of_nat (length l)) &&
  bool_decide (t !! 0%nat = Some x2d) && forallb is_digit (take 8 (drop 1 t)) && bool_decide (t !! 9%nat = Some x54)
  && forallb is_digit (take 6 (drop 10 t)) && bool_decide (t !! 16%nat = Some x5a).

(** [strings.TrimSuffix] *)
Definition TrimSuffix (suffix l : list byte) : list byte :=
  if decide (drop (length l - length suffix) l = suffix) then take (length l - length suffix) l else l.

(** src/cmd/benchcheck/main.go:30-40 [scenarioKey]  [base]: the last element of the path. *)
Definition scenarioKey (scenario base : list byte) : list byte :=
  match TrimSpace scenario with
  | [] => let b := TrimSuffix (bytes_of ".json") base in if stamp_at_end b then take (length b - 17) b else b
  | s => s
  end.

(** src/cmd/benchcheck/main.go:42-60 [loadDir]  The files in the order Glob returns them;
    a later one of the same scenario replaces an earlier one. *)
Definition loadDir (files : list (list byte * list byte * ResultSummary)) : gmap (list byte) ResultSummary :=
  foldl (λ m '(path, scenario, r), <[scenarioKey scenario path := r]> m) ∅ files.

(** src/cmd/benchcheck/main.go:109-127 [main: count] *)
Definition regressions (tol : float64) (base cur : gmap (list byte) ResultSummary) : nat :=
  length (filter (λ x, regressed (x.2 x.1.1) (x.2 x.1.2) tol = true)
    ((snd <$> map_to_list (map_zip base cur)) ≫= λ '(b, c), (λ get : ResultSummary → float64, (b, c, get)) <$> tracked)).

(** src/cmd/benchcheck/main.go:94-135 [main]  The exit code, once both directories are
    read. *)
Definition exit_code (tol : float64) (base cur : gmap (list byte) ResultSummary) : Z :=
  if (0 <? regressions tol base cur)%nat then 1 else 0.

(** ** Configuration *)

(** A configuration a run can start from. *)
Definition runnable (c : Config) : Prop :=
  ServerURL c ≠ "" ∧ RoomID c ≠ "" ∧ 0 < Participants c ∧ 0 ≤ Publishers c ≤ Participants c ∧ 0 < Duration c ∧ 0 < SamplePeriod c.

Lemma Normalize_ok c c' : Normalize c = inr c' → runnable c' ∧ PublisherCount c' = PublisherCount c ∧ Normalize c' = inr c'.
Proof.
  unfold Normalize, runnable, PublisherCount.
  destruct (decide (ServerURL c = "")) as [|Hu]; [done|]. destruct (decide (RoomID c = "")) as [|Hr]; [done|].
  destruct (Participants c <=? 0) eqn:E1; [done|]. cbn zeta.
  destruct (Participants c <? (if Publishers c <? 0 then Participants c else Publishers c)) eqn:E2; [done|].
  destruct (Duration c <=? 0) eqn:E3; [done|]. destruct (SamplePeriod c <=? 0) eqn:E4; [done|].
  intros [= <-]. cbn [ServerURL RoomID Participants Publishers Duration SamplePeriod]. rewrite E1, E3, E4.
  rewrite !decide_False by done.
  destruct (Publishers c <? 0) eqn:E5; zbool; (split; [split_and!; (done || lia)|]); simpl.
  - rewrite (proj2 (Z.ltb_ge (Participants c) 0)), Z.ltb_irrefl by lia. done.
  - rewrite (proj2 (Z.ltb_ge (Publishers c) 0)), (proj2 (Z.ltb_ge (Participants c) (Publishers c))) by lia. done.
Qed.

(** Every participant has a node to talk to. *)
Lemma NodeURL_total c i : ∃ u, NodeURL c i = Some u ∧ u ∈ NodeURLs c.
Proof.
  unfold NodeURL. assert (Hne : NodeURLs c ≠ []) by (unfold NodeURLs; by destruct (ServerURLs c)).
  assert (Hl : (0 < length (NodeURLs c))%nat) by (destruct (NodeURLs c); [done|simpl; lia]).
  assert (H : ∃ k, (k < length (NodeURLs c))%nat ∧
    (if i <? 0 then NodeURLs c !! 0%nat else NodeURLs c !! Z.to_nat (Z.rem i (Z.of_nat (length (NodeURLs c))))) = NodeURLs c !! k).
  { destruct (i <? 0) eqn:E; [by exists 0%nat|]. zbool. eexists. split; [|done].
    rewrite Z.rem_mod_nonneg by lia. pose proof (Z.mod_pos_bound i (Z.of_nat (length (NodeURLs c)))). lia. }
  destruct H as (k & Hk & ->). destruct (lookup_lt_is_Some_2 _ _ Hk) as [u Hu]. exists u. split; [done|].
  by eapply list_elem_of_lookup_2.
Qed.

(** Every preset can be run. *)
Lemma presets_run name p c :
  ScenarioPreset name = Some p → ServerURL c ≠ "" → RoomID c ≠ "" → 0 < SamplePeriod c →
  ∃ c', Normalize (apply p c) = inr c' ∧ runnable c' ∧ Participants c' = participants p ∧ Publishers c' = publishers p.
Proof.
  intros Hp Hu Hr Hs.
  assert (Hok : 0 < participants p ∧ 0 ≤ publishers p ≤ participants p ∧ 0 < duration p).
  { assert (H : map_Forall (λ _ p, 0 < participants p ∧ (0 ≤ publishers p ∧ publishers p ≤ participants p) ∧ 0 < duration p) scenarios).
    { refine (bool_decide_unpack _ _). vm_compute. exact I. }
    by apply (H name). }
  assert (Hn : Normalize (apply p c) = inr (apply p c)).
  { unfold Normalize, apply. simpl. rewrite !decide_False by done.
    rewrite (proj2 (Z.leb_gt (participants p) 0)), (proj2 (Z.ltb_ge (publishers p) 0)) by lia.
    rewrite (proj2 (Z.ltb_ge (participants p) (publishers p))), (proj2 (Z.leb_gt (duration p) 0)) by lia.
    by rewrite (proj2 (Z.leb_gt (SamplePeriod c) 0)) by lia. }
  exists (apply p c). split; [done|]. apply Normalize_ok in Hn as (Hn & _). done.
Qed.

(** ** Tokens *)

Section token_lemmas.
Context {MC : Mac} {ML : MacLaws MC} {J : TokenJSON} {JL : TokenJSONLaws J}.

(** The claims of a participant. *)
Definition load_claims (o : AuthOptions) (now index : Z) (room : string) (publishing : bool) : Claims :=
  mkClaims ("loadtest-" +:+ fmt_int index) "" room (mkPerms true publishing true false) now (now + 3600)
    (a_Issuer o) (a_Audience o) "".

(** A token that is reported valid is accepted by a server with the same secret, for the
    room it was asked for, with publishing as asked for. *)
Lemma valid_token_accepted v o now index room publishing at_ns tok :
  a_Enabled o = true → tokenForClient o now index room publishing = (tok, true) →
  v_secret v = a_Secret o → AlgHS256 ∈ v_algs v → plain_claims (load_claims o now index room publishing) →
  policy v (load_claims o now index room publishing) at_ns = None →
  Validate v tok at_ns = inr (identity_of (load_claims o now index room publishing)).
Proof.
  intros He Ht Hs Ha Hc Hp. unfold tokenForClient in Ht. rewrite He in Ht. cbn [negb] in Ht.
  destruct (tampered o index); [by destruct (Sign _ _ _)|].
  fold (load_claims o now index room publishing) in Ht.
  destruct (sign_validate v (load_claims o now index room publishing) AlgHS256 at_ns) as (t & Hsign & Hv); [by eexists|done..|].
  rewrite <- Hs, Hsign in Ht. by injection Ht as <-.
Qed.
End token_lemmas.

Definition ratio (n d : Z) : AuthOptions := mkAuthOptions true "s" "i" "a" (f_div (f_of_Z n) (f_of_Z d)) "".

(** A quarter of invalid tokens is every fourth participant; any fraction above a half is
    all of them, and more than one is none. *)
Example invalid_ratio_is_rounded :
  (tampered (ratio 1 4) <$> [1; 2; 3; 4; 5; 8]) = [false; false; false; true; false; true] ∧
  (tampered (ratio 6 10) <$> [-1; 1; 2; 3; 4; 5; 8]) = [true; true; true; true; true; true; true] ∧
  (tampered (ratio 3 2) <$> [1; 2; 3; 4; 5; 8]) = [false; false; false; false; false; false].
Proof. vm_compute. done. Qed.

(** ** Statistics *)

(** Values as [appendPositive] lets them through. *)
Definition positive (x : float64) : Prop := f_lt (f_of_Z 0) x = true ∧ f_is_nan x = false ∧ f_is_inf x = false.

Lemma appendPositive_positive l x : Forall positive l → Forall positive (appendPositive l x).
Proof.
  intros H. unfold appendPositive. destruct (_ && _) eqn:E; [|done]. rewrite !andb_true_iff, !negb_true_iff in E.
  apply Forall_app. split; [done|]. repeat constructor; tauto.
Qed.

Lemma positive_finite x : positive x → ∃ m e, x = S754_finite false m e.
Proof. intros (H1 & H2 & H3). destruct x as [[]|[]| |[] m e]; try done. by exists m, e. Qed.

(** Among positive values, being equal as floats is being equal. *)
Lemma positive_total x y : positive x → positive y → x = y ∨ f_lt x y = true ∨ f_lt y x = true.
Proof.
  intros Hx Hy. apply positive_finite in Hx as (m & e & ->). apply positive_finite in Hy as (m' & e' & ->).
  unfold f_lt, SFltb. simpl. rewrite (Z.compare_antisym e e').
  destruct (Z.compare_spec e e') as [->|He|He]; simpl; [|by right; left|by right; right].
  change (Pos.compare_cont Eq m m') with (m ?= m')%positive. change (Pos.compare_cont Eq m' m) with (m' ?= m)%positive.
  destruct (Pos.compare_spec m m') as [->|Hm|Hm]; [by left|by right; left|right; right].
  by rewrite (proj2 (Pos.compare_lt_iff m' m)).
Qed.

Lemma float_less_positive x y : positive x → positive y → float_less x y = f_lt x y.
Proof. intros (_ & Hx & _) _. unfold float_less. rewrite Hx. by rewrite orb_false_r. Qed.

Lemma f_lt_asym x y : f_lt x y = true → f_lt y x = false.
Proof.
  intros H. destruct (f_lt y x) eqn:E; [|done]. pose proof (f_lt_trans x y x H E) as F. by rewrite f_lt_irrefl in F.
Qed.

Lemma less_asym a b : positive a → positive b → float_less a b = true → float_less b a = false.
Proof. intros Ha Hb. rewrite !float_less_positive by done. apply f_lt_asym. Qed.

Lemma not_less_trans a b c : positive a → positive b → positive c →
  float_less b a = false → float_less c b = false → float_less c a = false.
Proof.
  intros Ha Hb Hc. rewrite !float_less_positive by done. intros H1 H2. destruct (f_lt c a) eqn:E; [|done].
  destruct (positive_total b c Hb Hc) as [->|[H|H]]; [congruence| |congruence].
  pose proof (f_lt_trans b c a H E). congruence.
Qed.

Lemma f_le_not_lt x y : positive x → positive y → f_lt y x = false → f_le x y = true.
Proof.
  intros Hx Hy H. rewrite f_le_lt_eq. destruct (positive_total x y Hx Hy) as [->|[E|E]]; [|by rewrite E|congruence].
  rewrite f_eq_refl; [apply orb_true_r|]. apply Hy.
Qed.

Lemma sorted_bounds s lo hi :
  Forall positive s → StronglySorted (not_after float_less) s → s !! 0%nat = Some lo → last s = Some hi →
  Forall (λ x, f_le lo x = true ∧ f_le x hi = true) s.
Proof.
  intros Hs Hss Hlo Hhi. rewrite list.Forall_forall in Hs |- *. intros x Hx.
  assert (Hle : ∀ a b, a ∈ s → b ∈ s → not_after float_less a b → f_le a b = true).
  { intros a b Ha Hb Hab. apply f_le_not_lt; [auto..|]. unfold not_after in Hab. rewrite float_less_positive in Hab; auto. }
  assert (Hrefl : ∀ a, a ∈ s → not_after float_less a a).
  { intros a Ha. unfold not_after. rewrite float_less_positive by auto. apply f_lt_irrefl. }
  assert (Hlo' : lo ∈ s) by (by eapply list_elem_of_lookup_2).
  assert (Hhi' : hi ∈ s) by (apply last_Some in Hhi as [s' ->]; apply elem_of_app; right; apply list_elem_of_here).
  split; apply Hle; [done..| |done|done|].
  - destruct s as [|y s]; [done|]. injection Hlo as ->. apply elem_of_cons in Hx as [->|Hx]; [by apply Hrefl|].
    apply StronglySorted_inv in Hss as [_ Hss]. rewrite list.Forall_forall in Hss. by apply Hss.
  - apply last_Some in Hhi as [s' ->]. apply elem_of_app in Hx as [Hx|Hx].
    + apply (StronglySorted_app_1_elem_of _ s' [hi]); [done|done|apply list_elem_of_here].
    + apply elem_of_cons in Hx as [->|Hx]; [by apply Hrefl|by apply not_elem_of_nil in Hx].
Qed.

(** The statistics do not depend on the order the samples came in, and the extremes are
    what they are called: members of the sample that bound it. *)
Lemma summarize_exact l l' st :
  Forall positive l → l ≡ₚ l' → l ≠ [] → summarize l = Some st →
  summarize l' = Some st ∧ Min st ∈ l ∧ Max st ∈ l ∧ Forall (λ x, f_le (Min st) x = true ∧ f_le x (Max st) = true) l.
Proof.
  intros Hl Hp Hne Hs.
  assert (Hsort : sort_by float_less l = sort_by float_less l').
  { apply (sort_by_unique _ positive less_asym not_less_trans); [done|done|]. intros a b Ha Hb.
    rewrite list.Forall_forall in Hl. rewrite !float_less_positive by auto. by apply positive_total; apply Hl. }
  split.
  { rewrite <- Hs. unfold summarize. rewrite Hsort. destruct l as [|x l]; [done|].
    destruct l' as [|y l']; [|done]. by apply Permutation_nil_r in Hp. }
  pose proof (sort_by_sorted _ positive less_asym not_less_trans l Hl) as Hss.
  pose proof (sort_by_perm float_less l) as Hsp. unfold summarize in Hs. destruct l as [|x0 l0]; [done|].
  set (s := sort_by float_less (x0 :: l0)) in *. clearbody s. set (l := x0 :: l0) in *. clearbody l.
  destruct (at_index s 0) as [lo|] eqn:Elo; [|done]. cbn [mbind option_bind] in Hs.
  destruct (at_index s (Z.of_nat (length s) - 1)) as [hi|] eqn:Ehi; [|done]. cbn [mbind option_bind] in Hs.
  assert (Hst : Min st = lo ∧ Max st = hi).
  { destruct (percentile s (f_of_Z 50)); [|done]. destruct (percentile s (f_of_Z 95)); [|done].
    destruct (percentile s (f_of_Z 99)); [|done]. by injection Hs as <-. }
  destruct Hst as [-> ->]. clear Hs. unfold at_index in Elo, Ehi. simpl in Elo. destruct (_ <? 0) eqn:E in Ehi; [done|].
  assert (Hls : Forall positive s) by (by rewrite Hsp).
  rewrite list.Forall_forall in Hl. split_and!.
  - rewrite <- Hsp. by eapply list_elem_of_lookup_2.
  - rewrite <- Hsp. by eapply list_elem_of_lookup_2.
  - rewrite <- Hsp. apply sorted_bounds; [done..|]. rewrite last_lookup, <- Ehi. f_equal. zbool. lia.
Qed.

(** The percentile indices are in range. *)
Lemma indices_in_range n p :
  1 < n ≤ 2 ^ 53 → p ∈ [50; 95; 99] →
  let pos := f_mul (f_div (f_of_Z p) (f_of_Z 100)) (f_of_Z (n - 1)) in
  0 ≤ f_to_int (f_floor pos) ≤ f_to_int (f_ceil pos) ∧ f_to_int (f_ceil pos) < n.
Proof.
  intros Hn Hp pos. assert (Hb : below (n - 1) pos).
  { unfold pos. rewrite !elem_of_cons, elem_of_nil in Hp. destruct Hp as [->|[->|[->|[]]]].
    - change (f_div (f_of_Z 50) (f_of_Z 100)) with (S754_finite false 4503599627370496 (-53)). apply fraction_below; lia.
    - change (f_div (f_of_Z 95) (f_of_Z 100)) with (S754_finite false 8556839292003942 (-53)). apply fraction_below; lia.
    - change (f_div (f_of_Z 99) (f_of_Z 100)) with (S754_finite false 8917127262193582 (-53)). apply fraction_below; lia. }
  destruct (below_floor_ceil (n - 1) pos) as [H1 H2]; [lia|done|]. lia.
Qed.

Lemma percentile_returns s p :
  Z.of_nat (length s) ≤ 2 ^ 53 → p ∈ [50; 95; 99] → is_Some (percentile s (f_of_Z p)).
Proof.
  intros Hl Hp. destruct s as [|a [|b r]]; [by eexists..|]. set (s := a :: b :: r) in *.
  assert (Hat : ∀ i, 0 ≤ i < Z.of_nat (length s) → is_Some (at_index s i)).
  { intros i Hi. unfold at_index. rewrite (proj2 (Z.ltb_ge i 0)) by lia. apply lookup_lt_is_Some. lia. }
  destruct (indices_in_range (Z.of_nat (length s)) p) as [H1 H2]; [simpl in *; lia|done|].
  unfold percentile. fold s. unfold s at 1. cbn iota. cbn zeta. case_match; [apply Hat; lia|].
  match goal with |- is_Some (at_index s ?i ≫= _) => destruct (Hat i) as [u ->]; [lia|] end. cbn [mbind option_bind].
  match goal with |- is_Some (at_index s ?i ≫= _) => destruct (Hat i) as [w ->]; [lia|] end. by eexists.
Qed.

(** [summarize] returns: no index is out of range, however many samples there are. *)
Lemma summarize_returns l : Z.of_nat (length l) ≤ 2 ^ 53 → is_Some (summarize l).
Proof.
  intros Hl. unfold summarize. destruct l as [|x l]; [by eexists|].
  pose proof (sort_by_perm float_less (x :: l)) as Hsp. apply Permutation_length in Hsp.
  set (s := sort_by float_less (x :: l)) in *. clearbody s. rewrite <- Hsp in Hl.
  assert (Hat : ∀ i, 0 ≤ i < Z.of_nat (length s) → is_Some (at_index s i)).
  { intros i Hi. unfold at_index. rewrite (proj2 (Z.ltb_ge i 0)) by lia. apply lookup_lt_is_Some. lia. }
  simpl in Hsp. destruct (Hat 0) as [u ->]; [lia|]. cbn [mbind option_bind].
  destruct (Hat (Z.of_nat (length s) - 1)) as [w ->]; [lia|]. cbn [mbind option_bind].
  destruct (percentile_returns s 50) as [p1 ->]; [done|set_solver|]. cbn [mbind option_bind].
  destruct (percentile_returns s 95) as [p2 ->]; [done|set_solver|]. cbn [mbind option_bind].
  destruct (percentile_returns s 99) as [p3 ->]; [done|set_solver|]. by eexists.
Qed.

(** ** The whole summary *)

Definition keeps (v : float64) : Prop := f_lt (f_of_Z 0) v && negb (f_is_nan v) && negb (f_is_inf v) = true.

Lemma foldl_appendPositive acc l : foldl appendPositive acc l = acc ++ filter keeps l.
Proof.
  revert acc. induction l as [|x l IH]; intros acc; cbn [foldl]; [by rewrite filter_nil, app_nil_r|]. rewrite IH. unfold appendPositive.
  destruct (_ && _) eqn:E.
  - rewrite filter_cons_True by done. by rewrite <- app_assoc.
  - rewrite filter_cons_False; [done|]. unfold keeps. by rewrite E.
Qed.

Lemma kept_positive l : Forall positive (filter keeps l).
Proof.
  apply list.Forall_forall. intros x Hx. apply list_elem_of_filter in Hx as [Hx _]. unfold keeps in Hx.
  rewrite !andb_true_iff, !negb_true_iff in Hx. split_and!; tauto.
Qed.

Lemma summarize_perm l l' : Forall positive l → l ≡ₚ l' → Z.of_nat (length l) ≤ 2 ^ 53 → summarize l = summarize l'.
Proof.
  intros Hl Hp Hn. destruct (summarize_returns l Hn) as [st Hst]. destruct l as [|x l].
  - apply Permutation_nil_l in Hp as <-. done.
  - rewrite Hst. symmetry. by apply (summarize_exact (x :: l) l' st).
Qed.

(** What is kept of one figure of the samples, summarized. *)
Lemma kept_summary {A} (f : A → float64) (l l' : list A) :
  l ≡ₚ l' → Z.of_nat (length l) ≤ 2 ^ 53 →
  is_Some (summarize (foldl appendPositive [] (f <$> l))) ∧
  summarize (foldl appendPositive [] (f <$> l)) = summarize (foldl appendPositive [] (f <$> l')).
Proof.
  intros Hp Hl. rewrite !foldl_appendPositive. cbn [app].
  assert (Hn : Z.of_nat (length (filter keeps (f <$> l))) ≤ 2 ^ 53).
  { pose proof (length_filter keeps (f <$> l)). rewrite length_fmap in *. lia. }
  split; [by apply summarize_returns|]. apply summarize_perm; [apply kept_positive| |done]. by rewrite Hp.
Qed.

Lemma appendPositive_length l x : (length (appendPositive l x) ≤ S (length l))%nat.
Proof. unfold appendPositive. destruct (_ && _); [rewrite length_app; simpl|]; lia. Qed.

Lemma cpu_values_length acc l : (length (cpu_values acc l) ≤ length acc + length l)%nat.
Proof.
  revert acc. induction l as [|a [|b l] IH]; intros acc; [simpl; lia..|].
  change (cpu_values acc (a :: b :: l)) with
    (let dt := f_sub (UptimeSec b) (UptimeSec a) in
     if f_le dt (f_of_Z 0) then cpu_values acc (b :: l)
     else cpu_values (appendPositive acc (f_mul (f_div (f_sub (sm_GoCPUSeconds b) (sm_GoCPUSeconds a)) dt) (f_of_Z 100))) (b :: l)).
  cbn zeta. case_match; etrans; [apply IH| |apply IH|].
  - simpl. lia.
  - match goal with |- context [appendPositive acc ?v] => pose proof (appendPositive_length acc v) end. simpl in *. lia.
Qed.

Lemma network_rate_length acc p c dt : (length (network_rate acc p c dt) ≤ S (length acc))%nat.
Proof. unfold network_rate. case_match; [apply appendPositive_length|lia]. Qed.

Lemma network_values_length i o l :
  (length (network_values i o l).1 ≤ length i + length l)%nat ∧ (length (network_values i o l).2 ≤ length o + length l)%nat.
Proof.
  revert i o. induction l as [|a [|b l] IH]; intros i o; [simpl; lia..|].
  change (network_values i o (a :: b :: l)) with
    (let dt := f_sub (UptimeSec b) (UptimeSec a) in
     if f_le dt (f_of_Z 0) then network_values i o (b :: l)
     else network_values (network_rate i (sm_BytesReceived a) (sm_BytesReceived b) dt)
            (network_rate o (sm_BytesSent a) (sm_BytesSent b) dt) (b :: l)).
  cbn zeta. case_match.
  - destruct (IH i o). simpl in *. lia.
  - match goal with |- context [network_values ?i' ?o' (b :: l)] => destruct (IH i' o') as [H1 H2];
      pose proof (network_rate_length i (sm_BytesReceived a) (sm_BytesReceived b) (f_sub (UptimeSec b) (UptimeSec a)));
      pose proof (network_rate_length o (sm_BytesSent a) (sm_BytesSent b) (f_sub (UptimeSec b) (UptimeSec a))) end.
    simpl in *. lia.
Qed.

Lemma add_packets_perm l l' acc : l ≡ₚ l' → foldl add_packets acc l = foldl add_packets acc l'.
Proof.
  intros Hp. revert acc. induction Hp as [| |x y l|l1 l2 l3 _ IH1 _ IH2]; intros acc; cbn [foldl]; [done|auto| |by rewrite IH1].
  f_equal. destruct acc as [[s r] w]. unfold add_packets.
  rewrite !Zplus_mod_idemp_l, !wrap64_add.
  repeat match goal with |- (_, _) = (_, _) => f_equal end; f_equal; lia.
Qed.

Lemma worst_in l : worstQuality l ∈ ["POOR"; "WARNING"; "GOOD"].
Proof.
  assert (H : ∀ out, out ∈ ["POOR"; "WARNING"; "GOOD"] → worst_from out l ∈ ["POOR"; "WARNING"; "GOOD"]).
  { induction l as [|v l IH]; intros out Ho; simpl; [done|].
    case_decide; [apply list_elem_of_here|]. apply IH. case_decide; [|done]. apply list_elem_of_further, list_elem_of_here. }
  apply H. do 2 apply list_elem_of_further. apply list_elem_of_here.
Qed.

(** the summary of a run exists whatever was sampled (no percentile reads outside its
    sample), and does not depend on the order in which the participants were sampled. *)
Theorem load_summary_total cfg server clients clients' :
  Z.of_nat (length server) ≤ 2 ^ 53 → Z.of_nat (length clients) ≤ 2 ^ 53 → clients ≡ₚ clients' →
  ∃ r, Summarize cfg server clients = Some r ∧ Summarize cfg server clients' = Some r ∧
    rs_OverallQuality r ∈ ["POOR"; "WARNING"; "GOOD"].
Proof.
  intros Hs Hc Hp. unfold Summarize. rewrite <- (add_packets_perm clients clients' (0, 0, 0) Hp).
  destruct (foldl add_packets (0, 0, 0) clients) as [[sent received] lost].
  destruct (kept_summary RTTMs clients clients' Hp Hc) as [[rtt E1] <-].
  destruct (kept_summary JitterMs clients clients' Hp Hc) as [[jitter E2] <-].
  destruct (kept_summary (λ s, f_div (BitrateInBps s) (f_of_Z 1000000)) clients clients' Hp Hc) as [[brIn E3] <-].
  destruct (kept_summary (λ s, f_div (BitrateOutBps s) (f_of_Z 1000000)) clients clients' Hp Hc) as [[brOut E4] <-].
  destruct (kept_summary ConnectionTimeMs clients clients' Hp Hc) as [[conn E5] <-].
  destruct (kept_summary MediaStartMs clients clients' Hp Hc) as [[media E6] <-].
  destruct (summarize_returns ((λ m, f_of_Z (sm_Goroutines m)) <$> server)) as [gr E7]; [by rewrite length_fmap|].
  destruct (summarize_returns ((λ m, bytesToMB (sm_HeapAllocBytes m)) <$> server)) as [heap E8]; [by rewrite length_fmap|].
  destruct (summarize_returns (cpu_values [] server)) as [cpu E9].
  { pose proof (cpu_values_length [] server). simpl in *. lia. }
  assert (E10 : ∃ n, summarizeNetwork server = Some n).
  { unfold summarizeNetwork. destruct (network_values_length [] [] server) as [H1 H2]. destruct (network_values [] [] server) as [i o].
    simpl in H1, H2. destruct (summarize_returns i) as [x ->]; [lia|]. destruct (summarize_returns o) as [y ->]; [lia|]. by eexists. }
  destruct E10 as [[netIn netOut] E10]. unfold summarizeCPU. rewrite E1, E2, E3, E4, E5, E6, E7, E8, E9, E10.
  eexists. split; [reflexivity|]. split; [reflexivity|]. apply worst_in.
Qed.

(** Rounding: the 95th percentile of three samples of 2.9 ms is above all of them. *)
Example percentile_above_maximum :
  let v := f_div (f_of_Z 29) (f_of_Z 10) in
  (λ st, (Max st, f_lt (Max st) (P95 st))) <$> summarize [v; v; v] = Some (v, true).
Proof. vm_compute. reflexivity. Qed.

Definition sample_of (sent received lost : Z) : ClientSample :=
  let z := f_of_Z 0 in mkSample sent received lost z z z z z z.

(** A participant's counters grow from sample to sample; the summary adds up the samples,
    so two samples of one participant that received 200 packets in all report 300. *)
Example packets_counted_per_sample :
  foldl add_packets (0, 0, 0) [sample_of 0 100 0; sample_of 0 200 0] = (0, 300, 0).
Proof. reflexivity. Qed.

(** ** The gate *)

(** The gate fails exactly when some tracked figure of a scenario present on both sides
    regressed. *)
Lemma gate_exact tol base cur :
  exit_code tol base cur = 1 ↔
  ∃ k b c get, base !! k = Some b ∧ cur !! k = Some c ∧ get ∈ tracked ∧ regressed (get b) (get c) tol = true.
Proof.
  unfold exit_code, regressions.
  set (l := (snd <$> map_to_list (map_zip base cur)) ≫= λ '(b, c), (λ get : ResultSummary → float64, (b, c, get)) <$> tracked).
  assert (Hin : ∀ x, x ∈ l ↔ ∃ k, base !! k = Some x.1.1 ∧ cur !! k = Some x.1.2 ∧ x.2 ∈ tracked).
  { intros [[b c] get]. unfold l. rewrite list_elem_of_bind. cbn [fst snd]. split.
    - intros ([b' c'] & Hg & Hp). apply list_elem_of_fmap in Hg as (g & [= -> -> ->] & Hg).
      apply list_elem_of_fmap in Hp as ([k [b2 c2]] & [= -> ->] & Hp). apply elem_of_map_to_list, map_lookup_zip_Some in Hp as [H1 H2].
      by exists k.
    - intros (k & H1 & H2 & H3). exists (b, c). split; [apply list_elem_of_fmap; by exists get|].
      apply list_elem_of_fmap. exists (k, (b, c)). split; [done|]. apply elem_of_map_to_list, map_lookup_zip_Some. done. }
  clearbody l. split.
  - destruct (0 <? length (filter _ l))%nat eqn:E; [|done]. intros _. apply Nat.ltb_lt in E.
    destruct (filter _ l) as [|[[b c] get] r] eqn:Ef; [simpl in E; lia|].
    assert (Hx : (b, c, get) ∈ filter (λ x, regressed (x.2 x.1.1) (x.2 x.1.2) tol = true) l) by (rewrite Ef; apply list_elem_of_here).
    apply list_elem_of_filter in Hx as [Hr Hx]. apply Hin in Hx as (k & H1 & H2 & H3). by exists k, b, c, get.
  - intros (k & b & c & get & H1 & H2 & H3 & Hr).
    assert (Hx : (b, c, get) ∈ filter (λ x, regressed (x.2 x.1.1) (x.2 x.1.2) tol = true) l).
    { apply list_elem_of_filter. split; [done|]. apply Hin. by exists k. }
    destruct (filter _ l) as [|y r]; [by apply not_elem_of_nil in Hx|done].
Qed.

Definition zero_options : AuthOptions := mkAuthOptions false "" "" "" (f_of_Z 0) "".

Definition demo_load : Config :=
  mkLoadConfig "http://localhost:8090" [] "load-test" 2 1 true true true (5 * minute) 0 0 "baseline" "benchmarks" second false zero_options.

Lemma load_summary_total_witness :
  let s := λ rtt, let z := f_of_Z 0 in mkSample 10 100 1 (f_of_Z rtt) z z z z z in
  ∃ r, Summarize demo_load [] [s 10; s 600] = Some r ∧ Summarize demo_load [] [s 600; s 10] = Some r ∧
    rs_OverallQuality r = "POOR".
Proof.
  intros s. destruct (load_summary_total demo_load [] [s 10; s 600] [s 600; s 10]) as (r & H1 & H2 & _);
    [simpl; lia|simpl; lia|apply Permutation_swap|].
  exists r. split; [exact H1|]. split; [exact H2|]. vm_compute in H1. injection H1 as <-. reflexivity.
Defined.
