(* ===== verification/LoadClient.v ===== *)
(** * The participants of a load test (internal/loadtest: client, runner)

    One simulated participant reacts to the messages of the server: its state with the
    calls into the WebRTC library and the messages it sends as outputs; what the library
    answers is an argument.  The loops of the runner that start and retire participants. *)

From S2P Require Import Prelude GoFloat LoadTest.

(** ** One participant *)

(** src/internal/loadtest/client.go:19-44 [Client]  What the handlers read and write;
    [peer]: whether there is a peer connection. *)
Record Client := mkClient {
  cl_index : Z; publishing : bool; participantID : string; clusterError : string; peer : bool;
  pendingCands : list string; remoteDescSet : bool
}.

(** src/internal/loadtest/client.go:61-69 [NewClient] *)
Definition NewClient (index : Z) (publishing : bool) : Client := mkClient index publishing "" "" false [] false.

(** Calls into the library and messages to the server. *)
Inductive action :=
| AddAudioTrack | AddVideoTrack | ReceiveAudio | ReceiveVideo | CreateOffer | CreateAnswer | SetLocalDescription
| SetRemoteOffer (sdp : string) | SetRemoteAnswer (sdp : string) | AddICECandidate (cand : string)
| SendOffer | SendAnswer | SendUnsubscribe (publicationID : string).

Abbreviation CM := (M Client action).

(** Which calls succeed, and whether a peer connection can be made. *)
Record answers := mkAnswers { succeeds : action → bool; NewPeerConnection : bool }.

Section client.
Context (env : answers) (cfg : Config).

(** [false]: the call failed, and the handler returns its error. *)
Definition call (a : action) : CM bool := emit a;; mret (succeeds env a).

(** The calls of a list, up to the first that fails. *)
Fixpoint calls (l : list action) : CM bool :=
  match l with
  | [] => mret true
  | a :: l => ok ← call a; if ok : bool then calls l else mret false
  end.

Definition set_id (s : string) (c : Client) : Client :=
  mkClient (cl_index c) (publishing c) s (clusterError c) (peer c) (pendingCands c) (remoteDescSet c).
Definition set_error (s : string) (c : Client) : Client :=
  mkClient (cl_index c) (publishing c) (participantID c) s (peer c) (pendingCands c) (remoteDescSet c).
Definition set_peer (c : Client) : Client :=
  mkClient (cl_index c) (publishing c) (participantID c) (clusterError c) true (pendingCands c) (remoteDescSet c).
Definition set_pending (l : list string) (c : Client) : Client :=
  mkClient (cl_index c) (publishing c) (participantID c) (clusterError c) (peer c) l (remoteDescSet c).
(** src/internal/loadtest/client.go:440-444 [setRemoteDescSet] *)
Definition setRemoteDescSet (c : Client) : Client :=
  mkClient (cl_index c) (publishing c) (participantID c) (clusterError c) (peer c) (pendingCands c) true.

(** src/internal/loadtest/client.go:309-326 [setupPeer: media] *)
Definition media_calls (c : Client) : list action :=
  (if publishing c && PublishAudio cfg then [AddAudioTrack] else if SubscribeAll cfg then [ReceiveAudio] else [])
  ++ (if publishing c && PublishVideo cfg then [AddVideoTrack] else if SubscribeAll cfg then [ReceiveVideo] else []).

(** src/internal/loadtest/client.go:263-336 [setupPeer]  The callbacks it installs are below. *)
Definition setupPeer : CM unit :=
  when (NewPeerConnection env)
    (modify set_peer;;
     c ← get;
     ok ← calls (media_calls c ++ [CreateOffer; SetLocalDescription; SendOffer]);
     mret tt).

(** src/internal/loadtest/client.go:423-438 [drainCandidates] *)
Definition drainCandidates : CM bool :=
  c ← get;
  modify (set_pending []);;
  if peer c then calls (AddICECandidate <$> pendingCands c) else mret true.

(** src/internal/loadtest/client.go:409-421 [addRemoteCandidate] *)
Definition addRemoteCandidate (cand : string) : CM unit :=
  c ← get;
  when (negb (remoteDescSet c)) (modify (set_pending (pendingCands c ++ [cand])));;
  when (peer c && remoteDescSet c) (call (AddICECandidate cand);; mret tt).

(** src/internal/loadtest/client.go:385-407 [answerOffer] *)
Definition answerOffer (sdp : string) : CM unit :=
  c ← get;
  when (peer c)
    (ok ← call (SetRemoteOffer sdp);
     when ok
       (modify setRemoteDescSet;;
        drained ← drainCandidates;
        when drained (calls [CreateAnswer; SetLocalDescription; SendAnswer];; mret tt))).

(** src/internal/loadtest/client.go:221-230 [handleMessage: sfu_answer] *)
Definition onAnswer (sdp : string) : CM unit :=
  c ← get;
  when (peer c)
    (ok ← call (SetRemoteAnswer sdp);
     when ok (modify setRemoteDescSet;; drainCandidates;; mret tt)).

(** What the server sends. *)
Inductive inbound :=
| Welcome (participantID : string)
| RoomJoined
| ErrorMessage (code : string)
| SfuAnswer (sdp : string)
| SfuOffer (sdp : string)
| SfuCandidate (cand : string)
| PublicationAdded (publicationID participantID : string)
| OtherMessage.

(** src/internal/loadtest/client.go:192-261 [handleMessage] *)
Definition handleMessage (m : inbound) : CM unit :=
  match m with
  | Welcome id => modify (set_id id)
  | RoomJoined => setupPeer
  | ErrorMessage code => when (negb (bool_decide (code = ""))) (modify (set_error code))
  | SfuAnswer sdp => onAnswer sdp
  | SfuOffer sdp => answerOffer sdp
  | SfuCandidate cand => addRemoteCandidate cand
  | PublicationAdded pub id =>
      c ← get;
      when (negb (SubscribeAll cfg) && negb (bool_decide (pub = "")) && negb (bool_decide (id = participantID c)))
        (call (SendUnsubscribe pub);; mret tt)
  | OtherMessage => mret tt
  end.

(** src/internal/loadtest/client.go:179-190 [readLoop] *)
Definition readLoop (ms : list inbound) : CM unit := for_each ms handleMessage.
End client.

(** ** Connection times *)

(** src/internal/loadtest/client.go:276-289 [setupPeer: OnConnectionStateChange]  The time
    of the first connection, and how often the channel is closed. *)
Definition onConnected (now : Z) (s : option Z * nat) : option Z * nat :=
  match s with (None, closed) => (Some now, S closed) | (Some t, closed) => (Some t, closed) end.

(** src/internal/loadtest/client.go:290-295 [setupPeer: OnTrack] *)
Definition onTrack (now : Z) (mediaAt : option Z) : option Z := match mediaAt with None => Some now | t => t end.

(** ** The runner *)

(** src/internal/loadtest/runner.go:119-122 [startParticipants: delay] *)
Definition rampDelay (cfg : Config) : Z :=
  if (0 <? RampUp cfg) && (1 <? Participants cfg) then Z.quot (RampUp cfg) (Participants cfg - 1) else 0.

(** src/internal/loadtest/runner.go:117-150 [startParticipants]  [start]: whether a
    participant connects; [cancelled]: whether the run ends while it waits after it.  The
    indices that started, the number that failed, and whether the loop was cut short. *)
Fixpoint start_loop (cfg : Config) (start cancelled : Z → bool) (n : nat) (i : Z) (clients : list Z) (failed : Z) :
    list Z * Z * bool :=
  match n with
  | O => (clients, failed, false)
  | S n =>
      if negb (start i) then start_loop cfg start cancelled n (i + 1) clients (failed + 1)
      else if (0 <? rampDelay cfg) && (i <? Participants cfg - 1) && cancelled i then (clients ++ [i + 1], failed, true)
      else start_loop cfg start cancelled n (i + 1) (clients ++ [i + 1]) failed
  end.
Definition startParticipants (cfg : Config) (start cancelled : Z → bool) : list Z * Z * bool :=
  start_loop cfg start cancelled (Z.to_nat (Participants cfg)) 0 [] 0.

(** src/internal/loadtest/runner.go:160-173 [runJoinLeave: tick]  The participants that are
    in, the ones that were closed, and the next index. *)
Definition join_leave_tick (cfg : Config) (started : bool) (s : list Z * list Z * Z) : list Z * list Z * Z :=
  let '(clients, closed, i) := s in
  if started then
    let clients := clients ++ [i + 1] in
    match clients with
    | old :: rest => if Participants cfg <? Z.of_nat (length clients) then (rest, closed ++ [old], i + 1) else (clients, closed, i + 1)
    | [] => (clients, closed, i + 1)
    end
  else s.

(** src/internal/loadtest/runner.go:152-176 [runJoinLeave] *)
Definition runJoinLeave (cfg : Config) (ticks : list bool) : list Z * list Z * Z :=
  foldl (λ s b, join_leave_tick cfg b s) ([], [], 0) ticks.

(** src/internal/loadtest/runner.go:178-187 [rampDownClients]  The pause after each close. *)
Definition rampDownDelay (total : Z) (clients : nat) : option Z :=
  if (clients =? 0)%nat then None else Some (Z.quot total (Z.of_nat clients)).

(** ** Candidates reach the peer connection in order, once, after a description *)

Definition added (out : list action) : list string :=
  omap (λ a, match a with AddICECandidate c => Some c | _ => None end) out.

Definition received (m : inbound) : list string := match m with SfuCandidate c => [c] | _ => [] end.

(** Once a description is set there is a peer connection and nothing waits. *)
Definition settled (c : Client) : Prop := remoteDescSet c = true → peer c = true ∧ pendingCands c = [].

Section candidates.
Context (env : answers) (cfg : Config).
Hypothesis all_succeed : ∀ a, succeeds env a = true.

(** What each handler does, as one equation. *)
Lemma calls_run l c : calls env l c = (true, c, l).
Proof.
  induction l as [|a l IH]; [done|]. cbn [calls]. unfold call, mbind, M_bind, emit, mret, M_ret. simpl. rewrite all_succeed.
  by rewrite IH.
Qed.

Lemma bind_run {S E A B : Type} (m : M S E A) (f : A → M S E B) s a s1 w1 b s2 w2 :
  m s = (a, s1, w1) → f a s1 = (b, s2, w2) → (m ≫= f) s = (b, s2, w1 ++ w2).
Proof. intros H1 H2. unfold mbind, M_bind. by rewrite H1, H2. Qed.

Lemma bind_ret_run {S E A B : Type} (m : M S E A) (b : B) s a s1 w :
  m s = (a, s1, w) → (m ≫= λ _, mret b) s = (b, s1, w).
Proof. intros H. unfold mbind, M_bind, mret, M_ret. rewrite H. by rewrite app_nil_r. Qed.

Lemma call_run a c : call env a c = (true, c, [a]).
Proof. unfold call, mbind, M_bind, emit, mret, M_ret. simpl. by rewrite all_succeed. Qed.

Lemma drain_run c :
  peer c = true → drainCandidates env c = (true, set_pending [] c, AddICECandidate <$> pendingCands c).
Proof.
  intros Hp. unfold drainCandidates. do 2 (eapply (bind_run _ _ _ _ _ []); [done|]). rewrite Hp. apply calls_run.
Qed.

Lemma setup_run c :
  NewPeerConnection env = true →
  setupPeer env cfg c = (tt, set_peer c, media_calls cfg c ++ [CreateOffer; SetLocalDescription; SendOffer]).
Proof.
  intros Hn. unfold setupPeer. rewrite Hn. cbn [when].
  eapply (bind_run _ _ c tt (set_peer c) []); [done|]. eapply (bind_run _ _ _ _ _ []); [done|].
  apply (bind_ret_run _ tt _ true), calls_run.
Qed.

Lemma answer_run sdp c :
  peer c = true →
  onAnswer env sdp c = (tt, set_pending [] (setRemoteDescSet c), SetRemoteAnswer sdp :: (AddICECandidate <$> pendingCands c)).
Proof.
  intros Hp. unfold onAnswer. eapply (bind_run _ _ _ _ _ []); [done|]. rewrite Hp. cbn [when].
  eapply (bind_run _ _ _ _ _ [_]); [apply call_run|]. cbn [when]. eapply (bind_run _ _ _ _ _ []); [done|].
  apply (bind_ret_run _ tt _ true). by apply (drain_run (setRemoteDescSet c)).
Qed.

Lemma offer_run sdp c :
  peer c = true →
  answerOffer env sdp c = (tt, set_pending [] (setRemoteDescSet c),
    SetRemoteOffer sdp :: (AddICECandidate <$> pendingCands c) ++ [CreateAnswer; SetLocalDescription; SendAnswer]).
Proof.
  intros Hp. unfold answerOffer. eapply (bind_run _ _ _ _ _ []); [done|]. rewrite Hp. cbn [when].
  eapply (bind_run _ _ _ _ _ [_]); [apply call_run|]. cbn [when]. eapply (bind_run _ _ _ _ _ []); [done|].
  eapply bind_run; [by apply (drain_run (setRemoteDescSet c))|]. cbn [when]. apply (bind_ret_run _ tt _ true), calls_run.
Qed.

Lemma added_app l l' : added (l ++ l') = added l ++ added l'.
Proof. apply omap_app. Qed.

Lemma added_candidates l : added (AddICECandidate <$> l) = l.
Proof. induction l as [|c l IH]; csimpl; [done|]. unfold added in *. simpl. by rewrite IH. Qed.

Lemma added_media c : added (media_calls cfg c ++ [CreateOffer; SetLocalDescription; SendOffer]) = [].
Proof. unfold media_calls. by repeat case_match. Qed.

Lemma handle_candidates m c :
  settled c →
  settled (final (handleMessage env cfg m) c) ∧
  added (outputs (handleMessage env cfg m) c) ++ pendingCands (final (handleMessage env cfg m) c) = pendingCands c ++ received m ∧
  (remoteDescSet (final (handleMessage env cfg m) c) = false →
   added (outputs (handleMessage env cfg m) c) = [] ∧ remoteDescSet c = false).
Proof.
  intros Hc. unfold final, outputs. destruct m as [id| |code|sdp|sdp|cand|pub id|]; cbn [handleMessage received]; rewrite ?app_nil_r.
  - done.
  - destruct (NewPeerConnection env) eqn:En; [|unfold setupPeer; by rewrite En]. rewrite setup_run by done. cbn [fst snd].
    rewrite added_media. split; [|done]. intros Hr. split; [done|]. by apply Hc.
  - by case_bool_decide.
  - destruct (peer c) eqn:Hp; [|unfold onAnswer; run_M; by rewrite Hp]. rewrite answer_run by done. cbn [fst snd].
    change (added (SetRemoteAnswer sdp :: ?l)) with (added l). rewrite added_candidates, app_nil_r. by split_and!.
  - destruct (peer c) eqn:Hp; [|unfold answerOffer; run_M; by rewrite Hp]. rewrite offer_run by done. cbn [fst snd].
    change (added (SetRemoteOffer sdp :: ?l)) with (added l). rewrite added_app, added_candidates, !app_nil_r. by split_and!.
  - unfold addRemoteCandidate. run_M. destruct (remoteDescSet c) eqn:Hr; cbn [negb].
    + destruct (Hc Hr) as [Hp Hq]. rewrite Hp, Hq. cbn. rewrite Hr, Hq. split; [by intros _|]. by split.
    + rewrite andb_false_r. cbn. rewrite Hr. split; [intros H; cbn in H; congruence|done].
  - run_M. destruct (_ && _); cbn; done.
  - done.
Qed.

(** However the messages interleave, the candidates given to the peer connection followed by
    those still waiting are the candidates received, in order; none is given before a
    description was set, and none waits afterwards. *)
Lemma readLoop_candidates ms c :
  settled c →
  let c' := final (readLoop env cfg ms) c in
  let out := outputs (readLoop env cfg ms) c in
  settled c' ∧ added out ++ pendingCands c' = pendingCands c ++ (ms ≫= received) ∧
  (remoteDescSet c' = false → added out = [] ∧ remoteDescSet c = false).
Proof.
  revert c. induction ms as [|m ms IH]; intros c Hc; [by cbn; rewrite app_nil_r|]. cbn zeta. unfold readLoop in *. cbn [for_each].
  rewrite final_bind, outputs_bind. destruct (handle_candidates m c Hc) as (H1 & H2 & H3).
  destruct (IH _ H1) as (H4 & H5 & H6). split; [done|]. rewrite added_app. csimpl. split.
  - rewrite <- app_assoc, H5, app_assoc, H2. by rewrite <- app_assoc.
  - intros Hr. destruct (H6 Hr) as [-> Hm]. rewrite app_nil_r. by apply H3.
Qed.
End candidates.

(** ** The runner *)

(** Every participant is started once or counted as failed, unless the run ends while the
    loop waits. *)
Lemma start_accounts cfg start cancelled :
  0 ≤ Participants cfg →
  let '(clients, failed, cut) := startParticipants cfg start cancelled in
  NoDup clients ∧ (cut = false → Z.of_nat (length clients) + failed = Participants cfg).
Proof.
  intros Hp. unfold startParticipants.
  assert (H : ∀ n i clients failed, Forall (λ k, k ≤ i) clients → NoDup clients →
    let '(cs, f, cut) := start_loop cfg start cancelled n i clients failed in
    NoDup cs ∧ (cut = false → Z.of_nat (length cs) + f = Z.of_nat (length clients) + failed + Z.of_nat n)).
  { induction n as [|n IH]; intros i clients failed Hi Hn; cbn [start_loop]; [split; [done|lia]|].
    assert (Hi1 : Forall (λ k, k ≤ i + 1) clients) by (eapply Forall_impl; [exact Hi|]; simpl; lia).
    assert (Hn1 : NoDup (clients ++ [i + 1])).
    { apply NoDup_app. split_and!; [done| |apply NoDup_singleton]. intros k Hk. rewrite list.Forall_forall in Hi. apply Hi in Hk.
      rewrite elem_of_cons, elem_of_nil. lia. }
    destruct (start i); cbn [negb].
    - destruct (_ && _); [split; [done|done]|]. pose proof (IH (i + 1) (clients ++ [i + 1]) failed) as H.
      destruct (start_loop cfg start cancelled n (i + 1) (clients ++ [i + 1]) failed) as [[cs f] cut].
      destruct H as [H1 H2]; [apply Forall_app; split; [done|by repeat constructor]|done|]. split; [done|]. intros Hc. rewrite (H2 Hc), length_app.
      simpl. lia.
    - pose proof (IH (i + 1) clients (failed + 1) Hi1 Hn) as H.
      destruct (start_loop cfg start cancelled n (i + 1) clients (failed + 1)) as [[cs f] cut]. destruct H as [H1 H2].
      split; [done|]. intros Hc. rewrite (H2 Hc). lia. }
  pose proof (H (Z.to_nat (Participants cfg)) 0 [] 0 ltac:(constructor) ltac:(constructor)) as H'.
  destruct (start_loop _ _ _ _ _ _ _) as [[cs f] cut]. destruct H' as [H1 H2]. split; [done|]. intros Hc. rewrite (H2 Hc). simpl. lia.
Qed.

(** A run in which nobody connects is not an error, although the comment says so. *)
Lemma nobody_connects cfg cancelled :
  0 ≤ Participants cfg → startParticipants cfg (λ _, false) cancelled = ([], Participants cfg, false).
Proof.
  intros Hp. unfold startParticipants.
  assert (H : ∀ n i f, start_loop cfg (λ _, false) cancelled n i [] f = ([], f + Z.of_nat n, false)).
  { induction n as [|n IH]; intros i f; cbn [start_loop negb]; [by rewrite Z.add_0_r|]. rewrite IH. do 2 f_equal. lia. }
  rewrite H. do 2 f_equal. lia.
Qed.

(** The waits of a ramp-up fit into it. *)
Lemma ramp_fits cfg : 0 ≤ RampUp cfg → 0 ≤ (Participants cfg - 1) * rampDelay cfg ≤ RampUp cfg ∨ Participants cfg < 1.
Proof.
  intros Hr. unfold rampDelay. destruct (Z.lt_ge_cases (Participants cfg) 1) as [|Hp]; [by right|left].
  destruct (_ && _) eqn:E; [|lia]. rewrite andb_true_iff in E. destruct E as [E1 E2]. zbool.
  rewrite Z.quot_div_nonneg by lia. pose proof (Z.mul_div_le (RampUp cfg) (Participants cfg - 1)).
  pose proof (Z.div_pos (RampUp cfg) (Participants cfg - 1)). nia.
Qed.

(** The join/leave loop keeps at most the configured number in the room, and those it
    closed followed by those that are in are all it ever started, in order. *)
Lemma join_leave_window cfg ticks :
  0 < Participants cfg →
  let '(clients, closed, i) := runJoinLeave cfg ticks in
  0 ≤ i ∧ Z.of_nat (length clients) ≤ Participants cfg ∧ closed ++ clients = seqZ 1 i.
Proof.
  intros Hp. unfold runJoinLeave. induction ticks as [|b ticks IH] using rev_ind; [simpl; split_and!; [lia|lia|done]|].
  rewrite foldl_snoc. destruct (foldl _ _ ticks) as [[clients closed] i]. destruct IH as (Hi & Hl & Hs).
  unfold join_leave_tick. destruct b; [|done].
  assert (Hs' : closed ++ clients ++ [i + 1] = seqZ 1 (i + 1)).
  { rewrite app_assoc, Hs. rewrite (seqZ_app 1 i 1) by lia. f_equal. rewrite Z.add_comm. done. }
  destruct (clients ++ [i + 1]) as [|old rest] eqn:E; [by destruct clients|].
  assert (Hlen : length (old :: rest) = S (length clients)) by (rewrite <- E, length_app; simpl; lia).
  destruct (Participants cfg <? _) eqn:El; zbool; (split; [lia|]); simpl length in *; split; try lia; [|done].
  by rewrite <- app_assoc.
Qed.
