(* ===== verification/LoadRunner.v ===== *)
(** * The load-test tool: command line, clients and the run
      (internal/loadtest: config, client, runner; cmd/loadtest)

    The configuration a command line asks for, what a participant measures, and a whole
    run from its start to the result: the participants that start, the samples, the
    figures of the nodes and the order in which everything is closed.  The network and
    the clock are arguments. *)

From S2P Require Import Prelude Bytes GoStrings GoFloat GoParse GoFlag Auth Api Config LoadTest LoadClient.

(** ** The command line *)

(** One field replaced. *)
Definition with_ServerURL (v : string) (c : Config) : Config :=
  mkLoadConfig v (ServerURLs c) (RoomID c) (Participants c) (Publishers c) (PublishAudio c) (PublishVideo c) (SubscribeAll c) (Duration c) (RampUp c) (RampDown c) (Scenario c) (OutputDir c) (SamplePeriod c) (JoinLeaveLoop c) (lt_Auth c).
Definition with_ServerURLs (v : list string) (c : Config) : Config :=
  mkLoadConfig (ServerURL c) v (RoomID c) (Participants c) (Publishers c) (PublishAudio c) (PublishVideo c) (SubscribeAll c) (Duration c) (RampUp c) (RampDown c) (Scenario c) (OutputDir c) (SamplePeriod c) (JoinLeaveLoop c) (lt_Auth c).
Definition with_RoomID (v : string) (c : Config) : Config :=
  mkLoadConfig (ServerURL c) (ServerURLs c) v (Participants c) (Publishers c) (PublishAudio c) (PublishVideo c) (SubscribeAll c) (Duration c) (RampUp c) (RampDown c) (Scenario c) (OutputDir c) (SamplePeriod c) (JoinLeaveLoop c) (lt_Auth c).
Definition with_Participants (v : Z) (c : Config) : Config :=
  mkLoadConfig (ServerURL c) (ServerURLs c) (RoomID c) v (Publishers c) (PublishAudio c) (PublishVideo c) (SubscribeAll c) (Duration c) (RampUp c) (RampDown c) (Scenario c) (OutputDir c) (SamplePeriod c) (JoinLeaveLoop c) (lt_Auth c).
Definition with_Publishers (v : Z) (c : Config) : Config :=
  mkLoadConfig (ServerURL c) (ServerURLs c) (RoomID c) (Participants c) v (PublishAudio c) (PublishVideo c) (SubscribeAll c) (Duration c) (RampUp c) (RampDown c) (Scenario c) (OutputDir c) (SamplePeriod c) (JoinLeaveLoop c) (lt_Auth c).
Definition with_PublishAudio (v : bool) (c : Config) : Config :=
  mkLoadConfig (ServerURL c) (ServerURLs c) (RoomID c) (Participants c) (Publishers c) v (PublishVideo c) (SubscribeAll c) (Duration c) (RampUp c) (RampDown c) (Scenario c) (OutputDir c) (SamplePeriod c) (JoinLeaveLoop c) (lt_Auth c).
Definition with_PublishVideo (v : bool) (c : Config) : Config :=
  mkLoadConfig (ServerURL c) (ServerURLs c) (RoomID c) (Participants c) (Publishers c) (PublishAudio c) v (SubscribeAll c) (Duration c) (RampUp c) (RampDown c) (Scenario c) (OutputDir c) (SamplePeriod c) (JoinLeaveLoop c) (lt_Auth c).
Definition with_SubscribeAll (v : bool) (c : Config) : Config :=
  mkLoadConfig (ServerURL c) (ServerURLs c) (RoomID c) (Participants c) (Publishers c) (PublishAudio c) (PublishVideo c) v (Duration c) (RampUp c) (RampDown c) (Scenario c) (OutputDir c) (SamplePeriod c) (JoinLeaveLoop c) (lt_Auth c).
Definition with_Duration (v : Z) (c : Config) : Config :=
  mkLoadConfig (ServerURL c) (ServerURLs c) (RoomID c) (Participants c) (Publishers c) (PublishAudio c) (PublishVideo c) (SubscribeAll c) v (RampUp c) (RampDown c) (Scenario c) (OutputDir c) (SamplePeriod c) (JoinLeaveLoop c) (lt_Auth c).
Definition with_RampUp (v : Z) (c : Config) : Config :=
  mkLoadConfig (ServerURL c) (ServerURLs c) (RoomID c) (Participants c) (Publishers c) (PublishAudio c) (PublishVideo c) (SubscribeAll c) (Duration c) v (RampDown c) (Scenario c) (OutputDir c) (SamplePeriod c) (JoinLeaveLoop c) (lt_Auth c).
Definition with_RampDown (v : Z) (c : Config) : Config :=
  mkLoadConfig (ServerURL c) (ServerURLs c) (RoomID c) (Participants c) (Publishers c) (PublishAudio c) (PublishVideo c) (SubscribeAll c) (Duration c) (RampUp c) v (Scenario c) (OutputDir c) (SamplePeriod c) (JoinLeaveLoop c) (lt_Auth c).
Definition with_Scenario (v : string) (c : Config) : Config :=
  mkLoadConfig (ServerURL c) (ServerURLs c) (RoomID c) (Participants c) (Publishers c) (PublishAudio c) (PublishVideo c) (SubscribeAll c) (Duration c) (RampUp c) (RampDown c) v (OutputDir c) (SamplePeriod c) (JoinLeaveLoop c) (lt_Auth c).
Definition with_OutputDir (v : string) (c : Config) : Config :=
  mkLoadConfig (ServerURL c) (ServerURLs c) (RoomID c) (Participants c) (Publishers c) (PublishAudio c) (PublishVideo c) (SubscribeAll c) (Duration c) (RampUp c) (RampDown c) (Scenario c) v (SamplePeriod c) (JoinLeaveLoop c) (lt_Auth c).
Definition with_SamplePeriod (v : Z) (c : Config) : Config :=
  mkLoadConfig (ServerURL c) (ServerURLs c) (RoomID c) (Participants c) (Publishers c) (PublishAudio c) (PublishVideo c) (SubscribeAll c) (Duration c) (RampUp c) (RampDown c) (Scenario c) (OutputDir c) v (JoinLeaveLoop c) (lt_Auth c).
Definition with_lt_Auth (v : AuthOptions) (c : Config) : Config :=
  mkLoadConfig (ServerURL c) (ServerURLs c) (RoomID c) (Participants c) (Publishers c) (PublishAudio c) (PublishVideo c) (SubscribeAll c) (Duration c) (RampUp c) (RampDown c) (Scenario c) (OutputDir c) (SamplePeriod c) (JoinLeaveLoop c) v.
Definition with_a_Enabled (v : bool) (c : AuthOptions) : AuthOptions :=
  mkAuthOptions v (a_Secret c) (a_Issuer c) (a_Audience c) (a_InvalidRatio c) (a_AdminToken c).
Definition with_a_Secret (v : string) (c : AuthOptions) : AuthOptions :=
  mkAuthOptions (a_Enabled c) v (a_Issuer c) (a_Audience c) (a_InvalidRatio c) (a_AdminToken c).
Definition with_a_InvalidRatio (v : float64) (c : AuthOptions) : AuthOptions :=
  mkAuthOptions (a_Enabled c) (a_Secret c) (a_Issuer c) (a_Audience c) v (a_AdminToken c).
Definition with_a_AdminToken (v : string) (c : AuthOptions) : AuthOptions :=
  mkAuthOptions (a_Enabled c) (a_Secret c) (a_Issuer c) (a_Audience c) (a_InvalidRatio c) v.
(** The variables the flags write: the configuration, and the list of servers as text. *)
Definition vars : Type := Config * string.

(** The kinds of flags: what their text is read as, and where the value goes. *)
Definition string_flag (name : string) (put : string → Config → Config) : flag vars :=
  mkFlag name false (λ s v, Some (put s v.1, v.2)).
Definition int_flag (name : string) (put : Z → Config → Config) : flag vars :=
  mkFlag name false (λ s v, n ← ParseInt0 s; Some (put n v.1, v.2)).
Definition bool_flag (name : string) (put : bool → Config → Config) : flag vars :=
  mkFlag name true (λ s v, b ← ParseBool s; Some (put b v.1, v.2)).
Definition duration_flag (name : string) (put : Z → Config → Config) : flag vars :=
  mkFlag name false (λ s v, d ← ParseDuration (bytes_of s); Some (put d v.1, v.2)).
Definition auth_with {A} (put : A → AuthOptions → AuthOptions) (x : A) (c : Config) : Config :=
  with_lt_Auth (put x (lt_Auth c)) c.

Section command_line.
Context (env : string → string) (ParseFloat : string → option float64).

(** src/internal/loadtest/config.go:83-101 [ParseFlags: flags] *)
Definition load_flags : list (flag vars) :=
  [string_flag "server-url" with_ServerURL;
   mkFlag "server-urls" false (λ s v, Some (v.1, s));
   string_flag "room" with_RoomID;
   int_flag "participants" with_Participants;
   int_flag "publishers" with_Publishers;
   bool_flag "publish-audio" with_PublishAudio;
   bool_flag "publish-video" with_PublishVideo;
   bool_flag "subscribe-all" with_SubscribeAll;
   duration_flag "duration" with_Duration;
   duration_flag "ramp-up" with_RampUp;
   duration_flag "ramp-down" with_RampDown;
   string_flag "scenario" with_Scenario;
   string_flag "output-dir" with_OutputDir;
   duration_flag "sample-period" with_SamplePeriod;
   bool_flag "auth" (auth_with with_a_Enabled);
   string_flag "auth-secret" (auth_with with_a_Secret);
   mkFlag "auth-invalid-ratio" false (λ s v, x ← ParseFloat s; Some (auth_with with_a_InvalidRatio x v.1, v.2));
   string_flag "admin-token" (auth_with with_a_AdminToken)].

(** src/internal/loadtest/config.go:75-81 [ParseFlags: preset]  The scenario named on the
    command line before anything else is read. *)
Definition preset_config (args : list string) : Config :=
  let cfg := DefaultConfig env ParseFloat in
  let scenario := scenarioArg args in
  let cfg := if decide (scenario = "") then cfg else with_Scenario scenario cfg in
  match ScenarioPreset (Scenario cfg) with Some preset => apply preset cfg | None => cfg end.

(** A bad command line, or a configuration that is refused. *)
Inductive load_error := FlagError (e : flag_error) | Refused (msg : string).

(** The end of ParseFlags: the servers are split, the configuration is checked. *)
Definition finish (v : vars) : load_error + Config :=
  match Normalize (with_ServerURLs (splitList v.2) v.1) with inl e => inl (Refused e) | inr cfg => inr cfg end.

(** src/internal/loadtest/config.go:74-107 [ParseFlags] *)
Definition ParseFlags (args : list string) : load_error + Config :=
  let cfg := preset_config args in
  match GoFlag.parse load_flags args (cfg, string_of (join_on x2c (bytes_of <$> ServerURLs cfg))) with
  | inl e => inl (FlagError e)
  | inr (v, _) => finish v
  end.
End command_line.

(** ** A participant: connecting, measuring, leaving *)

(** src/internal/loadtest/client.go:46-51 [target] *)
Definition target (cfg : Config) (serverURL : string) : string := if decide (serverURL = "") then ServerURL cfg else serverURL.

Section start.
Context {MC : Mac} {J : TokenJSON}.

(** src/internal/loadtest/client.go:73-76 [Start: header]  The value of the
    subprotocol header, empty when there is none. *)
Definition dial_protocols (cfg : Config) (now index : Z) (publishing : bool) : list byte :=
  match (tokenForClient (lt_Auth cfg) now index (RoomID cfg) publishing).1 with
  | [] => []
  | tok => bytes_of "pulsertc, pulsertc.token." ++ tok
  end.

(** What a participant does to the network. *)
Inductive net_action :=
| Dial (url : string) (protocols : list byte) | StartReading | SendJoin (room : string) | ClosePeer | CloseSocket.

(** src/internal/loadtest/client.go:71-91 [Start]  [dialed], [joined]: whether the dial and
    the first message succeed; [true] is success. *)
Definition Start (cfg : Config) (url : string) (now index : Z) (publishing dialed joined : bool) : list net_action * bool :=
  let dial := Dial (target cfg url) (dial_protocols cfg now index publishing) in
  if negb dialed then ([dial], false) else ([dial; StartReading; SendJoin (RoomID cfg)], joined).

(** src/internal/loadtest/client.go:93-105 [Close]  [pc], [ws]: whether there is a peer
    connection and a socket. *)
Definition Close (pc ws : bool) : list net_action := (if pc then [ClosePeer] else []) ++ (if ws then [CloseSocket] else []).
End start.

(** src/internal/loadtest/client.go:107-116 [WaitConnected]  What it may return when these
    channels are closed; nothing: it waits. *)
Inductive wait_outcome := Connected | Expired | ClosedEarly.
Definition WaitConnected (connected expired done_ : bool) : list wait_outcome :=
  (if connected then [Connected] else []) ++ (if expired then [Expired] else []) ++ (if done_ then [ClosedEarly] else []).

(** The entries of a report of the WebRTC library that are read. *)
Inductive stat :=
| OutboundStats (packets bytes : Z)
| InboundStats (packets lost bytes : Z) (jitter : float64)
| PairStats (nominated : bool) (rtt : float64)
| OtherStats.

(** What the loop of Sample adds up. *)
Record tally := mkTally {
  t_sent : Z; t_received : Z; t_lost : Z; t_bytesSent : Z; t_bytesReceived : Z; t_jitter : float64; t_rtt : float64
}.
Definition no_tally : tally := mkTally 0 0 0 0 0 (f_of_Z 0) (f_of_Z 0).

(** src/internal/loadtest/client.go:143-160 [Sample: loop]  Counters are 64 bits wide. *)
Definition add_stat (t : tally) (st : stat) : tally :=
  let ms x := f_mul x (f_of_Z 1000) in
  match st with
  | OutboundStats p b =>
      mkTally ((t_sent t + p) mod 2 ^ 64) (t_received t) (t_lost t) ((t_bytesSent t + b) mod 2 ^ 64) (t_bytesReceived t)
        (t_jitter t) (t_rtt t)
  | InboundStats p l b j =>
      mkTally (t_sent t) ((t_received t + p) mod 2 ^ 64) (wrap64 (t_lost t + l)) (t_bytesSent t)
        ((t_bytesReceived t + b) mod 2 ^ 64) (if f_lt (f_of_Z 0) j then ms j else t_jitter t) (t_rtt t)
  | PairStats nominated rtt =>
      mkTally (t_sent t) (t_received t) (t_lost t) (t_bytesSent t) (t_bytesReceived t) (t_jitter t)
        (if nominated && f_lt (f_of_Z 0) rtt then ms rtt else t_rtt t)
  | OtherStats => t
  end.

(** The times a participant remembers, and its last sample: bytes sent and received, and
    when. *)
Record meters := mkMeters {
  startedAt : Z; connectedAt : option Z; mediaAt : option Z; lastStats : option (Z * Z * Z)
}.

(** src/internal/loadtest/client.go:164-169 [Sample: bitrate] *)
Definition bitrate (bytes prev : Z) (dt : float64) : float64 :=
  if prev <=? bytes then f_div (f_mul (f_of_Z (bytes - prev)) (f_of_Z 8)) dt else f_of_Z 0.

(** Milliseconds since the start, to the microsecond. *)
Definition since_start (m : meters) (t : option Z) : float64 :=
  match t with
  | Some t => f_div (f_of_Z (Z.quot (time_sub t (startedAt m)) 1000)) (f_of_Z 1000)
  | None => f_of_Z 0
  end.

(** src/internal/loadtest/client.go:118-177 [Sample]  [report]: the statistics of the peer
    connection in the order the map is visited, [None] without a connection. *)
Definition Sample (m : meters) (now : Z) (report : option (list stat)) : ClientSample * meters :=
  let conn := since_start m (connectedAt m) in
  let media := since_start m (mediaAt m) in
  let z := f_of_Z 0 in
  match report with
  | None => (mkSample 0 0 0 z z z z conn media, m)
  | Some sts =>
      let t := foldl add_stat no_tally sts in
      let '(bout, bin) :=
        match lastStats m with
        | Some (sent, received, at_) =>
            let dt := Seconds (time_sub now at_) in
            if f_lt z dt then (bitrate (t_bytesSent t) sent dt, bitrate (t_bytesReceived t) received dt) else (z, z)
        | None => (z, z)
        end in
      (mkSample (t_sent t) (t_received t) (t_lost t) (t_rtt t) (t_jitter t) bout bin conn media,
       mkMeters (startedAt m) (connectedAt m) (mediaAt m) (Some (t_bytesSent t, t_bytesReceived t, now)))
  end.

(** ** A run *)

(** What the network does during a run: which participants start and during whose pause
    the time is up; which ticks of the join/leave loop start a participant; the answers to
    the requests for the server's metrics, one per period and one at the end; the samples
    of the participants, one list per period; the error code each participant last got;
    the cluster block of every node ([None]: the request failed) with its reading; the
    path of the file written, or the failure. *)
Record world (raw : Type) := mkWorld {
  w_start : Z → bool; w_cancelled : Z → bool; w_ticks : list bool;
  w_server : list (option ServerMetrics); w_final : option ServerMetrics; w_clients : list (list ClientSample);
  w_clusterError : Z → string; w_block : string → option raw; w_decode : raw → option (Z * Z * Z);
  w_write : option string
}.
Arguments mkWorld {raw} _ _ _ _ _ _ _ _ _ _.
Arguments w_start {raw} _ _.
Arguments w_cancelled {raw} _ _.
Arguments w_ticks {raw} _.
Arguments w_server {raw} _.
Arguments w_final {raw} _.
Arguments w_clients {raw} _.
Arguments w_clusterError {raw} _ _.
Arguments w_block {raw} _ _.
Arguments w_decode {raw} _ _.
Arguments w_write {raw} _.

(** src/internal/loadtest/metrics.go:93-107 [Result]  The summary with the counts the
    runner adds. *)
Record Result (raw : Type) := mkResult {
  r_Scenario : string; r_Summary : ResultSummary; r_FailedConnections : Z; r_RedirectedConnections : Z;
  r_LocalMessages : Z; r_RemoteMessages : Z; r_RemoteMessageErrors : Z; r_NodeClusters : gmap string raw
}.
Arguments mkResult {raw} _ _ _ _ _ _ _ _.
Arguments r_Scenario {raw} _.
Arguments r_Summary {raw} _.
Arguments r_FailedConnections {raw} _.
Arguments r_RedirectedConnections {raw} _.
Arguments r_LocalMessages {raw} _.
Arguments r_RemoteMessages {raw} _.
Arguments r_RemoteMessageErrors {raw} _.
Arguments r_NodeClusters {raw} _.

Section run.
Context {raw : Type} (cfg : Config) (w : world raw).

(** src/internal/loadtest/runner.go:63-73 [Run: participants]  The participants at the end
    of the test, the number that failed to start, those closed before, those closed by the
    ramp-down; [None]: the deadline passed while participants were being added. *)
Definition run_participants : option (list Z * Z * list Z * list Z) :=
  if JoinLeaveLoop cfg then
    let '(clients, closed, _) := runJoinLeave cfg (w_ticks w) in Some (clients, 0, closed, [])
  else
    let '(clients, failed, cut) := startParticipants cfg (w_start w) (w_cancelled w) in
    if cut : bool then None else Some (clients, failed, [], if 0 <? RampDown cfg then clients else []).

(** The counts of the messages between nodes, and the blocks of the nodes. *)
Definition node_counts : Type := gmap string raw * (Z * Z * Z).

(** src/internal/loadtest/runner.go:94-111 [Run: nodes]  One node: its block is kept, and
    its counters are added when they can be read. *)
Definition add_node (acc : node_counts) (u : string) : node_counts :=
  match w_block w u with
  | None => acc
  | Some b =>
      let '(m, (local, remote, errors)) := acc in
      (<[u := b]> m,
       match w_decode w b with
       | Some (l, r, e) => (wrap64 (local + l), wrap64 (remote + r), wrap64 (errors + e))
       | None => (local, remote, errors)
       end)
  end.

(** src/internal/loadtest/runner.go:91-112 [Run: nodes] *)
Definition node_figures : node_counts :=
  let urls := NodeURLs cfg in
  if (1 <? length urls)%nat then foldl add_node (∅, (0, 0, 0)) urls else (∅, (0, 0, 0)).

(** src/internal/loadtest/runner.go:39-61 [Run: samples]  What the sampling loop collects,
    with the last request of the end. *)
Definition server_samples : list ServerMetrics := omap id (w_server w) ++ option_list (w_final w).

(** src/internal/loadtest/runner.go:27-115 [Run]  The result with the file's path, and the
    participants closed, in order; [None] in the result: the run failed.  The outer [None]
    is an index out of range. *)
Definition Run : option (option (Result raw * option string) * list Z) :=
  match run_participants with
  | None => Some (None, [])
  | Some (clients, failed, before, down) =>
      s ← Summarize cfg server_samples (concat (w_clients w));
      let redirected := Z.of_nat (length (filter (λ c, w_clusterError w c ≠ "") clients)) in
      let '(nodes, (local, remote, errors)) := node_figures in
      Some (Some (mkResult (Scenario cfg) s failed redirected local remote errors nodes, w_write w),
            before ++ down ++ clients)
  end.
End run.

Section credentials.
Context {MC : Mac} {J : TokenJSON}.

(** src/internal/loadtest/runner.go:192-201 [adminToken] *)
Definition adminToken (o : AuthOptions) (now : Z) : list byte :=
  if negb (a_Enabled o) then []
  else if decide (a_AdminToken o = "") then (tokenForClient o now (-1) "" false).1
  else bytes_of (a_AdminToken o).

(** src/internal/loadtest/runner.go:230-249 [fetchServerMetrics]  The URL and the
    authorization header of the request. *)
Definition metrics_request (o : AuthOptions) (base : string) (now : Z) : list byte * list byte :=
  (TrimRight x2f (bytes_of base) ++ bytes_of "/metrics.json",
   match adminToken o now with [] => [] | tok => bytes_of "Bearer " ++ tok end).
End credentials.

(** src/internal/loadtest/runner.go:230-249 [fetchServerMetrics]  [answer]: the status and
    the body; [decode]: the JSON reader. *)
Definition fetchServerMetrics {body : Type} (decode : body → option ServerMetrics) (answer : option (Z * body)) :
    option ServerMetrics :=
  '(status, b) ← answer;
  if 400 <=? status then None else decode b.

(** src/internal/loadtest/runner.go:203-228 [fetchClusterBlock]  The same request, of which
    only the block called cluster is kept. *)
Definition fetchClusterBlock {body raw : Type} (cluster : body → option raw) (answer : option (Z * body)) : option raw :=
  '(status, b) ← answer;
  if 400 <=? status then None else cluster b.

(** src/cmd/loadtest/main.go:12-21 [main]  The exit code, and what is reported. *)
Definition loadtest_main {raw} (env : string → string) (ParseFloat : string → option float64) (args : list string)
    (w : Config → world raw) : option (Z * option (Result raw)) :=
  match ParseFlags env ParseFloat args with
  | inl _ => Some (1, None)
  | inr cfg =>
      '(out, _) ← Run cfg (w cfg);
      match out with
      | Some (r, Some _) => Some (0, Some r)
      | _ => Some (1, None)
      end
  end.

(** ** The command line is what the run is configured with *)

Lemma scenarioArg_equals s rest : scenarioArg (("--scenario=" +:+ s) :: rest) = s.
Proof.
  assert (E : String.substring 11 (String.length ("--scenario=" +:+ s) - 11) ("--scenario=" +:+ s) = s).
  { transitivity (String.substring 0 (String.length s - 0) s);
      [with_strategy transparent [String.append] reflexivity|]. rewrite Nat.sub_0_r. apply substring_all. }
  assert (P : String.prefix "--scenario=" ("--scenario=" +:+ s) = true)
    by (destruct s; with_strategy transparent [String.append] reflexivity).
  cbn [scenarioArg]. rewrite P, E. destruct rest as [|next rest]; [done|]. rewrite decide_False; [done|].
  intros H. apply (f_equal (λ x, length (bytes_of x))) in H. rewrite bytes_of_app, length_app in H. cbn in H. lia.
Qed.

Section command_line_lemmas.
Context (env : string → string) (ParseFloat : string → option float64).

(** A configuration that is accepted can be run. *)
Lemma ParseFlags_runnable args cfg : ParseFlags env ParseFloat args = inr cfg → runnable cfg.
Proof.
  unfold ParseFlags. destruct (GoFlag.parse _ _ _) as [|[v k]]; [done|]. unfold finish.
  destruct (Normalize _) as [|c] eqn:E; [done|]. intros [= <-]. by apply Normalize_ok in E as [? _].
Qed.

(** What a scenario stands for, before the other flags. *)
Definition scenario_config (s : string) : Config :=
  let cfg := with_Scenario s (DefaultConfig env ParseFloat) in
  match ScenarioPreset s with Some preset => apply preset cfg | None => cfg end.

Lemma good_scenario s : classify ("--scenario=" +:+ s) = IsFlag "scenario" (Some s).
Proof.
  apply (spell_equals true "scenario" s). split; [done|]. refine (bool_decide_unpack _ _). vm_compute. exact I.
Qed.

End command_line_lemmas.

Definition no_floats (s : string) : option float64 := None.


(** With one dash the scenario is only a name: its preset is not applied. *)
Example one_dash_scenario_is_a_name :
  let parsed := λ args, match ParseFlags (λ _, "") no_floats args with
                        | inr c => Some (Scenario c, Participants c, Publishers c) | inl _ => None end in
  parsed ["-scenario"; "1pub-20sub"] = Some ("1pub-20sub", 2, 2)
  ∧ parsed ["--scenario"; "1pub-20sub"] = Some ("1pub-20sub", 21, 1).
Proof. vm_compute. done. Qed.

(** ** The token of a participant reaches the server *)

Lemma b64_no_comma l : x2c ∉ b64_encode l.
Proof.
  rewrite b64_encode_values. intros [v [E Hv]]%list_elem_of_fmap. pose proof (b64_values_range l) as Hr.
  rewrite list.Forall_forall in Hr. pose proof (b64_value_char v (Hr v Hv)) as H. rewrite <- E in H. vm_compute in H. discriminate H.
Qed.

Section admission.
Context {MC : Mac} {ML : MacLaws MC} {J : TokenJSON} {JL : TokenJSONLaws J}.

Lemma Sign_clean claims alg secret tok : Sign claims alg secret = inr tok → (x2c ∉ tok) ∧ ∀ c, c ∈ tok → visible c = true.
Proof.
  unfold Sign. destruct (hmacHashes alg) as [h|]; [|done]. intros [= <-].
  assert (Hd : ∀ c, c = dot → visible c = true ∧ c ≠ x2c) by (by intros c ->).
  assert (H : ∀ l c, c ∈ b64_encode l → visible c = true ∧ c ≠ x2c).
  { intros l c Hc. split; [by apply b64_encode_clean in Hc as [? _]|]. intros ->. by apply b64_no_comma in Hc. }
  assert (Ht : ∀ a b d c, c ∈ (b64_encode a ++ [dot] ++ b64_encode b) ++ [dot] ++ b64_encode d → visible c = true ∧ c ≠ x2c).
  { intros a b d c. rewrite !elem_of_app, !list_elem_of_singleton. naive_solver. }
  split; [|intros c Hc; by apply Ht in Hc as [? _]]. intros Hc. by apply Ht in Hc as [_ ?].
Qed.

(** The header of a participant's dial carries its token where the server looks for it. *)
Lemma token_extracted tok r :
  x2c ∉ tok → (∀ c, c ∈ tok → visible c = true) → tok ≠ [] →
  rq_Authorization r = [] → rq_WSProtocol r = bytes_of "pulsertc, pulsertc.token." ++ tok → TokenFromRequest r = tok.
Proof.
  intros Hc Hv Hn Ha Hw. unfold TokenFromRequest. rewrite Ha, Hw.
  assert (strip_prefix bearerPrefix [] = None) as -> by done.
  unfold parseWSProtocols. rewrite decide_False by done.
  assert (E : split_on x2c (bytes_of "pulsertc, pulsertc.token." ++ tok) = [bytes_of "pulsertc"; bytes_of " pulsertc.token." ++ tok]).
  { change (bytes_of "pulsertc, pulsertc.token." ++ tok) with (bytes_of "pulsertc" ++ x2c :: (bytes_of " pulsertc.token." ++ tok)).
    rewrite split_on_cons by (refine (bool_decide_unpack _ _); vm_compute; exact I). rewrite split_on_last; [done|].
    rewrite elem_of_app. intros [H|H]; [|done]. revert H. refine (bool_decide_unpack _ _). vm_compute. exact I. }
  rewrite E. cbn [fmap list_fmap first_ws_token].
  assert (TrimSpace (bytes_of " pulsertc.token." ++ tok) = wsTokenPrefix ++ tok) as ->.
  { change (bytes_of " pulsertc.token." ++ tok) with (x20 :: wsTokenPrefix ++ tok).
    transitivity (TrimSpace (wsTokenPrefix ++ tok)); [done|]. apply TrimSpace_visible. intros c. rewrite elem_of_app.
    intros [H|H]; [|by apply Hv]. revert c H. apply list.Forall_forall. by repeat constructor. }
  assert (strip_prefix wsTokenPrefix (TrimSpace (bytes_of "pulsertc")) = None) as -> by done.
  unfold strip_prefix. rewrite take_app_length, decide_True by done. by rewrite drop_app_length.
Qed.

(** A participant whose token was not tampered with is admitted by a server that shares
    the secret, unless the address has dialed too often: as [loadtest-i], for the room of
    the run only, with the permission to publish exactly when it publishes. *)
Theorem participant_admitted cfg a now index publishing r at_ns uuid tok :
  let o := lt_Auth cfg in
  let claims := load_claims o now index (RoomID cfg) publishing in
  a_Enabled o = true → tokenForClient o now index (RoomID cfg) publishing = (tok, true) →
  cfg_Enabled (a_cfg a) = true → v_secret (cfg_validator (a_cfg a)) = a_Secret o → AlgHS256 ∈ v_algs (cfg_validator (a_cfg a)) →
  plain_claims claims → policy (cfg_validator (a_cfg a)) claims at_ns = None →
  rq_Authorization r = [] → rq_WSProtocol r = dial_protocols cfg now index publishing →
  (Allow (a_connRL a) (clientIP r) at_ns).1 = true →
  (AuthenticateRequest a r at_ns uuid).1 = inr (identity_of claims).
Proof.
  intros o claims He Ht Hse Hs Ha Hc Hp Hr Hw Hok.
  pose proof (valid_token_accepted (cfg_validator (a_cfg a)) o now index (RoomID cfg) publishing at_ns tok He Ht Hs Ha Hc Hp) as Hv.
  assert (Hcl : (x2c ∉ tok) ∧ ∀ c, c ∈ tok → visible c = true).
  { unfold tokenForClient in Ht. rewrite He in Ht. cbn [negb] in Ht.
    destruct (tampered o index); (destruct (Sign _ _ _) as [|t] eqn:E in Ht; [done|]); injection Ht as <-; try done.
    by apply Sign_clean in E. }
  assert (Hn : tok ≠ []) by (intros ->; done).
  assert (Hx : TokenFromRequest r = tok).
  { apply token_extracted; [by apply Hcl|by apply Hcl|done|done|]. rewrite Hw. unfold dial_protocols. fold o. rewrite Ht. by destruct tok. }
  unfold AuthenticateRequest. destruct (Allow _ _ _) as [ok rl]. cbn in Hok. subst ok. cbn [negb]. rewrite Hse. cbn [negb].
  by rewrite Hx, Hv.
Qed.
End admission.

(** ** Samples *)

(** The counters of a sample do not depend on the order in which the report is visited. *)
Definition counters (t : tally) : Z * Z * Z * Z * Z := (t_sent t, t_received t, t_lost t, t_bytesSent t, t_bytesReceived t).

Lemma add_stat_swap t a b : counters (add_stat (add_stat t a) b) = counters (add_stat (add_stat t b) a).
Proof.
  unfold counters. destruct a, b; cbn; rewrite ?Zplus_mod_idemp_l, ?wrap64_add;
    repeat match goal with |- (_, _) = (_, _) => f_equal end; f_equal; lia.
Qed.

Lemma add_stat_counters t t' a : counters t = counters t' → counters (add_stat t a) = counters (add_stat t' a).
Proof. unfold counters. intros [= H1 H2 H3 H4 H5]. destruct a; cbn; congruence. Qed.

Lemma sample_counters l l' t t' : l ≡ₚ l' → counters t = counters t' → counters (foldl add_stat t l) = counters (foldl add_stat t' l').
Proof.
  intros Hp. revert t t'. induction Hp as [|x l l' _ IH|x y l|l1 l2 l3 _ IH1 _ IH2]; intros t t' Ht; cbn [foldl].
  - done.
  - by apply IH, add_stat_counters.
  - assert (H : ∀ u u', counters u = counters u' → counters (foldl add_stat u l) = counters (foldl add_stat u' l)).
    { clear. induction l as [|z l IH]; intros u u' H; cbn; [done|]. by apply IH, add_stat_counters. }
    apply H. rewrite add_stat_swap. by do 2 apply add_stat_counters.
  - etrans; [by apply IH1|]. by apply IH2.
Qed.

(** The jitter does: it is that of the inbound stream visited last. *)
Example jitter_depends_on_the_order :
  let j := λ l, t_jitter (foldl add_stat no_tally l) in
  let a := InboundStats 10 0 100 (f_of_Z 1) in
  let b := InboundStats 10 0 100 (f_of_Z 2) in
  j [a; b] = f_of_Z 2000 ∧ j [b; a] = f_of_Z 1000.
Proof. vm_compute. done. Qed.

(** ** The run *)

Section run_lemmas.
Context {raw : Type} (cfg : Config) (w : world raw).

Lemma node_figures_urls u b : (node_figures cfg w).1 !! u = Some b → u ∈ NodeURLs cfg ∧ w_block w u = Some b.
Proof.
  unfold node_figures. destruct (1 <? _)%nat; [|cbn [fst]; by rewrite lookup_empty].
  assert (H : ∀ l acc, (∀ v c, acc.1 !! v = Some c → v ∈ NodeURLs cfg ∧ w_block w v = Some c) → (∀ v, v ∈ l → v ∈ NodeURLs cfg) →
    ∀ v c, (foldl (add_node w) acc l).1 !! v = Some c → v ∈ NodeURLs cfg ∧ w_block w v = Some c).
  { induction l as [|x l IH]; intros acc Hacc Hl; cbn [foldl]; [done|].
    apply IH; [|intros v Hv; by apply Hl, list_elem_of_further]. unfold add_node. destruct (w_block w x) as [b'|] eqn:E; [|done].
    destruct acc as [m [[lo re] er]]. intros v c. cbn [fst]. rewrite lookup_insert_Some. intros [[<- <-]|[_ Hv]].
    - split; [apply Hl, list_elem_of_here|done].
    - by apply (Hacc v c). }
  apply H; [|done]. intros v c. cbn [fst]. by rewrite lookup_empty.
Qed.

Definition small_samples : Prop :=
  Z.of_nat (length (server_samples w)) ≤ 2 ^ 53 ∧ Z.of_nat (length (concat (w_clients w))) ≤ 2 ^ 53.

(** Everyone is accounted for, and nobody is left connected.  A run always returns.  If its
    deadline does not pass while participants are still being added, it reports as failed
    exactly the participants that did not start, and it has closed every participant it
    started, a join/leave run those that left before the end too; it reports as redirected
    at most those that were in the room at the end, and keeps the figures of nodes it was
    told to use. *)
Theorem load_run_accounts :
  runnable cfg → small_samples →
  match run_participants cfg w with
  | None => Run cfg w = Some (None, [])
  | Some (clients, failed, before, _) =>
      ∃ r closed, Run cfg w = Some (Some (r, w_write w), closed)
        ∧ r_FailedConnections r = failed
        ∧ NoDup (before ++ clients) ∧ (∀ c, c ∈ closed ↔ c ∈ before ++ clients)
        ∧ (JoinLeaveLoop cfg = false → Z.of_nat (length clients) + failed = Participants cfg)
        ∧ (JoinLeaveLoop cfg = true → failed = 0 ∧ Z.of_nat (length clients) ≤ Participants cfg)
        ∧ 0 ≤ r_RedirectedConnections r ≤ Z.of_nat (length clients)
        ∧ (∀ u b, r_NodeClusters r !! u = Some b → u ∈ NodeURLs cfg ∧ w_block w u = Some b)
  end.
Proof.
  intros (_ & _ & Hpos & _) [Hs Hc]. unfold Run.
  destruct (run_participants cfg w) as [[[[clients failed] before] down]|] eqn:E; [|done].
  destruct (load_summary_total cfg _ _ _ Hs Hc (Permutation_refl _)) as (s & -> & _ & _). cbn [mbind option_bind].
  pose proof node_figures_urls as Hu. destruct (node_figures cfg w) as [nodes [[lo re] er]].
  do 2 eexists. split; [done|]. cbn [r_FailedConnections r_RedirectedConnections r_NodeClusters].
  split; [done|]. unfold run_participants in E.
  assert (Hf : 0 ≤ Z.of_nat (length (filter (λ c, w_clusterError w c ≠ "") clients)) ≤ Z.of_nat (length clients)).
  { pose proof (length_filter (λ c, w_clusterError w c ≠ "") clients). lia. }
  destruct (JoinLeaveLoop cfg).
  - pose proof (join_leave_window cfg (w_ticks w) Hpos) as H. destruct (runJoinLeave cfg (w_ticks w)) as [[cs cl] i].
    injection E as -> <- -> <-. destruct H as (Hi & Hl & Hq). rewrite Hq. split_and!; [apply NoDup_seqZ| |done|done|by apply Hf|by apply Hf|done].
    intros c. cbn [app]. by rewrite Hq.
  - pose proof (start_accounts cfg (w_start w) (w_cancelled w) ltac:(lia)) as H.
    destruct (startParticipants cfg _ _) as [[cs f] cut]. destruct H as [Hn Hsum]. destruct cut; [done|].
    injection E as -> -> <- <-. cbn [app]. split_and!; [done| |by intros _; apply Hsum|done|by apply Hf|by apply Hf|done].
    intros c. rewrite elem_of_app. destruct (0 <? RampDown cfg); [tauto|]. rewrite elem_of_nil. tauto.
Qed.

(** When the deadline passes in the pause after a participant, the run is an error: nothing
    is reported, and nobody is closed. *)
Lemma run_cut k :
  JoinLeaveLoop cfg = false → (∀ i, w_start w i = true) → 0 < rampDelay cfg → 0 ≤ k < Participants cfg - 1 → w_cancelled w k = true →
  Run cfg w = Some (None, []).
Proof.
  intros Hj Hst Hd Hk Hc. unfold Run, run_participants. rewrite Hj. unfold startParticipants.
  assert (H : ∀ n i clients failed, 0 ≤ i ≤ k → k < i + Z.of_nat n →
    (start_loop cfg (w_start w) (w_cancelled w) n i clients failed).2 = true).
  { induction n as [|n IH]; intros i clients failed Hi Hn; [simpl in Hn; lia|]. cbn [start_loop]. rewrite Hst. cbn [negb].
    destruct (_ && _ && w_cancelled w i) eqn:E; [done|]. apply IH; [|lia]. destruct (decide (i = k)) as [->|]; [|lia].
    rewrite Hc, (proj2 (Z.ltb_lt 0 (rampDelay cfg)) Hd), (proj2 (Z.ltb_lt k _)) in E by lia. done. }
  specialize (H (Z.to_nat (Participants cfg)) 0 [] 0 ltac:(lia) ltac:(lia)).
  destruct (start_loop _ _ _ _ _ _ _) as [[cs f] cut]. cbn in H. by subst cut.
Qed.
End run_lemmas.

(** A network in which everybody connects at once: the time is up in the pause after a
    participant when the pauses so far add up to the duration. *)
Definition prompt (cfg : Config) : world unit :=
  mkWorld (λ _, true) (λ i, Duration cfg <=? (i + 1) * rampDelay cfg) [] [] None [] (λ _, "") (λ _, None) (λ _, None) (Some "out.json").

(** The preset that adds twenty participants over two minutes, run for one minute: the
    configuration is accepted, and the run ends in an error without a result. *)
Example ramp_outlives_the_run :
  match ParseFlags (λ _, "") no_floats ["--scenario=ramp-up"; "--duration=1m"] with
  | inr cfg => (RampUp cfg, Duration cfg) = (2 * minute, minute) ∧ Run cfg (prompt cfg) = Some (None, [])
  | inl _ => False
  end.
Proof. vm_compute. done. Qed.

(** The same preset for its ten minutes reports nobody missing. *)
Example ramp_within_the_run :
  match ParseFlags (λ _, "") no_floats ["--scenario=ramp-up"] with
  | inr cfg => match Run cfg (prompt cfg) with
               | Some (Some (r, _), closed) => r_FailedConnections r = 0 ∧ closed = seqZ 1 20
               | _ => False
               end
  | inl _ => False
  end.
Proof. vm_compute. done. Qed.

Lemma load_run_accounts_witness :
  ∃ r closed, Run demo_load (prompt demo_load) = Some (Some (r, Some "out.json"), closed) ∧ r_FailedConnections r = 0
    ∧ (∀ c, c ∈ closed ↔ c ∈ [1; 2]).
Proof.
  pose proof (load_run_accounts demo_load (prompt demo_load)) as H.
  assert (E : run_participants demo_load (prompt demo_load) = Some ([1; 2], 0, [], [])) by (vm_compute; reflexivity).
  rewrite E in H. destruct H as (r & closed & H1 & H2 & _ & H3 & _).
  - repeat split; vm_compute; discriminate.
  - split; vm_compute; discriminate.
  - exists r, closed. split; [exact H1|]. split; [exact H2|exact H3].
Defined.
