(* ===== verification/Tools.v ===== *)
(** * The developer commands (cmd/token, cmd/benchcheck)

    The command that mints a token from its flags and the environment, and the one that
    compares two directories of load-test results.  What is printed is the token, or the
    exit code; files are arguments. *)

From S2P Require Import Prelude Bytes GoStrings GoFloat GoParse GoFlag Auth Api Config LoadTest.

(** How a command that exits on a bad command line ends there: 0 when help was asked for. *)
Definition usage_exit (e : flag_error) : Z := match e with ErrHelp => 0 | _ => 2 end.

(** ** token *)

(** src/cmd/token/main.go:20-31 [main: flags]  The variables. *)
Record token_vars := mkTokenVars {
  t_sub : string; t_name : string; t_room : string; t_ttl : Z; t_issuer : string; t_audience : string; t_secret : string;
  t_join : bool; t_publish : bool; t_subscribe : bool; t_control : bool
}.

(** One variable replaced. *)
Definition put_sub (x : string) (v : token_vars) : token_vars :=
  mkTokenVars x (t_name v) (t_room v) (t_ttl v) (t_issuer v) (t_audience v) (t_secret v) (t_join v) (t_publish v) (t_subscribe v) (t_control v).
Definition put_name (x : string) (v : token_vars) : token_vars :=
  mkTokenVars (t_sub v) x (t_room v) (t_ttl v) (t_issuer v) (t_audience v) (t_secret v) (t_join v) (t_publish v) (t_subscribe v) (t_control v).
Definition put_room (x : string) (v : token_vars) : token_vars :=
  mkTokenVars (t_sub v) (t_name v) x (t_ttl v) (t_issuer v) (t_audience v) (t_secret v) (t_join v) (t_publish v) (t_subscribe v) (t_control v).
Definition put_ttl (x : Z) (v : token_vars) : token_vars :=
  mkTokenVars (t_sub v) (t_name v) (t_room v) x (t_issuer v) (t_audience v) (t_secret v) (t_join v) (t_publish v) (t_subscribe v) (t_control v).
Definition put_issuer (x : string) (v : token_vars) : token_vars :=
  mkTokenVars (t_sub v) (t_name v) (t_room v) (t_ttl v) x (t_audience v) (t_secret v) (t_join v) (t_publish v) (t_subscribe v) (t_control v).
Definition put_audience (x : string) (v : token_vars) : token_vars :=
  mkTokenVars (t_sub v) (t_name v) (t_room v) (t_ttl v) (t_issuer v) x (t_secret v) (t_join v) (t_publish v) (t_subscribe v) (t_control v).
Definition put_secret (x : string) (v : token_vars) : token_vars :=
  mkTokenVars (t_sub v) (t_name v) (t_room v) (t_ttl v) (t_issuer v) (t_audience v) x (t_join v) (t_publish v) (t_subscribe v) (t_control v).
Definition put_join (x : bool) (v : token_vars) : token_vars :=
  mkTokenVars (t_sub v) (t_name v) (t_room v) (t_ttl v) (t_issuer v) (t_audience v) (t_secret v) x (t_publish v) (t_subscribe v) (t_control v).
Definition put_publish (x : bool) (v : token_vars) : token_vars :=
  mkTokenVars (t_sub v) (t_name v) (t_room v) (t_ttl v) (t_issuer v) (t_audience v) (t_secret v) (t_join v) x (t_subscribe v) (t_control v).
Definition put_subscribe (x : bool) (v : token_vars) : token_vars :=
  mkTokenVars (t_sub v) (t_name v) (t_room v) (t_ttl v) (t_issuer v) (t_audience v) (t_secret v) (t_join v) (t_publish v) x (t_control v).
Definition put_control (x : bool) (v : token_vars) : token_vars :=
  mkTokenVars (t_sub v) (t_name v) (t_room v) (t_ttl v) (t_issuer v) (t_audience v) (t_secret v) (t_join v) (t_publish v) (t_subscribe v) x.

(** The kinds of flags. *)
Definition str (name : string) (put : string → token_vars → token_vars) : flag token_vars :=
  mkFlag name false (λ s v, Some (put s v)).
Definition boolean (name : string) (put : bool → token_vars → token_vars) : flag token_vars :=
  mkFlag name true (λ s v, b ← ParseBool s; Some (put b v)).

(** src/cmd/token/main.go:20-32 [main: flags] *)
Definition token_flags : list (flag token_vars) :=
  [str "sub" put_sub; str "name" put_name; str "room" put_room;
   mkFlag "ttl" false (λ s v, d ← ParseDuration (bytes_of s); Some (put_ttl d v));
   str "iss" put_issuer; str "aud" put_audience; str "secret" put_secret;
   boolean "join" put_join; boolean "publish" put_publish; boolean "subscribe" put_subscribe; boolean "control" put_control].

(** src/cmd/token/main.go:57-62 [envOr] *)
Definition token_envOr (env : string → string) (key fallback : string) : string :=
  let v := env key in if decide (v = "") then fallback else v.

(** src/cmd/token/main.go:20-32 [main: defaults] *)
Definition token_defaults (env : string → string) (now : Z) : token_vars :=
  mkTokenVars ("user-" +:+ fmt_int (to_Unix now)) "" "" (3600 * second) (token_envOr env "PULSERTC_JWT_ISSUER" "pulsertc")
    (token_envOr env "PULSERTC_JWT_AUDIENCE" "pulsertc") (env "PULSERTC_JWT_SECRET") true true true false.

(** src/cmd/token/main.go:40-49 [main: claims] *)
Definition token_claims (v : token_vars) (now : Z) : Claims :=
  mkClaims (t_sub v) (t_name v) (t_room v) (mkPerms (t_join v) (t_publish v) (t_subscribe v) (t_control v))
    (to_Unix now) (to_Unix (now + t_ttl v)) (t_issuer v) (t_audience v) "".

(** How the command ends. *)
Inductive ending := Exit (code : Z) | Printed (out : list byte).

Section token.
Context {MC : Mac} {J : TokenJSON}.

(** src/cmd/token/main.go:18-55 [main] *)
Definition token_main (env : string → string) (now : Z) (args : list string) : ending :=
  match GoFlag.parse token_flags args (token_defaults env now) with
  | inl e => Exit (usage_exit e)
  | inr (v, _) =>
      if decide (t_secret v = "") then Exit 1
      else match Sign (token_claims v now) AlgHS256 (t_secret v) with
           | inl _ => Exit 1
           | inr tok => Printed tok
           end
  end.
End token.

(** ** benchcheck *)

Record bench_vars := mkBenchVars { b_baseline : string; b_current : string; b_tolerance : float64 }.

(** src/cmd/benchcheck/main.go:74-76 [main: flags] *)
Definition bench_flags (ParseFloat : string → option float64) : list (flag bench_vars) :=
  [mkFlag "baseline" false (λ s v, Some (mkBenchVars s (b_current v) (b_tolerance v)));
   mkFlag "current" false (λ s v, Some (mkBenchVars (b_baseline v) s (b_tolerance v)));
   mkFlag "tolerance" false (λ s v, x ← ParseFloat s; Some (mkBenchVars (b_baseline v) (b_current v) x))].

(** src/cmd/benchcheck/main.go:73-93 [main]  [dir]: the results of a directory, [None] when
    one cannot be read; the comparison is [exit_code]. *)
Definition benchcheck_main (ParseFloat : string → option float64)
    (dir : string → option (list (list byte * list byte * ResultSummary))) (args : list string) : Z :=
  match GoFlag.parse (bench_flags ParseFloat) args (mkBenchVars "benchmarks/baseline" "" (f_div (f_of_Z 1) (f_of_Z 4))) with
  | inl e => usage_exit e
  | inr (v, _) =>
      if decide (b_current v = "") then 2
      else match dir (b_baseline v), dir (b_current v) with
           | Some base, Some cur => exit_code (b_tolerance v) (loadDir base) (loadDir cur)
           | _, _ => 2
           end
  end.

(** ** The printed token is accepted *)

Section admits.
Context {MC : Mac} {ML : MacLaws MC} {J : TokenJSON} {JL : TokenJSONLaws J}.
Context (env : string → string).

(** The validator of a server started with the same environment. *)
Definition server_validator : Validator := cfg_validator (auth_FromEnv env).1.

(** The three settings both programs read have no blanks around them. *)
Definition unpadded : Prop :=
  ∀ k, k ∈ ["PULSERTC_JWT_SECRET"; "PULSERTC_JWT_ISSUER"; "PULSERTC_JWT_AUDIENCE"] → trim (env k) = env k.

(** With no blanks around them, both programs read the same settings. *)
Lemma same_settings now :
  unpadded →
  v_secret server_validator = t_secret (token_defaults env now)
  ∧ v_issuer server_validator = t_issuer (token_defaults env now)
  ∧ v_audience server_validator = t_audience (token_defaults env now).
Proof.
  intros Hu. unfold server_validator, auth_FromEnv, token_defaults, envString, token_envOr.
  cbn [fst cfg_validator v_secret v_issuer v_audience t_secret t_issuer t_audience].
  rewrite !Hu; [done|refine (bool_decide_unpack _ _); vm_compute; exact I..].
Qed.

(** The policy of a validator lets the claims of the command through while they last. *)
Lemma token_policy v tv now t :
  t_issuer tv = v_issuer v → t_audience tv = v_audience v → blank (t_sub tv) = false →
  0 ≤ v_leeway v → unix_epoch + second ≤ now → second ≤ t_ttl tv ≤ max_duration →
  now ≤ t → t ≤ now + t_ttl tv - second → t < 2 ^ 60 * second →
  (0 < v_maxTokenAge v → t - now + second ≤ v_maxTokenAge v + v_leeway v ≤ max_duration) →
  policy v (token_claims tv now) t = None.
Proof.
  intros Hi Ha Hs Hl He Httl Hnow Ht Hbig Hage. unfold policy, token_claims.
  cbn [cl_ExpiresAt cl_IssuedAt cl_Subject cl_Issuer cl_Audience]. rewrite Hi, Ha, Hs.
  assert (H1 : now / second * second ≤ now < now / second * second + second).
  { pose proof (Z.div_mod now second). pose proof (Z.mod_pos_bound now second). unfold second in *. lia. }
  assert (H2 : (now + t_ttl tv) / second * second ≤ now + t_ttl tv < (now + t_ttl tv) / second * second + second).
  { pose proof (Z.div_mod (now + t_ttl tv) second). pose proof (Z.mod_pos_bound (now + t_ttl tv) second). unfold second in *. lia. }
  unfold to_Unix, time_Unix.
  rewrite !Z.sub_add. rewrite !wrap64_id by (unfold max_duration, unix_epoch, second in *; lia).
  rewrite (proj2 (Z.eqb_neq ((now + t_ttl tv) / second - _) 0)) by (unfold unix_epoch, second in *; lia).
  rewrite (proj2 (Z.ltb_ge ((now + t_ttl tv) / second * second + v_leeway v) t)) by lia.
  rewrite (proj2 (Z.eqb_neq (now / second - _) 0)) by (unfold unix_epoch, second in *; lia).
  rewrite (proj2 (Z.ltb_ge (t + v_leeway v) _)) by lia.
  assert ((0 <? v_maxTokenAge v) && (wrap64 (v_maxTokenAge v + v_leeway v) <? time_sub t (now / second * second)) = false) as ->.
  { destruct (0 <? v_maxTokenAge v) eqn:E; [|done]. zbool. specialize (Hage E). simpl. apply Z.ltb_ge.
    rewrite wrap64_id by (unfold max_duration in *; lia). unfold time_sub, min_duration, max_duration in *. lia. }
  rewrite (bool_decide_eq_true_2 (v_issuer v = v_issuer v)) by done.
  rewrite (bool_decide_eq_true_2 (v_audience v = v_audience v)) by done. by rewrite !andb_false_r.
Qed.

End admits.

#[local] Existing Instance toy_mac.
#[local] Existing Instance toy_mac_laws.
#[local] Existing Instance toy_json.
#[local] Existing Instance toy_json_laws.

Definition dev_env : string → string := env_of [("PULSERTC_JWT_SECRET", "s3cret")].


(** A secret with a trailing newline, as a file gives it: the server trims it, the command
    does not, and the server refuses the token. *)
Example padded_secret_is_refused :
  let env := env_of [("PULSERTC_JWT_SECRET", string_of (bytes_of "s3cret" ++ [x0a]))] in
  match token_main env demo_now [] with
  | Printed tok => Validate (server_validator env) tok demo_now = inl errBadSig
  | Exit _ => False
  end.
Proof. vm_compute. reflexivity. Qed.
