(* ===== verification/Server.v ===== *)
(** * The server process (cmd/server, with the HTTP handlers of internal/signaling)

    The routes of the process and the handlers behind them, composed from the other
    components: the WebSocket gate and the rooms (Signaling), the statistics (SfuStats,
    QualityEngine, Prometheus), the cluster's endpoints (ClusterHttp) and the management
    API (ApiRoutes over the view ApiCore gives it).  What a request meets besides the
    state (clock, random ids, map orders, the answers of the cluster and of the peer
    connections) is collected in one record. *)

From S2P Require Import Prelude SendQueue Bytes GoStrings GoFloat GoParse GoMux ClusterTypes Registry RoomLocator LoadStore Cluster.
From S2P Require Import QualityModel QualityEngine Sessions Sfu SfuSteps SfuSafety SfuStats Auth Signaling SignalingSteps SignalingSafety Api ApiCore ApiRoutes.
From S2P Require Import Lifecycle Messaging Recovery Config History Prometheus ClusterFacade ClusterScrape ClusterHttp.

(** ** The process *)

(** src/cmd/server/main.go:31-34 [main: srv]  The state behind the handlers. *)
Record process := mkProcess {
  p_srv : Server; p_sfu : sfu; p_node : node_view; p_api : api_state; p_history : counters
}.

(** What is mounted besides the fixed routes. *)
Record mounts := mkMounts { m_api : bool; m_sdk : bool }.

(** src/cmd/server/main.go:57-60 [main: API] *)
Definition api_mounted (cfg : Api.Config) : bool := Api.Enabled cfg || negb (bool_decide (WebhookURL cfg = "")).

(** The pages behind the token check. *)
Inductive diagnostic := DMetrics | DMetricsJSON | DSFUStats | DQuality | DPprof.

(** The handlers of the routes. *)
Inductive handler :=
| RHealth | RWS | RDiagnostic (d : diagnostic) | RReady | RInternal (e : endpoint) | RApi (r : Scope * api_handler)
| RSdk | RStatic.

(** src/cmd/server/main.go:36-49 [main: fixed routes] *)
Definition fixed_routes : list (pattern * handler) :=
  [(parsePattern "/health", RHealth); (parsePattern "/ws", RWS); (parsePattern "/metrics", RDiagnostic DMetrics);
   (parsePattern "/metrics.json", RDiagnostic DMetricsJSON); (parsePattern "/sfu/stats", RDiagnostic DSFUStats);
   (parsePattern "/quality", RDiagnostic DQuality); (parsePattern "/quality/stats", RDiagnostic DQuality);
   (parsePattern "/debug/pprof/", RDiagnostic DPprof)].

(** src/internal/cluster/noderpc_http.go:19-42 [RegisterRoutes] *)
Definition cluster_routes : list (pattern * handler) :=
  [(parsePattern "/ready", RReady); (parsePattern "/internal/node", RInternal ENode);
   (parsePattern "/internal/nodes", RInternal ENodes); (parsePattern "/internal/rooms/", RInternal ERoom);
   (parsePattern "/internal/participants/", RInternal EParticipant);
   (parsePattern "/internal/cluster/messages", RInternal EMessages);
   (parsePattern "/internal/cluster/load", RInternal ELoad);
   (parsePattern "/internal/cluster/failures", RInternal EFailures);
   (parsePattern "/internal/cluster/recovery", RInternal ERecovery)].

(** src/cmd/server/main.go:83-88 [main: routes]  All of them, in the order of
    registration. *)
Definition server_routes (mt : mounts) : list (pattern * handler) :=
  fixed_routes ++ cluster_routes
  ++ (if m_api mt then (λ r, (r.1, RApi r.2)) <$> api_routes else [])
  ++ (if m_sdk mt then [(parsePattern "/sdk/", RSdk)] else [])
  ++ [(parsePattern "/", RStatic)].

(** ** Requests *)

(** A request as it arrives: the headers and query parameters that are read, and the
    body, which a message endpoint takes as [w_posted]. *)
Record wire_request := mkWire {
  w_Method : string; w_EscapedPath : list byte; w_Authorization : list byte; w_APIKey : list byte;
  w_WSProtocol : list byte; w_access_token : list byte; w_XFF : list byte; w_RemoteAddr : string;
  w_RemoteHost : option string; w_RequestID : list byte; w_IdempotencyKey : list byte; w_Body : list byte;
  w_broken : bool; w_posted : posted; w_room : string
}.

(** What the handlers see of it. *)
Definition auth_view (w : wire_request) : request :=
  mkRequest (w_Authorization w) (w_WSProtocol w) (w_access_token w) (w_XFF w) (w_RemoteAddr w) (w_RemoteHost w).

Definition api_view (w : wire_request) : http_request :=
  mkHttp (w_Method w) (w_EscapedPath w) (mkApiRequest (w_APIKey w) (w_Authorization w)) (w_RequestID w)
    (w_IdempotencyKey w) (w_Body w) (w_broken w).

(** [r.URL.Path] is the unescaped path. *)
Definition internal_view (w : wire_request) : internal_request :=
  mkIR (w_Method w) (bytes_of (GoMux.unescape (w_EscapedPath w))) (w_Authorization w) (w_posted w).

(** ** Diagnostics *)

(** src/internal/signaling/session_snapshot.go:76-90 [SessionMetricsSnapshot] *)
Record SessionMetricsSnapshot := mkSessionSnap {
  sx_Active : Z; sx_Recovering : Z; sx_Started : Z; sx_Attempts : Z; sx_Success : Z; sx_Failed : Z; sx_Timeout : Z;
  sx_Replaced : Z; sx_Stale : Z; sx_DurAvgMs : float64; sx_WebSock : Z; sx_WebRTC : Z
}.

(** src/internal/signaling/session_snapshot.go:92-116 [sessionMetricsSnapshot]  The
    counter of WebSocket reconnects is never touched. *)
Definition sessionMetricsSnapshot (s : Server) : SessionMetricsSnapshot :=
  let m := sv_mx s in
  let '(total, recovering) := Sessions.Count (sv_sessions s) in
  let avg := if 0 <? mx_durCount m then f_div (f_of_Z (mx_durSumMs m)) (f_of_Z (mx_durCount m)) else f_of_Z 0 in
  mkSessionSnap total recovering (mx_started m) (mx_attempts m) (mx_success m) (mx_failed m) (mx_timeout m)
    (mx_replaced m) (mx_stale m) avg 0 (mx_rtcReconn m).

(** src/internal/signaling/metrics.go:72-98 [readRuntimeMetrics]  [cpu]: the samples of
    the runtime, [None] for one that is not a float. *)
Record MemStats := mkMem { HeapAlloc : Z; HeapSys : Z; Alloc : Z; TotalAlloc : Z; Sys : Z; mem_NumGC : Z }.
Record runtime_block := mkRuntimeBlock { rb_scraped : runtimeMetrics; rb_Alloc : Z; rb_TotalAlloc : Z; rb_Sys : Z }.
Definition readRuntimeMetrics (goroutines : Z) (ms : MemStats) (cpu : list (option float64)) : runtime_block :=
  mkRuntimeBlock
    (mkRuntime goroutines (HeapAlloc ms) (HeapSys ms) (mem_NumGC ms)
       (foldl (λ t s, match s with Some x => f_add t x | None => t end) (f_of_Z 0) cpu))
    (Alloc ms) (TotalAlloc ms) (Sys ms).

(** src/internal/signaling/metrics.go:11-29 [benchmarkMetrics] *)
Record benchmarkMetrics := mkBenchmark {
  bm_Timestamp : Z; bm_UptimeSec : float64; bm_Host : string * string * Z * string * string; bm_Runtime : runtime_block;
  bm_SFU : SfuStats.MetricsSnapshot; bm_Auth : Auth.Metrics; bm_Cluster : ClusterFacade.Snapshot;
  bm_Session : SessionMetricsSnapshot; bm_History : counters
}.

(** What the diagnostics answer; the profiles are those of the runtime. *)
Inductive page :=
| PageText (t : list byte)
| PageJSON (m : benchmarkMetrics)
| PageStats (st : SfuStats.RoomStats)
| PageQuality (room : string) (l : list ParticipantQuality)
| PageBadRequest (error : string)
| PageProfile (path : list byte).

(** What a request meets besides the state. *)
Record surroundings := mkSurroundings {
  x_now : Z; x_uuid : string; x_suffix : string; x_client : nat; x_upgraded : bool; x_ambient : ambient;
  x_resolve : string → option RoomResolution; x_generation : string → Z;
  x_env : Sfu.Env; x_env' : Sfu.Env; x_peer : nat → pc_view;
  x_order : Engine → string → list (StreamKey * streamState);
  x_handle : ClusterMessage → option Error;
  x_host : string * string * Z * string; x_started : Z; x_goroutines : Z; x_mem : MemStats; x_cpu : list (option float64);
  x_negotiations : Z * Z * Z; x_duration : durationHistogram
}.

Section server.
Context {MC : Mac} {J : TokenJSON} (sha256 : list byte → list byte).
Context (decode_room : list byte → string + createRoomRequest) (decode_token : list byte → string + createTokenRequest).
Context (marshal : roomResponse → list byte) (auth_json : Auth.Metrics → option json)
  (session_json : SessionMetricsSnapshot → option json) (history_json : counters → option json).
Context (apiCfg : Api.Config) (issuer : TokenIssuer) (mt : mounts).

(** The statistics of a room, and of the whole SFU. *)
Definition room_stats (x : surroundings) (s : process) (room : string) : SfuStats.RoomStats :=
  SfuStats.Stats (x_env x) (x_env' x) (x_peer x) (p_sfu s) room.
Definition sfu_metrics (x : surroundings) (s : process) : SfuStats.MetricsSnapshot :=
  let '(started, completed, failed) := x_negotiations x in
  SfuStats.Metrics (x_env x) (x_env' x) (x_peer x) (p_sfu s) started completed failed (x_duration x).

(** src/internal/signaling/metrics.go:42-46 [HandleMetrics] *)
Definition HandleMetrics (x : surroundings) (s : process) : page :=
  let '(goos, goarch, _, go) := x_host x in
  PageText (text (outputs
    (writePrometheus go goos goarch (time_sub (x_now x) (x_started x))
       (rb_scraped (readRuntimeMetrics (x_goroutines x) (x_mem x) (x_cpu x))) (sfu_metrics x s)
       (auth_json (a_metrics (sv_auth (p_srv s)))) (Some (cluster_json (snapshot_of (x_now x) (p_node s))))
       (session_json (sessionMetricsSnapshot (p_srv s))) (history_json (p_history s))) ∅)).

(** src/internal/signaling/metrics.go:48-70 [HandleMetricsJSON] *)
Definition HandleMetricsJSON (x : surroundings) (s : process) : page :=
  let '(goos, goarch, cpus, go) := x_host x in
  PageJSON (mkBenchmark (x_now x) (Seconds (time_sub (x_now x) (x_started x))) (goos, goarch, cpus, go, "unavailable")
    (readRuntimeMetrics (x_goroutines x) (x_mem x) (x_cpu x)) (sfu_metrics x s) (a_metrics (sv_auth (p_srv s)))
    (snapshot_of (x_now x) (p_node s)) (sessionMetricsSnapshot (p_srv s)) (p_history s)).

(** src/internal/signaling/ws_server.go:244-256 [HandleSFUStats] *)
Definition HandleSFUStats (x : surroundings) (w : wire_request) (s : process) : page :=
  if decide (w_room w = "") then PageBadRequest "room query parameter is required"
  else PageStats (room_stats x s (w_room w)).

(** The process with another state of the quality engine. *)
Definition with_quality (q : Engine) (s : process) : process :=
  let v := p_srv s in
  mkProcess (mkServer (sv_cfg v) (sv_auth v) (sv_objs v) (sv_clients v) (sv_heap v) (sv_rooms v) (sv_sessions v) (sv_mx v)
    (sv_mirrors v) q) (p_sfu s) (p_node s) (p_api s) (p_history s).

(** src/internal/signaling/ws_server.go:258-281 [HandleQualityStats]  Verdicts older than
    30 seconds go first. *)
Definition HandleQualityStats (x : surroundings) (w : wire_request) (s : process) : page * process :=
  if decide (w_room w = "") then (PageBadRequest "room query parameter is required", s)
  else
    let q := Prune (sv_quality (p_srv s)) (x_now x) (30 * second) in
    let ids := st_ID <$> st_Participants (room_stats x s (w_room w)) in
    (PageQuality (w_room w) (SnapshotRoom q (x_order x q) ids), with_quality q s).

(** The page of a diagnostic. *)
Definition run_diagnostic (d : diagnostic) (x : surroundings) (w : wire_request) (s : process) : page * process :=
  match d with
  | DMetrics => (HandleMetrics x s, s)
  | DMetricsJSON => (HandleMetricsJSON x s, s)
  | DSFUStats => (HandleSFUStats x w s, s)
  | DQuality => HandleQualityStats x w s
  | DPprof => (PageProfile (w_EscapedPath w), s)
  end.

(** ** Serving a request *)

(** What the client gets. *)
Inductive outcome :=
| OHealth
| OWebSocket (refusal : option Z)
| OPage (p : page)
| OUnauthorized
| OInternal (a : internal_answer)
| OApi (r : api_response)
| OFile (tree : handler)
| ORedirect (to : list byte)
| ORefused.

(** What other parties see happen. *)
Inductive effect := EServer (o : out) | EApi (e : api_event).

(** The process with another state of the signaling server. *)
Definition with_srv (v : Server) (s : process) : process := mkProcess v (p_sfu s) (p_node s) (p_api s) (p_history s).

Definition with_auth (a : Authenticator) (v : Server) : Server :=
  mkServer (sv_cfg v) a (sv_objs v) (sv_clients v) (sv_heap v) (sv_rooms v) (sv_sessions v) (sv_mx v) (sv_mirrors v)
    (sv_quality v).

(** An operation of the signaling server within the process. *)
Definition on_server {A} (m : SM A) : M process effect A := λ s,
  let '(a, v, w) := m (p_srv s) in (a, with_srv v s, EServer <$> w).

(** src/internal/signaling/api_core.go:15-20 [apiCore]  The core the API asks, over
    the state of the process. *)
Definition core_of (x : surroundings) (s : process) : Core := {|
  c_Room id := core_Room (p_srv s) (x_resolve x id) (x_generation x id) id;
  c_Participants id := core_Participants (p_srv s) (x_resolve x id) (room_stats x s id);
  c_Session id subject := core_Session (p_srv s) (x_resolve x id) id subject;
  c_CloseRoom id := value (core_CloseRoom (x_resolve x id) id "closed_by_api") (p_srv s);
  c_Quality id := (core_Quality (x_resolve x id) (room_stats x s id) (x_now x) (x_order x) (p_srv s)).1
|}.

(** What a served request of the API does to the server: it closes the rooms it asked to
    close, and a quality request drops old verdicts. *)
Definition core_effects (x : surroundings) (h : api_handler) (room : string) (evs : list api_event)
    : M process effect unit :=
  for_each evs (λ e, match e with
                     | CloseAsked id reason => on_server (core_CloseRoom (x_resolve x id) id reason);; mret tt
                     | _ => mret tt
                     end);;
  match h with
  | HRoomQuality | HParticipantQuality =>
      modify (λ s, with_srv (core_Quality (x_resolve x room) (room_stats x s room) (x_now x) (x_order x) (p_srv s)).2 s)
  | _ => mret tt
  end.

(** A request of the API, with what it does to the rest of the process: nothing unless
    the handler ran. *)
Definition serve_api (x : surroundings) (w : wire_request) (rt : pattern * (Scope * api_handler)) (vals : list string)
    : M process effect outcome := λ s,
  let ran := match (Api.wrap (st_mw (p_api s)) rt.2.1 (h_creds (api_view w)) (x_now x)).1 with inr _ => true | inl _ => false end in
  let '(resp, api, evs) :=
    serve_route sha256 decode_room decode_token marshal apiCfg issuer (core_of x s) (x_ambient x) (api_view w) (x_now x)
      rt vals (p_api s) in
  let s1 := mkProcess (p_srv s) (p_sfu s) (p_node s) api (p_history s) in
  let '(_, s2, evs2) := (if ran then core_effects x rt.2.2 (PathValue rt.1 vals "roomId") evs else mret tt) s1 in
  (OApi resp, s2, (EApi <$> evs) ++ evs2).

(** A page as an answer. *)
Definition show_page (d : diagnostic) (x : surroundings) (w : wire_request) : M process effect outcome := λ s,
  let '(p, s') := run_diagnostic d x w s in (OPage p, s', []).

(** src/internal/signaling/ws_server.go:223-228 [Protected] *)
Definition protected (d : diagnostic) (x : surroundings) (w : wire_request) : M process effect outcome :=
  s ← get;
  let '(ok, a) := ProtectHTTP (sv_auth (p_srv s)) (auth_view w) (x_now x) in
  modify (λ s, with_srv (with_auth a (p_srv s)) s);;
  if ok then show_page d x w else mret OUnauthorized.

(** src/cmd/server/main.go:36-52 [main: handlers]  The handler behind a route. *)
Definition run_route (x : surroundings) (w : wire_request) (pat : pattern) (h : handler) (vals : list string)
    : M process effect outcome :=
  match h with
  | RHealth => mret OHealth
  | RWS => on_server (st ← HandleWS (x_client x) (auth_view w) (x_now x) (x_uuid x) (x_suffix x) (x_upgraded x);
                      mret (OWebSocket st))
  | RDiagnostic d => protected d x w
  | RReady => s ← get; mret (OInternal (handleReady (p_node s)))
  | RInternal e =>
      s ← get;
      let '(a, v) := serve_internal (x_now x) (x_handle x) e (internal_view w) (p_node s) in
      modify (λ s, mkProcess (p_srv s) (p_sfu s) v (p_api s) (p_history s));;
      mret (OInternal a)
  | RApi r => serve_api x w (pat, r) vals
  | RSdk => mret (OFile RSdk)
  | RStatic => mret (OFile RStatic)
  end.

(** src/cmd/server/main.go:108-113 [main: httpServer]  One request to the process. *)
Definition serve (x : surroundings) (w : wire_request) : M process effect outcome :=
  match findHandler (w_Method w) (w_EscapedPath w) (server_routes mt) with
  | Dispatch (pat, h) vals => run_route x w pat h vals
  | Redirect to => mret (ORedirect to)
  | NoMatch => mret ORefused
  end.
End server.

(** ** Webhooks and background work *)

(** src/cmd/server/main.go:64-69 [main: participant hook]  What the dispatcher is given
    when the server reports a participant; without a webhook there is no hook. *)
Definition participant_event (webhook : bool) (o : out) : option (string * string * string) :=
  match o with
  | Fired evType room id => if webhook then Some (evType, room, id) else None
  | _ => None
  end.

(** The loops of the process. *)
Inductive background := BSweepApi | BSweepLimiters | BSweepSessions.

(** src/cmd/server/main.go:70-106 [main: loops]  How often each runs. *)
Definition period (b : background) : Z :=
  match b with BSweepApi => 60 * second | BSweepLimiters => 300 * second | BSweepSessions => 5 * second end.

(** src/cmd/server/main.go:70-106 [main: loops]  One turn of a loop; idle address buckets
    go after ten minutes. *)
Definition run_background (order : list (string * Session) → list (string * Session)) (now : Z) (b : background)
    : M process effect unit :=
  match b with
  | BSweepApi => λ s,
      let '(_, reg, w) := Api.Sweep now (st_reg (p_api s)) in
      (tt, mkProcess (p_srv s) (p_sfu s) (p_node s) (mkApi (st_mw (p_api s)) reg) (p_history s), EApi <$> w)
  | BSweepLimiters =>
      modify (λ s, let a := sv_auth (p_srv s) in
        with_srv (with_auth (mkAuthenticator (a_cfg a) (Auth.Sweep (a_connRL a) (600 * second) now) (a_metrics a)) (p_srv s)) s)
  | BSweepSessions => on_server (SweepSessions order now;; mret tt)
  end.

(** ** Registration *)

(** The routes can be registered together, whatever is mounted: no two patterns conflict,
    so the process does not panic at startup. *)
Lemma routes_register mt : registers (server_routes mt).*1 = true.
Proof. destruct mt as [[] []]; vm_compute; reflexivity. Qed.

Lemma api_route_mounted mt pat r :
  (pat, RApi r) ∈ server_routes mt → m_api mt = true ∧ (pat, r) ∈ api_routes.
Proof.
  unfold server_routes. rewrite !elem_of_app. intros [H|[H|[H|[H|H]]]].
  - exfalso. unfold fixed_routes in H. by repeat (apply elem_of_cons in H as [H|H]; [discriminate H|]); apply elem_of_nil in H.
  - exfalso. unfold cluster_routes in H. by repeat (apply elem_of_cons in H as [H|H]; [discriminate H|]); apply elem_of_nil in H.
  - destruct (m_api mt); [|by apply elem_of_nil in H]. split; [done|].
    apply list_elem_of_fmap in H as ([pat' r'] & [= -> ->] & H). done.
  - destruct (m_sdk mt); [|by apply elem_of_nil in H]. apply list_elem_of_singleton in H. discriminate H.
  - apply list_elem_of_singleton in H. discriminate H.
Qed.

(** ** The routes of the API, spelled out *)

(** The scope an operation needs. *)
Definition scope_of (h : api_handler) : Scope :=
  match h with
  | HCreateRoom => RoomsCreate
  | HGetRoom | HConnection => RoomsRead
  | HCloseRoom => RoomsClose
  | HCreateToken => TokensCreate
  | HListParticipants | HGetParticipant | HGetSession => ParticipantsRead
  | HRoomQuality | HParticipantQuality => QualityRead
  end.

(** The operation of a request, read off its method and the segments of its path. *)
Definition v1_route (m : string) (segs : list string) : option (api_handler * list string) :=
  let read := String.eqb m "GET" || String.eqb m "HEAD" in
  let post := String.eqb m "POST" in
  let named s := negb (String.eqb s "/") in
  match segs with
  | v :: rs :: rest =>
      if negb (String.eqb v "v1" && String.eqb rs "rooms") then None
      else match rest with
      | [] => if post then Some (HCreateRoom, []) else None
      | [id] =>
          if negb (named id) then None
          else if read then Some (HGetRoom, [id])
          else if String.eqb m "DELETE" then Some (HCloseRoom, [id]) else None
      | [id; what] =>
          if negb (named id) then None
          else if read && String.eqb what "connection" then Some (HConnection, [id])
          else if post && String.eqb what "tokens" then Some (HCreateToken, [id])
          else if read && String.eqb what "participants" then Some (HListParticipants, [id])
          else if read && String.eqb what "quality" then Some (HRoomQuality, [id]) else None
      | [id; ps; who] =>
          if named id && String.eqb ps "participants" && named who && read then Some (HGetParticipant, [id; who]) else None
      | [id; ps; who; what] =>
          if negb (named id && String.eqb ps "participants" && named who && read) then None
          else if String.eqb what "session" then Some (HGetSession, [id; who])
          else if String.eqb what "quality" then Some (HParticipantQuality, [id; who]) else None
      | _ => None
      end
  | _ => None
  end.

(** What is left of a match on a path of known length. *)
Ltac seg_cases :=
  repeat match goal with
  | H : (_ && _) = true |- _ => apply andb_prop in H as [? H]
  | H : String.eqb ?x ?t = true |- _ => apply String.eqb_eq in H; subst x
  | H : negb (String.eqb ?x ?t) = true |- _ => apply negb_true_iff in H
  end.

Lemma api_route_spec pat sc h m segs :
  (pat, (sc, h)) ∈ api_routes → admits (p_method pat) m → matches (p_segs pat) segs = true →
  let vs := captured (p_segs pat) segs in
  v1_route m segs = Some (h, vs) ∧ sc = scope_of h ∧ multi (p_segs pat) = false
  ∧ PathValue pat vs "roomId" = default "" (vs !! 0%nat) ∧ PathValue pat vs "identity" = default "" (vs !! 1%nat).
Proof.
  intros Hin Ha Hm. let l := eval vm_compute in api_routes in change api_routes with l in Hin.
  repeat (apply elem_of_cons in Hin as [[= -> -> ->]|Hin]; [|]); [..|by apply elem_of_nil in Hin].
  all: destruct segs as [|a [|b [|c [|d [|e [|f [|g l]]]]]]]; cbn in Hm; rewrite ?andb_false_r in Hm; try discriminate Hm.
  all: destruct Ha as [<-|[[Hg ->]|He]]; [|try discriminate Hg|discriminate He]; seg_cases.
  all: unfold v1_route; repeat match goal with H : String.eqb _ "/" = false |- _ => rewrite H; clear H end; done.
Qed.

(** The [n]th route of the API is the one, and matches. *)
Ltac routed n :=
  match goal with Hn : ∀ p r, nth_error _ p = Some r → _ |- _ => eexists; split; [apply (Hn n); reflexivity|] end;
  split; [by eauto|]; cbn [matches p_segs]; rewrite ?String.eqb_refl;
  repeat match goal with H : String.eqb _ "/" = false |- _ => rewrite H; clear H end; reflexivity.

Lemma v1_route_inv m segs h vs :
  v1_route m segs = Some (h, vs) →
  ∃ pat, (pat, (scope_of h, h)) ∈ api_routes ∧ (p_method pat = m ∨ (p_method pat = "GET" ∧ m = "HEAD"))
    ∧ matches (p_segs pat) segs = true.
Proof.
  let l := eval vm_compute in api_routes in
  assert (∀ p r, nth_error l p = Some r → r ∈ api_routes) as Hn
    by (intros p r Hp; apply list_elem_of_In; exact (nth_error_In _ _ Hp)).
  unfold v1_route. destruct segs as [|v [|rs rest]]; [done..|].
  destruct (String.eqb_spec v "v1") as [->|]; [|done]. destruct (String.eqb_spec rs "rooms") as [->|]; [|done].
  set (rd := String.eqb m "GET" || String.eqb m "HEAD"). intros E.
  assert (rd = true → "GET" = m ∨ "GET" = "GET" ∧ m = "HEAD") as Hrd.
  { unfold rd. intros [H|H]%orb_prop; apply String.eqb_eq in H; subst m; [by left|by right]. }
  assert (∀ k, String.eqb m k = true → k = m ∨ k = "GET" ∧ m = "HEAD") as Hm.
  { intros k H. apply String.eqb_eq in H. by left. }
  destruct rest as [|id [|what [|who [|what2 [|]]]]]; cbn [negb andb] in E; [| | | | |done].
  - destruct (String.eqb m "POST") eqn:Em; [|done]. injection E as <- <-. routed 0%nat.
  - destruct (String.eqb id "/") eqn:Ei; [done|]. cbn in E. destruct rd eqn:Er.
    + injection E as <- <-. routed 1%nat.
    + destruct (String.eqb m "DELETE") eqn:Ed; [|done]. injection E as <- <-. routed 2%nat.
  - destruct (String.eqb id "/") eqn:Ei; [done|]. cbn [negb] in E.
    destruct (rd && String.eqb what "connection") eqn:E1.
    { apply andb_prop in E1 as [Er ->%String.eqb_eq]. injection E as <- <-. routed 3%nat. }
    destruct (String.eqb m "POST" && String.eqb what "tokens") eqn:E2.
    { apply andb_prop in E2 as [Er ->%String.eqb_eq]. injection E as <- <-. routed 4%nat. }
    destruct (rd && String.eqb what "participants") eqn:E3.
    { apply andb_prop in E3 as [Er ->%String.eqb_eq]. injection E as <- <-. routed 5%nat. }
    destruct (rd && String.eqb what "quality") eqn:E4; [|done].
    apply andb_prop in E4 as [Er ->%String.eqb_eq]. injection E as <- <-. routed 8%nat.
  - destruct (String.eqb id "/") eqn:Ei; [done|]. destruct (String.eqb_spec what "participants") as [->|]; [|done].
    destruct (String.eqb who "/") eqn:Ew; [done|]. cbn in E. destruct rd eqn:Er; [|done]. injection E as <- <-. routed 6%nat.
  - destruct (String.eqb id "/") eqn:Ei; [done|]. destruct (String.eqb_spec what "participants") as [->|]; [|done].
    destruct (String.eqb who "/") eqn:Ew; [done|]. cbn [negb andb] in E. destruct rd eqn:Er; [|done]. cbn [negb] in E.
    destruct (String.eqb_spec what2 "session") as [->|]; [injection E as <- <-; routed 7%nat|].
    destruct (String.eqb_spec what2 "quality") as [->|]; [injection E as <- <-; routed 9%nat|done].
Qed.

(** Every pattern with a method is one of the API's. *)
Lemma method_routes mt pat h : (pat, h) ∈ server_routes mt → p_method pat ≠ "" → ∃ r, h = RApi r.
Proof.
  intros Hin Hm. assert (Forall (λ ph, p_method ph.1 = "" ∨ match ph.2 with RApi _ => True | _ => False end) (server_routes mt)) as Hf.
  { destruct mt as [[] []]; apply Forall_fold_right; vm_compute; tauto. }
  rewrite list.Forall_forall in Hf. destruct (Hf _ Hin) as [?|H]; [done|]. simpl in H. destruct h; try done. eauto.
Qed.

(** A path that an operation has is dispatched to it. *)
Lemma v1_dispatch mt m esc h vs :
  m_api mt = true → m ≠ "CONNECT" → cleanPath esc = esc → v1_route m (path_segs esc) = Some (h, vs) →
  ∃ pat, findHandler m esc (server_routes mt) = Dispatch (pat, RApi (scope_of h, h)) vs
    ∧ PathValue pat vs "roomId" = default "" (vs !! 0%nat) ∧ PathValue pat vs "identity" = default "" (vs !! 1%nat).
Proof.
  intros Hmt Hc Hclean E. destruct (v1_route_inv _ _ _ _ E) as (pat0 & Hin0 & Hm0 & Hmatch0).
  assert ((p_segs pat0, (pat0, RApi (scope_of h, h))) ∈ of_method (p_method pat0) (server_routes mt)) as Hc0.
  { apply elem_of_method. split; [|done]. unfold server_routes. rewrite Hmt, !elem_of_app. right; right; left.
    apply list_elem_of_fmap. by exists (pat0, (scope_of h, h)). }
  assert (p_method pat0 ≠ "") as Hne.
  { assert (Forall (λ r, p_method r.1 ≠ "") api_routes) as Hf by (repeat constructor; discriminate).
    rewrite list.Forall_forall in Hf. apply (Hf _ Hin0). }
  assert (∃ r, matchPath (path_segs esc) (of_method (p_method pat0) (server_routes mt)) = Some r) as [[[pat hd] vs'] Er].
  { destruct (matchPath _ _) eqn:En; [eauto|]. by rewrite (matchPath_complete _ _ En _ _ Hc0) in Hmatch0. }
  pose proof Er as Es. apply matchPath_sound in Es as (p & Hin & Hmp & -> & _).
  apply elem_of_method in Hin as (Hin & Hpm & ->). cbn [fst] in *.
  destruct (method_routes mt pat hd Hin ltac:(congruence)) as [[sc h'] ->].
  apply api_route_mounted in Hin as [_ Hin].
  destruct (api_route_spec pat sc h' m (path_segs esc) Hin) as (E' & -> & Hmulti & Hv1 & Hv2); [|done|].
  { rewrite Hpm. destruct Hm0 as [->|[-> ->]]; [by left|by right; left]. }
  rewrite E in E'. injection E' as <- ->. exists pat. split; [|done].
  assert (matchMethodAndPath m (path_segs esc) (server_routes mt) = Some ((pat, RApi (scope_of h, h)), captured (p_segs pat) (path_segs esc))) as Em.
  { unfold matchMethodAndPath. destruct Hm0 as [<-|[Hg ->]]; [by rewrite Er|]. rewrite Hg in Er. rewrite Er.
    assert (of_method "HEAD" (server_routes mt) = []) as -> by (destruct mt as [[] []]; vm_compute; reflexivity).
    destruct (matchPath _ []) as [[r v]|] eqn:En; [|done].
    apply matchPath_sound in En as (q & Hq & _). by apply elem_of_nil in Hq. }
  unfold findHandler. apply String.eqb_neq in Hc. rewrite Hc, Hclean. cbv zeta. rewrite Em. cbn [exactMatch]. rewrite Hmulti.
  cbn [negb andb]. by rewrite bool_decide_true.
Qed.

(** ** What a request needs *)

(** An accepted request of an API that checks keys. *)
Lemma wrap_accepts m sc r now k :
  mw_enabled m = true → (Api.wrap m sc r now).1 = inr k →
  ∃ key, authenticate m r = Some key ∧ Has key sc = true.
Proof.
  intros He. unfold Api.wrap. rewrite He. simpl. destruct (authenticate m r) as [key|]; [|done].
  destruct (Has key sc) eqn:Hh; [|done]. eauto.
Qed.

Section guarded.
Context {MC : Mac} {J : TokenJSON} (sha256 : list byte → list byte).
Context (decode_room : list byte → string + createRoomRequest) (decode_token : list byte → string + createTokenRequest).
Context (marshal : roomResponse → list byte) (auth_json : Auth.Metrics → option json)
  (session_json : SessionMetricsSnapshot → option json) (history_json : counters → option json).
Context (apiCfg : Api.Config) (issuer : TokenIssuer) (mt : mounts).

Abbreviation serve_ := (serve sha256 decode_room decode_token marshal auth_json session_json history_json apiCfg issuer mt).
Abbreviation serve_api_ := (serve_api sha256 decode_room decode_token marshal apiCfg issuer).
Abbreviation run_handler_ := (run_handler sha256 decode_room decode_token marshal apiCfg issuer).

(** Something of the API's happened: its registry changed, it acted on the core or the
    webhooks, or it answered with a success. *)
Definition api_acted (x : surroundings) (w : wire_request) (s : process) : Prop :=
  st_reg (p_api (final (serve_ x w) s)) ≠ st_reg (p_api s)
  ∨ (∃ e, EApi e ∈ outputs (serve_ x w) s)
  ∨ ∃ resp, value (serve_ x w) s = OApi resp ∧ rs_status resp < 400.

(** Effects of the API's operations on the core leave the API's own state alone and are
    effects of the server. *)
Lemma on_server_api {A} (m : SM A) s :
  p_api (final (on_server m) s) = p_api s ∧ ∀ e, EApi e ∉ outputs (on_server m) s.
Proof.
  unfold on_server, final, outputs. destruct (m (p_srv s)) as [[a v] l]. split; [done|]. simpl.
  intros e H. by apply list_elem_of_fmap in H as (o & ? & _).
Qed.

Lemma core_effects_api x h room evs s : p_api (final (core_effects x h room evs) s) = p_api s.
Proof.
  unfold core_effects. rewrite final_bind. transitivity (p_api (final (for_each evs (λ e, match e with
    | CloseAsked id reason => on_server (core_CloseRoom (x_resolve x id) id reason);; mret tt | _ => mret tt end)) s)).
  { by destruct h. }
  revert s. induction evs as [|e evs IH]; intros s; [done|]. cbn [for_each]. rewrite final_bind, IH.
  destruct e; try done. rewrite final_bind, final_ret. apply on_server_api.
Qed.

(** The routes that are not the API's do nothing of the API's. *)
Lemma other_routes_api x w pat h vals s :
  (∀ r, h ≠ RApi r) →
  let m := run_route sha256 decode_room decode_token marshal auth_json session_json history_json apiCfg issuer x w pat h vals in
  st_reg (p_api (final m s)) = st_reg (p_api s) ∧ (∀ e, EApi e ∉ outputs m s) ∧ ∀ resp, value m s ≠ OApi resp.
Proof.
  intros Hh m. unfold m, run_route. destruct h as [| |d| |e|r| |]; try by split_and!; [|intros ? ?%elem_of_nil|].
  - match goal with |- context [on_server ?m] => set (q := m) end. destruct (on_server_api q s) as [H1 H2]. rewrite H1.
    split_and!; [done..|]. intros resp. unfold q, on_server, value, mbind, M_bind, mret, M_ret.
    destruct (HandleWS _ _ _ _ _ _ (p_srv s)) as [[st v] l]. done.
  - unfold protected, value, final, outputs, mbind, M_bind, get, modify, show_page. cbn.
    destruct (ProtectHTTP _ _ _) as [[] a]; cbn; [|by split_and!; [|intros ? ?%elem_of_nil|]].
    destruct d; cbn; try by split_and!; [|intros ? ?%elem_of_nil|].
    unfold HandleQualityStats. case_decide; by split_and!; [|intros ? ?%elem_of_nil|].
  - unfold value, final, outputs, mbind, M_bind, get, modify. cbn. destruct (serve_internal _ _ _ _ _) as [a v]. cbn.
    by split_and!; [|intros ? ?%elem_of_nil|].
  - by destruct (Hh r).
Qed.

(** C12: The management API acts only through its gate, and always when it should.  In
    any state of a server whose API checks keys, whatever request arrives: if it changes
    the API's registry, acts on a room or a webhook, or is answered with a success, then
    the API is mounted, the method and path are one of the ten documented ones, and the
    request carries a configured key with the scope of that operation.  Conversely a
    request with such a key and a token left in its bucket runs exactly that operation,
    on the room and participant named by its path. *)
Theorem api_surface_gated x w s :
  mw_enabled (st_mw (p_api s)) = true → w_Method w ≠ "CONNECT" →
  (api_acted x w s →
   m_api mt = true ∧ ∃ h vs key,
     v1_route (w_Method w) (path_segs (w_EscapedPath w)) = Some (h, vs)
     ∧ authenticate (st_mw (p_api s)) (mkApiRequest (w_APIKey w) (w_Authorization w)) = Some key
     ∧ Has key (scope_of h) = true)
  ∧ (∀ h vs key,
       m_api mt = true → cleanPath (w_EscapedPath w) = w_EscapedPath w →
       v1_route (w_Method w) (path_segs (w_EscapedPath w)) = Some (h, vs) →
       authenticate (st_mw (p_api s)) (mkApiRequest (w_APIKey w) (w_Authorization w)) = Some key →
       Has key (scope_of h) = true → (Allow (mw_limiter (st_mw (p_api s))) (k_Key key) (x_now x)).1 = true →
       ∃ pv, pv "roomId" = default "" (vs !! 0%nat) ∧ pv "identity" = default "" (vs !! 1%nat)
         ∧ let run := run_handler_ (core_of x s) (x_ambient x) (api_view w) (request_id (x_ambient x) (api_view w)) h pv in
           value (serve_ x w) s = OApi (value run (st_reg (p_api s)))
           ∧ st_reg (p_api (final (serve_ x w) s)) = final run (st_reg (p_api s))).
Proof.
  intros He Hm. split.
  - unfold api_acted, serve. destruct (findHandler _ _ _) as [[pat h] vals|to|] eqn:Ef.
    2,3: by intros [H|[[e H]|(resp & H & _)]]; [|apply elem_of_nil in H|].
    destruct h as [| |d| |e|r| |] eqn:Eh.
    1-5,7,8: rewrite <- Eh; assert (∀ r, h ≠ RApi r) as Hh by (by rewrite Eh); destruct (other_routes_api x w pat h vals s Hh)
      as (H1 & H2 & H3); intros [H|[[e' H]|(resp & H & _)]]; [done|by apply H2 in H|by apply H3 in H].
    destruct r as [sc h']. apply findHandler_sound in Ef as (Hin & Ha & Hmatch & -> & _). cbn [fst snd] in *.
    apply api_route_mounted in Hin as [Hmt Hin].
    destruct (api_route_spec pat sc h' _ _ Hin Ha Hmatch) as (Ev & -> & _). intros Hact. split; [done|].
    eexists _, _. unfold run_route, serve_api, value, final, outputs in Hact. rewrite serve_route_run in Hact. cbn [fst snd] in Hact.
    destruct (Api.wrap (st_mw (p_api s)) (scope_of h') (h_creds (api_view w)) (x_now x)) as [[e|k] mw] eqn:Ew.
    + exfalso. cbn in Hact. destruct Hact as [H|[[e' H]|(resp & [= <-] & H)]]; [done|by apply elem_of_nil in H|].
      pose proof (good_wrap (st_mw (p_api s)) (scope_of h') (h_creds (api_view w)) (x_now x)) as Hg. rewrite Ew in Hg. destruct Hg as [Hk _].
      apply known_status in Hk. cbn in H. lia.
    + destruct (wrap_accepts (st_mw (p_api s)) (scope_of h') (h_creds (api_view w)) (x_now x) k He) as (key & H1 & H2); [by rewrite Ew|].
      by exists key.
  - intros h vs key Hmt Hclean Ev Hk Hs Hal. destruct (v1_dispatch mt _ _ h vs Hmt Hm Hclean Ev) as (pat & Ef & Hv1 & Hv2).
    exists (PathValue pat vs). split_and!; [done..|]. cbv zeta. unfold serve. rewrite Ef. unfold run_route, serve_api, value, final.
    rewrite serve_route_run. cbn [fst snd].
    assert (∃ mw, Api.wrap (st_mw (p_api s)) (scope_of h) (h_creds (api_view w)) (x_now x) = (inr (Some key), mw)) as [mw ->].
    { unfold Api.wrap. rewrite He. cbn [negb h_creds api_view]. rewrite Hk, Hs. cbn [negb].
      destruct (Allow _ _ _) as [ok rl]. cbn in Hal. rewrite Hal. eauto. }
    cbn [fst]. destruct (run_handler_ _ _ _ _ _ _ _) as [[resp reg] evs]. cbn [fst].
    pose proof (core_effects_api x h (PathValue pat vs "roomId") evs (mkProcess (p_srv s) (p_sfu s) (p_node s) (mkApi mw reg) (p_history s))) as Hc.
    unfold final in Hc. destruct (core_effects _ _ _ _ _) as [[u s2] evs2]. cbn in *. by rewrite Hc.
Qed.

(** A caller without any credential: no token the validator accepts, no API key, not the
    cluster secret. *)
Definition anonymous_to (now : Z) (w : wire_request) (s : process) : Prop :=
  (∃ e, Validate (cfg_validator (a_cfg (sv_auth (p_srv s)))) (TokenFromRequest (auth_view w)) now = inl e)
  ∧ authenticate (st_mw (p_api s)) (mkApiRequest (w_APIKey w) (w_Authorization w)) = None
  ∧ InternalAuthMiddleware (w_Authorization w) (Secret (nv_cfg (p_node s))) = false.

(** A server that checks: tokens are enforced, metrics are not public, and the API, if it
    is mounted, checks keys. *)
Definition checking (s : process) : Prop :=
  cfg_Enabled (a_cfg (sv_auth (p_srv s))) = true ∧ cfg_MetricsPublic (a_cfg (sv_auth (p_srv s))) = false
  ∧ (m_api mt = true → mw_enabled (st_mw (p_api s)) = true).

(** What such a caller is told: that the server is alive, whether it is ready, a static
    file, a redirect, or a refusal. *)
Definition public_answer (now : Z) (reqID : string) (a : Authenticator) (cfg : ClusterTypes.Config) (ready : internal_answer)
    (w : wire_request) : outcome :=
  match findHandler (w_Method w) (w_EscapedPath w) (server_routes mt) with
  | Redirect to => ORedirect to
  | NoMatch => ORefused
  | Dispatch (_, h) _ =>
      match h with
      | RHealth => OHealth
      | RWS => OWebSocket (Some (match (AuthenticateRequest a (auth_view w) now "").1 with
                                 | inl e => if decide (ae_Code e = Auth.CodeRateLimited) then 429 else 401
                                 | inr _ => 401
                                 end))
      | RDiagnostic _ => OUnauthorized
      | RReady => OInternal ready
      | RInternal _ =>
          OInternal (if ClusterTypes.Enabled cfg then mkIA 401 (BError CodeClusterUnauthorized)
                     else mkIA 404 (BError "cluster disabled"))
      | RApi _ => OApi (writeError reqID (Some (apiErr CodeUnauthorized "missing or invalid API key")))
      | RSdk | RStatic => OFile h
      end
  end.

Lemma with_auth_same s : with_srv (with_auth (sv_auth (p_srv s)) (p_srv s)) s = s.
Proof. by destruct s as [[] ? ? ? ?]. Qed.

(** The WebSocket gate refuses a token the validator does not accept. *)
Lemma HandleWS_refuses k r now uuid suffix up v e :
  cfg_Enabled (a_cfg (sv_auth v)) = true → Validate (cfg_validator (a_cfg (sv_auth v))) (TokenFromRequest r) now = inl e →
  HandleWS k r now uuid suffix up v
  = (Some (match (AuthenticateRequest (sv_auth v) r now "").1 with
           | inl e => if decide (ae_Code e = Auth.CodeRateLimited) then 429 else 401
           | inr _ => 401
           end), with_auth (AuthenticateRequest (sv_auth v) r now "").2 v, []).
Proof.
  intros He Hv. unfold HandleWS, mbind, M_bind, get, upd_auth, modify.
  assert (∃ e' a, AuthenticateRequest (sv_auth v) r now uuid = (inl e', a) ∧ AuthenticateRequest (sv_auth v) r now "" = (inl e', a))
    as (e' & a & -> & ->).
  { unfold AuthenticateRequest. destruct (Allow _ _ _) as [[] rl]; cbn; [rewrite He, Hv|]; eauto. }
  done.
Qed.

(** C11: A caller without credentials learns and changes nothing.  On a server that
    checks, the answer to a request with no acceptable token, no configured API key and
    not the cluster secret is computed from the request, the configuration, the rate
    limiter and the node's readiness alone; rooms, participants, statistics, cluster
    state and the API's registry do not enter into it.  Nothing is sent to anybody, and
    the state is the same afterwards but for the authenticator's counters and buckets. *)
Theorem anonymous_sees_nothing x w s :
  checking s → anonymous_to (x_now x) w s →
  ∃ a, a_cfg a = a_cfg (sv_auth (p_srv s))
    ∧ serve_ x w s
      = (public_answer (x_now x) (request_id (x_ambient x) (api_view w)) (sv_auth (p_srv s)) (nv_cfg (p_node s))
           (handleReady (p_node s)) w,
         with_srv (with_auth a (p_srv s)) s, []).
Proof.
  intros (He & Hp & Hmw) ([e Hv] & Hk & Hi). unfold serve, public_answer.
  assert (∀ o, ∃ a, a_cfg a = a_cfg (sv_auth (p_srv s)) ∧ (mret o : M process effect outcome) s = (o, with_srv (with_auth a (p_srv s)) s, [])) as Hret.
  { intros o. exists (sv_auth (p_srv s)). by rewrite with_auth_same. }
  destruct (findHandler _ _ _) as [[pat h] vals|to|] eqn:Ef; [|apply Hret..].
  destruct h as [| |d| |ep|r| |]; cbn [run_route]; try apply Hret.
  - exists (AuthenticateRequest (sv_auth (p_srv s)) (auth_view w) (x_now x) "").2. split; [apply AuthenticateRequest_cfg|].
    unfold on_server, mbind, M_bind. by rewrite (HandleWS_refuses _ _ _ _ _ _ _ e He Hv).
  - unfold protected, mbind, M_bind, get, modify, ProtectHTTP. rewrite He, Hp, Hv. cbn. eexists. split; [|reflexivity]. done.
  - exists (sv_auth (p_srv s)). rewrite with_auth_same. unfold mbind, M_bind, get, modify.
    rewrite internal_opaque by (unfold outsider; cbn; by rewrite Hi, andb_false_r). cbn. by destruct s.
  - apply findHandler_sound in Ef as (Hin & _). apply api_route_mounted in Hin as [Hmt _].
    exists (sv_auth (p_srv s)). rewrite with_auth_same. unfold serve_api. rewrite serve_route_run.
    assert (Api.wrap (st_mw (p_api s)) r.1 (h_creds (api_view w)) (x_now x)
      = (inl (apiErr CodeUnauthorized "missing or invalid API key"), st_mw (p_api s))) as Hw.
    { unfold Api.wrap. rewrite (Hmw Hmt). cbn [negb h_creds api_view]. by rewrite Hk. }
    cbn [fst snd]. rewrite Hw. cbn. by destruct s as [? ? ? [] ?].
Qed.
End guarded.

(** ** Startup and shutdown *)

Section startup.
Context (env : string → string) (ParseFloat : string → option float64).

(** src/internal/sfu/core_sfu.go:181-228 [New]  [codecs]: the library registers its codecs
    and interceptors; [listen]: whether a port can be bound.  An SFU without rooms. *)
Definition sfu_New (codecs : bool) (listen : Z → bool) (gomaxprocs : Z) : option Sfu.sfu :=
  let cfg := configFromEnv env gomaxprocs in
  if negb (bool_decide (sfu_Validate cfg = [])) then None
  else if negb codecs then None
  else
    network ← configureNetwork env listen;
    Some (init (SubQueueAudio cfg) (SubQueueVideo cfg) (SendQueue.mkPool ∅ [] 0)).

(** src/internal/signaling/ws_server.go:140-203 [NewServerWithDeps]  The hooks it installs in
    the SFU; those of the cross-node media only when that is on. *)
Definition NewServerWithDeps (media_enabled codecs : bool) (listen : Z → bool) (gomaxprocs : Z) : option Sfu.sfu :=
  s ← sfu_New codecs listen gomaxprocs;
  Some (set_hooks media_enabled media_enabled true s).

(** src/internal/signaling/ws_server.go:108-125 [NewServer]  The authenticator, the cluster's
    configuration and the SFU. *)
Definition NewServer (fresh : string) (redis_ok codecs : bool) (listen : Z → bool) (gomaxprocs : Z)
    : option (Authenticator * ClusterTypes.Config * Sfu.sfu) :=
  let '(cc, media) := cluster_FromEnv env ParseFloat fresh in
  a ← Build (auth_FromEnv env).1;
  c ← cluster_New cc fresh redis_ok;
  s ← NewServerWithDeps (media_Enabled media) codecs listen gomaxprocs;
  Some (a, c, s).

(** A process that is listening. *)
Record started := mkStarted {
  s_port : Z; s_addr : string; s_web : string; s_mounts : mounts; s_auth : Authenticator; s_cluster : ClusterTypes.Config;
  s_api : middleware; s_sfu : Sfu.sfu
}.

(** src/cmd/server/main.go:21-34 [main: startup]  [None]: the process exits. *)
Definition main_start (is_dir : string → bool) (fresh : string) (redis_ok codecs : bool) (listen : Z → bool) (gomaxprocs : Z)
    : option started :=
  let '(port, addr, web, sdk, errs) := loadServerConfig env is_dir in
  if negb (bool_decide (errs = [])) then None
  else
    '(a, c, media) ← NewServer fresh redis_ok codecs listen gomaxprocs;
    let api := api_FromEnv env in
    Some (mkStarted port addr web (mkMounts (api_mounted api) (is_dir sdk)) a c (newMiddleware api) media).
End startup.

(** src/cmd/server/main.go:122-142 [main: stop]  What the node does between the signal
    and the end: it drains, the heartbeat loop runs on while connections finish, and it
    leaves the cluster. *)
Definition main_stop (t1 t2 : Z) (meanwhile : list life_step) : list life_step :=
  SBeginShutdown t1 :: meanwhile ++ [SShutdown t2].

(** What a process that came up has checked: a valid port, a directory to serve, a secret
    if it enforces tokens, a cluster secret if it is clustered; its API, where it is
    mounted, checks keys unless it was switched off in words and webhooks are on; and its
    SFU starts empty, with queues that hold a packet and the hook for failed subscriptions. *)
Theorem startup_sound env ParseFloat is_dir fresh redis_ok codecs listen procs st :
  main_start env ParseFloat is_dir fresh redis_ok codecs listen procs = Some st →
  1 ≤ s_port st ≤ 65535 ∧ is_dir (s_web st) = true
  ∧ (cfg_Enabled (a_cfg (s_auth st)) = true → blank (v_secret (cfg_validator (a_cfg (s_auth st)))) = false)
  ∧ (ClusterTypes.Enabled (s_cluster st) = true → Secret (s_cluster st) ≠ "")
  ∧ registers (server_routes (s_mounts st)).*1 = true
  ∧ (m_api (s_mounts st) = true → mw_enabled (s_api st) = false →
     trim (env "PULSERTC_API_ENABLED") ∈ false_words ∧ trim (env "PULSERTC_WEBHOOK_URL") ≠ "")
  ∧ (Sfu.rooms (s_sfu st) = ∅ ∧ 1 ≤ subQueueAudioCap (s_sfu st) ∧ 1 ≤ subQueueVideoCap (s_sfu st) ∧ subFailedHook (s_sfu st) = true).
Proof.
  unfold main_start. destruct (loadServerConfig env is_dir) as [[[[port addr] web] sdk] errs] eqn:El.
  destruct (bool_decide (errs = [])) eqn:Ee; [|done]. apply bool_decide_eq_true in Ee as ->. cbn [negb].
  unfold NewServer. destruct (cluster_FromEnv env ParseFloat fresh) as [cc media]. destruct (Build (auth_FromEnv env).1) as [a|] eqn:Ea; [|done]. cbn [mbind option_bind].
  destruct (cluster_New _ _ _) as [c|] eqn:Ec; [|done]. cbn [mbind option_bind].
  unfold NewServerWithDeps, sfu_New. destruct (bool_decide (sfu_Validate _ = [])) eqn:Ev; [|done]. destruct codecs; [|done].
  cbn [negb]. destruct (configureNetwork env listen) as [nw|]; [|done]. cbn [mbind option_bind]. intros [= <-]. cbn [s_port s_web s_auth s_cluster s_mounts s_api m_api].
  assert (1 ≤ port ≤ 65535 ∧ is_dir web = true) as [Hport Hweb].
  { unfold loadServerConfig in El. cbv zeta in El. destruct (decide (env "PORT" = "")).
    - injection El as <- _ <- _ H. split; [lia|]. by destruct (is_dir _).
    - destruct (Atoi _) as [p [e|]]; [discriminate El|]. destruct ((p <? 1) || (65535 <? p)) eqn:Ep; [discriminate El|].
      injection El as <- _ <- _ H. apply orb_false_iff in Ep as [E1 E2]. split; [zbool; lia|]. by destruct (is_dir _). }
  split_and!; [lia|lia|exact Hweb|..].
  - unfold Build in Ea. destruct (cfg_Enabled (auth_FromEnv env).1 && _) eqn:En; simplify_eq. cbn [a_cfg]. intros He.
    by rewrite He in En.
  - destruct (cluster_starts_sound _ _ _ _ Ec) as [H _]. intros He. by apply H.
  - apply routes_register.
  - unfold api_mounted. intros Hm Hw. change (Api.Enabled (api_FromEnv env) = false) in Hw. rewrite Hw in Hm. cbn [orb] in Hm.
    split; [apply envBool_off; exact Hw|]. apply negb_true_iff, bool_decide_eq_false in Hm. exact Hm.
  - done.
  - apply bool_decide_eq_true in Ev. unfold sfu_Validate in Ev. change (1 ≤ SubQueueAudio (configFromEnv env procs)).
    destruct (SubQueueAudio _ <? 1) eqn:E; [by destruct (_ <? 1) in Ev|]. zbool. lia.
  - apply bool_decide_eq_true in Ev. unfold sfu_Validate in Ev. change (1 ≤ SubQueueVideo (configFromEnv env procs)).
    destruct (SubQueueVideo _ <? 1) eqn:E; [by destruct (NegotiationConcurrency _ <? 1), (SubQueueAudio _ <? 1) in Ev|]. zbool. lia.
  - done.
Qed.

(** ** Concrete runs *)

#[local] Existing Instance toy_mac.
#[local] Existing Instance toy_json.

Definition demo_view : node_view :=
  mkView ClusterFacade.demo_cfg (cluster_FromEnv (env_of []) (λ _, None) "").2 "memory" ""
    (newLife ClusterFacade.demo_cfg 0 (NewInMemoryNodeRegistry 15)) NewInMemoryRoomLocator ∅ (Some NewInMemoryLoadStore) None None
    zero_metrics.

(** The two connections of SignalingSafety in room-1, and an API with the given
    configuration. *)
Definition demo_process (api : Api.Config) : process :=
  mkProcess (cf_srv two_conf) (state_after meeting) demo_view (mkApi (newMiddleware api) (NewRoomRegistry 0)) (mkCounters 0 0 0 0).

Definition demo_x : surroundings :=
  mkSurroundings demo_now "u" "x9" 9 true (mkAmbient 1 2 3 [] [xab]) (λ _, None) (λ _, 0) plain_env plain_env
    (λ _, SfuStats.mkView "connected" "connected" ∅) (λ e _, map_to_list (streams e)) (λ _, None) ("linux", "amd64", 4, "go1.24") 0 1
    (mkMem 0 0 0 0 0 0) [] (0, 0, 0) (newDurationHistogram []).

Definition demo_wire (method path key : string) : wire_request :=
  mkWire method (bytes_of path) [] (bytes_of key) [] [] [] "10.0.0.9:1" (Some "10.0.0.9") [] [] [] false Malformed "room-1".

Definition demo_serve (api : Api.Config) (w : wire_request) : outcome * process * list effect :=
  serve id (λ _, inl "") (λ _, inl "") (λ r, bytes_of (resp_RoomID r)) (λ _, None) (λ _, None) (λ _, None) api
    (NewTokenIssuer demo_validator api) (mkMounts (api_mounted api) false) demo_x w (demo_process api).

Lemma demo_checking : checking (mkMounts true false) (demo_process Api.demo_config).
Proof. by vm_compute. Qed.

Lemma anonymous_sees_nothing_witness :
  (∃ s', demo_serve Api.demo_config (demo_wire "GET" "/sfu/stats" "") = (OUnauthorized, s', []))
  ∧ (∃ r s', demo_serve Api.demo_config (demo_wire "DELETE" "/v1/rooms/room-1" "nope") = (OApi r, s', []) ∧ rs_status r = 401).
Proof.
  assert (∀ w, authenticate (newMiddleware Api.demo_config) (mkApiRequest (w_APIKey w) (w_Authorization w)) = None →
    (match Validate demo_validator (TokenFromRequest (auth_view w)) demo_now with inl _ => true | inr _ => false end) = true →
    InternalAuthMiddleware (w_Authorization w) "s" = false → anonymous_to demo_now w (demo_process Api.demo_config)) as Ha.
  { intros w H1 H2 H3. split; [|by split]. change (cfg_validator _) with demo_validator.
    destruct (Validate _ _ _) as [e|]; [by exists e|done]. }
  split.
  - destruct (anonymous_sees_nothing id (λ _, inl "") (λ _, inl "") (λ r, bytes_of (resp_RoomID r)) (λ _, None) (λ _, None)
      (λ _, None) Api.demo_config (NewTokenIssuer demo_validator Api.demo_config) (mkMounts true false) demo_x
      (demo_wire "GET" "/sfu/stats" "") (demo_process Api.demo_config) demo_checking) as (a & _ & E).
    + apply Ha; vm_compute; reflexivity.
    + eexists. etransitivity; [exact E|]. vm_compute (public_answer _ _ _ _ _ _ _). reflexivity.
  - destruct (anonymous_sees_nothing id (λ _, inl "") (λ _, inl "") (λ r, bytes_of (resp_RoomID r)) (λ _, None) (λ _, None)
      (λ _, None) Api.demo_config (NewTokenIssuer demo_validator Api.demo_config) (mkMounts true false) demo_x
      (demo_wire "DELETE" "/v1/rooms/room-1" "nope") (demo_process Api.demo_config) demo_checking) as (a & _ & E).
    + apply Ha; vm_compute; reflexivity.
    + eexists _, _. split; [etransitivity; [exact E|]; vm_compute (public_answer _ _ _ _ _ _ _); reflexivity|reflexivity].
Defined.

(** Switched off, the API is either absent or open: without a webhook its paths are static
    files; with one, anybody may close a room, and both participants are told. *)
Definition switched_off (webhook : string) : Api.Config :=
  mkApiConfig false [] 600 "" second second false 0 webhook "".

Example api_off_absent :
  (demo_serve (switched_off "") (demo_wire "DELETE" "/v1/rooms/room-1" "")).1.1 = OFile RStatic.
Proof. vm_compute. reflexivity. Qed.

Example api_off_with_webhook_is_open :
  match demo_serve (switched_off "http://hook") (demo_wire "DELETE" "/v1/rooms/room-1" "") with
  | (OApi r, _, effs) =>
      rs_status r = 200 ∧ rs_body r = PClose (mkCloseResponse "room-1" RoomIsClosed 2)
      ∧ omap (λ e, match e with EServer (Queued k (FRoomClosed room why)) => Some (k, room, why) | _ => None end) effs
        = [(0%nat, "room-1", "closed_by_api"); (1%nat, "room-1", "closed_by_api")]
  | _ => False
  end.
Proof. vm_compute. split_and!; reflexivity. Qed.

Lemma api_surface_gated_witness :
  ∃ r, (demo_serve Api.demo_config (demo_wire "GET" "/v1/rooms/room-1" "dash")).1.1 = OApi r
    ∧ ¬ api_acted id (λ _, inl "") (λ _, inl "") (λ r, bytes_of (resp_RoomID r)) (λ _, None) (λ _, None) (λ _, None) Api.demo_config
          (NewTokenIssuer demo_validator Api.demo_config) (mkMounts true false) demo_x (demo_wire "DELETE" "/v1/rooms/room-1" "dash")
          (demo_process Api.demo_config).
Proof.
  destruct (api_surface_gated id (λ _, inl "") (λ _, inl "") (λ r, bytes_of (resp_RoomID r)) (λ _, None) (λ _, None)
    (λ _, None) Api.demo_config (NewTokenIssuer demo_validator Api.demo_config) (mkMounts true false) demo_x
    (demo_wire "GET" "/v1/rooms/room-1" "dash") (demo_process Api.demo_config)) as [_ H]; [reflexivity|discriminate|].
  destruct (H HGetRoom ["room-1"] (mkKey "dash" [RoomsRead; QualityRead])) as (pv & _ & _ & Hv & _); [vm_compute; reflexivity..|].
  eexists. split; [exact Hv|].
  destruct (api_surface_gated id (λ _, inl "") (λ _, inl "") (λ r, bytes_of (resp_RoomID r)) (λ _, None) (λ _, None)
    (λ _, None) Api.demo_config (NewTokenIssuer demo_validator Api.demo_config) (mkMounts true false) demo_x
    (demo_wire "DELETE" "/v1/rooms/room-1" "dash") (demo_process Api.demo_config)) as [H2 _]; [reflexivity|discriminate|].
  intros Hact. destruct (H2 Hact) as (_ & h & vs & key & Hr & Hk & Hs). vm_compute in Hr. injection Hr as <- <-.
  vm_compute in Hk. injection Hk as <-. vm_compute in Hs. discriminate Hs.
Defined.
